(* ===== verification/_CoqProject ===== *)
-Q . S2P
Prelude.v
KString.v
Kmem.v
KPages.v
Coremap.v
KHeap.v
KHeapSpec.v
KHeapOps.v
KHeapThm.v
KArray.v
KQueue.v
KBitmap.v
Vm.v
VmPages.v
VmSpec.v
VmFault.v
VmOps.v
VmLife.v
VmThm.v
UMalloc.v
UMallocSpec.v
UMallocOps.v
UMallocFree.v
UMallocThm.v
UProc.v
Trap.v
TrapThm.v
Printf.v
PrintfThm.v
CopyInOut.v
Uio.v
BlockDev.v
Lhd.v
SfsDisk.v
Vnode.v
Vfs.v
VfsSpec.v
VfsOps.v
VfsMount.v
VfsAdd.v
Device.v
VfsThm.v
Thread.v
ThreadSpec.v
ThreadInv.v
ThreadOps.v
ThreadSync.v
ThreadLife.v
ThreadProc.v
ThreadRun.v
ThreadBoot.v
ThreadStep.v
ThreadThm.v
SfsCore.v
SfsSpec.v
SfsMap.v
SfsFile.v
SfsFileSpec.v
SfsFileThm.v
SfsLhd.v
SfsTrunc.v
SfsDir.v
SfsVnode.v
SfsVnodeSpec.v
SfsVnodeThm.v
SfsFs.v
SfsFsSpec.v
SfsFsThm.v
MkSfs.v
MkSfsThm.v
LoadElf.v
LoadElfThm.v
RunProgram.v
RunProgramThm.v
UserSort.v
Stoplight.v
StoplightThm.v
