(* ===== verification/Prelude.v ===== *)
(** * OS/161 verified

    A verification of the OS/161 kernel of this repository (src/os161/kern),
    of the C library routines it shares with programs (src/os161/lib/libc), of
    the program that makes volumes (src/os161/sbin/mksfs) and of one of the
    programs that test the kernel (src/os161/testbin/sort).  Paths below are
    relative to src/os161; a file of the development is named by its stem.

    ** The program and its parts

    From the bottom up:

    - memory: the coremap (kern/vm/vm.c) hands out pages, the kernel heap
      (kern/lib/kheap.c) cuts pages into blocks, and almost everything else
      calls [kmalloc] and [kfree];
    - containers: arrays, queues and bitmaps (kern/lib) on the heap;
    - threads: thread.c, scheduler.c and synch.c of kern/thread, with the
      processes of kern/main/process_create.c and syscall.c;
    - virtual memory: address spaces with two-level page tables, the fault
      handler and the TLB (kern/vm, kern/userprog/mem.c);
    - files: a disk driver (kern/dev/lamebus/lhd.c) under a file system
      (kern/fs/sfs), under vnodes and the VFS layer (kern/fs/vfs);
    - programs: the loader (kern/userprog), traps and system calls
      (kern/arch/mips/mips), the allocator and formatted output of the C
      library.

    Components meet at interfaces, which are type classes with a class of laws
    beside them.  A client is proved against the laws; the component below is
    an instance:

    - [Kmem]/[KmemOk] (Kmem): what the heap promises; KHeapOps has the
      instance, for every page allocator that is a [KpagesOk];
    - [Kpages]/[KpagesOk] (KPages): pages; Coremap has the instance;
    - [BlockDev]/[BlockDevOk] (BlockDev): sectors; Lhd has the instance, for
      every disk that is an [LhdHw];
    - [Vref]/[VrefOk] (Vm): the reference counts of vnodes that address spaces
      rely on; [Files]/[FilesOk] (Vfs, VfsSpec): vnodes and file systems as
      the VFS layer uses them; [ExecFile]/[ExecFileOk] (LoadElf) and
      [OpenFile]/[OpenFileOk] (RunProgram): reading and opening a file as the
      loader does;
    - [Proc]/[ProcOk] (UMalloc): loads, stores and [sbrk] of a process; UProc
      has the instance on virtual memory;
    - [Kernel] (Trap): what the trap handler calls; TrapThm has an instance on
      virtual memory;
    - [Sink] (PrintfThm): where formatted output goes.

    ** How the code is modelled

    A routine is a function in the monad [M] of this file, over a record that
    holds the state it works on: it returns a value, returns an error code
    with the state it leaves behind, stops in [panic] or [assert], or never
    returns.  Machine integers are [Z] with the conversions [u8], [u16], [u32]
    and [i32] written where the C code has them.  A pointer is its address.
    Loops that are not structural have fuel; running out of it is [Hang], and
    every theorem about such a routine proves that it does not happen.  [wp]
    is total correctness: a routine meets its postcondition on success and its
    error condition on failure, and neither panics nor hangs.

    ** Files and what they show

    Prelude: errors, machine integers, the monad and [wp], lemmas on lists.
    KString: strlen, strcmp, strcpy, strcat, strchr, strrchr, memcpy, memmove,
    memset and bzero of lib/libc.

    Memory.  Coremap: [getppages], [alloc_kpages], [free_kpages] and the start
    of memory; runs of pages never overlap.  KHeap (definitions), KHeapSpec
    (invariant), KHeapOps (each routine), KHeapThm: [kmalloc] gives a block
    that is apart from every other, [kfree] takes back that block only, and
    the contents of other blocks stay.  KArray, KQueue, KBitmap: arrays are
    lists, the ring buffer is a first-in first-out list across its growth,
    bitmaps are sets of numbers.

    Virtual memory.  Vm (definitions), VmPages, VmSpec (invariant), VmFault,
    VmOps, VmLife, VmThm: [vm_refines] is a simulation between programs,
    loader and scheduler acting on the kernel and a machine in which every
    address space is a private array of bytes; [vm_isolated] says that no two
    pages share memory and the TLB agrees with the page table.

    Programs.  UMalloc, UMallocSpec, UMallocOps, UMallocFree, UMallocThm:
    [malloc] and [free] refine separate arrays; UProc runs them on the virtual
    memory of the kernel.  Trap, TrapThm: what a trap changes of the registers
    of a program, page faults that programs do not see, the two returns of
    fork.  LoadElf, LoadElfThm, RunProgram, RunProgramThm: a program is in
    memory as its file describes it, and finds its arguments.  Printf,
    PrintfThm: formatted output against a reference, and [atoi].  UserSort:
    the sorting test sorts.

    Transfer.  CopyInOut, Uio: copying between user and kernel memory and the
    descriptors of transfers.

    Files.  BlockDev, Lhd: the driver, its interrupt handler and its disk.
    SfsDisk: the layout on disk.  SfsCore, SfsSpec, SfsMap: blocks and the
    block map.  SfsFile, SfsFileSpec, SfsFileThm: reads and writes are those
    of an array of bytes, and files are apart.  SfsTrunc: truncation.  SfsDir:
    directories are finite maps.  SfsVnode, SfsVnodeSpec, SfsVnodeThm: one
    vnode per inode, creation and reclaiming.  SfsFs, SfsFsSpec, SfsFsThm:
    mounting and writing back are inverse.  SfsLhd: retries on the real
    driver.  MkSfs, MkSfsThm: what mksfs writes is what the kernel mounts.
    Vnode: reference counts under their lock.  Vfs, VfsSpec, VfsOps, VfsMount,
    VfsAdd, Device, VfsThm: names, paths and devices, and no reference gained
    or lost by any call.

    Threads.  Thread (definitions), ThreadSpec, ThreadInv (invariant),
    ThreadOps, ThreadSync, ThreadLife, ThreadProc, ThreadRun, ThreadBoot,
    ThreadStep (the step relation), ThreadThm: every thread is in one place,
    no wakeup is lost, locks exclude, the scheduler is fair.  Stoplight,
    StoplightThm: the solution of the intersection exercise on semaphores has
    neither collisions nor deadlocks.

    ** Bounds, fuel and assumptions

    Fuel: [grow_max] 33 doublings of an array, since sizes have 32 bits;
    [uiomove_loop] 3, since a descriptor has one region; [sfs_rwblock] the ten
    retries of the source; [list_fuel] 257, one more than the pages of blocks
    the heap can describe; [find_bit] 33 bits of a word; [wakeup_loop] the number of
    sleepers; [search_fuel] the size of the heap over the size of a header;
    [diskwrite_loop] the number of answers the system gives, plus one;
    [uiomovezeros_loop] the bytes to clear; [sort] the length of the array;
    loops over tables are bounded by the table.

    One processor: a routine that runs with interrupts off is one step, and in
    Thread a routine is one step up to the place where it gives the processor
    away; interrupts come between calls and in the idle loop.  [room] in
    ThreadRun bounds the number of threads so that the sizes of their tables
    stay in 32 bits.  [Kenv] (Thread) is the heap of the thread system.  In Stoplight
    each [P], [V] and message is a step, and the directions that [random]
    gives are arbitrary.

    Virtual memory is verified for machines with at most 1 MB of memory: above
    that the 20-bit field for the page address loses bits
    ([page_address_truncated]).  [as_create] leaves part of its block as it
    was; [blank] says that this part is zero.  In Vfs a lock is seen by one
    thread, and the memory of the table is apart from what the file systems
    use.  In MkSfs the system is a list of answers to its calls, which may
    transfer less than asked, ask to try again or fail.

    ** Not modelled, and why

    Assembly (start.S, switch.S, exception.S) and the set-up of the bus and
    the character devices (kern/dev): registers and nothing else.  The
    emulator file system (dev/lamebus/emu.c): every operation is one exchange
    with the host.  The console, kgets and the menu: input and output only.
    The clock: it calls [thread_yield] and [thread_wakeup], which are modelled.
    [sys_execv]: it stores through an uninitialised pointer before it does
    anything else.  [sys_fork], [sys_read] and [sys_write]: they work on the
    memory of programs through plain pointers; Trap has them behind an
    interface.  The exercises catlock.c and catsem.c, the tests in kern/test,
    and the programs in bin and testbin other than sort.  Routines that only
    print. *)

From stdpp Require Export base numbers list gmap.
From Stdlib Require Export ZArith Lia.
#[export] Set Default Proof Using "Type".

Declare Scope kern_scope.
Delimit Scope kern_scope with kern.
#[global] Open Scope kern_scope.
#[global] Open Scope Z_scope.

(** ** Error codes (kern/include/kern/errno.h) *)

Inductive errno : Set :=
| EINVAL | EFAULT | ENAMETOOLONG | ENOMEM | EIO | ENOENT | ENOTDIR | EISDIR
| EEXIST | EXDEV | EAGAIN | ESPIPE | EUNIMP | ENXIO | ENODEV | EBUSY | EIOCTL
| ENOTEMPTY | ERANGE | ENOSPC | EMFILE | ENFILE | ENOSYS | ENOEXEC | E2BIG
| EBADF.

#[global] Instance errno_eq_dec : EqDecision errno.
Proof. solve_decision. Defined.

(** The integer the kernel hands back for each error. *)
Definition errno_code (e : errno) : Z :=
  match e with
  | EINVAL => 1 | EFAULT => 2 | ENAMETOOLONG => 3 | ENOMEM => 4 | EIO => 5
  | ENOENT => 6 | ENOTDIR => 7 | EISDIR => 8 | EEXIST => 9 | EXDEV => 10
  | EAGAIN => 11 | ESPIPE => 12 | EUNIMP => 13 | ENXIO => 14 | ENODEV => 15
  | EBUSY => 16 | EIOCTL => 17 | ENOTEMPTY => 18 | ERANGE => 19
  | ENOSPC => 20 | EMFILE => 21 | ENFILE => 22 | ENOSYS => 23
  | ENOEXEC => 24 | E2BIG => 25 | EBADF => 26
  end.

(** ** Machine integers

    A C object of width [w] is a [Z]; the functions below are the
    conversions to [u_int8_t], [u_int16_t], [u_int32_t] and [int32_t].
    Signed arithmetic wraps in two's complement, which is what the MIPS
    [addu]/[mult] instructions emitted for it do. *)

Definition u8 (x : Z) : Z := x mod 256.
Definition u16 (x : Z) : Z := x mod 65536.
Definition u32 (x : Z) : Z := x mod 4294967296.
Definition i32 (x : Z) : Z := (x + 2147483648) mod 4294967296 - 2147483648.

Definition DIVROUNDUP (a b : Z) : Z := (a + b - 1) / b.
Definition ROUNDUP (a b : Z) : Z := DIVROUNDUP a b * b.

(** ** The kernel monad

    A kernel routine runs on a state and either returns a value ([Ok]), or
    returns an error code with the state it leaves behind ([Err]: an early
    [return result] does not undo earlier stores), or stops the machine in
    [panic]/[assert] ([Panic]), or never returns ([Hang]). *)

Inductive outcome (S A : Type) : Type :=
| Ok (a : A) (s : S)
| Err (e : errno) (s : S)
| Panic
| Hang.
Arguments Ok {S A} _ _.
Arguments Err {S A} _ _.
Arguments Panic {S A}.
Arguments Hang {S A}.

Definition M (S A : Type) : Type := S → outcome S A.

Section monad.
Context {S : Type}.

Definition ret {A} (a : A) : M S A := λ s, Ok a s.
Definition fail {A} (e : errno) : M S A := λ s, Err e s.
Definition panic {A} : M S A := λ _, Panic.
Definition hang {A} : M S A := λ _, Hang.
Definition bind {A B} (c : M S A) (f : A → M S B) : M S B := λ s,
  match c s with
  | Ok a s' => f a s'
  | Err e s' => Err e s'
  | Panic => Panic
  | Hang => Hang
  end.
Definition get : M S S := λ s, Ok s s.
Definition put (s : S) : M S unit := λ _, Ok tt s.
Definition modify (f : S → S) : M S unit := λ s, Ok tt (f s).
Definition gets {A} (f : S → A) : M S A := λ s, Ok (f s) s.

(** [assert(x)] panics when its argument is false. *)
Definition kassert (b : bool) : M S unit := if b then ret tt else panic.

(** [result = c();] with the caller looking at the result itself. *)
Definition try {A} (c : M S A) : M S (errno + A) := λ s,
  match c s with
  | Ok a s' => Ok (inr a) s'
  | Err e s' => Ok (inl e) s'
  | Panic => Panic
  | Hang => Hang
  end.

Definition when (b : bool) (c : M S unit) : M S unit := if b then c else ret tt.

End monad.

Notation "'let!' x := c 'in' k" := (bind c (λ x, k))
  (at level 10, x name, c at level 200, k at level 200) : kern_scope.
Notation "'let!' ' p := c 'in' k" := (bind c (λ x, match x with p => k end))
  (at level 10, p pattern, c at level 200, k at level 200) : kern_scope.
Notation "c1 ;;; c2" := (bind c1 (λ _, c2))
  (at level 199, c2 at level 200, right associativity) : kern_scope.

(** Running a routine on one field of a larger state. *)
Definition zoom {S T A} (prj : S → T) (upd : T → S → S) (c : M T A) : M S A :=
  λ s, match c (prj s) with
       | Ok a t => Ok a (upd t s)
       | Err e t => Err e (upd t s)
       | Panic => Panic
       | Hang => Hang
       end.

(** [for (i = lo; i < lo + n; i++) body(i)] *)
Fixpoint for_range {S} (n : nat) (lo : Z) (body : Z → M S unit) : M S unit :=
  match n with
  | O => ret tt
  | Datatypes.S n' => body lo ;;; for_range n' (lo + 1) body
  end.

(** ** Total-correctness triples

    [wp c Q E s]: from [s] the routine [c] neither panics nor hangs, a
    normal return satisfies [Q] and an error return satisfies [E]. *)

Definition wp {S A} (c : M S A) (Q : A → S → Prop) (E : errno → S → Prop)
  (s : S) : Prop :=
  match c s with
  | Ok a s' => Q a s'
  | Err e s' => E e s'
  | Panic | Hang => False
  end.

Section wp.
Context {S : Type}.
Implicit Types (s : S).

Lemma wp_ret {A} (a : A) Q E s : Q a s → wp (ret a) Q E s.
Proof. done. Qed.
Lemma wp_fail {A} e (Q : A → S → Prop) (E : errno → S → Prop) s :
  E e s → wp (fail e) Q E s.
Proof. done. Qed.
Lemma wp_bind {A B} (c : M S A) (f : A → M S B) Q E s :
  wp c (λ a s', wp (f a) Q E s') E s → wp (bind c f) Q E s.
Proof. unfold wp, bind. destruct (c s); naive_solver. Qed.
Lemma wp_mono {A} (c : M S A) (Q Q' : A → S → Prop) (E E' : errno → S → Prop) s :
  wp c Q E s → (∀ a s', Q a s' → Q' a s') → (∀ e s', E e s' → E' e s') →
  wp c Q' E' s.
Proof. unfold wp. destruct (c s); naive_solver. Qed.
Lemma wp_run {A} (c : M S A) Q E s a s' : c s = Ok a s' → wp c Q E s → Q a s'.
Proof. unfold wp. by intros ->. Qed.
Lemma wp_and {A} (c : M S A) (Q Q' : A → S → Prop) (E E' : errno → S → Prop) s :
  wp c Q E s → wp c Q' E' s → wp c (λ a s', Q a s' ∧ Q' a s') (λ e s', E e s' ∧ E' e s') s.
Proof. unfold wp. by destruct (c s). Qed.
Lemma wp_kassert b (Q : unit → S → Prop) E s :
  b = true → Q tt s → wp (kassert b) Q E s.
Proof. by intros -> ?. Qed.
Lemma wp_try {A} (c : M S A) Q E s :
  wp c (λ a s', Q (inr a) s') (λ e s', Q (inl e) s') s → wp (try c) Q E s.
Proof. unfold wp, try. destruct (c s); naive_solver. Qed.
Lemma wp_Ok {A} (c : M S A) Q E s :
  wp c Q E s → (∃ a s', c s = Ok a s' ∧ Q a s') ∨ (∃ e s', c s = Err e s' ∧ E e s').
Proof. unfold wp. destruct (c s); naive_solver. Qed.

Lemma wp_zoom {T A} (prj : S → T) upd (c : M T A) Q E s :
  wp c (λ a t, Q a (upd t s)) (λ e t, E e (upd t s)) (prj s) →
  wp (zoom prj upd c) Q E s.
Proof. unfold wp, zoom. destruct (c (prj s)); naive_solver. Qed.
Lemma wp_when b (c : M S unit) Q E s :
  (b = true → wp c Q E s) → (b = false → Q tt s) → wp (when b c) Q E s.
Proof. destruct b; naive_solver. Qed.

Lemma wp_gets {A} (f : S → A) Q E s : Q (f s) s → wp (gets f) Q E s.
Proof. done. Qed.
Lemma wp_get Q E s : Q s s → wp (get) Q E s.
Proof. done. Qed.
Lemma wp_modify (f : S → S) Q E s : Q tt (f s) → wp (modify f) Q E s.
Proof. done. Qed.

Lemma bind_Ok {A B} (c : M S A) (f : A → M S B) s b s' :
  bind c f s = Ok b s' ↔ ∃ a s1, c s = Ok a s1 ∧ f a s1 = Ok b s'.
Proof. unfold bind. destruct (c s); naive_solver. Qed.
Lemma bind_step {A B} (c : M S A) (f : A → M S B) s a s' :
  c s = Ok a s' → bind c f s = f a s'.
Proof. unfold bind. by intros ->. Qed.
Lemma bind_err {A B} (c : M S A) (f : A → M S B) s e s' :
  c s = Err e s' → bind c f s = Err e s'.
Proof. unfold bind. by intros ->. Qed.

(** The loop rule: an invariant indexed by the loop counter. *)
Lemma wp_for_range (I : Z → S → Prop) E n lo body s :
  I lo s →
  (∀ i s', lo ≤ i < lo + Z.of_nat n → I i s' →
     wp (body i) (λ _ s'', I (i + 1) s'') E s') →
  wp (for_range n lo body) (λ _ s', I (lo + Z.of_nat n) s') E s.
Proof.
  revert lo s. induction n as [|n IH]; intros lo s Hlo Hbody; simpl.
  { by rewrite Z.add_0_r. }
  apply wp_bind. eapply wp_mono; [apply Hbody; [lia|done]| |done].
  intros [] s1 Hs1. replace (lo + Z.of_nat (Datatypes.S n)) with (lo + 1 + Z.of_nat n) by lia.
  apply IH; [done|]. intros i s2 Hi. apply Hbody. lia.
Qed.

Lemma i32_small x : -2147483648 ≤ x < 2147483648 → i32 x = x.
Proof. unfold i32. intros. rewrite Z.mod_small; lia. Qed.
Lemma i32_range x : -2147483648 ≤ i32 x < 2147483648.
Proof. unfold i32. pose proof (Z.mod_pos_bound (x + 2147483648) 4294967296 eq_refl). lia. Qed.
Lemma u32_small x : 0 ≤ x < 4294967296 → u32 x = x.
Proof. unfold u32. intros. rewrite Z.mod_small; lia. Qed.

End wp.

(** ** Arrays and buffers

    A C array or buffer is a list; C indices and lengths are integers. *)

Definition zlen {A} (l : list A) : Z := Z.of_nat (length l).
Definition zget {A} (l : list A) (i : Z) : option A :=
  if decide (0 ≤ i) then l !! Z.to_nat i else None.
Definition zset {A} (l : list A) (i : Z) (x : A) : list A :=
  if decide (0 ≤ i) then <[Z.to_nat i := x]> l else l.
Definition ztake {A} (n : Z) (l : list A) : list A := take (Z.to_nat n) l.
Definition zdrop {A} (n : Z) (l : list A) : list A := drop (Z.to_nat n) l.

(** Store the bytes [d] at offset [off] of [l]. *)
Definition splice {A} (l : list A) (off : Z) (d : list A) : list A :=
  ztake off l ++ d ++ zdrop (off + zlen d) l.

Section zlist.
Context {A : Type}.
Implicit Types (l d : list A).

Lemma zlen_nonneg l : 0 ≤ zlen l.
Proof. unfold zlen. lia. Qed.
Lemma zlen_app l d : zlen (l ++ d) = zlen l + zlen d.
Proof. unfold zlen. rewrite length_app. lia. Qed.
Lemma zlen_cons x l : zlen (x :: l) = 1 + zlen l.
Proof. unfold zlen. simpl. lia. Qed.
Lemma zlen_nil : zlen (@nil A) = 0.
Proof. done. Qed.
Lemma zlen_0_nil l : zlen l = 0 → l = [].
Proof. destruct l; [done|]. rewrite zlen_cons. pose proof (zlen_nonneg l). lia. Qed.
Lemma zlen_ztake n l : 0 ≤ n ≤ zlen l → zlen (ztake n l) = n.
Proof. unfold zlen, ztake. rewrite length_take. lia. Qed.
Lemma zlen_zdrop n l : 0 ≤ n ≤ zlen l → zlen (zdrop n l) = zlen l - n.
Proof. unfold zlen, zdrop. rewrite length_drop. lia. Qed.
Lemma zlen_zset l i x : zlen (zset l i x) = zlen l.
Proof. unfold zset, zlen. case_decide; [by rewrite length_insert|done]. Qed.
Lemma zlen_replicate n (x : A) : zlen (replicate n x) = Z.of_nat n.
Proof. unfold zlen. by rewrite length_replicate. Qed.
Lemma zlen_splice l off d :
  0 ≤ off → off + zlen d ≤ zlen l → zlen (splice l off d) = zlen l.
Proof.
  unfold splice, ztake, zdrop, zlen. intros.
  rewrite !length_app, length_take, length_drop. lia.
Qed.

Lemma zget_Some_range l i x : zget l i = Some x → 0 ≤ i < zlen l.
Proof.
  unfold zget, zlen. case_decide; [|done]. intros ?%lookup_lt_Some. lia.
Qed.
Lemma zget_is_Some l i : 0 ≤ i < zlen l → ∃ x, zget l i = Some x.
Proof.
  unfold zget, zlen. intros. rewrite decide_True by lia.
  apply lookup_lt_is_Some. lia.
Qed.
Lemma zget_nat l (i : nat) : zget l (Z.of_nat i) = l !! i.
Proof. unfold zget. rewrite decide_True by lia. by rewrite Nat2Z.id. Qed.
Lemma zget_fmap {B} (f : A → B) l i : zget (f <$> l) i = f <$> zget l i.
Proof. unfold zget. case_decide; [apply list_lookup_fmap|done]. Qed.
Lemma zget_replicate n (x : A) i y : zget (replicate n x) i = Some y → y = x.
Proof. unfold zget. case_decide; [|done]. by intros [-> _]%lookup_replicate. Qed.
Lemma zset_id l i x : zget l i = Some x → zset l i x = l.
Proof. unfold zget, zset. case_decide; [apply list_insert_id|done]. Qed.
Lemma zget_zset_eq l i x : 0 ≤ i < zlen l → zget (zset l i x) i = Some x.
Proof.
  unfold zget, zset, zlen. intros. rewrite !decide_True by lia.
  apply list_lookup_insert_eq. lia.
Qed.
Lemma zget_zset_ne l i j x : i ≠ j → zget (zset l i x) j = zget l j.
Proof.
  unfold zget, zset. intros. repeat case_decide; try done.
  apply list_lookup_insert_ne. lia.
Qed.
Lemma zget_app_l l d i : i < zlen l → zget (l ++ d) i = zget l i.
Proof.
  unfold zget, zlen. intros. case_decide; [|done]. apply lookup_app_l. lia.
Qed.
Lemma zget_app_r l d i : zlen l ≤ i → zget (l ++ d) i = zget d (i - zlen l).
Proof.
  unfold zget, zlen. intros. rewrite !decide_True by lia.
  rewrite lookup_app_r by lia. f_equal. lia.
Qed.
Lemma zget_ztake l n i : 0 ≤ i < n → zget (ztake n l) i = zget l i.
Proof.
  unfold zget, ztake. intros. case_decide; [|done]. rewrite lookup_take_lt; [done|lia].
Qed.
Lemma zget_zdrop l n i : 0 ≤ n → 0 ≤ i → zget (zdrop n l) i = zget l (n + i).
Proof.
  unfold zget, zdrop. intros. rewrite !decide_True by lia.
  rewrite lookup_drop. f_equal. lia.
Qed.
Lemma zget_splice_in l off d i :
  0 ≤ off → off + zlen d ≤ zlen l → off ≤ i < off + zlen d →
  zget (splice l off d) i = zget d (i - off).
Proof.
  intros ? ? ?. pose proof (zlen_nonneg d). unfold splice.
  rewrite zget_app_r by (rewrite zlen_ztake by lia; lia).
  rewrite zlen_ztake by lia. by rewrite zget_app_l by lia.
Qed.
Lemma zget_splice_out l off d i :
  0 ≤ off → off + zlen d ≤ zlen l → ¬ (off ≤ i < off + zlen d) →
  zget (splice l off d) i = zget l i.
Proof.
  intros ? ? ?. pose proof (zlen_nonneg d). unfold splice.
  destruct (decide (0 ≤ i)); [|by unfold zget; rewrite !decide_False by lia].
  destruct (decide (i < off)).
  - rewrite zget_app_l by (rewrite zlen_ztake by lia; lia).
    by rewrite zget_ztake by lia.
  - rewrite zget_app_r by (rewrite zlen_ztake by lia; lia).
    rewrite zlen_ztake by lia. rewrite zget_app_r by lia.
    rewrite zget_zdrop by lia. f_equal. lia.
Qed.
Lemma zlist_eq l d : (∀ i, 0 ≤ i → zget l i = zget d i) → l = d.
Proof.
  intros Heq. apply list_eq. intros i. rewrite <- !zget_nat. apply Heq. lia.
Qed.
Lemma ztake_zdrop n l : ztake n l ++ zdrop n l = l.
Proof. apply take_drop. Qed.
Lemma splice_nil l off : splice l off [] = l.
Proof. unfold splice. rewrite zlen_nil, Z.add_0_r. apply ztake_zdrop. Qed.
(** A store followed by the stores after it is one longer store. *)
Lemma splice_cons l off x d :
  0 ≤ off < zlen l → splice (zset l off x) (off + 1) d = splice l off (x :: d).
Proof.
  intros Hoff. unfold splice, zset, ztake, zdrop. rewrite decide_True by lia.
  rewrite zlen_cons. unfold zlen in *.
  replace (Z.to_nat (off + 1)) with (S (Z.to_nat off)) by lia.
  rewrite (take_S_r _ _ x) by (apply list_lookup_insert_eq; lia).
  rewrite take_insert_ge, drop_insert_lt by lia. rewrite <- app_assoc. simpl.
  do 4 f_equal. lia.
Qed.
Lemma ztake_all n l : zlen l ≤ n → ztake n l = l.
Proof. unfold ztake, zlen. intros. apply take_ge. lia. Qed.
(** A store that covers the whole buffer. *)
Lemma splice_whole l d : zlen d = zlen l → splice l 0 d = d.
Proof.
  unfold splice, zlen, ztake, zdrop. intros. simpl. rewrite drop_ge by lia. apply app_nil_r.
Qed.
Lemma zdrop_0 l : zdrop 0 l = l.
Proof. done. Qed.
Lemma ztake_0 l : ztake 0 l = [].
Proof. done. Qed.
(** Two stores next to each other are one. *)
Lemma splice_splice l d1 d2 off :
  0 ≤ off → off + zlen d1 + zlen d2 ≤ zlen l →
  splice (splice l off d1) (off + zlen d1) d2 = splice l off (d1 ++ d2).
Proof.
  intros Ho Hb. pose proof (zlen_nonneg d1). pose proof (zlen_nonneg d2).
  apply zlist_eq. intros i Hi.
  destruct (decide (off + zlen d1 ≤ i < off + zlen d1 + zlen d2)).
  - rewrite zget_splice_in by (rewrite ?zlen_splice; lia).
    rewrite zget_splice_in by (rewrite ?zlen_app; lia).
    rewrite zget_app_r by lia. f_equal. lia.
  - rewrite zget_splice_out by (rewrite ?zlen_splice; lia).
    destruct (decide (off ≤ i < off + zlen d1)).
    + rewrite !zget_splice_in by (rewrite ?zlen_app; lia).
      by rewrite zget_app_l by lia.
    + by rewrite !zget_splice_out by (rewrite ?zlen_app; lia).
Qed.
Lemma ztake_app n l d : 0 ≤ n → ztake n (l ++ d) = ztake n l ++ ztake (n - zlen l) d.
Proof. intros. unfold ztake, zlen. rewrite take_app. do 2 f_equal. lia. Qed.
Lemma zlen_ztake_min n l : 0 ≤ n → zlen (ztake n l) = n `min` zlen l.
Proof. intros. unfold ztake, zlen. rewrite length_take. lia. Qed.

End zlist.

(** ** Automation *)

Create HintDb kern.
Create Rewrite HintDb zlist.
#[export] Hint Rewrite @zlen_app @zlen_cons @zlen_nil @zlen_zset @zlen_replicate : zlist.
#[export] Hint Rewrite @zlen_ztake @zlen_zdrop @zlen_splice using lia : zlist.
#[export] Hint Resolve zlen_nonneg wp_ret wp_fail : kern.

(** Step through the first bind of a [wp] goal. *)
(** Single bits. *)
Lemma land_pow2 w o :
  0 ≤ o → Z.land w (2 ^ o) = if Z.testbit w o then 2 ^ o else 0.
Proof.
  intros Ho. apply Z.bits_inj'. intros n Hn.
  rewrite Z.land_spec, Z.pow2_bits_eqb by done.
  destruct (Z.eqb_spec o n) as [->|Hne].
  - rewrite andb_true_r. destruct (Z.testbit w n); [by rewrite Z.pow2_bits_true|].
    by rewrite Z.bits_0.
  - rewrite andb_false_r. case_match; [by rewrite Z.pow2_bits_false|by rewrite Z.bits_0].
Qed.
Lemma testbit_set w o j :
  0 ≤ o → Z.testbit (Z.lor w (2 ^ o)) j = if decide (j = o) then true else Z.testbit w j.
Proof.
  intros Ho. destruct (decide (0 ≤ j)).
  - rewrite Z.lor_spec, Z.pow2_bits_eqb by done. case_decide as Hj.
    + subst. by rewrite Z.eqb_refl, orb_true_r.
    + destruct (Z.eqb_spec o j); [congruence|]. by rewrite orb_false_r.
  - rewrite !Z.testbit_neg_r by lia. case_decide; [lia|done].
Qed.
Lemma testbit_clear w o j :
  0 ≤ o → Z.testbit (Z.land w (Z.lnot (2 ^ o))) j =
          if decide (j = o) then false else Z.testbit w j.
Proof.
  intros Ho. destruct (decide (0 ≤ j)).
  - rewrite Z.land_spec, Z.lnot_spec, Z.pow2_bits_eqb by lia. case_decide as Hj.
    + subst. by rewrite Z.eqb_refl, andb_false_r.
    + destruct (Z.eqb_spec o j); [congruence|]. by rewrite andb_true_r.
  - rewrite !Z.testbit_neg_r by lia. case_decide; [lia|done].
Qed.
Lemma bits_bound w n :
  0 ≤ n → 0 ≤ w → (∀ j, n ≤ j → Z.testbit w j = false) → w < 2 ^ n.
Proof.
  intros Hn Hw Hb. destruct (decide (w = 0)) as [->|]; [by apply Z.pow_pos_nonneg|].
  apply Z.log2_lt_pow2; [lia|]. destruct (decide (Z.log2 w < n)); [done|].
  pose proof (Z.bit_log2 w ltac:(lia)) as Ht. rewrite Hb in Ht by lia. done.
Qed.
Lemma testbit_high w n j : 0 ≤ w < 2 ^ n → 0 ≤ n ≤ j → Z.testbit w j = false.
Proof.
  intros Hw Hj. rewrite <- (Z.mod_small w (2 ^ n)) by done. by rewrite Z.mod_pow2_bits_high by lia.
Qed.

(** Maps with the same bindings are equal. *)
Lemma map_ext_Some {A} (m m' : gmap Z A) :
  (∀ a n, m !! a = Some n ↔ m' !! a = Some n) → m = m'.
Proof. intros Hm. apply map_eq. intros a. apply option_eq. intros n. apply Hm. Qed.

Ltac wp_bind := apply wp_bind.
(** Replace the first routine of the goal by what its specification [H] says. *)
Tactic Notation "wp_use" uconstr(H) := eapply wp_mono; [eapply H|..].
