(* ===== verification/KString.v ===== *)
(** * Strings and memory blocks (lib/libc, the files shared with the kernel)

    A [const char *] argument is the list of bytes from the pointer to the end
    of the object it points into; running off that list is a wild access
    ([None]).  The block functions work on one memory, addressed from 0, since
    source and destination of [memmove] may overlap. *)

From S2P Require Import Prelude.

(** The value of a byte read through a [char *]: [char] is signed. *)
Definition schar (b : Z) : Z := if b <? 128 then b else b - 256.

(** ** Strings *)

Fixpoint strlen (s : list Z) : option Z :=
  match s with
  | [] => None
  | c :: s' => if c =? 0 then Some 0 else Z.succ <$> strlen s'
  end.

Fixpoint strcmp (a b : list Z) : option Z :=
  match a, b with
  | x :: a', y :: b' =>
      if negb (schar x =? 0) && (schar x =? schar y) then strcmp a' b'
      else if schar x >? schar y then Some 1
      else if schar x =? schar y then Some 0
      else Some (-1)
  | _, _ => None
  end.

(** The destination after the copy. *)
Fixpoint strcpy (dest src : list Z) : option (list Z) :=
  match dest, src with
  | _ :: dest', c :: src' =>
      if c =? 0 then Some (0 :: dest') else cons c <$> strcpy dest' src'
  | _, _ => None
  end.

Definition strcat (dest src : list Z) : option (list Z) :=
  offset ← strlen dest;
  app (ztake offset dest) <$> strcpy (zdrop offset dest) src.

(** The offset of the character from [s], or no such character. *)
Fixpoint strchr (s : list Z) (ch : Z) : option (option Z) :=
  match s with
  | [] => None
  | c :: s' =>
      if c =? 0 then Some (if schar c =? ch then Some 0 else None)
      else if schar c =? ch then Some (Some 0)
      else option_map Z.succ <$> strchr s' ch
  end.

Fixpoint strrchr_loop (s : list Z) (ch : Z) (i : nat) : option (option Z) :=
  match i with
  | O => Some None
  | S i' =>
      c ← s !! i';
      if schar c =? ch then Some (Some (Z.of_nat i')) else strrchr_loop s ch i'
  end.
Definition strrchr (s : list Z) (ch : Z) : option (option Z) :=
  n ← strlen s;
  strrchr_loop s ch (Z.to_nat (n + 1)).

(** ** Memory blocks *)

(** [d[i] = s[i]] for an element of [c] bytes: all of it is read before any of
    it is stored. *)
Definition copy_elem (c dst src i : Z) : M (list Z) unit := λ m,
  let d := dst + i * c in
  let s := src + i * c in
  if decide (0 ≤ d ∧ d + c ≤ zlen m ∧ 0 ≤ s ∧ s + c ≤ zlen m)
  then Ok tt (splice m d (ztake c (zdrop s m))) else Panic.

Definition aligned (a : Z) : bool := a mod 4 =? 0.

Definition memcpy (dst src len : Z) : M (list Z) unit :=
  if aligned dst && aligned src && aligned len then
    for_range (Z.to_nat (len / 4)) 0 (copy_elem 4 dst src)
  else for_range (Z.to_nat len) 0 (copy_elem 1 dst src).

(** [for (i = n; i > 0; i--) body(i - 1)] *)
Fixpoint for_down {S} (n : nat) (body : Z → M S unit) : M S unit :=
  match n with
  | O => ret tt
  | Datatypes.S n' => body (Z.of_nat n') ;;; for_down n' body
  end.

Definition memmove (dst src len : Z) : M (list Z) unit :=
  if dst <? src then memcpy dst src len
  else if aligned dst && aligned src && aligned len then
    for_down (Z.to_nat (len / 4)) (copy_elem 4 dst src)
  else for_down (Z.to_nat len) (copy_elem 1 dst src).

Definition store_elem (x : list Z) (p i : Z) : M (list Z) unit := λ m,
  let d := p + i * zlen x in
  if decide (0 ≤ d ∧ d + zlen x ≤ zlen m) then Ok tt (splice m d x) else Panic.

Definition bzero (block len : Z) : M (list Z) unit :=
  if aligned block && aligned len then
    for_range (Z.to_nat (len / 4)) 0 (store_elem [0; 0; 0; 0] block)
  else for_range (Z.to_nat len) 0 (store_elem [0] block).

Definition memset (ptr ch len : Z) : M (list Z) unit :=
  for_range (Z.to_nat len) 0 (store_elem [u8 ch] ptr).

(** ** What the string functions compute *)

(** [s] starts with the string [l]. *)
Definition cstring (s l : list Z) : Prop := ∃ r, s = l ++ 0 :: r ∧ Forall (λ c, 0 < c < 256) l.

Lemma schar_inj x y : 0 ≤ x < 256 → 0 ≤ y < 256 → schar x = schar y → x = y.
Proof. unfold schar. intros. destruct (Z.ltb_spec x 128), (Z.ltb_spec y 128); lia. Qed.
Lemma schar_0 x : 0 < x < 256 → schar x ≠ 0.
Proof. unfold schar. intros. destruct (Z.ltb_spec x 128); lia. Qed.

Lemma cstring_inj s l l' : cstring s l → cstring s l' → l = l'.
Proof.
  intros (r & -> & Hl) (r' & He & Hl'). revert l' He Hl'.
  induction Hl as [|x l Hx _ IH]; intros [|y l'] He Hl'; simplify_eq/=; try lia.
  - done.
  - by apply Forall_cons in Hl' as [? _]; lia.
  - apply Forall_cons in Hl' as [_ ?]. f_equal. by apply IH.
Qed.

Lemma strlen_spec s l : cstring s l → strlen s = Some (zlen l).
Proof.
  intros (r & -> & Hl). induction Hl as [|c l Hc _ IH]; [done|]. simpl.
  destruct (Z.eqb_spec c 0); [lia|]. rewrite IH. simpl. f_equal. rewrite zlen_cons. lia.
Qed.

(** Two characters that differ, or the end of both strings. *)
Lemma strchr_absent l r ch : 0 < ch < 128 → Forall (λ c, 0 < c < 256 ∧ c ≠ ch) l → strchr (l ++ 0 :: r) ch = Some None.
Proof.
  intros Hch. induction 1 as [|c l [Hc Hne] _ IH]; cbn [app strchr]; [change (schar 0) with 0; by destruct (Z.eqb_spec 0 ch); [lia|]|].
  destruct (Z.eqb_spec c 0); [lia|]. destruct (Z.eqb_spec (schar c) ch) as [He|]; [unfold schar in He; destruct (Z.ltb_spec c 128); lia|]. by rewrite IH.
Qed.
Lemma strchr_first l r ch : 0 < ch < 128 → Forall (λ c, 0 < c < 256 ∧ c ≠ ch) l → strchr (l ++ ch :: r) ch = Some (Some (zlen l)).
Proof.
  intros Hch. induction 1 as [|c l [Hc Hne] _ IH]; simpl.
  - destruct (Z.eqb_spec ch 0); [lia|]. replace (schar ch) with ch; [by rewrite Z.eqb_refl|]. unfold schar. destruct (Z.ltb_spec ch 128); lia.
  - destruct (Z.eqb_spec c 0); [lia|]. destruct (Z.eqb_spec (schar c) ch) as [He|]; [unfold schar in He; destruct (Z.ltb_spec c 128); lia|].
    rewrite IH. simpl. do 2 f_equal. rewrite zlen_cons. lia.
Qed.
Lemma strcmp_stop x y a b :
  schar x = 0 ∨ schar x ≠ schar y →
  ∃ r, strcmp (x :: a) (y :: b) = Some r ∧ (r = 0 ↔ schar x = schar y).
Proof.
  intros Hxy. cbn [strcmp].
  replace (negb (schar x =? 0) && (schar x =? schar y)) with false by lia.
  destruct (schar x >? schar y) eqn:Hgt; [|destruct (Z.eqb_spec (schar x) (schar y))];
    eexists; (split; [done|]); lia.
Qed.
Lemma strcmp_spec a b la lb :
  cstring a la → cstring b lb → ∃ r, strcmp a b = Some r ∧ (r = 0 ↔ la = lb).
Proof.
  intros (ra & -> & Ha) (rb & -> & Hb). revert lb Hb.
  induction Ha as [|x la Hx _ IH]; intros lb Hb; destruct Hb as [|y lb Hy Hb]; cbn [app].
  - by exists 0.
  - pose proof (schar_0 y Hy). destruct (strcmp_stop 0 y ra (lb ++ 0 :: rb)) as (r & -> & Hr); [by left|].
    exists r. split; [done|]. rewrite Hr. change (schar 0) with 0. split; [lia|done].
  - pose proof (schar_0 x Hx).
    destruct (strcmp_stop x 0 (la ++ 0 :: ra) rb) as (r & -> & Hr); [by right|].
    exists r. split; [done|]. rewrite Hr. change (schar 0) with 0. split; [lia|done].
  - pose proof (schar_0 x Hx). destruct (decide (schar x = schar y)) as [Heq|Hne].
    + apply schar_inj in Heq as ->; [|lia|lia]. cbn [strcmp].
      replace (negb (schar y =? 0) && (schar y =? schar y)) with true by lia.
      destruct (IH lb Hb) as (r & -> & Hr). exists r. split; [done|]. rewrite Hr. naive_solver.
    + destruct (strcmp_stop x y (la ++ 0 :: ra) (lb ++ 0 :: rb)) as (r & -> & Hr); [by right|].
      exists r. split; [done|]. rewrite Hr. split; [done|]. by intros [= -> _].
Qed.

Lemma strcpy_spec dest src l :
  cstring src l → zlen l < zlen dest →
  strcpy dest src = Some (l ++ 0 :: zdrop (zlen l + 1) dest).
Proof.
  intros (r & -> & Hl). revert dest. induction Hl as [|c l Hc _ IH]; intros [|d dest] Hd;
    rewrite ?zlen_cons, ?zlen_nil in Hd; try lia; try (pose proof (zlen_nonneg l); lia).
  - done.
  - simpl. destruct (Z.eqb_spec c 0); [lia|]. rewrite IH by lia. simpl. do 3 f_equal.
    rewrite zlen_cons. pose proof (zlen_nonneg l).
    unfold zdrop. replace (Z.to_nat (1 + zlen l + 1)) with (S (Z.to_nat (zlen l + 1))) by lia. done.
Qed.

(** ** Copying blocks *)

Lemma splice_elem m a (d : list Z) c (x : list Z) :
  0 ≤ a → zlen x = c → 0 ≤ c → a + zlen d + c ≤ zlen m →
  splice (splice m a d) (a + zlen d) x = splice m a (d ++ x).
Proof.
  intros Ha Hx Hc Hb. pose proof (zlen_nonneg d). apply zlist_eq. intros i Hi.
  destruct (decide (a + zlen d ≤ i < a + zlen d + c)).
  - rewrite zget_splice_in by (rewrite ?zlen_splice; lia).
    rewrite zget_splice_in by (rewrite ?zlen_app; lia). rewrite zget_app_r by lia. f_equal. lia.
  - rewrite zget_splice_out by (rewrite ?zlen_splice; lia).
    destruct (decide (a ≤ i < a + zlen d)).
    + rewrite !zget_splice_in by (rewrite ?zlen_app; lia). by rewrite zget_app_l by lia.
    + by rewrite !zget_splice_out by (rewrite ?zlen_app; lia).
Qed.

Lemma ztake_ext n (l l' : list Z) :
  (∀ j, 0 ≤ j < n → zget l j = zget l' j) → ztake n l = ztake n l'.
Proof.
  intros Heq. apply zlist_eq. intros j Hj. destruct (decide (j < n)).
  - rewrite !zget_ztake by lia. apply Heq. lia.
  - unfold zget. rewrite !decide_True by lia. unfold ztake. by rewrite !lookup_take_ge by lia.
Qed.
Lemma ztake_add n k (l : list Z) :
  0 ≤ n → 0 ≤ k → ztake (n + k) l = ztake n l ++ ztake k (zdrop n l).
Proof. intros. unfold ztake, zdrop. by rewrite Z2Nat.inj_add, take_take_drop by lia. Qed.
Lemma zdrop_zdrop n k (l : list Z) : 0 ≤ n → 0 ≤ k → zdrop k (zdrop n l) = zdrop (n + k) l.
Proof. intros. unfold zdrop. by rewrite drop_drop, Z2Nat.inj_add by lia. Qed.

(** Forwards, whatever was stored lies below what is still to be read. *)
Lemma copy_up c n dst src m :
  0 < c → 0 ≤ src → 0 ≤ dst → src + Z.of_nat n * c ≤ zlen m → dst + Z.of_nat n * c ≤ zlen m →
  dst ≤ src ∨ src + Z.of_nat n * c ≤ dst →
  wp (for_range n 0 (copy_elem c dst src))
     (λ _ m', m' = splice m dst (ztake (Z.of_nat n * c) (zdrop src m))) (λ _ _, False) m.
Proof.
  intros Hc Hs Hd Hsb Hdb Hov.
  apply (wp_for_range (λ i m', m' = splice m dst (ztake (i * c) (zdrop src m)))).
  { by rewrite ztake_0, splice_nil. }
  intros i m1 Hi ->. assert (Hic : 0 ≤ i * c ∧ i * c + c ≤ Z.of_nat n * c) by nia.
  set (done := ztake (i * c) (zdrop src m)).
  assert (Hl : zlen done = i * c) by (unfold done; rewrite zlen_ztake; [done|rewrite zlen_zdrop; lia]).
  assert (Hls : zlen (splice m dst done) = zlen m) by (apply zlen_splice; lia).
  unfold wp, copy_elem. rewrite decide_True by (rewrite Hls; lia).
  replace (ztake c (zdrop (src + i * c) (splice m dst done)))
    with (ztake c (zdrop (src + i * c) m)).
  - rewrite <- Hl, (splice_elem _ _ _ c); try lia.
    + f_equal. rewrite Hl. unfold done. replace ((i + 1) * c) with (i * c + c) by lia.
      by rewrite ztake_add, zdrop_zdrop by lia.
    + rewrite zlen_ztake; [done|]. rewrite zlen_zdrop; lia.
  - apply ztake_ext. intros j Hj. rewrite !zget_zdrop by lia. symmetry. apply zget_splice_out; lia.
Qed.

(** Backwards, whatever was stored lies above. *)
Lemma copy_down c n dst src m :
  0 < c → 0 ≤ src ≤ dst → dst + Z.of_nat n * c ≤ zlen m →
  for_down n (copy_elem c dst src) m =
  Ok tt (splice m dst (ztake (Z.of_nat n * c) (zdrop src m))).
Proof.
  intros Hc Hs. revert m. induction n as [|n IH]; intros m Hb.
  { by rewrite Z.mul_0_l, ztake_0, splice_nil. }
  assert (Hnc : 0 ≤ Z.of_nat n * c ∧ Z.of_nat (S n) * c = Z.of_nat n * c + c) by nia.
  set (x := ztake c (zdrop (src + Z.of_nat n * c) m)).
  assert (Hx : zlen x = c) by (unfold x; rewrite zlen_ztake; [done|rewrite zlen_zdrop; lia]).
  cbn [for_down]. erewrite bind_step.
  2: { unfold copy_elem. rewrite decide_True by lia. reflexivity. }
  fold x. rewrite IH by (rewrite zlen_splice; lia). f_equal.
  assert (Hlow : ztake (Z.of_nat n * c) (zdrop src (splice m (dst + Z.of_nat n * c) x)) =
                 ztake (Z.of_nat n * c) (zdrop src m)).
  { apply ztake_ext. intros j Hj. rewrite !zget_zdrop by lia. apply zget_splice_out; lia. }
  rewrite Hlow. set (lo := ztake (Z.of_nat n * c) (zdrop src m)).
  assert (Hlo : zlen lo = Z.of_nat n * c) by (unfold lo; rewrite zlen_ztake; [done|rewrite zlen_zdrop; lia]).
  transitivity (splice m dst (lo ++ x)).
  - apply zlist_eq. intros j Hj. destruct (decide (dst ≤ j < dst + zlen lo)).
    + rewrite !zget_splice_in by (rewrite ?zlen_app, ?zlen_splice; lia). by rewrite zget_app_l by lia.
    + rewrite zget_splice_out by (rewrite ?zlen_splice; lia).
      destruct (decide (dst + zlen lo ≤ j < dst + zlen lo + c)).
      * rewrite !zget_splice_in by (rewrite ?zlen_app; lia). rewrite zget_app_r by lia. f_equal. lia.
      * by rewrite !zget_splice_out by (rewrite ?zlen_app; lia).
  - f_equal. unfold lo, x. destruct Hnc as [? ->]. by rewrite ztake_add, zdrop_zdrop by lia.
Qed.

Lemma aligned_len len : aligned len = true → Z.of_nat (Z.to_nat (len / 4)) * 4 = Z.max 0 len.
Proof.
  unfold aligned. intros ?%Z.eqb_eq. Z.div_mod_to_equations. lia.
Qed.

Lemma memcpy_spec dst src len m :
  0 ≤ len → 0 ≤ src → 0 ≤ dst → src + len ≤ zlen m → dst + len ≤ zlen m →
  dst ≤ src ∨ src + len ≤ dst →
  wp (memcpy dst src len) (λ _ m', m' = splice m dst (ztake len (zdrop src m))) (λ _ _, False) m.
Proof.
  intros. unfold memcpy. destruct (aligned dst && aligned src && aligned len) eqn:Ha.
  - apply andb_true_iff in Ha as [_ Ha]. pose proof (aligned_len len Ha) as Hl.
    rewrite Z.max_r in Hl by lia. wp_use (copy_up 4); try lia; [|done].
    intros [] m' ->. by rewrite Hl.
  - wp_use (copy_up 1); try lia; [|done]. intros [] m' ->. by rewrite Z.mul_1_r, Z2Nat.id.
Qed.

Lemma store_up (x : list Z) n p m :
  0 ≤ p → p + Z.of_nat n * zlen x ≤ zlen m →
  wp (for_range n 0 (store_elem x p)) (λ _ m', m' = splice m p (concat (replicate n x))) (λ _ _, False) m.
Proof.
  intros Hp Hb. pose proof (zlen_nonneg x).
  assert (Hcat : ∀ k, zlen (concat (replicate k x)) = Z.of_nat k * zlen x).
  { induction k as [|k IH]; [done|]. simpl. rewrite zlen_app, IH. lia. }
  wp_use (wp_for_range (λ i m', m' = splice m p (concat (replicate (Z.to_nat i) x))) (λ _ _, False)).
  { simpl. by rewrite splice_nil. }
  2: { intros [] m' ->. by rewrite Z.add_0_l, Nat2Z.id. }
  2: done.
  intros i m1 Hi ->. assert (i * zlen x + zlen x ≤ Z.of_nat n * zlen x) by nia.
  pose proof (Hcat (Z.to_nat i)) as Hl. rewrite Z2Nat.id in Hl by lia.
  unfold wp, store_elem. rewrite decide_True by (rewrite zlen_splice; lia).
  rewrite <- Hl, (splice_elem _ _ _ (zlen x)) by lia. f_equal.
  rewrite Z2Nat.inj_add by lia. change (Z.to_nat 1) with 1%nat.
  rewrite replicate_add, concat_app. simpl. by rewrite app_nil_r.
Qed.
Lemma concat_zeros k : concat (replicate k [0; 0; 0; 0]) = replicate (4 * k) 0.
Proof. induction k as [|k IH]; [done|]. replace (4 * S k)%nat with (4 + 4 * k)%nat by lia. simpl. by rewrite IH. Qed.
Lemma concat_single k (b : Z) : concat (replicate k [b]) = replicate k b.
Proof. induction k as [|k IH]; [done|]. simpl. by rewrite IH. Qed.

Lemma bzero_spec p len m :
  0 ≤ len → 0 ≤ p → p + len ≤ zlen m →
  wp (bzero p len) (λ _ m', m' = splice m p (replicate (Z.to_nat len) 0)) (λ _ _, False) m.
Proof.
  intros. unfold bzero. destruct (aligned p && aligned len) eqn:Ha.
  - apply andb_true_iff in Ha as [_ Ha]. pose proof (aligned_len len Ha) as Hl.
    wp_use store_up; [lia|change (zlen [0; 0; 0; 0]) with 4; lia| |done].
    intros [] m' ->. rewrite concat_zeros. do 2 f_equal. lia.
  - wp_use store_up; [lia|change (zlen [0]) with 1; lia| |done].
    intros [] m' ->. by rewrite concat_single.
Qed.
Lemma memset_spec p ch len m :
  0 ≤ len → 0 ≤ p → p + len ≤ zlen m →
  wp (memset p ch len) (λ _ m', m' = splice m p (replicate (Z.to_nat len) (u8 ch))) (λ _ _, False) m.
Proof.
  intros. wp_use store_up; [lia|change (zlen [u8 ch]) with 1; lia| |done].
  intros [] m' ->. by rewrite concat_single.
Qed.

(** ** The properties *)

(** [memmove] copies correctly whether or not, and whichever way, the blocks
    overlap, a word at a time when everything is aligned and a byte at a time
    otherwise. *)
Theorem memmove_correct dst src len m :
  0 ≤ len → 0 ≤ src → 0 ≤ dst → src + len ≤ zlen m → dst + len ≤ zlen m →
  wp (memmove dst src len) (λ _ m', m' = splice m dst (ztake len (zdrop src m))) (λ _ _, False) m.
Proof.
  intros. unfold memmove. destruct (Z.ltb_spec dst src).
  { apply memcpy_spec; lia. }
  destruct (aligned dst && aligned src && aligned len) eqn:Ha.
  - apply andb_true_iff in Ha as [_ Ha]. pose proof (aligned_len len Ha) as Hl.
    rewrite Z.max_r in Hl by lia. unfold wp. rewrite copy_down by lia. by rewrite Hl.
  - unfold wp. rewrite copy_down by lia. by rewrite Z.mul_1_r, Z2Nat.id.
Qed.

(** The string functions do what their names say: [strlen] is the length,
    [strcmp] is 0 exactly for equal strings, [strcpy] and [strcat] leave the
    copied and the appended string in a destination that is large enough, and
    the rest of the destination alone. *)
Theorem string_functions_correct a b la lb dest :
  cstring a la → cstring b lb →
  strlen a = Some (zlen la) ∧
  (∃ r, strcmp a b = Some r ∧ (r = 0 ↔ la = lb)) ∧
  (zlen la < zlen dest → strcpy dest a = Some (la ++ 0 :: zdrop (zlen la + 1) dest)) ∧
  (zlen la + zlen lb < zlen a →
   strcat a b = Some (la ++ lb ++ 0 :: zdrop (zlen la + zlen lb + 1) a)).
Proof.
  intros Ha Hb. split_and!.
  - by apply strlen_spec.
  - by apply strcmp_spec.
  - intros. by apply strcpy_spec.
  - intros Hroom. unfold strcat. rewrite (strlen_spec a la) by done. cbn [mbind option_bind].
    pose proof (zlen_nonneg la). pose proof (zlen_nonneg lb).
    rewrite (strcpy_spec _ b lb) by (done || rewrite zlen_zdrop; lia). simpl. do 2 f_equal.
    + destruct Ha as (r & -> & _). unfold ztake, zlen. by rewrite Nat2Z.id, take_app_length.
    + rewrite zdrop_zdrop by lia. do 3 f_equal. lia.
Qed.

Lemma memmove_correct_witness :
  wp (memmove 5 4 4) (λ _ m', m' = [0; 1; 2; 3; 4; 4; 5; 6; 7; 9]) (λ _ _, False)
     [0; 1; 2; 3; 4; 5; 6; 7; 8; 9].
Proof.
  eapply wp_mono; [apply (memmove_correct 5 4 4 [0; 1; 2; 3; 4; 5; 6; 7; 8; 9])|..].
  - discriminate.
  - discriminate.
  - discriminate.
  - vm_compute. discriminate.
  - vm_compute. discriminate.
  - intros [] m' Hm. exact Hm.
  - intros e m' [].
Defined.

Lemma string_functions_correct_witness :
  strcat [97; 0; 9; 9; 9] [98; 99; 0] = Some [97; 98; 99; 0; 9].
Proof.
  apply (string_functions_correct [97; 0; 9; 9; 9] [98; 99; 0] [97] [98; 99] []).
  - exists [9; 9; 9]. split; [reflexivity|]. repeat constructor.
  - exists []. split; [reflexivity|]. repeat constructor.
  - reflexivity.
Defined.
