(* ===== verification/Kmem.v ===== *)
(** * The kernel heap as its clients see it

    [kmalloc]/[kfree] (kern/lib/kheap.c, declared in kern/include/lib.h) are
    called by almost every other component.  The clients are verified
    against the interface below; [KmemOk] states what they rely on. *)

From S2P Require Import Prelude.

(** [kmalloc sz] returns the address of the block, 0 for NULL; [kword a] is the
    word memory holds at [a], which is what a field that was never
    initialised reads as. *)
Class Kmem (H : Type) := {
  kmalloc : Z → M H Z;
  kfree : Z → M H unit;
  kword : Z → H → Z;
}.

(** [klive h] maps each block handed out and not yet freed to the number of
    bytes its owner may use. *)
Class KmemOk (H : Type) `{!Kmem H} := {
  kinv : H → Prop;
  klive : H → gmap Z Z;
  klive_null : ∀ h, kinv h → klive h !! 0 = None;
  kmalloc_spec : ∀ h sz, kinv h → 0 ≤ sz ≤ 4294963200 →
    wp (kmalloc sz)
       (λ p h', kinv h' ∧
          (p = 0 ∧ klive h' = klive h ∨
           ∃ usable, p ≠ 0 ∧ klive h !! p = None ∧ sz ≤ usable ∧
                     klive h' = <[p := usable]> (klive h)))
       (λ _ _, False) h;
  kfree_spec : ∀ h p, kinv h → is_Some (klive h !! p) →
    wp (kfree p) (λ _ h', kinv h' ∧ klive h' = delete p (klive h))
       (λ _ _, False) h;
  kfree_null : ∀ h, kfree 0 h = Ok tt h;
}.

(** A heap object [T] is worked on together with the heap it lives in. *)
Definition on_heap {H T R} (c : M H R) : M (H * T) R := zoom fst (λ h s, (h, s.2)) c.
Definition on_obj {H T} (f : T → T) : M (H * T) unit := modify (λ s, (s.1, f s.2)).

(** Reallocation: what is left of the heap when the blocks [p] and [old] of an
    object are set aside does not change when [new] replaces [old]. *)
Lemma frame_move (m : gmap Z Z) (p old new u : Z) :
  m !! new = None → delete p (delete new (delete old (<[new := u]> m))) =
                    delete p (delete old m).
Proof.
  intros Hn. apply map_eq. intros i.
  rewrite !lookup_delete, lookup_insert. repeat case_decide; naive_solver.
Qed.

(** ** A small allocator that satisfies the interface

    It hands out increasing 16-byte aligned addresses until its budget of
    bytes is gone.  It shows that the laws are consistent and lets the
    clients' definitions be run on concrete inputs. *)
Module Toy.

Record heap := mkheap { next : Z; budget : Z; live : gmap Z Z }.

Definition kmalloc (sz : Z) : M heap Z := λ h,
  if budget h <? sz then Ok 0 h
  else Ok (next h)
          (mkheap (next h + ROUNDUP (sz + 1) 16) (budget h - sz)
                  (<[next h := sz]> (live h))).

Definition kfree (p : Z) : M heap unit := λ h,
  if p =? 0 then Ok tt h
  else match live h !! p with
       | Some sz => Ok tt (mkheap (next h) (budget h + sz) (delete p (live h)))
       | None => Panic
       end.

#[global] Instance kmem : Kmem heap := 
  {| Kmem.kmalloc := kmalloc; Kmem.kfree := kfree; kword := λ _ _, 0 |}.

Definition inv (h : heap) : Prop :=
  0 < next h ∧ ∀ p sz, live h !! p = Some sz → 0 < p < next h.

#[global] Program Instance kmem_ok : KmemOk heap :=
  {| kinv := inv; klive := live |}.
Next Obligation.
  intros h [Hn Hl]. apply eq_None_not_Some. intros [sz Hsz].
  apply Hl in Hsz. lia.
Qed.
Next Obligation.
  intros h sz [Hn Hl] Hsz. unfold wp; simpl; unfold kmalloc.
  destruct (budget h <? sz); simpl; [split; [done|by left]|].
  assert (0 < ROUNDUP (sz + 1) 16).
  { unfold ROUNDUP, DIVROUNDUP. pose proof (Z.div_str_pos (sz + 1 + 16 - 1) 16). lia. }
  split.
  - split; simpl; [lia|]. intros p sz' Hp.
    destruct (decide (p = next h)) as [->|Hne]; [lia|].
    rewrite lookup_insert_ne in Hp by done. apply Hl in Hp. lia.
  - right. exists sz. split_and!; try lia; [|done].
    apply eq_None_not_Some. intros [sz' Hp]. apply Hl in Hp. lia.
Qed.
Next Obligation.
  intros h p [Hn Hl] [sz Hp]. unfold wp; simpl; unfold kfree.
  pose proof (Hl _ _ Hp). destruct (Z.eqb_spec p 0); [lia|].
  rewrite Hp. split; [|done]. split; simpl; [done|].
  intros q sz' Hq. apply lookup_delete_Some in Hq as [_ Hq]. eauto.
Qed.
Next Obligation. done. Qed.

Definition fresh (bytes : Z) : heap := mkheap 16 bytes ∅.

Lemma fresh_inv bytes : inv (fresh bytes).
Proof. split; [done|]. intros p sz H. simpl in H. by rewrite lookup_empty in H. Qed.

End Toy.
