(* ===== verification/KPages.v ===== *)
(** * Kernel pages as the kernel heap sees them (kern/include/vm.h)

    [alloc_kpages]/[free_kpages] hand out runs of whole pages by kernel virtual
    address.  The heap is verified against [KpagesOk]; the coremap is an
    instance of it. *)

From S2P Require Import Prelude.

Definition PAGE_SIZE : Z := 4096.
Definition PAGE_FRAME : Z := 4294963200.
Definition MIPS_KSEG0 : Z := 2147483648.
Definition MIPS_KSEG1 : Z := 2684354560.
Definition PADDR_TO_KVADDR (paddr : Z) : Z := u32 (paddr + MIPS_KSEG0).
Definition KVADDR_TO_PADDR (vaddr : Z) : Z := u32 (vaddr - MIPS_KSEG0).

(** The address is 0 when there is no memory. *)
Class Kpages (P : Type) := {
  alloc_kpages : Z → M P Z;
  free_kpages : Z → M P unit;
}.

(** [plive s] maps the address of each run handed out to its number of pages. *)
Class KpagesOk (P : Type) `{!Kpages P} := {
  pinv : P → Prop;
  plive : P → gmap Z Z;
  plive_range : ∀ s a n, pinv s → plive s !! a = Some n →
    0 < n ∧ a mod PAGE_SIZE = 0 ∧ MIPS_KSEG0 ≤ a ∧ a + PAGE_SIZE * n ≤ MIPS_KSEG1;
  plive_apart : ∀ s a n a' n', pinv s → plive s !! a = Some n → plive s !! a' = Some n' →
    a < a' → a + PAGE_SIZE * n ≤ a';
  alloc_kpages_spec : ∀ s n, pinv s → 0 < n < 2147483648 →
    wp (alloc_kpages n)
       (λ a s', pinv s' ∧ (a = 0 ∧ plive s' = plive s ∨
                           plive s !! a = None ∧ plive s' = <[a := n]> (plive s)))
       (λ _ _, False) s;
  free_kpages_spec : ∀ s a, pinv s → is_Some (plive s !! a) →
    wp (free_kpages a) (λ _ s', pinv s' ∧ plive s' = delete a (plive s)) (λ _ _, False) s;
}.

(** ** Page arithmetic *)

Lemma land_frame x : 0 ≤ x < 4294967296 → Z.land x PAGE_FRAME = x / 4096 * 4096.
Proof.
  intros Hx. rewrite <- Z.shiftr_div_pow2 with (n := 12), <- Z.shiftl_mul_pow2 with (n := 12) by done.
  apply Z.bits_inj'. intros j Hj. rewrite Z.land_spec. destruct (decide (j < 12)).
  - rewrite Z.shiftl_spec_low by lia.
    change PAGE_FRAME with (Z.shiftl (Z.ones 20) 12). rewrite Z.shiftl_spec_low by lia. apply andb_false_r.
  - rewrite Z.shiftl_spec_high, Z.shiftr_spec by lia. replace (j - 12 + 12) with j by lia.
    change PAGE_FRAME with (Z.shiftl (Z.ones 20) 12). rewrite Z.shiftl_spec_high by lia.
    destruct (decide (j < 32)).
    + rewrite Z.ones_spec_low by lia. apply andb_true_r.
    + rewrite <- (Z.mod_small x (2 ^ 32)) by lia. by rewrite Z.mod_pow2_bits_high by lia.
Qed.
Lemma land_offset x : 0 ≤ x → Z.land x (Z.lnot PAGE_FRAME) mod 4294967296 = x mod 4096.
Proof.
  intros Hx. rewrite <- Z.land_ones with (n := 32) by done. rewrite <- Z.land_assoc.
  change (Z.land (Z.lnot PAGE_FRAME) (Z.ones 32)) with (Z.ones 12). by rewrite Z.land_ones.
Qed.
