(* ===== verification/Coremap.v ===== *)
(** * Physical pages: the coremap (kern/vm/vm.c, kern/arch/mips/mips/ram.c,
      kern/userprog/mem.c)

    One entry per page of memory.  A run handed out by [getppages] has its
    length in the [continuous] field of its first entry.  The routines run
    with interrupts off from beginning to end, so each is one step. *)

From S2P Require Import Prelude Kmem KPages.

Record coremap_entry := mkce {
  allocated : Z;
  continuous : Z;
  ce_as : Z;
  ce_pe : Z;
}.
Definition sizeof_coremap_entry : Z := 16.

(** The global [coremap] with the entries it points to, and the two bounds of
    ram.c. *)
Record vmem := mkvmem {
  coremap_str : Z;
  numofpage : Z;
  free_pages_str : Z;
  cm_entries : list coremap_entry;
  firstpaddr : Z;
  lastpaddr : Z;
}.

Definition set_allocated (x : Z) (e : coremap_entry) : coremap_entry :=
  mkce x (continuous e) (ce_as e) (ce_pe e).
Definition set_continuous (x : Z) (e : coremap_entry) : coremap_entry :=
  mkce (allocated e) x (ce_as e) (ce_pe e).
Definition set_entries (l : list coremap_entry) (s : vmem) : vmem :=
  mkvmem (coremap_str s) (numofpage s) (free_pages_str s) l (firstpaddr s) (lastpaddr s).

(** An index that leads to no entry is a wild access. *)
Definition load_entry (i : Z) : M vmem coremap_entry := λ s,
  match zget (cm_entries s) i with Some e => Ok e s | None => Panic end.
Definition update_entry (i : Z) (f : coremap_entry → coremap_entry) : M vmem unit :=
  let! e := load_entry i in
  modify (λ s, set_entries (zset (cm_entries s) i (f e)) s).

(** ** Memory before the coremap exists (ram.c) *)

Definition ram_bootstrap (ramsize firstfree : Z) : M vmem unit :=
  let ramsize := if ramsize >? 508 * 1024 * 1024 then 508 * 1024 * 1024 else ramsize in
  modify (λ s, mkvmem (coremap_str s) (numofpage s) (free_pages_str s) (cm_entries s)
                      (u32 (firstfree - MIPS_KSEG0)) ramsize).

Definition ram_stealmem (npages : Z) : M vmem Z :=
  let! s := get in
  let size := u32 (npages * PAGE_SIZE) in
  if u32 (firstpaddr s + size) >? lastpaddr s then ret 0
  else
    put (mkvmem (coremap_str s) (numofpage s) (free_pages_str s) (cm_entries s)
                (u32 (firstpaddr s + size)) (lastpaddr s)) ;;;
    ret (firstpaddr s).

Definition ram_getsize : M vmem (Z * Z) := gets (λ s, (firstpaddr s, lastpaddr s)).

(** ** The coremap (vm.c) *)

(** [mem i] is what memory holds where entry [i] is put: the entries are not
    initialised. *)
Definition vm_bootstrap (mem : Z → coremap_entry) : M vmem unit :=
  let! ' (start, end_) := ram_getsize in
  let coremap_str := Z.land start PAGE_FRAME in
  let lastpage := Z.land end_ PAGE_FRAME in
  let freepages := Z.shiftr (u32 (lastpage - coremap_str)) 12 in
  let mapsize := u32 (freepages * sizeof_coremap_entry) in
  let coremap_pages := mapsize / 4096 + 1 in
  let numofpage := u32 (freepages - coremap_pages) in
  modify (λ s, mkvmem (PADDR_TO_KVADDR start) numofpage
                      (u32 (coremap_str + u32 (Z.shiftl coremap_pages 12)))
                      (mem <$> seqZ 0 numofpage) (firstpaddr s) (lastpaddr s)).

(** The first loop of [getppages]: past the allocated pages at the start. *)
Fixpoint skip_allocated (l : list coremap_entry) (lcr : Z) : Z :=
  match l with
  | e :: l' => if allocated e =? 1 then skip_allocated l' (lcr + 1) else lcr
  | [] => lcr
  end.
(** The second: whether the free pages that follow are enough. *)
Fixpoint count_free (l : list coremap_entry) (counter npages : Z) : bool :=
  match l with
  | e :: l' =>
      if allocated e =? 0 then
        if npages <=? counter + 1 then true else count_free l' (counter + 1) npages
      else false
  | [] => false
  end.

Definition getppages (npages : Z) : M vmem Z :=
  let! s := get in
  if coremap_str s =? 0 then ram_stealmem npages
  else
    let l := ztake (numofpage s) (cm_entries s) in
    let freepgstart := skip_allocated l 0 in
    if count_free (zdrop freepgstart l) 0 npages then
      let addr := u32 (free_pages_str s + freepgstart * 4096) in
      update_entry freepgstart (set_continuous (i32 npages)) ;;;
      for_range (Z.to_nat npages) freepgstart (λ i, update_entry i (set_allocated 1)) ;;;
      ret addr
    else ret 0.

Definition alloc_kpages (npages : Z) : M vmem Z :=
  let! pa := getppages npages in
  if pa =? 0 then ret 0 else ret (PADDR_TO_KVADDR pa).

Definition free_kpages (addr : Z) : M vmem unit :=
  let! s := get in
  let paddr := KVADDR_TO_PADDR addr in
  let delete_page := Z.shiftr (u32 (paddr - free_pages_str s)) 12 in
  let! e := load_entry delete_page in
  for_range (Z.to_nat (continuous e)) delete_page (λ i, update_entry i (set_allocated 0)) ;;;
  update_entry delete_page (set_continuous 0).

(** ** One page for a user program (mem.c) *)

Fixpoint find_free (l : list coremap_entry) (i : Z) : option Z :=
  match l with
  | e :: l' => if allocated e =? 0 then Some i else find_free l' (i + 1)
  | [] => None
  end.
(** The index of the entry, or nothing for -1. *)
Definition allocate_physical_page : M vmem (option Z) :=
  let! s := get in
  match find_free (ztake (numofpage s) (cm_entries s)) 0 with
  | Some i => update_entry i (set_allocated 1) ;;; ret (Some i)
  | None => ret None
  end.

#[global] Instance coremap_kpages : Kpages vmem :=
  {| KPages.alloc_kpages := alloc_kpages; KPages.free_kpages := free_kpages |}.

(** ** The invariant *)

(** The kernel address of page [i]. *)
Definition kaddr (s : vmem) (i : Z) : Z := free_pages_str s + MIPS_KSEG0 + 4096 * i.

Record coremap_ok (s : vmem) : Prop := {
  co_str : coremap_str s ≠ 0;
  co_len : zlen (cm_entries s) = numofpage s;
  co_free : free_pages_str s mod 4096 = 0 ∧ 0 < free_pages_str s;
  co_top : free_pages_str s + 4096 * numofpage s ≤ 532676608;
  (** A run is made of allocated pages, and no other run starts inside it. *)
  co_runs : ∀ i e, zget (cm_entries s) i = Some e → 0 ≤ continuous e ∧
    ∀ j, i ≤ j < i + continuous e →
      ∃ e', zget (cm_entries s) j = Some e' ∧ allocated e' = 1 ∧ (j ≠ i → continuous e' = 0);
}.
#[global] Instance kaddr_inj s : Inj (=) (=) (kaddr s).
Proof. intros i j. unfold kaddr. lia. Qed.

Definition run_of (e : coremap_entry) : option Z :=
  if 0 <? continuous e then Some (continuous e) else None.
Definition runs (s : vmem) : gmap Z Z :=
  kmap (kaddr s) (omap run_of (map_seqZ 0 (cm_entries s) : gmap Z coremap_entry)).

Lemma runs_lookup s a n :
  runs s !! a = Some n ↔
  ∃ i e, a = kaddr s i ∧ zget (cm_entries s) i = Some e ∧ continuous e = n ∧ 0 < n.
Proof.
  unfold runs. rewrite lookup_kmap_Some by apply _. setoid_rewrite lookup_omap_Some.
  setoid_rewrite lookup_map_seqZ_Some. unfold zget, run_of. split.
  - intros (i & -> & e & Hr & Hi & He). rewrite Z.sub_0_r in He. exists i, e. rewrite decide_True by done.
    destruct (Z.ltb_spec 0 (continuous e)); naive_solver.
  - intros (i & e & -> & Hi & <- & Hn). exists i. split; [done|]. exists e. case_decide; [|done].
    rewrite Z.sub_0_r. destruct (Z.ltb_spec 0 (continuous e)); [done|lia].
Qed.

(** ** The loops *)

Lemma update_entry_spec s i f e Q E :
  zget (cm_entries s) i = Some e → Q tt (set_entries (zset (cm_entries s) i (f e)) s) →
  wp (update_entry i f) Q E s.
Proof. intros He HQ. unfold wp, update_entry, bind, load_entry. by rewrite He. Qed.

Lemma update_range_spec s i (n : nat) f :
  0 ≤ i → i + Z.of_nat n ≤ zlen (cm_entries s) →
  wp (for_range n i (λ k, update_entry k f))
     (λ _ s', ∃ l, s' = set_entries l s ∧ zlen l = zlen (cm_entries s) ∧
        ∀ j, zget l j = if decide (i ≤ j < i + Z.of_nat n) then f <$> zget (cm_entries s) j
                        else zget (cm_entries s) j)
     (λ _ _, False) s.
Proof.
  intros Hi Hn. eapply wp_mono; [apply (wp_for_range (λ k s', ∃ l, s' = set_entries l s ∧
    zlen l = zlen (cm_entries s) ∧ ∀ j, zget l j = if decide (i ≤ j < k)
      then f <$> zget (cm_entries s) j else zget (cm_entries s) j) (λ _ _, False))|done|done].
  - exists (cm_entries s). split_and!; [by destruct s|done|]. intros j. by rewrite decide_False by lia.
  - intros k s' Hk (l & -> & Hl & Hget). destruct (zget_is_Some l k) as [e He]; [lia|].
    eapply update_entry_spec; [done|]. exists (zset l k (f e)). split_and!; [done|by rewrite zlen_zset|].
    intros j. destruct (decide (j = k)) as [->|Hne].
    + rewrite zget_zset_eq, decide_True by lia. rewrite Hget, decide_False in He by lia. by rewrite He.
    + rewrite zget_zset_ne by done. rewrite Hget. by do 2 case_decide; try lia.
Qed.

Lemma skip_allocated_spec l k :
  k ≤ skip_allocated l k ≤ k + zlen l.
Proof.
  revert k. induction l as [|e l IH]; intros k; simpl; [rewrite zlen_nil; lia|].
  rewrite zlen_cons. pose proof (zlen_nonneg l). case_match; [|lia]. specialize (IH (k + 1)). lia.
Qed.
Lemma count_free_spec l c n :
  count_free l c n = true → 0 < n - c →
  n - c ≤ zlen l ∧ ∀ j e, 0 ≤ j < n - c → zget l j = Some e → allocated e = 0.
Proof.
  revert c. induction l as [|e l IH]; intros c Hc Hn; simpl in Hc; [done|]. rewrite zlen_cons.
  pose proof (zlen_nonneg l). destruct (Z.eqb_spec (allocated e) 0) as [He|]; [|done].
  destruct (Z.leb_spec n (c + 1)).
  - split; [lia|]. intros j e' Hj. replace j with 0 by lia. by intros [= <-].
  - destruct (IH (c + 1)) as [Hl Hf]; [done|lia|]. split; [lia|]. intros j e' Hj Hz.
    destruct (decide (j = 0)) as [->|]; [by injection Hz as <-|]. apply (Hf (j - 1)); [lia|].
    unfold zget in *. rewrite !decide_True in * by lia.
    replace (Z.to_nat j) with (S (Z.to_nat (j - 1))) in Hz by lia. done.
Qed.

(** ** Allocation and release *)

(** The entries after a run of [n] pages was taken at [i]. *)
Definition taken (i n : Z) (l l' : list coremap_entry) : Prop :=
  zlen l' = zlen l ∧ 0 ≤ i ∧ 0 < n ∧ i + n ≤ zlen l ∧
  (∀ j e, i ≤ j < i + n → zget l j = Some e → allocated e = 0) ∧
  ∀ j, zget l' j = if decide (i ≤ j < i + n)
    then (λ e, mkce 1 (if decide (j = i) then n else continuous e) (ce_as e) (ce_pe e)) <$> zget l j
    else zget l j.

Lemma getppages_spec s n :
  coremap_ok s → 0 < n < 2147483648 →
  wp (getppages n)
     (λ a s', a = 0 ∧ s' = s ∨
        ∃ i l, a = free_pages_str s + 4096 * i ∧ s' = set_entries l s ∧ taken i n (cm_entries s) l)
     (λ _ _, False) s.
Proof.
  intros [] Hn. unfold getppages. wp_bind. apply wp_get. destruct (Z.eqb_spec (coremap_str s) 0); [done|].
  rewrite ztake_all by lia. set (l := cm_entries s) in *. set (i := skip_allocated l 0).
  pose proof (skip_allocated_spec l 0) as Hi. fold i in Hi.
  destruct (count_free (zdrop i l) 0 n) eqn:Hc; [|by left].
  apply count_free_spec in Hc as [Hlen Hfree]; [|lia]. rewrite zlen_zdrop in Hlen by lia. rewrite Z.sub_0_r in *.
  assert (Hfr : ∀ j e, i ≤ j < i + n → zget l j = Some e → allocated e = 0).
  { intros j e Hj He. apply (Hfree (j - i)); [lia|]. rewrite zget_zdrop by lia. by replace (i + (j - i)) with j by lia. }
  destruct (zget_is_Some l i) as [e He]; [lia|]. rewrite i32_small by lia.
  wp_bind. eapply update_entry_spec; [done|]. fold l. wp_bind.
  wp_use update_range_spec; [lia|simpl; rewrite zlen_zset; lia| |done].
  intros [] s1 (l1 & -> & Hl1 & Hget). simpl in Hl1, Hget. rewrite zlen_zset in Hl1. rewrite Z2Nat.id in Hget by lia.
  apply wp_ret. right. exists i, l1. rewrite u32_small by lia. split_and!; [lia|done|].
  split_and!; try done; try lia. intros j. rewrite Hget. case_decide; [|by rewrite zget_zset_ne by lia].
  case_decide as Hj.
  - subst j. rewrite zget_zset_eq by lia. by rewrite He.
  - by rewrite zget_zset_ne by done.
Qed.

Lemma taken_ok s i n l :
  coremap_ok s → taken i n (cm_entries s) l → coremap_ok (set_entries l s).
Proof.
  intros [] (Hl & Hi & Hn & Hin & Hfree & Hget). split; simpl; try done; [lia|].
  intros j e. rewrite Hget. case_decide as Hj.
  - intros (e0 & He0 & ->)%fmap_Some. simpl. destruct (co_runs0 j e0 He0) as [Hc Hr].
    assert (H0 : continuous e0 = 0).
    { destruct (decide (continuous e0 = 0)); [done|]. destruct (Hr j) as (e' & He' & Ha & _); [lia|].
      assert (e' = e0) as -> by congruence. rewrite (Hfree j e0) in Ha by done. done. }
    rewrite H0. case_decide as Heq; [|split; lia]. split; [lia|]. subst j. intros k Hk.
    destruct (zget_is_Some (cm_entries s) k) as [ek Hek]; [lia|]. rewrite Hget, decide_True, Hek by lia.
    eexists. split; [done|]. simpl. split; [done|]. intros Hne. rewrite decide_False by done.
    destruct (co_runs0 k ek Hek) as [Hck Hrk]. destruct (decide (continuous ek = 0)); [done|].
    destruct (Hrk k) as (e' & He' & Ha & _); [lia|]. assert (e' = ek) as -> by congruence. rewrite (Hfree k ek) in Ha by (done || lia). done.
  - intros He. destruct (co_runs0 j e He) as [Hc Hr]. split; [done|]. intros k Hk.
    destruct (Hr k Hk) as (e' & He' & Ha & Hc'). exists e'. split; [|done]. rewrite Hget, decide_False; [done|].
    intros Hki. rewrite (Hfree k e') in Ha by done. done.
Qed.

Lemma taken_runs s i n l :
  coremap_ok s → taken i n (cm_entries s) l →
  runs s !! kaddr s i = None ∧ runs (set_entries l s) = <[kaddr s i := n]> (runs s).
Proof.
  intros Hok Ht. pose proof Hok as []. pose proof Ht as (Hl & Hi & Hn & Hin & Hfree & Hget).
  assert (Hz : ∀ j e, i ≤ j < i + n → zget (cm_entries s) j = Some e → continuous e = 0).
  { intros j e Hj He. destruct (co_runs0 j e He) as [Hc Hr]. destruct (decide (continuous e = 0)); [done|].
    destruct (Hr j) as (e' & He' & Ha & _); [lia|]. assert (e' = e) as -> by congruence. rewrite (Hfree j e) in Ha by done. done. }
  split.
  - apply eq_None_not_Some. intros [m (j & e & Heq%(inj _) & He & <- & Hm)%runs_lookup]. subst j.
    rewrite (Hz i e) in Hm by (done || lia). lia.
  - apply map_ext_Some. intros a m. rewrite runs_lookup, lookup_insert_Some, runs_lookup. simpl.
    change (kaddr (set_entries l s)) with (kaddr s). split.
    + intros (j & e & -> & He & <- & Hm). rewrite Hget in He. case_decide as Hj.
      * apply fmap_Some in He as (e0 & He0 & ->). simpl in *. case_decide as Hji.
        -- subst j. by left.
        -- rewrite (Hz j e0) in Hm by done. lia.
      * right. split; [intros ?%(inj _); lia|]. by exists j, e.
    + intros [[<- <-]|[Hne (j & e & -> & He & <- & Hm)]].
      * destruct (zget_is_Some (cm_entries s) i) as [e He]; [lia|]. exists i. eexists. split; [done|].
        rewrite Hget, decide_True, He by lia. split; [done|]. simpl. by rewrite decide_True.
      * exists j, e. split; [done|]. rewrite Hget, decide_False; [done|]. intros Hj.
        rewrite (Hz j e) in Hm by done. lia.
Qed.

(** The entries after the run of [n] pages at [i] was given back. *)
Definition given_back (i n : Z) (l l' : list coremap_entry) : Prop :=
  zlen l' = zlen l ∧
  ∀ j, zget l' j = if decide (i ≤ j < i + n)
    then (λ e, mkce 0 0 (ce_as e) (ce_pe e)) <$> zget l j else zget l j.

Lemma free_kpages_run s i e :
  coremap_ok s → zget (cm_entries s) i = Some e → 0 < continuous e →
  wp (free_kpages (kaddr s i))
     (λ _ s', ∃ l, s' = set_entries l s ∧ given_back i (continuous e) (cm_entries s) l)
     (λ _ _, False) s.
Proof.
  intros [] He Hc. pose proof (zget_Some_range _ _ _ He) as Hi. destruct (co_runs0 i e He) as [_ Hr].
  assert (Hend : i + continuous e ≤ zlen (cm_entries s)).
  { destruct (Hr (i + continuous e - 1)) as (e' & He' & _); [lia|]. apply zget_Some_range in He'. lia. }
  unfold free_kpages. wp_bind. apply wp_get.
  assert (Hd : Z.shiftr (u32 (KVADDR_TO_PADDR (kaddr s i) - free_pages_str s)) 12 = i).
  { unfold KVADDR_TO_PADDR, kaddr, MIPS_KSEG0 in *. rewrite (u32_small (_ - 2147483648)) by lia.
    rewrite u32_small by lia. rewrite Z.shiftr_div_pow2 by done. change (2 ^ 12) with 4096.
    Z.div_mod_to_equations. lia. }
  cbv zeta. rewrite Hd. wp_bind. unfold wp at 1, load_entry. rewrite He. wp_bind.
  wp_use update_range_spec; [lia|lia| |done]. intros [] s1 (l1 & -> & Hl1 & Hget).
  rewrite Z2Nat.id in Hget by lia.
  assert (He1 : zget l1 i = Some (set_allocated 0 e)) by (rewrite Hget, decide_True, He by lia; done).
  eapply update_entry_spec; [done|]. simpl. exists (zset l1 i (set_continuous 0 (set_allocated 0 e))).
  split; [done|]. split; [by rewrite zlen_zset|]. intros j. destruct (decide (j = i)) as [->|Hne].
  - rewrite zget_zset_eq, decide_True, He by lia. done.
  - rewrite zget_zset_ne by done. rewrite Hget. case_decide as Hj; [|done].
    destruct (Hr j) as (e' & -> & _ & Hc0); [lia|]. simpl. by rewrite <- Hc0.
Qed.

Lemma given_back_ok s i e l :
  coremap_ok s → zget (cm_entries s) i = Some e → 0 < continuous e →
  given_back i (continuous e) (cm_entries s) l →
  coremap_ok (set_entries l s) ∧ runs (set_entries l s) = delete (kaddr s i) (runs s).
Proof.
  intros [] He Hc [Hl Hget]. destruct (co_runs0 i e He) as [_ Hr].
  (** A run that starts outside does not reach inside, nor the other way. *)
  assert (Hout : ∀ j e' k, ¬ (i ≤ j < i + continuous e) → zget (cm_entries s) j = Some e' →
    j ≤ k < j + continuous e' → ¬ (i ≤ k < i + continuous e)).
  { intros j e' k Hj He' Hk Hki. destruct (co_runs0 j e' He') as [_ Hr'].
    destruct (decide (j < i)).
    - destruct (Hr' i) as (e1 & He1 & _ & Hz); [lia|]. assert (e1 = e) as -> by congruence. rewrite Hz in Hc; lia.
    - lia. }
  split.
  - split; simpl; try done; [lia|]. intros j e'. rewrite Hget. case_decide as Hj.
    + intros (e0 & _ & ->)%fmap_Some. simpl. split; lia.
    + intros He'. destruct (co_runs0 j e' He') as [Hc' Hr']. split; [done|]. intros k Hk.
      destruct (Hr' k Hk) as (e1 & He1 & ?). exists e1. split; [|done].
      rewrite Hget, decide_False; [done|]. by eapply Hout.
  - apply map_ext_Some. intros a m. rewrite runs_lookup, lookup_delete_Some, runs_lookup. simpl.
    change (kaddr (set_entries l s)) with (kaddr s). split.
    + intros (j & e' & -> & He' & <- & Hm). rewrite Hget in He'. case_decide as Hj.
      * apply fmap_Some in He' as (e0 & _ & ->). simpl in Hm. lia.
      * split; [intros ?%(inj _); lia|]. by exists j, e'.
    + intros [Hne (j & e' & -> & He' & <- & Hm)]. exists j, e'. split; [done|].
      rewrite Hget, decide_False; [done|]. intros Hj. assert (j ≠ i) by (intros ->; done).
      destruct (Hr j Hj) as (e1 & He1 & _ & Hz). assert (e1 = e') as -> by congruence. rewrite Hz in Hm; [lia|done].
Qed.

Lemma runs_range s a n : coremap_ok s → runs s !! a = Some n →
  0 < n ∧ a mod PAGE_SIZE = 0 ∧ MIPS_KSEG0 ≤ a ∧ a + PAGE_SIZE * n ≤ MIPS_KSEG1.
Proof.
  intros [] (i & e & -> & He & <- & Hn)%runs_lookup. pose proof (zget_Some_range _ _ _ He).
  destruct (co_runs0 i e He) as [_ Hr]. destruct (Hr (i + continuous e - 1)) as (e' & He' & _); [lia|].
  apply zget_Some_range in He'. unfold kaddr, PAGE_SIZE, MIPS_KSEG0, MIPS_KSEG1. split_and!; try lia.
  Z.div_mod_to_equations. lia.
Qed.
Lemma runs_apart s a n a' n' :
  coremap_ok s → runs s !! a = Some n → runs s !! a' = Some n' → a < a' → a + PAGE_SIZE * n ≤ a'.
Proof.
  intros [] (i & e & -> & He & <- & Hn)%runs_lookup (i' & e' & -> & He' & <- & Hn')%runs_lookup.
  unfold kaddr, PAGE_SIZE. intros Hlt. destruct (co_runs0 i e He) as [_ Hr].
  destruct (decide (i + continuous e ≤ i')); [lia|].
  destruct (Hr i') as (e1 & He1 & _ & Hz); [lia|]. assert (e1 = e') as -> by congruence. rewrite Hz in Hn'; lia.
Qed.

Lemma alloc_kpages_run s n :
  coremap_ok s → 0 < n < 2147483648 →
  wp (alloc_kpages n)
     (λ a s', coremap_ok s' ∧ (a = 0 ∧ runs s' = runs s ∨
                               runs s !! a = None ∧ runs s' = <[a := n]> (runs s)))
     (λ _ _, False) s.
Proof.
  intros Hok Hn. unfold alloc_kpages. wp_bind. wp_use getppages_spec; [done|done| |done].
  intros a s' [[-> ->]|(i & l & -> & -> & Ht)]; [split; [done|by left]|].
  pose proof (taken_runs s i n l Hok Ht) as [Hnone Hruns]. pose proof (taken_ok s i n l Hok Ht).
  destruct Hok as [_ Hl [_ H0] Htop _]. destruct Ht as (_ & Hi & _ & Hin & _).
  destruct (Z.eqb_spec (free_pages_str s + 4096 * i) 0); [lia|]. apply wp_ret. split; [done|]. right.
  unfold PADDR_TO_KVADDR, kaddr, MIPS_KSEG0 in *. rewrite u32_small by lia.
  by replace (free_pages_str s + 4096 * i + 2147483648) with (free_pages_str s + 2147483648 + 4096 * i) by lia.
Qed.

#[global] Instance coremap_kpages_ok : KpagesOk vmem.
Proof.
  refine {| pinv := coremap_ok; plive := runs |}.
  - apply runs_range.
  - apply runs_apart.
  - apply alloc_kpages_run.
  - intros s a Hok [n (i & e & -> & He & <- & Hn)%runs_lookup].
    wp_use free_kpages_run; [done..| |done]. intros [] s' (l & -> & Hg).
    by destruct (given_back_ok s i e l).
Defined.

(** ** Starting up *)

Lemma zget_map_seqZ {A} (f : Z → A) n i x : zget (f <$> seqZ 0 n) i = Some x → x = f i.
Proof.
  unfold zget. case_decide; [|done]. rewrite list_lookup_fmap. intros (k & Hk & ->)%fmap_Some.
  apply lookup_seqZ in Hk as [-> Hk]. f_equal. lia.
Qed.

Lemma vm_bootstrap_spec s mem :
  firstpaddr s mod 4096 = 0 → 0 < firstpaddr s → lastpaddr s mod 4096 = 0 →
  firstpaddr s + 8192 ≤ lastpaddr s ≤ 532676608 → (∀ i, mem i = mkce 0 0 0 0) →
  wp (vm_bootstrap mem)
     (λ _ s', coremap_ok s' ∧ runs s' = ∅ ∧
        firstpaddr s + sizeof_coremap_entry * numofpage s' ≤ free_pages_str s' ∧
        free_pages_str s' + 4096 * numofpage s' = lastpaddr s)
     (λ _ _, False) s.
Proof.
  intros Hf Hf0 Hl Hle Hm. unfold vm_bootstrap. wp_bind. apply wp_gets. apply wp_modify.
  rewrite !land_frame by lia.
  assert (Hfr : firstpaddr s / 4096 * 4096 = firstpaddr s) by (Z.div_mod_to_equations; lia).
  assert (Hlr : lastpaddr s / 4096 * 4096 = lastpaddr s) by (Z.div_mod_to_equations; lia).
  rewrite Hfr, Hlr, (u32_small (lastpaddr s - firstpaddr s)) by lia.
  rewrite Z.shiftr_div_pow2 by done. change (2 ^ 12) with 4096. unfold sizeof_coremap_entry.
  set (fp := (lastpaddr s - firstpaddr s) / 4096).
  assert (Hfp : 2 ≤ fp ∧ 4096 * fp = lastpaddr s - firstpaddr s) by (subst fp; Z.div_mod_to_equations; lia).
  rewrite (u32_small (fp * 16)) by lia.
  assert (Hcp : fp * 16 / 4096 + 1 ≤ fp) by (Z.div_mod_to_equations; lia).
  assert (Hcp' : 1 ≤ fp * 16 / 4096 + 1) by (Z.div_mod_to_equations; lia).
  set (cp := fp * 16 / 4096 + 1) in *. rewrite (u32_small (fp - cp)) by lia.
  rewrite Z.shiftl_mul_pow2 by done. change (2 ^ 12) with 4096.
  rewrite (u32_small (cp * 4096)) by lia.
  rewrite (u32_small (firstpaddr s + cp * 4096)) by lia.
  assert (Hz : ∀ i e, zget (mem <$> seqZ 0 (fp - cp)) i = Some e → e = mkce 0 0 0 0).
  { intros i e He. apply zget_map_seqZ in He. by rewrite He, Hm. }
  split; [split; simpl|split].
  - unfold PADDR_TO_KVADDR, MIPS_KSEG0. rewrite u32_small; lia.
  - unfold zlen. rewrite length_fmap, length_seqZ. lia.
  - split; [|lia]. rewrite Z.add_mod, Z.mod_mul, Hf by lia. done.
  - lia.
  - intros i e He. apply Hz in He as ->. simpl. split; lia.
  - apply map_ext_Some. intros a n. rewrite runs_lookup, lookup_empty. split; [|done].
    intros (i & e & _ & ->%Hz & <- & Hn). simpl in Hn. lia.
  - simpl. subst cp. Z.div_mod_to_equations. lia.
Qed.

(** ** The properties *)

(** Starting up with memory that is zero gives an empty coremap that lies
    between the first free address and the pages it manages, which end exactly
    where memory ends. *)
Theorem vm_bootstrap_correct s mem :
  firstpaddr s mod 4096 = 0 → 0 < firstpaddr s → lastpaddr s mod 4096 = 0 →
  firstpaddr s + 8192 ≤ lastpaddr s ≤ 532676608 → (∀ i, mem i = mkce 0 0 0 0) →
  wp (vm_bootstrap mem)
     (λ _ s', coremap_ok s' ∧ runs s' = ∅ ∧
        firstpaddr s + sizeof_coremap_entry * numofpage s' ≤ free_pages_str s' ∧
        free_pages_str s' + 4096 * numofpage s' = lastpaddr s)
     (λ _ _, False) s.
Proof. apply vm_bootstrap_spec. Qed.


(** [getppages] looks only at the first gap: when a page in use lies within
    [n] pages of the first free one it reports that there is no memory,
    whatever is free behind it. *)
Theorem getppages_first_gap s n j e :
  coremap_ok s → 0 < n < 2147483648 →
  let i := skip_allocated (cm_entries s) 0 in
  i ≤ j < i + n → zget (cm_entries s) j = Some e → allocated e ≠ 0 →
  getppages n s = Ok 0 s.
Proof.
  intros [] Hn i Hj He Ha. unfold getppages, bind, get. destruct (Z.eqb_spec (coremap_str s) 0); [done|].
  rewrite ztake_all by lia. fold i. destruct (count_free _ 0 n) eqn:Hc; [|done].
  apply count_free_spec in Hc as [_ Hf]; [|lia]. pose proof (skip_allocated_spec (cm_entries s) 0).
  destruct Ha. apply (Hf (j - i)); [lia|]. rewrite zget_zdrop by lia. by replace (i + (j - i)) with j by lia.
Qed.

(** A page taken before the coremap existed lies below the pages it manages;
    giving such a page back leads [free_kpages] out of the table. *)
Theorem free_kpages_boot_page s a :
  coremap_ok s → MIPS_KSEG0 ≤ a < MIPS_KSEG0 + free_pages_str s → free_kpages a s = Panic.
Proof.
  intros [] Ha. pose proof (zlen_nonneg (cm_entries s)). unfold free_kpages, bind, get, load_entry. cbv zeta.
  unfold KVADDR_TO_PADDR, MIPS_KSEG0 in *. rewrite (u32_small (a - 2147483648)) by lia.
  assert (Hu : u32 (a - 2147483648 - free_pages_str s) = a - 2147483648 - free_pages_str s + 4294967296).
  { unfold u32. symmetry. apply (Z.mod_unique _ _ (-1)); lia. }
  rewrite Hu, Z.shiftr_div_pow2 by done. change (2 ^ 12) with 4096.
  destruct (zget (cm_entries s) _) eqn:He; [|done]. apply zget_Some_range in He. exfalso.
  Z.div_mod_to_equations. lia.
Qed.

(** ** Witnesses *)

Module SmallMem.
Definition free : coremap_entry := mkce 0 0 0 0.
Definition one : coremap_entry := mkce 1 1 0 0.
(** Six pages above address 8192; the first and the third are in use. *)
Definition six : vmem := mkvmem 2147487744 6 8192 [one; free; one; free; free; free] 4096 32768.
Lemma six_ok : coremap_ok six.
Proof.
  split; try done. intros i e He. pose proof (zget_Some_range _ _ _ He) as Hi.
  change (zlen (cm_entries six)) with 6 in Hi.
  assert (i = 0 ∨ i = 1 ∨ i = 2 ∨ i = 3 ∨ i = 4 ∨ i = 5) as Hc by lia.
  destruct_or! Hc; subst i; injection He as <-; (split; [done|]); intros j Hj; simpl in Hj; try lia.
  - exists one. replace j with 0 by lia. done.
  - exists one. replace j with 2 by lia. done.
Qed.
End SmallMem.

Lemma vm_bootstrap_correct_witness :
  wp (vm_bootstrap (λ _, SmallMem.free)) (λ _ s', runs s' = ∅) (λ _ _, False)
     (mkvmem 0 0 0 [] 4096 32768).
Proof.
  eapply wp_mono; [apply (vm_bootstrap_correct (mkvmem 0 0 0 [] 4096 32768) (λ _, SmallMem.free))|..].
  - reflexivity.
  - reflexivity.
  - reflexivity.
  - split; discriminate.
  - intros i. reflexivity.
  - intros [] s' (_ & Hr & _). exact Hr.
  - intros e s' [].
Defined.


Lemma getppages_first_gap_witness :
  getppages 2 SmallMem.six = Ok 0 SmallMem.six ∧
  allocated <$> zget (cm_entries SmallMem.six) 3 = Some 0 ∧
  allocated <$> zget (cm_entries SmallMem.six) 4 = Some 0.
Proof.
  split; [|split; reflexivity].
  apply (getppages_first_gap SmallMem.six 2 2 SmallMem.one).
  - apply SmallMem.six_ok.
  - split; reflexivity.
  - vm_compute. split; [discriminate|reflexivity].
  - reflexivity.
  - discriminate.
Defined.

(** The page the kernel took first lies at 4096. *)
Lemma free_kpages_boot_page_witness :
  (let! pa := ram_stealmem 1 in ret (PADDR_TO_KVADDR pa)) (mkvmem 0 0 0 [] 4096 32768) =
    Ok (MIPS_KSEG0 + 4096) (mkvmem 0 0 0 [] 8192 32768) ∧
  free_kpages (MIPS_KSEG0 + 4096) SmallMem.six = Panic.
Proof.
  split; [reflexivity|]. apply (free_kpages_boot_page SmallMem.six).
  - apply SmallMem.six_ok.
  - split; [discriminate|reflexivity].
Defined.
