(* ===== verification/KHeap.v ===== *)
(** * The kernel heap (kern/lib/kheap.c)

    Blocks smaller than half a page come from pages filled with blocks of one
    size, the free blocks of a page linked through their first words; larger
    requests go to the page allocator.  Every routine runs with interrupts off,
    so each is one step.  [checksubpage] and [checksubpages] are empty (SLOW is
    not defined); [kheap_printstats] only prints.

    A [struct pageref *] is an index into [pagerefs], [None] for NULL. *)

From S2P Require Import Prelude Kmem KPages.

Definition sizes : list Z := [16; 32; 64; 128; 256; 512; 1024; 2048].
Definition NSIZES : Z := 8.
Definition LARGEST_SUBPAGE_SIZE : Z := 2048.
Definition NPAGEREFS : Z := 256.
Definition INUSE_WORDS : Z := 8.
Definition INVALID_OFFSET : Z := 65535.
Definition DEADBEEF_WORD : Z := 3735928559.

Record pageref := mkpr {
  next_samesize : option Z;
  next_all : option Z;
  pageaddr_and_blocktype : Z;
  freelist_offset : Z;
  nfree : Z;
}.

Definition PR_PAGEADDR (pr : pageref) : Z := Z.land (pageaddr_and_blocktype pr) PAGE_FRAME.
Definition PR_BLOCKTYPE (pr : pageref) : Z := Z.land (pageaddr_and_blocktype pr) (u32 (Z.lnot PAGE_FRAME)).
Definition MKPAB (pa blk : Z) : Z :=
  Z.lor (Z.land pa PAGE_FRAME) (Z.land blk (u32 (Z.lnot PAGE_FRAME))).

(** The static data of kheap.c, the page allocator, and the words of the pages
    the heap works on. *)
Record kheap (P : Type) := mkkh {
  kh_pages : P;
  kh_mem : gmap Z Z;
  pagerefs : list pageref;
  pagerefs_inuse : list Z;
  sizebases : list (option Z);
  allbase : option Z;
}.
Arguments mkkh {P} _ _ _ _ _ _.
Arguments kh_pages {P} _.
Arguments kh_mem {P} _.
Arguments pagerefs {P} _.
Arguments pagerefs_inuse {P} _.
Arguments sizebases {P} _.
Arguments allbase {P} _.

Section kheap.
Context {P : Type} `{!Kpages P}.
Notation S := (kheap P).

(** ** Access to the parts of the state *)

Definition set_pages (p : P) (s : S) : S :=
  mkkh p (kh_mem s) (pagerefs s) (pagerefs_inuse s) (sizebases s) (allbase s).
Definition set_mem (m : gmap Z Z) (s : S) : S :=
  mkkh (kh_pages s) m (pagerefs s) (pagerefs_inuse s) (sizebases s) (allbase s).
Definition set_refs (l : list pageref) (s : S) : S :=
  mkkh (kh_pages s) (kh_mem s) l (pagerefs_inuse s) (sizebases s) (allbase s).
Definition set_inuse (l : list Z) (s : S) : S :=
  mkkh (kh_pages s) (kh_mem s) (pagerefs s) l (sizebases s) (allbase s).
Definition set_bases (l : list (option Z)) (s : S) : S :=
  mkkh (kh_pages s) (kh_mem s) (pagerefs s) (pagerefs_inuse s) l (allbase s).
Definition set_allbase (o : option Z) (s : S) : S :=
  mkkh (kh_pages s) (kh_mem s) (pagerefs s) (pagerefs_inuse s) (sizebases s) o.

Definition in_pages {A} (c : M P A) : M S A := zoom kh_pages set_pages c.

(** Accesses outside the arrays, and loads of words that nothing was ever
    stored in, are wild. *)
Definition opt {A} (o : option A) : M S A := match o with Some a => ret a | None => panic end.
Definition get_ref (i : Z) : M S pageref := let! s := get in opt (zget (pagerefs s) i).
Definition put_ref (i : Z) (pr : pageref) : M S unit :=
  modify (λ s, set_refs (zset (pagerefs s) i pr) s).
Definition load (a : Z) : M S Z := let! s := get in opt (kh_mem s !! a).
Definition store (a w : Z) : M S unit := modify (λ s, set_mem (<[a := w]> (kh_mem s)) s).
Definition size_of (blktype : Z) : M S Z := opt (zget sizes blktype).

Definition set_free (offset n : Z) (pr : pageref) : pageref :=
  mkpr (next_samesize pr) (next_all pr) (pageaddr_and_blocktype pr) offset n.
Definition set_next_samesize (o : option Z) (pr : pageref) : pageref :=
  mkpr o (next_all pr) (pageaddr_and_blocktype pr) (freelist_offset pr) (nfree pr).
Definition set_next_all (o : option Z) (pr : pageref) : pageref :=
  mkpr (next_samesize pr) o (pageaddr_and_blocktype pr) (freelist_offset pr) (nfree pr).

(** ** Page references *)

(** The inner loop of [allocpageref]: [k] is [1 << j], and 0 after 32 shifts. *)
Fixpoint find_bit (fuel : nat) (w k j : Z) : option Z :=
  match fuel with
  | O => None
  | Datatypes.S fuel' =>
      if k =? 0 then None
      else if Z.land w k =? 0 then Some j
      else find_bit fuel' w (u32 (Z.shiftl k 1)) (j + 1)
  end.
Fixpoint allocpageref_loop (n : nat) (i : Z) : M S (option Z) :=
  match n with
  | O => ret None
  | Datatypes.S n' =>
      let! s := get in
      let! w := opt (zget (pagerefs_inuse s) i) in
      if w =? 4294967295 then allocpageref_loop n' (i + 1)
      else
        match find_bit 33 w 1 0 with
        | Some j =>
            put (set_inuse (zset (pagerefs_inuse s) i (Z.lor w (Z.shiftl 1 j))) s) ;;;
            ret (Some (i * 32 + j))
        | None => panic
        end
  end.
Definition allocpageref : M S (option Z) := allocpageref_loop (Z.to_nat INUSE_WORDS) 0.

Definition freepageref (j : Z) : M S unit :=
  kassert ((0 <=? j) && (j <? NPAGEREFS)) ;;;
  let i := j / 32 in
  let k := Z.shiftl 1 (j mod 32) in
  let! s := get in
  let! w := opt (zget (pagerefs_inuse s) i) in
  kassert (negb (Z.land w k =? 0)) ;;;
  put (set_inuse (zset (pagerefs_inuse s) i (Z.land w (Z.lnot k))) s).

(** ** The lists of pages *)

(** The walk of [remove_lists] along one list: [guy] is what the pointer to the
    current element holds, [prev] the element that pointer is a field of, if it
    is not the base.  A list is at most as long as the table, so [NPAGEREFS]
    rounds and one for NULL are enough. *)
Fixpoint unlink (fuel : nat) (next : pageref → option Z) (set_next : option Z → pageref → pageref)
    (set_base : option Z → M S unit) (pr : Z) (prev guy : option Z) : M S unit :=
  match fuel with
  | O => hang
  | Datatypes.S fuel' =>
      match guy with
      | None => ret tt
      | Some g =>
          let! r := get_ref g in
          if g =? pr then
            match prev with
            | None => set_base (next r)
            | Some q => let! rq := get_ref q in put_ref q (set_next (next r) rq)
            end
          else unlink fuel' next set_next set_base pr guy (next r)
      end
  end.
Definition list_fuel : nat := 257.

Definition remove_lists (pr blktype : Z) : M S unit :=
  kassert ((0 <=? blktype) && (blktype <? NSIZES)) ;;;
  let! s := get in
  let! base := opt (zget (sizebases s) blktype) in
  unlink list_fuel next_samesize set_next_samesize
    (λ o, modify (λ s, set_bases (zset (sizebases s) blktype o) s)) pr None base ;;;
  let! base := gets allbase in
  unlink list_fuel next_all set_next_all (λ o, modify (set_allbase o)) pr None base.

Fixpoint blocktype_loop (l : list Z) (i sz : Z) : M S Z :=
  match l with
  | [] => panic
  | k :: l' => if sz <=? k then ret i else blocktype_loop l' (i + 1) sz
  end.
Definition blocktype (sz : Z) : M S Z := blocktype_loop sizes 0 sz.

(** ** Allocation *)

(** The code at [doalloc]: take the first free block of the page. *)
Definition doalloc (r : Z) : M S Z :=
  let! pr := get_ref r in
  kassert (freelist_offset pr <? PAGE_SIZE) ;;;
  let prpage := PR_PAGEADDR pr in
  let fla := prpage + freelist_offset pr in
  let! fl := load fla in
  let n := nfree pr - 1 in
  (if negb (fl =? 0) then
     kassert (n >? 0) ;;;
     kassert (u32 (fl - prpage) <? PAGE_SIZE) ;;;
     put_ref r (set_free (u32 (fl - prpage)) n pr)
   else
     kassert (n =? 0) ;;;
     put_ref r (set_free INVALID_OFFSET n pr)) ;;;
  ret fla.

(** The search for a page of the right size with a free block. *)
Fixpoint find_page (fuel : nat) (blktype : Z) (p : option Z) : M S (option Z) :=
  match fuel with
  | O => hang
  | Datatypes.S fuel' =>
      match p with
      | None => ret None
      | Some r =>
          let! pr := get_ref r in
          kassert (PR_BLOCKTYPE pr =? blktype) ;;;
          if nfree pr >? 0 then ret (Some r)
          else find_page fuel' blktype (next_samesize pr)
      end
  end.

(** Link the blocks of a new page, the last one first on the list. *)
Definition link_blocks (fla sz n : Z) : M S Z :=
  store fla 0 ;;;
  for_range (Z.to_nat (n - 1)) 1 (λ i,
    store (fla + i * sz) (fla + (i - 1) * sz) ;;;
    kassert (negb (fla + i * sz =? fla + (i - 1) * sz))) ;;;
  ret (fla + (n - 1) * sz).

Definition fresh_page (blktype sz : Z) : M S (option Z) :=
  let! pr := allocpageref in
  match pr with
  | None => ret None
  | Some r =>
      let! prpage := in_pages (alloc_kpages 1) in
      if prpage =? 0 then freepageref r ;;; ret None
      else
        let n := PAGE_SIZE / sz in
        let! fl := link_blocks prpage sz n in
        kassert (fl - prpage =? (n - 1) * sz) ;;;
        let! s := get in
        let! base := opt (zget (sizebases s) blktype) in
        put_ref r (mkpr base (allbase s) (MKPAB prpage blktype) (fl - prpage) n) ;;;
        modify (λ s, set_bases (zset (sizebases s) blktype (Some r)) s) ;;;
        modify (set_allbase (Some r)) ;;;
        ret (Some r)
  end.

Definition subpage_kmalloc (sz : Z) : M S Z :=
  let! blktype := blocktype sz in
  let! sz := size_of blktype in
  let! s := get in
  let! base := opt (zget (sizebases s) blktype) in
  let! pr := find_page list_fuel blktype base in
  match pr with
  | Some r => doalloc r
  | None =>
      let! pr := fresh_page blktype sz in
      match pr with
      | Some r => doalloc r
      | None => ret 0
      end
  end.

(** ** Release *)

Definition fill_deadbeef (ptr len : Z) : M S unit :=
  for_range (Z.to_nat (len / 4)) 0 (λ i, store (ptr + 4 * i) DEADBEEF_WORD).

(** The page a pointer lies in. *)
Fixpoint find_addr (fuel : nat) (ptraddr : Z) (p : option Z) : M S (option Z) :=
  match fuel with
  | O => hang
  | Datatypes.S fuel' =>
      match p with
      | None => ret None
      | Some r =>
          let! pr := get_ref r in
          let prpage := PR_PAGEADDR pr in
          kassert ((0 <=? PR_BLOCKTYPE pr) && (PR_BLOCKTYPE pr <? NSIZES)) ;;;
          if (prpage <=? ptraddr) && (ptraddr <? prpage + PAGE_SIZE) then ret (Some r)
          else find_addr fuel' ptraddr (next_all pr)
      end
  end.

(** [false] is the return value -1: not a block of this allocator. *)
Definition subpage_kfree (ptraddr : Z) : M S bool :=
  let! base := gets allbase in
  let! p := find_addr list_fuel ptraddr base in
  match p with
  | None => ret false
  | Some r =>
      let! pr := get_ref r in
      let prpage := PR_PAGEADDR pr in
      let blktype := PR_BLOCKTYPE pr in
      let! sz := size_of blktype in
      let offset := ptraddr - prpage in
      if (PAGE_SIZE <=? offset) || negb (offset mod sz =? 0) then panic
      else
        fill_deadbeef ptraddr sz ;;;
        store ptraddr (if freelist_offset pr =? INVALID_OFFSET then 0
                       else prpage + freelist_offset pr) ;;;
        let n := nfree pr + 1 in
        put_ref r (set_free offset n pr) ;;;
        kassert (n <=? PAGE_SIZE / sz) ;;;
        when (n =? PAGE_SIZE / sz)
          (remove_lists r blktype ;;;
           in_pages (free_kpages prpage) ;;;
           freepageref r) ;;;
        ret true
  end.

(** ** The interface *)

Definition kmalloc (sz : Z) : M S Z :=
  if LARGEST_SUBPAGE_SIZE <=? sz then
    let npages := u32 (u32 (sz + PAGE_SIZE) - 1) / PAGE_SIZE in
    in_pages (alloc_kpages npages)
  else subpage_kmalloc sz.

Definition kfree (ptr : Z) : M S unit :=
  if ptr =? 0 then ret tt
  else
    let! sub := subpage_kfree ptr in
    if sub then ret tt
    else
      kassert (ptr mod PAGE_SIZE =? 0) ;;;
      in_pages (free_kpages ptr).

#[global] Instance kheap_kmem : Kmem S :=
  {| Kmem.kmalloc := kmalloc; Kmem.kfree := kfree; kword := λ a s, default 0 (kh_mem s !! a) |}.

End kheap.
