(* ===== verification/KHeapSpec.v ===== *)
(** * The kernel heap: its invariant and what the routines do

    [page] describes one page of blocks: its pageref, the size of its blocks,
    its address and its free blocks in list order.  [heap_inv s ps] says that
    the state [s] represents the pages [ps]; [kh_live] is the set of blocks
    handed out. *)

From S2P Require Import Prelude Kmem KPages KHeap.

Record page := mkpage { pg_ref : Z; pg_type : Z; pg_addr : Z; pg_free : list Z }.

Definition psize (p : page) : Z := default 0 (zget sizes (pg_type p)).
Definition nblocks (p : page) : Z := PAGE_SIZE / psize p.
Definition in_page (p : page) (a : Z) : Prop := pg_addr p ≤ a < pg_addr p + PAGE_SIZE.
Definition is_block (p : page) (a : Z) : Prop := in_page p a ∧ (a - pg_addr p) mod psize p = 0.
Definition all_blocks (p : page) : list Z := (λ k, pg_addr p + k * psize p) <$> seqZ 0 (nblocks p).

(** The blocks linked from [a] on. *)
Fixpoint fchain (m : gmap Z Z) (a : Z) (l : list Z) : Prop :=
  match l with
  | [] => a = 0
  | x :: l' => a = x ∧ x ≠ 0 ∧ ∃ w, m !! x = Some w ∧ fchain m w l'
  end.
Definition first (l : list Z) : Z := match l with [] => 0 | a :: _ => a end.
Definition offset_of (p : page) : Z :=
  match pg_free p with [] => INVALID_OFFSET | a :: _ => a - pg_addr p end.
(** The elements linked from [p] on. *)
Fixpoint chain (next : Z → option Z) (p : option Z) (l : list Z) : Prop :=
  match l with [] => p = None | x :: l' => p = Some x ∧ chain next (next x) l' end.

Section spec.
Context {P : Type} `{!Kpages P, !KpagesOk P}.
Notation S := (kheap P).
Implicit Types (s : S) (p : page) (ps : list page).

Definition next_of (f : pageref → option Z) (l : list pageref) (r : Z) : option Z := zget l r ≫= f.

Record page_ok s p : Prop := {
  po_ref : ∃ pr, zget (pagerefs s) (pg_ref p) = Some pr ∧
      pageaddr_and_blocktype pr = pg_addr p + pg_type p ∧ nfree pr = zlen (pg_free p) ∧
      freelist_offset pr = offset_of p;
  po_type : 0 ≤ pg_type p < NSIZES;
  po_live : plive (kh_pages s) !! pg_addr p = Some 1;
  po_chain : fchain (kh_mem s) (first (pg_free p)) (pg_free p);
  po_nodup : NoDup (pg_free p);
  po_blocks : ∀ a, a ∈ pg_free p → is_block p a;
}.

Definition bit (l : list Z) (j : Z) : bool := Z.testbit (default 0 (zget l (j / 32))) (j mod 32).

Record heap_inv s ps : Prop := {
  hi_pinv : pinv (kh_pages s);
  hi_refs : zlen (pagerefs s) = NPAGEREFS;
  hi_bases : zlen (sizebases s) = NSIZES;
  hi_words : zlen (pagerefs_inuse s) = INUSE_WORDS ∧
    ∀ i w, zget (pagerefs_inuse s) i = Some w → 0 ≤ w < 4294967296;
  hi_all : chain (next_of next_all (pagerefs s)) (allbase s) (pg_ref <$> ps);
  hi_same : ∀ t b, zget (sizebases s) t = Some b →
    chain (next_of next_samesize (pagerefs s)) b (pg_ref <$> filter (λ p, pg_type p = t) ps);
  hi_nodup : NoDup (pg_ref <$> ps);
  hi_addrs : NoDup (pg_addr <$> ps);
  hi_page : ∀ p, p ∈ ps → page_ok s p;
  hi_inuse : ∀ j, 0 ≤ j < NPAGEREFS → bit (pagerefs_inuse s) j = true ↔ j ∈ pg_ref <$> ps;
}.
(** No page of blocks is kept when none of its blocks is in use. *)
Definition packed ps : Prop := ∀ p, p ∈ ps → zlen (pg_free p) < nblocks p.

(** ** The blocks handed out *)

Definition live_blocks p : list (Z * Z) :=
  (λ a, (a, psize p)) <$> filter (λ a, a ∉ pg_free p) (all_blocks p).
Definition sub_live ps : gmap Z Z := list_to_map (ps ≫= live_blocks).
Definition big_live (s : S) ps : gmap Z Z :=
  (λ n, PAGE_SIZE * n) <$> filter (λ kv, kv.1 ∉ pg_addr <$> ps) (plive (kh_pages s)).

(** The pages a state represents, computed. *)
Fixpoint follow (fuel : nat) (next : Z → option Z) (o : option Z) : list Z :=
  match fuel, o with
  | Datatypes.S fuel', Some x => x :: follow fuel' next (next x)
  | _, _ => []
  end.
Fixpoint follow_free (fuel : nat) (m : gmap Z Z) (a : Z) : list Z :=
  match fuel with
  | O => []
  | Datatypes.S fuel' =>
      if a =? 0 then [] else match m !! a with Some w => a :: follow_free fuel' m w | None => [] end
  end.
Definition page_of (s : S) (r : Z) : page :=
  match zget (pagerefs s) r with
  | Some pr =>
      mkpage r (PR_BLOCKTYPE pr) (PR_PAGEADDR pr)
        (follow_free 256 (kh_mem s)
           (if freelist_offset pr =? INVALID_OFFSET then 0 else PR_PAGEADDR pr + freelist_offset pr))
  | None => mkpage r 0 0 []
  end.
Definition pages_of (s : S) : list page :=
  page_of s <$> follow 256 (next_of next_all (pagerefs s)) (allbase s).
Definition kh_live (s : S) : gmap Z Z := sub_live (pages_of s) ∪ big_live s (pages_of s).

(** ** Sizes and blocks *)

Lemma size_cases t : 0 ≤ t < NSIZES →
  ∃ sz, zget sizes t = Some sz ∧ (sz = 16 ∨ sz = 32 ∨ sz = 64 ∨ sz = 128 ∨ sz = 256 ∨ sz = 512 ∨
                                  sz = 1024 ∨ sz = 2048).
Proof.
  unfold NSIZES. intros Ht.
  assert (t = 0 ∨ t = 1 ∨ t = 2 ∨ t = 3 ∨ t = 4 ∨ t = 5 ∨ t = 6 ∨ t = 7) as Hc by lia.
  destruct_or! Hc; subst t; eexists; (split; [reflexivity|]); lia.
Qed.
Lemma psize_facts p : 0 ≤ pg_type p < NSIZES →
  zget sizes (pg_type p) = Some (psize p) ∧ 16 ≤ psize p ≤ 2048 ∧ psize p mod 4 = 0 ∧
  2 ≤ nblocks p ≤ 256 ∧ nblocks p * psize p = PAGE_SIZE.
Proof.
  intros Ht. unfold nblocks, psize. destruct (size_cases _ Ht) as (sz & -> & Hc). simpl. split; [done|].
  destruct_or! Hc; subst sz; vm_compute; naive_solver.
Qed.

Lemma is_block_index p a : 0 ≤ pg_type p < NSIZES →
  is_block p a ↔ ∃ k, 0 ≤ k < nblocks p ∧ a = pg_addr p + k * psize p.
Proof.
  intros Ht. destruct (psize_facts p Ht) as (_ & Hs & _ & Hn & Hmul). unfold is_block, in_page. split.
  - intros [Hin Hm]. exists ((a - pg_addr p) / psize p).
    pose proof (Z.div_mod (a - pg_addr p) (psize p)). split; [|nia]. split; [apply Z.div_pos; lia|].
    apply Z.div_lt_upper_bound; lia.
  - intros (k & Hk & ->). split; [nia|]. replace (pg_addr p + k * psize p - pg_addr p) with (k * psize p) by lia.
    apply Z.mod_mul. lia.
Qed.
Lemma elem_of_all_blocks p a : 0 ≤ pg_type p < NSIZES → a ∈ all_blocks p ↔ is_block p a.
Proof.
  intros Ht. rewrite is_block_index by done. unfold all_blocks. rewrite list_elem_of_fmap.
  setoid_rewrite elem_of_seqZ. split; intros (k & H1 & H2); exists k; (split; [|done]); lia.
Qed.
Lemma length_all_blocks p : zlen (all_blocks p) = Z.max 0 (nblocks p).
Proof. unfold zlen, all_blocks. rewrite length_fmap, length_seqZ. lia. Qed.

(** ** The packed field *)

Lemma mask_offset : u32 (Z.lnot PAGE_FRAME) = Z.ones 12.
Proof. reflexivity. Qed.
Lemma pr_fields pr a t :
  pageaddr_and_blocktype pr = a + t → a mod 4096 = 0 → 0 ≤ a < 4294967296 - 4096 → 0 ≤ t < NSIZES →
  PR_PAGEADDR pr = a ∧ PR_BLOCKTYPE pr = t.
Proof.
  unfold NSIZES. intros Hp Ha Hr Ht. unfold PR_PAGEADDR, PR_BLOCKTYPE. rewrite Hp, mask_offset.
  rewrite land_frame, Z.land_ones by lia. change (2 ^ 12) with 4096. split; Z.div_mod_to_equations; lia.
Qed.
Lemma mkpab_add a t :
  a mod 4096 = 0 → 0 ≤ a < 4294967296 → 0 ≤ t < NSIZES → MKPAB a t = a + t.
Proof.
  unfold NSIZES. intros Ha Hr Ht. unfold MKPAB. rewrite mask_offset, land_frame, Z.land_ones by lia.
  change (2 ^ 12) with 4096. rewrite (Z.mod_small t) by lia.
  assert (He : a / 4096 * 4096 = a) by (Z.div_mod_to_equations; lia). rewrite He.
  assert (Hd : Z.land a t = 0).
  { rewrite <- He. change 4096 with (2 ^ 12). rewrite <- Z.shiftl_mul_pow2 by done.
    apply Z.bits_inj'. intros j Hj. rewrite Z.land_spec, Z.bits_0. destruct (decide (j < 12)).
    - by rewrite Z.shiftl_spec_low by lia.
    - replace t with (t mod 2 ^ 12) by (apply Z.mod_small; lia). rewrite Z.mod_pow2_bits_high by lia.
      apply andb_false_r. }
  rewrite <- Z.lxor_lor by done. by rewrite <- Z.add_nocarry_lxor.
Qed.

Lemma page_range s p : pinv (kh_pages s) → page_ok s p →
  pg_addr p mod 4096 = 0 ∧ MIPS_KSEG0 ≤ pg_addr p ∧ pg_addr p + 4096 ≤ MIPS_KSEG1.
Proof. intros Hp []. destruct (plive_range _ _ _ Hp po_live0) as (_ & ? & ? & ?). unfold PAGE_SIZE in *. lia. Qed.
Lemma page_ref s p : pinv (kh_pages s) → page_ok s p →
  ∃ pr, zget (pagerefs s) (pg_ref p) = Some pr ∧ PR_PAGEADDR pr = pg_addr p ∧
        PR_BLOCKTYPE pr = pg_type p ∧ nfree pr = zlen (pg_free p) ∧ freelist_offset pr = offset_of p ∧
        pageaddr_and_blocktype pr = pg_addr p + pg_type p.
Proof.
  intros Hp Hok. destruct (page_range s p Hp Hok) as (Hm & Hlo & Hhi). unfold MIPS_KSEG0, MIPS_KSEG1 in *.
  destruct Hok as [(pr & Hpr & Hpab & Hn & Ho) Ht _ _ _ _]. exists pr.
  destruct (pr_fields pr (pg_addr p) (pg_type p)) as [H1 H2]; [done..|lia|done|]. done.
Qed.
Lemma same_page s p p' a :
  pinv (kh_pages s) → page_ok s p → page_ok s p' → in_page p a → in_page p' a → pg_addr p = pg_addr p'.
Proof.
  intros Hp Hok Hok' H1 H2. destruct (page_range s p Hp Hok) as (? & _), (page_range s p' Hp Hok') as (? & _).
  unfold in_page, PAGE_SIZE in *. Z.div_mod_to_equations. lia.
Qed.

(** ** Chains *)

Lemma follow_chain next o l fuel : chain next o l → (length l ≤ fuel)%nat → follow fuel next o = l.
Proof.
  revert o fuel. induction l as [|x l IH]; intros o fuel; simpl.
  - intros -> _. by destruct fuel.
  - intros [-> Hc] Hl. destruct fuel as [|fuel]; [lia|]. simpl. f_equal. apply IH; [done|lia].
Qed.
Lemma follow_fchain m a l fuel : fchain m a l → (length l ≤ fuel)%nat → follow_free fuel m a = l.
Proof.
  revert a fuel. induction l as [|x l IH]; intros a fuel; simpl.
  - intros -> _. by destruct fuel.
  - intros (-> & Hx & w & Hw & Hc) Hl. destruct fuel as [|fuel]; [lia|]. simpl.
    destruct (Z.eqb_spec x 0); [done|]. rewrite Hw. f_equal. apply IH; [done|lia].
Qed.
Lemma chain_ext next next' o l : (∀ x, x ∈ l → next' x = next x) → chain next o l → chain next' o l.
Proof.
  revert o. induction l as [|x l IH]; intros o Hext; simpl; [done|]. intros [-> Hc]. split; [done|].
  rewrite Hext by left. apply IH; [|done]. intros y Hy. apply Hext. by right.
Qed.
Lemma fchain_ext m m' a l : (∀ x, x ∈ l → m' !! x = m !! x) → fchain m a l → fchain m' a l.
Proof.
  revert a. induction l as [|x l IH]; intros a Hext; simpl; [done|]. intros (-> & Hx & w & Hw & Hc).
  split_and!; [done|done|]. exists w. rewrite Hext by left. split; [done|]. apply IH; [|done].
  intros y Hy. apply Hext. by right.
Qed.

(** Distinct indices of a table are at most as many as it has entries. *)
Lemma nodup_range (l : list Z) n : NoDup l → (∀ x, x ∈ l → 0 ≤ x < n) → zlen l ≤ Z.max 0 n.
Proof.
  intros Hn Hr. assert (Hsub : l ⊆+ seqZ 0 n).
  { apply NoDup_submseteq; [done|]. intros x Hx. apply elem_of_seqZ. apply Hr in Hx. lia. }
  apply submseteq_length in Hsub. rewrite length_seqZ in Hsub. unfold zlen. lia.
Qed.
Lemma free_length p : 0 ≤ pg_type p < NSIZES → NoDup (pg_free p) →
  (∀ a, a ∈ pg_free p → is_block p a) → zlen (pg_free p) ≤ nblocks p.
Proof.
  intros Ht Hn Hb. destruct (psize_facts p Ht) as (_ & _ & _ & Hnb & _).
  assert (Hsub : pg_free p ⊆+ all_blocks p).
  { apply NoDup_submseteq; [done|]. intros a Ha. apply elem_of_all_blocks; auto. }
  apply submseteq_length in Hsub. pose proof (length_all_blocks p). unfold zlen in *. lia.
Qed.

Lemma ref_range s ps r : heap_inv s ps → r ∈ pg_ref <$> ps → 0 ≤ r < NPAGEREFS.
Proof.
  intros Hi (p & -> & Hp)%list_elem_of_fmap. destruct (hi_page _ _ Hi p Hp) as [(pr & Hpr & _) _ _ _ _ _].
  apply zget_Some_range in Hpr. by rewrite (hi_refs _ _ Hi) in Hpr.
Qed.
Lemma pages_length s ps : heap_inv s ps → (length ps ≤ 256)%nat.
Proof.
  intros Hi. pose proof (nodup_range (pg_ref <$> ps) NPAGEREFS (hi_nodup _ _ Hi)) as Hl.
  unfold zlen, NPAGEREFS in Hl. rewrite length_fmap in Hl.
  assert (Z.of_nat (length ps) ≤ Z.max 0 256); [|lia]. apply Hl. intros r. by eapply ref_range.
Qed.

Lemma pages_of_inv s ps : heap_inv s ps → pages_of s = ps.
Proof.
  intros Hi. unfold pages_of. rewrite (follow_chain _ _ (pg_ref <$> ps)); [|apply Hi|].
  2: { rewrite length_fmap. by eapply pages_length. }
  rewrite <- list_fmap_compose. rewrite <- (list_fmap_id ps) at 2. apply list_fmap_ext.
  intros k p Hk. simpl. apply list_elem_of_lookup_2 in Hk. pose proof (hi_page _ _ Hi p Hk) as Hok.
  destruct (page_ref s p) as (pr & Hpr & Ha & Ht & _ & Ho & _); [apply Hi|done|]. unfold page_of.
  rewrite Hpr, Ha, Ht, Ho. destruct Hok as [_ Hty _ Hc Hnd Hb].
  pose proof (free_length p Hty Hnd Hb) as Hl. destruct (psize_facts p Hty) as (_ & _ & _ & Hn & _).
  rewrite (follow_fchain _ _ (pg_free p)); [by destruct p| |unfold zlen in Hl; lia].
  destruct (pg_free p) as [|a l] eqn:Hfl; unfold offset_of; rewrite Hfl; [done|].
  destruct (Hb a) as [[? ?] _]; [left|]. unfold INVALID_OFFSET, PAGE_SIZE in *.
  destruct (Z.eqb_spec (a - pg_addr p) 65535); [lia|]. by replace (pg_addr p + (a - pg_addr p)) with a by lia.
Qed.

(** ** The blocks handed out, as a relation *)

Definition sub_block ps (a sz : Z) : Prop :=
  ∃ p, p ∈ ps ∧ is_block p a ∧ a ∉ pg_free p ∧ sz = psize p.
Definition big_block (s : S) ps (a sz : Z) : Prop :=
  ∃ n, plive (kh_pages s) !! a = Some n ∧ a ∉ pg_addr <$> ps ∧ sz = PAGE_SIZE * n.

Lemma elem_live_blocks p a sz : 0 ≤ pg_type p < NSIZES →
  (a, sz) ∈ live_blocks p ↔ is_block p a ∧ a ∉ pg_free p ∧ sz = psize p.
Proof.
  intros Ht. unfold live_blocks. rewrite list_elem_of_fmap. setoid_rewrite list_elem_of_filter.
  setoid_rewrite elem_of_all_blocks; [|done]. naive_solver.
Qed.
Lemma page_unique s ps p p' a :
  heap_inv s ps → p ∈ ps → p' ∈ ps → in_page p a → in_page p' a → p = p'.
Proof.
  intros Hi Hp Hp' H1 H2. assert (Ha : pg_addr p = pg_addr p').
  { apply (same_page s p p' a); [apply Hi|by apply (hi_page _ _ Hi)..|done|done]. }
  apply list_elem_of_lookup in Hp as [i Hi1]. apply list_elem_of_lookup in Hp' as [i' Hi2].
  assert (i = i'); [|congruence]. eapply (NoDup_lookup (pg_addr <$> ps)); [apply Hi|..];
    rewrite list_lookup_fmap; [rewrite Hi1|rewrite Hi2]; simpl; [done|by rewrite Ha].
Qed.

Lemma sub_live_lookup s ps a sz :
  heap_inv s ps → sub_live ps !! a = Some sz ↔ sub_block ps a sz.
Proof.
  intros Hi.
  assert (Hel : ∀ a sz, (a, sz) ∈ ps ≫= live_blocks ↔ sub_block ps a sz).
  { intros b k. rewrite list_elem_of_bind. split.
    - intros (p & Hb & Hp). apply elem_live_blocks in Hb; [|apply (hi_page _ _ Hi p Hp)]. by exists p.
    - intros (p & Hp & ?). exists p. split; [|done]. apply elem_live_blocks; [apply (hi_page _ _ Hi p Hp)|done]. }
  unfold sub_live. split.
  - intros H%elem_of_list_to_map_2. by apply Hel.
  - intros H. apply elem_of_list_to_map_1'; [|by apply Hel]. intros y Hy%Hel.
    destruct H as (p & Hp & [? _] & _ & ->), Hy as (p' & Hp' & [? _] & _ & ->).
    by rewrite (page_unique s ps p p' a).
Qed.
Lemma big_live_lookup s ps a sz : big_live s ps !! a = Some sz ↔ big_block s ps a sz.
Proof.
  unfold big_live, big_block. rewrite lookup_fmap_Some. setoid_rewrite map_lookup_filter_Some. naive_solver.
Qed.
(** A run of pages that is not one of the pages of blocks has no block in it. *)
Lemma big_not_sub s ps a n p :
  heap_inv s ps → plive (kh_pages s) !! a = Some n → a ∉ pg_addr <$> ps → p ∈ ps → ¬ in_page p a.
Proof.
  intros Hi Ha Hn Hp Hin. pose proof (hi_page _ _ Hi p Hp) as [_ _ Hl _ _ _].
  destruct (decide (pg_addr p = a)) as [He|He]; [apply Hn, list_elem_of_fmap; eauto|].
  unfold in_page in Hin.
  pose proof (plive_apart _ _ _ _ _ (hi_pinv _ _ Hi) Hl Ha). lia.
Qed.
Lemma kh_live_lookup s ps a sz :
  heap_inv s ps → kh_live s !! a = Some sz ↔ sub_block ps a sz ∨ big_block s ps a sz.
Proof.
  intros Hi. unfold kh_live. rewrite (pages_of_inv _ _ Hi), lookup_union_Some.
  - by rewrite (sub_live_lookup s), big_live_lookup.
  - apply map_disjoint_spec. intros b x y Hx Hy. apply (sub_live_lookup s) in Hx; [|done].
    apply big_live_lookup in Hy. destruct Hx as (p & Hp & [Hin _] & _), Hy as (n & Hn & Hnin & _).
    by eapply big_not_sub.
Qed.
Lemma kh_live_ext s s' ps ps' :
  heap_inv s ps → heap_inv s' ps' → (∀ a sz, sub_block ps' a sz ↔ sub_block ps a sz) →
  (∀ a sz, big_block s' ps' a sz ↔ big_block s ps a sz) → kh_live s' = kh_live s.
Proof.
  intros Hi Hi' Hs Hb. apply map_ext_Some. intros a sz.
  by rewrite !kh_live_lookup, Hs, Hb by done.
Qed.

(** ** Page references *)

Lemma find_bit_spec fuel w j :
  0 ≤ j → j + Z.of_nat fuel = 33 → 0 ≤ w < 4294967296 →
  match find_bit fuel w (if decide (j < 32) then 2 ^ j else 0) j with
  | Some i => j ≤ i < 32 ∧ Z.testbit w i = false
  | None => ∀ i, j ≤ i < 32 → Z.testbit w i = true
  end.
Proof.
  revert j. induction fuel as [|fuel IH]; intros j Hj Hf Hw; simpl; [intros i Hi; lia|].
  case_decide as Hlt; [|simpl; intros i Hi; lia].
  assert (2 ^ j ≠ 0) by (pose proof (Z.pow_pos_nonneg 2 j); lia).
  destruct (Z.eqb_spec (2 ^ j) 0); [done|].
  rewrite land_pow2 by done. destruct (Z.testbit w j) eqn:Hb.
  - destruct (Z.eqb_spec (2 ^ j) 0); [done|].
    assert (Hk : u32 (Z.shiftl (2 ^ j) 1) = if decide (j + 1 < 32) then 2 ^ (j + 1) else 0).
    { rewrite Z.shiftl_mul_pow2 by done. change (2 ^ 1) with 2. replace (2 ^ j * 2) with (2 ^ (j + 1)) by (rewrite Z.pow_add_r; lia).
      case_decide.
      - apply u32_small. split; [lia|]. change 4294967296 with (2 ^ 32). apply Z.pow_lt_mono_r; lia.
      - replace (j + 1) with 32 by lia. done. }
    rewrite Hk. specialize (IH (j + 1) ltac:(lia) ltac:(lia) Hw).
    destruct (find_bit fuel w _ (j + 1)) as [i|].
    + destruct IH. split; [lia|done].
    + intros i Hi. destruct (decide (i = j)) as [->|]; [done|]. apply IH. lia.
  - simpl. split; [lia|done].
Qed.

Definition words_ok (l : list Z) : Prop :=
  zlen l = INUSE_WORDS ∧ ∀ i w, zget l i = Some w → 0 ≤ w < 4294967296.
(** [l'] is [l] with bit [j] set to [x]. *)
Definition bit_upd (l l' : list Z) (j : Z) (x : bool) : Prop :=
  words_ok l' ∧ ∀ i, 0 ≤ i < NPAGEREFS → bit l' i = if decide (i = j) then x else bit l i.

Lemma word_upd l j w w' x :
  words_ok l → 0 ≤ j < NPAGEREFS → zget l (j / 32) = Some w → 0 ≤ w' →
  (∀ k, Z.testbit w' k = if decide (k = j mod 32) then x else Z.testbit w k) →
  bit_upd l (zset l (j / 32) w') j x.
Proof.
  unfold NPAGEREFS. intros [Hl Hw] Hj Hg Hp Hb. unfold INUSE_WORDS in *.
  assert (Hjm : 0 ≤ j mod 32 < 32) by (apply Z.mod_pos_bound; lia).
  assert (Hjd : 0 ≤ j / 32 < 8) by (Z.div_mod_to_equations; lia).
  split; [split; [by rewrite zlen_zset|]|].
  - intros i v Hi. destruct (decide (i = j / 32)) as [->|Hne].
    + rewrite zget_zset_eq in Hi by lia. injection Hi as <-. split; [done|]. change 4294967296 with (2 ^ 32).
      apply bits_bound; [done|done|]. intros k Hk. rewrite Hb, decide_False by lia.
      apply (testbit_high _ 32); [by apply Hw in Hg|lia].
    + rewrite zget_zset_ne in Hi by done. eauto.
  - intros i Hi. unfold bit. destruct (decide (i / 32 = j / 32)) as [He|Hne].
    + rewrite He, zget_zset_eq, Hg by lia. simpl. rewrite Hb. do 2 case_decide; try done; exfalso; Z.div_mod_to_equations; lia.
    + rewrite zget_zset_ne by done. by rewrite decide_False by congruence.
Qed.

Lemma allocpageref_loop_spec s n i :
  words_ok (pagerefs_inuse s) → 0 ≤ i → i + Z.of_nat n = INUSE_WORDS →
  wp (allocpageref_loop n i)
     (λ o s', match o with
              | None => s' = s
              | Some j => 0 ≤ j < NPAGEREFS ∧ bit (pagerefs_inuse s) j = false ∧
                  ∃ l, s' = set_inuse l s ∧ bit_upd (pagerefs_inuse s) l j true
              end) (λ _ _, False) s.
Proof.
  intros Hw. revert i. unfold INUSE_WORDS, NPAGEREFS. induction n as [|n IH]; intros i Hi Hn;
    cbn [allocpageref_loop]; [done|].
  wp_bind. apply wp_get. pose proof Hw as [Hl Hw']. unfold INUSE_WORDS in Hl.
  destruct (zget_is_Some (pagerefs_inuse s) i) as [w Hg]; [lia|]. rewrite Hg. wp_bind. apply wp_ret.
  pose proof (Hw' i w Hg) as Hwr. destruct (Z.eqb_spec w 4294967295) as [He|He]; [apply IH; lia|].
  pose proof (find_bit_spec 33 w 0 ltac:(lia) ltac:(lia) Hwr) as Hf. rewrite decide_True in Hf by lia.
  change (2 ^ 0) with 1 in Hf. destruct (find_bit 33 w 1 0) as [j|].
  - destruct Hf as [Hj Hb]. wp_bind. apply wp_modify. apply wp_ret.
    assert (Hd : (i * 32 + j) / 32 = i ∧ (i * 32 + j) mod 32 = j) by (Z.div_mod_to_equations; lia).
    destruct Hd as [Hd Hm]. split; [lia|]. split; [unfold bit; by rewrite Hd, Hm, Hg|].
    eexists. split; [done|]. rewrite <- Hd at 1. apply (word_upd _ _ w); [done|unfold NPAGEREFS; lia|by rewrite Hd| |].
    + apply Z.lor_nonneg. split; [lia|]. rewrite Z.shiftl_1_l. apply Z.pow_nonneg. lia.
    + intros k. rewrite Z.shiftl_1_l, Hm. apply testbit_set; lia.
  - exfalso. apply He. apply Z.bits_inj'. intros k Hk. change 4294967295 with (Z.ones 32).
    destruct (decide (k < 32)).
    + rewrite Hf, Z.ones_spec_low by lia. done.
    + rewrite Z.ones_spec_high by lia. apply (testbit_high _ 32); [done|lia].
Qed.
Lemma allocpageref_spec s :
  words_ok (pagerefs_inuse s) →
  wp allocpageref
     (λ o s', match o with
              | None => s' = s
              | Some j => 0 ≤ j < NPAGEREFS ∧ bit (pagerefs_inuse s) j = false ∧
                  ∃ l, s' = set_inuse l s ∧ bit_upd (pagerefs_inuse s) l j true
              end) (λ _ _, False) s.
Proof. intros. by apply allocpageref_loop_spec. Qed.

Lemma freepageref_spec s j :
  words_ok (pagerefs_inuse s) → 0 ≤ j < NPAGEREFS → bit (pagerefs_inuse s) j = true →
  wp (freepageref j) (λ _ s', ∃ l, s' = set_inuse l s ∧ bit_upd (pagerefs_inuse s) l j false)
     (λ _ _, False) s.
Proof.
  intros Hw Hj Hb. unfold freepageref. unfold NPAGEREFS in *. pose proof Hw as [Hl Hw']. unfold INUSE_WORDS in *.
  wp_bind. apply wp_kassert; [lia|]. wp_bind. apply wp_get.
  assert (Hjm : 0 ≤ j mod 32 < 32) by (apply Z.mod_pos_bound; lia).
  destruct (zget_is_Some (pagerefs_inuse s) (j / 32)) as [w Hg]; [Z.div_mod_to_equations; lia|].
  unfold bit in Hb. rewrite Hg in Hb |- *. simpl in Hb. wp_bind. apply wp_ret. rewrite Z.shiftl_1_l.
  wp_bind. apply wp_kassert.
  { rewrite land_pow2, Hb by lia. pose proof (Z.pow_pos_nonneg 2 (j mod 32)).
    destruct (Z.eqb_spec (2 ^ (j mod 32)) 0); [lia|done]. }
  apply wp_modify. eexists. split; [done|]. apply (word_upd _ _ w); try done.
  - apply Z.land_nonneg. left. apply Hw' in Hg. lia.
  - intros k. apply testbit_clear. lia.
Qed.
End spec.
