(* ===== verification/KHeapOps.v ===== *)
(** * The kernel heap: allocation and release of blocks

    What the routines of kheap.c do to the pages a state represents, and from
    that the interface of Kmem: the heap is an instance of [KmemOk] for every
    page allocator that is one of [KpagesOk]. *)

From S2P Require Import Prelude Kmem KPages KHeap KHeapSpec.

Section ops.
Context {P : Type} `{!Kpages P, !KpagesOk P}.
Notation S := (kheap P).
Implicit Types (s : S) (p : page) (ps : list page).

(** ** Changing one page *)

Definition with_free (l : list Z) p : page := mkpage (pg_ref p) (pg_type p) (pg_addr p) l.

Lemma elem_mid ps1 p ps2 q : q ∈ ps1 ++ p :: ps2 ↔ q = p ∨ q ∈ ps1 ++ ps2.
Proof. rewrite !elem_of_app, elem_of_cons. tauto. Qed.
Lemma other_ref s ps1 p ps2 q :
  heap_inv s (ps1 ++ p :: ps2) → q ∈ ps1 ++ ps2 → pg_ref q ≠ pg_ref p ∧ pg_addr q ≠ pg_addr p.
Proof.
  intros Hi Hq. pose proof (hi_nodup _ _ Hi) as Hr. pose proof (hi_addrs _ _ Hi) as Ha.
  rewrite fmap_app, fmap_cons, <- Permutation_middle, NoDup_cons, <- fmap_app in Hr, Ha.
  split; intros He; [apply Hr|apply Ha]; rewrite <- He; by apply list_elem_of_fmap_2.
Qed.
Lemma other_page s ps1 p ps2 q a :
  heap_inv s (ps1 ++ p :: ps2) → q ∈ ps1 ++ ps2 → in_page q a → ¬ in_page p a.
Proof.
  intros Hi Hq H1 H2. destruct (other_ref _ _ _ _ _ Hi Hq) as [Hr _]. apply Hr. f_equal.
  apply (page_unique s (ps1 ++ p :: ps2) q p a); try done; apply elem_mid; auto.
Qed.

Lemma next_of_upd f l r pr pr' x :
  zget l r = Some pr → f pr' = f pr → next_of f (zset l r pr') x = next_of f l x.
Proof.
  intros Hr Hf. unfold next_of. destruct (decide (x = r)) as [->|].
  - rewrite zget_zset_eq, Hr by by eapply zget_Some_range. done.
  - by rewrite zget_zset_ne.
Qed.
Lemma refs_with_free ps1 p ps2 l :
  pg_ref <$> (ps1 ++ with_free l p :: ps2) = pg_ref <$> (ps1 ++ p :: ps2).
Proof. by rewrite !fmap_app. Qed.
Lemma addrs_with_free ps1 p ps2 l :
  pg_addr <$> (ps1 ++ with_free l p :: ps2) = pg_addr <$> (ps1 ++ p :: ps2).
Proof. by rewrite !fmap_app. Qed.
Lemma filter_with_free ps1 p ps2 l t :
  pg_ref <$> filter (λ p, pg_type p = t) (ps1 ++ with_free l p :: ps2) =
  pg_ref <$> filter (λ p, pg_type p = t) (ps1 ++ p :: ps2).
Proof.
  rewrite !filter_app, !filter_cons. simpl. case_decide; by rewrite !fmap_app.
Qed.

Lemma heap_inv_upd s ps1 p ps2 pr l m :
  heap_inv s (ps1 ++ p :: ps2) → zget (pagerefs s) (pg_ref p) = Some pr →
  (∀ a, ¬ in_page p a → m !! a = kh_mem s !! a) → fchain m (first l) l → NoDup l →
  (∀ a, a ∈ l → is_block p a) →
  heap_inv (set_mem m (set_refs (zset (pagerefs s) (pg_ref p)
              (set_free (offset_of (with_free l p)) (zlen l) pr)) s)) (ps1 ++ with_free l p :: ps2).
Proof.
  intros Hi Hpr Hm Hc Hnd Hb. pose proof Hi as [].
  assert (Hp : p ∈ ps1 ++ p :: ps2) by (apply elem_mid; auto).
  destruct (hi_page p Hp) as [(pr0 & Hpr0 & Hpab & _) ? ? _ _ _].
  assert (pr0 = pr) as -> by congruence.
  split; simpl; try done.
  - by rewrite zlen_zset.
  - rewrite refs_with_free. eapply chain_ext; [|done]. intros x _. by apply (next_of_upd _ _ _ pr).
  - intros t b Ht. rewrite filter_with_free. eapply chain_ext; [|by apply hi_same].
    intros x _. by apply (next_of_upd _ _ _ pr).
  - by rewrite refs_with_free.
  - by rewrite addrs_with_free.
  - intros q Hq. apply elem_mid in Hq as [->|Hq].
    + split; simpl; try done. exists (set_free (offset_of (with_free l p)) (zlen l) pr).
      rewrite zget_zset_eq by by eapply zget_Some_range. done.
    + destruct (hi_page q) as [(prq & Hprq & ?) ? ? Hcq ? Hbq]; [apply elem_mid; auto|].
      destruct (other_ref _ _ _ _ _ Hi Hq) as [Hne _]. split; simpl; try done.
      * exists prq. by rewrite zget_zset_ne.
      * eapply fchain_ext; [|done]. intros a Ha. apply Hm. eapply other_page; [done..|by apply Hbq].
  - intros j Hj. by rewrite refs_with_free, hi_inuse.
Qed.

Lemma packed_upd ps1 p ps2 l :
  packed (ps1 ++ p :: ps2) → zlen l < nblocks p → packed (ps1 ++ with_free l p :: ps2).
Proof. intros Hp Hl q Hq. apply elem_mid in Hq as [->|Hq]; [done|]. apply Hp, elem_mid. auto. Qed.

(** ** Taking a block *)

(** One block of page [p] moves between free and handed out. *)
Lemma sub_block_upd s ps1 p ps2 l a :
  heap_inv s (ps1 ++ p :: ps2) → is_block p a → pg_free p = a :: l → a ∉ l →
  ∀ b sz, sub_block (ps1 ++ with_free l p :: ps2) b sz ↔
          b = a ∧ sz = psize p ∨ sub_block (ps1 ++ p :: ps2) b sz.
Proof.
  intros Hi Hb Hf Hnin b sz. unfold sub_block. setoid_rewrite elem_mid. split.
  - intros (q & [->|Hq] & Hbq & Hnq & ->); simpl in *.
    + destruct (decide (b = a)) as [->|]; [by left|]. right. exists p. rewrite Hf.
      split_and!; [by left|done|set_solver|done].
    + right. exists q. auto.
  - intros [[-> ->]|(q & [->|Hq] & Hbq & Hnq & ->)].
    + exists (with_free l p). split_and!; try done. by left.
    + exists (with_free l p). rewrite Hf in Hnq. split_and!; [by left|done|set_solver|done].
    + exists q. auto.
Qed.

Lemma doalloc_spec s ps1 p ps2 a l :
  heap_inv s (ps1 ++ p :: ps2) → pg_free p = a :: l →
  wp (doalloc (pg_ref p))
     (λ b s', b = a ∧ heap_inv s' (ps1 ++ with_free l p :: ps2) ∧ kh_pages s' = kh_pages s ∧
        kh_mem s' = kh_mem s)
     (λ _ _, False) s.
Proof.
  intros Hi Hf. assert (Hp : p ∈ ps1 ++ p :: ps2) by (apply elem_mid; auto).
  pose proof (hi_page _ _ Hi p Hp) as Hok. destruct (page_ref s p) as (pr & Hpr & Ha & _ & Hn & Ho & _); [apply Hi|done|].
  destruct (page_range s p) as (_ & Hlo & Hhi); [apply Hi|done|].
  pose proof Hok as [_ Hty _ Hc Hnd Hb]. rewrite Hf in Hc, Hnd, Hb, Hn. unfold offset_of in Ho. rewrite Hf in Ho.
  simpl in Hc. destruct Hc as (_ & Ha0 & w & Hw & Hc). apply NoDup_cons in Hnd as [Hnin Hnd].
  destruct (Hb a) as [Hin _]; [left|]. unfold in_page, PAGE_SIZE, MIPS_KSEG0, MIPS_KSEG1 in *.
  unfold doalloc. wp_bind. unfold get_ref. wp_bind. apply wp_get. rewrite Hpr. apply wp_ret.
  rewrite Ho, Ha, Hn. wp_bind. apply wp_kassert; [unfold PAGE_SIZE; lia|]. wp_bind. unfold load. wp_bind. apply wp_get.
  replace (pg_addr p + (a - pg_addr p)) with a by lia. rewrite Hw. apply wp_ret.
  rewrite zlen_cons. replace (1 + zlen l - 1) with (zlen l) by lia. cbv zeta.
  assert (Hinv : heap_inv (set_refs (zset (pagerefs s) (pg_ref p)
      (set_free (offset_of (with_free l p)) (zlen l) pr)) s) (ps1 ++ with_free l p :: ps2)).
  { pose proof (heap_inv_upd s ps1 p ps2 pr l (kh_mem s) Hi Hpr) as Hu. apply Hu; try done.
    - destruct l as [|b l]; [done|]. simpl in Hc. destruct Hc as (-> & Hb0 & Hc). done.
    - intros b Hbl. apply Hb. by right. }
  wp_bind. destruct l as [|b l]; simpl in Hc.
  - subst w. done.
  - destruct Hc as (-> & Hb0 & _). destruct (Z.eqb_spec b 0); [done|]. cbn [negb].
    destruct (Hb b) as [[Hb1 Hb2] _]; [right; left|]. unfold PAGE_SIZE in *. pose proof (zlen_nonneg l).
    wp_bind. apply wp_kassert; [rewrite zlen_cons; lia|]. rewrite u32_small by lia.
    wp_bind. apply wp_kassert; [lia|]. apply wp_modify. apply wp_ret. done.
Qed.

(** ** Finding a page *)

Lemma get_ref_spec s r pr Q E : zget (pagerefs s) r = Some pr → Q pr s → wp (get_ref r) Q E s.
Proof. intros Hr HQ. unfold wp, get_ref, bind, get. by rewrite Hr. Qed.

Lemma find_page_spec s ps t l o fuel :
  heap_inv s ps → (∀ p, p ∈ l → p ∈ ps ∧ pg_type p = t) →
  chain (next_of next_samesize (pagerefs s)) o (pg_ref <$> l) → (length l < fuel)%nat →
  wp (find_page fuel t o)
     (λ o' s', s' = s ∧ match o' with
                        | Some r => ∃ p, p ∈ l ∧ pg_ref p = r ∧ pg_free p ≠ []
                        | None => True
                        end) (λ _ _, False) s.
Proof.
  intros Hi. revert l o. induction fuel as [|fuel IH]; intros l o Hl Hc Hf; [lia|].
  destruct l as [|p l]; simpl in Hc; [by subst o|]. destruct Hc as [-> Hc]. simpl.
  destruct (Hl p) as [Hp Ht]; [left|].
  destruct (page_ref s p) as (pr & Hpr & _ & Hbt & Hn & _); [apply Hi|by apply Hi|].
  wp_bind. apply (get_ref_spec _ _ pr); [done|]. wp_bind. apply wp_kassert; [by rewrite Hbt, Ht, Z.eqb_refl|].
  rewrite Hn. destruct (Z.gtb_spec (zlen (pg_free p)) 0).
  - apply wp_ret. split; [done|]. exists p. split_and!; [left|done|]. intros He. by rewrite He in *.
  - wp_use (IH l); [intros q Hq; apply Hl; by right| |simpl in Hf; lia| |done].
    + unfold next_of in Hc. by rewrite Hpr in Hc.
    + intros [r|] s' [-> Hr]; [|done]. split; [done|]. destruct Hr as (q & ? & ? & ?). exists q. split; [by right|done].
Qed.

Lemma find_addr_spec s ps a l o fuel :
  heap_inv s ps → (∀ p, p ∈ l → p ∈ ps) →
  chain (next_of next_all (pagerefs s)) o (pg_ref <$> l) → (length l < fuel)%nat →
  wp (find_addr fuel a o)
     (λ o' s', s' = s ∧ match o' with
                        | Some r => ∃ p, p ∈ l ∧ pg_ref p = r ∧ in_page p a
                        | None => ∀ p, p ∈ l → ¬ in_page p a
                        end) (λ _ _, False) s.
Proof.
  intros Hi. revert l o. induction fuel as [|fuel IH]; intros l o Hl Hc Hf; [lia|].
  destruct l as [|p l]; simpl in Hc; [subst o; split; [done|]; by intros p ?%elem_of_nil|].
  destruct Hc as [-> Hc]. simpl. pose proof (Hl p ltac:(left)) as Hp.
  destruct (page_ref s p) as (pr & Hpr & Ha & Hbt & _); [apply Hi|by apply Hi|].
  pose proof (po_type _ _ (hi_page _ _ Hi p Hp)) as Ht.
  wp_bind. apply (get_ref_spec _ _ pr); [done|]. rewrite Ha, Hbt. wp_bind. apply wp_kassert; [lia|].
  destruct ((pg_addr p <=? a) && (a <? pg_addr p + PAGE_SIZE)) eqn:E.
  - apply wp_ret. split; [done|]. exists p. split_and!; [left|done|]. unfold in_page. lia.
  - wp_use (IH l); [intros q Hq; apply Hl; by right| |simpl in Hf; lia| |done].
    + unfold next_of in Hc. by rewrite Hpr in Hc.
    + intros [r|] s' [-> Hr]; (split; [done|]).
      * destruct Hr as (q & ? & ? & ?). exists q. split; [by right|done].
      * intros q [->|Hq]%elem_of_cons; [unfold in_page; lia|by apply Hr].
Qed.

(** ** A new page *)

(** The blocks [fla + (n-1)*sz], ..., [fla]. *)
Fixpoint down (fla sz : Z) (n : nat) : list Z :=
  match n with O => [] | Datatypes.S k => fla + Z.of_nat k * sz :: down fla sz k end.
Lemma elem_down fla sz n a : a ∈ down fla sz n ↔ ∃ k, 0 ≤ k < Z.of_nat n ∧ a = fla + k * sz.
Proof.
  induction n as [|n IH]; simpl.
  - rewrite elem_of_nil. split; [done|]. intros (k & ? & _). lia.
  - rewrite elem_of_cons, IH. split.
    + intros [->|(k & ? & ->)]; [exists (Z.of_nat n)|exists k]; (split; [lia|done]).
    + intros (k & ? & ->). destruct (decide (k = Z.of_nat n)) as [->|]; [by left|right]. exists k. split; [lia|done].
Qed.
Lemma nodup_down fla sz n : 0 < sz → NoDup (down fla sz n).
Proof.
  intros Hs. induction n as [|n IH]; simpl; constructor; [|done]. rewrite elem_down. intros (k & ? & ?). nia.
Qed.
Lemma length_down fla sz n : length (down fla sz n) = n.
Proof. induction n; simpl; congruence. Qed.

Lemma link_blocks_spec s fla sz n :
  0 < fla → 0 < sz → 0 < n →
  wp (link_blocks fla sz n)
     (λ fl s', fl = fla + (n - 1) * sz ∧ ∃ m, s' = set_mem m s ∧
        fchain m fl (down fla sz (Z.to_nat n)) ∧
        ∀ a, (∀ k, 0 ≤ k < n → a ≠ fla + k * sz) → m !! a = kh_mem s !! a)
     (λ _ _, False) s.
Proof.
  intros Hfla Hsz Hn. unfold link_blocks. wp_bind. apply wp_modify. wp_bind.
  eapply wp_mono; [apply (wp_for_range (λ i s', ∃ m, s' = set_mem m s ∧
    fchain m (fla + (i - 1) * sz) (down fla sz (Z.to_nat i)) ∧
    ∀ a, (∀ k, 0 ≤ k < i → a ≠ fla + k * sz) → m !! a = kh_mem s !! a) (λ _ _, False))| |done].
  - exists (<[fla := 0]> (kh_mem s)). split_and!; [done| |].
    + simpl. split; [lia|]. split; [lia|]. exists 0. split; [|done]. rewrite Z.add_0_r. by rewrite lookup_insert_eq.
    + intros a Ha. rewrite lookup_insert_ne; [done|]. intros <-. apply (Ha 0); lia.
  - intros i s' Hi (m & -> & Hc & Hm). wp_bind. apply wp_modify. apply wp_kassert.
    { apply negb_true_iff, Z.eqb_neq. nia. }
    exists (<[fla + i * sz := fla + (i - 1) * sz]> m). split_and!; [done| |].
    + replace (Z.to_nat (i + 1)) with (Datatypes.S (Z.to_nat i)) by lia. cbn [down fchain].
      rewrite Z2Nat.id by lia. split; [lia|]. split; [nia|]. exists (fla + (i - 1) * sz). split; [apply lookup_insert_eq|].
      eapply fchain_ext; [|done]. intros x (k & Hk & ->)%elem_down. rewrite lookup_insert_ne; [done|]. nia.
    + intros a Ha. rewrite lookup_insert_ne by (intros <-; apply (Ha i); lia). apply Hm. intros k Hk. apply Ha. lia.
  - intros [] s' (m & -> & Hc & Hm). apply wp_ret. rewrite Z2Nat.id in * by lia.
    replace (1 + (n - 1)) with n in * by lia. split; [done|]. exists m. split_and!; [done| |done]. done.
Qed.

(** The state after a page [p] was put in front of all lists. *)
Definition pushed (s : S) p (pr : pageref) (pages : P) (m : gmap Z Z) (inuse : list Z) : S :=
  mkkh pages m (zset (pagerefs s) (pg_ref p) pr) inuse
    (zset (sizebases s) (pg_type p) (Some (pg_ref p))) (Some (pg_ref p)).

Lemma push_inv s ps p base pages m inuse :
  heap_inv s ps → 0 ≤ pg_ref p < NPAGEREFS → bit (pagerefs_inuse s) (pg_ref p) = false →
  bit_upd (pagerefs_inuse s) inuse (pg_ref p) true →
  pinv pages → plive (kh_pages s) !! pg_addr p = None →
  plive pages = <[pg_addr p := 1]> (plive (kh_pages s)) →
  0 ≤ pg_type p < NSIZES → zget (sizebases s) (pg_type p) = Some base →
  pg_free p = down (pg_addr p) (psize p) (Z.to_nat (nblocks p)) →
  fchain m (first (pg_free p)) (pg_free p) →
  (∀ a, ¬ in_page p a → m !! a = kh_mem s !! a) →
  heap_inv (pushed s p (mkpr base (allbase s) (pg_addr p + pg_type p) (offset_of p) (zlen (pg_free p)))
              pages m inuse) (p :: ps).
Proof.
  intros Hi Hr Hbit [Hwords Hbits] Hpi Hnone Hpl Ht Hbase Hfree Hc Hm. pose proof Hi as [].
  destruct (psize_facts p Ht) as (_ & Hsz & _ & Hnb & Hmul).
  assert (Hnew : plive pages !! pg_addr p = Some 1) by by rewrite Hpl, lookup_insert_eq.
  assert (Hnr : pg_ref p ∉ pg_ref <$> ps) by (intros Hin%hi_inuse; [congruence|done]).
  assert (Hna : pg_addr p ∉ pg_addr <$> ps).
  { intros (q & Hqa & Hq)%list_elem_of_fmap. destruct (hi_page q Hq) as [_ _ Hl _ _ _]. congruence. }
  assert (Hother : ∀ q a, q ∈ ps → in_page q a → ¬ in_page p a).
  { intros q a Hq H1 H2. destruct (hi_page q Hq) as [_ _ Hl _ _ _].
    assert (Hl' : plive pages !! pg_addr q = Some 1) by (rewrite Hpl, lookup_insert_ne by congruence; done).
    assert (pg_addr q ≠ pg_addr p) by congruence. unfold in_page in *.
    destruct (decide (pg_addr q < pg_addr p)).
    - pose proof (plive_apart _ _ _ _ _ Hpi Hl' Hnew). lia.
    - pose proof (plive_apart _ _ _ _ _ Hpi Hnew Hl'). lia. }
  set (pr := mkpr _ _ _ _ _).
  assert (Hext : ∀ f x, x ∈ pg_ref <$> ps →
    next_of f (zset (pagerefs s) (pg_ref p) pr) x = next_of f (pagerefs s) x).
  { intros f x Hx. unfold next_of. rewrite zget_zset_ne; [done|]. congruence. }
  assert (Hself : ∀ f, next_of f (zset (pagerefs s) (pg_ref p) pr) (pg_ref p) = f pr).
  { intros f. unfold next_of. rewrite zget_zset_eq; [done|]. by rewrite hi_refs. }
  split; cbn [pushed kh_pages kh_mem pagerefs pagerefs_inuse sizebases allbase]; rewrite ?fmap_cons; try done.
  - by rewrite zlen_zset.
  - by rewrite zlen_zset.
  - split; [done|]. rewrite Hself. by eapply chain_ext; [|done]; apply Hext.
  - intros t b Hb. rewrite filter_cons. case_decide as Htt.
    + subst t. rewrite zget_zset_eq in Hb by by rewrite hi_bases. injection Hb as <-. split; [done|].
      fold (pg_ref <$> filter (λ p0, pg_type p0 = pg_type p) ps). rewrite Hself.
      eapply chain_ext; [|by apply hi_same]. intros x (q & -> & [_ Hq]%list_elem_of_filter)%list_elem_of_fmap.
      apply Hext. by apply list_elem_of_fmap_2.
    + rewrite zget_zset_ne in Hb by done. eapply chain_ext; [|by apply hi_same].
      intros x (q & -> & [_ Hq]%list_elem_of_filter)%list_elem_of_fmap. apply Hext. by apply list_elem_of_fmap_2.
  - by constructor.
  - by constructor.
  - intros q [->|Hq]%elem_of_cons.
    + split; try done.
      * exists pr. cbn [pushed pagerefs]. by rewrite zget_zset_eq by by rewrite hi_refs.
      * rewrite Hfree. apply nodup_down. lia.
      * intros a Ha. rewrite Hfree, elem_down in Ha. apply is_block_index; [done|].
        destruct Ha as (k & Hk & ->). exists k. split; [lia|done].
    + destruct (hi_page q Hq) as [(prq & Hprq & ?) ? Hl ? ? Hb]. split; try done.
      * exists prq. cbn [pushed pagerefs]. rewrite zget_zset_ne; [done|]. intros He. apply Hnr. rewrite He. by apply list_elem_of_fmap_2.
      * cbn [pushed kh_pages]. rewrite Hpl, lookup_insert_ne by congruence. done.
      * cbn [pushed kh_mem]. eapply fchain_ext; [|done]. intros a Ha. apply Hm. eapply Hother; [done|by apply Hb].
  - intros j Hj. rewrite Hbits, elem_of_cons by done. case_decide; [naive_solver|]. rewrite hi_inuse by done. naive_solver.
Qed.

Lemma fresh_page_spec s ps t sz :
  heap_inv s ps → 0 ≤ t < NSIZES → zget sizes t = Some sz →
  wp (fresh_page t sz)
     (λ o s', match o with
        | None => heap_inv s' ps ∧ plive (kh_pages s') = plive (kh_pages s) ∧ kh_mem s' = kh_mem s
        | Some r => ∃ p, pg_ref p = r ∧ pg_type p = t ∧ heap_inv s' (p :: ps) ∧
            zlen (pg_free p) = nblocks p ∧ pg_free p = down (pg_addr p) (psize p) (Z.to_nat (nblocks p)) ∧
            plive (kh_pages s) !! pg_addr p = None ∧
            plive (kh_pages s') = <[pg_addr p := 1]> (plive (kh_pages s)) ∧
            ∀ b, ¬ in_page p b → kh_mem s' !! b = kh_mem s !! b
        end) (λ _ _, False) s.
Proof.
  intros Hi Ht Hsz. pose proof Hi as []. unfold fresh_page. wp_bind. wp_use allocpageref_spec; [done| |done].
  intros [r|] s1; [|by intros ->]. intros (Hr & Hbit & l & -> & Hupd). wp_bind. apply wp_zoom. simpl.
  wp_use alloc_kpages_spec; [done|lia| |done].
  intros a pg (Hpi & [[-> Hpl]|[Hnone Hpl]]).
  { simpl. wp_bind. destruct Hupd as [Hw Hb].
    wp_use freepageref_spec; [done|done|simpl; by rewrite Hb, decide_True| |done].
    intros [] s2 (l2 & -> & Hw2 & Hb2). apply wp_ret. split; [|done]. split; try done; simpl in *.
    { intros q Hq. destruct (hi_page q Hq). split; try done. simpl. by rewrite Hpl. }
    intros j Hj. rewrite Hb2, Hb by done. case_decide as Hjr; [|by apply hi_inuse].
    subst j. by rewrite <- hi_inuse, Hbit. }
  assert (Hnew : plive pg !! a = Some 1) by by rewrite Hpl, lookup_insert_eq.
  destruct (plive_range _ _ _ Hpi Hnew) as (_ & Ham & Hlo & Hhi). unfold MIPS_KSEG0, MIPS_KSEG1, PAGE_SIZE in Ham, Hlo, Hhi.
  destruct (Z.eqb_spec a 0); [lia|].
  set (p := mkpage r t a (down a sz (Z.to_nat (PAGE_SIZE / sz)))).
  assert (Hps : psize p = sz) by (unfold psize; simpl; by rewrite Hsz).
  destruct (psize_facts p Ht) as (_ & Hszr & _ & Hnb & Hmul). unfold nblocks in Hnb, Hmul. rewrite Hps in Hszr, Hnb, Hmul.
  wp_bind. wp_use link_blocks_spec; [lia|lia|lia| |done].
  intros fl s2 (-> & m & -> & Hc & Hm). wp_bind. apply wp_kassert; [apply Z.eqb_eq; lia|].
  wp_bind. apply wp_get. destruct (zget_is_Some (sizebases s) t) as [base Hbase]; [by rewrite hi_bases|].
  simpl. rewrite Hbase. wp_bind. apply wp_ret. do 3 (wp_bind; apply wp_modify). apply wp_ret.
  assert (Hn : exists k, Z.to_nat (PAGE_SIZE / sz) = Datatypes.S k ∧ Z.of_nat k = PAGE_SIZE / sz - 1).
  { exists (Z.to_nat (PAGE_SIZE / sz - 1)). lia. }
  destruct Hn as (k & Hk & Hk').
  assert (Hoff : offset_of p = a + (PAGE_SIZE / sz - 1) * sz - a).
  { unfold offset_of, p; simpl. rewrite Hk. simpl. lia. }
  assert (Hlen : zlen (pg_free p) = PAGE_SIZE / sz) by (unfold zlen, p; simpl; rewrite length_down; lia).
  assert (Hout : ∀ b, ¬ in_page p b → m !! b = kh_mem s !! b).
  { intros b Hb. apply Hm. intros j Hj ->. apply Hb. unfold in_page, p, PAGE_SIZE in *. simpl. nia. }
  exists p. split_and!; try done; [|unfold nblocks; by rewrite Hps|unfold nblocks; by rewrite Hps].
  pose proof (push_inv s ps p base pg m l) as Hpush. unfold pushed in Hpush.
  rewrite Hoff, Hlen in Hpush. cbn [pg_ref pg_type pg_addr p] in Hpush. rewrite mkpab_add by (done || lia).
  apply Hpush; try done.
  - unfold nblocks. rewrite Hps. done.
  - cbn [pg_free p]. rewrite Hk in *. replace (first _) with (a + (PAGE_SIZE / sz - 1) * sz) by (simpl; lia). done.
Qed.

(** ** Where blocks lie *)

Lemma block_apart p a b : 0 ≤ pg_type p < NSIZES → is_block p a → is_block p b → b ≠ a →
  b < a ∨ a + psize p ≤ b.
Proof.
  intros Ht (i & Hi & ->)%is_block_index (j & Hj & ->)%is_block_index Hne; [|done..].
  destruct (psize_facts p Ht) as (_ & Hs & _). assert (i ≠ j) by congruence. nia.
Qed.

Lemma block_inside p a : 0 ≤ pg_type p < NSIZES → is_block p a → a + psize p ≤ pg_addr p + PAGE_SIZE.
Proof.
  intros Ht (i & Hi & ->)%is_block_index; [|done]. destruct (psize_facts p Ht) as (_ & Hs & _ & _ & Hm). nia.
Qed.

Lemma all_free p b : 0 ≤ pg_type p < NSIZES → NoDup (pg_free p) → (∀ a, a ∈ pg_free p → is_block p a) →
  zlen (pg_free p) = nblocks p → is_block p b → b ∈ pg_free p.
Proof.
  intros Ht Hnd Hbl Hlen Hb. assert (Hsub : pg_free p ⊆+ all_blocks p).
  { apply NoDup_submseteq; [done|]. intros a Ha. apply elem_of_all_blocks; auto. }
  destruct (psize_facts p Ht) as (_ & _ & _ & Hn & _). pose proof (length_all_blocks p) as Hl. unfold zlen in *.
  rewrite (submseteq_length_Permutation _ _ Hsub) by lia. by apply elem_of_all_blocks.
Qed.

(** A byte of a page of blocks belongs to no block but those of the page. *)
Lemma live_in_page s ps a u b p :
  heap_inv s ps → kh_live s !! a = Some u → a ≤ b < a + u → p ∈ ps → in_page p b →
  is_block p a ∧ a ∉ pg_free p ∧ u = psize p.
Proof.
  intros Hi Hl Hb Hp Hin. apply (kh_live_lookup s ps) in Hl; [|done].
  destruct Hl as [(q & Hq & Hbl & Hnf & ->)|(n & Hn & Hna & ->)].
  - assert (q = p) as <-; [|done]. eapply page_unique; [done..| |done].
    pose proof (block_inside q a (po_type _ _ (hi_page _ _ Hi q Hq)) Hbl). destruct Hbl as [[? ?] _].
    unfold in_page. lia.
  - exfalso. pose proof (hi_page _ _ Hi p Hp) as [_ _ Hpl _ _ _]. unfold in_page in Hin.
    destruct (Z.lt_total (pg_addr p) a) as [Hlt|[He|Hlt]]; [|apply Hna; rewrite <- He; by apply list_elem_of_fmap_2|].
    + pose proof (plive_apart _ _ _ _ _ (hi_pinv _ _ Hi) Hpl Hn Hlt). lia.
    + pose proof (plive_apart _ _ _ _ _ (hi_pinv _ _ Hi) Hn Hpl Hlt). lia.
Qed.
Lemma live_apart s ps a u a' u' :
  heap_inv s ps → kh_live s !! a = Some u → kh_live s !! a' = Some u' → 0 < u' → a < a' → a + u ≤ a'.
Proof.
  intros Hi Ha Ha' Hu Hlt. destruct (decide (a + u ≤ a')) as [|Hover]; [done|exfalso].
  pose proof Ha' as Hl. apply (kh_live_lookup s ps) in Hl; [|done].
  destruct Hl as [(q & Hq & Hbl & _)|(n' & Hn' & Hna' & ->)].
  - destruct (live_in_page s ps a u a' q) as (Hba & _ & ->); [done|done|lia|done|apply Hbl|].
    destruct (block_apart q a a'); [by apply (hi_page _ _ Hi)|done|done|lia..].
  - apply (kh_live_lookup s ps) in Ha; [|done]. destruct Ha as [(q & Hq & Hbl & _ & ->)|(n & Hn & _ & ->)].
    + apply (big_not_sub s ps a' n' q Hi Hn' Hna' Hq).
      pose proof (block_inside q a (po_type _ _ (hi_page _ _ Hi q Hq)) Hbl). destruct Hbl as [[? ?] _].
      unfold in_page. lia.
    + pose proof (plive_apart _ _ _ _ _ (hi_pinv _ _ Hi) Hn Hn' Hlt). lia.
Qed.

(** The contents of the blocks that are handed out before and after. *)
Definition untouched s s' : Prop :=
  ∀ a u b, kh_live s !! a = Some u → kh_live s' !! a = Some u → a ≤ b < a + u →
    kh_mem s' !! b = kh_mem s !! b.
Lemma untouched_same s s' : kh_mem s' = kh_mem s → untouched s s'.
Proof. intros He a u b _ _ _. by rewrite He. Qed.

(** ** Small requests *)

Definition heap_ok s : Prop := ∃ ps, heap_inv s ps ∧ packed ps.
(** [a] is a new block of [u] bytes. *)
Definition new_block (a u : Z) s s' : Prop :=
  a ≠ 0 ∧ kh_live s !! a = None ∧ kh_live s' = <[a := u]> (kh_live s).

Lemma free_not_live s ps p a : heap_inv s ps → p ∈ ps → a ∈ pg_free p → kh_live s !! a = None.
Proof.
  intros Hi Hp Ha. apply eq_None_not_Some. intros [u Hu]. apply (kh_live_lookup s ps) in Hu; [|done].
  destruct (po_blocks _ _ (hi_page _ _ Hi p Hp) a Ha) as [Hin _].
  destruct Hu as [(q & Hq & [Hinq _] & Hn & _)|(n & Hn & Hna & _)].
  - by rewrite (page_unique s ps q p a) in Hn.
  - by eapply big_not_sub.
Qed.

Lemma take_block s ps1 p ps2 :
  heap_inv s (ps1 ++ p :: ps2) → packed (ps1 ++ ps2) → pg_free p ≠ [] →
  wp (doalloc (pg_ref p)) (λ a s', heap_ok s' ∧ new_block a (psize p) s s' ∧ kh_mem s' = kh_mem s)
     (λ _ _, False) s.
Proof.
  intros Hi Hpk Hne. destruct (pg_free p) as [|a l] eqn:Hf; [done|].
  assert (Hp : p ∈ ps1 ++ p :: ps2) by (apply elem_mid; auto).
  pose proof (hi_page _ _ Hi p Hp) as [_ Ht Hl Hc Hnd Hb]. rewrite Hf in Hc, Hnd, Hb.
  wp_use doalloc_spec; [done|done| |done]. intros b s' (-> & Hi' & Hpg & Hmem).
  assert (Hz : zlen (a :: l) ≤ nblocks p).
  { rewrite <- Hf. apply free_length; [done|by rewrite Hf|by rewrite Hf]. }
  rewrite zlen_cons in Hz. split; [|split; [|done]].
  - exists (ps1 ++ with_free l p :: ps2). split; [done|]. intros q [->|Hq]%elem_mid; [|by apply Hpk].
    simpl. change (nblocks (with_free l p)) with (nblocks p). lia.
  - split; [by destruct Hc as (_ & ? & _)|].
    split; [eapply (free_not_live s _ p a); [done|done|rewrite Hf; left]|].
    apply map_ext_Some. intros b sz. rewrite (kh_live_lookup s' _ _ _ Hi'), lookup_insert_Some, (kh_live_lookup s _ _ _ Hi).
    rewrite (sub_block_upd s ps1 p ps2 l a) by (done || (apply Hb; left) || by apply NoDup_cons in Hnd as [? _]).
    unfold big_block. rewrite Hpg, addrs_with_free.
    assert (Hn : kh_live s !! a = None) by (eapply (free_not_live s _ p a); [done|done|rewrite Hf; left]).
    destruct (decide (b = a)) as [->|]; [|naive_solver]. split.
    + intros [[[_ ->]|Hs]|Hbig]; [by left|exfalso..]; apply eq_None_not_Some in Hn; apply Hn; exists sz;
        apply (kh_live_lookup s _ _ _ Hi); auto.
    + naive_solver.
Qed.

Lemma blocktype_spec s sz :
  0 ≤ sz ≤ 2048 →
  wp (blocktype sz) (λ t s', s' = s ∧ 0 ≤ t < NSIZES ∧ ∃ k, zget sizes t = Some k ∧ sz ≤ k) (λ _ _, False) s.
Proof.
  intros Hsz. unfold blocktype, sizes. simpl.
  repeat (match goal with |- context [sz <=? ?k] => destruct (Z.leb_spec sz k) end;
    [apply wp_ret; split; [done|]; split; [unfold NSIZES; lia|]; eexists; split; [reflexivity|lia]|]).
  lia.
Qed.

(** A page without a block handed out adds none. *)
Lemma fresh_live s s' ps p :
  heap_inv s ps → heap_inv s' (p :: ps) → pg_free p = down (pg_addr p) (psize p) (Z.to_nat (nblocks p)) →
  plive (kh_pages s) !! pg_addr p = None →
  plive (kh_pages s') = <[pg_addr p := 1]> (plive (kh_pages s)) → kh_live s' = kh_live s.
Proof.
  intros Hi Hi' Hf Hnone Hpl. apply (kh_live_ext s s' ps (p :: ps)); [done..| |].
  - intros a sz. unfold sub_block. setoid_rewrite elem_of_cons. split.
    + intros (q & [->|Hq] & Hb & Hn & ->); [exfalso|by exists q].
      apply Hn. rewrite Hf. apply elem_down.
      apply is_block_index in Hb as (k & Hk & ->); [exists k; split; [lia|done]|].
      apply (hi_page _ _ Hi' p). left.
    + intros (q & Hq & ?). exists q. auto.
  - intros a sz. unfold big_block. rewrite Hpl, fmap_cons. setoid_rewrite not_elem_of_cons.
    setoid_rewrite lookup_insert_Some. split.
    + intros (n & [[<- <-]|[_ Hn]] & [? ?] & ->); [done|]. by exists n.
    + intros (n & Hn & Hna & ->). exists n. split_and!; try done; [right; split; [congruence|done]|congruence].
Qed.

Lemma subpage_kmalloc_spec s sz :
  heap_ok s → 0 ≤ sz < 2048 →
  wp (subpage_kmalloc sz)
     (λ a s', heap_ok s' ∧ untouched s s' ∧ (a = 0 ∧ kh_live s' = kh_live s ∨ ∃ u, sz ≤ u ∧ new_block a u s s'))
     (λ _ _, False) s.
Proof.
  intros (ps & Hi & Hpk) Hsz. unfold subpage_kmalloc. wp_bind. wp_use blocktype_spec; [lia| |done].
  intros t s0 (-> & Ht & k & Hk & Hle). wp_bind. unfold size_of. rewrite Hk. apply wp_ret.
  wp_bind. apply wp_get. destruct (zget_is_Some (sizebases s) t) as [base Hbase]; [by rewrite (hi_bases _ _ Hi)|].
  rewrite Hbase. wp_bind. apply wp_ret. wp_bind.
  wp_use (find_page_spec s ps t (filter (λ p, pg_type p = t) ps) base list_fuel); [done| |by apply Hi| | |done].
  { intros p [? ?]%list_elem_of_filter. done. }
  { pose proof (pages_length _ _ Hi). pose proof (length_filter (λ p, pg_type p = t) ps). unfold list_fuel. lia. }
  intros [r|] s0 [-> Hr].
  - destruct Hr as (p & [Hpt Hp]%list_elem_of_filter & <- & Hne). apply list_elem_of_split in Hp as (ps1 & ps2 & ->).
    wp_use take_block; [done| |done| |done].
    + intros q Hq. apply Hpk, elem_mid. auto.
    + intros a s' (Hok & Hnew & Hmem). split; [done|]. split; [by apply untouched_same|]. right. exists (psize p). split; [|done]. unfold psize. by rewrite Hpt, Hk.
  - wp_bind. wp_use fresh_page_spec; [done..| |done]. intros [r|] s1.
    + intros (p & <- & Hpt & Hi1 & Hlen & Hf & Hnone & Hpl & Hm1).
      assert (Hps : psize p = k) by (unfold psize; by rewrite Hpt, Hk).
      destruct (psize_facts p) as (_ & _ & _ & Hnb & _); [by rewrite Hpt|].
      wp_use (take_block s1 [] p ps); [done|done| | |done].
      { intros He. rewrite He in Hlen. unfold zlen in Hlen. simpl in Hlen. lia. }
      intros a s' (Hok & (Ha0 & Hnl & Hlive) & Hmem). split; [done|].
      pose proof (fresh_live s s1 ps p Hi Hi1 Hf Hnone Hpl) as He. split.
      { intros b u c Hb _ Hc. rewrite Hmem. apply Hm1. intros Hin. rewrite <- He in Hb.
        destruct (live_in_page s1 (p :: ps) b u c p) as (Hbl & Hnf & _); [done|done|done|left|done|].
        apply Hnf, all_free; try done; apply (hi_page _ _ Hi1); left. }
      right. exists k. split; [done|]. unfold new_block. by rewrite <- He, <- Hps.
    + intros (Hi1 & Hpl & Hmem). apply wp_ret. split; [by exists ps|]. split; [by apply untouched_same|]. left. split; [done|].
      apply (kh_live_ext s s1 ps ps); try done. intros a u. unfold big_block. by rewrite Hpl.
Qed.

(** ** Taking a page off the lists *)

(** The store through [guy]. *)
Definition write_link (setf : option Z → pageref → pageref) (setb : option Z → M S unit)
    (prev o : option Z) : M S unit :=
  match prev with None => setb o | Some q => let! rq := get_ref q in put_ref q (setf o rq) end.

Lemma unlink_walk s f setf setb r l1 l2 prev guy fuel :
  chain (next_of f (pagerefs s)) guy (l1 ++ r :: l2) → r ∉ l1 →
  (∀ x, x ∈ l1 ++ [r] → is_Some (zget (pagerefs s) x)) → (length l1 < fuel)%nat →
  unlink fuel f setf setb r prev guy s =
  write_link setf setb (match last l1 with Some q => Some q | None => prev end)
    (next_of f (pagerefs s) r) s.
Proof.
  revert prev guy fuel. induction l1 as [|x l1 IH]; intros prev guy fuel Hc Hr Hs Hf;
    (destruct fuel as [|fuel]; [simpl in Hf; lia|]); simpl in Hc; destruct Hc as [-> Hc]; cbn [unlink].
  - destruct (Hs r) as [pr Hpr]; [simpl; left|]. unfold bind at 1, get_ref at 1, bind at 1, get. rewrite Hpr. simpl.
    rewrite Z.eqb_refl. unfold next_of. rewrite Hpr. by destruct prev.
  - destruct (Hs x) as [px Hpx]; [simpl; left|]. unfold bind at 1, get_ref at 1, bind at 1, get. rewrite Hpx. simpl.
    apply not_elem_of_cons in Hr as [Hrx Hr]. destruct (Z.eqb_spec x r); [congruence|].
    assert (next_of f (pagerefs s) x = f px) as Hn by (unfold next_of; by rewrite Hpx). rewrite Hn in Hc.
    rewrite (IH (Some x)); [|done|done|intros y Hy; apply Hs; simpl; by right|simpl in Hf; lia].
    destruct l1 as [|y l1]; [done|]. change (last (x :: y :: l1)) with (last (y :: l1)).
    destruct (last (y :: l1)) eqn:He; [done|by apply last_None in He].
Qed.

Lemma chain_unlink_mid nx nx' o l1 q r l2 :
  chain nx o ((l1 ++ [q]) ++ r :: l2) → NoDup ((l1 ++ [q]) ++ r :: l2) →
  nx' q = nx r → (∀ x, x ≠ q → nx' x = nx x) → chain nx' o ((l1 ++ [q]) ++ l2).
Proof.
  intros Hc Hnd Hq Hx. revert o Hc Hnd. induction l1 as [|x l1 IH]; intros o; simpl.
  - intros (-> & Hr & Hc) [Hnq [_ _]%NoDup_cons]%NoDup_cons. split; [done|]. rewrite Hq.
    eapply chain_ext; [|done]. intros x Hxl. apply Hx. set_solver.
  - intros [-> Hc] [Hnx Hnd]%NoDup_cons. split; [done|]. rewrite Hx by set_solver. by apply IH.
Qed.

(** The parts of a page reference that are not links. *)
Definition core (pr : pageref) : Z * Z * Z := (pageaddr_and_blocktype pr, freelist_offset pr, nfree pr).
Definition same_core (l l' : list pageref) : Prop :=
  zlen l' = zlen l ∧ ∀ x, core <$> zget l' x = core <$> zget l x.

Lemma same_core_upd l q pr pr' :
  zget l q = Some pr → core pr' = core pr → same_core l (zset l q pr').
Proof.
  intros Hq Hc. split; [by rewrite zlen_zset|]. intros x. destruct (decide (x = q)) as [->|].
  - rewrite zget_zset_eq, Hq by by eapply zget_Some_range. simpl. by rewrite Hc.
  - by rewrite zget_zset_ne.
Qed.
Lemma same_core_trans l1 l2 l3 : same_core l1 l2 → same_core l2 l3 → same_core l1 l3.
Proof. intros [? H1] [? H2]. split; [congruence|]. intros x. by rewrite H2, H1. Qed.
Lemma page_ok_core s s' p :
  page_ok s p → same_core (pagerefs s) (pagerefs s') → kh_pages s' = kh_pages s → kh_mem s' = kh_mem s →
  page_ok s' p.
Proof.
  intros [(pr & Hpr & ? & ? & ?) ? ? ? ? ?] [_ Hc] Hp Hm. split; rewrite ?Hp, ?Hm; try done.
  specialize (Hc (pg_ref p)). rewrite Hpr in Hc. apply fmap_Some in Hc as (pr' & Hpr' & He).
  injection He as ? ? ?. exists pr'. split_and!; [done|congruence..].
Qed.

(** One list with [r] taken out; the other links are as before. *)
Lemma write_link_spec s f setf setb o l1 r l2 :
  chain (next_of f (pagerefs s)) o (l1 ++ r :: l2) → NoDup (l1 ++ r :: l2) →
  (∀ x, x ∈ l1 → is_Some (zget (pagerefs s) x)) → (∀ o pr, f (setf o pr) = o ∧ core (setf o pr) = core pr) →
  let c := write_link setf (λ o, modify (setb o)) (last l1) (next_of f (pagerefs s) r) in
  ∃ s' o', c s = Ok tt s' ∧
    (l1 = [] ∧ s' = setb o' s ∧ chain (next_of f (pagerefs s)) o' l2 ∨
     ∃ q pr x, q ∈ l1 ∧ zget (pagerefs s) q = Some pr ∧ o' = o ∧
       s' = set_refs (zset (pagerefs s) q (setf x pr)) s ∧
       chain (next_of f (zset (pagerefs s) q (setf x pr))) o (l1 ++ l2)).
Proof.
  intros Hc Hnd Hs Hf. cbv zeta. destruct l1 as [|q l1 _] using rev_ind.
  - exists (setb (next_of f (pagerefs s) r) s), (next_of f (pagerefs s) r). split; [done|]. left.
    split_and!; try done. simpl in Hc. apply Hc.
  - destruct (Hs q) as [pr Hpr]; [set_solver|]. rewrite last_snoc. unfold write_link, get_ref, bind, get. rewrite Hpr.
    do 2 eexists. split; [done|]. right. exists q, pr, (next_of f (pagerefs s) r).
    split_and!; [set_solver|done|done|done|].
    eapply chain_unlink_mid; [done|done|..].
    + unfold next_of at 1. rewrite zget_zset_eq by by eapply zget_Some_range. simpl. by apply Hf.
    + intros x Hx. unfold next_of. by rewrite zget_zset_ne.
Qed.

Definition same_pages s s' : Prop :=
  kh_pages s' = kh_pages s ∧ kh_mem s' = kh_mem s ∧ pagerefs_inuse s' = pagerefs_inuse s ∧
  same_core (pagerefs s) (pagerefs s') ∧ zlen (sizebases s') = zlen (sizebases s).
Definition chains_ok s ps : Prop :=
  ∀ t b, zget (sizebases s) t = Some b →
    chain (next_of next_samesize (pagerefs s)) b (pg_ref <$> filter (λ p, pg_type p = t) ps).

Lemma refs_is_Some s ps l x : heap_inv s ps → l ⊆ ps → x ∈ pg_ref <$> l → is_Some (zget (pagerefs s) x).
Proof.
  intros Hi Hl (q & -> & Hq)%list_elem_of_fmap. destruct (hi_page _ _ Hi q) as [(pr & Hpr & _) _ _ _ _ _]; eauto.
Qed.
Lemma unlink_spec s f setf setb o l1 r l2 :
  chain (next_of f (pagerefs s)) o (l1 ++ r :: l2) → NoDup (l1 ++ r :: l2) →
  (∀ x, x ∈ l1 ++ [r] → is_Some (zget (pagerefs s) x)) → (length l1 ≤ 256)%nat →
  (∀ o pr, f (setf o pr) = o ∧ core (setf o pr) = core pr) →
  ∃ s' o', unlink list_fuel f setf (λ o, modify (setb o)) r None o s = Ok tt s' ∧
    (l1 = [] ∧ s' = setb o' s ∧ chain (next_of f (pagerefs s)) o' l2 ∨
     ∃ q pr x, q ∈ l1 ∧ zget (pagerefs s) q = Some pr ∧
       s' = set_refs (zset (pagerefs s) q (setf x pr)) s ∧
       chain (next_of f (zset (pagerefs s) q (setf x pr))) o (l1 ++ l2)).
Proof.
  intros Hc Hnd Hs Hl Hf. rewrite (unlink_walk s _ _ _ _ l1 l2); [|done| |done|unfold list_fuel; lia].
  2: { apply NoDup_app in Hnd as (_ & Hd & _). intros Hin. apply (Hd _ Hin). by left. }
  destruct (write_link_spec s f setf setb o l1 r l2) as (s' & o' & Hw & Hcase); [done|done| |done|].
  { intros x Hx. apply Hs. set_solver. }
  exists s', o'. split; [|naive_solver]. rewrite <- Hw. by destruct (last l1).
Qed.

Notation of_type t l := (filter (λ p, pg_type p = t) l).
Lemma of_type_mid t ps1 p ps2 :
  pg_ref <$> of_type t (ps1 ++ p :: ps2) =
  (pg_ref <$> of_type t ps1) ++ (if decide (pg_type p = t) then [pg_ref p] else []) ++ (pg_ref <$> of_type t ps2).
Proof. rewrite filter_app, filter_cons, fmap_app. by case_decide. Qed.
Lemma of_type_app t ps1 ps2 :
  pg_ref <$> of_type t (ps1 ++ ps2) = (pg_ref <$> of_type t ps1) ++ (pg_ref <$> of_type t ps2).
Proof. by rewrite filter_app, fmap_app. Qed.
Lemma ref_inj s ps p p' : heap_inv s ps → p ∈ ps → p' ∈ ps → pg_ref p = pg_ref p' → p = p'.
Proof.
  intros Hi [i H1]%list_elem_of_lookup [j H2]%list_elem_of_lookup He. assert (i = j); [|congruence].
  eapply (NoDup_lookup (pg_ref <$> ps)); [apply Hi|..]; rewrite list_lookup_fmap;
    [rewrite H1|rewrite H2]; simpl; [done|by rewrite He].
Qed.

(** The other lists are not touched. *)
Lemma same_others s ps1 p ps2 t o :
  heap_inv s (ps1 ++ p :: ps2) → t ≠ pg_type p → zget (sizebases s) t = Some o →
  chain (next_of next_samesize (pagerefs s)) o (pg_ref <$> of_type t (ps1 ++ ps2)) ∧
  ∀ q x pr, q ∈ pg_ref <$> of_type (pg_type p) ps1 →
    chain (next_of next_samesize (zset (pagerefs s) q (set_next_samesize x pr))) o
          (pg_ref <$> of_type t (ps1 ++ ps2)).
Proof.
  intros Hi Ht Ho. pose proof (hi_same _ _ Hi t o Ho) as Hc.
  rewrite of_type_mid, decide_False in Hc by done. simpl in Hc. rewrite <- of_type_app in Hc.
  split; [done|]. intros q x pr (p1 & -> & [Ht1 Hp1]%list_elem_of_filter)%list_elem_of_fmap.
  eapply chain_ext; [|done]. intros y (p2 & -> & [Ht2 Hp2]%list_elem_of_filter)%list_elem_of_fmap.
  unfold next_of. rewrite zget_zset_ne; [done|]. intros He.
  apply (ref_inj _ _ _ _ Hi) in He; [congruence|set_solver..].
Qed.

Lemma unlink_same_spec s ps1 p ps2 b :
  heap_inv s (ps1 ++ p :: ps2) → zget (sizebases s) (pg_type p) = Some b →
  wp (unlink list_fuel next_samesize set_next_samesize
        (λ o, modify (λ s, set_bases (zset (sizebases s) (pg_type p) o) s)) (pg_ref p) None b)
     (λ _ s', same_pages s s' ∧ allbase s' = allbase s ∧ chains_ok s' (ps1 ++ ps2) ∧
        ∀ x, next_of next_all (pagerefs s') x = next_of next_all (pagerefs s) x) (λ _ _, False) s.
Proof.
  intros Hi Hb. pose proof (hi_same _ _ Hi _ _ Hb) as Hc. pose proof (pages_length _ _ Hi) as Hlen.
  assert (Hnd : NoDup (pg_ref <$> of_type (pg_type p) (ps1 ++ p :: ps2))).
  { eapply sublist_NoDup; [apply (hi_nodup _ _ Hi)|]. apply fmap_sublist, sublist_filter. }
  rewrite of_type_mid, decide_True in Hc, Hnd by done.
  destruct (unlink_spec s next_samesize set_next_samesize
    (λ o s, set_bases (zset (sizebases s) (pg_type p) o) s) _ _ _ _ Hc Hnd) as (s' & o' & Hw & Hcase).
  { intros x Hx. apply (refs_is_Some s _ (of_type (pg_type p) ps1 ++ [p]) _ Hi); [|by rewrite fmap_app].
    intros q [[_ Hq]%list_elem_of_filter|Hq]%elem_of_app; set_solver. }
  { rewrite length_fmap. pose proof (length_filter (λ q, pg_type q = pg_type p) ps1).
    rewrite length_app in Hlen. lia. }
  { done. }
  unfold wp. rewrite Hw. destruct Hcase as [(Hnil & -> & Hch)|(q & pr & x & Hq & Hpr & -> & Hch)].
  - split; [|split; [done|split; [|done]]].
    { split; [done|]. split; [done|]. split; [done|]. split; [done|]. simpl. by rewrite zlen_zset. }
    intros t o Ho. simpl in *. destruct (decide (t = pg_type p)) as [->|Ht].
    + rewrite zget_zset_eq in Ho by by eapply zget_Some_range. injection Ho as <-.
      by rewrite of_type_app, Hnil.
    + rewrite zget_zset_ne in Ho by done. by apply (same_others s _ p).
  - split; [|split; [done|split]].
    + split; [done|]. split; [done|]. split; [done|]. split; [|done]. by eapply same_core_upd.
    + intros t o Ho. simpl in *. destruct (decide (t = pg_type p)) as [->|Ht].
      * assert (o = b) as -> by congruence. by rewrite of_type_app.
      * by apply (same_others s _ p).
    + intros y. simpl. by eapply next_of_upd.
Qed.

Lemma unlink_all_spec s l1 r l2 :
  chain (next_of next_all (pagerefs s)) (allbase s) (l1 ++ r :: l2) → NoDup (l1 ++ r :: l2) →
  (∀ x, x ∈ l1 ++ [r] → is_Some (zget (pagerefs s) x)) → (length l1 ≤ 256)%nat →
  wp (unlink list_fuel next_all set_next_all (λ o, modify (set_allbase o)) r None (allbase s))
     (λ _ s', same_pages s s' ∧ sizebases s' = sizebases s ∧
        chain (next_of next_all (pagerefs s')) (allbase s') (l1 ++ l2) ∧
        ∀ x, next_of next_samesize (pagerefs s') x = next_of next_samesize (pagerefs s) x) (λ _ _, False) s.
Proof.
  intros Hc Hnd Hs Hl. unfold wp.
  destruct (unlink_spec s next_all set_next_all set_allbase _ _ _ _ Hc Hnd Hs Hl)
    as (s' & o' & -> & [(-> & -> & Hch)|(q & pr & x & Hq & Hpr & -> & Hch)]); [done|..].
  - done.
  - split; [|split; [done|split; [done|]]].
    + split; [done|]. split; [done|]. split; [done|]. split; [|done]. by eapply same_core_upd.
    + intros y. simpl. by eapply next_of_upd.
Qed.

Lemma remove_lists_spec s ps1 p ps2 :
  heap_inv s (ps1 ++ p :: ps2) →
  wp (remove_lists (pg_ref p) (pg_type p))
     (λ _ s', same_pages s s' ∧ chains_ok s' (ps1 ++ ps2) ∧
        chain (next_of next_all (pagerefs s')) (allbase s') (pg_ref <$> (ps1 ++ ps2))) (λ _ _, False) s.
Proof.
  intros Hi. destruct (hi_page _ _ Hi p) as [_ Ht _ _ _ _]; [apply elem_mid; auto|].
  unfold remove_lists. wp_bind. apply wp_kassert; [unfold NSIZES in *; lia|]. wp_bind. apply wp_get.
  destruct (zget_is_Some (sizebases s) (pg_type p)) as [b Hb]; [by rewrite (hi_bases _ _ Hi)|].
  rewrite Hb. wp_bind. apply wp_ret. wp_bind. wp_use (unlink_same_spec s ps1 p ps2 b Hi Hb); [|done].
  intros _ s1 (Hp1 & Ha1 & Hc1 & Hn1). wp_bind. apply wp_gets.
  pose proof (hi_all _ _ Hi) as Hc. pose proof (hi_nodup _ _ Hi) as Hnd. rewrite fmap_app, fmap_cons in Hc, Hnd.
  assert (Hs1 : ∀ x, is_Some (zget (pagerefs s) x) → is_Some (zget (pagerefs s1) x)).
  { intros x [pr Hx]. destruct Hp1 as (_ & _ & _ & [_ Hcore] & _). specialize (Hcore x).
    rewrite Hx in Hcore. apply fmap_Some in Hcore as (? & ? & _). eauto. }
  wp_use (unlink_all_spec s1 (pg_ref <$> ps1) (pg_ref p) (pg_ref <$> ps2)); [|done| | | |done].
  - rewrite Ha1. eapply chain_ext; [|done]. auto.
  - intros x Hx. apply Hs1. apply (refs_is_Some s _ (ps1 ++ [p]) _ Hi); [set_solver|]. by rewrite fmap_app.
  - rewrite length_fmap. pose proof (pages_length _ _ Hi) as Hl. rewrite length_app in Hl. lia.
  - intros _ s2 (Hp2 & Hb2 & Hc2 & Hn2).
    destruct Hp1 as (? & ? & ? & ? & ?), Hp2 as (? & ? & ? & ? & ?).
    split; [|split].
    + split; [congruence|]. split; [congruence|]. split; [congruence|]. split; [|congruence]. by eapply same_core_trans.
    + intros t o Ho. rewrite Hb2 in Ho. eapply chain_ext; [|by apply Hc1]. auto.
    + by rewrite fmap_app.
Qed.

(** ** Giving a block back *)

Lemma fill_deadbeef_spec s a len :
  0 ≤ len →
  wp (fill_deadbeef a len)
     (λ _ s', ∃ m, s' = set_mem m s ∧ ∀ b, b < a ∨ a + len ≤ b → m !! b = kh_mem s !! b) (λ _ _, False) s.
Proof.
  intros Hl. unfold fill_deadbeef.
  eapply wp_mono; [apply (wp_for_range (λ _ s', ∃ m, s' = set_mem m s ∧
      ∀ b, b < a ∨ a + len ≤ b → m !! b = kh_mem s !! b) (λ _ _, False))|auto|done].
  - exists (kh_mem s). by destruct s.
  - intros i s' Hi (m & -> & Hm). apply wp_modify. eexists. split; [done|]. intros b Hb. simpl.
    rewrite lookup_insert_ne; [by apply Hm|]. pose proof (Z.mul_div_le len 4). lia.
Qed.

(** The block goes in front of the page's free blocks. *)
Lemma push_free s ps1 p ps2 pr a m :
  heap_inv s (ps1 ++ p :: ps2) → zget (pagerefs s) (pg_ref p) = Some pr → is_block p a → a ∉ pg_free p →
  (∀ b, b < a ∨ a + psize p ≤ b → m !! b = kh_mem s !! b) →
  heap_inv (set_refs (zset (pagerefs s) (pg_ref p) (set_free (a - pg_addr p) (zlen (pg_free p) + 1) pr))
             (set_mem (<[a := first (pg_free p)]> m) s)) (ps1 ++ with_free (a :: pg_free p) p :: ps2).
Proof.
  intros Hi Hpr Hb Hnf Hm. assert (Hp : p ∈ ps1 ++ p :: ps2) by (apply elem_mid; auto).
  pose proof (hi_page _ _ Hi p Hp) as Hok. pose proof Hok as [_ Ht _ Hc Hnd Hbl].
  destruct (page_range s p (hi_pinv _ _ Hi) Hok) as (_ & Hlo & _). unfold MIPS_KSEG0 in Hlo.
  pose proof (block_inside p a Ht Hb) as Hin. pose proof Hb as [[Ha _] _].
  pose proof (heap_inv_upd s ps1 p ps2 pr (a :: pg_free p) (<[a := first (pg_free p)]> m) Hi Hpr) as Hu.
  rewrite zlen_cons, Z.add_comm in Hu. apply Hu; clear Hu.
  - intros b Hnb. destruct (psize_facts p Ht) as (_ & Hs & _). unfold in_page in *.
    rewrite lookup_insert_ne by lia. apply Hm. lia.
  - simpl. split; [done|]. split; [lia|]. exists (first (pg_free p)). rewrite lookup_insert_eq. split; [done|].
    eapply fchain_ext; [|done]. intros x Hx. assert (x ≠ a) by set_solver.
    rewrite lookup_insert_ne by done. apply Hm. apply block_apart; auto.
  - by apply NoDup_cons.
  - intros x [->|Hx]%elem_of_cons; auto.
Qed.

Lemma sub_block_release s ps1 p ps2 a b sz :
  heap_inv s (ps1 ++ p :: ps2) → is_block p a →
  sub_block (ps1 ++ with_free (a :: pg_free p) p :: ps2) b sz ↔ b ≠ a ∧ sub_block (ps1 ++ p :: ps2) b sz.
Proof.
  intros Hi Ha. unfold sub_block. setoid_rewrite elem_mid. split.
  - intros (q & [->|Hq] & Hbq & Hnq & ->); simpl in *.
    + apply not_elem_of_cons in Hnq as [? ?]. split; [done|]. exists p. auto.
    + split; [|by exists q; auto]. intros ->. eapply (other_page s ps1 p ps2 q a); [done..|apply Hbq|apply Ha].
  - intros [Hne (q & [->|Hq] & Hbq & Hnq & ->)].
    + exists (with_free (a :: pg_free p) p). split_and!; [by left|done| |done]. by apply not_elem_of_cons.
    + exists q. auto.
Qed.

(** A page all of whose blocks are free goes back to the page allocator. *)
Definition drop_page r t (addr : Z) : M S unit :=
  remove_lists r t ;;; in_pages (free_kpages addr) ;;; freepageref r.

Lemma drop_page_spec s ps1 p ps2 :
  heap_inv s (ps1 ++ p :: ps2) →
  wp (drop_page (pg_ref p) (pg_type p) (pg_addr p))
     (λ _ s', heap_inv s' (ps1 ++ ps2) ∧
        plive (kh_pages s') = delete (pg_addr p) (plive (kh_pages s)) ∧ kh_mem s' = kh_mem s) (λ _ _, False) s.
Proof.
  intros Hi. pose proof Hi as []. assert (Hp : p ∈ ps1 ++ p :: ps2) by (apply elem_mid; auto).
  pose proof (hi_page p Hp) as Hok. unfold drop_page. wp_bind. wp_use remove_lists_spec; [done| |done].
  intros [] s1 ((Hp1 & Hm1 & Hu1 & Hc1 & Hb1) & Hs1 & Ha1). wp_bind. apply wp_zoom. rewrite Hp1.
  wp_use free_kpages_spec; [done|exists 1; apply Hok| |done]. intros [] pg [Hpg Hpl].
  assert (Hr : 0 ≤ pg_ref p < NPAGEREFS) by (eapply ref_range; [done|by apply list_elem_of_fmap_2]).
  wp_use freepageref_spec; [simpl; by rewrite Hu1|done| | |done].
  { simpl. rewrite Hu1. apply hi_inuse; [done|]. by apply list_elem_of_fmap_2. }
  intros [] s2 (l & -> & Hw & Hbit). split; [|done].
  rewrite fmap_app, fmap_cons, <- Permutation_middle, NoDup_cons, <- fmap_app in hi_nodup, hi_addrs.
  split; simpl; try done; try apply hi_nodup; try apply hi_addrs.
  - destruct Hc1. congruence.
  - congruence.
  - intros q Hq. assert (Hokq : page_ok s1 q).
    { eapply page_ok_core; [apply hi_page, elem_mid; auto|done..]. }
    destruct Hokq. split; try done. simpl. rewrite Hpl, lookup_delete_ne by (symmetry; by eapply other_ref).
    by rewrite <- Hp1.
  - intros j Hj. simpl in Hbit. rewrite Hbit, Hu1 by done. case_decide as Hjr.
    + subst j. split; [done|]. by intros ?%hi_nodup.
    + rewrite hi_inuse by done. rewrite !fmap_app, fmap_cons, !elem_of_app, elem_of_cons. naive_solver.
Qed.

Lemma drop_live s s' ps1 p ps2 :
  heap_inv s (ps1 ++ p :: ps2) → heap_inv s' (ps1 ++ ps2) → zlen (pg_free p) = nblocks p →
  plive (kh_pages s') = delete (pg_addr p) (plive (kh_pages s)) → kh_live s' = kh_live s.
Proof.
  intros Hi Hi' Hfree Hpl. eapply kh_live_ext; [done..| |].
  - intros a sz. unfold sub_block. setoid_rewrite elem_mid. split; [naive_solver|].
    intros (q & [->|Hq] & Hb & Hn & ->); [exfalso|by exists q].
    destruct (hi_page _ _ Hi p) as [_ ? _ _ ? ?]; [apply elem_mid; auto|]. apply Hn. by apply all_free.
  - intros a sz. unfold big_block. rewrite Hpl. setoid_rewrite lookup_delete_Some.
    setoid_rewrite list_elem_of_fmap. setoid_rewrite elem_mid. split.
    + intros (n & [Hne Hn] & Hna & ->). exists n. split_and!; try done. naive_solver.
    + intros (n & Hn & Hna & ->). exists n. split_and!; try done; naive_solver.
Qed.

Lemma sub_block_page s ps a : heap_inv s ps → is_Some (kh_live s !! a) → 
  (∃ p, p ∈ ps ∧ is_block p a ∧ a ∉ pg_free p) ∨
  (∀ p, p ∈ ps → ¬ in_page p a) ∧ is_Some (plive (kh_pages s) !! a) ∧ a ∉ pg_addr <$> ps.
Proof.
  intros Hi [u Hu]. apply (kh_live_lookup s ps) in Hu as [(p & Hp & Hb & Hn & _)|(n & Hn & Hna & _)]; [|..|done].
  - left. eauto.
  - right. split_and!; [|eauto|done]. intros p Hp. by eapply big_not_sub.
Qed.

Lemma subpage_kfree_miss s ps a :
  heap_inv s ps → (∀ p, p ∈ ps → ¬ in_page p a) →
  wp (subpage_kfree a) (λ b s', b = false ∧ s' = s) (λ _ _, False) s.
Proof.
  intros Hi Hn. unfold subpage_kfree. wp_bind. apply wp_gets. wp_bind.
  wp_use (find_addr_spec s _ a _ (allbase s) list_fuel Hi (λ _ H, H) (hi_all _ _ Hi)); [| |done].
  { pose proof (pages_length _ _ Hi). unfold list_fuel. lia. }
  intros [r|] s0 [-> Hr]; [|done]. destruct Hr as (p & Hp & _ & Hin). by apply Hn in Hin.
Qed.

(** The state once the block is on its page's list. *)
Lemma released_live s s' ps1 p ps2 a :
  heap_inv s (ps1 ++ p :: ps2) → heap_inv s' (ps1 ++ with_free (a :: pg_free p) p :: ps2) →
  is_block p a → kh_pages s' = kh_pages s → kh_live s' = delete a (kh_live s).
Proof.
  intros Hi Hi' Hb Hpg. apply map_ext_Some. intros b sz.
  rewrite lookup_delete_Some, (kh_live_lookup s' _ _ _ Hi'), (kh_live_lookup s _ _ _ Hi).
  rewrite (sub_block_release s) by done. unfold big_block. rewrite Hpg, addrs_with_free. split; [|naive_solver].
  intros [?|(n & Hn & Hna & ->)]; [naive_solver|]. split; [|right; by exists n]. intros <-.
  apply (big_not_sub s _ a n p Hi Hn Hna); [apply elem_mid; auto|apply Hb].
Qed.

Lemma push_untouched s ps p a m s' w :
  heap_inv s ps → p ∈ ps → is_block p a →
  (∀ b, b < a ∨ a + psize p ≤ b → m !! b = kh_mem s !! b) →
  kh_live s' = delete a (kh_live s) → kh_mem s' = <[a := w]> m → untouched s s'.
Proof.
  intros Hi Hp Hb Hm Hl Hmem c u b Hc Hc' Hin. rewrite Hl in Hc'.
  assert (c ≠ a) by (intros ->; by rewrite lookup_delete_eq in Hc').
  pose proof (po_type _ _ (hi_page _ _ Hi p Hp)) as Ht.
  assert (Hout : b < a ∨ a + psize p ≤ b).
  { destruct (decide (b < a ∨ a + psize p ≤ b)) as [|Hno]; [done|exfalso].
    pose proof (block_inside p a Ht Hb). destruct (live_in_page s ps c u b p) as (Hbc & _ & ->); [done..| |].
    { destruct Hb as [[? ?] _]. unfold in_page. lia. }
    destruct (block_apart p a c Ht Hb Hbc), (block_apart p c a Ht Hbc Hb); try done; lia. }
  destruct (psize_facts p Ht) as (_ & Hs & _). rewrite Hmem, lookup_insert_ne by lia. by apply Hm.
Qed.

Lemma subpage_kfree_hit s ps1 p ps2 a :
  heap_inv s (ps1 ++ p :: ps2) → packed (ps1 ++ p :: ps2) → is_block p a → a ∉ pg_free p →
  wp (subpage_kfree a) (λ b s', b = true ∧ heap_ok s' ∧ untouched s s' ∧ kh_live s' = delete a (kh_live s))
     (λ _ _, False) s.
Proof.
  intros Hi Hpk Hb Hnf. assert (Hp : p ∈ ps1 ++ p :: ps2) by (apply elem_mid; auto).
  pose proof (hi_page _ _ Hi p Hp) as Hok. pose proof Hok as [_ Ht _ _ _ _]. unfold subpage_kfree.
  wp_bind. apply wp_gets. wp_bind.
  wp_use (find_addr_spec s _ a _ (allbase s) list_fuel Hi (λ _ H, H) (hi_all _ _ Hi)); [| |done].
  { pose proof (pages_length _ _ Hi). unfold list_fuel. lia. }
  intros [r|] s0 [-> Hr]; [|by destruct (Hr p Hp (proj1 Hb))]. destruct Hr as (q & Hq & <- & Hin).
  assert (q = p) as -> by (eapply page_unique; [done|done|done|done|apply Hb]).
  destruct (page_ref s p) as (pr & Hpr & Ha & Hbt & Hn & Ho & _); [apply Hi|done|].
  destruct (psize_facts p Ht) as (Hsz & Hs & _ & Hnb & _).
  wp_bind. apply (get_ref_spec _ _ pr); [done|]. rewrite Ha, Hbt, Hn. wp_bind. unfold size_of. rewrite Hsz. apply wp_ret.
  destruct Hb as [Hia Hmod] eqn:Hbe. clear Hbe. unfold in_page in Hia.
  rewrite (proj2 (Z.leb_gt PAGE_SIZE (a - pg_addr p))), Hmod by lia. cbn [orb negb Z.eqb].
  wp_bind. wp_use fill_deadbeef_spec; [lia| |done]. intros [] s1 (m & -> & Hm). wp_bind. apply wp_modify. cbv zeta.
  assert (Hfirst : (if freelist_offset pr =? INVALID_OFFSET then 0 else pg_addr p + freelist_offset pr) = first (pg_free p)).
  { rewrite Ho. unfold offset_of. destruct (pg_free p) as [|x l] eqn:Hf; [done|].
    destruct (po_blocks _ _ Hok x) as [[? ?] _]; [rewrite Hf; left|]. unfold INVALID_OFFSET, PAGE_SIZE in *.
    destruct (Z.eqb_spec (x - pg_addr p) 65535); [lia|]. simpl. lia. }
  rewrite Hfirst. wp_bind. apply wp_modify. pose proof (Hpk p Hp) as Hlt. fold (nblocks p).
  pose proof (push_free s ps1 p ps2 pr a m Hi Hpr (conj Hin Hmod) Hnf Hm) as Hi'.
  wp_bind. apply wp_kassert; [lia|]. wp_bind.
  set (s' := set_refs _ _) in *. change (set_refs _ _) with s'.
  assert (Hlive : kh_live s' = delete a (kh_live s)) by by eapply released_live.
  assert (Hun : ∀ s2, kh_live s2 = kh_live s' → kh_mem s2 = kh_mem s' → untouched s s2).
  { intros s2 Hl2 Hm2. rewrite Hlive in Hl2.
    exact (push_untouched s _ p a m s2 (first (pg_free p)) Hi Hp (conj Hin Hmod) Hm Hl2 Hm2). }
  destruct (Z.eqb_spec (zlen (pg_free p) + 1) (nblocks p)) as [He|He]; cbn [when].
  - wp_use (drop_page_spec s' ps1 (with_free (a :: pg_free p) p) ps2 Hi'); [|done].
    intros [] s2 (Hi2 & Hpl & Hmem). apply wp_ret. split; [done|].
    assert (Hl2 : kh_live s2 = kh_live s').
    { eapply drop_live; [done|done| |done]. simpl. rewrite zlen_cons.
      change (nblocks (with_free (a :: pg_free p) p)) with (nblocks p). lia. }
    split; [|split; [by apply Hun|by rewrite Hl2]].
    exists (ps1 ++ ps2). split; [done|]. intros q Hq'. apply Hpk, elem_mid. auto.
  - apply wp_ret. apply wp_ret. split; [done|]. split; [|split; [by apply Hun|done]]. eexists. split; [done|].
    apply packed_upd; [done|]. rewrite zlen_cons. lia.
Qed.

(** ** The interface *)

Lemma heap_inv_pages s ps pg :
  heap_inv s ps → pinv pg → (∀ a n, a ∈ pg_addr <$> ps → plive (kh_pages s) !! a = Some n → plive pg !! a = Some n) →
  heap_inv (set_pages pg s) ps.
Proof.
  intros [] Hpg Hl. split; try done. intros p Hp. destruct (hi_page p Hp). split; try done.
  simpl. apply Hl; [by apply list_elem_of_fmap_2|done].
Qed.

Lemma page_addr_live s ps a : heap_inv s ps → a ∈ pg_addr <$> ps → plive (kh_pages s) !! a = Some 1.
Proof. intros Hi (p & -> & Hp)%list_elem_of_fmap. by apply (hi_page _ _ Hi). Qed.

(** The page allocator changed under the heap: nothing new, a new run, a run
    less. *)
Lemma heap_pages_same s pg :
  heap_ok s → pinv pg → plive pg = plive (kh_pages s) →
  heap_ok (set_pages pg s) ∧ kh_live (set_pages pg s) = kh_live s.
Proof.
  intros (ps & Hi & Hpk) Hpg Hpl.
  assert (Hi' : heap_inv (set_pages pg s) ps) by (apply heap_inv_pages; [done|done|by rewrite Hpl]).
  split; [by exists ps|]. eapply kh_live_ext; [done..|].
  intros a sz. unfold big_block. simpl. by rewrite Hpl.
Qed.
Lemma heap_pages_add s pg a n :
  heap_ok s → pinv pg → plive (kh_pages s) !! a = None → plive pg = <[a := n]> (plive (kh_pages s)) →
  heap_ok (set_pages pg s) ∧ new_block a (PAGE_SIZE * n) s (set_pages pg s).
Proof.
  intros (ps & Hi & Hpk) Hpg Hnone Hpl.
  assert (Hna : a ∉ pg_addr <$> ps) by (intros Hin; by rewrite (page_addr_live s ps) in Hnone).
  assert (Hi' : heap_inv (set_pages pg s) ps).
  { apply heap_inv_pages; [done|done|]. intros b k Hb Hk. rewrite Hpl, lookup_insert_ne; [done|congruence]. }
  assert (Hnew : plive pg !! a = Some n) by by rewrite Hpl, lookup_insert_eq.
  split; [by exists ps|]. split; [|split].
  - destruct (plive_range _ _ _ Hpg Hnew) as (_ & _ & ? & _). unfold MIPS_KSEG0 in *. lia.
  - apply eq_None_not_Some. intros [u Hu]. apply (kh_live_lookup s ps) in Hu as [Hs|(k & Hk & _)]; [|congruence|done].
    destruct Hs as (p & Hp & [Hin _] & _). by apply (big_not_sub _ _ _ _ _ Hi' Hnew Hna Hp).
  - apply map_ext_Some. intros b sz. rewrite lookup_insert_Some, (kh_live_lookup _ _ _ _ Hi'), (kh_live_lookup _ _ _ _ Hi).
    unfold big_block. simpl. rewrite Hpl. setoid_rewrite lookup_insert_Some. destruct (decide (b = a)) as [->|]; [|naive_solver].
    split.
    + intros [(p & Hp & [Hin _] & _)|(k & [[_ <-]|[? _]] & _ & ->)]; [|by left|done].
      by destruct (big_not_sub _ _ _ _ _ Hi' Hnew Hna Hp).
    + intros [[_ <-]|[? _]]; [|done]. right. exists n. auto.
Qed.
Lemma heap_pages_del s ps pg a :
  heap_inv s ps → packed ps → (∀ p, p ∈ ps → ¬ in_page p a) → pinv pg →
  plive pg = delete a (plive (kh_pages s)) →
  heap_ok (set_pages pg s) ∧ kh_live (set_pages pg s) = delete a (kh_live s).
Proof.
  intros Hi Hpk Hout Hpg Hpl.
  assert (Hi' : heap_inv (set_pages pg s) ps).
  { apply heap_inv_pages; [done|done|]. intros b k (p & -> & Hp)%list_elem_of_fmap Hk.
    rewrite Hpl, lookup_delete_ne; [done|]. intros ->. apply (Hout p Hp). unfold in_page, PAGE_SIZE. lia. }
  split; [by exists ps|]. apply map_ext_Some. intros b sz.
  rewrite lookup_delete_Some, (kh_live_lookup _ _ _ _ Hi'), (kh_live_lookup _ _ _ _ Hi).
  unfold big_block. simpl. rewrite Hpl. setoid_rewrite lookup_delete_Some. split; [|naive_solver].
  intros [(p & Hp & [Hin ?] & ?)|?]; [|naive_solver]. split; [|left; exists p; done].
  intros <-. by apply (Hout p Hp).
Qed.

Lemma large_kmalloc_spec s n :
  heap_ok s → 0 < n < 2147483648 →
  wp (in_pages (alloc_kpages n))
     (λ a s', heap_ok s' ∧ untouched s s' ∧ (a = 0 ∧ kh_live s' = kh_live s ∨ new_block a (PAGE_SIZE * n) s s'))
     (λ _ _, False) s.
Proof.
  intros Hok Hn. pose proof Hok as (ps & Hi & _). apply wp_zoom. wp_use alloc_kpages_spec; [apply Hi|done| |done].
  intros a pg (Hpg & [[-> Hpl]|[Hnone Hpl]]).
  - destruct (heap_pages_same s pg) as [Hok' Hl]; [done..|]. split; [done|].
    split; [by apply untouched_same|by left].
  - destruct (heap_pages_add s pg a n) as [Hok' Hl]; [done..|]. split; [done|].
    split; [by apply untouched_same|by right].
Qed.

Lemma kh_kmalloc_spec s sz :
  heap_ok s → 0 ≤ sz ≤ 4294963200 →
  wp (KHeap.kmalloc sz)
     (λ a s', heap_ok s' ∧ untouched s s' ∧ (a = 0 ∧ kh_live s' = kh_live s ∨ ∃ u, sz ≤ u ∧ new_block a u s s'))
     (λ _ _, False) s.
Proof.
  intros Hok Hsz. unfold KHeap.kmalloc, LARGEST_SUBPAGE_SIZE. destruct (Z.leb_spec 2048 sz).
  - unfold PAGE_SIZE. assert (u32 (u32 (sz + 4096) - 1) = sz + 4095) as ->.
    { unfold u32. rewrite Zminus_mod_idemp_l. rewrite Z.mod_small; lia. }
    cbv zeta.
    wp_use large_kmalloc_spec; [done|Z.div_mod_to_equations; lia| |done].
    intros a s' (Hok' & Hun & [Hz|Hnew]); (split; [done|]; split; [done|]); [by left|]. right. eexists. split; [|done].
    unfold PAGE_SIZE. Z.div_mod_to_equations; lia.
  - apply subpage_kmalloc_spec; [done|lia].
Qed.

Lemma large_kfree_spec s ps a :
  heap_inv s ps → packed ps → (∀ p, p ∈ ps → ¬ in_page p a) → is_Some (plive (kh_pages s) !! a) →
  wp (in_pages (free_kpages a)) (λ _ s', heap_ok s' ∧ untouched s s' ∧ kh_live s' = delete a (kh_live s)) (λ _ _, False) s.
Proof.
  intros Hi Hpk Hout Hlive. apply wp_zoom. wp_use free_kpages_spec; [apply Hi|done| |done].
  intros [] pg [Hpg Hpl]. destruct (heap_pages_del s ps pg a) as [Hok' Hl]; [done..|].
  split; [done|]. split; [by apply untouched_same|done].
Qed.

Lemma kh_kfree_spec s a :
  heap_ok s → is_Some (kh_live s !! a) →
  wp (KHeap.kfree a) (λ _ s', heap_ok s' ∧ untouched s s' ∧ kh_live s' = delete a (kh_live s)) (λ _ _, False) s.
Proof.
  intros (ps & Hi & Hpk) Hlive. unfold KHeap.kfree.
  destruct (sub_block_page s ps a Hi Hlive) as [(p & Hp & Hb & Hnf)|(Hout & Hl & Hna)].
  - pose proof (page_range s p (hi_pinv _ _ Hi) (hi_page _ _ Hi p Hp)) as (_ & Hlo & _). destruct Hb as [[? ?] ?].
    unfold MIPS_KSEG0 in Hlo. destruct (Z.eqb_spec a 0); [lia|].
    apply list_elem_of_split in Hp as (ps1 & ps2 & ->).
    wp_bind. wp_use subpage_kfree_hit; [done|done|done|done| |done]. intros b s' [-> ?]. by apply wp_ret.
  - destruct Hl as [n Hn]. destruct (plive_range _ _ _ (hi_pinv _ _ Hi) Hn) as (_ & Hm & Hlo & _).
    unfold MIPS_KSEG0 in Hlo. destruct (Z.eqb_spec a 0); [lia|].
    wp_bind. wp_use subpage_kfree_miss; [done|done| |done]. intros b s' [-> ->]. rewrite Hm.
    wp_bind. apply wp_kassert; [done|]. eapply large_kfree_spec; [done..|eauto].
Qed.

Lemma kh_live_null s : heap_ok s → kh_live s !! 0 = None.
Proof.
  intros (ps & Hi & _). apply eq_None_not_Some. intros [u Hu]. apply (kh_live_lookup s ps) in Hu; [|done].
  destruct Hu as [(p & Hp & [[? _] _] & _)|(n & Hn & _)].
  - pose proof (page_range s p (hi_pinv _ _ Hi) (hi_page _ _ Hi p Hp)) as (_ & Hlo & _). unfold MIPS_KSEG0 in Hlo. lia.
  - destruct (plive_range _ _ _ (hi_pinv _ _ Hi) Hn) as (_ & _ & Hlo & _). unfold MIPS_KSEG0 in Hlo. lia.
Qed.

Lemma kh_kmalloc_law s sz :
  heap_ok s → 0 ≤ sz ≤ 4294963200 →
  wp (kmalloc sz)
     (λ a s', heap_ok s' ∧
        (a = 0 ∧ kh_live s' = kh_live s ∨
         ∃ u, a ≠ 0 ∧ kh_live s !! a = None ∧ sz ≤ u ∧ kh_live s' = <[a := u]> (kh_live s)))
     (λ _ _, False) s.
Proof.
  intros Hok Hsz. wp_use kh_kmalloc_spec; [done|done| |done].
  intros a s' (Hok' & _ & [Hz|(u & Hu & Ha & Hn & Hl)]); (split; [done|]); [by left|]. right. eauto.
Qed.

Lemma kh_kfree_law s a :
  heap_ok s → is_Some (kh_live s !! a) →
  wp (kfree a) (λ _ s', heap_ok s' ∧ kh_live s' = delete a (kh_live s)) (λ _ _, False) s.
Proof. intros Hok Hl. wp_use kh_kfree_spec; [done|done| |done]. by intros [] s' (? & _ & ?). Qed.

#[global] Instance kheap_kmem_ok : KmemOk S := {|
  kinv := heap_ok; klive := kh_live; klive_null := kh_live_null;
  kmalloc_spec := kh_kmalloc_law; kfree_spec := kh_kfree_law; kfree_null := λ _, eq_refl;
|}.
End ops.
