(* ===== verification/KHeapThm.v ===== *)
(** * The kernel heap: properties

    The allocator keeps blocks apart, never touches a block that is handed out,
    gives every page back once its blocks are freed, and works over the page
    allocator of Coremap.  Requests within a page of 4 GB wrap around. *)

From S2P Require Import Prelude Kmem KPages Coremap KHeap KHeapSpec KHeapOps.

(** The static data of kheap.c before anything has run. *)
Definition boot_heap {P} (pg : P) : kheap P :=
  mkkh pg ∅ (replicate (Z.to_nat NPAGEREFS) (mkpr None None 0 0 0))
    (replicate (Z.to_nat INUSE_WORDS) 0) (replicate (Z.to_nat NSIZES) None) None.

Section thm.
Context {P : Type} `{!Kpages P, !KpagesOk P}.
Notation S := (kheap P).
Implicit Types (s : S) (p : page) (ps : list page).

(** Blocks handed out are apart and in the kernel's memory. *)
Definition apart s : Prop :=
  ∀ a u, kh_live s !! a = Some u → MIPS_KSEG0 ≤ a ∧ a + u ≤ MIPS_KSEG1 ∧
    ∀ a' u', kh_live s !! a' = Some u' → a ≠ a' → a + u ≤ a' ∨ a' + u' ≤ a.

Lemma live_size s ps a u : heap_inv s ps → kh_live s !! a = Some u → 0 < u.
Proof.
  intros Hi Hl. apply (kh_live_lookup s ps) in Hl as [(p & Hp & _ & _ & ->)|(n & Hn & _ & ->)]; [..|done].
  - destruct (psize_facts p) as (_ & ? & _); [by apply (hi_page _ _ Hi)|lia].
  - destruct (plive_range _ _ _ (hi_pinv _ _ Hi) Hn) as (? & _). unfold PAGE_SIZE. lia.
Qed.
Lemma heap_ok_apart s : heap_ok s → apart s.
Proof.
  intros (ps & Hi & _) a u Ha. split; [|split].
  3: { intros a' u' Ha' Hne. pose proof (live_size _ _ _ _ Hi Ha). pose proof (live_size _ _ _ _ Hi Ha').
       destruct (decide (a < a')); [left|right]; eapply live_apart; try done. lia. }
  all: apply (kh_live_lookup s ps) in Ha as [(p & Hp & Hb & _ & ->)|(n & Hn & _ & ->)]; [..|done].
  2,4: by destruct (plive_range _ _ _ (hi_pinv _ _ Hi) Hn) as (_ & _ & ? & ?).
  all: pose proof (hi_page _ _ Hi p Hp) as Hok; destruct (page_range s p (hi_pinv _ _ Hi) Hok) as (_ & ? & ?).
  - destruct Hb as [[? ?] _]. lia.
  - pose proof (block_inside p a (po_type _ _ Hok) Hb). unfold PAGE_SIZE in *. lia.
Qed.

Lemma boot_heap_inv (pg : P) : pinv pg → heap_inv (boot_heap pg) [].
Proof.
  intros Hpg. split; try done; unfold boot_heap; cbn [pagerefs_inuse sizebases].
  - split; [done|]. by intros i w ->%zget_replicate.
  - by intros t b ->%zget_replicate.
  - apply NoDup_nil_2.
  - apply NoDup_nil_2.
  - by intros p ?%elem_of_nil.
  - intros j Hj. simpl. rewrite elem_of_nil. unfold bit. replace (default 0 _) with 0; [by rewrite Z.bits_0|].
    destruct (zget _ _) as [w|] eqn:Hw; [|done]. by apply (zget_replicate 8) in Hw as ->.
Qed.
Lemma boot_heap_ok (pg : P) : pinv pg → heap_ok (boot_heap pg).
Proof. intros Hpg. exists []. split; [by apply boot_heap_inv|]. by intros p ?%elem_of_nil. Qed.

Lemma page_in_use p :
  0 ≤ pg_type p < NSIZES → zlen (pg_free p) < nblocks p → ∃ a, is_block p a ∧ a ∉ pg_free p.
Proof.
  intros Ht Hlt. destruct (psize_facts p Ht) as (_ & Hs & _ & Hn & _).
  destruct (decide (Forall (λ a, a ∈ pg_free p) (all_blocks p))) as [Hall|Hex].
  - exfalso. assert (Hsub : all_blocks p ⊆+ pg_free p).
    { apply NoDup_submseteq; [|by apply Forall_forall]. apply NoDup_fmap_2_strong; [|apply NoDup_seqZ].
      intros i j _ _ He. nia. }
    apply submseteq_length in Hsub. pose proof (length_all_blocks p). unfold zlen in *. lia.
  - apply not_Forall_Exists, Exists_exists in Hex as (a & Ha & Hn'); [|apply _].
    exists a. split; [by apply elem_of_all_blocks|done].
Qed.

(** No page is kept for nothing. *)
Lemma nothing_kept s : heap_ok s → kh_live s = ∅ → plive (kh_pages s) = ∅.
Proof.
  intros (ps & Hi & Hpk) Hl. destruct ps as [|p ps].
  - apply map_ext_Some. intros a n. rewrite lookup_empty. split; [|done]. intros Hn. exfalso.
    assert (kh_live s !! a = Some (PAGE_SIZE * n)) as Hs; [|by rewrite Hl in Hs].
    apply (kh_live_lookup s []); [done|]. right. exists n. split_and!; [done|apply not_elem_of_nil|done].
  - exfalso. pose proof (hi_page _ _ Hi p ltac:(left)) as [_ Ht _ _ Hnd Hb].
    pose proof (Hpk p ltac:(left)) as Hlt.
    destruct (page_in_use p Ht) as (a & Ha & Hn); [done|].
    assert (kh_live s !! a = Some (psize p)) as Hs; [|by rewrite Hl in Hs].
    apply (kh_live_lookup s (p :: ps)); [done|]. left. exists p. split_and!; [left|done..].
Qed.

(** ** Sequences of requests *)

Inductive request : S → S → Prop :=
  | req_malloc sz a s s' :
      0 ≤ sz ≤ 4294963200 → KHeap.kmalloc sz s = Ok a s' → request s s'
  | req_free a s s' :
      is_Some (kh_live s !! a) → KHeap.kfree a s = Ok tt s' → request s s'.
Definition reachable (pg : P) s : Prop := rtc request (boot_heap pg) s.

Lemma request_ok s s' : request s s' → heap_ok s → heap_ok s' ∧ untouched s s'.
Proof.
  intros [sz a s1 s2 Hsz Hr|a s1 s2 Ha Hr] Hok.
  - pose proof (kh_kmalloc_spec s1 sz Hok Hsz) as H. unfold wp in H. rewrite Hr in H. by destruct H as (? & ? & _).
  - pose proof (kh_kfree_spec s1 a Hok Ha) as H. unfold wp in H. rewrite Hr in H. by destruct H as (? & ? & _).
Qed.
Lemma reachable_ok pg s : pinv pg → reachable pg s → heap_ok s.
Proof.
  intros Hpg Hr. eapply (rtc_ind_r heap_ok); [by apply boot_heap_ok| |exact Hr].
  intros s1 s2 _ Hs Hok. by apply (request_ok s1 s2).
Qed.

(** ** The properties *)

(** C4 [kmalloc] of any size up to a page short of 4 GB returns: either 0,
    nothing having changed hands, or a new block of at least that size, in the
    kernel's memory and apart from every block handed out.  The contents of those
    are as before. *)
Theorem kmalloc_correct s sz :
  heap_ok s → 0 ≤ sz ≤ 4294963200 →
  wp (KHeap.kmalloc sz)
     (λ a s', heap_ok s' ∧ apart s' ∧ untouched s s' ∧
        (a = 0 ∧ kh_live s' = kh_live s ∨
         ∃ u, sz ≤ u ∧ a ≠ 0 ∧ kh_live s !! a = None ∧ kh_live s' = <[a := u]> (kh_live s)))
     (λ _ _, False) s.
Proof.
  intros Hok Hsz. wp_use kh_kmalloc_spec; [done|done| |done]. intros a s' (Hok' & Hun & Hr).
  split; [done|]. split; [by apply heap_ok_apart|]. split; [done|]. destruct Hr as [?|(u & ? & ? & ? & ?)]; eauto 10.
Qed.

(** C5 [kfree] of a block that is handed out, whatever its size, takes back that
    block and no other, and leaves the contents of the others alone; none of the
    assertions and panics on its way is met. *)
Theorem kfree_correct s a :
  heap_ok s → is_Some (kh_live s !! a) →
  wp (KHeap.kfree a) (λ _ s', heap_ok s' ∧ untouched s s' ∧ kh_live s' = delete a (kh_live s)) (λ _ _, False) s.
Proof. apply kh_kfree_spec. Qed.

(** C6 After any sequence of requests from start-up, blocks in use are apart
    and, when everything has been freed, every page is back with the page
    allocator. *)
Theorem kheap_reachable pg s :
  pinv pg → reachable pg s → apart s ∧ (kh_live s = ∅ → plive (kh_pages s) = ∅).
Proof.
  intros Hpg Hr. apply reachable_ok in Hr; [|done]. split; [by apply heap_ok_apart|by apply nothing_kept].
Qed.
End thm.

(** ** Over the coremap *)

Lemma alloc_no_pages (cm : vmem) e :
  let i := skip_allocated (cm_entries cm) 0 in
  coremap_ok cm → zget (cm_entries cm) i = Some e → allocated e = 0 →
  Coremap.alloc_kpages 0 cm = Ok (kaddr cm i) cm.
Proof.
  intros i Hok He Ha. pose proof Hok as []. pose proof (zget_Some_range _ _ _ He) as Hi.
  assert (Hc : continuous e = 0).
  { destruct (co_runs i e He) as [Hn Hr]. destruct (decide (continuous e = 0)) as [|Hne]; [done|].
    destruct (Hr i) as (e' & He' & Ha' & _); [lia|]. assert (e' = e) as -> by congruence. lia. }
  assert (Hg : getppages 0 cm = Ok (free_pages_str cm + 4096 * i) cm).
  { unfold getppages, bind at 1, get. destruct (Z.eqb_spec (coremap_str cm) 0); [done|].
    rewrite ztake_all by lia. fold i.
    destruct (zdrop i (cm_entries cm)) as [|e' l] eqn:Hd.
    { pose proof (zget_zdrop (cm_entries cm) i 0 ltac:(lia) ltac:(lia)) as Hz. rewrite Hd, Z.add_0_r, He in Hz. done. }
    pose proof (zget_zdrop (cm_entries cm) i 0 ltac:(lia) ltac:(lia)) as Hz.
    rewrite Hd, Z.add_0_r, He in Hz. injection Hz as ->. simpl. rewrite Ha. cbn [Z.eqb Z.leb Z.add Z.compare].
    unfold update_entry, load_entry, bind, get, modify. rewrite He. simpl. f_equal.
    - rewrite u32_small by lia. lia.
    - replace (set_continuous (i32 0) e) with e by (destruct e; simpl in *; by rewrite Hc).
      rewrite zset_id by done. by destruct cm. }
  unfold Coremap.alloc_kpages. rewrite (bind_step _ _ _ _ _ Hg). destruct (Z.eqb_spec (free_pages_str cm + 4096 * i) 0); [lia|].
  unfold PADDR_TO_KVADDR, kaddr, ret, MIPS_KSEG0. rewrite u32_small by lia. f_equal. lia.
Qed.

(** A request within a page of 4 GB wraps around to no pages at all: it
    succeeds with the address of a page that stays free. *)
Theorem kmalloc_wraps (s : kheap vmem) sz e :
  let cm := kh_pages s in
  let i := skip_allocated (cm_entries cm) 0 in
  coremap_ok cm → 4294963200 < sz < 4294967296 → zget (cm_entries cm) i = Some e → allocated e = 0 →
  KHeap.kmalloc sz s = Ok (kaddr cm i) s ∧ kaddr cm i ≠ 0.
Proof.
  intros cm i Hok Hsz He Ha. unfold KHeap.kmalloc, LARGEST_SUBPAGE_SIZE, PAGE_SIZE.
  destruct (Z.leb_spec 2048 sz); [|lia].
  assert (Hn : u32 (u32 (sz + 4096) - 1) / 4096 = 0).
  { unfold u32. rewrite Zminus_mod_idemp_l. rewrite <- (Z.mod_unique (sz + 4096 - 1) _ 1 (sz - 4294963201)) by lia.
    apply Z.div_small. lia. }
  rewrite Hn. cbv zeta. split.
  - unfold in_pages, zoom. change (KPages.alloc_kpages 0 (kh_pages s)) with (Coremap.alloc_kpages 0 cm).
    rewrite (alloc_no_pages cm e) by done. by destruct s.
  - pose proof Hok as []. pose proof (zget_Some_range _ _ _ He). unfold kaddr, MIPS_KSEG0. lia.
Qed.

(** ** Witnesses *)

Module SmallHeap.
Definition pages : vmem := mkvmem 2147487744 6 8192 (replicate 6 SmallMem.free) 4096 32768.
Lemma pages_ok : coremap_ok pages.
Proof.
  split; try done. intros i e He. apply (zget_replicate 6) in He as ->. simpl. split; [done|]. intros j Hj. lia.
Qed.
Definition boot : kheap vmem := boot_heap pages.
Definition state {A} (o : outcome (kheap vmem) A) : kheap vmem :=
  match o with Ok _ s => s | _ => boot end.
(** A small block, a block of two pages, and a block of the same size as the first. *)
Definition used : kheap vmem :=
  state ((let! _ := KHeap.kmalloc 20 in let! _ := KHeap.kmalloc 5000 in KHeap.kmalloc 30) boot).
Lemma boot_ok : heap_ok boot.
Proof. apply boot_heap_ok, pages_ok. Qed.
Lemma boot_reachable_used : reachable pages used.
Proof.
  eapply rtc_l; [eapply (req_malloc 20); [lia|vm_compute; reflexivity]|].
  eapply rtc_l; [eapply (req_malloc 5000); [lia|vm_compute; reflexivity]|].
  eapply rtc_l; [eapply (req_malloc 30); [lia|vm_compute; reflexivity]|].
  apply rtc_refl.
Qed.
Lemma used_ok : heap_ok used.
Proof. apply (reachable_ok pages); [apply pages_ok|apply boot_reachable_used]. Qed.
End SmallHeap.

Lemma kmalloc_correct_witness :
  wp (KHeap.kmalloc 3000) (λ a s', apart s' ∧ (a = 0 ∨ ∃ u, 3000 ≤ u ∧ kh_live s' = <[a := u]> (kh_live SmallHeap.used)))
     (λ _ _, False) SmallHeap.used.
Proof.
  eapply wp_mono; [apply (kmalloc_correct SmallHeap.used 3000); [exact SmallHeap.used_ok|split; discriminate]|..].
  - intros a s' (_ & Hap & _ & Hr). split; [exact Hap|].
    destruct Hr as [[Ha _]|(u & Hu & _ & _ & Hl)]; [left; exact Ha|right; exists u; split; [exact Hu|exact Hl]].
  - intros e s' [].
Defined.

(** The first small block: the last block of its page. *)
Lemma kfree_correct_witness :
  kh_live SmallHeap.used !! 2147495904 = Some 32 ∧
  wp (KHeap.kfree 2147495904) (λ _ s', kh_live s' = delete 2147495904 (kh_live SmallHeap.used)) (λ _ _, False)
     SmallHeap.used.
Proof.
  split; [vm_compute; reflexivity|].
  eapply wp_mono; [apply (kfree_correct SmallHeap.used 2147495904);
                   [exact SmallHeap.used_ok|exists 32; vm_compute; reflexivity]|..].
  - intros [] s' (_ & _ & Hl). exact Hl.
  - intros e s' [].
Defined.

Lemma kheap_reachable_witness : apart SmallHeap.used ∧ size (kh_live SmallHeap.used) = 3%nat.
Proof.
  split; [|vm_compute; reflexivity].
  apply (kheap_reachable SmallHeap.pages SmallHeap.used); [exact SmallHeap.pages_ok|exact SmallHeap.boot_reachable_used].
Defined.

Lemma kmalloc_wraps_witness :
  KHeap.kmalloc 4294967295 SmallHeap.boot = Ok (MIPS_KSEG0 + 8192) SmallHeap.boot ∧ MIPS_KSEG0 + 8192 ≠ 0.
Proof.
  apply (kmalloc_wraps SmallHeap.boot 4294967295 SmallMem.free).
  - exact SmallHeap.pages_ok.
  - split; reflexivity.
  - reflexivity.
  - reflexivity.
Defined.
