(* ===== verification/KArray.v ===== *)
(** * Resizable arrays of pointers (kern/lib/array.c)

    [struct array] with its heap blocks, every routine of array.c, and the
    proof that they implement a plain list: [arr_contents] is the abstraction
    function, [array_ok] the representation invariant, which includes that
    the slots fit in the block [kmalloc] returned. *)

From S2P Require Import Prelude Kmem.

(** [v] is the address of the slot block, 0 for NULL; [slots] is what the
    block holds, [None] for a slot that was never written. *)
Record array (A : Type) := mkarray {
  arr_self : Z;
  arr_num : Z;
  arr_max : Z;
  arr_v : Z;
  arr_slots : list (option A);
}.
Arguments mkarray {A} _ _ _ _ _.
Arguments arr_self {A} _.
Arguments arr_num {A} _.
Arguments arr_max {A} _.
Arguments arr_v {A} _.
Arguments arr_slots {A} _.

Definition sizeof_struct_array : Z := 12.
Definition sizeof_ptr : Z := 4.

(** The growth loop of [array_preallocate].  The new size is always
    [2 * (newmax + 2) - 2], so after 32 rounds of doubling it is stuck at -2:
    33 rounds decide whether the loop ends. *)
Fixpoint grow_max (fuel : nat) (nguys newmax : Z) : option Z :=
  if nguys >? newmax then
    match fuel with
    | O => None
    | S fuel' => grow_max fuel' nguys (i32 (i32 (newmax + 1) * 2))
    end
  else Some newmax.

Section array.
Context {H : Type} `{!Kmem H} {A : Type}.
Implicit Types (a : array A) (h : H).

Definition array_create : M H (option (array A)) :=
  let! p := kmalloc sizeof_struct_array in
  if p =? 0 then ret None else ret (Some (mkarray p 0 0 0 [])).

Definition array_getnum (a : array A) : Z := arr_num a.

(** The asserts, then the load [a->v[index]]; the result is the slot. *)
Definition array_getguy (a : array A) (index : Z) : option (option A) :=
  if (arr_num a <=? arr_max a) && (index >=? 0) && (index <? arr_num a)
  then zget (arr_slots a) index else None.

Definition array_preallocate (nguys : Z) : M (H * array A) unit :=
  let! a := gets snd in
  kassert ((arr_num a >=? 0) && (arr_num a <=? arr_max a)) ;;;
  match grow_max 33 nguys (arr_max a) with
  | None => hang
  | Some newmax =>
      let! newv := on_heap (kmalloc (u32 (newmax * sizeof_ptr))) in
      if newv =? 0 then fail ENOMEM
      else
        when (negb (arr_v a =? 0)) (on_heap (kfree (arr_v a))) ;;;
        on_obj (λ a, mkarray (arr_self a) (arr_num a) newmax newv
                    (ztake (arr_num a) (arr_slots a) ++
                     replicate (Z.to_nat (newmax - arr_num a)) None))
  end.

Definition array_setsize (nguys : Z) : M (H * array A) unit :=
  let! a := gets snd in
  kassert ((arr_num a >=? 0) && (arr_num a <=? arr_max a)) ;;;
  (if nguys >? arr_max a then array_preallocate nguys
   else if (nguys =? 0) && (arr_max a >? 16) then
     kassert (negb (arr_v a =? 0)) ;;;
     on_heap (kfree (arr_v a)) ;;;
     on_obj (λ a, mkarray (arr_self a) (arr_num a) 0 0 [])
   else ret tt) ;;;
  on_obj (λ a, mkarray (arr_self a) nguys (arr_max a) (arr_v a) (arr_slots a)).

(** A store outside the block is a wild write; it is reported as a panic. *)
Definition arr_store (index : Z) (x : option A) : M (H * array A) unit :=
  let! a := gets snd in
  if (0 <=? index) && (index <? zlen (arr_slots a)) then
    on_obj (λ a, mkarray (arr_self a) (arr_num a) (arr_max a) (arr_v a) (zset (arr_slots a) index x))
  else panic.

Definition array_setguy (index : Z) (ptr : A) : M (H * array A) unit :=
  let! a := gets snd in
  kassert (arr_num a <=? arr_max a) ;;;
  kassert ((index >=? 0) && (index <? arr_num a)) ;;;
  arr_store index (Some ptr).

Definition array_add (guy : A) : M (H * array A) unit :=
  let! a := gets snd in
  let ix := arr_num a in
  array_setsize (i32 (ix + 1)) ;;;
  arr_store ix (Some guy).

(** [memmove(a->v+index, a->v+index+1, nmove*sizeof(void * ))]. *)
Definition array_remove (index : Z) : M (H * array A) unit :=
  let! a := gets snd in
  kassert (arr_num a <=? arr_max a) ;;;
  kassert ((index >=? 0) && (index <? arr_num a)) ;;;
  let nmove := arr_num a - (index + 1) in
  on_obj (λ a, mkarray (arr_self a) (arr_num a - 1) (arr_max a) (arr_v a)
              (splice (arr_slots a) index (ztake nmove (zdrop (index + 1) (arr_slots a))))).

Definition array_destroy (a : array A) : M H unit :=
  when (negb (arr_v a =? 0)) (kfree (arr_v a)) ;;;
  kfree (arr_self a).

(** ** Specification: the array is a list *)

Definition arr_contents (a : array A) : list (option A) := ztake (arr_num a) (arr_slots a).

Record array_wf (a : array A) : Prop := {
  wf_num : 0 ≤ arr_num a ≤ arr_max a;
  wf_slots : zlen (arr_slots a) = arr_max a;
  wf_null : arr_v a = 0 → arr_max a = 0;
  wf_bound : arr_max a ≤ 536870910;
}.

(** The heap blocks the array owns, with room for what is stored in them. *)
Definition array_owns `{!KmemOk H} (h : H) (a : array A) : Prop :=
  arr_self a ≠ 0 ∧ is_Some (klive h !! arr_self a) ∧
  (arr_v a ≠ 0 → arr_v a ≠ arr_self a ∧
     ∃ usable, klive h !! arr_v a = Some usable ∧ sizeof_ptr * arr_max a ≤ usable).

Definition array_ok `{!KmemOk H} (s : H * array A) : Prop :=
  kinv s.1 ∧ array_wf s.2 ∧ array_owns s.1 s.2.

(** Everything on the heap that is not the array's. *)
Definition arr_frame `{!KmemOk H} (s : H * array A) : gmap Z Z :=
  delete (arr_self s.2) (delete (arr_v s.2) (klive s.1)).

End array.

(** ** The growth loop *)

Lemma grow_max_fuel fuel nguys newmax :
  0 ≤ newmax → nguys < 268435456 → nguys + 1 < (newmax + 2) * 2 ^ Z.of_nat fuel →
  ∃ m, grow_max fuel nguys newmax = Some m ∧ newmax ≤ m ∧ nguys ≤ m ∧
       (nguys ≤ newmax → m = newmax) ∧ m ≤ Z.max newmax 536870910.
Proof.
  revert newmax. induction fuel as [|fuel IH]; intros newmax H0 Hn Hf; simpl.
  - change (2 ^ Z.of_nat 0) with 1 in Hf.
    destruct (Z.gtb_spec nguys newmax); [lia|].
    eexists. split; [done|]. lia.
  - destruct (Z.gtb_spec nguys newmax).
    + rewrite Nat2Z.inj_succ, Z.pow_succ_r in Hf by lia.
      rewrite (i32_small (newmax + 1)) by lia. rewrite i32_small by lia.
      destruct (IH ((newmax + 1) * 2)) as (m & -> & ? & ? & ? & ?); [lia|lia|lia|].
      exists m. split; [done|]. lia.
    + eexists. split; [done|]. lia.
Qed.

Lemma grow_max_ok nguys newmax :
  0 ≤ newmax → nguys < 268435456 →
  ∃ m, grow_max 33 nguys newmax = Some m ∧ newmax ≤ m ∧ nguys ≤ m ∧
       (nguys ≤ newmax → m = newmax) ∧ m ≤ Z.max newmax 536870910.
Proof. intros. apply grow_max_fuel; lia. Qed.

#[global] Arguments grow_max : simpl never.

(** ** Every routine preserves the invariant and implements its list
    operation *)

Section proofs.
Context {H : Type} `{!Kmem H} `{!KmemOk H} {A : Type}.
Implicit Types (a : array A) (s : H * array A).

(** Releasing the old slot block, if there is one. *)
Lemma free_v_spec h a :
  kinv h → (arr_v a ≠ 0 → is_Some (klive h !! arr_v a)) →
  wp (when (negb (arr_v a =? 0)) (on_heap (kfree (arr_v a))))
     (λ _ s', s'.2 = a ∧ kinv s'.1 ∧ klive s'.1 = delete (arr_v a) (klive h))
     (λ _ _, False) (h, a).
Proof.
  intros Hk Hv. apply wp_when.
  - intros Hb%negb_true_iff%Z.eqb_neq. apply wp_zoom.
    eapply wp_mono; [apply kfree_spec; auto|naive_solver|done].
  - intros Hb%negb_false_iff%Z.eqb_eq. split_and!; try done. simpl.
    rewrite Hb, delete_id; [done|]. by apply klive_null.
Qed.

Lemma ztake_app_ztake n (l l' : list (option A)) :
  0 ≤ n ≤ zlen l → ztake n (ztake n l ++ l') = ztake n l.
Proof.
  unfold ztake, zlen. intros. rewrite take_app_le by (rewrite length_take; lia).
  rewrite take_take. f_equal. lia.
Qed.

Lemma array_ok_live h h' a :
  array_ok (h, a) → kinv h' → klive h' = klive h → array_ok (h', a).
Proof.
  intros (? & ? & Ho) Hk Hl. split_and!; try done. unfold array_owns in *.
  simpl in *. by rewrite Hl.
Qed.

Definition preallocate_post (nguys : Z) s (_ : unit) s' : Prop :=
  array_ok s' ∧ arr_contents s'.2 = arr_contents s.2 ∧
  nguys ≤ arr_max s'.2 ∧ arr_max s.2 ≤ arr_max s'.2 ∧
  arr_num s'.2 = arr_num s.2 ∧ arr_frame s' = arr_frame s.

Definition nomem_post s (e : errno) s' : Prop :=
  e = ENOMEM ∧ array_ok s' ∧ s'.2 = s.2 ∧ klive s'.1 = klive s.1.

Lemma array_preallocate_spec s nguys :
  array_ok s → nguys < 268435456 →
  wp (array_preallocate nguys) (preallocate_post nguys s) (nomem_post s) s.
Proof.
  destruct s as [h a]. intros (Hk & [Hnum Hslots Hnull Hbound] & Hself & Hlive & Hv) Hn.
  simpl in *. unfold array_preallocate. wp_bind. apply wp_gets; simpl.
  wp_bind. apply wp_kassert; [lia|].
  destruct (grow_max_ok nguys (arr_max a)) as (m & -> & ? & ? & ? & ?); [lia..|].
  wp_bind. apply wp_zoom. simpl. rewrite u32_small by (unfold sizeof_ptr; lia).
  wp_use kmalloc_spec; [done|unfold sizeof_ptr; lia| |done].
  intros newv h1 (Hk1 & [[-> Hl1]|(u & Hnz & Hfresh & Hu & Hl1)]); simpl.
  { split_and!; try done. by apply (array_ok_live h). }
  destruct (Z.eqb_spec newv 0) as [|_]; [done|].
  assert (newv ≠ arr_self a) by (intros ->; rewrite Hfresh in Hlive; by destruct Hlive).
  wp_bind. wp_use free_v_spec; [done| | |done].
  { intros (? & u0 & Hu0 & _)%Hv. rewrite Hl1, lookup_insert_ne by congruence. eauto. }
  intros [] [h2 a2] (Ha2 & Hk2 & Hl2). simpl in *. subst a2. apply wp_modify.
  assert (Hnv : arr_v a ≠ newv).
  { intros <-. destruct (decide (arr_v a = 0)); [congruence|].
    destruct Hv as (_ & ? & ? & _); congruence. }
  assert (Hself2 : arr_v a ≠ arr_self a).
  { destruct (decide (arr_v a = 0)); [congruence|]. by apply Hv. }
  unfold preallocate_post, array_ok; split_and!; simpl; try done; try lia.
  - split; simpl; autorewrite with zlist; lia.
  - split_and!; simpl; rewrite ?Hl2, ?Hl1; try done.
    + by rewrite lookup_delete_ne, lookup_insert_ne by done.
    + intros _. split; [done|]. exists u. rewrite lookup_delete_ne, lookup_insert_eq by done.
      split; [done|]. unfold sizeof_ptr in *. lia.
  - apply ztake_app_ztake. lia.
  - unfold arr_frame; simpl. rewrite Hl2, Hl1. by apply frame_move.
Qed.

Definition setsize_post (nguys : Z) s (_ : unit) s' : Prop :=
  array_ok s' ∧ arr_num s'.2 = nguys ∧ arr_frame s' = arr_frame s ∧
  ∀ i, i < arr_num s.2 → i < nguys →
    zget (arr_contents s'.2) i = zget (arr_contents s.2) i.

Lemma contents_lookup a i :
  i < arr_num a → zget (arr_contents a) i = zget (arr_slots a) i.
Proof.
  intros. destruct (decide (0 ≤ i)); [by apply zget_ztake|].
  unfold zget. by rewrite !decide_False by lia.
Qed.

(** Only the element count changes. *)
Lemma setnum_ok s nguys :
  array_ok s → 0 ≤ nguys ≤ arr_max s.2 →
  setsize_post nguys s tt
    (s.1, mkarray (arr_self s.2) nguys (arr_max s.2) (arr_v s.2) (arr_slots s.2)).
Proof.
  intros (Hk & [] & Ho) Hn. unfold setsize_post, array_ok. split_and!; try done; simpl.
  intros i ? ?. by rewrite !contents_lookup by (simpl; lia).
Qed.

Lemma setsize_post_trans nguys s s1 s' :
  arr_num s1.2 = arr_num s.2 → arr_contents s1.2 = arr_contents s.2 →
  arr_frame s1 = arr_frame s → setsize_post nguys s1 tt s' → setsize_post nguys s tt s'.
Proof.
  intros Hn Hc Hf (? & ? & ? & Hi). split_and!; [done..|congruence|].
  intros i ? ?. rewrite Hi, Hc; [done|lia|done].
Qed.

(** Shrinking to nothing gives a large block back to the heap. *)
Lemma shrink_spec h a :
  array_ok (h, a) → arr_max a > 16 →
  wp (kassert (negb (arr_v a =? 0)) ;;;
      on_heap (kfree (arr_v a)) ;;;
      on_obj (λ a, mkarray (arr_self a) (arr_num a) 0 0 []))
     (λ _ s', s'.2 = mkarray (arr_self a) (arr_num a) 0 0 [] ∧ kinv s'.1 ∧
              klive s'.1 = delete (arr_v a) (klive h))
     (λ _ _, False) (h, a).
Proof.
  intros (Hk & [Hnum Hslots Hnull Hbound] & Hself & Hlive & Hv) Hm. simpl in *.
  assert (arr_v a ≠ 0) as Hnz by (intros ?%Hnull; lia).
  wp_bind. apply wp_kassert; [lia|]. wp_bind. apply wp_zoom.
  destruct (Hv Hnz) as (_ & u & Hu & _).
  wp_use kfree_spec; [done|eauto| |done].
  intros [] h1 [Hk1 Hl1]. by apply wp_modify.
Qed.

Lemma array_setsize_spec s nguys :
  array_ok s → 0 ≤ nguys < 268435456 →
  wp (array_setsize nguys) (setsize_post nguys s)
     (λ e s', arr_max s.2 < nguys ∧ nomem_post s e s') s.
Proof.
  destruct s as [h a]. intros Hok Hn. pose proof Hok as (Hk & Hwf & Ho).
  unfold array_setsize. wp_bind. apply wp_gets; simpl in *.
  destruct Hwf as [Hnum Hslots Hnull Hbound].
  wp_bind. apply wp_kassert; [lia|]. wp_bind.
  destruct (Z.gtb_spec nguys (arr_max a)).
  - wp_use (array_preallocate_spec (h, a) nguys); [done|lia| |by split].
    intros [] s1 (? & ? & ? & ? & ? & ?). apply wp_modify.
    by apply (setsize_post_trans _ _ s1); [..|apply setnum_ok; [|lia]].
  - destruct (Z.eqb_spec nguys 0) as [->|]; simpl; [destruct (Z.gtb_spec (arr_max a) 16)|].
    2,3: apply wp_ret, wp_modify, (setnum_ok (h, a)); [done|simpl; lia].
    wp_use shrink_spec; [done|lia| |done].
    intros [] [h1 a1] (Ha1 & Hk1 & Hl1). simpl in *. subst a1. apply wp_modify.
    destruct Ho as (Hself & Hlive & Hv).
    assert (arr_v a ≠ 0) as Hnz by (intros ?%Hnull; lia).
    destruct (Hv Hnz) as [Hne _].
    unfold setsize_post, array_ok; split_and!; simpl; try done.
    + split_and!; try done; simpl. rewrite Hl1. by rewrite lookup_delete_ne by done.
    + unfold arr_frame; simpl. rewrite Hl1. f_equal. apply delete_id.
      rewrite lookup_delete_ne by done. by apply klive_null.
    + intros i _ ?. unfold zget. by rewrite !decide_False by lia.
Qed.

Lemma array_setguy_spec s index x :
  array_ok s → 0 ≤ index < arr_num s.2 →
  wp (array_setguy index x)
     (λ _ s', array_ok s' ∧ s'.1 = s.1 ∧ arr_frame s' = arr_frame s ∧
              arr_contents s'.2 = zset (arr_contents s.2) index (Some x))
     (λ _ _, False) s.
Proof.
  destruct s as [h a]. intros (Hk & [Hnum Hslots Hnull Hbound] & Ho) Hi; simpl in *.
  unfold array_setguy. wp_bind. apply wp_gets; simpl.
  do 2 (wp_bind; apply wp_kassert; [lia|]).
  unfold arr_store. wp_bind. apply wp_gets; simpl.
  replace ((0 <=? index) && (index <? zlen (arr_slots a))) with true by lia.
  apply wp_modify; simpl. unfold array_ok; split_and!; try done.
  - split; simpl; autorewrite with zlist; lia.
  - unfold arr_contents, ztake, zset; simpl. rewrite !decide_True by lia.
    rewrite take_insert_lt by lia. done.
Qed.

Lemma array_getguy_spec a index :
  array_wf a → 0 ≤ index < arr_num a →
  array_getguy a index = zget (arr_contents a) index ∧ is_Some (array_getguy a index).
Proof.
  intros [Hnum Hslots Hnull Hbound] Hi. unfold array_getguy.
  replace ((arr_num a <=? arr_max a) && (index >=? 0) && (index <? arr_num a))
    with true by lia.
  rewrite contents_lookup by lia. split; [done|]. apply zget_is_Some. lia.
Qed.

Lemma array_create_spec (h : H) :
  kinv h →
  wp (array_create (A:=A))
     (λ o h', kinv h' ∧
        match o with
        | None => klive h' = klive h
        | Some a => array_ok (h', a) ∧ arr_contents a = [] ∧ arr_frame (h', a) = klive h
        end)
     (λ _ _, False) h.
Proof.
  intros Hk. unfold array_create. wp_bind. wp_use kmalloc_spec; [done|done| |done].
  intros p h1 (Hk1 & [[-> Hl1]|(u & Hnz & Hfresh & Hu & Hl1)]); simpl; [done|].
  destruct (Z.eqb_spec p 0); [done|]. split; [done|]. unfold array_ok; split_and!; try done.
  - split_and!; try done; simpl.
    rewrite Hl1, lookup_insert_eq. by eexists.
  - unfold arr_frame; simpl. rewrite (delete_id _ 0), Hl1, delete_insert_eq by by apply klive_null.
    by apply delete_id.
Qed.

Lemma array_destroy_spec h a :
  array_ok (h, a) →
  wp (array_destroy a) (λ _ h', kinv h' ∧ klive h' = arr_frame (h, a)) (λ _ _, False) h.
Proof.
  intros (Hk & _ & Hself & Hlive & Hv). unfold array_destroy. wp_bind.
  apply (wp_mono _ (λ _ h1, kinv h1 ∧ klive h1 = delete (arr_v a) (klive h)) _ (λ _ _, False)).
  - apply wp_when.
    + intros Hb%negb_true_iff%Z.eqb_neq. destruct (Hv Hb) as (_ & u & Hu & _).
      apply kfree_spec; eauto.
    + intros Hb%negb_false_iff%Z.eqb_eq. rewrite Hb, delete_id; [done|].
      by apply klive_null.
  - intros [] h1 (Hk1 & Hl1). wp_use kfree_spec; [done| | |done].
    + rewrite Hl1. destruct (decide (arr_v a = 0)) as [->|Hnz].
      * by rewrite lookup_delete_ne by done.
      * destruct (Hv Hnz). by rewrite lookup_delete_ne by done.
    + intros [] h2 (? & ->). split; [done|]. by rewrite Hl1.
  - done.
Qed.

Lemma array_add_spec s x :
  array_ok s → arr_num s.2 < 268435455 →
  wp (array_add x)
     (λ _ s', array_ok s' ∧ arr_contents s'.2 = arr_contents s.2 ++ [Some x] ∧
              arr_frame s' = arr_frame s)
     (λ e s', e = ENOMEM ∧ arr_num s.2 = arr_max s.2 ∧ array_ok s' ∧
              s'.2 = s.2 ∧ klive s'.1 = klive s.1) s.
Proof.
  intros Hok Hn. pose proof Hok as (_ & [Hnum Hslots _ _] & _).
  unfold array_add. wp_bind. apply wp_gets. wp_bind.
  rewrite i32_small by lia.
  wp_use array_setsize_spec; [done|lia| |].
  2: { intros e s' (? & -> & ? & ? & ?). split_and!; try done. lia. }
  intros [] s1 (Hok1 & Hn1 & Hf1 & Hc1). pose proof Hok1 as (Hk1 & [Hnum1 Hslots1 Hnull1 Hb1] & Ho1).
  unfold arr_store. wp_bind. apply wp_gets; simpl.
  replace ((0 <=? arr_num s.2) && (arr_num s.2 <? zlen (arr_slots s1.2))) with true by lia.
  apply wp_modify; simpl. unfold array_ok; split_and!; try done.
  - split; simpl; autorewrite with zlist; lia.
  - apply zlist_eq. intros i Hi. destruct (Z.lt_trichotomy i (arr_num s.2)) as [?|[->|?]].
    + rewrite zget_app_l by (unfold arr_contents; rewrite zlen_ztake; lia).
      rewrite <- Hc1 by lia. rewrite !contents_lookup by (simpl; lia).
      simpl. by rewrite zget_zset_ne by lia.
    + rewrite contents_lookup by (simpl; lia). simpl. rewrite zget_zset_eq by lia.
      rewrite zget_app_r by (unfold arr_contents; rewrite zlen_ztake; lia).
      unfold arr_contents. rewrite zlen_ztake by lia. by rewrite Z.sub_diag.
    + transitivity (@None (option A)).
      * unfold arr_contents, ztake, zget; simpl. rewrite decide_True by lia.
        rewrite lookup_take_ge; [done|lia].
      * symmetry. unfold zget. rewrite decide_True by lia. apply lookup_ge_None_2.
        rewrite length_app. unfold arr_contents, ztake. rewrite length_take. simpl. lia.
Qed.

Lemma array_remove_spec s index :
  array_ok s → 0 ≤ index < arr_num s.2 →
  wp (array_remove index)
     (λ _ s', array_ok s' ∧ s'.1 = s.1 ∧ arr_frame s' = arr_frame s ∧
              arr_contents s'.2 = delete (Z.to_nat index) (arr_contents s.2))
     (λ _ _, False) s.
Proof.
  destruct s as [h a]. intros (Hk & [Hnum Hslots Hnull Hbound] & Ho) Hi; simpl in *.
  unfold array_remove. wp_bind. apply wp_gets; simpl.
  do 2 (wp_bind; apply wp_kassert; [lia|]). apply wp_modify; simpl.
  set (mv := ztake (arr_num a - (index + 1)) (zdrop (index + 1) (arr_slots a))).
  assert (Hmv : zlen mv = arr_num a - (index + 1)).
  { unfold mv. rewrite zlen_ztake; rewrite ?zlen_zdrop by lia; lia. }
  unfold array_ok; split_and!; try done.
  { split; simpl; rewrite ?zlen_splice by lia; lia. }
  apply list_eq. intros i. rewrite <- (zget_nat _ i).
  unfold arr_contents; simpl.
  destruct (decide (Z.of_nat i < arr_num a - 1)).
  2: { rewrite !(proj2 (lookup_ge_None _ _)); [|..].
       - unfold zget, ztake. rewrite decide_True by lia. rewrite lookup_take_ge; [done|lia].
       - rewrite length_delete; unfold ztake; [rewrite length_take; unfold zlen in *; lia|].
         apply lookup_lt_is_Some. rewrite length_take. unfold zlen in *. lia. }
  rewrite zget_ztake by lia. destruct (decide (i < Z.to_nat index)%nat).
  - rewrite list_lookup_delete_lt by done. rewrite <- zget_nat, zget_ztake by lia.
    rewrite zget_splice_out by lia. done.
  - rewrite list_lookup_delete_ge by lia. rewrite <- zget_nat, zget_ztake by lia.
    rewrite zget_splice_in by lia. unfold mv. rewrite zget_ztake by lia.
    rewrite zget_zdrop by lia. f_equal. lia.
Qed.

End proofs.

(** ** The properties *)

Section theorems.
Context {H : Type} `{!Kmem H} `{!KmemOk H} {A : Type}.
Implicit Types (a : array A) (s : H * array A).

(** [array_add] appends its argument to the list the array represents.  It
    can fail only with ENOMEM, only when the array is full, and then the
    array is unchanged and no block has been leaked. *)
Theorem array_add_correct s x :
  array_ok s → arr_num s.2 < 268435455 →
  wp (array_add x)
     (λ _ s', array_ok s' ∧ arr_contents s'.2 = arr_contents s.2 ++ [Some x] ∧
              arr_frame s' = arr_frame s)
     (λ e s', e = ENOMEM ∧ arr_num s.2 = arr_max s.2 ∧ array_ok s' ∧
              s'.2 = s.2 ∧ klive s'.1 = klive s.1) s.
Proof. apply array_add_spec. Qed.

(** [array_remove] deletes exactly the element at the index and keeps the
    order of the others; it never fails and touches no other block. *)
Theorem array_remove_correct s index :
  array_ok s → 0 ≤ index < arr_num s.2 →
  wp (array_remove index)
     (λ _ s', array_ok s' ∧ s'.1 = s.1 ∧
              arr_contents s'.2 = delete (Z.to_nat index) (arr_contents s.2))
     (λ _ _, False) s.
Proof.
  intros. wp_use array_remove_spec; [done..| |done]. intros [] s' (? & ? & _ & ?). done.
Qed.

(** Once [array_preallocate n] has succeeded, [array_add] cannot fail while
    the array has fewer than [n] elements: this is what the thread system
    relies on when it puts a thread on [sleepers] or [zombies]. *)
Theorem preallocate_then_add s n x :
  array_ok s → 0 ≤ arr_num s.2 < n → n < 268435456 →
  wp (array_preallocate n)
     (λ _ s1, wp (array_add x)
        (λ _ s', arr_contents s'.2 = arr_contents s.2 ++ [Some x] ∧ array_ok s')
        (λ _ _, False) s1)
     (λ e s', e = ENOMEM ∧ s'.2 = s.2) s.
Proof.
  intros Hok Hn Hb. wp_use array_preallocate_spec; [done|done| |by intros e s' (? & ? & ? & ?)].
  intros [] s1 (Hok1 & Hc1 & Hm1 & _ & Hn1 & _).
  wp_use array_add_spec; [done|lia|..].
  - intros [] s2 (? & -> & _). by rewrite Hc1.
  - intros e s2 (_ & ? & _). lia.
Qed.

End theorems.

(** ** Witnesses: an array with one element in a small heap *)

Definition toy_array : Toy.heap * array Z :=
  (Toy.mkheap 64 1000 (<[16 := 12]> {[32 := 8]}),
   mkarray 16 1 2 32 [Some 7; None]).

Lemma toy_array_ok : array_ok toy_array.
Proof.
  split_and!.
  - split; [done|]. intros p sz Hp. simpl in Hp.
    destruct (decide (p = 16)) as [->|]; [done|].
    rewrite lookup_insert_ne in Hp by done. apply lookup_singleton_Some in Hp. naive_solver lia.
  - by split.
  - split_and!; [done|by eexists|]. intros _. split; [done|]. by exists 8.
Qed.

Lemma array_add_correct_witness :
  wp (array_add 9) (λ _ s', arr_contents s'.2 = [Some 7; Some 9]) (λ _ _, False) toy_array.
Proof.
  eapply wp_mono; [apply (array_add_correct toy_array 9); [exact toy_array_ok|done]|..].
  - intros _ s' (_ & Hc & _). exact Hc.
  - intros e s' (_ & Hfull & _). simpl in Hfull. lia.
Defined.

Lemma array_remove_correct_witness :
  wp (array_remove 0) (λ _ s', arr_contents s'.2 = []) (λ _ _, False) toy_array.
Proof.
  eapply wp_mono; [apply (array_remove_correct toy_array 0); [exact toy_array_ok|done]|..].
  - intros _ s' (_ & _ & Hc). exact Hc.
  - done.
Defined.

Lemma preallocate_then_add_witness :
  wp (array_preallocate 5)
     (λ _ s1, wp (array_add 9) (λ _ s', arr_contents s'.2 = [Some 7; Some 9]) (λ _ _, False) s1)
     (λ _ _, True) toy_array.
Proof.
  eapply wp_mono; [apply (preallocate_then_add toy_array 5 9); [exact toy_array_ok|done..]|..].
  - intros [] s1 Hs1. eapply wp_mono; [exact Hs1|..]; [|done].
    intros _ s' [Hc _]. exact Hc.
  - done.
Defined.
