(* ===== verification/KQueue.v ===== *)
(** * Queues of pointers (kern/lib/queue.c)

    The ring buffer behind the scheduler's run queue, every routine of
    queue.c, and the proof that it is a first-in first-out list. *)

From S2P Require Import Prelude Kmem.

(** [q_dptr] is the address of the block [q->data]; [q_data] is its contents,
    [None] for a slot that was never written. *)
Record queue (A : Type) := mkqueue {
  q_self : Z;
  q_size : Z;
  q_nextwrite : Z;
  q_nextread : Z;
  q_dptr : Z;
  q_data : list (option A);
}.
Arguments mkqueue {A} _ _ _ _ _ _.
Arguments q_self {A} _.
Arguments q_size {A} _.
Arguments q_nextwrite {A} _.
Arguments q_nextread {A} _.
Arguments q_dptr {A} _.
Arguments q_data {A} _.

Definition sizeof_struct_queue : Z := 16.

(** [while (nsize < targetsize) { nsize *= 2; assert(nsize > 0); }]; [None] is
    the failed assertion.  A positive size doubles past 2^31 in at most 31
    rounds, so 32 rounds always reach the end of the loop or the assertion. *)
Fixpoint grow_size (fuel : nat) (targetsize nsize : Z) : option Z :=
  if nsize <? targetsize then
    match fuel with
    | O => None
    | S fuel' =>
        let nsize' := i32 (nsize * 2) in
        if nsize' >? 0 then grow_size fuel' targetsize nsize' else None
    end
  else Some nsize.
#[global] Arguments grow_size : simpl never.

Section queue.
Context {H : Type} `{!Kmem H} {A : Type}.
Implicit Types (q : queue A).

(** The copy loop of [q_grow]:
    [for (i=onr; i!=onw; i=(i+1)%osize) q_addtail(q, olddata[i])]. *)
Fixpoint q_copy (addtail : option A → M (H * queue A) unit) (fuel : nat)
  (olddata : list (option A)) (osize onw i : Z) : M (H * queue A) unit :=
  if i =? onw then ret tt
  else match fuel with
  | O => hang
  | S fuel' =>
      match zget olddata i with
      | None => panic
      | Some x =>
          let! r := try (addtail x) in
          match r with
          | inl _ => panic
          | inr _ => q_copy addtail fuel' olddata osize onw (Z.rem (i + 1) osize)
          end
      end
  end.

(** [q_grow] and [q_addtail] call each other; [q_grow] takes the routine it
    uses to refill the new block. *)
Definition q_grow (addtail : option A → M (H * queue A) unit) (targetsize : Z)
  : M (H * queue A) unit :=
  let! q := gets snd in
  let olddata := q_data q in
  let oldptr := q_dptr q in
  let onr := q_nextread q in
  let onw := q_nextwrite q in
  let osize := q_size q in
  match grow_size 32 targetsize osize with
  | None => panic
  | Some nsize =>
      let! ndata := on_heap (kmalloc (u32 (nsize * 4))) in
      if ndata =? 0 then fail ENOMEM
      else
        on_obj (λ q, mkqueue (q_self q) nsize 0 0 ndata
                       (replicate (Z.to_nat nsize) None)) ;;;
        q_copy addtail (Z.to_nat osize) olddata osize onw onr ;;;
        on_heap (kfree oldptr)
  end.

(** [depth] bounds the nesting of [q_addtail] inside [q_grow]; a grown queue
    has room for everything it held, so one level is enough. *)
Fixpoint q_addtail_ (depth : nat) (ptr : option A) : M (H * queue A) unit :=
  let! q := gets snd in
  kassert (q_size q >? 0) ;;;
  let nextnext := Z.rem (q_nextwrite q + 1) (q_size q) in
  (if nextnext =? q_nextread q then
     match depth with
     | O => hang
     | S depth' => q_grow (q_addtail_ depth') (i32 (q_size q + 1))
     end
   else ret tt) ;;;
  let! q := gets snd in
  let nextnext := Z.rem (q_nextwrite q + 1) (q_size q) in
  if (0 <=? q_nextwrite q) && (q_nextwrite q <? zlen (q_data q)) then
    on_obj (λ q, mkqueue (q_self q) (q_size q) nextnext (q_nextread q) (q_dptr q)
                   (zset (q_data q) (q_nextwrite q) ptr))
  else panic.

Definition q_addtail (ptr : A) : M (H * queue A) unit := q_addtail_ 1 (Some ptr).

Definition q_create (size : Z) : M H (option (queue A)) :=
  let! p := kmalloc sizeof_struct_queue in
  if p =? 0 then ret None
  else
    let! d := kmalloc (u32 (size * 4)) in
    if d =? 0 then kfree p ;;; ret None
    else ret (Some (mkqueue p size 0 0 d (replicate (Z.to_nat size) None))).

Definition q_preallocate (size : Z) : M (H * queue A) unit :=
  let! q := gets snd in
  kassert (q_size q >? 0) ;;;
  if size >? q_size q then q_grow (q_addtail_ 1) size else ret tt.

Definition q_empty (q : queue A) : bool := q_nextwrite q =? q_nextread q.

Definition q_remhead : M (H * queue A) (option A) :=
  let! q := gets snd in
  kassert (q_size q >? 0) ;;;
  kassert (negb (q_empty q)) ;;;
  match zget (q_data q) (q_nextread q) with
  | None => panic
  | Some x =>
      on_obj (λ q, mkqueue (q_self q) (q_size q) (q_nextwrite q)
                     (Z.rem (q_nextread q + 1) (q_size q)) (q_dptr q) (q_data q)) ;;;
      ret x
  end.

Definition q_destroy (q : queue A) : M H unit :=
  kassert (q_empty q) ;;;
  kfree (q_dptr q) ;;;
  kfree (q_self q).

Definition q_getstart (q : queue A) : Z := q_nextread q.
Definition q_getend (q : queue A) : Z := q_nextwrite q.
Definition q_getsize (q : queue A) : Z := q_size q.
Definition q_getguy (q : queue A) (index : Z) : option (option A) :=
  if (index >=? 0) && (index <? q_size q) then zget (q_data q) index else None.

(** ** Specification: a list, oldest element first *)

Definition q_count (q : queue A) : Z := (q_nextwrite q - q_nextread q) mod q_size q.

Definition q_nth (q : queue A) (k : Z) : option A :=
  default None (zget (q_data q) ((q_nextread q + k) mod q_size q)).

Definition q_elems (q : queue A) : list (option A) := q_nth q <$> seqZ 0 (q_count q).

Record q_wf (q : queue A) : Prop := {
  q_wf_size : 0 < q_size q < 536870912;
  q_wf_write : 0 ≤ q_nextwrite q < q_size q;
  q_wf_read : 0 ≤ q_nextread q < q_size q;
  q_wf_data : zlen (q_data q) = q_size q;
}.

Definition q_owns `{!KmemOk H} (h : H) (q : queue A) : Prop :=
  q_self q ≠ 0 ∧ is_Some (klive h !! q_self q) ∧ q_dptr q ≠ q_self q ∧
  ∃ usable, klive h !! q_dptr q = Some usable ∧ 4 * q_size q ≤ usable.

Definition q_ok `{!KmemOk H} (s : H * queue A) : Prop :=
  kinv s.1 ∧ q_wf s.2 ∧ q_owns s.1 s.2.

Definition q_frame `{!KmemOk H} (s : H * queue A) : gmap Z Z :=
  delete (q_self s.2) (delete (q_dptr s.2) (klive s.1)).

End queue.

(** ** Ring arithmetic *)

Lemma mod_wrap i n : 0 < n → 0 ≤ i < 2 * n → i mod n = if i <? n then i else i - n.
Proof.
  intros Hn Hi. destruct (Z.ltb_spec i n).
  - apply Z.mod_small. lia.
  - rewrite <- (Z.mod_small (i - n) n) by lia.
    by rewrite <- (Z.mod_add (i - n) 1 n), Z.mul_1_l, Z.sub_add by lia.
Qed.
Lemma rem_wrap i n : 0 < n → 0 ≤ i < 2 * n → Z.rem i n = if i <? n then i else i - n.
Proof. intros. rewrite Z.rem_mod_nonneg by lia. by apply mod_wrap. Qed.
Lemma mod_wrap_neg i n : 0 < n → - n < i < n → i mod n = if i <? 0 then i + n else i.
Proof.
  intros Hn Hi. destruct (Z.ltb_spec i 0).
  - rewrite <- (Z.mod_add i 1 n), Z.mul_1_l by lia. apply Z.mod_small. lia.
  - apply Z.mod_small. lia.
Qed.

Lemma grow_size_fuel fuel target n :
  0 < n < 536870912 → target ≤ 268435456 → target ≤ n * 2 ^ Z.of_nat fuel →
  ∃ m, grow_size fuel target n = Some m ∧ n ≤ m < 536870912 ∧ target ≤ m ∧
       (n < target → m < 2 * target).
Proof.
  revert n. induction fuel as [|fuel IH]; intros n Hn Ht Hf.
  - change (2 ^ Z.of_nat 0) with 1 in Hf. unfold grow_size.
    destruct (Z.ltb_spec n target); [lia|]. eexists. split; [done|]. lia.
  - unfold grow_size; fold grow_size. destruct (Z.ltb_spec n target).
    + rewrite i32_small by lia. destruct (Z.gtb_spec (n * 2) 0); [|lia].
      rewrite Nat2Z.inj_succ, Z.pow_succ_r in Hf by lia.
      destruct (IH (n * 2)) as (m & Hm & ?); [lia..|]. rewrite Hm. exists m. split; [done|].
      destruct (Z.ltb_spec (n * 2) target); [lia|].
      assert (m = n * 2); [|lia]. destruct fuel; unfold grow_size in Hm; fold grow_size in Hm;
      (destruct (Z.ltb_spec (n * 2) target); [lia|congruence]).
    + eexists. split; [done|]. lia.
Qed.

Lemma grow_size_ok target n :
  0 < n < 536870912 → target ≤ 268435456 →
  ∃ m, grow_size 32 target n = Some m ∧ n ≤ m < 536870912 ∧ target ≤ m ∧
       (n < target → m < 2 * target).
Proof. intros. apply grow_size_fuel; lia. Qed.

(** ** Lemmas on the abstraction *)

Section elems.
Context {A : Type}.
Implicit Types (q : queue A).

Lemma q_count_alt q :
  q_wf q → q_count q = if q_nextwrite q <? q_nextread q
                       then q_nextwrite q - q_nextread q + q_size q
                       else q_nextwrite q - q_nextread q.
Proof.
  intros [? ? ? ?]. unfold q_count. rewrite mod_wrap_neg by lia.
  repeat case_match; lia.
Qed.

Lemma q_count_range q : q_wf q → 0 ≤ q_count q < q_size q.
Proof. intros Hwf. rewrite q_count_alt by done. destruct Hwf. case_match; lia. Qed.

Lemma zlen_elems q : q_wf q → zlen (q_elems q) = q_count q.
Proof.
  intros Hwf. unfold zlen, q_elems. rewrite length_fmap, length_seqZ.
  apply q_count_range in Hwf. lia.
Qed.

Lemma zget_elems q k :
  q_wf q → 0 ≤ k < q_count q → zget (q_elems q) k = zget (q_data q)
    (if q_nextread q + k <? q_size q then q_nextread q + k
     else q_nextread q + k - q_size q).
Proof.
  intros Hwf Hk. pose proof (q_count_range q Hwf). pose proof Hwf as [? ? ? ?].
  unfold zget at 1. rewrite decide_True by lia. unfold q_elems.
  rewrite list_lookup_fmap, lookup_seqZ_lt by lia. simpl.
  unfold q_nth. rewrite Z2Nat.id, Z.add_0_l, mod_wrap by lia.
  destruct (zget_is_Some (q_data q) (if q_nextread q + k <? q_size q
    then q_nextread q + k else q_nextread q + k - q_size q)) as [x Hx].
  { case_match; lia. }
  by rewrite Hx.
Qed.

Lemma zget_elems_ge q k : q_wf q → q_count q ≤ k → zget (q_elems q) k = None.
Proof.
  intros Hwf Hk. destruct (zget (q_elems q) k) eqn:E; [|done].
  apply zget_Some_range in E. rewrite zlen_elems in E by done. lia.
Qed.

(** The record updates [q_addtail] and [q_remhead] perform. *)
Definition q_push q (x : option A) : queue A :=
  mkqueue (q_self q) (q_size q) (Z.rem (q_nextwrite q + 1) (q_size q)) (q_nextread q)
    (q_dptr q) (zset (q_data q) (q_nextwrite q) x).
Definition q_pop q : queue A :=
  mkqueue (q_self q) (q_size q) (q_nextwrite q) (Z.rem (q_nextread q + 1) (q_size q))
    (q_dptr q) (q_data q).

Lemma q_push_wf q x : q_wf q → q_wf (q_push q x).
Proof.
  intros [? ? ? ?]. split; simpl; rewrite ?rem_wrap, ?zlen_zset by lia; try lia.
  case_match; lia.
Qed.
Lemma q_pop_wf q : q_wf q → q_wf (q_pop q).
Proof. intros [? ? ? ?]. split; simpl; rewrite ?rem_wrap by lia; try lia. case_match; lia. Qed.

Lemma q_full_iff q :
  q_wf q → Z.rem (q_nextwrite q + 1) (q_size q) = q_nextread q ↔
           q_count q = q_size q - 1.
Proof.
  intros Hwf. rewrite q_count_alt by done. destruct Hwf.
  rewrite rem_wrap by lia. repeat case_match; lia.
Qed.
Lemma q_empty_iff q : q_wf q → q_empty q = true ↔ q_elems q = [].
Proof.
  intros Hwf. unfold q_empty. rewrite Z.eqb_eq.
  transitivity (q_count q = 0).
  - rewrite q_count_alt by done. destruct Hwf. case_match; lia.
  - rewrite <- zlen_elems by done. unfold zlen. rewrite <- length_zero_iff_nil. lia.
Qed.

Lemma q_push_count q x :
  q_wf q → q_count q < q_size q - 1 → q_count (q_push q x) = q_count q + 1.
Proof.
  intros Hwf. rewrite !q_count_alt by auto using q_push_wf. destruct Hwf.
  simpl. rewrite rem_wrap by lia. repeat case_match; lia.
Qed.

Lemma q_push_elems q x :
  q_wf q → q_count q < q_size q - 1 → q_elems (q_push q x) = q_elems q ++ [x].
Proof.
  intros Hwf Hc. pose proof (q_push_count q x Hwf Hc) as Hc'.
  pose proof (q_push_wf q x Hwf) as Hwf'. pose proof (q_count_range q Hwf).
  apply zlist_eq. intros k Hk. destruct (Z.lt_trichotomy k (q_count q)) as [?|[->|?]].
  - rewrite zget_app_l by (rewrite zlen_elems; done).
    rewrite !zget_elems by (done || lia). simpl.
    pose proof (q_count_alt q Hwf). destruct Hwf.
    apply zget_zset_ne. repeat case_match; lia.
  - rewrite zget_app_r by (rewrite zlen_elems by done; lia).
    rewrite zlen_elems, Z.sub_diag by done. rewrite zget_elems by (done || lia). simpl.
    pose proof (q_count_alt q Hwf) as Ha. destruct Hwf.
    replace (if q_nextread q + q_count q <? q_size q then _ else _) with (q_nextwrite q).
    + rewrite zget_zset_eq by lia. done.
    + repeat case_match; lia.
  - rewrite zget_elems_ge by (done || lia). symmetry.
    destruct (zget _ k) eqn:E; [|done]. apply zget_Some_range in E.
    rewrite zlen_app, zlen_elems in E by done. unfold zlen in E. simpl in E. lia.
Qed.

Lemma q_pop_elems q x l :
  q_wf q → q_elems q = x :: l →
  zget (q_data q) (q_nextread q) = Some x ∧ q_elems (q_pop q) = l.
Proof.
  intros Hwf He. pose proof (zlen_elems q Hwf) as Hl. rewrite He, zlen_cons in Hl.
  pose proof (zlen_nonneg l). pose proof (q_count_range q Hwf).
  pose proof (q_pop_wf q Hwf) as Hwf'.
  assert (Hc : q_count (q_pop q) = q_count q - 1).
  { rewrite !q_count_alt by done. rewrite q_count_alt in Hl by done. destruct Hwf.
    simpl. rewrite rem_wrap by lia. repeat case_match; lia. }
  split.
  - pose proof (zget_elems q 0 Hwf) as Hz. rewrite He in Hz.
    destruct Hwf. rewrite Z.add_0_r in Hz.
    destruct (Z.ltb_spec (q_nextread q) (q_size q)); [|lia]. symmetry. apply Hz. lia.
  - apply zlist_eq. intros k Hk. destruct (decide (k < q_count q - 1)).
    + transitivity (zget (x :: l) (k + 1)).
      * rewrite <- He. rewrite !zget_elems by (done || lia). simpl. destruct Hwf.
        rewrite rem_wrap by lia. f_equal. repeat case_match; lia.
      * change (x :: l) with ([x] ++ l). rewrite zget_app_r; unfold zlen; simpl; [|lia].
        f_equal. lia.
    + rewrite zget_elems_ge by (done || lia). symmetry.
      destruct (zget l k) eqn:E; [|done]. apply zget_Some_range in E. lia.
Qed.

End elems.

(** ** Correctness of the routines *)

Section proofs.
Context {H : Type} `{!Kmem H} `{!KmemOk H} {A : Type}.
Implicit Types (q : queue A) (s : H * queue A).

(** With a free slot [q_addtail] is a store and an increment, whatever the
    nesting depth. *)
Lemma q_addtail_room depth h q x :
  q_wf q → q_count q < q_size q - 1 →
  q_addtail_ depth x (h, q) = Ok tt (h, q_push q x).
Proof.
  intros Hwf Hc. pose proof Hwf as [? ? ? ?].
  assert (Z.rem (q_nextwrite q + 1) (q_size q) ≠ q_nextread q) as Hne.
  { rewrite q_full_iff by done. lia. }
  destruct depth as [|depth]; simpl; unfold bind, gets, kassert; simpl;
    (destruct (Z.gtb_spec (q_size q) 0); [|lia]); simpl;
    (destruct (Z.eqb_spec (Z.rem (q_nextwrite q + 1) (q_size q)) (q_nextread q)); [done|]);
    simpl; replace ((0 <=? q_nextwrite q) && (q_nextwrite q <? zlen (q_data q)))
      with true by lia; done.
Qed.

(** The copy loop moves the rest of the old contents into the new block. *)
Lemma q_copy_spec depth q0 fuel k h q :
  q_wf q0 → q_wf q → 0 ≤ k ≤ q_count q0 → q_count q = k → q_count q0 < q_size q →
  q_count q0 - k ≤ Z.of_nat fuel →
  ∃ q', q_copy (q_addtail_ depth) fuel (q_data q0) (q_size q0) (q_nextwrite q0)
          ((q_nextread q0 + k) mod q_size q0) (h, q) = Ok tt (h, q') ∧
        q_wf q' ∧ q_self q' = q_self q ∧ q_size q' = q_size q ∧ q_dptr q' = q_dptr q ∧
        q_elems q' = q_elems q ++ zdrop k (q_elems q0).
Proof.
  intros Hwf0. revert k q. induction fuel as [|fuel IH]; intros k q Hwf Hk Hc Hsz Hf;
    pose proof Hwf0 as [? ? ? ?]; pose proof (q_count_range q0 Hwf0);
    pose proof (q_count_alt q0 Hwf0) as Ha.
  all: assert (Hi : (q_nextread q0 + k) mod q_size q0 = q_nextwrite q0 ↔ k = q_count q0)
    by (rewrite mod_wrap by lia; repeat case_match; lia).
  all: unfold q_copy; fold (@q_copy H A).
  all: destruct (Z.eqb_spec ((q_nextread q0 + k) mod q_size q0) (q_nextwrite q0)) as [Hend|Hend];
    [apply Hi in Hend; subst k|].
  1,3: exists q; split_and!; try done;
    unfold zdrop; rewrite drop_ge, app_nil_r; [done|];
    pose proof (zlen_elems q0 Hwf0); unfold zlen in *; lia.
  { exfalso. apply Hend, Hi. lia. }
  assert (Hlt : k < q_count q0) by (destruct (decide (k = q_count q0)); [tauto|lia]).
  assert (He : zget (q_elems q0) k = zget (q_data q0) ((q_nextread q0 + k) mod q_size q0))
    by (rewrite zget_elems, mod_wrap by (done || lia); done).
  destruct (zget_is_Some (q_elems q0) k) as [x Hx]; [rewrite zlen_elems by done; lia|].
  rewrite <- He, Hx. unfold bind at 1, try at 1.
  rewrite q_addtail_room by (done || lia).
  assert (Hnext : Z.rem ((q_nextread q0 + k) mod q_size q0 + 1) (q_size q0) =
                  (q_nextread q0 + (k + 1)) mod q_size q0).
  { pose proof (Z.mod_pos_bound (q_nextread q0 + k) (q_size q0)).
    rewrite rem_wrap by lia. rewrite !mod_wrap by lia. repeat case_match; lia. }
  rewrite Hnext.
  destruct (IH (k + 1) (q_push q x)) as (q' & Hrun & ? & ? & ? & ? & Hq'); simpl;
    rewrite ?q_push_count by (done || lia); auto using q_push_wf; try lia.
  exists q'. split_and!; try done. rewrite Hq', q_push_elems by (done || lia).
  rewrite <- app_assoc. f_equal. unfold zdrop, zget in *. rewrite decide_True in Hx by lia.
  rewrite (drop_S (q_elems q0) x (Z.to_nat k)) by done. simpl. do 2 f_equal. lia.
Qed.

Lemma q_copy_all depth q0 h q :
  q_wf q0 → q_wf q → q_count q = 0 → q_count q0 < q_size q →
  ∃ q', q_copy (q_addtail_ depth) (Z.to_nat (q_size q0)) (q_data q0) (q_size q0)
          (q_nextwrite q0) (q_nextread q0) (h, q) = Ok tt (h, q') ∧
        q_wf q' ∧ q_self q' = q_self q ∧ q_size q' = q_size q ∧ q_dptr q' = q_dptr q ∧
        q_elems q' = q_elems q0.
Proof.
  intros Hwf0 Hwf Hc Hsz. pose proof (q_count_range q0 Hwf0).
  pose proof Hwf0 as [? ? ? ?].
  destruct (q_copy_spec depth q0 (Z.to_nat (q_size q0)) 0 h q)
    as (q' & Hrun & ? & ? & ? & ? & He); try done; try lia.
  rewrite Z.add_0_r, Z.mod_small in Hrun by lia.
  exists q'. split_and!; try done. rewrite He, zdrop_0.
  assert (q_elems q = []) as ->; [|done].
  apply length_zero_iff_nil. pose proof (zlen_elems q Hwf). unfold zlen in *. lia.
Qed.

Definition grow_post (targetsize : Z) s (_ : unit) s' : Prop :=
  q_ok s' ∧ q_elems s'.2 = q_elems s.2 ∧ targetsize ≤ q_size s'.2 ∧
  q_size s.2 ≤ q_size s'.2 ∧ q_frame s' = q_frame s ∧ q_size s'.2 < 2 * targetsize.
Definition q_nomem_post s (e : errno) s' : Prop :=
  e = ENOMEM ∧ q_ok s' ∧ s'.2 = s.2 ∧ klive s'.1 = klive s.1.

Lemma q_grow_spec depth s targetsize :
  q_ok s → q_size s.2 < targetsize ≤ 268435456 →
  wp (q_grow (q_addtail_ depth) targetsize) (grow_post targetsize s) (q_nomem_post s) s.
Proof.
  destruct s as [h q]. intros (Hk & Hwf & Hself & Hlive & Hne & u0 & Hu0 & Hu0') Ht.
  simpl in *. pose proof Hwf as [? ? ? ?]. unfold q_grow. wp_bind. apply wp_gets; simpl.
  destruct (grow_size_ok targetsize (q_size q)) as (m & -> & ? & ? & ?); [lia..|].
  wp_bind. apply wp_zoom; simpl. rewrite u32_small by lia.
  wp_use kmalloc_spec; [done|lia| |done].
  intros nd h1 (Hk1 & [[-> Hl1]|(u & Hnz & Hfresh & Hu & Hl1)]); simpl.
  { split_and!; try done. unfold q_ok, q_owns; simpl. rewrite Hl1. split_and!; eauto. }
  destruct (Z.eqb_spec nd 0); [done|]. wp_bind. apply wp_modify; simpl.
  assert (nd ≠ q_self q) by (intros ->; rewrite Hfresh in Hlive; by destruct Hlive).
  destruct (q_copy_all depth q h1
    (mkqueue (q_self q) m 0 0 nd (replicate (Z.to_nat m) None)))
    as (q' & Hrun & Hwf' & Hs' & Hz' & Hd' & He'); simpl in *; try done.
  { split; simpl; autorewrite with zlist; lia. }
  { pose proof (q_count_range q Hwf). lia. }
  wp_bind. unfold wp at 1. rewrite Hrun. apply wp_zoom; simpl.
  wp_use kfree_spec; [done| | |done].
  { rewrite Hl1, lookup_insert_ne by congruence. eauto. }
  intros [] h2 [Hk2 Hl2].
  assert (nd ≠ q_dptr q) by congruence.
  unfold grow_post, q_ok, q_owns, q_frame; simpl. rewrite Hs', Hz', Hd', Hl2, Hl1.
  split_and!; try done; try lia.
  - by rewrite lookup_delete_ne, lookup_insert_ne by done.
  - exists u. rewrite lookup_delete_ne, lookup_insert_eq by done. split; [done|lia].
  - by apply frame_move.
Qed.

Lemma q_push_ok h q x : q_ok (h, q) → q_ok (h, q_push q x).
Proof. intros (? & ? & ?). unfold q_ok. split_and!; auto; simpl; auto using q_push_wf. Qed.

Lemma q_addtail_spec s x :
  q_ok s → q_size s.2 < 268435456 →
  wp (q_addtail x)
     (λ _ s', q_ok s' ∧ q_elems s'.2 = q_elems s.2 ++ [Some x] ∧
              q_size s.2 ≤ q_size s'.2 ∧ q_frame s' = q_frame s ∧
              q_size s'.2 ≤ Z.max (q_size s.2) (2 * (zlen (q_elems s.2) + 2)))
     (λ e s', zlen (q_elems s.2) = q_size s.2 - 1 ∧ q_nomem_post s e s') s.
Proof.
  destruct s as [h q]. intros Hok Hsz. pose proof Hok as (_ & Hwf & _). simpl in *.
  destruct (decide (q_count q < q_size q - 1)) as [Hroom|Hfull].
  { unfold wp, q_addtail. rewrite q_addtail_room by done.
    split_and!; try done; [by apply q_push_ok|by apply q_push_elems|simpl; lia]. }
  pose proof (q_count_range q Hwf).
  assert (Hcount : q_count q = q_size q - 1) by lia. clear Hfull.
  unfold q_addtail. simpl. wp_bind. apply wp_gets; simpl.
  wp_bind. apply wp_kassert; [lia|]. wp_bind.
  destruct (Z.eqb_spec (Z.rem (q_nextwrite q + 1) (q_size q)) (q_nextread q)) as [_|Hne].
  2: { by rewrite q_full_iff in Hne. }
  rewrite i32_small by lia.
  wp_use (q_grow_spec 0 (h, q)); [done|simpl; lia| |].
  2: { intros e s' He. split; [|done]. by rewrite zlen_elems. }
  intros [] [h1 q1] (Hok1 & He1 & Ht1 & Hs1 & Hf1 & Hm1). simpl in *.
  pose proof Hok1 as (_ & Hwf1 & _). simpl in *. pose proof Hwf1 as [? ? ? ?].
  assert (q_count q1 = q_count q) as Hc1 by (rewrite <- !zlen_elems; congruence).
  wp_bind. apply wp_gets; simpl.
  replace ((0 <=? q_nextwrite q1) && (q_nextwrite q1 <? zlen (q_data q1))) with true by lia.
  apply wp_modify. change (q_ok (h1, q_push q1 (Some x)) ∧
    q_elems (q_push q1 (Some x)) = q_elems q ++ [Some x] ∧
    q_size q ≤ q_size q1 ∧ q_frame (h1, q_push q1 (Some x)) = q_frame (h, q) ∧
    q_size q1 ≤ Z.max (q_size q) (2 * (zlen (q_elems q) + 2))).
  rewrite q_push_elems by (done || lia). split_and!; auto using q_push_ok.
  - by rewrite He1.
  - rewrite zlen_elems by done. lia.
Qed.

Lemma q_remhead_spec s x l :
  q_ok s → q_elems s.2 = x :: l →
  wp q_remhead (λ r s', r = x ∧ q_ok s' ∧ s'.1 = s.1 ∧ q_elems s'.2 = l ∧
                        q_size s'.2 = q_size s.2 ∧ q_frame s' = q_frame s)
     (λ _ _, False) s.
Proof.
  destruct s as [h q]. intros (Hk & Hwf & Ho) He. simpl in *.
  destruct (q_pop_elems q x l Hwf He) as [Hx Hl].
  assert (q_empty q = false) as Hem.
  { apply not_true_iff_false. rewrite q_empty_iff by done. by rewrite He. }
  pose proof Hwf as [? ? ? ?]. unfold q_remhead. wp_bind. apply wp_gets; simpl.
  wp_bind. apply wp_kassert; [lia|]. rewrite Hem. wp_bind. apply wp_kassert; [done|].
  rewrite Hx. wp_bind. apply wp_modify, wp_ret.
  unfold q_ok; split_and!; try done. exact (q_pop_wf q Hwf).
Qed.

Lemma q_preallocate_spec s size :
  q_ok s → size ≤ 268435456 →
  wp (q_preallocate size)
     (λ _ s', q_ok s' ∧ q_elems s'.2 = q_elems s.2 ∧ size ≤ q_size s'.2 ∧
              q_size s.2 ≤ q_size s'.2 ∧ q_frame s' = q_frame s ∧
              q_size s'.2 ≤ Z.max (q_size s.2) (2 * size))
     (q_nomem_post s) s.
Proof.
  intros Hok Hs. pose proof Hok as (_ & [? ? ? ?] & _).
  unfold q_preallocate. wp_bind. apply wp_gets. wp_bind.
  apply wp_kassert; [lia|]. destruct (Z.gtb_spec size (q_size s.2)).
  - wp_use (q_grow_spec 1); [done|lia| |done]. intros [] s' (? & ? & ? & ? & ? & ?). split_and!; done || lia.
  - apply wp_ret. split_and!; done || lia.
Qed.

Lemma q_create_spec (h : H) size :
  kinv h → 0 < size < 536870912 →
  wp (q_create (A:=A) size)
     (λ o h', kinv h' ∧
        match o with
        | None => klive h' = klive h
        | Some q => q_ok (h', q) ∧ q_elems q = [] ∧ q_size q = size ∧
                    q_frame (h', q) = klive h
        end)
     (λ _ _, False) h.
Proof.
  intros Hk Hs. unfold q_create. wp_bind. wp_use kmalloc_spec; [done|done| |done].
  intros p h1 (Hk1 & [[-> Hl1]|(u & Hnz & Hfresh & Hu & Hl1)]); simpl; [done|].
  destruct (Z.eqb_spec p 0); [done|]. wp_bind. rewrite u32_small by lia.
  wp_use kmalloc_spec; [done|lia| |done].
  intros d h2 (Hk2 & [[-> Hl2]|(u2 & Hnz2 & Hfresh2 & Hu2 & Hl2)]); simpl.
  - wp_bind. wp_use kfree_spec; [done| | |done].
    + rewrite Hl2, Hl1, lookup_insert_eq. eauto.
    + intros [] h3 (? & Hl3). apply wp_ret. split; [done|].
      rewrite Hl3, Hl2, Hl1, delete_insert_eq. by apply delete_id.
  - destruct (Z.eqb_spec d 0); [done|]. apply wp_ret. split; [done|].
    assert (d ≠ p) by (intros ->; rewrite Hl1, lookup_insert_eq in Hfresh2; done).
    unfold q_ok, q_owns, q_frame; simpl. rewrite Hl2, Hl1. split_and!; try done.
    + split; simpl; autorewrite with zlist; lia.
    + rewrite lookup_insert_ne, lookup_insert_eq by done. eauto.
    + exists u2. rewrite lookup_insert_eq. split; [done|lia].
    + rewrite Hl1 in Hfresh2. rewrite delete_insert_id by done.
      rewrite delete_insert_eq. by apply delete_id.
Qed.

Lemma q_destroy_spec h q :
  q_ok (h, q) → q_elems q = [] →
  wp (q_destroy q) (λ _ h', kinv h' ∧ klive h' = q_frame (h, q)) (λ _ _, False) h.
Proof.
  intros (Hk & Hwf & Hself & Hlive & Hne & u & Hu & _) He. simpl in *.
  unfold q_destroy. wp_bind. apply wp_kassert; [by apply q_empty_iff|].
  wp_bind. wp_use kfree_spec; [done|eauto| |done].
  intros [] h1 (Hk1 & Hl1). wp_use kfree_spec; [done| | |done].
  - by rewrite Hl1, lookup_delete_ne by done.
  - intros [] h2 (? & ->). split; [done|]. by rewrite Hl1.
Qed.

End proofs.

(** ** Refinement: any run of the ring buffer is a run of a list *)

Inductive qop (A : Type) := QAdd (x : A) | QRem.
Arguments QAdd {A} _.
Arguments QRem {A}.

(** The specification: add at the end, remove at the front; [None] when the
    program removes from an empty queue. *)
Fixpoint list_run {A} (ops : list (qop A)) (l : list (option A))
  : option (list (option A) * list (option A)) :=
  match ops with
  | [] => Some ([], l)
  | QAdd x :: ops => list_run ops (l ++ [Some x])
  | QRem :: ops =>
      match l with
      | [] => None
      | x :: l => '(out, l') ← list_run ops l; Some (x :: out, l')
      end
  end.

Section refinement.
Context {H : Type} `{!Kmem H} `{!KmemOk H} {A : Type}.
Implicit Types (q : queue A) (s : H * queue A).

(** The implementation run on the same operations. *)
Fixpoint q_run (ops : list (qop A)) : M (H * queue A) (list (option A)) :=
  match ops with
  | [] => ret []
  | QAdd x :: ops => q_addtail x ;;; q_run ops
  | QRem :: ops => let! x := q_remhead in let! out := q_run ops in ret (x :: out)
  end.

(** C29 Whatever sequence of [q_addtail] and [q_remhead] is run, the ring
    buffer, with its wrap-around and its reallocations, hands out the same
    elements in the same order as a first-in first-out list; a run stops
    early only with ENOMEM, and never touches other heap blocks. *)
Theorem queue_refines_list ops s out l' :
  q_ok s → q_size s.2 < 268435456 →
  zlen (q_elems s.2) + zlen ops < 134217726 →
  list_run ops (q_elems s.2) = Some (out, l') →
  wp (q_run ops)
     (λ r s', r = out ∧ q_elems s'.2 = l' ∧ q_ok s' ∧ q_frame s' = q_frame s)
     (λ e _, e = ENOMEM) s.
Proof.
  revert s out. induction ops as [|[x|] ops IH]; intros s out Hok Hsz Hlen Hrun;
    rewrite ?zlen_cons in Hlen.
  - simplify_eq/=. by apply wp_ret.
  - pose proof (zlen_nonneg ops). simpl in *. wp_bind. wp_use q_addtail_spec; [done|done| |by intros e s' (_ & -> & _)].
    intros [] s1 (Hok1 & He1 & Hs1 & Hf1 & Hm1). wp_use IH; [done|lia|..].
    + rewrite He1. autorewrite with zlist. lia.
    + rewrite He1. done.
    + intros r s2 (? & ? & ? & ?). split_and!; congruence.
    + done.
  - pose proof (zlen_nonneg ops). simpl in *.
    destruct (q_elems s.2) as [|x l] eqn:He; [done|].
    destruct (list_run ops l) as [[out1 l1]|] eqn:Hl; simplify_eq/=.
    wp_bind. wp_use q_remhead_spec; [done|done| |done].
    intros r s1 (-> & Hok1 & _ & He1 & Hs1 & Hf1). rewrite zlen_cons in Hlen. wp_bind.
    wp_use IH; [done|lia|rewrite He1; lia|by rewrite He1| |done].
    intros r s2 (-> & ? & ? & ?). apply wp_ret. split_and!; congruence.
Qed.

(** A queue preallocated for [n] elements takes [n - 1] of them without
    asking for memory. *)
Theorem q_preallocate_then_addtail s n x :
  q_ok s → zlen (q_elems s.2) < n - 1 → q_size s.2 < 268435456 → n ≤ 268435456 →
  wp (q_preallocate n)
     (λ _ s1, wp (q_addtail x)
        (λ _ s', q_elems s'.2 = q_elems s.2 ++ [Some x] ∧ q_ok s') (λ _ _, False) s1)
     (λ e s', e = ENOMEM ∧ s'.2 = s.2) s.
Proof.
  intros Hok Hc Hsz Hn. wp_use q_preallocate_spec; [done|lia| |by intros e s' (? & ? & ? & _)].
  intros [] [h1 q1] (Hok1 & He1 & Hs1 & _ & _). pose proof Hok1 as (_ & Hwf1 & _).
  simpl in *. unfold wp, q_addtail. rewrite <- He1, zlen_elems in Hc by done.
  rewrite q_addtail_room by (done || lia). rewrite <- He1.
  split; [apply q_push_elems; done || lia|by apply q_push_ok].
Qed.

End refinement.

(** ** Witnesses *)

Definition toy_queue : Toy.heap * queue Z :=
  (Toy.mkheap 64 1000 (<[16 := 16]> {[32 := 16]}),
   mkqueue 16 4 1 3 32 [Some 7; None; None; Some 6]).

Lemma toy_queue_ok : q_ok toy_queue.
Proof.
  split_and!.
  - split; [done|]. intros p sz Hp. simpl in Hp.
    destruct (decide (p = 16)) as [->|]; [done|].
    rewrite lookup_insert_ne in Hp by done. apply lookup_singleton_Some in Hp. naive_solver lia.
  - by split.
  - split_and!; [done|by eexists|done|]. by exists 16.
Qed.

(** Two additions overflow the four slots, so the queue is reallocated. *)
Lemma queue_refines_list_witness :
  wp (q_run [QAdd 8; QAdd 9; QRem; QRem; QRem])
     (λ r s', r = [Some 6; Some 7; Some 8] ∧ q_elems s'.2 = [Some 9])
     (λ e _, e = ENOMEM) toy_queue.
Proof.
  eapply wp_mono; [apply (queue_refines_list _ toy_queue [Some 6; Some 7; Some 8] [Some 9]);
    [exact toy_queue_ok|reflexivity..]|..].
  - intros r s' (-> & -> & _ & _). split; reflexivity.
  - done.
Defined.

Lemma q_preallocate_then_addtail_witness :
  wp (q_preallocate 9)
     (λ _ s1, wp (q_addtail 5) (λ _ s', q_elems s'.2 = [Some 6; Some 7; Some 5])
                (λ _ _, False) s1)
     (λ _ _, True) toy_queue.
Proof.
  eapply wp_mono; [apply (q_preallocate_then_addtail toy_queue 9 5);
    [exact toy_queue_ok|done..]|..].
  - intros [] s1 Hs1. eapply wp_mono; [exact Hs1|..]; [|done]. intros _ s' [Hc _]. exact Hc.
  - done.
Defined.
