(* ===== verification/KBitmap.v ===== *)
(** * Bitmaps (kern/lib/bitmap.c)

    The free-block map of the file system: a vector of bytes, bit [i] of the
    map being bit [i mod 8] of byte [i / 8]. *)

From S2P Require Import Prelude Kmem.

Definition BITS_PER_WORD : Z := 8.
Definition WORD_ALLBITS : Z := 255.
Definition sizeof_struct_bitmap : Z := 8.

(** [b_vptr] is the address of the block [b->v]; [b_v] holds its bytes. *)
Record bitmap := mkbitmap {
  b_self : Z;
  nbits : Z;
  b_vptr : Z;
  b_v : list Z;
}.

Definition set_v (l : list Z) (b : bitmap) : bitmap :=
  mkbitmap (b_self b) (nbits b) (b_vptr b) l.

(** [b->v[ix]]; an access outside the block is reported as a panic. *)
Definition load_v (ix : Z) : M bitmap Z := λ b,
  match zget (b_v b) ix with Some w => Ok w b | None => Panic end.
Definition store_v (ix w : Z) : M bitmap unit := λ b,
  if (0 <=? ix) && (ix <? zlen (b_v b)) then Ok tt (set_v (zset (b_v b) ix w) b)
  else Panic.

(** [for (j=overbits; j<BITS_PER_WORD; j++) w |= 1 << j]. *)
Fixpoint mark_over (fuel : nat) (j w : Z) : Z :=
  match fuel with
  | O => w
  | S fuel' =>
      if j <? BITS_PER_WORD
      then mark_over fuel' (j + 1) (u8 (Z.lor w (Z.shiftl 1 j))) else w
  end.

Section create.
Context {H : Type} `{!Kmem H}.

Definition bitmap_create (n : Z) : M H (option bitmap) :=
  let words := u32 (u32 (n + BITS_PER_WORD) - 1) / BITS_PER_WORD in
  let! p := kmalloc sizeof_struct_bitmap in
  if p =? 0 then ret None
  else
    let! vp := kmalloc words in
    if vp =? 0 then kfree p ;;; ret None
    else
      let v0 := replicate (Z.to_nat words) 0 in
      if n / BITS_PER_WORD <? words then
        let ix := words - 1 in
        let overbits := n - ix * BITS_PER_WORD in
        kassert (n / BITS_PER_WORD =? words - 1) ;;;
        kassert ((overbits >? 0) && (overbits <? BITS_PER_WORD)) ;;;
        ret (Some (mkbitmap p n vp (zset v0 ix (mark_over 8 overbits 0))))
      else ret (Some (mkbitmap p n vp v0)).

Definition bitmap_destroy (b : bitmap) : M H unit :=
  kfree (b_vptr b) ;;; kfree (b_self b).

End create.

Definition bitmap_getdata (b : bitmap) : list Z := b_v b.

(** The inner loop of [bitmap_alloc]: the first clear bit of a byte. *)
Fixpoint scan_bits (fuel : nat) (w offset : Z) : option Z :=
  match fuel with
  | O => None
  | S fuel' =>
      if offset <? BITS_PER_WORD then
        let mask := u8 (Z.shiftl 1 offset) in
        if Z.land w mask =? 0 then Some offset else scan_bits fuel' w (offset + 1)
      else None
  end.

(** The outer loop, over the bytes from [ix] on. *)
Fixpoint scan_words (fuel : nat) (ix maxix : Z) : M bitmap Z :=
  match fuel with
  | O => fail ENOSPC
  | S fuel' =>
      if ix <? maxix then
        let! w := load_v ix in
        if negb (w =? WORD_ALLBITS) then
          match scan_bits 8 w 0 with
          | Some offset =>
              let mask := u8 (Z.shiftl 1 offset) in
              store_v ix (Z.lor w mask) ;;;
              let index := u32 (ix * BITS_PER_WORD + offset) in
              let! b := get in
              kassert (index <? nbits b) ;;;
              ret index
          | None => panic
          end
        else scan_words fuel' (ix + 1) maxix
      else fail ENOSPC
  end.

Definition bitmap_alloc : M bitmap Z :=
  let! b := get in
  let maxix := u32 (u32 (nbits b + BITS_PER_WORD) - 1) / BITS_PER_WORD in
  scan_words (Z.to_nat maxix) 0 maxix.

(** The byte index and the mask of a bit. *)
Definition bitmap_translate (bitno : Z) : Z * Z :=
  (bitno / BITS_PER_WORD, u8 (Z.shiftl 1 (bitno mod BITS_PER_WORD))).

Definition bitmap_mark (index : Z) : M bitmap unit :=
  let! b := get in
  kassert (index <? nbits b) ;;;
  let '(ix, mask) := bitmap_translate index in
  let! w := load_v ix in
  kassert (Z.land w mask =? 0) ;;;
  store_v ix (Z.lor w mask).

Definition bitmap_unmark (index : Z) : M bitmap unit :=
  let! b := get in
  kassert (index <? nbits b) ;;;
  let '(ix, mask) := bitmap_translate index in
  let! w := load_v ix in
  kassert (negb (Z.land w mask =? 0)) ;;;
  store_v ix (u8 (Z.land w (Z.lnot mask))).

(** The result is the masked byte: nonzero when the bit is set. *)
Definition bitmap_isset (index : Z) : M bitmap Z :=
  let '(ix, mask) := bitmap_translate index in
  let! w := load_v ix in
  ret (Z.land w mask).

(** ** Specification: a set of bit numbers *)

Definition bit_set (b : bitmap) (i : Z) : bool :=
  Z.testbit (default 0 (zget (b_v b) (i / 8))) (i mod 8).

Record bitmap_wf (b : bitmap) : Prop := {
  bm_nbits : 0 ≤ nbits b ≤ 4294967280;
  bm_len : zlen (b_v b) = DIVROUNDUP (nbits b) 8;
  bm_bytes : Forall (λ w, 0 ≤ w < 256) (b_v b);
}.

(** The bits past the end of the map are marked in use. *)
Definition bitmap_padded (b : bitmap) : Prop :=
  ∀ i, nbits b ≤ i < 8 * zlen (b_v b) → bit_set b i = true.

(** [b'] is [b] with bit [i] set to [x]. *)
Definition bit_update (b b' : bitmap) (i : Z) (x : bool) : Prop :=
  b_self b' = b_self b ∧ nbits b' = nbits b ∧ b_vptr b' = b_vptr b ∧
  ∀ j, 0 ≤ j → bit_set b' j = if decide (j = i) then x else bit_set b j.

(** ** Bit lemmas *)

Lemma mask_pow2 o : 0 ≤ o < 8 → u8 (Z.shiftl 1 o) = 2 ^ o.
Proof.
  intros Ho. rewrite Z.shiftl_1_l. unfold u8. apply Z.mod_small. split; [lia|].
  change 256 with (2 ^ 8). apply Z.pow_lt_mono_r; lia.
Qed.

Lemma land_mask_zero w o :
  0 ≤ o < 8 → (Z.land w (u8 (Z.shiftl 1 o)) =? 0) = negb (Z.testbit w o).
Proof.
  intros Ho. rewrite mask_pow2, land_pow2 by lia.
  destruct (Z.testbit w o); [|done]. apply Z.eqb_neq. pose proof (Z.pow_pos_nonneg 2 o). lia.
Qed.

Lemma byte_high_bits w j : 0 ≤ w < 256 → 8 ≤ j → Z.testbit w j = false.
Proof.
  intros Hw Hj. destruct (decide (w = 0)) as [->|]; [apply Z.bits_0|].
  apply Z.bits_above_log2; [lia|].
  assert (Z.log2 w < 8); [|lia]. apply Z.log2_lt_pow2; lia.
Qed.

(** A byte is what its low eight bits say. *)
Lemma byte_of_bits x : (∀ j, 8 ≤ j → Z.testbit x j = false) → 0 ≤ x < 256 ∨ x < 0.
Proof.
  intros Hb. destruct (decide (x < 0)); [by right|left]. split; [lia|].
  destruct (decide (x < 256)); [done|]. exfalso.
  assert (8 ≤ Z.log2 x). { apply Z.log2_le_pow2; lia. }
  specialize (Hb (Z.log2 x)). rewrite Z.bit_log2 in Hb by lia. naive_solver.
Qed.

Lemma lor_byte w o : 0 ≤ w < 256 → 0 ≤ o < 8 → 0 ≤ Z.lor w (2 ^ o) < 256.
Proof.
  intros Hw Ho. destruct (byte_of_bits (Z.lor w (2 ^ o))) as [?|Hneg]; [|done|].
  - intros j Hj. rewrite testbit_set by lia. case_decide; [lia|]. by apply byte_high_bits.
  - apply Z.lor_neg in Hneg as [?|Hneg]; [lia|]. pose proof (Z.pow_pos_nonneg 2 o). lia.
Qed.

Lemma land_lnot_byte w o :
  0 ≤ w < 256 → 0 ≤ o < 8 → 0 ≤ Z.land w (Z.lnot (2 ^ o)) < 256.
Proof.
  intros Hw Ho. destruct (byte_of_bits (Z.land w (Z.lnot (2 ^ o)))) as [?|Hneg]; [|done|].
  - intros j Hj. rewrite testbit_clear by lia. case_decide; [done|]. by apply byte_high_bits.
  - apply Z.land_neg in Hneg as [? ?]. lia.
Qed.

Lemma byte_all_ones w : 0 ≤ w < 256 → (∀ j, 0 ≤ j < 8 → Z.testbit w j = true) → w = 255.
Proof.
  intros Hw Hb. apply Z.bits_inj'. intros j Hj. change 255 with (Z.ones 8).
  destruct (decide (j < 8)).
  - by rewrite Hb, Z.ones_spec_low by lia.
  - by rewrite byte_high_bits, Z.ones_spec_high by lia.
Qed.

Lemma byte_255_bits j : 0 ≤ j < 8 → Z.testbit 255 j = true.
Proof. intros. change 255 with (Z.ones 8). by apply Z.ones_spec_low. Qed.

Lemma scan_bits_spec fuel w o :
  0 ≤ o → o + Z.of_nat fuel = 8 →
  match scan_bits fuel w o with
  | Some o' => o ≤ o' < 8 ∧ Z.testbit w o' = false ∧
               ∀ j, o ≤ j < o' → Z.testbit w j = true
  | None => ∀ j, o ≤ j < 8 → Z.testbit w j = true
  end.
Proof.
  revert o. induction fuel as [|fuel IH]; intros o Ho Hf; simpl; [intros; lia|].
  unfold BITS_PER_WORD. destruct (Z.ltb_spec o 8); [|lia].
  rewrite land_mask_zero by lia. destruct (Z.testbit w o) eqn:E; simpl.
  - specialize (IH (o + 1)). destruct (scan_bits fuel w (o + 1)).
    + destruct IH as (? & ? & Hj); [lia..|]. split_and!; [lia|lia|done|].
      intros j ?. destruct (decide (j = o)) as [->|]; [done|]. apply Hj. lia.
    + intros j ?. destruct (decide (j = o)) as [->|]; [done|]. apply IH; lia.
  - split_and!; [lia|lia|done|]. intros; lia.
Qed.

#[global] Arguments scan_bits : simpl never.

(** ** Updating one bit *)

Lemma DIVROUNDUP_bounds n : 0 ≤ n → n ≤ 8 * DIVROUNDUP n 8 < n + 8.
Proof. intros. unfold DIVROUNDUP. Z.div_mod_to_equations. lia. Qed.

Lemma zget_byte b ix w :
  bitmap_wf b → zget (b_v b) ix = Some w → 0 ≤ w < 256.
Proof.
  intros [_ _ Hb] Hw. unfold zget in Hw. case_decide; [|done].
  exact (Forall_lookup_1 _ _ _ _ Hb Hw).
Qed.

Lemma set_byte_wf b ix w :
  bitmap_wf b → 0 ≤ w < 256 → bitmap_wf (set_v (zset (b_v b) ix w) b).
Proof.
  intros [Hn Hl Hb] Hw. split; simpl; [done|by rewrite zlen_zset|].
  unfold zset. case_decide; [|done]. by apply Forall_insert.
Qed.

Lemma set_byte_bits b i w x :
  0 ≤ i < 8 * zlen (b_v b) →
  (∀ j, Z.testbit w j = if decide (j = i mod 8) then x
                        else Z.testbit (default 0 (zget (b_v b) (i / 8))) j) →
  bit_update b (set_v (zset (b_v b) (i / 8) w) b) i x.
Proof.
  intros Hi Hw. split_and!; try done. intros j Hj. unfold bit_set; simpl.
  assert (0 ≤ i / 8 < zlen (b_v b)) by (Z.div_mod_to_equations; lia).
  destruct (decide (j / 8 = i / 8)) as [He|Hne].
  - rewrite He, zget_zset_eq by done. simpl. rewrite Hw.
    assert (j mod 8 = i mod 8 ↔ j = i) by (Z.div_mod_to_equations; lia).
    repeat case_decide; tauto || done.
  - rewrite zget_zset_ne by done. case_decide; [congruence|done].
Qed.

Lemma bitmap_words b :
  bitmap_wf b → u32 (u32 (nbits b + BITS_PER_WORD) - 1) / BITS_PER_WORD = zlen (b_v b).
Proof.
  intros [Hn Hl _]. rewrite Hl. unfold BITS_PER_WORD, DIVROUNDUP.
  rewrite (u32_small (nbits b + 8)) by lia. rewrite u32_small by lia. done.
Qed.

(** ** Correctness of the routines *)

Lemma load_v_spec b ix Q E :
  0 ≤ ix < zlen (b_v b) → (∀ w, zget (b_v b) ix = Some w → Q w b) → wp (load_v ix) Q E b.
Proof.
  intros Hix HQ. destruct (zget_is_Some (b_v b) ix Hix) as [w Hw].
  unfold wp, load_v. rewrite Hw. auto.
Qed.
Lemma store_v_spec b ix w Q E :
  0 ≤ ix < zlen (b_v b) → Q tt (set_v (zset (b_v b) ix w) b) → wp (store_v ix w) Q E b.
Proof.
  intros Hix HQ. unfold wp, store_v.
  replace ((0 <=? ix) && (ix <? zlen (b_v b))) with true by lia. done.
Qed.

Definition alloc_post (b : bitmap) (i : Z) (b' : bitmap) : Prop :=
  bitmap_wf b' ∧ 0 ≤ i < nbits b ∧ bit_set b i = false ∧
  (∀ j, 0 ≤ j < i → bit_set b j = true) ∧ bit_update b b' i true.
Definition full_post (b : bitmap) (e : errno) (b' : bitmap) : Prop :=
  e = ENOSPC ∧ b' = b ∧ ∀ j, 0 ≤ j < nbits b → bit_set b j = true.

Lemma byte_of_bit i ix o : 0 ≤ o < 8 → i = 8 * ix + o → i / 8 = ix ∧ i mod 8 = o.
Proof. intros. Z.div_mod_to_equations. lia. Qed.

Lemma scan_words_spec b fuel ix :
  bitmap_wf b → bitmap_padded b → 0 ≤ ix → ix + Z.of_nat fuel = zlen (b_v b) →
  (∀ j, 0 ≤ j < 8 * ix → bit_set b j = true) →
  wp (scan_words fuel ix (zlen (b_v b))) (alloc_post b) (full_post b) b.
Proof.
  intros Hwf Hpad. revert ix. induction fuel as [|fuel IH]; intros ix Hix Hf Hset; simpl.
  { split_and!; try done. intros j Hj. apply Hset.
    pose proof (DIVROUNDUP_bounds (nbits b)). destruct Hwf. lia. }
  destruct (Z.ltb_spec ix (zlen (b_v b))); [|lia].
  wp_bind. apply load_v_spec; [lia|]. intros w Hw.
  pose proof (zget_byte b ix w Hwf Hw) as Hwb.
  assert (Hbits : ∀ j o, 0 ≤ o < 8 → j = 8 * ix + o → bit_set b j = Z.testbit w o).
  { intros j o Ho Hj. unfold bit_set. destruct (byte_of_bit j ix o Ho Hj) as [-> ->].
    by rewrite Hw. }
  destruct (Z.eqb_spec w WORD_ALLBITS) as [->|Hne]; simpl.
  - apply IH; [lia|lia|]. intros j Hj. destruct (decide (j < 8 * ix)); [apply Hset; lia|].
    rewrite (Hbits j (j - 8 * ix)) by lia. apply byte_255_bits. lia.
  - pose proof (scan_bits_spec 8 w 0) as Hscan.
    destruct (scan_bits 8 w 0) as [o|].
    2: { exfalso. apply Hne, byte_all_ones; [done|]. intros j ?. apply Hscan; lia. }
    destruct Hscan as (Ho & Hclear & Hlow); [lia..|]. rewrite mask_pow2 by lia.
    pose proof (byte_of_bit (8 * ix + o) ix o Ho eq_refl) as [Hd Hm].
    assert (Hlt : 8 * ix + o < nbits b).
    { apply Z.nle_gt. intros Hge.
      rewrite <- (Hbits (8 * ix + o) o) in Hclear by lia. rewrite Hpad in Hclear; [done|lia]. }
    wp_bind. apply store_v_spec; [lia|]. wp_bind. apply wp_get. wp_bind.
    pose proof Hwf as [Hn _ _].
    rewrite u32_small by (unfold BITS_PER_WORD; lia).
    unfold BITS_PER_WORD. replace (ix * 8 + o) with (8 * ix + o) by lia.
    apply wp_kassert; [simpl; lia|]. apply wp_ret. split_and!.
    + apply set_byte_wf; [done|]. by apply lor_byte.
    + lia.
    + lia.
    + by rewrite (Hbits _ o).
    + intros j Hj. destruct (decide (j < 8 * ix)); [apply Hset; lia|].
      rewrite (Hbits j (j - 8 * ix)) by lia. apply Hlow. lia.
    + rewrite <- Hd at 1. apply set_byte_bits; [lia|]. intros j. rewrite testbit_set by lia.
      by rewrite Hd, Hm, Hw.
Qed.

Lemma bitmap_alloc_spec b :
  bitmap_wf b → bitmap_padded b → wp bitmap_alloc (alloc_post b) (full_post b) b.
Proof.
  intros Hwf Hpad. unfold bitmap_alloc. wp_bind. apply wp_get.
  rewrite bitmap_words by done. apply scan_words_spec; try done.
  - pose proof (zlen_nonneg (b_v b)). lia.
  - intros. lia.
Qed.

Lemma bit_in_range b i : bitmap_wf b → 0 ≤ i < nbits b →
  0 ≤ i < 8 * zlen (b_v b) ∧ 0 ≤ i / 8 < zlen (b_v b) ∧ 0 ≤ i mod 8 < 8.
Proof.
  intros [? Hl _] Hi. rewrite Hl. pose proof (DIVROUNDUP_bounds (nbits b)).
  Z.div_mod_to_equations. lia.
Qed.

Lemma bitmap_mark_spec b i :
  bitmap_wf b → 0 ≤ i < nbits b → bit_set b i = false →
  wp (bitmap_mark i) (λ _ b', bitmap_wf b' ∧ bit_update b b' i true) (λ _ _, False) b.
Proof.
  intros Hwf Hi Hc. destruct (bit_in_range b i Hwf Hi) as (? & ? & ?).
  unfold bitmap_mark, bitmap_translate, BITS_PER_WORD. wp_bind. apply wp_get.
  wp_bind. apply wp_kassert; [lia|]. wp_bind. apply load_v_spec; [done|]. intros w Hw.
  pose proof (zget_byte _ _ _ Hwf Hw).
  assert (Z.testbit w (i mod 8) = false) as Hb by (unfold bit_set in Hc; by rewrite Hw in Hc).
  rewrite land_mask_zero, Hb, mask_pow2 by done. wp_bind. apply wp_kassert; [done|].
  apply store_v_spec; [done|]. split; [apply set_byte_wf; auto using lor_byte|].
  apply set_byte_bits; [done|]. intros j. rewrite testbit_set, Hw by lia. done.
Qed.

Lemma bitmap_unmark_spec b i :
  bitmap_wf b → 0 ≤ i < nbits b → bit_set b i = true →
  wp (bitmap_unmark i) (λ _ b', bitmap_wf b' ∧ bit_update b b' i false) (λ _ _, False) b.
Proof.
  intros Hwf Hi Hc. destruct (bit_in_range b i Hwf Hi) as (? & ? & ?).
  unfold bitmap_unmark, bitmap_translate, BITS_PER_WORD. wp_bind. apply wp_get.
  wp_bind. apply wp_kassert; [lia|]. wp_bind. apply load_v_spec; [done|]. intros w Hw.
  pose proof (zget_byte _ _ _ Hwf Hw).
  assert (Z.testbit w (i mod 8) = true) as Hb by (unfold bit_set in Hc; by rewrite Hw in Hc).
  rewrite land_mask_zero, Hb, mask_pow2 by done. wp_bind. apply wp_kassert; [done|].
  pose proof (land_lnot_byte w (i mod 8)). unfold u8. rewrite Z.mod_small by lia.
  apply store_v_spec; [done|]. split; [apply set_byte_wf; auto|].
  apply set_byte_bits; [done|]. intros j. rewrite testbit_clear, Hw by lia. done.
Qed.

Lemma bitmap_isset_spec b i :
  bitmap_wf b → 0 ≤ i < nbits b →
  wp (bitmap_isset i) (λ r b', b' = b ∧ (r ≠ 0 ↔ bit_set b i = true)) (λ _ _, False) b.
Proof.
  intros Hwf Hi. destruct (bit_in_range b i Hwf Hi) as (? & ? & ?).
  unfold bitmap_isset, bitmap_translate, BITS_PER_WORD. wp_bind.
  apply load_v_spec; [done|]. intros w Hw. apply wp_ret. split; [done|].
  unfold bit_set. rewrite Hw; simpl. rewrite <- Z.eqb_neq, land_mask_zero by done.
  destruct (Z.testbit w (i mod 8)); naive_solver.
Qed.

Lemma mark_over_bits (fuel : nat) (j w : Z) :
  0 ≤ w < 256 → 0 ≤ j → 8 ≤ j + Z.of_nat fuel →
  0 ≤ mark_over fuel j w < 256 ∧
  ∀ k, 0 ≤ k < 8 → Z.testbit (mark_over fuel j w) k = orb (Z.leb j k) (Z.testbit w k).
Proof.
  revert j w. induction fuel as [|fuel IH]; intros j w Hw Hj Hf; simpl.
  { split; [done|]. intros k Hk. destruct (Z.leb_spec j k); [lia|done]. }
  unfold BITS_PER_WORD. destruct (Z.ltb_spec j 8).
  - rewrite Z.shiftl_1_l. pose proof (lor_byte w j). unfold u8. rewrite Z.mod_small by lia.
    destruct (IH (j + 1) (Z.lor w (2 ^ j))) as [? Hb]; [lia..|]. split; [done|].
    intros k Hk. rewrite Hb, testbit_set by lia. case_decide; lia || subst;
      destruct (Z.testbit w j), (Z.testbit w k), (Z.leb_spec (j + 1) k), (Z.leb_spec j k);
      simpl; done || lia.
  - split; [done|]. intros k Hk. destruct (Z.leb_spec j k); [lia|done].
Qed.

(** The two heap blocks of a bitmap, the second big enough for its bytes. *)
Definition bitmap_owns {H} `{!Kmem H, !KmemOk H} (h : H) (b : bitmap) : Prop :=
  is_Some (klive h !! b_self b) ∧ b_vptr b ≠ b_self b ∧
  ∃ usable, klive h !! b_vptr b = Some usable ∧ zlen (b_v b) ≤ usable.
Definition bitmap_frame {H} `{!Kmem H, !KmemOk H} (h : H) (b : bitmap) : gmap Z Z :=
  delete (b_self b) (delete (b_vptr b) (klive h)).

(** What [bitmap_create] stores in the new block. *)
Definition fresh_bytes (n : Z) : list Z :=
  let words := DIVROUNDUP n 8 in
  let v0 := replicate (Z.to_nat words) 0 in
  if n / 8 <? words then zset v0 (words - 1) (mark_over 8 (n - (words - 1) * 8) 0) else v0.

Lemma zget_zeros n i : zget (replicate n 0) i = Some 0 ∨ zget (replicate n 0) i = None.
Proof.
  unfold zget. case_decide; [|by right]. destruct (replicate n 0 !! _) eqn:E; [|by right].
  apply lookup_replicate in E as [-> _]. by left.
Qed.

Lemma fresh_bytes_spec p vp n :
  0 ≤ n ≤ 4294967280 →
  let b := mkbitmap p n vp (fresh_bytes n) in
  bitmap_wf b ∧ bitmap_padded b ∧ ∀ i, 0 ≤ i < n → bit_set b i = false.
Proof.
  intros Hn. pose proof (DIVROUNDUP_bounds n) as Hd. simpl. unfold fresh_bytes.
  set (words := DIVROUNDUP n 8) in *.
  destruct (mark_over_bits 8 (n - (words - 1) * 8) 0) as [Hb Hbits]; [lia..|].
  set (w := mark_over 8 (n - (words - 1) * 8) 0) in *.
  assert (Hz : Forall (λ x, 0 ≤ x < 256) (replicate (Z.to_nat words) 0))
    by (apply Forall_replicate; lia).
  assert (Hzero : ∀ i, zget (replicate (Z.to_nat words) 0) i = Some 0 ∨
                       zget (replicate (Z.to_nat words) 0) i = None) by apply zget_zeros.
  destruct (Z.ltb_spec (n / 8) words).
  - split_and!.
    + split; simpl; [done|by autorewrite with zlist; lia|].
      unfold zset. case_decide; [by apply Forall_insert|done].
    + intros i Hi. unfold bit_set; simpl in *. autorewrite with zlist in Hi.
      assert (i / 8 = words - 1) as -> by (Z.div_mod_to_equations; lia).
      rewrite zget_zset_eq by (autorewrite with zlist; lia). simpl.
      rewrite Hbits by (Z.div_mod_to_equations; lia).
      assert (n - (words - 1) * 8 ≤ i mod 8) by (Z.div_mod_to_equations; lia).
      destruct (Z.leb_spec (n - (words - 1) * 8) (i mod 8)); [done|lia].
    + intros i Hi. unfold bit_set; simpl. destruct (decide (i / 8 = words - 1)) as [Hq|Hq].
      * rewrite Hq, zget_zset_eq by (autorewrite with zlist; lia). simpl.
        rewrite Hbits, Z.bits_0, orb_false_r by (Z.div_mod_to_equations; lia).
        apply Z.leb_gt. Z.div_mod_to_equations; lia.
      * rewrite zget_zset_ne by done. destruct (Hzero (i / 8)) as [->| ->]; apply Z.bits_0.
  - assert (n = 8 * words) by (Z.div_mod_to_equations; lia). split_and!.
    + split; simpl; [done|by autorewrite with zlist; lia|done].
    + intros i Hi. simpl in Hi. autorewrite with zlist in Hi. lia.
    + intros i Hi. unfold bit_set; simpl. destruct (Hzero (i / 8)) as [->| ->]; apply Z.bits_0.
Qed.

Lemma bitmap_create_bytes {H} `{!Kmem H} (h : H) n :
  0 ≤ n ≤ 4294967280 →
  bitmap_create n h =
  (let! p := kmalloc sizeof_struct_bitmap in
   if p =? 0 then ret None
   else let! vp := kmalloc (DIVROUNDUP n 8) in
        if vp =? 0 then kfree p ;;; ret None
        else ret (Some (mkbitmap p n vp (fresh_bytes n)))) h.
Proof.
  intros Hn. pose proof (DIVROUNDUP_bounds n) as Hd.
  unfold bitmap_create, fresh_bytes, BITS_PER_WORD.
  rewrite (u32_small (n + 8)), u32_small by lia.
  change ((n + 8 - 1) / 8) with (DIVROUNDUP n 8).
  unfold bind. destruct (kmalloc sizeof_struct_bitmap h); try done.
  case_match; [done|]. destruct (kmalloc (DIVROUNDUP n 8) s); try done. case_match; [done|].
  destruct (Z.ltb_spec (n / 8) (DIVROUNDUP n 8)); [|done]. unfold kassert.
  replace (n / 8 =? DIVROUNDUP n 8 - 1) with true by (Z.div_mod_to_equations; lia).
  replace ((n - (DIVROUNDUP n 8 - 1) * 8 >? 0) && (n - (DIVROUNDUP n 8 - 1) * 8 <? 8))
    with true by (Z.div_mod_to_equations; lia). done.
Qed.

Lemma bitmap_create_spec {H} `{!Kmem H, !KmemOk H} (h : H) n :
  kinv h → 0 ≤ n ≤ 4294967280 →
  wp (bitmap_create n)
     (λ o h', kinv h' ∧
        match o with
        | None => klive h' = klive h
        | Some b => nbits b = n ∧ bitmap_wf b ∧ bitmap_padded b ∧
                    (∀ i, 0 ≤ i < n → bit_set b i = false) ∧
                    bitmap_owns h' b ∧ bitmap_frame h' b = klive h
        end)
     (λ _ _, False) h.
Proof.
  intros Hk Hn. unfold wp. rewrite bitmap_create_bytes by done.
  apply wp_bind. pose proof (DIVROUNDUP_bounds n).
  wp_use kmalloc_spec; [done|done| |done].
  intros p h1 (Hk1 & [[-> Hl1]|(u & Hnz & Hfresh & Hu & Hl1)]); simpl; [done|].
  destruct (Z.eqb_spec p 0); [done|]. wp_bind.
  wp_use kmalloc_spec; [done|lia| |done].
  intros vp h2 (Hk2 & [[-> Hl2]|(u2 & Hnz2 & Hfresh2 & Hu2 & Hl2)]); simpl.
  - wp_bind. wp_use kfree_spec; [done| | |done].
    + rewrite Hl2, Hl1, lookup_insert_eq. eauto.
    + intros [] h3 (? & Hl3). apply wp_ret. split; [done|].
      rewrite Hl3, Hl2, Hl1, delete_insert_eq. by apply delete_id.
  - destruct (Z.eqb_spec vp 0); [done|]. apply wp_ret. split; [done|].
    destruct (fresh_bytes_spec p vp n Hn) as (Hwf & ? & ?).
    assert (vp ≠ p) by (intros ->; rewrite Hl1, lookup_insert_eq in Hfresh2; done).
    split_and!; try done; simpl.
    + unfold bitmap_owns; simpl. rewrite Hl2, Hl1. split_and!; try done.
      * rewrite lookup_insert_ne, lookup_insert_eq by done. eauto.
      * exists u2. rewrite lookup_insert_eq. split; [done|]. destruct Hwf as [_ Hl _].
        simpl in Hl. lia.
    + unfold bitmap_frame; simpl. rewrite Hl2. rewrite delete_insert_id by done.
      rewrite Hl1, delete_insert_eq. by apply delete_id.
Qed.

Lemma bitmap_destroy_spec {H} `{!Kmem H, !KmemOk H} (h : H) b :
  kinv h → bitmap_owns h b →
  wp (bitmap_destroy b) (λ _ h', kinv h' ∧ klive h' = bitmap_frame h b) (λ _ _, False) h.
Proof.
  intros Hk (Hs & Hne & u & Hv & _). unfold bitmap_destroy. wp_bind.
  wp_use kfree_spec; [done|by eexists| |done]. intros [] h1 (Hk1 & Hl1).
  wp_use kfree_spec; [done| | |done]; rewrite Hl1; [by rewrite lookup_delete_ne|].
  intros [] h2 (? & ->). done.
Qed.

(** ** The properties *)

(** [bitmap_alloc] returns the lowest clear bit of the map, sets it and
    changes no other bit; it fails, with ENOSPC and without changing the map,
    exactly when every bit is set.  Its two assertions never fire. *)
Theorem bitmap_alloc_correct b :
  bitmap_wf b → bitmap_padded b →
  wp bitmap_alloc
     (λ i b', bitmap_wf b' ∧ 0 ≤ i < nbits b ∧ bit_set b i = false ∧
              (∀ j, 0 ≤ j < i → bit_set b j = true) ∧ bit_update b b' i true)
     (λ e b', e = ENOSPC ∧ b' = b ∧ ∀ j, 0 ≤ j < nbits b → bit_set b j = true) b.
Proof. apply bitmap_alloc_spec. Qed.

(** Freeing a bit that [bitmap_alloc] handed out gives back the set of bits
    there was before. *)
Theorem bitmap_alloc_unmark b :
  bitmap_wf b → bitmap_padded b →
  wp (let! i := bitmap_alloc in bitmap_unmark i)
     (λ _ b', bitmap_wf b' ∧ nbits b' = nbits b ∧ ∀ j, 0 ≤ j → bit_set b' j = bit_set b j)
     (λ e b', e = ENOSPC ∧ b' = b) b.
Proof.
  intros Hwf Hpad. wp_bind. wp_use bitmap_alloc_spec; [done|done| |by intros e b' (-> & -> & _)].
  intros i b1 (Hwf1 & Hi & Hc & _ & (_ & Hn1 & _ & Hb1)).
  wp_use bitmap_unmark_spec; [done|lia| | |done].
  - rewrite Hb1 by lia. by rewrite decide_True.
  - intros [] b2 (Hwf2 & _ & Hn2 & _ & Hb2). split_and!; [done|congruence|].
    intros j Hj. rewrite Hb2, Hb1 by done. repeat case_decide; congruence.
Qed.

(** [bitmap_create n] either returns NULL with the heap as it was, or a map
    whose first [n] bits are clear and whose leftover bits are marked in use;
    the block it allocated holds all of its bytes. *)
Theorem bitmap_create_correct {H} `{!Kmem H, !KmemOk H} (h : H) n :
  kinv h → 0 ≤ n ≤ 4294967280 →
  wp (bitmap_create n)
     (λ o h', kinv h' ∧
        match o with
        | None => klive h' = klive h
        | Some b => nbits b = n ∧ bitmap_wf b ∧ bitmap_padded b ∧
                    (∀ i, 0 ≤ i < n → bit_set b i = false) ∧
                    bitmap_owns h' b ∧ bitmap_frame h' b = klive h
        end)
     (λ _ _, False) h.
Proof. apply bitmap_create_spec. Qed.

(** ** Witnesses: ten bits, of which 0, 1 and 3 are in use *)

Definition toy_bitmap : bitmap := mkbitmap 16 10 32 [11; 252].

Lemma toy_bitmap_wf : bitmap_wf toy_bitmap.
Proof. split; simpl; [done|done|]. repeat constructor; lia. Qed.

Lemma toy_bitmap_padded : bitmap_padded toy_bitmap.
Proof.
  intros i Hi. simpl in Hi. unfold zlen in Hi. simpl in Hi.
  assert (i = 10 ∨ i = 11 ∨ i = 12 ∨ i = 13 ∨ i = 14 ∨ i = 15) as Hc by lia.
  destruct_or! Hc; subst; reflexivity.
Qed.

Lemma bitmap_alloc_correct_witness :
  bitmap_alloc toy_bitmap = Ok 2 (mkbitmap 16 10 32 [15; 252]) ∧
  bit_set toy_bitmap 2 = false ∧ ∀ j, 0 ≤ j < 2 → bit_set toy_bitmap j = true.
Proof.
  pose proof (bitmap_alloc_correct toy_bitmap toy_bitmap_wf toy_bitmap_padded) as Hc.
  split; [reflexivity|]. unfold wp in Hc.
  change (bitmap_alloc toy_bitmap) with (@Ok bitmap Z 2 (mkbitmap 16 10 32 [15; 252])) in Hc.
  destruct Hc as (_ & _ & Hclear & Hlow & _). split; [exact Hclear|exact Hlow].
Defined.

Lemma bitmap_alloc_unmark_witness :
  wp (let! i := bitmap_alloc in bitmap_unmark i)
     (λ _ b', nbits b' = 10) (λ e _, e = ENOSPC) toy_bitmap.
Proof.
  eapply wp_mono; [apply (bitmap_alloc_unmark toy_bitmap);
    [exact toy_bitmap_wf|exact toy_bitmap_padded]|..].
  - intros _ b' (_ & Hn & _). exact Hn.
  - intros e b' [He _]. exact He.
Defined.

Lemma bitmap_create_correct_witness :
  wp (bitmap_create 10)
     (λ o _, match o with None => True | Some b => nbits b = 10 ∧ bitmap_padded b end)
     (λ _ _, False) (Toy.fresh 100).
Proof.
  eapply wp_mono; [apply (bitmap_create_correct (Toy.fresh 100) 10);
    [apply Toy.fresh_inv|lia]|..].
  - intros [b|] h' [_ Hb]; [|exact I]. destruct Hb as (Hn & _ & Hp & _). split; [exact Hn|exact Hp].
  - done.
Defined.
