(* ===== verification/Vm.v ===== *)
(** * Virtual memory (kern/vm/addrspace.c, kern/vm/vm.c, kern/userprog/mem.c,
      kern/arch/mips/include/tlb.h)

    An address space has a two-level page table; the physical pages of a
    program come from the coremap, the tables and the address spaces from
    the kernel heap on top of it.  A TLB miss enters [vm_fault], which
    looks the page up or maps a fresh one, and loads the TLB.  The routines
    run with interrupts off, so each is one step. *)

From S2P Require Import Prelude Kmem KPages Coremap KHeap.

Definition stack_size : Z := 5242880.
Definition heap_size : Z := 5242880.
Definition LEVEL1_SIZE : Z := 512.
Definition LEVEL2_SIZE : Z := 1024.
Definition page_frame_mask : Z := 1023.
Definition malloc_limit : Z := 131072.
Definition USERTOP : Z := MIPS_KSEG0.
Definition USERSTACK : Z := USERTOP.

Definition VM_FAULT_READ : Z := 0.
Definition VM_FAULT_WRITE : Z := 1.
Definition VM_FAULT_READONLY : Z := 2.

Definition NUM_TLB : Z := 64.
Definition TLBLO_DIRTY : Z := 1024.
Definition TLBLO_VALID : Z := 512.
Definition TLBHI_INVALID (entryno : Z) : Z := u32 (Z.shiftl (524288 + entryno) 12).
Definition TLBLO_INVALID : Z := 0.
Definition SPL_HIGH : Z := 15.

(** ** Data (kern/include/addrspace.h) *)

(** [coremap_Ptr] is the index of the coremap entry, nothing for NULL. *)
Record page_entry := mkpe {
  coremap_Ptr : option Z;
  page_address : Z;
  valid : Z;
}.
(** [paddr_t page_address: 20] and [u_int32_t valid: 1] *)
Definition page_address_field (x : Z) : Z := x mod 1048576.
Definition valid_field (x : Z) : Z := x mod 2.

Definition LV_2_PT : Type := list page_entry.
Definition sizeof_page_entry : Z := 8.
Definition sizeof_LV_2_PT : Z := 8192.

(** [as_v] is the vnode [v] and [lvone] the master page table: addresses of
    second-level tables, 0 for NULL. *)
Record addrspace := mkas {
  as_v : Z;
  EOStack : Z;
  heap_start : Z;
  heap_end : Z;
  as_npages2 : Z;
  as_npages1 : Z;
  as_vbase1 : Z;
  as_vbase2 : Z;
  lvone : list Z;
}.
Definition sizeof_addrspace : Z := 2080.

Definition set_EOStack (x : Z) (a : addrspace) : addrspace :=
  mkas (as_v a) x (heap_start a) (heap_end a) (as_npages2 a) (as_npages1 a)
       (as_vbase1 a) (as_vbase2 a) (lvone a).
Definition set_heap (lo hi : Z) (a : addrspace) : addrspace :=
  mkas (as_v a) (EOStack a) lo hi (as_npages2 a) (as_npages1 a)
       (as_vbase1 a) (as_vbase2 a) (lvone a).
Definition set_region1 (base n : Z) (a : addrspace) : addrspace :=
  mkas (as_v a) (EOStack a) (heap_start a) (heap_end a) (as_npages2 a) n
       base (as_vbase2 a) (lvone a).
Definition set_region2 (base n : Z) (a : addrspace) : addrspace :=
  mkas (as_v a) (EOStack a) (heap_start a) (heap_end a) n (as_npages1 a)
       (as_vbase1 a) base (lvone a).
Definition set_v (v : Z) (a : addrspace) : addrspace :=
  mkas v (EOStack a) (heap_start a) (heap_end a) (as_npages2 a) (as_npages1 a)
       (as_vbase1 a) (as_vbase2 a) (lvone a).
Definition set_lvone (l : list Z) (a : addrspace) : addrspace :=
  mkas (as_v a) (EOStack a) (heap_start a) (heap_end a) (as_npages2 a) (as_npages1 a)
       (as_vbase1 a) (as_vbase2 a) l.

(** The reference counts of vnodes, as this component uses them
    (VOP_INCREF and VOP_DECREF of kern/include/vnode.h). *)
Class Vref (V : Type) := {
  VOP_INCREF : Z → M V unit;
  VOP_DECREF : Z → M V unit;
}.
(** [vrefs v] gives the number of references to each vnode. *)
Class VrefOk (V : Type) `{!Vref V} := {
  vrefs : V → Z → Z;
  VOP_INCREF_spec : ∀ s v, 0 < vrefs s v →
    wp (VOP_INCREF v) (λ _ s', ∀ w, vrefs s' w = vrefs s w + if decide (w = v) then 1 else 0)
       (λ _ _, False) s;
  VOP_DECREF_spec : ∀ s v, 0 < vrefs s v →
    wp (VOP_DECREF v) (λ _ s', ∀ w, vrefs s' w = vrefs s w - if decide (w = v) then 1 else 0)
       (λ _ _, False) s;
}.

(** The kernel heap with the coremap under it; the address spaces and the
    second-level tables by address; physical memory by byte; the slots of the
    TLB; [curthread->t_vmspace]; the interrupt level; the vnodes. *)
Record vm (V : Type) := mkvm {
  vm_heap : kheap vmem;
  vm_as : gmap Z addrspace;
  vm_l2 : gmap Z LV_2_PT;
  vm_ram : Z → Z;
  vm_tlb : list (Z * Z);
  vm_cur : Z;
  vm_spl : Z;
  vm_vn : V;
}.
Arguments mkvm {V} _ _ _ _ _ _ _ _.
Arguments vm_heap {V} _.
Arguments vm_as {V} _.
Arguments vm_l2 {V} _.
Arguments vm_ram {V} _.
Arguments vm_tlb {V} _.
Arguments vm_cur {V} _.
Arguments vm_spl {V} _.
Arguments vm_vn {V} _.

Section vm.
Context {V : Type} `{!Vref V}.
Notation st := (vm V).

Definition set_kheap (h : kheap vmem) (s : st) : st :=
  mkvm h (vm_as s) (vm_l2 s) (vm_ram s) (vm_tlb s) (vm_cur s) (vm_spl s) (vm_vn s).
Definition set_spaces (m : gmap Z addrspace) (s : st) : st :=
  mkvm (vm_heap s) m (vm_l2 s) (vm_ram s) (vm_tlb s) (vm_cur s) (vm_spl s) (vm_vn s).
Definition set_tables (m : gmap Z LV_2_PT) (s : st) : st :=
  mkvm (vm_heap s) (vm_as s) m (vm_ram s) (vm_tlb s) (vm_cur s) (vm_spl s) (vm_vn s).
Definition set_ram (f : Z → Z) (s : st) : st :=
  mkvm (vm_heap s) (vm_as s) (vm_l2 s) f (vm_tlb s) (vm_cur s) (vm_spl s) (vm_vn s).
Definition set_tlb (l : list (Z * Z)) (s : st) : st :=
  mkvm (vm_heap s) (vm_as s) (vm_l2 s) (vm_ram s) l (vm_cur s) (vm_spl s) (vm_vn s).
Definition set_cur (a : Z) (s : st) : st :=
  mkvm (vm_heap s) (vm_as s) (vm_l2 s) (vm_ram s) (vm_tlb s) a (vm_spl s) (vm_vn s).
Definition set_spl (n : Z) (s : st) : st :=
  mkvm (vm_heap s) (vm_as s) (vm_l2 s) (vm_ram s) (vm_tlb s) (vm_cur s) n (vm_vn s).
Definition set_vns (v : V) (s : st) : st :=
  mkvm (vm_heap s) (vm_as s) (vm_l2 s) (vm_ram s) (vm_tlb s) (vm_cur s) (vm_spl s) v.

Definition vmheap {A} (c : M (kheap vmem) A) : M st A := zoom vm_heap set_kheap c.
Definition in_coremap {A} (c : M vmem A) : M st A := vmheap (in_pages c).
Definition on_vnodes {A} (c : M V A) : M st A := zoom vm_vn set_vns c.

(** Pointers that lead nowhere and indices outside a table are wild accesses. *)
Definition or_wild {A} (o : option A) : M st A := match o with Some a => ret a | None => panic end.
Definition get_as (a : Z) : M st addrspace := let! m := gets vm_as in or_wild (m !! a).
Definition put_as (a : Z) (x : addrspace) : M st unit :=
  modify (λ s, set_spaces (<[a := x]> (vm_as s)) s).
Definition get_l2 (t : Z) : M st LV_2_PT := let! m := gets vm_l2 in or_wild (m !! t).
Definition put_l2 (t : Z) (x : LV_2_PT) : M st unit :=
  modify (λ s, set_tables (<[t := x]> (vm_l2 s)) s).

Definition splhigh : M st Z :=
  let! old := gets vm_spl in modify (set_spl SPL_HIGH) ;;; ret old.
Definition splx (n : Z) : M st unit := modify (set_spl n).

(** ** The TLB *)

Definition TLB_Read (i : Z) : M st (Z * Z) := let! l := gets vm_tlb in or_wild (zget l i).
Definition TLB_Write (ehi elo i : Z) : M st unit :=
  modify (λ s, set_tlb (zset (vm_tlb s) i (ehi, elo)) s).

(** ** Address spaces (addrspace.c) *)

(** [junk] is what the block holds: [heap_end] and [lvone] are not
    initialised. *)
Definition as_create (junk : addrspace) : M st Z :=
  let! as_ := vmheap (KHeap.kmalloc sizeof_addrspace) in
  if as_ =? 0 then ret 0
  else
    put_as as_ (mkas 0 0 0 (heap_end junk) 0 0 0 0 (lvone junk)) ;;;
    ret as_.

Definition as_activate (as_ : Z) : M st unit :=
  let! spl := splhigh in
  for_range (Z.to_nat NUM_TLB) 0 (λ i, TLB_Write (TLBHI_INVALID i) TLBLO_INVALID i) ;;;
  splx spl.

(** The end of a region moves the heap up. *)
Definition raise_heap (top : Z) (a : addrspace) : addrspace :=
  if heap_start a <? top then set_heap top top a else a.
Definition as_define_region (as_ vaddr sz readable writeable executable counter : Z) : M st unit :=
  let sz := u32 (sz + Z.land vaddr (u32 (Z.lnot PAGE_FRAME))) in
  let vaddr := Z.land vaddr PAGE_FRAME in
  let sz := Z.land (u32 (u32 (sz + PAGE_SIZE) - 1)) PAGE_FRAME in
  let npages := sz / PAGE_SIZE in
  let top := u32 (Z.land vaddr PAGE_FRAME + sz) in
  let! a := get_as as_ in
  if (counter =? 0) && (as_vbase1 a =? 0) then
    put_as as_ (raise_heap top (set_region1 vaddr npages a))
  else if (counter =? 1) && (as_vbase2 a =? 0) then
    put_as as_ (raise_heap top (set_region2 vaddr npages a))
  else fail EUNIMP.

Definition as_complete_load (as_ : Z) : M st unit := ret tt.

Definition as_prepare_load (as_ v : Z) : M st unit :=
  let! a := get_as as_ in
  kassert (as_v a =? 0) ;;;
  put_as as_ (set_v v a) ;;;
  on_vnodes (VOP_INCREF v).

(** Returns [*stackptr]. *)
Definition as_define_stack (as_ : Z) : M st Z :=
  let! a := get_as as_ in
  put_as as_ (set_EOStack (i32 USERSTACK) a) ;;;
  ret USERSTACK.

Definition as_copy (junk : addrspace) (old : Z) : M st Z :=
  let! new := as_create junk in
  if new =? 0 then fail ENOMEM
  else
    let! o := get_as old in
    let! n := get_as new in
    put_as new (set_region2 (as_vbase2 o) (as_npages2 o)
                 (set_region1 (as_vbase1 o) (as_npages1 o) n)) ;;;
    ret new.

(** One slot of a second-level table. *)
Definition destroy_slot (t j : Z) : M st unit :=
  let! l := get_l2 t in
  let! e := or_wild (zget l j) in
  match coremap_Ptr e with
  | None => ret tt
  | Some k =>
      in_coremap (update_entry k (λ _, mkce 0 0 0 0)) ;;;
      put_l2 t (zset l j (mkpe None 0 0))
  end.
Definition destroy_table (a : addrspace) (i : Z) : M st unit :=
  let! t := or_wild (zget (lvone a) i) in
  when (negb (t =? 0)) (for_range (Z.to_nat LEVEL2_SIZE) 0 (destroy_slot t)).
Definition as_destroy (as_ : Z) : M st unit :=
  let! spl := splhigh in
  let! a := get_as as_ in
  for_range (Z.to_nat LEVEL1_SIZE) 0 (destroy_table a) ;;;
  when (negb (as_v a =? 0)) (on_vnodes (VOP_DECREF (as_v a))) ;;;
  vmheap (KHeap.kfree as_) ;;;
  modify (λ s, set_spaces (delete as_ (vm_as s)) s) ;;;
  splx spl.

(** ** Mapping a fresh page (mem.c) *)

Definition L1Tindex (faultaddress : Z) : Z := Z.shiftr faultaddress 22.
Definition L2Tindex (faultaddress : Z) : Z := Z.land (Z.shiftr faultaddress 12) page_frame_mask.
Definition empty_table : LV_2_PT := replicate (Z.to_nat LEVEL2_SIZE) (mkpe None 0 0).
Definition zero_ram (addr len : Z) : M st unit :=
  modify (λ s, set_ram (λ x, if (addr <=? x) && (x <? addr + len) then 0 else vm_ram s x) s).

(** The second-level table of an address, made when there is none; 0 without
    memory for it. *)
Definition level2 (as_ faultaddress : Z) : M st Z :=
  let! a := get_as as_ in
  let! t := or_wild (zget (lvone a) (L1Tindex faultaddress)) in
  if t =? 0 then
    let! t := vmheap (KHeap.kmalloc sizeof_LV_2_PT) in
    if t =? 0 then ret 0
    else
      put_l2 t empty_table ;;;
      put_as as_ (set_lvone (zset (lvone a) (L1Tindex faultaddress) t) a) ;;;
      ret t
  else ret t.

(** The part that [incStack] and [incHeap] have in common.  The result is the
    physical address; nothing for a return of -1 or ENOMEM. *)
Definition map_page (as_ faultaddress : Z) : M st (option Z) :=
  let! p := in_coremap allocate_physical_page in
  match p with
  | None => ret None
  | Some k =>
      let! t := level2 as_ faultaddress in
      if t =? 0 then ret None
      else
        let! l := get_l2 t in
        let! e := or_wild (zget l (L2Tindex faultaddress)) in
        let! s := gets (λ s, kh_pages (vm_heap s)) in
        let paddr := u32 (free_pages_str s + k * PAGE_SIZE) in
        put_l2 t (zset l (L2Tindex faultaddress)
                    (mkpe (Some k) (page_address_field paddr) (valid_field 1))) ;;;
        in_coremap (update_entry k (λ c,
          mkce (allocated c) 1 as_ (t + sizeof_page_entry * L2Tindex faultaddress))) ;;;
        zero_ram paddr PAGE_SIZE ;;;
        ret (Some paddr)
  end.

Definition incStack (as_ faultaddress : Z) : M st (option Z) :=
  let! r := map_page as_ faultaddress in
  match r with
  | None => ret None
  | Some paddr =>
      let! a := get_as as_ in
      put_as as_ (set_EOStack (i32 (EOStack a - PAGE_SIZE)) a) ;;;
      ret (Some paddr)
  end.
Definition incHeap (as_ faultaddress : Z) : M st (option Z) := map_page as_ faultaddress.

(** ** Faults (vm.c) *)

(** The address in the page table, when the page is there. *)
Definition lookup_page (as_ faultaddress : Z) : M st (option Z) :=
  let! a := get_as as_ in
  let! t := or_wild (zget (lvone a) (L1Tindex faultaddress)) in
  if t =? 0 then ret None
  else
    let! l := get_l2 t in
    let! e := or_wild (zget l (L2Tindex faultaddress)) in
    if valid e =? 0 then ret None else ret (Some (page_address e)).

(** Which area a page to be mapped belongs to: 0 the stack, 1 the heap, 10
    none. *)
Definition position (a : addrspace) (faultaddress : Z) : Z :=
  let p := 10 in
  let p := if stack_size <=? u32 (USERSTACK - EOStack a) then 0 else p in
  let p := if (faultaddress <=? USERSTACK) && (u32 (EOStack a - PAGE_SIZE) <=? faultaddress)
           then 0 else p in
  if (heap_start a <=? faultaddress) && (faultaddress <=? heap_end a) then 1 else p.

Definition grow (as_ faultaddress : Z) : M st (option Z) :=
  let! a := get_as as_ in
  let p := position a faultaddress in
  if p =? 0 then incStack as_ faultaddress
  else if p =? 1 then incHeap as_ faultaddress
  else ret None.

(** Load the first slot from [i] on that is not valid; tells whether there was
    one. *)
Fixpoint tlb_load (n : nat) (i faultaddress paddr : Z) : M st bool :=
  match n with
  | O => ret false
  | S n' =>
      let! ' (ehi, elo) := TLB_Read i in
      if negb (Z.land elo TLBLO_VALID =? 0) then tlb_load n' (i + 1) faultaddress paddr
      else
        TLB_Write faultaddress (Z.lor (Z.lor paddr TLBLO_DIRTY) TLBLO_VALID) i ;;;
        ret true
  end.

(** Make room in a full TLB, when needed, and load the
    page; [rnd] is the value of [random()]. *)
Definition install (fa paddr rnd spl : Z) : M st unit :=
  let! done := tlb_load (Z.to_nat NUM_TLB) 0 fa paddr in
  if (done : bool) then splx spl
  else
    let number := u32 rnd mod NUM_TLB in
    TLB_Write (TLBHI_INVALID number) TLBLO_INVALID number ;;;
    let! done := tlb_load (Z.to_nat NUM_TLB) 0 fa paddr in
    if (done : bool) then splx spl
    else splx spl ;;; fail EFAULT.

Definition vm_fault (faulttype faultaddress rnd : Z) : M st unit :=
  let! spl := splhigh in
  let faultaddress := Z.land faultaddress PAGE_FRAME in
  if faulttype =? VM_FAULT_READONLY then panic
  else if negb ((faulttype =? VM_FAULT_READ) || (faulttype =? VM_FAULT_WRITE)) then
    splx spl ;;; fail EINVAL
  else
    let! as_ := gets vm_cur in
    if as_ =? 0 then fail EFAULT
    else
      let! found := lookup_page as_ faultaddress in
      let! r := match found with Some p => ret (Some p) | None => grow as_ faultaddress end in
      match r with
      | None => splx spl ;;; fail EFAULT
      | Some paddr =>
          kassert (Z.land paddr PAGE_FRAME =? paddr) ;;;
          install faultaddress paddr rnd spl
      end.

(** ** The break (kern/arch/mips/mips/syscall.c) *)

Definition sys_sbrk (size : Z) : M st Z :=
  let! spl := splhigh in
  let! as_ := gets vm_cur in
  if malloc_limit <=? size then splx spl ;;; ret (-1)
  else
    let! a := get_as as_ in
    let newheap := u32 (heap_end a + u32 size) in
    let break_v := heap_end a in
    if heap_size <? u32 (newheap - heap_start a) then splx spl ;;; ret (-1)
    else
      put_as as_ (set_heap (heap_start a) newheap a) ;;;
      splx spl ;;;
      ret (i32 break_v).

(** ** The processor

    A user access goes through the TLB; a miss raises a fault and the
    access is tried again (kern/arch/mips/include/tlb.h, trap.c). *)

(** The slot with the page of [va]. *)
Fixpoint tlb_probe (l : list (Z * Z)) (va : Z) : option Z :=
  match l with
  | [] => None
  | (ehi, elo) :: l' =>
      if Z.land ehi PAGE_FRAME =? Z.land va PAGE_FRAME then Some elo else tlb_probe l' va
  end.
(** A translation that can be used. *)
Definition tlb_translate (l : list (Z * Z)) (va : Z) : option Z :=
  match tlb_probe l va with
  | Some elo =>
      if Z.land elo TLBLO_VALID =? 0 then None
      else Some (Z.lor (Z.land elo PAGE_FRAME) (Z.land va (u32 (Z.lnot PAGE_FRAME))))
  | None => None
  end.

(** The physical address of a user access; one that still misses after its
    fault was handled faults again without end. *)
Definition user_address (faulttype va rnd : Z) : M st Z :=
  let! l := gets vm_tlb in
  match tlb_translate l va with
  | Some pa => ret pa
  | None =>
      vm_fault faulttype va rnd ;;;
      let! l := gets vm_tlb in
      match tlb_translate l va with Some pa => ret pa | None => hang end
  end.
Definition user_load (va rnd : Z) : M st Z :=
  let! pa := user_address VM_FAULT_READ va rnd in
  let! m := gets vm_ram in ret (m pa).
Definition user_store (va b rnd : Z) : M st unit :=
  let! pa := user_address VM_FAULT_WRITE va rnd in
  modify (λ s, set_ram (λ x, if x =? pa then b else vm_ram s x) s).

(** ** What threads do to address spaces (thread.c, runprogram.c)

    [thread_exit] and [mi_switch] as far as they touch [t_vmspace]. *)

Definition exit_vmspace : M st unit :=
  let! as_ := gets vm_cur in
  when (negb (as_ =? 0)) (modify (set_cur 0) ;;; as_destroy as_).
Definition switch_vmspace (next : Z) : M st unit :=
  modify (set_cur next) ;;;
  when (negb (next =? 0)) (as_activate next).

End vm.
