(* ===== verification/VmPages.v ===== *)
(** * The pages of user programs in the coremap and in the kernel heap

    A page of a program is taken by [allocate_physical_page], is in limbo
    until its coremap entry is filled in, and then is a run of one page like
    those of the kernel heap.  These lemmas carry the effect of each step
    from the coremap to the blocks of the heap above it. *)

From S2P Require Import Prelude Kmem KPages Coremap KHeap KHeapSpec KHeapOps Vm.

(** ** The coremap *)

(** Entry [k] is allocated and belongs to no run. *)
Definition limbo (c : vmem) (k : Z) : Prop :=
  (∃ e, zget (cm_entries c) k = Some e ∧ allocated e = 1 ∧ continuous e = 0) ∧
  ∀ i e, zget (cm_entries c) i = Some e → ¬ (i ≤ k < i + continuous e).

(** Entries that differ in no run have the same runs. *)
Lemma runs_same (c : vmem) l :
  zlen l = zlen (cm_entries c) →
  (∀ j, continuous <$> zget l j = continuous <$> zget (cm_entries c) j) →
  runs (set_entries l c) = runs c.
Proof.
  intros Hlen Hc. apply map_ext_Some. intros a n. rewrite !runs_lookup. simpl.
  change (kaddr (set_entries l c)) with (kaddr c).
  split; intros (i & e & -> & He & <- & Hn); specialize (Hc i); rewrite He in Hc; simpl in Hc.
  - symmetry in Hc. apply fmap_Some in Hc as (e' & He' & Hc). exists i, e'. by rewrite <- Hc.
  - apply fmap_Some in Hc as (e' & He' & Hc). exists i, e'. by rewrite <- Hc.
Qed.

Lemma find_free_spec l i :
  match find_free l i with
  | Some k => i ≤ k ∧ ∃ e, zget l (k - i) = Some e ∧ allocated e = 0
  | None => ∀ j e, zget l j = Some e → allocated e ≠ 0
  end.
Proof.
  revert i. induction l as [|e l IH]; intros i; simpl.
  { intros j e He. apply zget_Some_range in He. unfold zlen in He. simpl in He. lia. }
  destruct (Z.eqb_spec (allocated e) 0) as [H0|H0].
  - split; [lia|]. exists e. by rewrite Z.sub_diag.
  - specialize (IH (i + 1)). destruct (find_free l (i + 1)) as [k|].
    + destruct IH as (Hk & e' & He' & ?). split; [lia|]. exists e'. split; [|done].
      unfold zget in *. rewrite !decide_True in * by lia.
      replace (Z.to_nat (k - i)) with (S (Z.to_nat (k - (i + 1)))) by lia. done.
    + intros j e' He'. destruct (decide (j = 0)) as [->|Hj]; [by injection He' as <-|].
      apply (IH (j - 1)). pose proof (zget_Some_range _ _ _ He').
      unfold zget in *. rewrite !decide_True in * by lia.
      by replace (Z.to_nat j) with (S (Z.to_nat (j - 1))) in He' by lia.
Qed.

(** A free page lies in no run. *)
Lemma free_no_run c k e :
  coremap_ok c → zget (cm_entries c) k = Some e → allocated e = 0 →
  continuous e = 0 ∧ ∀ i e', zget (cm_entries c) i = Some e' → ¬ (i ≤ k < i + continuous e').
Proof.
  intros [] He Ha.
  assert (Hno : ∀ i e', zget (cm_entries c) i = Some e' → ¬ (i ≤ k < i + continuous e')).
  { intros i e' He' Hk. destruct (co_runs i e' He') as [_ Hr]. destruct (Hr k Hk) as (e1 & He1 & Ha1 & _).
    rewrite He in He1. injection He1 as <-. rewrite Ha in Ha1. done. }
  split; [|done]. destruct (co_runs k e He) as [? _]. specialize (Hno k e He). lia.
Qed.

Lemma allocate_physical_page_spec c :
  coremap_ok c →
  wp allocate_physical_page
     (λ o c', match o with
        | None => c' = c ∧ ∀ j e, zget (cm_entries c) j = Some e → allocated e ≠ 0
        | Some k => coremap_ok c' ∧ runs c' = runs c ∧ limbo c' k ∧ ∃ l, c' = set_entries l c
        end)
     (λ _ _, False) c.
Proof.
  intros Hok. pose proof Hok as []. unfold allocate_physical_page. wp_bind. apply wp_get.
  rewrite ztake_all by lia. pose proof (find_free_spec (cm_entries c) 0) as Hf.
  destruct (find_free (cm_entries c) 0) as [k|]; [|by apply wp_ret].
  destruct Hf as (Hk & e & He & Ha). rewrite Z.sub_0_r in He. pose proof (zget_Some_range _ _ _ He).
  wp_bind. eapply update_entry_spec; [done|]. apply wp_ret.
  destruct (free_no_run c k e Hok He Ha) as [Hc0 Hno].
  set (l := zset (cm_entries c) k (set_allocated 1 e)).
  assert (Hget : ∀ j, continuous <$> zget l j = continuous <$> zget (cm_entries c) j).
  { intros j. subst l. destruct (decide (j = k)) as [->|]; [by rewrite zget_zset_eq, He by lia|].
    by rewrite zget_zset_ne. }
  assert (Hlen : zlen l = zlen (cm_entries c)) by (subst l; by rewrite zlen_zset).
  split_and!; [|by apply runs_same| |by exists l].
  - split; simpl; try done; [lia|]. intros i e' He'. pose proof (Hget i) as Hg. rewrite He' in Hg.
    symmetry in Hg. apply fmap_Some in Hg as (e0 & He0 & Hc). rewrite Hc.
    destruct (co_runs i e0 He0) as [Hp Hr]. split; [done|]. intros j Hj.
    destruct (Hr j Hj) as (e1 & He1 & ? & ?). exists e1. split; [|done]. subst l.
    rewrite zget_zset_ne; [done|]. intros <-. by apply (Hno i e0).
  - split.
    + exists (set_allocated 1 e). simpl. subst l. by rewrite zget_zset_eq by lia.
    + intros i e' He'. simpl in He'. pose proof (Hget i) as Hg. rewrite He' in Hg.
      symmetry in Hg. apply fmap_Some in Hg as (e0 & He0 & Hc). rewrite Hc. by apply Hno.
Qed.

(** A run taken elsewhere leaves a page in limbo. *)
Lemma taken_limbo c i n l k :
  coremap_ok c → taken i n (cm_entries c) l → limbo c k → limbo (set_entries l c) k.
Proof.
  intros Hok (Hl & Hi & Hn & Hin & Hfree & Hget) ((e & He & Ha & Hc) & Hno).
  assert (Hki : ¬ (i ≤ k < i + n)) by (intros Hki; rewrite (Hfree k e) in Ha by done; done).
  split; [exists e; simpl; by rewrite Hget, decide_False|].
  intros j e' He'. simpl in He'. rewrite Hget in He'. case_decide as Hj; [|by apply (Hno j)].
  apply fmap_Some in He' as (e0 & He0 & ->). simpl. case_decide; [lia|].
  destruct (free_no_run c j e0) as [-> _]; [done|done|by apply (Hfree j)|]. lia.
Qed.

(** Filling the entry in makes the page a run. *)
Lemma claim_entry_spec c k pa pe :
  coremap_ok c → limbo c k →
  wp (update_entry k (λ e, mkce (allocated e) 1 pa pe))
     (λ _ c', coremap_ok c' ∧ runs c !! kaddr c k = None ∧
        runs c' = <[kaddr c k := 1]> (runs c) ∧ ∃ l, c' = set_entries l c)
     (λ _ _, False) c.
Proof.
  intros Hok ((e & He & Ha & Hc) & Hno). pose proof Hok as []. pose proof (zget_Some_range _ _ _ He).
  eapply update_entry_spec; [done|]. rewrite Ha. set (l := zset _ _ _).
  assert (Hne : ∀ j, j ≠ k → zget l j = zget (cm_entries c) j) by (intros; by apply zget_zset_ne).
  assert (Heq : zget l k = Some (mkce 1 1 pa pe)) by by apply zget_zset_eq.
  split_and!; [| | |by exists l].
  - split; simpl; try done; [subst l; rewrite zlen_zset; lia|]. intros i e' He'.
    destruct (decide (i = k)) as [->|Hik].
    + rewrite Heq in He'. injection He' as <-. simpl. split; [lia|]. intros j Hj.
      replace j with k by lia. by eexists.
    + rewrite Hne in He' by done. destruct (co_runs i e' He') as [Hp Hr]. split; [done|]. intros j Hj.
      destruct (Hr j Hj) as (e1 & ? & ? & ?). exists e1. split; [|done]. rewrite Hne; [done|].
      intros ->. by apply (Hno i e').
  - apply eq_None_not_Some. intros [m (j & e' & <-%(inj _) & He' & <- & Hm)%runs_lookup].
    rewrite He in He'. injection He' as <-. lia.
  - apply map_ext_Some. intros a n. rewrite runs_lookup, lookup_insert_Some, runs_lookup. simpl.
    change (kaddr (set_entries l c)) with (kaddr c). split.
    + intros (j & e' & -> & He' & <- & Hm). destruct (decide (j = k)) as [->|Hjk].
      * rewrite Heq in He'. injection He' as <-. by left.
      * right. split; [by intros ?%(inj _)|]. rewrite Hne in He' by done. by exists j, e'.
    + intros [[<- <-]|[Hnk (j & e' & -> & He' & <- & Hm)]]; [by eexists k, _|].
      exists j, e'. rewrite Hne; [done|]. by intros ->.
Qed.

(** The pointers in the entries do not matter to the coremap. *)
Lemma coremap_ok_ext c l l' :
  (∀ j, (λ e, (allocated e, continuous e)) <$> zget l j = (λ e, (allocated e, continuous e)) <$> zget l' j) →
  zlen l' = zlen l → coremap_ok (set_entries l c) → coremap_ok (set_entries l' c).
Proof.
  intros Hext Hlen []. split; simpl in *; try done; [lia|]. intros i e' He'.
  pose proof (Hext i) as Hi. rewrite He' in Hi. apply fmap_Some in Hi as (e & He & [= _ Hc]).
  rewrite Hc. destruct (co_runs i e He) as [Hp Hr]. split; [done|]. intros j Hj.
  destruct (Hr j Hj) as (e1 & He1 & Ha1 & Hc1). pose proof (Hext j) as Hj'. rewrite He1 in Hj'.
  symmetry in Hj'. apply fmap_Some in Hj' as (e2 & He2 & [= Ha2 Hc2]). exists e2.
  by rewrite <- Ha2, <- Hc2.
Qed.

(** Clearing the entry of a page gives its run back. *)
Lemma clear_entry_spec c k :
  coremap_ok c → runs c !! kaddr c k = Some 1 →
  wp (update_entry k (λ _, mkce 0 0 0 0))
     (λ _ c', coremap_ok c' ∧ runs c' = delete (kaddr c k) (runs c) ∧ ∃ l, c' = set_entries l c)
     (λ _ _, False) c.
Proof.
  intros Hok (j & e & <-%(inj _) & He & Hc & _)%runs_lookup. pose proof (zget_Some_range _ _ _ He).
  eapply update_entry_spec; [done|].
  set (l0 := zset (cm_entries c) k (mkce 0 0 (ce_as e) (ce_pe e))).
  set (l := zset (cm_entries c) k (mkce 0 0 0 0)).
  assert (Hext : ∀ j, (λ e, (allocated e, continuous e)) <$> zget l0 j =
                      (λ e, (allocated e, continuous e)) <$> zget l j).
  { intros j. subst l l0. destruct (decide (j = k)) as [->|]; [by rewrite !zget_zset_eq by done|].
    by rewrite !zget_zset_ne by done. }
  assert (Hlen : zlen l = zlen l0) by (subst l l0; by rewrite !zlen_zset).
  destruct (given_back_ok c k e l0) as [Hok0 Hr0]; [done|done|lia| |].
  { rewrite Hc. split; [subst l0; by rewrite zlen_zset|]. intros j. subst l0. case_decide.
    - replace j with k by lia. by rewrite zget_zset_eq, He by done.
    - by rewrite zget_zset_ne by lia. }
  split_and!; [by eapply coremap_ok_ext| |by exists l].
  rewrite <- Hr0. change (set_entries l c) with (set_entries l (set_entries l0 c)).
  apply (runs_same (set_entries l0 c)); [done|]. intros j. specialize (Hext j). simpl.
  destruct (zget l0 j), (zget l j); simpl in *; congruence.
Qed.

(** ** The heap above *)

(** The coremap under a heap changed its entries only. *)
Definition entries_only (h h' : kheap vmem) : Prop :=
  ∃ l, h' = set_pages (set_entries l (kh_pages h)) h.
#[global] Instance entries_only_preorder : PreOrder entries_only.
Proof.
  split.
  - intros h. exists (cm_entries (kh_pages h)). by destruct h as [[]].
  - intros h1 h2 h3 [l ->] [l' ->]. by exists l'.
Qed.

(** The kernel address of page [k], and its physical one. *)
Definition page_kaddr (h : kheap vmem) (k : Z) : Z := kaddr (kh_pages h) k.
Definition page_paddr (h : kheap vmem) (k : Z) : Z := free_pages_str (kh_pages h) + 4096 * k.

Lemma heap_coremap_ok (h : kheap vmem) : heap_ok h → coremap_ok (kh_pages h).
Proof. intros (ps & Hi & _). apply (hi_pinv _ _ Hi). Qed.

Lemma heap_allocate_page h :
  heap_ok h →
  wp (in_pages allocate_physical_page)
     (λ o h', heap_ok h' ∧ kh_live h' = kh_live h ∧ entries_only h h' ∧
        match o with
        | None => ∀ j e, zget (cm_entries (kh_pages h)) j = Some e → allocated e ≠ 0
        | Some k => limbo (kh_pages h') k
        end)
     (λ _ _, False) h.
Proof.
  intros Hok. apply wp_zoom. wp_use allocate_physical_page_spec; [by apply heap_coremap_ok| |done].
  intros [k|] c'.
  - intros (Hc' & Hr & Hl & l & ->). destruct (heap_pages_same h (set_entries l (kh_pages h))) as [? ?]; [done..|].
    split_and!; [done|done|by exists l|done].
  - intros [-> Hall]. destruct (heap_pages_same h (kh_pages h)) as [? ?]; [done|by apply heap_coremap_ok|done|].
    split_and!; [done|done| |done]. exists (cm_entries (kh_pages h)). by destruct h as [[]].
Qed.

(** Whole pages from the heap: the memory of address spaces and tables. *)
Lemma heap_kmalloc_pages h sz n :
  heap_ok h → 2048 ≤ sz < 1048576 → n = (sz + 4095) / 4096 →
  wp (KHeap.kmalloc sz)
     (λ a h', heap_ok h' ∧ entries_only h h' ∧ (∀ k, limbo (kh_pages h) k → limbo (kh_pages h') k) ∧
        (a = 0 ∧ kh_live h' = kh_live h ∨ new_block a (PAGE_SIZE * n) h h'))
     (λ _ _, False) h.
Proof.
  intros Hok Hsz Hn. unfold KHeap.kmalloc, LARGEST_SUBPAGE_SIZE. destruct (Z.leb_spec 2048 sz); [|lia].
  unfold PAGE_SIZE at 1 2. rewrite (u32_small (sz + 4096)), u32_small by lia. cbv zeta.
  replace ((sz + 4096 - 1) / 4096) with n by (subst n; f_equal; lia).
  assert (Hn0 : 0 < n < 2147483648) by (subst n; Z.div_mod_to_equations; lia).
  apply wp_zoom. simpl. unfold alloc_kpages. wp_bind.
  pose proof (heap_coremap_ok h Hok) as Hc. wp_use getppages_spec; [done|done| |done].
  intros a c' [[-> ->]|(i & l & -> & -> & Ht)].
  - apply wp_ret. destruct (heap_pages_same h (kh_pages h)) as [? ?]; [done..|].
    split_and!; [done| |done|by left]. exists (cm_entries (kh_pages h)). by destruct h as [[]].
  - pose proof (taken_runs _ i n l Hc Ht) as [Hnone Hruns]. pose proof (taken_ok _ i n l Hc Ht).
    pose proof Hc as [_ Hl [_ Hf0] Htop _]. pose proof Ht as (_ & Hi & _ & Hin & _).
    destruct (Z.eqb_spec (free_pages_str (kh_pages h) + 4096 * i) 0); [lia|]. apply wp_ret.
    replace (PADDR_TO_KVADDR (free_pages_str (kh_pages h) + 4096 * i)) with (kaddr (kh_pages h) i)
      by (unfold PADDR_TO_KVADDR, kaddr, MIPS_KSEG0 in *; rewrite u32_small; lia).
    destruct (heap_pages_add h (set_entries l (kh_pages h)) (kaddr (kh_pages h) i) n) as [? ?]; [done..|].
    split_and!; [done|by exists l|intros k; by apply (taken_limbo _ i n)|by right].
Qed.

Lemma heap_claim_page h k pa pe :
  heap_ok h → limbo (kh_pages h) k →
  wp (in_pages (update_entry k (λ e, mkce (allocated e) 1 pa pe)))
     (λ _ h', heap_ok h' ∧ entries_only h h' ∧ new_block (page_kaddr h k) PAGE_SIZE h h')
     (λ _ _, False) h.
Proof.
  intros Hok Hk. apply wp_zoom. wp_use claim_entry_spec; [by apply heap_coremap_ok|done| |done].
  intros [] c' (Hc' & Hnone & Hr & l & ->).
  destruct (heap_pages_add h (set_entries l (kh_pages h)) (page_kaddr h k) 1) as [? ?]; [done..|].
  split_and!; [done|by exists l|done].
Qed.

(** A block of whole pages is a run of the coremap that the heap does not cut
    up. *)
Lemma whole_pages h a n :
  heap_ok h → kh_live h !! a = Some (PAGE_SIZE * n) → 0 < n →
  ∃ ps, heap_inv h ps ∧ packed ps ∧ (∀ p, p ∈ ps → ¬ in_page p a) ∧ runs (kh_pages h) !! a = Some n.
Proof.
  intros (ps & Hi & Hpk) Hl Hn. exists ps. split_and!; [done..| |].
  - apply (kh_live_lookup h ps) in Hl as [(p & Hp & _ & _ & Hs)|(m & Hm & Hna & Hs)]; [|..|done].
    + destruct (psize_facts p) as (? & ? & ?); [by apply (hi_page _ _ Hi p Hp)|].
      unfold PAGE_SIZE in *. nia.
    + intros p Hp. by apply (big_not_sub h ps a m p).
  - apply (kh_live_lookup h ps) in Hl as [(p & Hp & _ & _ & Hs)|(m & Hm & Hna & Hs)]; [|..|done].
    + destruct (psize_facts p) as (? & ? & ?); [by apply (hi_page _ _ Hi p Hp)|].
      unfold PAGE_SIZE in *. nia.
    + assert (m = n) as -> by (unfold PAGE_SIZE in Hs; lia). done.
Qed.

Lemma heap_clear_page h k :
  heap_ok h → kh_live h !! page_kaddr h k = Some PAGE_SIZE →
  wp (in_pages (update_entry k (λ _, mkce 0 0 0 0)))
     (λ _ h', heap_ok h' ∧ entries_only h h' ∧ kh_live h' = delete (page_kaddr h k) (kh_live h))
     (λ _ _, False) h.
Proof.
  intros Hok Hl. destruct (whole_pages h (page_kaddr h k) 1) as (ps & Hi & Hpk & Hout & Hr); [done..|].
  apply wp_zoom. wp_use clear_entry_spec; [by apply heap_coremap_ok|done| |done].
  intros [] c' (Hc' & Hd & l & ->).
  destruct (heap_pages_del h ps (set_entries l (kh_pages h)) (page_kaddr h k)) as [? ?]; [done..|].
  split_and!; [done|by exists l|done].
Qed.

Lemma heap_kfree_pages h a n :
  heap_ok h → kh_live h !! a = Some (PAGE_SIZE * n) → 0 < n →
  wp (KHeap.kfree a)
     (λ _ h', heap_ok h' ∧ entries_only h h' ∧ kh_live h' = delete a (kh_live h))
     (λ _ _, False) h.
Proof.
  intros Hok Hl Hn. destruct (whole_pages h a n) as (ps & Hi & Hpk & Hout & Hr); [done..|].
  destruct (runs_range _ _ _ (heap_coremap_ok h Hok) Hr) as (_ & Hm & Hlo & _).
  unfold KHeap.kfree. destruct (Z.eqb_spec a 0); [unfold MIPS_KSEG0 in Hlo; lia|].
  wp_bind. wp_use subpage_kfree_miss; [done|done| |done]. intros b h0 [-> ->]. rewrite Hm.
  wp_bind. apply wp_kassert; [done|]. apply wp_zoom.
  pose proof Hr as (i & e & -> & He & Hc & _)%runs_lookup.
  simpl. wp_use free_kpages_run; [by apply heap_coremap_ok|done|lia| |done].
  intros [] c' (l & -> & Hg).
  destruct (given_back_ok (kh_pages h) i e l) as [? ?]; [by apply heap_coremap_ok|done|lia|done|].
  destruct (heap_pages_del h ps (set_entries l (kh_pages h)) (kaddr (kh_pages h) i)) as [? ?]; [done..|].
  split_and!; [done|by exists l|done].
Qed.
