(* ===== verification/VmSpec.v ===== *)
(** * Virtual memory: the invariant

    [own s r] is the block of memory that has the role [r]: an address
    space, a second-level table or the page that backs a virtual page.  The
    invariant says that every one of them is a live block of the kernel heap
    and has one role only; that the tables hold nothing but pages mapped with
    their right address; and that the TLB agrees with the page table of the
    current address space. *)

From S2P Require Import Prelude Kmem KPages Coremap KHeap KHeapSpec KHeapOps Vm VmPages.

(** ** Roles *)

Inductive role := R_as (a : Z) | R_tab (a i : Z) | R_page (a v : Z).
#[global] Instance role_eq_dec : EqDecision role.
Proof. solve_decision. Defined.
Definition role_size (r : role) : Z :=
  match r with R_as _ | R_page _ _ => PAGE_SIZE | R_tab _ _ => PAGE_SIZE * 2 end.

(** Blocks with a role are live, and have one role. *)
Definition owned (live : gmap Z Z) (own : role → option Z) : Prop :=
  (∀ r b, own r = Some b → live !! b = Some (role_size r)) ∧
  (∀ r r' b, own r = Some b → own r' = Some b → r = r').

Lemma owned_mono live own own' :
  owned live own → (∀ r b, own' r = Some b → own r = Some b) → owned live own'.
Proof. intros [H1 H2] Ho. split; [eauto|]. intros r r' b ??. eapply H2; eauto. Qed.
Lemma owned_add live own own' r0 b0 :
  owned live own → live !! b0 = None →
  (∀ r b, own' r = Some b → own r = Some b ∨ r = r0 ∧ b = b0) →
  owned (<[b0 := role_size r0]> live) own'.
Proof.
  intros [H1 H2] Hn Ho.
  assert (Hb : ∀ r, own r ≠ Some b0) by (intros r Hr; apply H1 in Hr; congruence). split.
  - intros r b Hr. destruct (Ho r b Hr) as [Hr'|[-> ->]]; [|by simplify_map_eq].
    rewrite lookup_insert_ne by (intros <-; by apply (Hb r)). by apply H1.
  - intros r r' b Hr Hr'. destruct (Ho _ _ Hr) as [?|[-> ->]], (Ho _ _ Hr') as [?|[-> ?]]; subst; try done.
    + by eapply H2.
    + by destruct (Hb r).
    + by destruct (Hb r').
Qed.
Lemma owned_del live own own' b0 :
  owned live own → (∀ r b, own' r = Some b → own r = Some b ∧ b ≠ b0) → owned (delete b0 live) own'.
Proof.
  intros [H1 H2] Ho. split.
  - intros r b Hr. destruct (Ho r b Hr) as [Hr' Hne]. rewrite lookup_delete_ne by done. by apply H1.
  - intros r r' b Hr Hr'. apply Ho in Hr as [? _], Hr' as [? _]. by eapply H2.
Qed.

Section spec.
Context {V : Type} `{!Vref V, !VrefOk V}.
Notation st := (vm V).
Implicit Types (s : st).

(** ** Page tables *)

Definition tab s (a i : Z) : option Z :=
  A ← vm_as s !! a; t ← zget (lvone A) i; if t =? 0 then None else Some t.
Definition slot s (a v : Z) : option page_entry :=
  t ← tab s a (v / 1024); L ← vm_l2 s !! t; zget L (v mod 1024).
(** The physical page behind page [v] of the address space [a]. *)
Definition frame s (a v : Z) : option Z :=
  e ← slot s a v; if valid e =? 0 then None else coremap_Ptr e.

Definition own s (r : role) : option Z :=
  match r with
  | R_as a => (λ _, a) <$> vm_as s !! a
  | R_tab a i => tab s a i
  | R_page a v => page_kaddr (vm_heap s) <$> frame s a v
  end.

(** What a user program can see: the byte at [va] of the address space [a]. *)
Definition amem s (a va : Z) : option Z :=
  k ← frame s a (va / 4096); Some (vm_ram s (page_paddr (vm_heap s) k + va mod 4096)).

(** ** The TLB *)

Definition tlb_word (paddr : Z) : Z := Z.lor (Z.lor paddr TLBLO_DIRTY) TLBLO_VALID.
Definition tlb_slot_ok s (i : Z) (w : Z * Z) : Prop :=
  w = (TLBHI_INVALID i, TLBLO_INVALID) ∨
  ∃ v k, 0 ≤ v < 524288 ∧ frame s (vm_cur s) v = Some k ∧
         w = (v * 4096, tlb_word (page_paddr (vm_heap s) k)).
Record tlb_ok s : Prop := {
  tl_len : zlen (vm_tlb s) = NUM_TLB;
  tl_slot : ∀ i w, zget (vm_tlb s) i = Some w → tlb_slot_ok s i w;
  tl_once : ∀ i j w w', zget (vm_tlb s) i = Some w → zget (vm_tlb s) j = Some w' → w.1 = w'.1 → i = j;
}.

(** ** The invariant *)

Record as_ok (A : addrspace) : Prop := {
  ao_lvone : zlen (lvone A) = LEVEL1_SIZE;
  ao_stack : -2147483648 ≤ EOStack A < 2147483648;
  ao_start : 0 ≤ heap_start A < 4294967296;
  ao_end : 0 ≤ heap_end A < 4294967296;
}.

Record vm_ok s : Prop := {
  vo_heap : heap_ok (vm_heap s);
  vo_small : page_paddr (vm_heap s) (numofpage (kh_pages (vm_heap s))) ≤ 1048576;
  vo_as : ∀ a A, vm_as s !! a = Some A → as_ok A;
  vo_tab : ∀ a i t, tab s a i = Some t → ∃ L, vm_l2 s !! t = Some L ∧ zlen L = LEVEL2_SIZE;
  vo_slot : ∀ a v e, slot s a v = Some e →
    e = mkpe None 0 0 ∨ ∃ k, e = mkpe (Some k) (page_paddr (vm_heap s) k) 1;
  vo_own : owned (kh_live (vm_heap s)) (own s);
  vo_cur : vm_cur s ≠ 0 → is_Some (vm_as s !! vm_cur s);
  vo_len : zlen (vm_tlb s) = NUM_TLB;
  vo_tlb : vm_cur s ≠ 0 → tlb_ok s;
}.

Lemma entries_only_paddr h h' k : entries_only h h' → page_paddr h' k = page_paddr h k.
Proof. by intros [l ->]. Qed.
Lemma entries_only_kaddr h h' k : entries_only h h' → page_kaddr h' k = page_kaddr h k.
Proof. by intros [l ->]. Qed.
Lemma entries_only_num h h' : entries_only h h' → numofpage (kh_pages h') = numofpage (kh_pages h).
Proof. by intros [l ->]. Qed.

Lemma frame_slot s a v k :
  vm_ok s → frame s a v = Some k ↔ slot s a v = Some (mkpe (Some k) (page_paddr (vm_heap s) k) 1).
Proof.
  intros Hok. unfold frame. split.
  - destruct (slot s a v) as [e|] eqn:He; [|done]. simpl.
    destruct (vo_slot _ Hok _ _ _ He) as [->|[k' ->]]; simpl; [done|]. by intros [= <-].
  - by intros ->.
Qed.

(** A mapped page lies in the memory that the coremap manages. *)
Lemma frame_range s a v k :
  vm_ok s → frame s a v = Some k → 0 ≤ k < numofpage (kh_pages (vm_heap s)).
Proof.
  intros Hok Hf. pose proof (vo_heap _ Hok) as Hh.
  assert (Hl : kh_live (vm_heap s) !! page_kaddr (vm_heap s) k = Some (PAGE_SIZE * 1)).
  { apply (proj1 (vo_own _ Hok) (R_page a v)). simpl. by rewrite Hf. }
  apply whole_pages in Hl as (ps & _ & _ & _ & (i & e & Heq%(inj _) & He & _)%runs_lookup); [|done..].
  subst i. apply zget_Some_range in He. destruct (heap_coremap_ok _ Hh). lia.
Qed.

(** No two virtual pages share a physical page. *)
Lemma frame_inj s a v a' v' k :
  vm_ok s → frame s a v = Some k → frame s a' v' = Some k → a = a' ∧ v = v'.
Proof.
  intros Hok Hf Hf'.
  assert (R_page a v = R_page a' v') as [= -> ->]; [|done].
  apply (proj2 (vo_own _ Hok) _ _ (page_kaddr (vm_heap s) k)); simpl; [by rewrite Hf|by rewrite Hf'].
Qed.

(** ** Addresses *)

Lemma shiftr_div x n : 0 ≤ n → Z.shiftr x n = x / 2 ^ n.
Proof. apply Z.shiftr_div_pow2. Qed.
Lemma L1Tindex_page v : L1Tindex (v * 4096) = v / 1024.
Proof.
  unfold L1Tindex. rewrite Z.shiftr_div_pow2 by done. change (2 ^ 22) with (4096 * 1024).
  rewrite <- Z.div_div by done. by rewrite Z.div_mul.
Qed.
Lemma L2Tindex_page v : L2Tindex (v * 4096) = v mod 1024.
Proof.
  unfold L2Tindex. rewrite Z.shiftr_div_pow2 by done. change (2 ^ 12) with 4096.
  rewrite Z.div_mul by done. change page_frame_mask with (Z.ones 10). by rewrite Z.land_ones.
Qed.

(** ** Rebuilding the invariant *)

Lemma tlb_ok_ext s s' :
  tlb_ok s → vm_tlb s' = vm_tlb s → vm_cur s' = vm_cur s → entries_only (vm_heap s) (vm_heap s') →
  (∀ v k, frame s (vm_cur s) v = Some k → frame s' (vm_cur s) v = Some k) → tlb_ok s'.
Proof.
  intros [] Ht Hc He Hf. split; rewrite ?Ht; try done. intros i w Hw.
  destruct (tl_slot0 i w Hw) as [->|(v & k & Hv & Hk & ->)]; [by left|right].
  exists v, k. rewrite Hc, (entries_only_paddr _ _ _ He). eauto.
Qed.

(** The heap changed, the mappings did not. *)
Lemma vm_ok_heap s h :
  vm_ok s → heap_ok h → entries_only (vm_heap s) h → owned (kh_live h) (own s) → vm_ok (set_kheap h s).
Proof.
  intros [] Hh He Ho. split; simpl; try done.
  - by rewrite (entries_only_num _ _ He), (entries_only_paddr _ _ _ He).
  - intros a v e Hs. destruct (vo_slot0 a v e Hs) as [->|[k ->]]; [by left|right].
    exists k. by rewrite (entries_only_paddr _ _ _ He).
  - eapply owned_mono; [done|]. intros [| |a v] b; simpl; try done.
    change (frame (set_kheap h s) a v) with (frame s a v). intros (k & -> & ->)%fmap_Some. simpl.
    by rewrite (entries_only_kaddr _ _ _ He).
  - intros Hc. eapply tlb_ok_ext; [by apply vo_tlb0|done..].
Qed.

(** The address space changed in a field that is not the page table. *)
Lemma tab_update s a A A' :
  vm_as s !! a = Some A → lvone A' = lvone A →
  ∀ a' i, tab (set_spaces (<[a := A']> (vm_as s)) s) a' i = tab s a' i.
Proof.
  intros HA Hl a' i. unfold tab. simpl. destruct (decide (a' = a)) as [->|].
  - by rewrite lookup_insert_eq, HA; simpl; rewrite Hl.
  - by rewrite lookup_insert_ne.
Qed.
Lemma slot_tab s s' :
  (∀ a i, tab s' a i = tab s a i) → vm_l2 s' = vm_l2 s → ∀ a v, slot s' a v = slot s a v.
Proof. intros Ht Hl a v. unfold slot. by rewrite Ht, Hl. Qed.
Lemma vm_ok_as s a A A' :
  vm_ok s → vm_as s !! a = Some A → lvone A' = lvone A → as_ok A' →
  vm_ok (set_spaces (<[a := A']> (vm_as s)) s).
Proof.
  intros Hok HA Hl HA'. pose proof (tab_update s a A A' HA Hl) as Ht. pose proof (slot_tab s _ Ht eq_refl) as Hs.
  set (s' := set_spaces _ _) in *.
  assert (Hf : ∀ a v, frame s' a v = frame s a v) by (intros; unfold frame; by rewrite Hs).
  destruct Hok. split; simpl; try done.
  - intros a' B. destruct (decide (a' = a)) as [->|]; [rewrite lookup_insert_eq; by intros [= <-]|].
    rewrite lookup_insert_ne by done. apply vo_as0.
  - intros a' i t. rewrite Ht. apply vo_tab0.
  - intros a' v e. rewrite Hs. apply vo_slot0.
  - eapply owned_mono; [done|]. intros [a'| |] b; simpl.
    + destruct (decide (a' = a)) as [->|]; [by rewrite lookup_insert_eq, HA|by rewrite lookup_insert_ne].
    + by rewrite Ht.
    + by rewrite Hf.
  - intros [x Hx]%vo_cur0. destruct (decide (vm_cur s = a)) as [->|]; [by rewrite lookup_insert_eq|].
    rewrite lookup_insert_ne by done. eauto.
  - intros Hc. eapply tlb_ok_ext; [by apply vo_tlb0|done|done|done|]. intros v k. by rewrite Hf.
Qed.

(** A slot of a table changed. *)
Lemma slot_update s a v t L e :
  vm_ok s → 0 ≤ v → tab s a (v / 1024) = Some t → vm_l2 s !! t = Some L →
  ∀ a' v', slot (set_tables (<[t := zset L (v mod 1024) e]> (vm_l2 s)) s) a' v' =
           if decide (a' = a ∧ v' = v) then Some e else slot s a' v'.
Proof.
  intros Hok Hv Ht HL a' v'. destruct (vo_tab _ Hok a _ t Ht) as (L' & HL' & Hlen).
  rewrite HL in HL'. injection HL' as <-. unfold LEVEL2_SIZE in Hlen.
  assert (0 ≤ v mod 1024 < 1024) by (apply Z.mod_pos_bound; lia).
  unfold slot. change (tab (set_tables _ s)) with (tab s). simpl.
  case_decide as Hd.
  - destruct Hd as [-> ->]. rewrite Ht. simpl. rewrite lookup_insert_eq. simpl. apply zget_zset_eq. lia.
  - destruct (tab s a' (v' / 1024)) as [t'|] eqn:Ht'; [|done]. simpl.
    destruct (decide (t' = t)) as [->|]; [|by rewrite lookup_insert_ne].
    rewrite lookup_insert_eq, HL. simpl. apply zget_zset_ne. intros Hm. apply Hd.
    assert (R_tab a (v / 1024) = R_tab a' (v' / 1024)) as [= -> Hdiv] by (by apply (proj2 (vo_own _ Hok) _ _ t)).
    split; [done|]. Z.div_mod_to_equations. lia.
Qed.

(** ** Mapping a page *)

(** What mapping a page leaves alone. *)
Definition kept s s' : Prop :=
  vm_cur s' = vm_cur s ∧ vm_tlb s' = vm_tlb s ∧ vm_spl s' = vm_spl s ∧ vm_vn s' = vm_vn s ∧
  set_lvone [] <$> vm_as s' = set_lvone [] <$> vm_as s ∧ entries_only (vm_heap s) (vm_heap s').
#[global] Instance kept_preorder : PreOrder kept.
Proof.
  split; [by intros s|]. intros s1 s2 s3 (?&?&?&?&?&?) (?&?&?&?&?&?).
  unfold kept. split_and!; try congruence. by etrans.
Qed.
Lemma kept_as s s' a A : kept s s' → vm_as s !! a = Some A →
  ∃ A', vm_as s' !! a = Some A' ∧ set_lvone [] A' = set_lvone [] A.
Proof.
  intros (_ & _ & _ & _ & Hm & _) HA. apply (f_equal (lookup a)) in Hm.
  rewrite !lookup_fmap, HA in Hm. simpl in Hm. apply fmap_Some in Hm as (A' & HA' & ?). eauto.
Qed.

(** Page [v] of [a] was mapped to the physical page [k], which is zero. *)
Definition mapped s s' (a v k : Z) : Prop :=
  (∀ a' v', frame s' a' v' = if decide (a' = a ∧ v' = v) then Some k else frame s a' v') ∧
  vm_ram s' = λ x, if (page_paddr (vm_heap s) k <=? x) && (x <? page_paddr (vm_heap s) k + PAGE_SIZE)
                   then 0 else vm_ram s x.
Definition unmapped s s' : Prop :=
  (∀ a v, frame s' a v = frame s a v) ∧ vm_ram s' = vm_ram s.

(** A table linked where there was none. *)
Lemma link_table s h a A i t :
  vm_ok s → vm_as s !! a = Some A → 0 ≤ i < LEVEL1_SIZE → tab s a i = None →
  heap_ok h → entries_only (vm_heap s) h → new_block t (PAGE_SIZE * 2) (vm_heap s) h →
  let s' := set_spaces (<[a := set_lvone (zset (lvone A) i t) A]> (vm_as s))
              (set_tables (<[t := empty_table]> (vm_l2 s)) (set_kheap h s)) in
  vm_ok s' ∧ kept s s' ∧ unmapped s s' ∧ tab s' a i = Some t.
Proof.
  intros Hok HA Hi Hnone Hh He (Ht0 & Hfresh & Hlive) s'. pose proof (vo_as _ Hok a A HA) as HAok.
  assert (Ht : ∀ a' i', tab s' a' i' = if decide (a' = a ∧ i' = i) then Some t else tab s a' i').
  { intros a' i'. unfold tab. simpl. destruct (decide (a' = a)) as [->|]; [|by rewrite lookup_insert_ne, decide_False by naive_solver].
    rewrite lookup_insert_eq, HA. simpl. destruct (decide (i' = i)) as [->|].
    - rewrite zget_zset_eq, decide_True by (done || (destruct HAok; lia)). simpl. by destruct (Z.eqb_spec t 0).
    - by rewrite zget_zset_ne, decide_False by naive_solver. }
  assert (Hnt : ∀ a' i', tab s a' i' ≠ Some t).
  { intros a' i' Hc. apply (proj1 (vo_own _ Hok) (R_tab a' i')) in Hc. congruence. }
  assert (Hs : ∀ a' v', slot s' a' v' = if decide (a' = a ∧ v' / 1024 = i) then Some (mkpe None 0 0) else slot s a' v').
  { intros a' v'. unfold slot. rewrite Ht. case_decide.
    - simpl. rewrite lookup_insert_eq. simpl. destruct (zget_is_Some empty_table (v' mod 1024)) as [e Hz].
      { unfold empty_table. rewrite zlen_replicate. by apply (Z.mod_pos_bound v' 1024). }
      rewrite Hz. f_equal. by apply zget_replicate in Hz.
    - destruct (tab s a' (v' / 1024)) as [t'|] eqn:Ht'; [|done]. simpl.
      rewrite lookup_insert_ne; [done|]. intros <-. by apply Hnt in Ht'. }
  assert (Hf : ∀ a' v', frame s' a' v' = frame s a' v').
  { intros a' v'. unfold frame. rewrite Hs. case_decide as Hd; [|done]. destruct Hd as [-> <-].
    simpl. unfold slot. by rewrite Hnone. }
  split_and!; [|split_and!; try done|done|by rewrite Ht, decide_True].
  2: { simpl. rewrite fmap_insert. simpl. apply insert_id. by rewrite lookup_fmap, HA. }
  destruct Hok. split; simpl; try done.
  - by rewrite (entries_only_num _ _ He), (entries_only_paddr _ _ _ He).
  - intros a' B. destruct (decide (a' = a)) as [->|]; [rewrite lookup_insert_eq; intros [= <-]|].
    + destruct HAok. split; simpl; try done. by rewrite zlen_zset.
    + rewrite lookup_insert_ne by done. apply vo_as0.
  - intros a' i' t'. rewrite Ht. case_decide.
    + intros [= <-]. exists empty_table. rewrite lookup_insert_eq. split; [done|]. unfold empty_table. by rewrite zlen_replicate.
    + intros Ht'. rewrite lookup_insert_ne; [by eapply vo_tab0|]. intros <-. by apply Hnt in Ht'.
  - intros a' v e. rewrite Hs. case_decide; [intros [= <-]; by left|]. intros Hsl.
    destruct (vo_slot0 a' v e Hsl) as [->|[k ->]]; [by left|right]. exists k. by rewrite (entries_only_paddr _ _ _ He).
  - rewrite Hlive. apply (owned_add _ (own s) _ (R_tab a i)); [done|done|]. intros [a'|a' i'|a' v] b; simpl.
    + destruct (decide (a' = a)) as [->|]; [rewrite lookup_insert_eq, HA|rewrite lookup_insert_ne by done]; auto.
    + rewrite Ht. case_decide; [|auto]. destruct_and!. subst. intros [= <-]. auto.
    + rewrite Hf. intros (k & -> & ->)%fmap_Some. left. simpl. by rewrite (entries_only_kaddr _ _ _ He).
  - intros [x Hx]%vo_cur0. destruct (decide (vm_cur s = a)) as [->|]; [by rewrite lookup_insert_eq|].
    rewrite lookup_insert_ne by done. eauto.
  - intros Hc. eapply tlb_ok_ext; [by apply vo_tlb0|done|done|done|]. intros v k. by rewrite Hf.
Qed.

Lemma wp_get_as s a A Q E : vm_as s !! a = Some A → Q A s → wp (get_as a) Q E s.
Proof. intros HA HQ. unfold get_as. wp_bind. apply wp_gets. by rewrite HA. Qed.
Lemma wp_get_l2 s t L Q E : vm_l2 s !! t = Some L → Q L s → wp (get_l2 t) Q E s.
Proof. intros HL HQ. unfold get_l2. wp_bind. apply wp_gets. by rewrite HL. Qed.
Lemma wp_or_wild {A} (o : option A) x s Q E : o = Some x → Q x s → wp (S := st) (or_wild o) Q E s.
Proof. by intros -> ?. Qed.

Lemma lvone_get s a A i :
  vm_ok s → vm_as s !! a = Some A → 0 ≤ i < LEVEL1_SIZE →
  ∃ t, zget (lvone A) i = Some t ∧ tab s a i = if t =? 0 then None else Some t.
Proof.
  intros Hok HA Hi. destruct (vo_as _ Hok a A HA) as [Hlen _ _ _].
  destruct (zget_is_Some (lvone A) i) as [t Ht]; [lia|]. exists t. unfold tab. by rewrite HA; simpl; rewrite Ht.
Qed.

Lemma level2_spec s a v A :
  vm_ok s → vm_as s !! a = Some A → 0 ≤ v < 524288 →
  wp (level2 a (v * 4096))
     (λ t s', vm_ok s' ∧ kept s s' ∧ unmapped s s' ∧
        (∀ k, limbo (kh_pages (vm_heap s)) k → limbo (kh_pages (vm_heap s')) k) ∧
        (t = 0 ∧ tab s a (v / 1024) = None ∨ t ≠ 0 ∧ tab s' a (v / 1024) = Some t))
     (λ _ _, False) s.
Proof.
  intros Hok HA Hv. unfold level2. wp_bind. eapply wp_get_as; [done|]. rewrite L1Tindex_page.
  assert (Hi : 0 ≤ v / 1024 < LEVEL1_SIZE) by (unfold LEVEL1_SIZE; Z.div_mod_to_equations; lia).
  destruct (lvone_get s a A (v / 1024)) as (t & Ht & Htab); [done..|].
  wp_bind. eapply wp_or_wild; [done|]. destruct (Z.eqb_spec t 0) as [->|Hne].
  2: { apply wp_ret. split_and!; [done|done|done|done|by right]. }
  wp_bind. unfold vmheap. apply wp_zoom. wp_use (heap_kmalloc_pages (vm_heap s) _ 2); [by apply vo_heap|done|done| |done].
  intros t h (Hh & He & Hlimbo & [[-> Hlive]|Hnew]).
  - apply wp_ret. split_and!; [|split_and!; done|done|done|by left].
    apply vm_ok_heap; [done..|]. rewrite Hlive. by apply vo_own.
  - destruct (Z.eqb_spec t 0) as [->|_]; [by destruct Hnew|].
    wp_bind. apply wp_modify. wp_bind. apply wp_modify. apply wp_ret. simpl.
    destruct (link_table s h a A (v / 1024) t) as (? & ? & ? & ?); [done..|].
    split_and!; [done..|]. right. split; [|done]. by destruct Hnew.
Qed.

(** The entry of page [v] filled in for the page [k]. *)
Lemma fill_entry s h a v t L k :
  vm_ok s → 0 ≤ v → tab s a (v / 1024) = Some t → vm_l2 s !! t = Some L → frame s a v = None →
  heap_ok h → entries_only (vm_heap s) h → new_block (page_kaddr (vm_heap s) k) PAGE_SIZE (vm_heap s) h →
  let s' := set_kheap h (set_tables
    (<[t := zset L (v mod 1024) (mkpe (Some k) (page_paddr (vm_heap s) k) 1)]> (vm_l2 s)) s) in
  vm_ok s' ∧ ∀ a' v', frame s' a' v' = if decide (a' = a ∧ v' = v) then Some k else frame s a' v'.
Proof.
  intros Hok Hv Ht HL Hnone Hh He (_ & Hfresh & Hlive) s'.
  pose proof (slot_update s a v t L (mkpe (Some k) (page_paddr (vm_heap s) k) 1) Hok Hv Ht HL) as Hs.
  change (slot (set_tables _ s)) with (slot s') in Hs.
  assert (Hf : ∀ a' v', frame s' a' v' = if decide (a' = a ∧ v' = v) then Some k else frame s a' v').
  { intros a' v'. unfold frame. rewrite Hs. by case_decide. }
  split; [|done]. destruct Hok. split; simpl; try done.
  - by rewrite (entries_only_num _ _ He), (entries_only_paddr _ _ _ He).
  - intros a' i' t' Ht'. destruct (vo_tab0 a' i' t' Ht') as (L' & HL' & Hlen).
    destruct (decide (t' = t)) as [->|]; [|rewrite lookup_insert_ne by done; eauto].
    rewrite lookup_insert_eq. eexists. split; [done|]. rewrite zlen_zset. congruence.
  - intros a' v' e. rewrite Hs. case_decide.
    + intros [= <-]. right. exists k. by rewrite (entries_only_paddr _ _ _ He).
    + intros Hsl. destruct (vo_slot0 a' v' e Hsl) as [->|[k' ->]]; [by left|right].
      exists k'. by rewrite (entries_only_paddr _ _ _ He).
  - rewrite Hlive. apply (owned_add _ (own s) _ (R_page a v)); [done|done|]. intros [a'|a' i'|a' v'] b; simpl; [by left..|].
    rewrite Hf. intros (k' & Hk' & ->)%fmap_Some. rewrite (entries_only_kaddr _ _ _ He).
    case_decide as Hd; [|left; by rewrite Hk']. destruct Hd as [-> ->]. injection Hk' as <-. by right.
  - intros Hc. eapply tlb_ok_ext; [by apply vo_tlb0|done|done|done|]. intros v' k' Hk'.
    rewrite Hf, decide_False; [done|]. intros [Hca ->]. simpl in *. congruence.
Qed.

Lemma vm_ok_ram s f : vm_ok s → vm_ok (set_ram f s).
Proof. intros []. split; try done. intros Hc. by eapply tlb_ok_ext; [apply vo_tlb0|..]. Qed.

Lemma paddr_small s k :
  vm_ok s → 0 ≤ k < numofpage (kh_pages (vm_heap s)) →
  0 < page_paddr (vm_heap s) k ∧ page_paddr (vm_heap s) k + 4096 ≤ 1048576 ∧
  page_paddr (vm_heap s) k mod 4096 = 0.
Proof.
  intros [] Hk. destruct (heap_coremap_ok _ vo_heap0) as [_ _ [Hm H0] _ _].
  unfold page_paddr in *. split_and!; try lia. Z.div_mod_to_equations. lia.
Qed.
Lemma paddr_field s k :
  vm_ok s → 0 ≤ k < numofpage (kh_pages (vm_heap s)) →
  u32 (free_pages_str (kh_pages (vm_heap s)) + k * PAGE_SIZE) = page_paddr (vm_heap s) k ∧
  page_address_field (page_paddr (vm_heap s) k) = page_paddr (vm_heap s) k.
Proof.
  intros Hok Hk. destruct (paddr_small s k Hok Hk) as (? & ? & _). unfold page_address_field.
  rewrite Z.mod_small by lia. split; [|done]. unfold PAGE_SIZE.
  replace (_ + k * 4096) with (page_paddr (vm_heap s) k) by (unfold page_paddr; lia). apply u32_small. lia.
Qed.

Lemma map_page_spec s a v A :
  vm_ok s → vm_as s !! a = Some A → 0 ≤ v < 524288 → frame s a v = None →
  wp (map_page a (v * 4096))
     (λ o s', vm_ok s' ∧ kept s s' ∧
        match o with
        | Some p => ∃ k, p = page_paddr (vm_heap s) k ∧ mapped s s' a v k
        | None => unmapped s s' ∧
            ((∀ j e, zget (cm_entries (kh_pages (vm_heap s))) j = Some e → allocated e ≠ 0) ∨
             tab s a (v / 1024) = None)
        end)
     (λ _ _, False) s.
Proof.
  intros Hok HA Hv Hnone. unfold map_page. wp_bind. unfold in_coremap at 1, vmheap. apply wp_zoom.
  wp_use heap_allocate_page; [by apply vo_heap| |done]. intros o h1 (Hh1 & Hl1 & He1 & Ho).
  assert (Hok1 : vm_ok (set_kheap h1 s)).
  { apply vm_ok_heap; [done..|]. rewrite Hl1. by apply vo_own. }
  destruct o as [k|]; [|apply wp_ret; split_and!; [done|done|done|by left]].
  wp_bind. wp_use (level2_spec (set_kheap h1 s) a v A); [done..| |done].
  intros t s2 (Hok2 & Hk2 & [Hf2 Hr2] & Hlimbo & Ht).
  assert (Hk : kept s s2) by (etrans; [|done]; by split_and!).
  destruct Ht as [[-> Ht]|[Ht0 Ht]]; [apply wp_ret; split_and!; [done|done|done|by right]|].
  destruct (Z.eqb_spec t 0); [done|]. apply Hlimbo in Ho. simpl in Ho.
  destruct (vo_tab _ Hok2 _ _ _ Ht) as (L & HL & Hlen).
  wp_bind. eapply wp_get_l2; [done|]. rewrite L2Tindex_page.
  destruct (zget_is_Some L (v mod 1024)) as [e He]; [rewrite Hlen; by apply (Z.mod_pos_bound v 1024)|].
  wp_bind. eapply wp_or_wild; [done|]. wp_bind. apply wp_gets. cbv zeta.
  assert (Hrange : 0 ≤ k < numofpage (kh_pages (vm_heap s2))).
  { destruct Ho as [(e' & He' & _) _]. apply zget_Some_range in He'.
    destruct (heap_coremap_ok _ (vo_heap _ Hok2)). lia. }
  destruct (paddr_field s2 k Hok2 Hrange) as [-> ->]. change (valid_field 1) with 1.
  wp_bind. apply wp_modify. wp_bind. unfold in_coremap, vmheap. apply wp_zoom.
  wp_use heap_claim_page; [by apply (vo_heap _ Hok2)|done| |done]. intros [] h3 (Hh3 & He3 & Hnew).
  destruct (fill_entry s2 h3 a v t L k) as [Hok3 Hf3]; [done|lia|done|done|by rewrite Hf2|done..|].
  wp_bind. apply wp_modify. apply wp_ret. split_and!; [by apply vm_ok_ram| |].
  - etrans; [done|]. by split_and!.
  - destruct Hk as (_ & _ & _ & _ & _ & He2). rewrite (entries_only_paddr _ _ _ He2) in *. exists k. split; [done|].
    split; [|by simpl; rewrite Hr2]. intros a' v'.
    etrans; [exact (Hf3 a' v')|]. by rewrite Hf2.
Qed.
End spec.
