(* ===== verification/VmFault.v ===== *)
(** * Virtual memory: the TLB and the fault handler *)

From S2P Require Import Prelude Kmem KPages Coremap KHeap KHeapSpec KHeapOps Vm VmPages VmSpec.

(** ** Words of the TLB *)

Lemma page_lor p m : p mod 4096 = 0 → 0 ≤ m < 4096 → Z.lor p m = p + m.
Proof.
  intros Hp Hm. rewrite <- Z.add_lor_land.
  replace (Z.land p m) with 0; [lia|].
  replace m with (Z.land (Z.ones 12) m).
  - rewrite Z.land_assoc, Z.land_ones by done. change (2 ^ 12) with 4096. by rewrite Hp, Z.land_0_l.
  - rewrite Z.land_comm, Z.land_ones by done. by apply Z.mod_small.
Qed.
Lemma tlb_word_valid p : Z.land (tlb_word p) TLBLO_VALID ≠ 0.
Proof.
  unfold tlb_word. rewrite Z.land_lor_distr_l. rewrite Z.lor_eq_0_iff. by intros [_ ?].
Qed.
Lemma page_land p : p mod 4096 = 0 → 0 ≤ p < 4294967296 → Z.land p PAGE_FRAME = p.
Proof. intros Hm Hp. rewrite land_frame by lia. Z.div_mod_to_equations. lia. Qed.
Lemma tlb_word_page p : p mod 4096 = 0 → 0 ≤ p < 4294967296 → Z.land (tlb_word p) PAGE_FRAME = p.
Proof.
  intros Hm Hp. unfold tlb_word. rewrite !Z.land_lor_distr_l, page_land by done.
  change (Z.land TLBLO_DIRTY PAGE_FRAME) with 0. change (Z.land TLBLO_VALID PAGE_FRAME) with 0.
  by rewrite !Z.lor_0_r.
Qed.
Lemma land_low va : Z.land va (u32 (Z.lnot PAGE_FRAME)) = va mod 4096.
Proof. change (u32 (Z.lnot PAGE_FRAME)) with (Z.ones 12). by rewrite Z.land_ones. Qed.
Lemma tlbhi_invalid i : 0 ≤ i < 64 → TLBHI_INVALID i = (524288 + i) * 4096.
Proof.
  intros Hi. unfold TLBHI_INVALID. rewrite Z.shiftl_mul_pow2 by done. change (2 ^ 12) with 4096.
  apply u32_small. lia.
Qed.

(** ** Looking a page up in the TLB *)

Lemma tlb_probe_Some l va elo :
  tlb_probe l va = Some elo →
  ∃ i ehi, zget l i = Some (ehi, elo) ∧ Z.land ehi PAGE_FRAME = Z.land va PAGE_FRAME.
Proof.
  induction l as [|[h e] l IH]; simpl; [done|].
  destruct (Z.eqb_spec (Z.land h PAGE_FRAME) (Z.land va PAGE_FRAME)) as [Heq|].
  - intros [= ->]. by exists 0, h.
  - intros (i & ehi & Hi & ?)%IH. exists (i + 1), ehi. split; [|done].
    pose proof (zget_Some_range _ _ _ Hi). unfold zget in *. rewrite !decide_True in * by lia.
    by replace (Z.to_nat (i + 1)) with (S (Z.to_nat i)) by lia.
Qed.
Lemma tlb_probe_None l va :
  tlb_probe l va = None →
  ∀ i w, zget l i = Some w → Z.land w.1 PAGE_FRAME ≠ Z.land va PAGE_FRAME.
Proof.
  induction l as [|[h e] l IH]; simpl; intros Hp i w Hi.
  { apply zget_Some_range in Hi. unfold zlen in Hi. simpl in Hi. lia. }
  destruct (Z.eqb_spec (Z.land h PAGE_FRAME) (Z.land va PAGE_FRAME)) as [|Hne]; [done|].
  destruct (decide (i = 0)) as [->|Hi0]; [by injection Hi as <-|].
  apply (IH Hp (i - 1)). pose proof (zget_Some_range _ _ _ Hi). unfold zget in *.
  rewrite !decide_True in * by lia. by replace (Z.to_nat i) with (S (Z.to_nat (i - 1))) in Hi by lia.
Qed.

Section fault.
Context {V : Type} `{!Vref V, !VrefOk V}.
Notation st := (vm V).
Implicit Types (s : st).

(** The page part of what a slot matches. *)
Lemma slot_page s i w :
  vm_ok s → 0 ≤ i < 64 → tlb_slot_ok s i w → Z.land w.1 PAGE_FRAME = w.1.
Proof.
  intros Hok Hi [->|(v & k & Hv & Hk & ->)]; simpl.
  - rewrite tlbhi_invalid by done. apply page_land; [by rewrite Z.mod_mul|lia].
  - apply page_land; [by rewrite Z.mod_mul|lia].
Qed.

(** A valid slot for the page translates its addresses. *)
Lemma tlb_hit s v k i va :
  vm_ok s → tlb_ok s → 0 ≤ v < 524288 → va / 4096 = v → frame s (vm_cur s) v = Some k →
  zget (vm_tlb s) i = Some (v * 4096, tlb_word (page_paddr (vm_heap s) k)) →
  tlb_translate (vm_tlb s) va = Some (page_paddr (vm_heap s) k + va mod 4096).
Proof.
  intros Hok [Hlen Hslot Honce] Hv Hva Hf Hi. unfold tlb_translate.
  assert (Hpage : Z.land va PAGE_FRAME = v * 4096) by (rewrite land_frame; [by rewrite Hva|Z.div_mod_to_equations; lia]).
  pose proof (frame_range _ _ _ _ Hok Hf) as Hr. destruct (paddr_small s k Hok Hr) as (Hp1 & Hp2 & Hp3).
  assert (0 ≤ va mod 4096 < 4096) by (apply Z.mod_pos_bound; lia).
  destruct (tlb_probe (vm_tlb s) va) as [elo|] eqn:Hp.
  - apply tlb_probe_Some in Hp as (j & ehi & Hj & Heq). pose proof (zget_Some_range _ _ _ Hj).
    pose proof (slot_page s j _ Hok ltac:(unfold NUM_TLB in *; lia) (Hslot _ _ Hj)) as Hpg. simpl in Hpg.
    assert (j = i) as -> by (eapply Honce; [done|done|simpl; congruence]).
    rewrite Hi in Hj. injection Hj as <- <-. destruct (Z.eqb_spec (Z.land (tlb_word (page_paddr (vm_heap s) k)) TLBLO_VALID) 0) as [Hz|_].
    + by apply tlb_word_valid in Hz.
    + rewrite tlb_word_page, land_low, page_lor by (done || lia). done.
  - pose proof (tlb_probe_None _ _ Hp _ _ Hi) as Hne. simpl in Hne. rewrite Hpage in Hne.
    destruct Hne. apply page_land; [by rewrite Z.mod_mul|lia].
Qed.

(** A hit gives the right byte; after a miss no slot has the page. *)
Lemma tlb_translate_spec s va :
  vm_ok s → tlb_ok s → 0 ≤ va < 2147483648 →
  match tlb_translate (vm_tlb s) va with
  | Some pa => ∃ k, frame s (vm_cur s) (va / 4096) = Some k ∧ pa = page_paddr (vm_heap s) k + va mod 4096
  | None => ∀ i w, zget (vm_tlb s) i = Some w → w.1 ≠ va / 4096 * 4096
  end.
Proof.
  intros Hok Htlb Hva. pose proof Htlb as [Hlen Hslot Honce]. unfold NUM_TLB in Hlen.
  set (v := va / 4096). assert (Hv : 0 ≤ v < 524288) by (subst v; Z.div_mod_to_equations; lia).
  assert (Hin : ∀ i w, zget (vm_tlb s) i = Some w → w.1 = v * 4096 →
    ∃ k, frame s (vm_cur s) v = Some k ∧ w = (v * 4096, tlb_word (page_paddr (vm_heap s) k))).
  { intros i w Hi Hw. pose proof (zget_Some_range _ _ _ Hi).
    destruct (Hslot i w Hi) as [->|(v' & k & Hv' & Hk & ->)]; simpl in *.
    - rewrite tlbhi_invalid in Hw by lia. lia.
    - assert (v' = v) as -> by lia. eauto. }
  destruct (tlb_translate (vm_tlb s) va) as [pa|] eqn:Ht.
  - pose proof Ht as Ht'. unfold tlb_translate in Ht'. destruct (tlb_probe (vm_tlb s) va) as [elo|] eqn:Hp; [|done].
    apply tlb_probe_Some in Hp as (i & ehi & Hi & Heq). pose proof (zget_Some_range _ _ _ Hi).
    pose proof (slot_page s i _ Hok ltac:(lia) (Hslot _ _ Hi)) as Hpg. simpl in Hpg.
    destruct (Hin i _ Hi) as (k & Hk & [= -> ->]).
    { simpl. rewrite <- Hpg, Heq, land_frame; [done|lia]. }
    exists k. split; [done|]. rewrite (tlb_hit s v k i va) in Ht by done. congruence.
  - intros i w Hi Hw. destruct (Hin i w Hi Hw) as (k & Hk & ->).
    by rewrite (tlb_hit s v k i va) in Ht.
Qed.

(** ** Loading the TLB *)

Lemma tlb_load_spec n i fa p s :
  0 ≤ i → i + Z.of_nat n = zlen (vm_tlb s) →
  wp (tlb_load n i fa p)
     (λ b s', if (b : bool)
        then ∃ j w, zget (vm_tlb s) j = Some w ∧ s' = set_tlb (zset (vm_tlb s) j (fa, tlb_word p)) s
        else s' = s ∧ ∀ j w, i ≤ j → zget (vm_tlb s) j = Some w → Z.land w.2 TLBLO_VALID ≠ 0)
     (λ _ _, False) s.
Proof.
  revert i. induction n as [|n IH]; intros i Hi Hn; simpl.
  { apply wp_ret. split; [done|]. intros j w Hj Hw. apply zget_Some_range in Hw. lia. }
  destruct (zget_is_Some (vm_tlb s) i) as [[ehi elo] Hw]; [lia|].
  wp_bind. unfold TLB_Read. wp_bind. apply wp_gets. rewrite Hw. apply wp_ret.
  destruct (Z.eqb_spec (Z.land elo TLBLO_VALID) 0) as [|Hv]; simpl.
  - wp_bind. apply wp_modify. apply wp_ret. by exists i, (ehi, elo).
  - wp_use IH; [lia|lia| |done]. intros [] s'; [done|]. intros [-> Hall]. split; [done|].
    intros j w Hj Hjw. destruct (decide (j = i)) as [->|]; [|apply (Hall j); [lia|done]].
    rewrite Hw in Hjw. by injection Hjw as <-.
Qed.

Lemma tlb_set s j w :
  tlb_ok s → tlb_slot_ok s j w → (∀ i w', i ≠ j → zget (vm_tlb s) i = Some w' → w'.1 ≠ w.1) →
  tlb_ok (set_tlb (zset (vm_tlb s) j w) s).
Proof.
  intros [] Hw Hne.
  assert (Hget : ∀ i w', zget (zset (vm_tlb s) j w) i = Some w' →
    i = j ∧ w' = w ∨ i ≠ j ∧ zget (vm_tlb s) i = Some w').
  { intros i w' Hi. destruct (decide (i = j)) as [->|]; [|rewrite zget_zset_ne in Hi by done; auto].
    pose proof (zget_Some_range _ _ _ Hi) as Hr. rewrite zlen_zset in Hr. rewrite zget_zset_eq in Hi by done.
    left. split; congruence. }
  split; simpl; [by rewrite zlen_zset| |].
  - intros i w' [[-> ->]|[_ Hi]]%Hget; [done|by apply tl_slot].
  - intros i i' w1 w2 [[-> ->]|[Hi1 H1]]%Hget [[-> ->]|[Hi2 H2]]%Hget He; try done.
    + by destruct (Hne _ _ Hi2 H2).
    + by destruct (Hne _ _ Hi1 H1).
    + by eapply tl_once.
Qed.
Lemma vm_ok_tlb s l : vm_ok s → tlb_ok (set_tlb l s) → vm_ok (set_tlb l s).
Proof. intros [] Ht. split; try done. apply Ht. Qed.
Lemma vm_ok_spl s n : vm_ok s → vm_ok (set_spl n s).
Proof. intros []. split; try done. intros Hc. by eapply tlb_ok_ext; [apply vo_tlb|..]. Qed.

Lemma load_page s v k j w :
  vm_ok s → tlb_ok s → 0 ≤ v < 524288 → frame s (vm_cur s) v = Some k →
  (∀ i w, zget (vm_tlb s) i = Some w → w.1 ≠ v * 4096) → zget (vm_tlb s) j = Some w →
  let s' := set_tlb (zset (vm_tlb s) j (v * 4096, tlb_word (page_paddr (vm_heap s) k))) s in
  vm_ok s' ∧ ∀ va, va / 4096 = v →
    tlb_translate (vm_tlb s') va = Some (page_paddr (vm_heap s) k + va mod 4096).
Proof.
  intros Hok Ht Hv Hf Hmiss Hj s'. pose proof (zget_Some_range _ _ _ Hj).
  assert (Ht' : tlb_ok s').
  { apply tlb_set; [done|right; by exists v, k|]. intros i w' _ Hi. by apply (Hmiss i). }
  assert (Hok' : vm_ok s') by by apply vm_ok_tlb. split; [done|]. intros va Hva.
  apply (tlb_hit s' v k j va); try done. by apply zget_zset_eq.
Qed.

Lemma install_spec s v k rnd spl :
  vm_ok s → tlb_ok s → 0 ≤ v < 524288 → frame s (vm_cur s) v = Some k →
  (∀ i w, zget (vm_tlb s) i = Some w → w.1 ≠ v * 4096) →
  wp (install (v * 4096) (page_paddr (vm_heap s) k) rnd spl)
     (λ _ s', vm_ok s' ∧ (∃ l, s' = set_spl spl (set_tlb l s)) ∧
        ∀ va, va / 4096 = v → tlb_translate (vm_tlb s') va = Some (page_paddr (vm_heap s) k + va mod 4096))
     (λ _ _, False) s.
Proof.
  intros Hok Ht Hv Hf Hmiss. pose proof (tl_len _ Ht) as Hlen. unfold install. wp_bind.
  wp_use tlb_load_spec; [done|by rewrite Hlen| |done]. intros [] s1.
  { intros (j & w & Hj & ->). destruct (load_page s v k j w) as [Hok1 Htr]; [done..|]. apply wp_modify.
    split_and!; [by apply vm_ok_spl|by eexists|done]. }
  intros [-> Hfull]. cbv zeta. set (n := u32 rnd mod NUM_TLB).
  assert (Hn : 0 ≤ n < 64) by (apply (Z.mod_pos_bound _ 64); lia).
  wp_bind. apply wp_modify. set (s1 := set_tlb _ s).
  assert (Ht1 : tlb_ok s1).
  { apply tlb_set; [done|by left|]. intros i w' Hi Hw. pose proof (zget_Some_range _ _ _ Hw) as Hr.
    rewrite Hlen in Hr. unfold NUM_TLB in Hr. simpl. rewrite tlbhi_invalid by done.
    destruct (tl_slot _ Ht i w' Hw) as [->|(v' & k' & Hv' & _ & ->)]; simpl; [rewrite tlbhi_invalid by done|]; lia. }
  assert (Hok1 : vm_ok s1) by by apply vm_ok_tlb.
  assert (Hmiss1 : ∀ i w, zget (vm_tlb s1) i = Some w → w.1 ≠ v * 4096).
  { intros i w Hi. simpl in Hi. destruct (decide (i = n)) as [->|].
    - rewrite zget_zset_eq in Hi by (unfold NUM_TLB in *; lia). injection Hi as <-. simpl. rewrite tlbhi_invalid; lia.
    - rewrite zget_zset_ne in Hi by done. by apply (Hmiss i). }
  wp_bind. wp_use tlb_load_spec; [done|by rewrite (tl_len _ Ht1)| |done]. intros [] s2.
  - intros (j & w & Hj & ->). destruct (load_page s1 v k j w) as [Hok2 Htr]; [done..|]. apply wp_modify.
    split_and!; [by apply vm_ok_spl|by eexists|done].
  - intros [-> Hall]. exfalso. apply (Hall n (TLBHI_INVALID n, TLBLO_INVALID)); [lia| |done].
    simpl. apply zget_zset_eq. unfold NUM_TLB in *. lia.
Qed.

(** ** The page table *)

Lemma lookup_page_spec s a A v :
  vm_ok s → vm_as s !! a = Some A → 0 ≤ v < 524288 →
  wp (lookup_page a (v * 4096)) (λ o s', s' = s ∧ o = page_paddr (vm_heap s) <$> frame s a v) (λ _ _, False) s.
Proof.
  intros Hok HA Hv. unfold lookup_page. wp_bind. eapply wp_get_as; [done|]. rewrite L1Tindex_page, L2Tindex_page.
  assert (Hi : 0 ≤ v / 1024 < LEVEL1_SIZE) by (unfold LEVEL1_SIZE; Z.div_mod_to_equations; lia).
  destruct (lvone_get s a A (v / 1024)) as (t & Ht & Htab); [done..|].
  wp_bind. eapply wp_or_wild; [done|]. unfold frame, slot. rewrite Htab. destruct (Z.eqb_spec t 0) as [->|Hne].
  { by apply wp_ret. }
  destruct (vo_tab _ Hok _ _ _ Htab) as (L & HL & Hlen). wp_bind. eapply wp_get_l2; [done|].
  destruct (zget_is_Some L (v mod 1024)) as [e He]; [rewrite Hlen; by apply (Z.mod_pos_bound v 1024)|].
  wp_bind. eapply wp_or_wild; [done|]. simpl. rewrite HL. simpl. rewrite He. simpl.
  destruct (vo_slot _ Hok a v e) as [->|[k ->]]; [|by apply wp_ret..].
  unfold slot. rewrite Htab. simpl. by rewrite HL.
Qed.

(** ** Growing an address space *)

(** What a fault leaves alone: all but the page tables and the end of the
    stack. *)
Definition core (A : addrspace) : addrspace := set_EOStack 0 (set_lvone [] A).
Definition grown s s' : Prop :=
  vm_cur s' = vm_cur s ∧ vm_vn s' = vm_vn s ∧ core <$> vm_as s' = core <$> vm_as s ∧
  entries_only (vm_heap s) (vm_heap s').
Lemma kept_grown s s' : kept s s' → grown s s'.
Proof.
  intros (? & _ & _ & ? & Hm & ?). split_and!; try done.
  apply (f_equal (fmap (set_EOStack 0))) in Hm. rewrite <- !map_fmap_compose in Hm. done.
Qed.

Definition no_memory s (a v : Z) : Prop :=
  (∀ j e, zget (cm_entries (kh_pages (vm_heap s))) j = Some e → allocated e ≠ 0) ∨
  tab s a (v / 1024) = None.

Lemma incStack_spec s a A v :
  vm_ok s → vm_as s !! a = Some A → 0 ≤ v < 524288 → frame s a v = None →
  wp (incStack a (v * 4096))
     (λ o s', vm_ok s' ∧ grown s s' ∧ vm_tlb s' = vm_tlb s ∧
        match o with
        | Some p => ∃ k A', p = page_paddr (vm_heap s) k ∧ mapped s s' a v k ∧
            vm_as s' !! a = Some A' ∧ EOStack A' = i32 (EOStack A - PAGE_SIZE)
        | None => unmapped s s' ∧ no_memory s a v
        end)
     (λ _ _, False) s.
Proof.
  intros Hok HA Hv Hf. unfold incStack. wp_bind. wp_use map_page_spec; [done..| |done].
  intros [p|] s1 (Hok1 & Hk1 & Hm).
  2: { apply wp_ret. split; [done|]. split; [by apply kept_grown|]. split; [by apply Hk1|done]. }
  destruct (kept_as _ _ _ _ Hk1 HA) as (A1 & HA1 & Heq). destruct Hm as (k & -> & Hfr & Hram).
  assert (EOStack A1 = EOStack A) as HE by by injection Heq. rewrite <- HE.
  wp_bind. eapply wp_get_as; [done|]. wp_bind. apply wp_modify. apply wp_ret.
  set (A2 := set_EOStack _ A1).
  assert (Hok2 : vm_ok (set_spaces (<[a := A2]> (vm_as s1)) s1)).
  { eapply vm_ok_as; [done..|]. destruct (vo_as _ Hok1 a A1 HA1). split; try done. simpl. apply i32_range. }
  split; [done|]. split; [|split; [by apply Hk1|]].
  - apply kept_grown in Hk1 as (? & ? & Hc & ?). split_and!; try done. simpl.
    rewrite <- Hc, fmap_insert. apply insert_id. by rewrite lookup_fmap, HA1.
  - exists k, A2. split; [done|]. split; [|split; [by simpl; rewrite lookup_insert_eq|done]]. split; [|done].
    intros a' v'. rewrite <- Hfr. unfold frame, slot. by rewrite (tab_update s1 a A1).
Qed.
Lemma incHeap_spec s a A v :
  vm_ok s → vm_as s !! a = Some A → 0 ≤ v < 524288 → frame s a v = None →
  wp (incHeap a (v * 4096))
     (λ o s', vm_ok s' ∧ grown s s' ∧ vm_tlb s' = vm_tlb s ∧
        match o with
        | Some p => ∃ k A', p = page_paddr (vm_heap s) k ∧ mapped s s' a v k ∧
            vm_as s' !! a = Some A' ∧ EOStack A' = EOStack A
        | None => unmapped s s' ∧ no_memory s a v
        end)
     (λ _ _, False) s.
Proof.
  intros Hok HA Hv Hf. unfold incHeap. wp_use map_page_spec; [done..| |done].
  intros o s1 (Hok1 & Hk1 & Hm). split; [done|]. split; [by apply kept_grown|]. split; [by apply Hk1|].
  destruct o as [p|]; [|done]. destruct Hm as (k & -> & Hm).
  destruct (kept_as _ _ _ _ Hk1 HA) as (A1 & HA1 & Heq). exists k, A1. by injection Heq.
Qed.

Lemma grow_spec s a A v :
  vm_ok s → vm_as s !! a = Some A → 0 ≤ v < 524288 → frame s a v = None →
  wp (grow a (v * 4096))
     (λ o s', vm_ok s' ∧ grown s s' ∧ vm_tlb s' = vm_tlb s ∧
        match o with
        | Some p => ∃ k A', p = page_paddr (vm_heap s) k ∧ mapped s s' a v k ∧
            position A (v * 4096) ≠ 10 ∧ vm_as s' !! a = Some A' ∧
            EOStack A' = if position A (v * 4096) =? 0 then i32 (EOStack A - PAGE_SIZE) else EOStack A
        | None => unmapped s s' ∧ (position A (v * 4096) = 10 ∨ no_memory s a v)
        end)
     (λ _ _, False) s.
Proof.
  intros Hok HA Hv Hf. unfold grow. wp_bind. eapply wp_get_as; [done|]. cbv zeta.
  assert (Hp : position A (v * 4096) = 0 ∨ position A (v * 4096) = 1 ∨ position A (v * 4096) = 10).
  { unfold position. repeat case_match; auto. }
  destruct Hp as [-> | [-> | ->]]; simpl.
  - wp_use incStack_spec; [done..| |done]. intros [p|] s' (? & ? & ? & Hm); (split; [done|]); (split; [done|]); (split; [done|]).
    + destruct Hm as (k & A' & ? & ? & ? & ?). by exists k, A'.
    + destruct Hm as [? ?]. auto.
  - wp_use incHeap_spec; [done..| |done]. intros [p|] s' (? & ? & ? & Hm); (split; [done|]); (split; [done|]); (split; [done|]).
    + destruct Hm as (k & A' & ? & ? & ? & ?). by exists k, A'.
    + destruct Hm as [? ?]. auto.
  - apply wp_ret. split; [done|]. split; [by split_and!|]. split; [done|]. split; [done|by left].
Qed.

(** ** Faults *)

Lemma vm_fault_spec s ft va rnd A :
  vm_ok s → vm_cur s ≠ 0 → vm_as s !! vm_cur s = Some A → 0 ≤ va < 2147483648 →
  ft = VM_FAULT_READ ∨ ft = VM_FAULT_WRITE → tlb_translate (vm_tlb s) va = None →
  wp (vm_fault ft va rnd)
     (λ _ s', vm_ok s' ∧ grown s s' ∧ vm_spl s' = vm_spl s ∧ ∃ k,
        tlb_translate (vm_tlb s') va = Some (page_paddr (vm_heap s) k + va mod 4096) ∧
        (frame s (vm_cur s) (va / 4096) = Some k ∧ unmapped s s' ∨
         frame s (vm_cur s) (va / 4096) = None ∧ mapped s s' (vm_cur s) (va / 4096) k ∧
         position A (va / 4096 * 4096) ≠ 10))
     (λ e s', e = EFAULT ∧ vm_ok s' ∧ grown s s' ∧ vm_spl s' = vm_spl s ∧ unmapped s s' ∧
        frame s (vm_cur s) (va / 4096) = None ∧
        (position A (va / 4096 * 4096) = 10 ∨ no_memory s (vm_cur s) (va / 4096)))
     s.
Proof.
  intros Hok Hc HA Hva Hft Hmiss. set (v := va / 4096).
  assert (Hv : 0 ≤ v < 524288) by (subst v; Z.div_mod_to_equations; lia).
  assert (Hnone : ∀ i w, zget (vm_tlb s) i = Some w → w.1 ≠ v * 4096).
  { pose proof (tlb_translate_spec s va Hok (vo_tlb _ Hok Hc) Hva) as Ht. by rewrite Hmiss in Ht. }
  unfold vm_fault. wp_bind. unfold splhigh. wp_bind. apply wp_gets. wp_bind. apply wp_modify. apply wp_ret.
  rewrite land_frame by lia. fold v. cbv zeta.
  assert (ft =? VM_FAULT_READONLY = false) as -> by (destruct Hft as [-> | ->]; done).
  assert ((ft =? VM_FAULT_READ) || (ft =? VM_FAULT_WRITE) = true) as -> by (destruct Hft as [-> | ->]; done).
  simpl. set (s0 := set_spl SPL_HIGH s). assert (Hok0 : vm_ok s0) by by apply vm_ok_spl.
  wp_bind. apply wp_gets. change (vm_cur s0) with (vm_cur s). destruct (Z.eqb_spec (vm_cur s) 0); [done|].
  wp_bind. wp_use lookup_page_spec; [done..| |done]. intros o s1 [-> ->].
  change (frame s0) with (frame s). change (vm_heap s0) with (vm_heap s).
  destruct (frame s (vm_cur s) v) as [k|] eqn:Hf; simpl.
  - destruct (paddr_small s k Hok (frame_range _ _ _ _ Hok Hf)) as (? & ? & ?).
    wp_bind. apply wp_ret. rewrite page_land by (done || lia). wp_bind. apply wp_kassert; [apply Z.eqb_refl|].
    wp_use (install_spec s0 v k); [done|by apply (vo_tlb _ Hok0)|done|done|done| |done].
    intros [] s' (Hok' & (l & ->) & Htr). split; [done|]. split; [by split_and!|]. split; [done|].
    exists k. split; [by apply Htr|by left].
  - wp_bind. wp_use grow_spec; [done..| |done]. intros o s1 (Hok1 & Hg & Htl & Hm). destruct o as [p|].
    + destruct Hm as (k & A' & -> & Hm & Hp & _). change (vm_heap s0) with (vm_heap s) in *.
      assert (Hf1 : frame s1 (vm_cur s1) v = Some k).
      { destruct Hm as [Hfr _], Hg as [-> _]. rewrite Hfr. by rewrite decide_True. }
      pose proof (frame_range _ _ _ _ Hok1 Hf1) as Hr. destruct (paddr_small s1 k Hok1 Hr) as (? & ? & ?).
      destruct Hg as (Hcur & Hvn & Hcore & He). change (vm_heap s0) with (vm_heap s) in He.
      rewrite <- (entries_only_paddr _ _ k He). rewrite page_land by (done || lia).
      wp_bind. apply wp_kassert; [apply Z.eqb_refl|].
      wp_use (install_spec s1 v k); [done|apply (vo_tlb _ Hok1); by rewrite Hcur|done|done|by rewrite Htl| |done].
      intros [] s' (Hok' & (l & ->) & Htr). split; [done|]. split; [by split_and!|]. split; [done|].
      exists k. rewrite <- (entries_only_paddr _ _ k He). split; [by apply Htr|]. right. split; [done|].
      split; [exact Hm|done].
    + destruct Hm as [Hun Hwhy]. wp_bind. apply wp_modify. apply wp_fail. split; [done|].
      split; [by apply vm_ok_spl|]. split; [exact Hg|]. split; [done|]. split; [exact Hun|]. split; [done|exact Hwhy].
Qed.
End fault.
