(* ===== verification/VmOps.v ===== *)
(** * Virtual memory: user accesses and the operations on address spaces *)

From S2P Require Import Prelude Kmem KPages Coremap KHeap KHeapSpec KHeapOps Vm VmPages VmSpec VmFault.

(** A memory after page [v] of [a] was touched: its bytes are there, and are 0
    when they were not. *)
Definition touch (m : Z → Z → option Z) (a v : Z) : Z → Z → option Z := λ a' va,
  if decide (a' = a ∧ va / 4096 = v) then Some (default 0 (m a' va)) else m a' va.
Definition poke (m : Z → Z → option Z) (a va b : Z) : Z → Z → option Z := λ a' va',
  if decide (a' = a ∧ va' = va) then Some b else m a' va'.

Section ops.
Context {V : Type} `{!Vref V, !VrefOk V}.
Notation st := (vm V).
Implicit Types (s : st).

(** ** What programs see *)

Lemma amem_frame s a va : amem s a va = None ↔ frame s a (va / 4096) = None.
Proof. unfold amem. by destruct (frame s a (va / 4096)). Qed.

Lemma amem_unmapped s s' : unmapped s s' → entries_only (vm_heap s) (vm_heap s') →
  ∀ a va, amem s' a va = amem s a va.
Proof.
  intros [Hf Hr] He a va. unfold amem. rewrite Hf, Hr. destruct (frame s a (va / 4096)); [|done].
  simpl. by rewrite (entries_only_paddr _ _ _ He).
Qed.
Lemma amem_touched s s' a v k : frame s a v = Some k → unmapped s s' → entries_only (vm_heap s) (vm_heap s') →
  ∀ a' va, amem s' a' va = touch (amem s) a v a' va.
Proof.
  intros Hf Hu He a' va. rewrite (amem_unmapped s s') by done. unfold touch. case_decide as Hd; [|done].
  destruct Hd as [-> <-]. unfold amem. by rewrite Hf.
Qed.

(** Bytes of different pages are at different addresses. *)
Lemma paddr_apart s a v k a' v' k' x x' :
  vm_ok s → frame s a v = Some k → frame s a' v' = Some k' → 0 ≤ x < 4096 → 0 ≤ x' < 4096 →
  page_paddr (vm_heap s) k + x = page_paddr (vm_heap s) k' + x' → a = a' ∧ v = v' ∧ x = x'.
Proof.
  intros Hok Hf Hf' Hx Hx' He. unfold page_paddr in He. assert (k = k') as <- by lia.
  destruct (frame_inj s a v a' v' k) as [-> ->]; [done..|]. split_and!; [done|done|lia].
Qed.

Lemma amem_mapped s s' a v k :
  vm_ok s' → frame s a v = None → mapped s s' a v k → entries_only (vm_heap s) (vm_heap s') →
  ∀ a' va, amem s' a' va = touch (amem s) a v a' va.
Proof.
  intros Hok Hnone [Hf Hr] He a' va. assert (0 ≤ va mod 4096 < 4096) by (apply Z.mod_pos_bound; lia).
  unfold touch, amem. rewrite Hf, Hr. case_decide as Hd.
  - simpl. destruct Hd as [-> ->]. rewrite Hnone. simpl. rewrite (entries_only_paddr _ _ _ He).
    unfold PAGE_SIZE. destruct (Z.leb_spec (page_paddr (vm_heap s) k) (page_paddr (vm_heap s) k + va mod 4096)); [|lia].
    destruct (Z.ltb_spec (page_paddr (vm_heap s) k + va mod 4096) (page_paddr (vm_heap s) k + 4096)); [done|lia].
  - destruct (frame s a' (va / 4096)) as [k'|] eqn:Hk'; [|done]. simpl. rewrite (entries_only_paddr _ _ _ He).
    case_match eqn:Hb; [|done]. exfalso. apply andb_prop in Hb as [H1%Z.leb_le H2%Z.ltb_lt]. unfold PAGE_SIZE in H2.
    apply Hd. destruct (paddr_apart s' a' (va / 4096) k' a v k (va mod 4096)
      (page_paddr (vm_heap s) k' + va mod 4096 - page_paddr (vm_heap s) k)) as (? & ? & _); try done.
    + by rewrite Hf, decide_False.
    + by rewrite Hf, decide_True.
    + lia.
    + rewrite !(entries_only_paddr _ _ _ He). lia.
Qed.

(** ** User accesses *)

(** Why an access to a page that is not there was refused. *)
Definition refused s (va : Z) : Prop :=
  amem s (vm_cur s) va = None ∧
  ((∃ A, vm_as s !! vm_cur s = Some A ∧ position A (va / 4096 * 4096) = 10) ∨
   no_memory s (vm_cur s) (va / 4096)).
(** What every user access leaves alone. *)
Definition quiet s s' : Prop := grown s s' ∧ vm_spl s' = vm_spl s.

Lemma user_address_spec s ft va rnd :
  vm_ok s → vm_cur s ≠ 0 → 0 ≤ va < 2147483648 → ft = VM_FAULT_READ ∨ ft = VM_FAULT_WRITE →
  wp (user_address ft va rnd)
     (λ pa s', vm_ok s' ∧ quiet s s' ∧ (∀ a' va', amem s' a' va' = touch (amem s) (vm_cur s) (va / 4096) a' va') ∧
        ∃ k, frame s' (vm_cur s) (va / 4096) = Some k ∧ pa = page_paddr (vm_heap s') k + va mod 4096)
     (λ e s', e = EFAULT ∧ vm_ok s' ∧ quiet s s' ∧ (∀ a' va', amem s' a' va' = amem s a' va') ∧ refused s va)
     s.
Proof.
  intros Hok Hc Hva Hft. unfold user_address. wp_bind. apply wp_gets.
  pose proof (tlb_translate_spec s va Hok (vo_tlb _ Hok Hc) Hva) as Ht.
  destruct (tlb_translate (vm_tlb s) va) as [pa|] eqn:Hmiss.
  { destruct Ht as (k & Hk & ->). apply wp_ret. split; [done|]. split; [by split_and!|]. split; [|eauto].
    intros. by eapply amem_touched. }
  destruct (vo_cur _ Hok Hc) as [A HA]. wp_bind.
  eapply wp_mono; [by apply (vm_fault_spec s ft va rnd A)| |].
  - intros [] s' (Hok' & Hg & Hspl & k & Htr & Hcase). wp_bind. apply wp_gets. rewrite Htr. apply wp_ret.
    pose proof Hg as (_ & _ & _ & He). split; [done|]. split; [done|].
    destruct Hcase as [[Hf Hu]|(Hf & Hm & _)]; (split; [|exists k; rewrite (entries_only_paddr _ _ _ He); split; [|done]]).
    + intros. by eapply amem_touched.
    + destruct Hu as [-> _]. done.
    + intros. by eapply amem_mapped.
    + destruct Hm as [-> _]. by rewrite decide_True.
  - intros e s' (-> & Hok' & Hg & Hspl & Hu & Hf & Hwhy). pose proof Hg as (_ & _ & _ & He).
    split; [done|]. split; [done|]. split; [done|]. split; [intros; by apply amem_unmapped|].
    split; [by apply amem_frame|]. destruct Hwhy; [left; eauto|by right].
Qed.

Lemma user_load_spec s va rnd :
  vm_ok s → vm_cur s ≠ 0 → 0 ≤ va < 2147483648 →
  wp (user_load va rnd)
     (λ b s', vm_ok s' ∧ quiet s s' ∧ b = default 0 (amem s (vm_cur s) va) ∧
        ∀ a' va', amem s' a' va' = touch (amem s) (vm_cur s) (va / 4096) a' va')
     (λ e s', e = EFAULT ∧ vm_ok s' ∧ quiet s s' ∧ (∀ a' va', amem s' a' va' = amem s a' va') ∧ refused s va)
     s.
Proof.
  intros Hok Hc Hva. unfold user_load. wp_bind. wp_use user_address_spec; [done|done|done|by left| |done].
  intros pa s' (Hok' & Hq & Hm & k & Hf & ->). wp_bind. apply wp_gets. apply wp_ret.
  split; [done|]. split; [done|]. split; [|done].
  assert (Hs : amem s' (vm_cur s) va = Some (vm_ram s' (page_paddr (vm_heap s') k + va mod 4096))).
  { unfold amem. by rewrite Hf. }
  rewrite Hm in Hs. unfold touch in Hs. rewrite decide_True in Hs by done. congruence.
Qed.

(** Writing a byte of a page changes that byte. *)
Lemma amem_poke s a va k b :
  vm_ok s → frame s a (va / 4096) = Some k → ∀ a' va',
  amem (set_ram (λ x, if x =? page_paddr (vm_heap s) k + va mod 4096 then b else vm_ram s x) s) a' va' = poke (amem s) a va b a' va'.
Proof.
  intros Hok Hf a' va'. unfold poke, amem. change (frame (set_ram _ s)) with (frame s).
  assert (∀ x, 0 ≤ x mod 4096 < 4096) as Hmod by (intros; apply Z.mod_pos_bound; lia).
  case_decide as Hd.
  - destruct Hd as [-> ->]. rewrite Hf. simpl. by rewrite Z.eqb_refl.
  - destruct (frame s a' (va' / 4096)) as [k'|] eqn:Hk'; [|done]. simpl. f_equal.
    destruct (Z.eqb_spec (page_paddr (vm_heap s) k' + va' mod 4096) (page_paddr (vm_heap s) k + va mod 4096)) as [He|]; [|done].
    destruct Hd. destruct (paddr_apart _ _ _ _ _ _ _ _ _ Hok Hk' Hf (Hmod _) (Hmod _) He) as (-> & ? & ?).
    split; [done|]. Z.div_mod_to_equations. lia.
Qed.

Lemma user_store_spec s va b rnd :
  vm_ok s → vm_cur s ≠ 0 → 0 ≤ va < 2147483648 →
  wp (user_store va b rnd)
     (λ _ s', vm_ok s' ∧ quiet s s' ∧
        ∀ a' va', amem s' a' va' = poke (touch (amem s) (vm_cur s) (va / 4096)) (vm_cur s) va b a' va')
     (λ e s', e = EFAULT ∧ vm_ok s' ∧ quiet s s' ∧ (∀ a' va', amem s' a' va' = amem s a' va') ∧ refused s va)
     s.
Proof.
  intros Hok Hc Hva. unfold user_store. wp_bind. wp_use user_address_spec; [done|done|done|by right| |done].
  intros pa s' (Hok' & Hq & Hm & k & Hf & ->). apply wp_modify.
  split; [by apply vm_ok_ram|]. split; [exact Hq|]. intros a' va'. rewrite (amem_poke s' (vm_cur s) va k) by done.
  unfold poke. by rewrite Hm.
Qed.

(** ** New address spaces *)

(** Memory that was never used: the fields [as_create] does not set. *)
Definition blank (A : addrspace) : Prop :=
  zlen (lvone A) = LEVEL1_SIZE ∧ (∀ i t, zget (lvone A) i = Some t → t = 0) ∧ 0 ≤ heap_end A < 4294967296.

Lemma add_space s h a A :
  vm_ok s → heap_ok h → entries_only (vm_heap s) h → new_block a PAGE_SIZE (vm_heap s) h →
  as_ok A → (∀ i t, zget (lvone A) i = Some t → t = 0) →
  let s' := set_spaces (<[a := A]> (vm_as s)) (set_kheap h s) in
  vm_ok s' ∧ vm_as s !! a = None ∧ ∀ a' v, frame s' a' v = frame s a' v.
Proof.
  intros Hok Hh He (Ha0 & Hfresh & Hlive) HA Hz s'.
  assert (Hnone : vm_as s !! a = None).
  { apply eq_None_not_Some. intros [B HB].
    assert (Hl : kh_live (vm_heap s) !! a = Some PAGE_SIZE) by (apply (proj1 (vo_own _ Hok) (R_as a)); simpl; by rewrite HB).
    congruence. }
  assert (Ht : ∀ a' i, tab s' a' i = tab s a' i).
  { intros a' i. unfold tab. simpl. destruct (decide (a' = a)) as [->|]; [|by rewrite lookup_insert_ne].
    rewrite lookup_insert_eq, Hnone. simpl. destruct (zget (lvone A) i) as [t|] eqn:Hi; [|done].
    simpl. by rewrite (Hz i t Hi). }
  pose proof (slot_tab (set_kheap h s) s' Ht eq_refl) as Hs.
  assert (Hf : ∀ a' v, frame s' a' v = frame s a' v).
  { intros. unfold frame. by rewrite Hs. }
  split; [|done]. destruct Hok. split; simpl; try done.
  - by rewrite (entries_only_num _ _ He), (entries_only_paddr _ _ _ He).
  - intros a' B. destruct (decide (a' = a)) as [->|]; [rewrite lookup_insert_eq; by intros [= <-]|].
    rewrite lookup_insert_ne by done. apply vo_as.
  - intros a' i t. rewrite Ht. apply vo_tab.
  - intros a' v e. rewrite Hs. intros Hsl. destruct (vo_slot a' v e Hsl) as [->|[k ->]]; [by left|right].
    exists k. by rewrite (entries_only_paddr _ _ _ He).
  - rewrite Hlive. apply (owned_add _ (own s) _ (R_as a)); [done|done|]. intros [a'|a' i|a' v] b; simpl.
    + destruct (decide (a' = a)) as [->|]; [rewrite lookup_insert_eq|rewrite lookup_insert_ne by done; auto].
      intros [= <-]. auto.
    + rewrite Ht. auto.
    + rewrite Hf. intros (k & -> & ->)%fmap_Some. left. simpl. by rewrite (entries_only_kaddr _ _ _ He).
  - intros [x Hx]%vo_cur. rewrite lookup_insert_ne; [eauto|congruence].
  - intros Hc. eapply tlb_ok_ext; [by apply vo_tlb|done|done|done|]. intros v k. by rewrite Hf.
Qed.

(** Nothing but the address spaces changed. *)
Definition calm s s' : Prop :=
  vm_cur s' = vm_cur s ∧ vm_tlb s' = vm_tlb s ∧ vm_spl s' = vm_spl s ∧ vm_vn s' = vm_vn s ∧
  ∀ a va, amem s' a va = amem s a va.

Definition fresh_as (junk : addrspace) : addrspace := mkas 0 0 0 (heap_end junk) 0 0 0 0 (lvone junk).
Lemma as_create_spec s junk :
  vm_ok s → blank junk →
  wp (as_create junk)
     (λ a s', vm_ok s' ∧ calm s s' ∧
        (a = 0 ∧ vm_as s' = vm_as s ∨
         a ≠ 0 ∧ vm_as s !! a = None ∧ vm_as s' = <[a := fresh_as junk]> (vm_as s) ∧
         ∀ va, amem s' a va = None))
     (λ _ _, False) s.
Proof.
  intros Hok (Hlen & Hz & Hend). unfold as_create. wp_bind. unfold vmheap. apply wp_zoom.
  wp_use (heap_kmalloc_pages (vm_heap s) _ 1); [by apply vo_heap|done|done| |done].
  intros a h (Hh & He & _ & [[-> Hlive]|Hnew]).
  - apply wp_ret. split; [apply vm_ok_heap; [done..|]; rewrite Hlive; by apply vo_own|]. split; [|by left].
    split_and!; try done. intros. by apply amem_unmapped.
  - destruct (Z.eqb_spec a 0) as [->|Ha]; [by destruct Hnew|]. wp_bind. apply wp_modify. apply wp_ret.
    destruct (add_space s h a (fresh_as junk)) as (Hok' & Hnone & Hf); [done..|by split|done|].
    split; [done|]. split.
    + split_and!; try done. intros. by apply amem_unmapped.
    + right. split_and!; try done. intros va. apply amem_frame. etrans; [apply Hf|].
      unfold frame, slot, tab. by rewrite Hnone.
Qed.

(** A change to the fields of an address space is not seen by programs. *)
Lemma amem_as s a A A' :
  vm_as s !! a = Some A → lvone A' = lvone A →
  ∀ a' va, amem (set_spaces (<[a := A']> (vm_as s)) s) a' va = amem s a' va.
Proof.
  intros HA Hl a' va. unfold amem, frame, slot. by rewrite (tab_update s a A A' HA Hl).
Qed.

(** The child gets the bounds of the parent's regions and none of its pages. *)
Lemma as_copy_spec s junk old O :
  vm_ok s → blank junk → vm_as s !! old = Some O →
  wp (as_copy junk old)
     (λ new s', vm_ok s' ∧ calm s s' ∧ new ≠ 0 ∧ vm_as s !! new = None ∧ (∀ va, amem s' new va = None) ∧
        vm_as s' = <[new := mkas 0 0 0 (heap_end junk) (as_npages2 O) (as_npages1 O) (as_vbase1 O) (as_vbase2 O)
                               (lvone junk)]> (vm_as s))
     (λ e s', e = ENOMEM ∧ vm_ok s' ∧ calm s s' ∧ vm_as s' = vm_as s)
     s.
Proof.
  intros Hok Hb HO. unfold as_copy. wp_bind. wp_use as_create_spec; [done|done| |done].
  intros a s1 (Hok1 & Hc1 & [[-> Has]|(Ha & Hnone & Has & Hnew)]); [by apply wp_fail|].
  destruct (Z.eqb_spec a 0); [done|].
  assert (HO1 : vm_as s1 !! old = Some O) by (rewrite Has, lookup_insert_ne; [done|congruence]).
  assert (HA1 : vm_as s1 !! a = Some (fresh_as junk)) by by rewrite Has, lookup_insert_eq.
  wp_bind. eapply wp_get_as; [done|]. wp_bind. eapply wp_get_as; [done|]. wp_bind. apply wp_modify. apply wp_ret.
  destruct Hb as (Hlen & Hz & Hend). split; [eapply vm_ok_as; [done..|by split]|].
  destruct Hc1 as (? & ? & ? & ? & Hm). split; [|split_and!; try done].
  - split_and!; try done. intros a' va. by rewrite (amem_as s1 a (fresh_as junk)).
  - intros va. by rewrite (amem_as s1 a (fresh_as junk)).
  - simpl. by rewrite Has, insert_insert_eq.
Qed.

(** ** Making an address space current *)

Lemma as_activate_spec s a :
  zlen (vm_tlb s) = NUM_TLB →
  wp (as_activate a)
     (λ _ s', ∃ l, s' = set_tlb l s ∧ zlen l = NUM_TLB ∧
        ∀ i w, zget l i = Some w → w = (TLBHI_INVALID i, TLBLO_INVALID))
     (λ _ _, False) s.
Proof.
  intros Hlen. unfold as_activate. wp_bind. unfold splhigh. wp_bind. apply wp_gets. wp_bind. apply wp_modify. apply wp_ret.
  wp_bind. eapply wp_mono; [apply (wp_for_range (λ k s', ∃ l, s' = set_tlb l (set_spl SPL_HIGH s) ∧ zlen l = NUM_TLB ∧
    ∀ i w, i < k → zget l i = Some w → w = (TLBHI_INVALID i, TLBLO_INVALID)) (λ _ _, False))| |done].
  - exists (vm_tlb s). split_and!; [by destruct s|done|]. intros i w Hi Hw. apply zget_Some_range in Hw. lia.
  - intros i s' Hi (l & -> & Hl & Hall). apply wp_modify. eexists. split; [done|]. simpl.
    split; [by rewrite zlen_zset|]. intros j w Hj. destruct (decide (j = i)) as [->|].
    + rewrite zget_zset_eq by (rewrite Hl; unfold NUM_TLB in *; lia). by intros [= <-].
    + rewrite zget_zset_ne by done. apply Hall. lia.
  - intros [] s' (l & -> & Hl & Hall). apply wp_modify. exists l. split_and!; [by destruct s|done|].
    intros i w Hw. apply Hall; [|done]. apply zget_Some_range in Hw. unfold NUM_TLB in *. lia.
Qed.

Lemma vm_ok_idle s : vm_ok s → vm_ok (set_cur 0 s).
Proof. by intros []; split. Qed.
Lemma vm_ok_flushed s a l :
  vm_ok s → is_Some (vm_as s !! a) → zlen l = NUM_TLB →
  (∀ i w, zget l i = Some w → w = (TLBHI_INVALID i, TLBLO_INVALID)) → vm_ok (set_tlb l (set_cur a s)).
Proof.
  intros [] Ha Hl Hall. split; try done. intros _. split; simpl; [done| |].
  - intros i w Hw. left. by apply Hall.
  - intros i j w w' Hi Hj He. pose proof (zget_Some_range _ _ _ Hi). pose proof (zget_Some_range _ _ _ Hj).
    apply Hall in Hi as ->, Hj as ->. simpl in He. unfold NUM_TLB in *. rewrite !tlbhi_invalid in He by lia. lia.
Qed.

(** The memory of every program, and the vnodes, stay as they are. *)
Definition same_memory s s' : Prop :=
  vm_as s' = vm_as s ∧ vm_vn s' = vm_vn s ∧ vm_spl s' = vm_spl s ∧ ∀ a va, amem s' a va = amem s a va.

Lemma switch_vmspace_spec s a :
  vm_ok s → a = 0 ∨ is_Some (vm_as s !! a) →
  wp (switch_vmspace a) (λ _ s', vm_ok s' ∧ vm_cur s' = a ∧ same_memory s s') (λ _ _, False) s.
Proof.
  intros Hok Ha. unfold switch_vmspace. wp_bind. apply wp_modify. apply wp_when.
  - intros Hne%negb_true_iff%Z.eqb_neq. destruct Ha as [|Ha]; [congruence|].
    wp_use (as_activate_spec (set_cur a s)); [exact (vo_len _ Hok)| |done].
    intros [] s' (l & -> & Hl & Hall). split; [by apply vm_ok_flushed|]. split; [done|by split_and!].
  - intros ->%negb_false_iff%Z.eqb_eq. split; [by apply vm_ok_idle|]. split; [done|by split_and!].
Qed.

(** ** The fields of an address space *)

(** [A] became [A'] and nothing else changed. *)
Definition became s s' (a : Z) (A' : addrspace) : Prop :=
  vm_as s' = <[a := A']> (vm_as s) ∧ calm s s'.

Lemma put_as_spec s a A A' :
  vm_ok s → vm_as s !! a = Some A → lvone A' = lvone A → as_ok A' →
  wp (put_as a A') (λ _ s', vm_ok s' ∧ became s s' a A') (λ _ _, False) s.
Proof.
  intros Hok HA Hl HA'. apply wp_modify. split; [by eapply vm_ok_as|]. split; [done|]. split_and!; try done.
  intros. by apply (amem_as s a A).
Qed.

Lemma as_define_stack_spec s a A :
  vm_ok s → vm_as s !! a = Some A →
  wp (as_define_stack a)
     (λ sp s', vm_ok s' ∧ sp = USERSTACK ∧ became s s' a (set_EOStack (i32 USERSTACK) A)) (λ _ _, False) s.
Proof.
  intros Hok HA. unfold as_define_stack. wp_bind. eapply wp_get_as; [done|]. wp_bind.
  wp_use put_as_spec; [done|done|done| | |done].
  - by destruct (vo_as _ Hok a A HA).
  - intros [] s' [? ?]. by apply wp_ret.
Qed.

(** The region that [vaddr] and [sz] describe: whole pages that cover it. *)
Definition region_base (vaddr : Z) : Z := vaddr / 4096 * 4096.
Definition region_top (vaddr sz : Z) : Z := (vaddr + sz + 4095) / 4096 * 4096.

Lemma region_sz vaddr sz :
  0 ≤ vaddr → 0 ≤ sz → vaddr + sz + 4095 < 4294967296 →
  Z.land (u32 (u32 (u32 (sz + Z.land vaddr (u32 (Z.lnot PAGE_FRAME))) + PAGE_SIZE) - 1)) PAGE_FRAME
    = region_top vaddr sz - region_base vaddr ∧
  Z.land vaddr PAGE_FRAME = region_base vaddr ∧ Z.land (region_base vaddr) PAGE_FRAME = region_base vaddr ∧
  0 ≤ region_top vaddr sz < 4294967296.
Proof.
  intros Hva Hsz Hend. rewrite land_low. unfold region_top, region_base, PAGE_SIZE.
  pose proof (Z.div_mod vaddr 4096 ltac:(done)) as Hd. pose proof (Z.mod_pos_bound vaddr 4096 ltac:(done)) as Hm.
  set (q := vaddr / 4096) in *. set (r := vaddr mod 4096) in *. clearbody q r. subst vaddr.
  rewrite (u32_small (sz + r)) by lia.
  assert (u32 (u32 (sz + r + 4096) - 1) = sz + r + 4095) as ->.
  { unfold u32. rewrite Zminus_mod_idemp_l, Z.mod_small; lia. }
  rewrite !land_frame by lia. replace (4096 * q + r + sz + 4095) with (sz + r + 4095 + q * 4096) by lia.
  rewrite Z.div_add, Z.div_mul by done. pose proof (Z.mul_div_le (sz + r + 4095) 4096 ltac:(done)).
  assert (0 ≤ (sz + r + 4095) / 4096) by (apply Z.div_pos; lia). 
  replace ((4096 * q + r) / 4096) with q by (Z.div_mod_to_equations; lia). split_and!; lia.
Qed.
Lemma as_define_region_spec s a A vaddr sz r w x counter :
  vm_ok s → vm_as s !! a = Some A → 0 ≤ vaddr → 0 ≤ sz → vaddr + sz + 4095 < 4294967296 →
  let base := region_base vaddr in
  let top := region_top vaddr sz in
  let npages := (top - base) / 4096 in
  wp (as_define_region a vaddr sz r w x counter)
     (λ _ s', vm_ok s' ∧
        (counter = 0 ∧ as_vbase1 A = 0 ∧ became s s' a (raise_heap top (set_region1 base npages A)) ∨
         counter = 1 ∧ as_vbase2 A = 0 ∧ became s s' a (raise_heap top (set_region2 base npages A))))
     (λ e s', e = EUNIMP ∧ s' = s ∧ ¬ (counter = 0 ∧ as_vbase1 A = 0) ∧ ¬ (counter = 1 ∧ as_vbase2 A = 0))
     s.
Proof.
  intros Hok HA Hva Hsz Hend base top npages. destruct (region_sz vaddr sz Hva Hsz Hend) as (H1 & H2 & H3 & Ht).
  unfold as_define_region. rewrite H1, H2, H3. fold base top in Ht |- *. cbv zeta.
  replace (base + (top - base)) with top by lia. rewrite (u32_small top) by done.
  change PAGE_SIZE with 4096. fold npages.
  wp_bind. eapply wp_get_as; [done|]. pose proof (vo_as _ Hok a A HA) as HAok.
  assert (Hr : ∀ B, as_ok B → as_ok (raise_heap top B)).
  { intros B [? ? ? ?]. unfold raise_heap. case_match; by split. }
  assert (Hl : ∀ B, lvone (raise_heap top B) = lvone B) by (intros; unfold raise_heap; by case_match).
  destruct (Z.eqb_spec counter 0) as [Hc0|Hc0], (Z.eqb_spec (as_vbase1 A) 0) as [Hv0|Hv0]; simpl.
  1: { wp_use put_as_spec; [done|done|by rewrite Hl|apply Hr; destruct HAok; by split| |done].
       intros [] s' [? ?]. split; [done|]. by left. }
  all: destruct (Z.eqb_spec counter 1) as [Hc1|Hc1], (Z.eqb_spec (as_vbase2 A) 0) as [Hv1|Hv1]; simpl;
    try (apply wp_fail; split_and!; naive_solver); try lia.
  all: wp_use put_as_spec; [done|done|by rewrite Hl|apply Hr; destruct HAok; by split| |done];
       intros [] s' [? ?]; split; [done|]; by right.
Qed.
End ops.
