(* ===== verification/VmLife.v ===== *)
(** * Virtual memory: the break, the program's file, and the end of an address
      space *)

From S2P Require Import Prelude Kmem KPages Coremap KHeap KHeapSpec KHeapOps Vm VmPages VmSpec VmFault VmOps.

Section life.
Context {V : Type} `{!Vref V, !VrefOk V}.
Notation st := (vm V).
Implicit Types (s : st).

(** ** The break *)

Lemma sys_sbrk_spec s A size :
  vm_ok s → vm_as s !! vm_cur s = Some A → -2147483648 ≤ size < 2147483648 →
  heap_start A ≤ heap_end A ≤ heap_start A + heap_size → heap_start A + heap_size + malloc_limit < 4294967296 →
  wp (sys_sbrk size)
     (λ r s', vm_ok s' ∧
        if decide (size < malloc_limit ∧ heap_start A ≤ heap_end A + size ≤ heap_start A + heap_size)
        then r = i32 (heap_end A) ∧ became s s' (vm_cur s) (set_heap (heap_start A) (heap_end A + size) A)
        else r = -1 ∧ s' = s)
     (λ _ _, False) s.
Proof.
  intros Hok HA Hsz Hh Hh2. unfold sys_sbrk. wp_bind. unfold splhigh. wp_bind. apply wp_gets. wp_bind. apply wp_modify.
  apply wp_ret. wp_bind. apply wp_gets. change (vm_cur (set_spl SPL_HIGH s)) with (vm_cur s).
  assert (Hback : set_spl (vm_spl s) (set_spl SPL_HIGH s) = s) by by destruct s.
  destruct (Z.leb_spec malloc_limit size).
  { wp_bind. apply wp_modify. apply wp_ret. rewrite decide_False by lia. by rewrite Hback. }
  wp_bind. eapply wp_get_as; [done|]. destruct (vo_as _ Hok _ A HA) as [Hl Hst Hs0 He0].
  unfold heap_size, malloc_limit in *. set (x := heap_end A + size - heap_start A).
  assert (Hu : u32 (u32 (heap_end A + u32 size) - heap_start A) = x mod 4294967296).
  { unfold u32, x. rewrite Zminus_mod_idemp_l.
    replace (heap_end A + size mod 4294967296 - heap_start A) with (size mod 4294967296 + (heap_end A - heap_start A)) by lia.
    rewrite Zplus_mod_idemp_l. f_equal. lia. }
  rewrite Hu. destruct (decide (0 ≤ x ≤ 5242880)) as [Hx|Hx].
  - rewrite Z.mod_small by lia. destruct (Z.ltb_spec 5242880 x); [lia|].
    assert (u32 (heap_end A + u32 size) = heap_end A + size) as ->.
    { unfold u32. rewrite Zplus_mod_idemp_r. apply Z.mod_small. unfold x in Hx. lia. }
    wp_bind. wp_use put_as_spec; [by apply vm_ok_spl|done|done|split; simpl; try done; unfold x in Hx; lia| |done].
    intros [] s' (Hok' & Has & Hc & Ht & Hsp & Hvn & Hm). wp_bind. apply wp_modify. apply wp_ret.
    split; [by apply vm_ok_spl|]. rewrite decide_True by (unfold x in Hx; lia).
    split; [done|]. split; [done|]. by split_and!.
  - destruct (Z.ltb_spec 5242880 (x mod 4294967296)) as [|Hlt].
    + wp_bind. apply wp_modify. apply wp_ret. rewrite decide_False by (unfold x in Hx; lia). by rewrite Hback.
    + exfalso. destruct (decide (0 ≤ x)); [rewrite Z.mod_small in Hlt; unfold x in *; lia|].
      assert (x mod 4294967296 = x + 4294967296) by (symmetry; apply (Z.mod_unique _ _ (-1)); unfold x in *; lia).
      unfold x in *. lia.
Qed.

(** Whatever the break was, no memory is touched. *)
Lemma sys_sbrk_safe s A size :
  vm_ok s → vm_as s !! vm_cur s = Some A →
  wp (sys_sbrk size)
     (λ r s', vm_ok s' ∧ calm s s' ∧
        (vm_as s' = vm_as s ∨ ∃ e, vm_as s' = <[vm_cur s := set_heap (heap_start A) e A]> (vm_as s)))
     (λ _ _, False) s.
Proof.
  intros Hok HA. unfold sys_sbrk. wp_bind. unfold splhigh. wp_bind. apply wp_gets. wp_bind. apply wp_modify.
  apply wp_ret. wp_bind. apply wp_gets. change (vm_cur (set_spl SPL_HIGH s)) with (vm_cur s).
  assert (Hback : set_spl (vm_spl s) (set_spl SPL_HIGH s) = s) by by destruct s.
  destruct (malloc_limit <=? size).
  { wp_bind. apply wp_modify. apply wp_ret. rewrite Hback. by split; [|split; [split_and!|left]]. }
  wp_bind. eapply wp_get_as; [done|]. cbv zeta. case_match.
  { wp_bind. apply wp_modify. apply wp_ret. rewrite Hback. by split; [|split; [split_and!|left]]. }
  wp_bind. wp_use put_as_spec; [by apply vm_ok_spl|done|done| | |done].
  { destruct (vo_as _ Hok _ A HA). split; try done. simpl. apply Z.mod_pos_bound. lia. }
  intros [] s' (Hok' & Has & Hc & Ht & Hsp & Hvn & Hm). wp_bind. apply wp_modify. apply wp_ret.
  split; [by apply vm_ok_spl|]. split; [by split_and!|]. right. by eexists.
Qed.

(** ** The end of an address space *)

Lemma tab_range s a i t : vm_ok s → tab s a i = Some t → 0 ≤ i < LEVEL1_SIZE.
Proof.
  intros Hok Ht. unfold tab in Ht. destruct (vm_as s !! a) as [A|] eqn:HA; [|done]. simpl in Ht.
  destruct (zget (lvone A) i) as [t'|] eqn:Hz; [|done]. apply zget_Some_range in Hz.
  by rewrite (ao_lvone _ (vo_as _ Hok a A HA)) in Hz.
Qed.
Lemma frame_page s a v k : vm_ok s → frame s a v = Some k → 0 ≤ v < 524288.
Proof.
  intros Hok Hf. unfold frame, slot in Hf. destruct (tab s a (v / 1024)) as [t|] eqn:Ht; [|done].
  apply tab_range in Ht; [|done]. unfold LEVEL1_SIZE in Ht. Z.div_mod_to_equations. lia.
Qed.

(** The first [n] pages of [a] were given back. *)
Record freed s (a n : Z) s' : Prop := {
  fr_ok : vm_ok s';
  fr_as : vm_as s' = vm_as s;
  fr_same : vm_cur s' = vm_cur s ∧ vm_tlb s' = vm_tlb s ∧ vm_ram s' = vm_ram s ∧
            vm_spl s' = vm_spl s ∧ vm_vn s' = vm_vn s;
  fr_only : entries_only (vm_heap s) (vm_heap s');
  fr_frame : ∀ a' v, frame s' a' v = if decide (a' = a ∧ v < n) then None else frame s a' v;
  fr_live : ∀ b u, kh_live (vm_heap s') !! b = Some u ↔
    kh_live (vm_heap s) !! b = Some u ∧ ∀ v, v < n → own s (R_page a v) ≠ Some b;
}.

Lemma freed_start s a : vm_ok s → freed s a 0 s.
Proof.
  intros Hok. split; try done.
  - intros a' v. case_decide as Hd; [|done]. destruct Hd as [-> Hv].
    destruct (frame s a v) eqn:Hf; [|done]. apply frame_page in Hf; [lia|done].
  - intros b u. split; [|by intros [? _]]. intros Hb. split; [done|]. intros v Hv. simpl.
    destruct (frame s a v) eqn:Hf; [|done]. apply frame_page in Hf; [lia|done].
Qed.
(** Pages that are not mapped need nothing. *)
Lemma freed_skip s a n m s' :
  freed s a n s' → n ≤ m → (∀ v, n ≤ v < m → frame s a v = None) → freed s a m s'.
Proof.
  intros [] Hnm Hnone. split; try done.
  - intros a' v. rewrite fr_frame0. destruct (decide (a' = a)) as [->|]; [|by rewrite !decide_False by (by intros [? _])].
    destruct (decide (v < n)); [by rewrite !decide_True by lia|]. rewrite decide_False by lia.
    case_decide; [|done]. apply Hnone. lia.
  - intros b u. rewrite fr_live0. split; intros [? Hv]; (split; [done|]); intros v Hvm; [|apply Hv; lia].
    destruct (decide (v < n)); [by apply Hv|]. simpl. by rewrite Hnone by lia.
Qed.

(** A page given back and its entry cleared. *)
Lemma unmap_slot s h a v t L k :
  vm_ok s → vm_cur s ≠ a → 0 ≤ v → tab s a (v / 1024) = Some t → vm_l2 s !! t = Some L → frame s a v = Some k →
  heap_ok h → entries_only (vm_heap s) h →
  kh_live h = delete (page_kaddr (vm_heap s) k) (kh_live (vm_heap s)) →
  let s' := set_tables (<[t := zset L (v mod 1024) (mkpe None 0 0)]> (vm_l2 s)) (set_kheap h s) in
  vm_ok s' ∧ ∀ a' v', frame s' a' v' = if decide (a' = a ∧ v' = v) then None else frame s a' v'.
Proof.
  intros Hok Hc Hv Ht HL Hk Hh He Hlive s'.
  pose proof (slot_update s a v t L (mkpe None 0 0) Hok Hv Ht HL) as Hs.
  change (slot (set_tables _ s)) with (slot s') in Hs.
  assert (Hf : ∀ a' v', frame s' a' v' = if decide (a' = a ∧ v' = v) then None else frame s a' v').
  { intros a' v'. unfold frame. rewrite Hs. by case_decide. }
  assert (Hown : ∀ r, own s r = Some (page_kaddr (vm_heap s) k) → r = R_page a v).
  { intros r Hr. apply (proj2 (vo_own _ Hok) _ _ _ Hr). simpl. by rewrite Hk. }
  split; [|done]. destruct Hok. split; simpl; try done.
  - by rewrite (entries_only_num _ _ He), (entries_only_paddr _ _ _ He).
  - intros a' i' t' Ht'. destruct (vo_tab a' i' t' Ht') as (L' & HL' & Hlen).
    destruct (decide (t' = t)) as [->|]; [|rewrite lookup_insert_ne by done; eauto].
    rewrite lookup_insert_eq. eexists. split; [done|]. rewrite zlen_zset. congruence.
  - intros a' v' e. rewrite Hs. case_decide; [intros [= <-]; by left|]. intros Hsl.
    destruct (vo_slot a' v' e Hsl) as [->|[k' ->]]; [by left|right]. exists k'. by rewrite (entries_only_paddr _ _ _ He).
  - rewrite Hlive. eapply owned_del; [done|]. intros r b Hr.
    assert (Hr' : own s r = Some b).
    { destruct r as [a'|a' i'|a' v']; simpl in *; [done..|]. rewrite Hf in Hr. case_decide; [done|].
      apply fmap_Some in Hr as (k' & -> & ->). simpl. by rewrite (entries_only_kaddr _ _ _ He). }
    split; [done|]. intros ->. apply Hown in Hr' as ->. simpl in Hr. by rewrite Hf, decide_True in Hr.
  - intros Hcur. eapply tlb_ok_ext; [by apply vo_tlb|done|done|done|]. intros v' k' Hk'.
    rewrite Hf, decide_False; [done|]. by intros [? _].
Qed.

Lemma destroy_slot_spec s a v t s' :
  freed s a v s' → vm_cur s ≠ a → 0 ≤ v → tab s a (v / 1024) = Some t →
  wp (destroy_slot t (v mod 1024)) (λ _ s'', freed s a (v + 1) s'') (λ _ _, False) s'.
Proof.
  intros Hfr Hc Hv Ht. pose proof Hfr as [Hok Has (Hcur & Htlb & Hram & Hspl & Hvn) He Hf Hl].
  assert (Ht' : tab s' a (v / 1024) = Some t) by (unfold tab; by rewrite Has).
  destruct (vo_tab _ Hok _ _ _ Ht') as (L & HL & Hlen).
  destruct (zget_is_Some L (v mod 1024)) as [e Hz]; [rewrite Hlen; by apply (Z.mod_pos_bound v 1024)|].
  assert (Hs : slot s' a v = Some e) by (unfold slot; rewrite Ht'; simpl; by rewrite HL).
  unfold destroy_slot. wp_bind. eapply wp_get_l2; [done|]. wp_bind. eapply wp_or_wild; [done|].
  assert (Hfa : frame s' a v = frame s a v) by (rewrite Hf, decide_False; [done|lia]).
  destruct (vo_slot _ Hok a v e Hs) as [->|[k ->]]; simpl.
  { apply wp_ret. apply (freed_skip s a v); [done|lia|]. intros v' Hv'. replace v' with v by lia.
    rewrite <- Hfa. unfold frame. by rewrite Hs. }
  assert (Hk : frame s' a v = Some k) by (unfold frame; by rewrite Hs).
  assert (Hb : own s (R_page a v) = Some (page_kaddr (vm_heap s') k)).
  { simpl. rewrite <- Hfa, Hk. simpl. by rewrite (entries_only_kaddr _ _ _ He). }
  wp_bind. unfold in_coremap, vmheap. apply wp_zoom. wp_use heap_clear_page; [by apply vo_heap| | |done].
  { apply (proj1 (vo_own _ Hok) (R_page a v)). simpl. by rewrite Hk. }
  intros [] h (Hh & He' & Hlive). apply wp_modify.
  destruct (unmap_slot s' h a v t L k) as [Hok2 Hf2]; [done|by rewrite Hcur|done..|].
  split; [done|done|done|by etrans| |].
  - intros a' v'. rewrite Hf2, Hf. repeat case_decide; try done; destruct_and?; subst.
    + lia.
    + assert (v' ≠ v) by naive_solver. lia.
    + lia.
  - intros b u. simpl. rewrite Hlive, lookup_delete_Some, Hl. split.
    + intros [Hne [? Hall]]. split; [done|]. intros v' Hv'. destruct (decide (v' = v)) as [->|]; [|apply Hall; lia].
      simpl in Hb. rewrite Hb. by intros [= <-].
    + intros [? Hall]. split; [|split; [done|intros; apply Hall; lia]]. intros <-. apply (Hall v); [lia|done].
Qed.

Lemma destroy_table_spec s a A i s' :
  vm_as s !! a = Some A → freed s a (i * 1024) s' → vm_ok s → vm_cur s ≠ a → 0 ≤ i < LEVEL1_SIZE →
  wp (destroy_table A i) (λ _ s'', freed s a ((i + 1) * 1024) s'') (λ _ _, False) s'.
Proof.
  intros HA Hfr Hok Hc Hi. destruct (lvone_get s a A i) as (t & Ht & Htab); [done..|].
  unfold destroy_table. wp_bind. eapply wp_or_wild; [done|]. apply wp_when.
  - intros Hne%negb_true_iff. rewrite Hne in Htab.
    eapply wp_mono; [apply (wp_for_range (λ j s2, freed s a (i * 1024 + j) s2) (λ _ _, False))| |done].
    + by rewrite Z.add_0_r.
    + intros j s2 Hj Hfr2. unfold LEVEL2_SIZE in Hj.
      replace (i * 1024 + (j + 1)) with (i * 1024 + j + 1) by lia.
      replace j with ((i * 1024 + j) mod 1024) at 1 by (rewrite Z.add_comm, Z.mod_add, Z.mod_small; lia).
      apply destroy_slot_spec; [done|done|lia|].
      replace ((i * 1024 + j) / 1024) with i; [done|]. rewrite Z.add_comm, Z.div_add, Z.div_small; lia.
    + intros [] s2. unfold LEVEL2_SIZE. by replace ((i + 1) * 1024) with (i * 1024 + (0 + Z.of_nat (Z.to_nat 1024))) by lia.
  - intros Hz%negb_false_iff. rewrite Hz in Htab. apply (freed_skip s a (i * 1024)); [done|lia|].
    intros v Hv. unfold frame, slot. replace (v / 1024) with i by (Z.div_mod_to_equations; lia). by rewrite Htab.
Qed.

(** ** The file of a program *)

(** The number of address spaces that hold a reference to the vnode [v]. *)
Definition holders (m : gmap Z addrspace) (v : Z) : Z := Z.of_nat (size (filter (λ kv, as_v kv.2 = v) m)).
Definition refs_ok s : Prop := ∀ v, v ≠ 0 → holders (vm_as s) v ≤ vrefs (vm_vn s) v.

Lemma holders_insert m a A v :
  m !! a = None → holders (<[a := A]> m) v = holders m v + if decide (as_v A = v) then 1 else 0.
Proof.
  intros Ha. unfold holders. case_decide.
  - rewrite map_filter_insert_True by done. rewrite map_size_insert_None; [lia|]. apply map_lookup_filter_None. by left.
  - rewrite map_filter_insert_False by done. rewrite delete_id by done. lia.
Qed.
Lemma holders_delete m a A v :
  m !! a = Some A → holders (delete a m) v = holders m v - if decide (as_v A = v) then 1 else 0.
Proof.
  intros Ha. rewrite <- (insert_delete_id m a A) at 2 by done.
  rewrite holders_insert by apply lookup_delete_eq. lia.
Qed.
Lemma holders_update m a A A' v :
  m !! a = Some A → holders (<[a := A']> m) v = holders m v - (if decide (as_v A = v) then 1 else 0)
                                                + if decide (as_v A' = v) then 1 else 0.
Proof.
  intros Ha. rewrite <- insert_delete_eq, holders_insert by apply lookup_delete_eq. by rewrite (holders_delete m a A).
Qed.
Lemma holders_nonneg m v : 0 ≤ holders m v.
Proof. unfold holders. lia. Qed.

Lemma vm_ok_vns s v : vm_ok s → vm_ok (set_vns v s).
Proof. intros []. split; try done. intros Hc. by eapply tlb_ok_ext; [apply vo_tlb|..]. Qed.

Lemma as_prepare_load_spec s a A v :
  vm_ok s → refs_ok s → vm_as s !! a = Some A → as_v A = 0 → v ≠ 0 → 0 < vrefs (vm_vn s) v →
  wp (as_prepare_load a v)
     (λ _ s', vm_ok s' ∧ refs_ok s' ∧ vm_as s' = <[a := set_v v A]> (vm_as s) ∧ vm_cur s' = vm_cur s ∧
        vm_spl s' = vm_spl s ∧
        (∀ w, vrefs (vm_vn s') w = vrefs (vm_vn s) w + if decide (w = v) then 1 else 0) ∧
        ∀ a' va, amem s' a' va = amem s a' va)
     (λ _ _, False) s.
Proof.
  intros Hok Hrefs HA Hv0 Hv Hpos. unfold as_prepare_load. wp_bind. eapply wp_get_as; [done|].
  wp_bind. apply wp_kassert; [by rewrite Hv0|]. wp_bind. wp_use (put_as_spec s a A); [done|done|done| | |done].
  { destruct (vo_as _ Hok a A HA). by split. }
  intros [] s1 (Hok1 & Has & Hc & Ht & Hsp & Hvn & Hm). unfold on_vnodes. apply wp_zoom. rewrite Hvn.
  wp_use VOP_INCREF_spec; [done| |done]. intros [] vn' Hr.
  split; [by apply vm_ok_vns|]. split; [|by split_and!]. intros w Hw. simpl. rewrite Has, Hr.
  rewrite (holders_update _ a A) by done. specialize (Hrefs w Hw). simpl. repeat case_decide; try lia; congruence.
Qed.

(** The address space leaves the table when its pages are gone. *)
Lemma remove_space s h a :
  vm_ok s → vm_cur s ≠ a → (∀ v, frame s a v = None) → heap_ok h → entries_only (vm_heap s) h →
  kh_live h = delete a (kh_live (vm_heap s)) → is_Some (vm_as s !! a) →
  let s' := set_spaces (delete a (vm_as s)) (set_kheap h s) in
  vm_ok s' ∧ ∀ a' v, frame s' a' v = frame s a' v.
Proof.
  intros Hok Hc Hnone Hh He Hlive [A HA] s'.
  assert (Ht : ∀ a' i, tab s' a' i = if decide (a' = a) then None else tab s a' i).
  { intros a' i. unfold tab. simpl. case_decide as Hd; [subst; by rewrite lookup_delete_eq|by rewrite lookup_delete_ne]. }
  assert (Hs : ∀ a' v, slot s' a' v = if decide (a' = a) then None else slot s a' v).
  { intros a' v. unfold slot. rewrite Ht. by case_decide. }
  assert (Hf : ∀ a' v, frame s' a' v = frame s a' v).
  { intros a' v. destruct (decide (a' = a)) as [->|]; [rewrite Hnone|]; unfold frame; rewrite Hs; by case_decide. }
  assert (Hown : ∀ r, own s r = Some a → r = R_as a).
  { intros r Hr. apply (proj2 (vo_own _ Hok) _ _ _ Hr). simpl. by rewrite HA. }
  split; [|done]. destruct Hok. split; simpl; try done.
  - by rewrite (entries_only_num _ _ He), (entries_only_paddr _ _ _ He).
  - intros a' B [_ HB]%lookup_delete_Some. by eapply vo_as.
  - intros a' i t. rewrite Ht. case_decide; [done|]. apply vo_tab.
  - intros a' v e. rewrite Hs. case_decide; [done|]. intros Hsl.
    destruct (vo_slot a' v e Hsl) as [->|[k ->]]; [by left|right]. exists k. by rewrite (entries_only_paddr _ _ _ He).
  - rewrite Hlive. eapply owned_del; [done|]. intros r b Hr.
    assert (Hr' : own s r = Some b).
    { destruct r as [a'|a' i'|a' v']; simpl in *.
      - apply fmap_Some in Hr as (B & [_ ->]%lookup_delete_Some & ->). done.
      - rewrite Ht in Hr. by case_decide.
      - rewrite Hf in Hr. apply fmap_Some in Hr as (k & -> & ->). simpl. by rewrite (entries_only_kaddr _ _ _ He). }
    split; [done|]. intros ->. apply Hown in Hr' as ->. simpl in Hr. by rewrite lookup_delete_eq in Hr.
  - intros Hcur. destruct (vo_cur Hcur) as [B HB]. rewrite lookup_delete_ne by done. eauto.
  - intros Hcur. eapply tlb_ok_ext; [by apply vo_tlb|done|done|done|]. intros v k. by rewrite Hf.
Qed.

(** The blocks of [a] that are given back: itself and its pages, but none of
    its second-level tables. *)
Definition released s (a b : Z) : Prop := b = a ∨ ∃ v, own s (R_page a v) = Some b.

Record destroyed s (a : Z) (A : addrspace) s' : Prop := {
  de_ok : vm_ok s';
  de_refs : refs_ok s';
  de_as : vm_as s' = delete a (vm_as s);
  de_same : vm_cur s' = vm_cur s ∧ vm_spl s' = vm_spl s;
  de_mem : ∀ a' va, amem s' a' va = if decide (a' = a) then None else amem s a' va;
  de_live : ∀ b u, kh_live (vm_heap s') !! b = Some u ↔ kh_live (vm_heap s) !! b = Some u ∧ ¬ released s a b;
  de_vn : ∀ w, vrefs (vm_vn s') w = vrefs (vm_vn s) w - if decide (w = as_v A ∧ w ≠ 0) then 1 else 0;
}.

Lemma destroy_pages s a A :
  vm_ok s → vm_cur s ≠ a → vm_as s !! a = Some A →
  wp (for_range (Z.to_nat LEVEL1_SIZE) 0 (destroy_table A)) (λ _ s', freed s a 524288 s') (λ _ _, False) s.
Proof.
  intros Hok Hc HA. eapply wp_mono; [apply (wp_for_range (λ i s', freed s a (i * 1024) s') (λ _ _, False))| |done].
  - by apply freed_start.
  - intros i s' Hi Hfr. by apply destroy_table_spec.
  - done.
Qed.

(** The reference to the program's file. *)
Lemma drop_file s a A :
  refs_ok s → vm_as s !! a = Some A →
  wp (when (negb (as_v A =? 0)) (on_vnodes (VOP_DECREF (as_v A))))
     (λ _ s', ∃ vn, s' = set_vns vn s ∧
        ∀ w, vrefs vn w = vrefs (vm_vn s) w - if decide (w = as_v A ∧ w ≠ 0) then 1 else 0)
     (λ _ _, False) s.
Proof.
  intros Hrefs HA. apply wp_when.
  - intros Hv%negb_true_iff%Z.eqb_neq. unfold on_vnodes. apply wp_zoom. wp_use VOP_DECREF_spec; [|..|done].
    + specialize (Hrefs _ Hv). pose proof (holders_delete _ _ _ (as_v A) HA) as Hd. rewrite decide_True in Hd by done.
      pose proof (holders_nonneg (delete a (vm_as s)) (as_v A)). lia.
    + intros [] vn Hr. exists vn. split; [done|]. intros w. rewrite Hr. repeat case_decide; naive_solver.
  - intros Hv%negb_false_iff%Z.eqb_eq. exists (vm_vn s). split; [by destruct s|]. intros w.
    rewrite decide_False; [lia|]. intros [? ?]. congruence.
Qed.

Lemma as_destroy_spec s a A :
  vm_ok s → refs_ok s → vm_cur s ≠ a → vm_as s !! a = Some A →
  wp (as_destroy a) (λ _ s', destroyed s a A s') (λ _ _, False) s.
Proof.
  intros Hok Hrefs Hc HA. unfold as_destroy. wp_bind. unfold splhigh. wp_bind. apply wp_gets. wp_bind. apply wp_modify.
  apply wp_ret. set (s0 := set_spl SPL_HIGH s). assert (Hok0 : vm_ok s0) by by apply vm_ok_spl.
  wp_bind. eapply wp_get_as; [done|]. wp_bind. wp_use (destroy_pages s0 a A); [done..| |done].
  intros [] s1 [Hok1 Has1 (Hcur1 & _ & Hram1 & _ & Hvn1) He1 Hf1 Hl1].
  wp_bind. wp_use (drop_file s1 a A); [by intros w; rewrite Has1, Hvn1; apply Hrefs|by rewrite Has1| |done].
  intros [] s2 (vn & -> & Hr). rewrite Hvn1 in Hr.
  assert (Hown : own s (R_as a) = Some a) by (simpl; by rewrite HA).
  assert (Hlive : kh_live (vm_heap s1) !! a = Some (PAGE_SIZE * 1)).
  { apply Hl1. split; [by apply (proj1 (vo_own _ Hok) (R_as a))|]. intros v _ Hv.
    by pose proof (proj2 (vo_own _ Hok) (R_as a) (R_page a v) a Hown Hv). }
  wp_bind. unfold vmheap. apply wp_zoom. wp_use (heap_kfree_pages (vm_heap s1) a 1); [by apply vo_heap|done|done| |done].
  intros [] h (Hh & He & Hd). wp_bind. apply wp_modify. apply wp_modify.
  assert (Hnone : ∀ v, frame s1 a v = None).
  { intros v. rewrite Hf1. case_decide as Hv; [done|]. destruct (frame s0 a v) eqn:Hfv; [|done].
    apply frame_page in Hfv; [|done]. naive_solver lia. }
  destruct (remove_space (set_vns vn s1) h a) as [Hok3 Hf3];
    [by apply vm_ok_vns|by simpl; rewrite Hcur1|done|done|done|done|by simpl; rewrite Has1|].
  split.
  - by apply vm_ok_spl.
  - intros w Hw. simpl. rewrite Has1, Hr. change (vm_as s0) with (vm_as s). rewrite (holders_delete _ a A) by done.
    specialize (Hrefs w Hw). change (vm_vn s0) with (vm_vn s). repeat case_decide; naive_solver lia.
  - simpl. by rewrite Has1.
  - done.
  - intros a' va. unfold amem. change (frame (set_spl _ ?x)) with (frame x). rewrite Hf3.
    change (frame (set_vns vn s1)) with (frame s1). simpl. rewrite Hram1. case_decide as Hd'.
    + subst a'. by rewrite Hnone.
    + rewrite Hf1, decide_False by naive_solver. change (frame s0) with (frame s).
      destruct (frame s a' (va / 4096)); [|done]. simpl. by rewrite (entries_only_paddr _ _ _ He), (entries_only_paddr _ _ _ He1).
  - intros b u. simpl. rewrite Hd, lookup_delete_Some, Hl1. unfold released. change (own s0) with (own s).
    change (vm_heap s0) with (vm_heap s). split.
    + intros (Hne & ? & Hall). split; [done|]. intros [->|[v Hv]]; [done|].
      apply (Hall v); [|done]. simpl in Hv. apply fmap_Some in Hv as (k & Hk & _). apply frame_page in Hk; [lia|done].
    + intros [? Hno]. split; [naive_solver|]. split; [done|]. intros v _ Hv. apply Hno. eauto.
  - intros w. simpl. rewrite Hr. done.
Qed.

(** [thread_exit] on the current address space. *)
Lemma exit_vmspace_spec s :
  vm_ok s → refs_ok s →
  wp exit_vmspace
     (λ _ s', vm_ok s' ∧ refs_ok s' ∧ vm_cur s' = 0 ∧
        if decide (vm_cur s = 0) then s' = s else ∃ A, vm_as s !! vm_cur s = Some A ∧ destroyed (set_cur 0 s) (vm_cur s) A s')
     (λ _ _, False) s.
Proof.
  intros Hok Hrefs. unfold exit_vmspace. wp_bind. apply wp_gets. apply wp_when.
  - intros Hc%negb_true_iff%Z.eqb_neq. destruct (vo_cur _ Hok Hc) as [A HA]. wp_bind. apply wp_modify.
    wp_use (as_destroy_spec (set_cur 0 s)); [by apply vm_ok_idle|done|simpl; congruence|done| |done].
    intros [] s' Hd. pose proof Hd as [? ? ? [? ?] _ _ _]. split_and!; try done. rewrite decide_False by done. eauto.
  - intros Hc%negb_false_iff%Z.eqb_eq. by rewrite decide_True.
Qed.
End life.
