(* ===== verification/VmThm.v ===== *)
(** * Virtual memory: what programs are promised

    Programs, the loader and the scheduler act on address spaces through the
    events below.  The promise is a machine in which every address space is
    a private array of bytes: [vm_refines] is the simulation. *)

From S2P Require Import Prelude Kmem KPages Coremap KHeap KHeapSpec KHeapOps KHeapThm Vm VmPages VmSpec VmFault VmOps VmLife.

(** ** The promise *)

Inductive vm_event :=
| Ev_run (junk : addrspace)
| Ev_fork (junk : addrspace)
| Ev_switch (a : Z)
| Ev_exit
| Ev_region (vaddr sz counter : Z)
| Ev_prepare (v : Z)
| Ev_stack
| Ev_sbrk (size : Z)
| Ev_load (va rnd : Z)
| Ev_store (va b rnd : Z).

(** Private memories, and which one is in use. *)
Record amach := mkam { am_mem : Z → Z → option Z; am_cur : Z }.

(** [am_step x ev o x']: the answer to [ev] may be [o], nothing for an error. *)
Inductive am_step (x : amach) : vm_event → option Z → amach → Prop :=
| as_run junk a : a ≠ 0 → (∀ va, am_mem x a va = None) →
    am_step x (Ev_run junk) (Some a) (mkam (am_mem x) a)
| as_run_fails junk : am_step x (Ev_run junk) None x
| as_fork junk a : a ≠ 0 → a ≠ am_cur x → (∀ va, am_mem x a va = None) → am_step x (Ev_fork junk) (Some a) x
| as_fork_fails junk : am_step x (Ev_fork junk) None x
| as_switch a : am_step x (Ev_switch a) (Some 0) (mkam (am_mem x) a)
| as_exit : am_step x Ev_exit (Some 0)
    (mkam (λ a va, if decide (a = am_cur x ∧ a ≠ 0) then None else am_mem x a va) 0)
| as_field ev o : (∃ va sz c, ev = Ev_region va sz c) ∨ (∃ v, ev = Ev_prepare v) ∨ ev = Ev_stack ∨ (∃ n, ev = Ev_sbrk n) →
    am_step x ev o x
| as_load va rnd : am_step x (Ev_load va rnd) (Some (default 0 (am_mem x (am_cur x) va)))
    (mkam (touch (am_mem x) (am_cur x) (va / 4096)) (am_cur x))
| as_load_fails va rnd : am_mem x (am_cur x) va = None → am_step x (Ev_load va rnd) None x
| as_store va b rnd : am_step x (Ev_store va b rnd) (Some 0)
    (mkam (poke (touch (am_mem x) (am_cur x) (va / 4096)) (am_cur x) va b) (am_cur x))
| as_store_fails va b rnd : am_mem x (am_cur x) va = None → am_step x (Ev_store va b rnd) None x.

Section thm.
Context {V : Type} `{!Vref V, !VrefOk V}.
Notation st := (vm V).
Implicit Types (s : st).

(** ** The events *)

(** [runprogram], up to the program's start: a new address space for a thread
    that has none. *)
Definition run_vmspace (junk : addrspace) : M st Z :=
  let! cur := gets vm_cur in
  kassert (cur =? 0) ;;;
  let! a := as_create junk in
  modify (set_cur a) ;;;
  if a =? 0 then fail ENOMEM else as_activate a ;;; ret a.

Definition done_ (c : M st unit) : M st Z := c ;;; ret 0.
Definition do_event (ev : vm_event) : M st Z :=
  match ev with
  | Ev_run junk => run_vmspace junk
  | Ev_fork junk => let! a := gets vm_cur in as_copy junk a
  | Ev_switch a => done_ (switch_vmspace a)
  | Ev_exit => done_ exit_vmspace
  | Ev_region vaddr sz c => let! a := gets vm_cur in done_ (as_define_region a vaddr sz 0 0 0 c)
  | Ev_prepare v => let! a := gets vm_cur in done_ (as_prepare_load a v)
  | Ev_stack => let! a := gets vm_cur in as_define_stack a
  | Ev_sbrk size => sys_sbrk size
  | Ev_load va rnd => user_load va rnd
  | Ev_store va b rnd => done_ (user_store va b rnd)
  end.

(** When an event can happen. *)
Definition enabled s (ev : vm_event) : Prop :=
  match ev with
  | Ev_run junk => vm_cur s = 0 ∧ blank junk
  | Ev_fork junk => vm_cur s ≠ 0 ∧ blank junk
  | Ev_switch a => a = 0 ∨ is_Some (vm_as s !! a)
  | Ev_exit => True
  | Ev_region vaddr sz _ => vm_cur s ≠ 0 ∧ 0 ≤ vaddr ∧ 0 ≤ sz ∧ vaddr + sz + 4095 < 4294967296
  | Ev_prepare v => v ≠ 0 ∧ 0 < vrefs (vm_vn s) v ∧ ∃ A, vm_cur s ≠ 0 ∧ vm_as s !! vm_cur s = Some A ∧ as_v A = 0
  | Ev_stack => vm_cur s ≠ 0
  | Ev_sbrk _ => vm_cur s ≠ 0
  | Ev_load va _ => vm_cur s ≠ 0 ∧ 0 ≤ va < 2147483648
  | Ev_store va _ _ => vm_cur s ≠ 0 ∧ 0 ≤ va < 2147483648
  end.

Definition vm_inv s : Prop := vm_ok s ∧ refs_ok s.
Definition vm_rel s (x : amach) : Prop := (∀ a va, amem s a va = am_mem x a va) ∧ vm_cur s = am_cur x.

(** What one event must lead to. *)
Definition matched (x : amach) (ev : vm_event) (o : option Z) s' : Prop :=
  vm_inv s' ∧ ∃ x', am_step x ev o x' ∧ vm_rel s' x'.
Definition simulates s x (ev : vm_event) : Prop :=
  wp (do_event ev) (λ r s', matched x ev (Some r) s') (λ _ s', matched x ev None s') s.

(** ** Each event *)

Lemma refs_calm s s' : refs_ok s → calm s s' → vm_as s' = vm_as s → refs_ok s'.
Proof. intros Hr (_ & _ & _ & Hv & _) Ha v Hv0. rewrite Ha, Hv. by apply Hr. Qed.
Lemma refs_update s s' a A A' :
  refs_ok s → vm_as s !! a = Some A → as_v A' = as_v A → vm_vn s' = vm_vn s →
  vm_as s' = <[a := A']> (vm_as s) → refs_ok s'.
Proof.
  intros Hr HA Hv Hvn Has v Hv0. rewrite Has, Hvn, (holders_update _ a A) by done. rewrite Hv.
  specialize (Hr v Hv0). lia.
Qed.
Lemma holders_grown s s' v : grown s s' → holders (vm_as s') v = holders (vm_as s) v.
Proof.
  intros (_ & _ & Hc & _). unfold holders.
  assert (∀ m : gmap Z addrspace, size (filter (λ kv, as_v kv.2 = v) (core <$> m)) =
                                   size (filter (λ kv, as_v kv.2 = v) m)) as Hsz.
  { intros m. rewrite map_filter_fmap, map_size_fmap. done. }
  rewrite <- (Hsz (vm_as s')), <- (Hsz (vm_as s)), Hc. lia.
Qed.
Lemma refs_core s s' : refs_ok s → grown s s' → refs_ok s'.
Proof. intros Hr Hg v Hv. rewrite (holders_grown s) by done. destruct Hg as (_ & -> & _). by apply Hr. Qed.

Lemma refs_new s s' a A :
  refs_ok s → vm_as s !! a = None → as_v A = 0 → vm_vn s' = vm_vn s → vm_as s' = <[a := A]> (vm_as s) → refs_ok s'.
Proof.
  intros Hr Ha Hv Hvn Has v Hv0. rewrite Has, Hvn, holders_insert, decide_False by congruence.
  specialize (Hr v Hv0). lia.
Qed.

Lemma sim_run s x junk :
  vm_inv s → vm_rel s x → enabled s (Ev_run junk) → simulates s x (Ev_run junk).
Proof.
  intros [Hok Hr] [Hm Hc] [Hc0 Hb]. unfold simulates, do_event, run_vmspace. wp_bind. apply wp_gets.
  wp_bind. apply wp_kassert; [by rewrite Hc0|]. wp_bind. wp_use as_create_spec; [done|done| |done].
  intros a s1 (Hok1 & Hcalm & Hcase). pose proof Hcalm as (Hcur & Ht & Hsp & Hvn & Hm1).
  wp_bind. apply wp_modify. destruct Hcase as [[-> Has]|(Ha & Hnone & Has & Hnew)].
  - apply wp_fail. split; [split; [by apply vm_ok_idle|by eapply refs_calm]|]. exists x. split; [constructor|].
    split; [intros; by rewrite <- Hm, <- Hm1|]. simpl. congruence.
  - destruct (Z.eqb_spec a 0); [done|]. wp_bind. wp_use (as_activate_spec (set_cur a s1)); [exact (vo_len _ Hok1)| |done].
    intros [] s2 (l & -> & Hl & Hall). apply wp_ret. split; [split|].
    + apply vm_ok_flushed; try done. rewrite Has, lookup_insert_eq. eauto.
    + eapply (refs_new s _ a (fresh_as junk)); done.
    + exists (mkam (am_mem x) a). split; [|split; [|done]].
      * constructor; [done|]. intros va. rewrite <- Hm, <- Hm1. apply Hnew.
      * intros a' va. simpl. by rewrite <- Hm, <- Hm1.
Qed.
Lemma sim_fork s x junk :
  vm_inv s → vm_rel s x → enabled s (Ev_fork junk) → simulates s x (Ev_fork junk).
Proof.
  intros [Hok Hr] [Hm Hc] [Hc0 Hb]. destruct (vo_cur _ Hok Hc0) as [O HO]. unfold simulates, do_event.
  wp_bind. apply wp_gets. eapply wp_mono; [by eapply as_copy_spec|..].
  - intros a s' (Hok' & (Hcur & Ht & Hsp & Hvn & Hm') & Ha & Hnone & Hnew & Has). split; [split; [done|]|].
    + by eapply refs_new; [done|done| |done|exact Has].
    + exists x. split; [|split; [intros; by rewrite Hm', Hm|congruence]]. constructor; [done| |].
      * intros ->. rewrite <- Hc in Hnone. congruence.
      * intros va. by rewrite <- Hm, <- Hm'.
  - intros e s' (-> & Hok' & Hcalm & Has). split; [split; [done|by eapply refs_calm]|].
    exists x. split; [constructor|]. destruct Hcalm as (Hcur & _ & _ & _ & Hm').
    split; [intros; by rewrite Hm', Hm|congruence].
Qed.
Lemma sim_switch s x a :
  vm_inv s → vm_rel s x → enabled s (Ev_switch a) → simulates s x (Ev_switch a).
Proof.
  intros [Hok Hr] [Hm Hc] Ha. unfold simulates, do_event, done_. wp_bind. wp_use switch_vmspace_spec; [done|done| |done].
  intros [] s' (Hok' & Hcur & Has & Hvn & Hsp & Hm'). apply wp_ret. split; [split; [done|]|].
  - intros v Hv. rewrite Has, Hvn. by apply Hr.
  - exists (mkam (am_mem x) a). split; [constructor|]. split; [intros; simpl; by rewrite Hm', Hm|done].
Qed.
Lemma sim_exit s x :
  vm_inv s → vm_rel s x → simulates s x Ev_exit.
Proof.
  intros [Hok Hr] [Hm Hc]. unfold simulates, do_event, done_. wp_bind. wp_use exit_vmspace_spec; [done|done| |done].
  intros [] s' (Hok' & Hr' & Hcur & Hd). apply wp_ret. split; [done|]. eexists. split; [constructor|].
  split; [|done]. intros a va. simpl. rewrite <- Hc. case_decide as Hz.
  - rewrite Hz in *. subst s'. rewrite decide_False by (intros [-> ?]; done). apply Hm.
  - destruct Hd as (A & HA & Hd). rewrite (de_mem _ _ _ _ Hd). change (amem (set_cur 0 s)) with (amem s).
    destruct (decide (a = vm_cur s)) as [->|]; [by rewrite decide_True|]. rewrite decide_False by (by intros [? _]). apply Hm.
Qed.

(** Events that change a field of the current address space. *)
Lemma matched_field s s' x ev o :
  vm_inv s' → vm_rel s x → vm_cur s' = vm_cur s → (∀ a va, amem s' a va = amem s a va) →
  (∃ va sz c, ev = Ev_region va sz c) ∨ (∃ v, ev = Ev_prepare v) ∨ ev = Ev_stack ∨ (∃ n, ev = Ev_sbrk n) →
  matched x ev o s'.
Proof.
  intros Hi [Hm Hc] Hcur Hm' Hev. split; [done|]. exists x. split; [by constructor|].
  split; [intros; by rewrite Hm', Hm|congruence].
Qed.
Lemma became_inv s s' a A A' :
  vm_inv s → vm_ok s' → vm_as s !! a = Some A → became s s' a A' → as_v A' = as_v A → vm_inv s'.
Proof.
  intros [Hok Hr] Hok' HA (Has & _ & _ & _ & Hvn & _) Hv. split; [done|]. by eapply refs_update.
Qed.
Lemma sim_region s x vaddr sz c :
  vm_inv s → vm_rel s x → enabled s (Ev_region vaddr sz c) → simulates s x (Ev_region vaddr sz c).
Proof.
  intros Hi Hrel (Hc0 & Hva & Hsz & Hend). pose proof Hi as [Hok Hr]. destruct (vo_cur _ Hok Hc0) as [A HA].
  unfold simulates, do_event, done_. wp_bind. apply wp_gets. wp_bind.
  assert (Hv : ∀ top B, as_v (raise_heap top B) = as_v B) by (intros; unfold raise_heap; by case_match).
  eapply wp_mono; [by eapply as_define_region_spec|..].
  - intros [] s' (Hok' & Hcase). apply wp_ret.
    assert (∃ A', became s s' (vm_cur s) A' ∧ as_v A' = as_v A) as (A' & Hb & HvA).
    { destruct Hcase as [(_ & _ & Hb)|(_ & _ & Hb)]; eexists; (split; [exact Hb|by rewrite Hv]). }
    eapply matched_field; [by eapply became_inv|done|apply Hb|apply Hb|]. left. eauto.
  - intros e s' (-> & -> & _). eapply matched_field; [done|done|done|done|]. left. eauto.
Qed.
Lemma sim_prepare s x v :
  vm_inv s → vm_rel s x → enabled s (Ev_prepare v) → simulates s x (Ev_prepare v).
Proof.
  intros [Hok Hr] Hrel (Hv & Hpos & A & Hc0 & HA & HvA). unfold simulates, do_event, done_.
  wp_bind. apply wp_gets. wp_bind. wp_use as_prepare_load_spec; [done..| |done].
  intros [] s' (Hok' & Hr' & _ & Hcur & _ & _ & Hm). apply wp_ret.
  eapply matched_field; [done|done|done|done|]. right. left. eauto.
Qed.
Lemma sim_stack s x :
  vm_inv s → vm_rel s x → enabled s Ev_stack → simulates s x Ev_stack.
Proof.
  intros Hi Hrel Hc0. pose proof Hi as [Hok Hr]. destruct (vo_cur _ Hok Hc0) as [A HA].
  unfold simulates, do_event. wp_bind. apply wp_gets. wp_use as_define_stack_spec; [done..| |done].
  intros sp s' (Hok' & -> & Hb). eapply matched_field; [by eapply became_inv|done|apply Hb|apply Hb|]. auto.
Qed.
Lemma sim_sbrk s x n :
  vm_inv s → vm_rel s x → enabled s (Ev_sbrk n) → simulates s x (Ev_sbrk n).
Proof.
  intros Hi Hrel Hc0. pose proof Hi as [Hok Hr]. destruct (vo_cur _ Hok Hc0) as [A HA].
  unfold simulates, do_event. wp_use sys_sbrk_safe; [done..| |done].
  intros r s' (Hok' & Hcalm & Hcase). pose proof Hcalm as (Hcur & _ & _ & Hvn & Hm).
  eapply matched_field; [split; [done|]|done|done|done|eauto 6].
  destruct Hcase as [Has|[e Has]]; [by eapply refs_calm|].
  by eapply refs_update; [done|done| |done|exact Has].
Qed.
Lemma sim_load s x va rnd :
  vm_inv s → vm_rel s x → enabled s (Ev_load va rnd) → simulates s x (Ev_load va rnd).
Proof.
  intros [Hok Hr] [Hm Hc] [Hc0 Hva]. unfold simulates, do_event. eapply wp_mono; [by apply user_load_spec|..].
  - intros b s' (Hok' & [Hg Hsp] & -> & Hm'). split; [split; [done|by eapply refs_core]|].
    rewrite Hm, Hc. eexists. split; [apply as_load|]. split; [|simpl; destruct Hg as [-> _]; done].
    intros a' va'. rewrite Hm', Hc. unfold touch. simpl. by rewrite !Hm.
  - intros e s' (-> & Hok' & [Hg Hsp] & Hm' & Hno & _). split; [split; [done|by eapply refs_core]|].
    exists x. split; [apply as_load_fails; by rewrite <- Hm, <- Hc|]. split; [intros; by rewrite Hm', Hm|].
    destruct Hg as [-> _]. done.
Qed.
Lemma sim_store s x va b rnd :
  vm_inv s → vm_rel s x → enabled s (Ev_store va b rnd) → simulates s x (Ev_store va b rnd).
Proof.
  intros [Hok Hr] [Hm Hc] [Hc0 Hva]. unfold simulates, do_event, done_. wp_bind.
  eapply wp_mono; [by apply user_store_spec|..].
  - intros [] s' (Hok' & [Hg Hsp] & Hm'). apply wp_ret. split; [split; [done|by eapply refs_core]|].
    eexists. split; [apply as_store|]. split; [|simpl; destruct Hg as [-> _]; done].
    intros a' va'. rewrite Hm', Hc. unfold poke, touch. simpl. by rewrite !Hm.
  - intros e s' (-> & Hok' & [Hg Hsp] & Hm' & Hno & _). split; [split; [done|by eapply refs_core]|].
    exists x. split; [apply as_store_fails; by rewrite <- Hm, <- Hc|]. split; [intros; by rewrite Hm', Hm|].
    destruct Hg as [-> _]. done.
Qed.
Lemma event_simulates s x ev : vm_inv s → vm_rel s x → enabled s ev → simulates s x ev.
Proof.
  intros Hi Hrel. destruct ev;
    auto using sim_run, sim_fork, sim_switch, sim_exit, sim_region, sim_prepare, sim_stack, sim_sbrk, sim_load, sim_store.
Qed.

(** ** Runs *)

Inductive vm_trace : st → list (vm_event * option Z) → st → Prop :=
| vt_nil s : vm_trace s [] s
| vt_ok s ev r s1 tr s2 : enabled s ev → do_event ev s = Ok r s1 → vm_trace s1 tr s2 →
    vm_trace s ((ev, Some r) :: tr) s2
| vt_err s ev e s1 tr s2 : enabled s ev → do_event ev s = Err e s1 → vm_trace s1 tr s2 →
    vm_trace s ((ev, None) :: tr) s2.
Inductive am_trace : amach → list (vm_event * option Z) → amach → Prop :=
| at_nil x : am_trace x [] x
| at_cons x ev o x1 tr x2 : am_step x ev o x1 → am_trace x1 tr x2 → am_trace x ((ev, o) :: tr) x2.

(** Start-up: no address space yet. *)
Definition vm_boot (pg : vmem) (ram : Z → Z) (tlb : list (Z * Z)) (vn : V) : st :=
  mkvm (boot_heap pg) ∅ ∅ ram tlb 0 0 vn.
(** Memory of at most a megabyte. *)
Definition small_memory (pg : vmem) : Prop :=
  coremap_ok pg ∧ free_pages_str pg + 4096 * numofpage pg ≤ 1048576.
Definition nothing : amach := mkam (λ _ _, None) 0.

Lemma boot_inv pg ram tlb vn :
  small_memory pg → zlen tlb = NUM_TLB → (∀ v, 0 ≤ vrefs vn v) →
  vm_inv (vm_boot pg ram tlb vn) ∧ vm_rel (vm_boot pg ram tlb vn) nothing.
Proof.
  intros [Hc Hs] Hl Hv. split; [split|done].
  - split; simpl; try done.
    + by apply boot_heap_ok.
    + split; [by intros [| |]|by intros [| |]].
  - intros v _. unfold holders. simpl. rewrite map_filter_empty. simpl. apply Hv.
Qed.

Lemma event_sim s x ev o s' :
  vm_inv s → vm_rel s x → enabled s ev →
  (∃ r, o = Some r ∧ do_event ev s = Ok r s') ∨ (∃ e, o = None ∧ do_event ev s = Err e s') →
  matched x ev o s'.
Proof.
  intros Hi Hrel He Ho. pose proof (event_simulates s x ev Hi Hrel He) as Hsim. unfold simulates, wp in Hsim.
  destruct Ho as [(r & -> & Heq)|(e & -> & Heq)]; by rewrite Heq in Hsim.
Qed.
Lemma trace_simulates s x tr s' :
  vm_trace s tr s' → vm_inv s → vm_rel s x → vm_inv s' ∧ ∃ x', am_trace x tr x' ∧ vm_rel s' x'.
Proof.
  intros Htr. revert x. induction Htr as [s|s ev r s1 tr s2 He Hd _ IH|s ev e s1 tr s2 He Hd _ IH]; intros x Hi Hrel.
  - split; [done|]. exists x. split; [constructor|done].
  - destruct (event_sim s x ev (Some r) s1) as (Hi1 & x1 & Hst & Hrel1); [done..|eauto|].
    destruct (IH x1) as (Hi2 & x2 & Htr2 & Hrel2); [done..|]. split; [done|]. exists x2. split; [by econstructor|done].
  - destruct (event_sim s x ev None s1) as (Hi1 & x1 & Hst & Hrel1); [done..|eauto|].
    destruct (IH x1) as (Hi2 & x2 & Htr2 & Hrel2); [done..|]. split; [done|]. exists x2. split; [by econstructor|done].
Qed.
Lemma reachable_inv pg ram tlb vn tr s :
  small_memory pg → zlen tlb = NUM_TLB → (∀ v, 0 ≤ vrefs vn v) →
  vm_trace (vm_boot pg ram tlb vn) tr s → vm_inv s.
Proof.
  intros Hpg Hl Hv Htr. destruct (boot_inv pg ram tlb vn) as [Hi Hrel]; [done..|].
  by destruct (trace_simulates _ nothing _ _ Htr).
Qed.

(** ** The properties *)




(** C22 Destroying an address space gives back its own block and every page
    mapped in it, takes the memory of no other program, and drops the
    reference to its file; its second-level tables are never given back. *)
Theorem as_destroy_correct s a A :
  vm_ok s → refs_ok s → vm_cur s ≠ a → vm_as s !! a = Some A →
  wp (as_destroy a)
     (λ _ s', destroyed s a A s' ∧
        ∀ i t, tab s a i = Some t → kh_live (vm_heap s') !! t = Some (PAGE_SIZE * 2))
     (λ _ _, False) s.
Proof.
  intros Hok Hr Hc HA. wp_use as_destroy_spec; [done..| |done]. intros [] s' Hd. split; [done|].
  intros i t Ht. destruct (vo_own _ Hok) as [H1 H2]. apply (de_live _ _ _ _ Hd).
  split; [by apply (H1 (R_tab a i))|]. intros [->|[v Hv]].
  - assert (own s (R_as a) = Some a) as Ha by (simpl; by rewrite HA).
    by pose proof (H2 (R_tab a i) (R_as a) a Ht Ha).
  - by pose proof (H2 (R_tab a i) (R_page a v) t Ht Hv).
Qed.


(** A copied address space has the region bounds of the original and none
    of its memory. *)
Theorem as_copy_no_memory s junk old O :
  vm_ok s → blank junk → vm_as s !! old = Some O →
  wp (as_copy junk old)
     (λ new s', vm_ok s' ∧ (∀ va, amem s' new va = None) ∧ ∀ va, amem s' old va = amem s old va)
     (λ e s', e = ENOMEM ∧ vm_as s' = vm_as s)
     s.
Proof.
  intros Hok Hb HO. eapply wp_mono; [by apply as_copy_spec|..].
  - intros new s' (? & (_ & _ & _ & _ & Hm) & _ & _ & Hn & _). auto.
  - intros e s' (-> & _ & _ & ?). done.
Qed.

(** ** More than a megabyte *)

Lemma or_wild_Ok {A} (o : option A) s x s' : @or_wild V A o s = Ok x s' → o = Some x ∧ s' = s.
Proof. destruct o; simpl; [|done]. by intros [= -> ->]. Qed.
Lemma level2_Ok a fa s t s' :
  level2 a fa s = Ok t s' → t ≠ 0 → ∃ A, vm_as s' !! a = Some A ∧ zget (lvone A) (L1Tindex fa) = Some t.
Proof.
  intros (A & s1 & (m & s2 & [= <- <-] & [HA ->]%or_wild_Ok)%bind_Ok & (t0 & s3 & [Ht ->]%or_wild_Ok & Hc)%bind_Ok)%bind_Ok Hne.
  destruct (Z.eqb_spec t0 0) as [->|]; [|injection Hc as <- <-; eauto].
  apply bind_Ok in Hc as (t1 & s4 & Hk & Hc). destruct (Z.eqb_spec t1 0); [by injection Hc as <- <-|].
  injection Hc as <- <-. simpl. eexists. rewrite lookup_insert_eq. split; [done|]. simpl.
  apply zget_zset_eq. by eapply zget_Some_range.
Qed.

(** A page at or above a megabyte does not fit the page table: after it was
    mapped at [p], looking it up gives [p] modulo 2^20, another page. *)
Theorem page_address_truncated a fa s p s' :
  map_page a fa s = Ok (Some p) s' → 1048576 ≤ p →
  lookup_page a fa s' = Ok (Some (p mod 1048576)) s' ∧ p mod 1048576 ≠ p.
Proof.
  intros (o & s1 & _ & Ho)%bind_Ok Hp. split; [|pose proof (Z.mod_pos_bound p 1048576); lia].
  destruct o as [k|]; [|done]. apply bind_Ok in Ho as (t & s2 & Hl & Ho).
  destruct (Z.eqb_spec t 0) as [|Hne]; [done|].
  destruct (level2_Ok a fa s1 t s2 Hl Hne) as (A & HA & Ht).
  apply bind_Ok in Ho as (L & s3 & (m & s4 & [= <- <-] & [HL ->]%or_wild_Ok)%bind_Ok & Ho).
  apply bind_Ok in Ho as (e & s5 & [He ->]%or_wild_Ok & Ho).
  apply bind_Ok in Ho as (c & s6 & [= <- <-] & Ho). apply bind_Ok in Ho as ([] & s7 & [= <-] & Ho).
  apply bind_Ok in Ho as ([] & s8 & Hup & Ho). apply bind_Ok in Ho as ([] & s9 & [= <-] & [= Hpe <-]).
  unfold in_coremap, vmheap, zoom in Hup. destruct (in_pages _ _) as [x h| | |]; try done. injection Hup as _ <-.
  set (sf := set_ram _ _).
  assert (HA' : get_as a sf = Ok A sf) by (unfold get_as, bind, gets; change (vm_as sf) with (vm_as s2); by rewrite HA).
  assert (Ht' : or_wild (zget (lvone A) (L1Tindex fa)) sf = Ok t sf) by by rewrite Ht.
  set (e' := mkpe _ _ _) in *.
  assert (HL' : get_l2 t sf = Ok (zset L (L2Tindex fa) e') sf).
  { unfold get_l2, bind, gets. change (vm_l2 sf) with (<[t := zset L (L2Tindex fa) e']> (vm_l2 s2)).
    by rewrite lookup_insert_eq. }
  assert (He' : or_wild (zget (zset L (L2Tindex fa) e') (L2Tindex fa)) sf = Ok e' sf).
  { rewrite zget_zset_eq; [done|]. by eapply zget_Some_range. }
  unfold lookup_page. rewrite (bind_step _ _ _ _ _ HA'), (bind_step _ _ _ _ _ Ht').
  destruct (Z.eqb_spec t 0); [congruence|]. rewrite (bind_step _ _ _ _ _ HL'), (bind_step _ _ _ _ _ He').
  by rewrite <- Hpe.
Qed.

(** With no address space, a fault is refused with interrupts left off. *)
Theorem vm_fault_no_space s ft va rnd :
  vm_cur s = 0 → ft = VM_FAULT_READ ∨ ft = VM_FAULT_WRITE →
  vm_fault ft va rnd s = Err EFAULT (set_spl SPL_HIGH s).
Proof.
  intros Hc Hft. unfold vm_fault, bind at 1, splhigh, bind, gets, modify, ret.
  destruct Hft as [-> | ->]; simpl; by rewrite Hc.
Qed.
End thm.

(** ** Witnesses *)

(** Reference counts and nothing else. *)
Module Counts.
Notation t := (gmap Z Z).
Definition count (m : t) (v : Z) : Z := default 0 (m !! v).
Definition add (d v : Z) : M t unit := modify (λ m, <[v := count m v + d]> m).
#[global] Instance vref : Vref t := {| VOP_INCREF := add 1; VOP_DECREF := add (-1) |}.
Lemma add_count d v m w : count (<[v := count m v + d]> m) w = count m w + if decide (w = v) then d else 0.
Proof. unfold count. case_decide; [subst; by rewrite lookup_insert_eq|rewrite lookup_insert_ne by done; simpl; lia]. Qed.
#[global] Program Instance vref_ok : VrefOk t := {| vrefs := count |}.
Next Obligation. intros s v _. apply wp_modify. intros w. by rewrite add_count. Qed.
Next Obligation. intros s v _. apply wp_modify. intros w. rewrite add_count. case_decide; lia. Qed.
End Counts.

(** Six pages of memory, a program with a stack, and one byte on it. *)
Module SmallVm.
Definition st := vm Counts.t.
Definition junk : addrspace := mkas 0 0 0 0 0 0 0 0 (replicate (Z.to_nat LEVEL1_SIZE) 0).
Definition boot : st := vm_boot SmallHeap.pages (λ _, 7) (replicate (Z.to_nat NUM_TLB) (0, 0)) {[ 5 := 1 ]}.
Definition state {A} (o : outcome st A) : st := match o with Ok _ s => s | _ => boot end.
Definition value (o : outcome st Z) : Z := match o with Ok r _ => r | _ => -1 end.
Definition running : st := state (do_event (Ev_run junk) boot).
Definition with_stack : st := state (do_event Ev_stack running).
Definition top : Z := 2147483644.
Definition stored : st := state (do_event (Ev_store top 42 0) with_stack).
Definition loaded : st := state (do_event (Ev_load top 0) stored).
Definition trace : list (vm_event * option Z) :=
  [(Ev_run junk, Some (value (do_event (Ev_run junk) boot))); (Ev_stack, Some USERSTACK);
   (Ev_store top 42 0, Some 0); (Ev_load top 0, Some 42)].

Lemma junk_blank : blank junk.
Proof.
  split; [reflexivity|]. split; [|split; [discriminate|reflexivity]]. intros i t Ht. by apply zget_replicate in Ht.
Qed.
Lemma pages_small : small_memory SmallHeap.pages.
Proof. split; [exact SmallHeap.pages_ok|discriminate]. Qed.
Lemma boot_counts v : 0 ≤ vrefs (vm_vn boot) v.
Proof. unfold vrefs. simpl. unfold Counts.count. destruct (decide (v = 5)) as [->|]; simplify_map_eq; simpl; lia. Qed.
Lemma run_ok : do_event (Ev_run junk) boot = Ok (value (do_event (Ev_run junk) boot)) running.
Proof. vm_compute. reflexivity. Qed.
Lemma stack_ok : do_event Ev_stack running = Ok USERSTACK with_stack.
Proof. vm_compute. reflexivity. Qed.
Lemma store_ok : do_event (Ev_store top 42 0) with_stack = Ok 0 stored.
Proof. vm_compute. reflexivity. Qed.
Lemma load_ok : do_event (Ev_load top 0) stored = Ok 42 loaded.
Proof. vm_compute. reflexivity. Qed.
Lemma trace_ok : vm_trace boot trace loaded.
Proof.
  assert (H1 : vm_cur running ≠ 0) by (vm_compute; discriminate).
  assert (H2 : vm_cur with_stack ≠ 0) by (vm_compute; discriminate).
  assert (H3 : vm_cur stored ≠ 0) by (vm_compute; discriminate).
  apply (vt_ok _ _ _ running); [split; [reflexivity|exact junk_blank]|exact run_ok|].
  apply (vt_ok _ _ _ with_stack); [exact H1|exact stack_ok|].
  apply (vt_ok _ _ _ stored); [split; [exact H2|split; [discriminate|reflexivity]]|exact store_ok|].
  apply (vt_ok _ _ _ loaded); [split; [exact H3|split; [discriminate|reflexivity]]|exact load_ok|].
  constructor.
Qed.

(** The states on the way keep the invariant. *)
Lemma part_inv tr s : vm_trace boot tr s → vm_inv s.
Proof. apply reachable_inv; [exact pages_small|reflexivity|exact boot_counts]. Qed.
Lemma stored_inv : vm_inv stored.
Proof.
  apply (part_inv [(Ev_run junk, Some (value (do_event (Ev_run junk) boot))); (Ev_stack, Some USERSTACK);
                   (Ev_store top 42 0, Some 0)]).
  apply (vt_ok _ _ _ running); [split; [reflexivity|exact junk_blank]|exact run_ok|].
  apply (vt_ok _ _ _ with_stack); [vm_compute; discriminate|exact stack_ok|].
  apply (vt_ok _ _ _ stored); [split; [vm_compute; discriminate|split; [discriminate|reflexivity]]|exact store_ok|].
  constructor.
Qed.
(** The address space, and the program stopped. *)
Definition space : Z := vm_cur stored.
Definition space_rec : addrspace := default junk (vm_as stored !! space).
Definition stopped : st := set_cur 0 stored.
Lemma stopped_inv : vm_inv stopped.
Proof. destruct stored_inv as [Hok Hr]. split; [apply vm_ok_idle; exact Hok|exact Hr]. Qed.

(** The same with the pages at a megabyte. *)
Definition high_pages : vmem := mkvmem 2147487744 6 1048576 (replicate 6 (mkce 0 0 0 0)) 4096 1073152.
Definition high : st :=
  state (do_event (Ev_run junk) (vm_boot high_pages (λ _, 7) (replicate (Z.to_nat NUM_TLB) (0, 0)) ∅)).
Definition mapped_at (o : outcome st (option Z)) : option Z := match o with Ok p _ => p | _ => None end.
Definition high_mapped : st :=
  match map_page (vm_cur high) 4096 high with Ok _ s => s | _ => high end.
End SmallVm.




Lemma as_destroy_correct_witness :
  wp (as_destroy SmallVm.space)
     (λ _ s', vm_as s' = delete SmallVm.space (vm_as SmallVm.stopped)) (λ _ _, False) SmallVm.stopped.
Proof.
  assert (HA : vm_as SmallVm.stopped !! SmallVm.space = Some SmallVm.space_rec) by (vm_compute; reflexivity).
  eapply wp_mono; [apply (as_destroy_correct SmallVm.stopped SmallVm.space SmallVm.space_rec)|..].
  - exact (proj1 SmallVm.stopped_inv).
  - exact (proj2 SmallVm.stopped_inv).
  - vm_compute. discriminate.
  - exact HA.
  - intros [] s' [Hd _]. exact (de_as _ _ _ _ Hd).
  - intros e s' [].
Defined.


Lemma as_copy_no_memory_witness :
  amem SmallVm.stored SmallVm.space SmallVm.top = Some 42 ∧
  wp (as_copy SmallVm.junk SmallVm.space) (λ new s', amem s' new SmallVm.top = None) (λ e s', e = ENOMEM) SmallVm.stored.
Proof.
  split; [vm_compute; reflexivity|].
  assert (HA : vm_as SmallVm.stored !! SmallVm.space = Some SmallVm.space_rec) by (vm_compute; reflexivity).
  eapply wp_mono; [apply (as_copy_no_memory SmallVm.stored SmallVm.junk SmallVm.space SmallVm.space_rec)|..].
  - exact (proj1 SmallVm.stored_inv).
  - exact SmallVm.junk_blank.
  - exact HA.
  - intros new s' (_ & Hn & _). apply Hn.
  - intros e s' [He _]. exact He.
Defined.

Lemma page_address_truncated_witness :
  lookup_page (vm_cur SmallVm.high) 4096 SmallVm.high_mapped =
    Ok (Some (1052672 mod 1048576)) SmallVm.high_mapped ∧ 1052672 mod 1048576 ≠ 1052672.
Proof.
  assert (Hm : map_page (vm_cur SmallVm.high) 4096 SmallVm.high = Ok (Some 1052672) SmallVm.high_mapped).
  { assert (Hv : SmallVm.mapped_at (map_page (vm_cur SmallVm.high) 4096 SmallVm.high) = Some 1052672).
    { vm_compute. reflexivity. }
    unfold SmallVm.high_mapped. destruct (map_page _ 4096 SmallVm.high) as [o s'| | |]; [|discriminate Hv..].
    simpl in Hv. rewrite Hv. reflexivity. }
  apply (page_address_truncated _ _ _ _ _ Hm). lia.
Defined.

Lemma vm_fault_no_space_witness :
  vm_spl SmallVm.boot = 0 ∧
  vm_fault VM_FAULT_READ 4096 0 SmallVm.boot = Err EFAULT (set_spl SPL_HIGH SmallVm.boot).
Proof.
  split; [reflexivity|].
  exact (vm_fault_no_space SmallVm.boot VM_FAULT_READ 4096 0 eq_refl (or_introl eq_refl)).
Defined.
