(* ===== verification/UMalloc.v ===== *)
(** * The allocator of user programs (lib/libc/malloc.c)

    The heap is a sequence of blocks from [__heapbase] to [__heaptop], each
    with a header of two words: the distance to the block before and a magic
    number, the distance to the block after, whether the block is in use,
    and the magic number again.  [malloc] takes the first block that fits or
    asks the kernel for more; [free] merges a block with its neighbours.
    [errx] ends the program: it is [panic] here. *)

From S2P Require Import Prelude.

(** ** The process, as its allocator sees it *)

(** [sbrk] returns 0xffffffff when it fails; [ld] and [st] access an aligned
    word of memory. *)
Class Proc (K : Type) := {
  sbrk : Z → M K Z;
  ld : Z → M K Z;
  st : Z → Z → M K unit;
}.
(** Memory is there from [plo] to the break [pbrk]; [pword] is its contents and
    [pkilled] says how the kernel may end the program on an access. *)
Class ProcOk (K : Type) `{!Proc K} := {
  prinv : K → Prop;
  plo : K → Z;
  pbrk : K → Z;
  pword : K → Z → Z;
  pkilled : errno → K → Prop;
  pbrk_range : ∀ k, prinv k → 0 < plo k ≤ pbrk k ∧ pbrk k < 2147483648 ∧ plo k mod 8 = 0;
  pword_range : ∀ k a, prinv k → 0 ≤ pword k a < 4294967296;
  sbrk_spec : ∀ k n, prinv k → 0 ≤ n < 2147483648 →
    wp (sbrk n)
       (λ r k', prinv k' ∧ plo k' = plo k ∧ (∀ a, pword k' a = pword k a) ∧
          (r = 4294967295 ∧ 0 < n ∧ pbrk k' = pbrk k ∨ r = pbrk k ∧ pbrk k' = pbrk k + n))
       (λ _ _, False) k;
  ld_spec : ∀ k a, prinv k → a mod 4 = 0 → plo k ≤ a → a + 4 ≤ pbrk k →
    wp (ld a)
       (λ w k', w = pword k a ∧ prinv k' ∧ plo k' = plo k ∧ pbrk k' = pbrk k ∧ (∀ b, pword k' b = pword k b))
       pkilled k;
  st_spec : ∀ k a v, prinv k → a mod 4 = 0 → plo k ≤ a → a + 4 ≤ pbrk k → 0 ≤ v < 4294967296 →
    wp (st a v)
       (λ _ k', prinv k' ∧ plo k' = plo k ∧ pbrk k' = pbrk k ∧
          ∀ b, b mod 4 = 0 → pword k' b = if decide (b = a) then v else pword k b)
       pkilled k;
}.

(** ** Headers *)

Definition MBLOCKSIZE : Z := 8.
Definition MBLOCKSHIFT : Z := 3.
Definition MMAGIC : Z := 2.

(** The bit fields of [struct mheader], from the top of the word down.  The
    first word has [mh_prevblock], [mh_pad] and [mh_magic1], the second
    [mh_nextblock], [mh_inuse] and [mh_magic2]. *)
Definition field_block (w : Z) : Z := Z.shiftr w 3.
Definition field_bit (w : Z) : Z := Z.land (Z.shiftr w 2) 1.
Definition field_magic (w : Z) : Z := Z.land w 3.
Definition set_block (x w : Z) : Z := Z.lor (Z.shiftl (x mod 536870912) 3) (Z.land w 7).
Definition set_bit (x w : Z) : Z := Z.lor (Z.land w 4294967291) (Z.shiftl (x mod 2) 2).
Definition set_magic (x w : Z) : Z := Z.lor (Z.land w 4294967292) (x mod 4).

Definition M_MKFIELD (off : Z) : Z := Z.shiftr off MBLOCKSHIFT.

(** The static variables and the process. *)
Record uheap (K : Type) := mkuh { heapbase : Z; heaptop : Z; u_proc : K }.
Arguments mkuh {K} _ _ _.
Arguments heapbase {K} _.
Arguments heaptop {K} _.
Arguments u_proc {K} _.

Section malloc.
Context {K : Type} `{!Proc K}.
Notation S := (uheap K).

Definition proc {A} (c : M K A) : M S A := zoom u_proc (λ k s, mkuh (heapbase s) (heaptop s) k) c.
Definition load (a : Z) : M S Z := proc (ld a).
Definition store (a v : Z) : M S unit := proc (st a v).

Definition mh_prevblock (mh : Z) : M S Z := let! w := load mh in ret (field_block w).
Definition mh_nextblock (mh : Z) : M S Z := let! w := load (mh + 4) in ret (field_block w).
Definition mh_inuse (mh : Z) : M S Z := let! w := load (mh + 4) in ret (field_bit w).
Definition set_prevblock (mh x : Z) : M S unit := let! w := load mh in store mh (set_block x w).
Definition set_pad (mh x : Z) : M S unit := let! w := load mh in store mh (set_bit x w).
Definition set_magic1 (mh x : Z) : M S unit := let! w := load mh in store mh (set_magic x w).
Definition set_nextblock (mh x : Z) : M S unit := let! w := load (mh + 4) in store (mh + 4) (set_block x w).
Definition set_inuse (mh x : Z) : M S unit := let! w := load (mh + 4) in store (mh + 4) (set_bit x w).
Definition set_magic2 (mh x : Z) : M S unit := let! w := load (mh + 4) in store (mh + 4) (set_magic x w).

Definition M_NEXTOFF (mh : Z) : M S Z := let! n := mh_nextblock mh in ret (u32 (Z.shiftl n MBLOCKSHIFT)).
Definition M_PREVOFF (mh : Z) : M S Z := let! n := mh_prevblock mh in ret (u32 (Z.shiftl n MBLOCKSHIFT)).
Definition M_NEXT (mh : Z) : M S Z := let! o := M_NEXTOFF mh in ret (u32 (mh + o)).
Definition M_PREV (mh : Z) : M S Z := let! o := M_PREVOFF mh in ret (u32 (mh - o)).
Definition M_DATA (mh : Z) : Z := u32 (mh + MBLOCKSIZE).
Definition M_SIZE (mh : Z) : M S Z := let! o := M_NEXTOFF mh in ret (u32 (o - MBLOCKSIZE)).
Definition M_OK (mh : Z) : M S bool :=
  let! w1 := load mh in
  if negb (field_magic w1 =? MMAGIC) then ret false
  else let! w2 := load (mh + 4) in ret (field_magic w2 =? MMAGIC).

(** ** Start-up and growth *)

Definition set_heap (base top : Z) : M S unit := modify (λ s, mkuh base top (u_proc s)).

Definition malloc_init : M S unit :=
  let! s := get in
  kassert ((heapbase s =? 0) && (heaptop s =? 0)) ;;;
  let! x := proc (sbrk 0) in
  kassert (negb (x =? 4294967295)) ;;;
  kassert (negb (x =? 0)) ;;;
  set_heap x x ;;;
  if negb (x mod MBLOCKSIZE =? 0) then
    let adjust := MBLOCKSIZE - x mod MBLOCKSIZE in
    let! y := proc (sbrk adjust) in
    kassert (negb (y =? 4294967295)) ;;;
    kassert (y =? x) ;;;
    set_heap (u32 (x + adjust)) (u32 (x + adjust))
  else ret tt.

(** Returns 0 for NULL.  The kernel takes the argument as an [int]. *)
Definition malloc_sbrk (size : Z) : M S Z :=
  let! x := proc (sbrk (i32 size)) in
  if x =? 4294967295 then ret 0
  else
    let! s := get in
    kassert (x =? heaptop s) ;;;
    set_heap (heapbase s) (u32 (heaptop s + size)) ;;;
    ret x.

(** ** Allocation *)

Definition malloc_split (mh size : Z) : M S unit :=
  kassert (size mod MBLOCKSIZE =? 0) ;;;
  let! msize := M_SIZE mh in
  if u32 (msize - size) <? 2 * MBLOCKSIZE then ret tt
  else
    let! mhnext := M_NEXT mh in
    let! oldsize := M_SIZE mh in
    set_nextblock mh (M_MKFIELD (u32 (size + MBLOCKSIZE))) ;;;
    let! mhnew := M_NEXT mh in
    kassert (negb (mhnew =? mhnext)) ;;;
    set_prevblock mhnew (M_MKFIELD (u32 (size + MBLOCKSIZE))) ;;;
    set_pad mhnew 0 ;;;
    set_magic1 mhnew MMAGIC ;;;
    set_nextblock mhnew (M_MKFIELD (u32 (oldsize - size))) ;;;
    set_inuse mhnew 0 ;;;
    set_magic2 mhnew MMAGIC ;;;
    let! s := get in
    when (negb (mhnext =? heaptop s))
      (let! n := mh_nextblock mhnew in set_prevblock mhnext n).

(** The first-fit search: the block taken, or where the search stopped with the
    size of the last block. *)
Fixpoint search (fuel : nat) (i rightprevblock size : Z) : M S (Z + Z * Z) :=
  match fuel with
  | O => hang
  | Datatypes.S fuel' =>
      let! s := get in
      if i <? heaptop s then
        let! ok := M_OK i in
        kassert ok ;;;
        let! p := mh_prevblock i in
        kassert (p =? rightprevblock) ;;;
        let! n := mh_nextblock i in
        let! off := M_NEXTOFF i in
        let! used := mh_inuse i in
        if negb (used =? 0) then search fuel' (u32 (i + off)) n size
        else
          let! msize := M_SIZE i in
          if msize <? size then search fuel' (u32 (i + off)) n size
          else
            malloc_split i size ;;;
            set_inuse i 1 ;;;
            ret (inl (M_DATA i))
      else ret (inr (i, rightprevblock))
  end.

(** Every step of the search moves by at least a header. *)
Definition search_fuel (s : S) : nat := Z.to_nat ((heaptop s - heapbase s) / MBLOCKSIZE + 1).

(** [malloc] once the heap is set up. *)
Definition malloc_ready (size : Z) : M S Z :=
  let! s := get in
  kassert (negb ((heapbase s =? 0) || (heaptop s =? 0) || (heaptop s <? heapbase s))) ;;;
  let size := Z.land (u32 (u32 (size + MBLOCKSIZE) - 1)) 4294967288 in
  let! r := search (search_fuel s) (heapbase s) 0 size in
  match r with
  | inl p => ret p
  | inr (i, rightprevblock) =>
      kassert (i =? heaptop s) ;;;
      let! mh := malloc_sbrk (u32 (size + MBLOCKSIZE)) in
      if mh =? 0 then ret 0
      else
        set_prevblock mh rightprevblock ;;;
        set_magic1 mh MMAGIC ;;;
        set_magic2 mh MMAGIC ;;;
        set_pad mh 0 ;;;
        set_inuse mh 1 ;;;
        set_nextblock mh (M_MKFIELD (u32 (size + MBLOCKSIZE))) ;;;
        ret (M_DATA mh)
  end.

Definition malloc (size : Z) : M S Z :=
  let! s := get in
  when (heapbase s =? 0) malloc_init ;;;
  malloc_ready size.

(** ** Release *)

Definition malloc_deadbeef (ptr size : Z) : M S unit :=
  for_range (Z.to_nat (size / 4)) 0 (λ i, store (u32 (ptr + 4 * i)) 3735928559).

Definition malloc_trymerge (mh mhnext : Z) : M S unit :=
  let! n := mh_nextblock mh in
  let! p := mh_prevblock mhnext in
  kassert (n =? p) ;;;
  let! u1 := mh_inuse mh in
  if negb (u1 =? 0) then ret tt
  else
    let! u2 := mh_inuse mhnext in
    if negb (u2 =? 0) then ret tt
    else
      let! mhnextnext := M_NEXT mhnext in
      let! s1 := M_SIZE mh in
      let! s2 := M_SIZE mhnext in
      set_nextblock mh (M_MKFIELD (u32 (u32 (u32 (MBLOCKSIZE + s1) + MBLOCKSIZE) + s2))) ;;;
      let! s := get in
      when (negb (mhnextnext =? heaptop s))
        (let! n := mh_nextblock mh in set_prevblock mhnextnext n) ;;;
      malloc_deadbeef mhnext MBLOCKSIZE.

Definition free (x : Z) : M S unit :=
  if x =? 0 then ret tt
  else
    let! s := get in
    kassert (negb ((heapbase s =? 0) || (heaptop s =? 0) || (heaptop s <? heapbase s))) ;;;
    kassert (negb ((x <? heapbase s) || (heaptop s <=? x))) ;;;
    let mh := u32 (x - MBLOCKSIZE) in
    let! ok := M_OK mh in
    kassert ok ;;;
    let! used := mh_inuse mh in
    kassert (negb (used =? 0)) ;;;
    set_inuse mh 0 ;;;
    let! size := M_SIZE mh in
    malloc_deadbeef (M_DATA mh) size ;;;
    let! mhnext := M_NEXT mh in
    when (negb (mhnext =? heaptop s)) (malloc_trymerge mh mhnext) ;;;
    when (negb (mh =? heapbase s))
      (let! mhprev := M_PREV mh in malloc_trymerge mhprev mh).

End malloc.
