(* ===== verification/UMallocSpec.v ===== *)
(** * The user allocator: what the heap looks like

    [blocks W a p bs t] says that the words [W] hold the blocks [bs] from
    address [a] to [t], the block before them having size [p]. *)

From S2P Require Import Prelude UMalloc.

(** ** Header words *)

(** A word with block field [q], bit [b] and magic number [m]. *)
Definition hw (q b m : Z) : Z := 8 * q + 4 * b + m.
Definition hw_ok (q b m : Z) : Prop := 0 ≤ q < 536870912 ∧ 0 ≤ b < 2 ∧ 0 ≤ m < 4.

Lemma hw_split w : 0 ≤ w < 4294967296 → ∃ q b m, w = hw q b m ∧ hw_ok q b m.
Proof.
  intros Hw. exists (w / 8), (w / 4 mod 2), (w mod 4). unfold hw, hw_ok.
  Z.div_mod_to_equations. lia.
Qed.
Lemma hw_range q b m : hw_ok q b m → 0 ≤ hw q b m < 4294967296.
Proof. unfold hw, hw_ok. lia. Qed.

Lemma hw_block q b m : hw_ok q b m → field_block (hw q b m) = q.
Proof.
  intros H. unfold field_block, hw. rewrite Z.shiftr_div_pow2 by done. change (2 ^ 3) with 8.
  unfold hw_ok in H. Z.div_mod_to_equations. lia.
Qed.
Lemma hw_bit q b m : hw_ok q b m → field_bit (hw q b m) = b.
Proof.
  intros H. unfold field_bit, hw. rewrite Z.shiftr_div_pow2 by done. change 1 with (Z.ones 1).
  rewrite Z.land_ones by done. change (2 ^ 2) with 4. change (2 ^ 1) with 2.
  unfold hw_ok in H. Z.div_mod_to_equations. lia.
Qed.
Lemma hw_magic q b m : hw_ok q b m → field_magic (hw q b m) = m.
Proof.
  intros H. unfold field_magic, hw. change 3 with (Z.ones 2). rewrite Z.land_ones by done.
  change (2 ^ 2) with 4. unfold hw_ok in H. Z.div_mod_to_equations. lia.
Qed.

(** Disjoint bits add up. *)
Lemma land_apart x y n : 0 ≤ n → 0 ≤ y < 2 ^ n → Z.land (Z.shiftl x n) y = 0.
Proof.
  intros Hn Hy. rewrite Z.shiftl_mul_pow2 by done. replace y with (Z.land (Z.ones n) y).
  - rewrite Z.land_assoc, Z.land_ones by done. rewrite Z.mod_mul by lia. apply Z.land_0_l.
  - rewrite Z.land_comm, Z.land_ones by done. by apply Z.mod_small.
Qed.
Lemma lor_low x y n : 0 ≤ n → 0 ≤ y < 2 ^ n → Z.lor (Z.shiftl x n) y = x * 2 ^ n + y.
Proof.
  intros Hn Hy. rewrite <- Z.shiftl_mul_pow2, <- Z.add_lor_land, land_apart by done. lia.
Qed.
Lemma land_high q y c : 0 ≤ q < 536870912 → 0 ≤ y < 8 → 0 ≤ c < 8 →
  Z.land (8 * q + y) (4294967288 + c) = 8 * q + Z.land y c.
Proof.
  intros Hq Hy Hc.
  assert (Hl : 0 ≤ Z.land y c < 8).
  { split; [apply Z.land_nonneg; lia|]. apply (bits_bound _ 3); [done|apply Z.land_nonneg; lia|].
    intros j Hj. rewrite Z.land_spec, (testbit_high y 3 j); [done|done|lia]. }
  replace (8 * q + y) with (Z.lor (Z.shiftl q 3) y) by (rewrite lor_low; lia).
  replace (4294967288 + c) with (Z.lor (Z.shiftl (Z.ones 29) 3) c) by (rewrite lor_low; [change (Z.ones 29) with 536870911|..]; lia).
  rewrite Z.land_lor_distr_l, !Z.land_lor_distr_r, <- Z.shiftl_land, Z.land_ones by done.
  rewrite (Z.mod_small q) by lia. rewrite land_apart by (done || lia). rewrite (Z.land_comm y), land_apart by (done || lia).
  rewrite Z.lor_0_r, Z.lor_0_l, lor_low by (done || lia). lia.
Qed.

Lemma set_block_hw x q b m : hw_ok q b m → 0 ≤ x < 536870912 → set_block x (hw q b m) = hw x b m.
Proof.
  intros H Hx. unfold set_block. rewrite Z.mod_small by done. change 7 with (Z.ones 3).
  rewrite Z.land_ones by done. change (2 ^ 3) with 8. rewrite lor_low; [|done|change (2 ^ 3) with 8; apply Z.mod_pos_bound; lia].
  unfold hw, hw_ok in *. change (2 ^ 3) with 8. Z.div_mod_to_equations. lia.
Qed.
Lemma set_bit_hw x q b m : hw_ok q b m → 0 ≤ x < 2 → set_bit x (hw q b m) = hw q x m.
Proof.
  intros (Hq & Hb & Hm) Hx. unfold set_bit, hw. rewrite <- Z.add_assoc.
  change 4294967291 with (4294967288 + 3). rewrite land_high by lia.
  assert (Hl : Z.lor (Z.land (4 * b + m) 3) (Z.shiftl (x mod 2) 2) = 4 * x + m ∧ 0 ≤ Z.land (4 * b + m) 3 < 8).
  { assert (b = 0 ∨ b = 1) as [-> | ->] by lia; assert (x = 0 ∨ x = 1) as [-> | ->] by lia;
      assert (m = 0 ∨ m = 1 ∨ m = 2 ∨ m = 3) as Hc by lia; destruct_or! Hc; subst m; by vm_compute. }
  destruct Hl as [Hl Hr]. replace (8 * q + Z.land (4 * b + m) 3) with (Z.lor (Z.shiftl q 3) (Z.land (4 * b + m) 3))
    by (rewrite lor_low; lia).
  rewrite <- Z.lor_assoc, Hl, lor_low by (done || lia). lia.
Qed.
Lemma set_magic_hw x q b m : hw_ok q b m → 0 ≤ x < 4 → set_magic x (hw q b m) = hw q b x.
Proof.
  intros (Hq & Hb & Hm) Hx. unfold set_magic, hw. rewrite <- Z.add_assoc.
  change 4294967292 with (4294967288 + 4). rewrite land_high by lia.
  assert (Hl : Z.lor (Z.land (4 * b + m) 4) (x mod 4) = 4 * b + x ∧ 0 ≤ Z.land (4 * b + m) 4 < 8).
  { assert (b = 0 ∨ b = 1) as [-> | ->] by lia; assert (m = 0 ∨ m = 1 ∨ m = 2 ∨ m = 3) as Hc by lia;
      assert (x = 0 ∨ x = 1 ∨ x = 2 ∨ x = 3) as Hx' by lia; destruct_or! Hc; destruct_or! Hx'; subst m x; by vm_compute. }
  destruct Hl as [Hl Hr]. replace (8 * q + Z.land (4 * b + m) 4) with (Z.lor (Z.shiftl q 3) (Z.land (4 * b + m) 4))
    by (rewrite lor_low; lia).
  rewrite <- Z.lor_assoc, Hl, lor_low by (done || lia). lia.
Qed.

(** ** Memory and headers *)

Record view := mkview { vw_base : Z; vw_top : Z; vw_lo : Z; vw_brk : Z; vw_word : Z → Z }.
Definition upd (W : Z → Z) (a x : Z) : Z → Z := λ b, if decide (b = a) then x else W b.
Definition with_word (W : Z → Z) (v : view) : view := mkview (vw_base v) (vw_top v) (vw_lo v) (vw_brk v) W.

(** [mh] is the address of a header. *)
Definition header (v : view) (mh : Z) : Prop :=
  mh mod 8 = 0 ∧ 0 < vw_lo v ≤ mh ∧ mh + 8 ≤ vw_brk v ∧ vw_brk v < 2147483648.

Section spec.
Context {K : Type} `{!Proc K, !ProcOk K}.
Notation S := (uheap K).
Implicit Types (s : S) (v : view).

Definition shows s v : Prop :=
  prinv (u_proc s) ∧ heapbase s = vw_base v ∧ heaptop s = vw_top v ∧ plo (u_proc s) = vw_lo v ∧
  pbrk (u_proc s) = vw_brk v ∧ ∀ b, b mod 4 = 0 → pword (u_proc s) b = vw_word v b.
Definition killed (e : errno) s : Prop := pkilled e (u_proc s).

Lemma wp_load s v a (Q : Z → S → Prop) :
  shows s v → a mod 4 = 0 → vw_lo v ≤ a → a + 4 ≤ vw_brk v →
  (∀ s', shows s' v → Q (vw_word v a) s') → wp (load a) Q killed s.
Proof.
  intros (Hi & Hb & Ht & Hlo & Hbrk & Hw) Ha Hl Hh HQ. unfold load, proc. apply wp_zoom.
  eapply wp_mono; [apply ld_spec; [done|done|lia|lia]| |done].
  intros w k' (-> & Hi' & Hlo' & Hbrk' & Hw'). rewrite Hw by done. apply HQ.
  split_and!; simpl; try done; try congruence. intros b Hb'. by rewrite Hw', Hw.
Qed.
Lemma wp_store s v a x (Q : unit → S → Prop) :
  shows s v → a mod 4 = 0 → vw_lo v ≤ a → a + 4 ≤ vw_brk v → 0 ≤ x < 4294967296 →
  (∀ s', shows s' (with_word (upd (vw_word v) a x) v) → Q tt s') → wp (store a x) Q killed s.
Proof.
  intros (Hi & Hb & Ht & Hlo & Hbrk & Hw) Ha Hl Hh Hx HQ. unfold store, proc. apply wp_zoom.
  eapply wp_mono; [apply st_spec; [done|done|lia|lia|done]| |done].
  intros [] k' (Hi' & Hlo' & Hbrk' & Hw'). apply HQ.
  split_and!; simpl; try done; try congruence. intros b Hb'. rewrite Hw' by done. unfold upd.
  case_decide; [done|]. by apply Hw.
Qed.

Section header.
Context s v mh q b m (Hs : shows s v) (Hh : header v mh) (Hok : hw_ok q b m).

Lemma head_align : mh mod 4 = 0 ∧ (mh + 4) mod 4 = 0.
Proof using Hh. destruct Hh as (Hm & _). Z.div_mod_to_equations. lia. Qed.

Lemma wp_prevblock (Q : Z → S → Prop) :
  vw_word v mh = hw q b m → (∀ s', shows s' v → Q q s') → wp (mh_prevblock mh) Q killed s.
Proof using Hs Hh Hok.
  intros Hw HQ. destruct head_align as [A1 A2]. destruct Hh as (_ & ? & ? & ?).
  unfold mh_prevblock. wp_bind. eapply wp_load; [done|done|lia|lia|]. intros s' Hs'. rewrite Hw, hw_block by done.
  apply wp_ret. by apply HQ.
Qed.
Lemma wp_nextblock (Q : Z → S → Prop) :
  vw_word v (mh + 4) = hw q b m → (∀ s', shows s' v → Q q s') → wp (mh_nextblock mh) Q killed s.
Proof using Hs Hh Hok.
  intros Hw HQ. destruct head_align as [A1 A2]. destruct Hh as (_ & ? & ? & ?).
  unfold mh_nextblock. wp_bind. eapply wp_load; [done|done|lia|lia|]. intros s' Hs'. rewrite Hw, hw_block by done.
  apply wp_ret. by apply HQ.
Qed.
Lemma wp_inuse (Q : Z → S → Prop) :
  vw_word v (mh + 4) = hw q b m → (∀ s', shows s' v → Q b s') → wp (mh_inuse mh) Q killed s.
Proof using Hs Hh Hok.
  intros Hw HQ. destruct head_align as [A1 A2]. destruct Hh as (_ & ? & ? & ?).
  unfold mh_inuse. wp_bind. eapply wp_load; [done|done|lia|lia|]. intros s' Hs'. rewrite Hw, hw_bit by done.
  apply wp_ret. by apply HQ.
Qed.

(** Changing one field of a word. *)
Lemma wp_set_field (a : Z) (f : Z → Z) x (Q : unit → S → Prop) :
  a = mh ∨ a = mh + 4 → f (vw_word v a) = x → 0 ≤ x < 4294967296 →
  (∀ s', shows s' (with_word (upd (vw_word v) a x) v) → Q tt s') →
  wp (let! w := load a in store a (f w)) Q killed s.
Proof using Hs Hh.
  intros Ha Hx Hr HQ. destruct head_align as [A1 A2]. destruct Hh as (_ & ? & ? & ?).
  assert (a mod 4 = 0) by (by destruct Ha as [-> | ->]).
  wp_bind. eapply wp_load; [done|done|lia|lia|]. intros s' Hs'. rewrite Hx. eapply wp_store; [done|done|lia|lia|done|done].
Qed.

Lemma wp_NEXTOFF (Q : Z → S → Prop) :
  vw_word v (mh + 4) = hw q b m → (∀ s', shows s' v → Q (8 * q) s') → wp (M_NEXTOFF mh) Q killed s.
Proof using Hs Hh Hok.
  intros Hw HQ. unfold M_NEXTOFF. wp_bind. eapply wp_nextblock; [done|]. intros s' Hs'. apply wp_ret.
  unfold MBLOCKSHIFT. rewrite Z.shiftl_mul_pow2 by done. change (2 ^ 3) with 8.
  rewrite u32_small by (destruct Hok; lia). rewrite Z.mul_comm. by apply HQ.
Qed.
Lemma wp_PREVOFF (Q : Z → S → Prop) :
  vw_word v mh = hw q b m → (∀ s', shows s' v → Q (8 * q) s') → wp (M_PREVOFF mh) Q killed s.
Proof using Hs Hh Hok.
  intros Hw HQ. unfold M_PREVOFF. wp_bind. eapply wp_prevblock; [done|]. intros s' Hs'. apply wp_ret.
  unfold MBLOCKSHIFT. rewrite Z.shiftl_mul_pow2 by done. change (2 ^ 3) with 8.
  rewrite u32_small by (destruct Hok; lia). rewrite Z.mul_comm. by apply HQ.
Qed.
Lemma wp_NEXT (Q : Z → S → Prop) :
  vw_word v (mh + 4) = hw q b m → mh + 8 * q < 4294967296 →
  (∀ s', shows s' v → Q (mh + 8 * q) s') → wp (M_NEXT mh) Q killed s.
Proof using Hs Hh Hok.
  intros Hw Hlt HQ. unfold M_NEXT. wp_bind. eapply wp_NEXTOFF; [done|]. intros s' Hs'. apply wp_ret.
  destruct Hh as (_ & ? & ? & ?). rewrite u32_small by (destruct Hok; lia). by apply HQ.
Qed.
Lemma wp_PREV (Q : Z → S → Prop) :
  vw_word v mh = hw q b m → 0 ≤ mh - 8 * q →
  (∀ s', shows s' v → Q (mh - 8 * q) s') → wp (M_PREV mh) Q killed s.
Proof using Hs Hh Hok.
  intros Hw Hlt HQ. unfold M_PREV. wp_bind. eapply wp_PREVOFF; [done|]. intros s' Hs'. apply wp_ret.
  destruct Hh as (_ & ? & ? & ?). rewrite u32_small by (destruct Hok; lia). by apply HQ.
Qed.
Lemma wp_SIZE (Q : Z → S → Prop) :
  vw_word v (mh + 4) = hw q b m → 1 ≤ q →
  (∀ s', shows s' v → Q (8 * q - 8) s') → wp (M_SIZE mh) Q killed s.
Proof using Hs Hh Hok.
  intros Hw Hq HQ. unfold M_SIZE. wp_bind. eapply wp_NEXTOFF; [done|]. intros s' Hs'. apply wp_ret.
  unfold MBLOCKSIZE. rewrite u32_small by (destruct Hok; lia). by apply HQ.
Qed.

Lemma wp_set_nextblock x (Q : unit → S → Prop) :
  vw_word v (mh + 4) = hw q b m → 0 ≤ x < 536870912 →
  (∀ s', shows s' (with_word (upd (vw_word v) (mh + 4) (hw x b m)) v) → Q tt s') →
  wp (set_nextblock mh x) Q killed s.
Proof using Hs Hh Hok.
  intros Hw Hx HQ. eapply wp_set_field; [auto|rewrite Hw; by apply set_block_hw| |done].
  apply hw_range. destruct Hok. split; [done|tauto].
Qed.
Lemma wp_set_inuse x (Q : unit → S → Prop) :
  vw_word v (mh + 4) = hw q b m → 0 ≤ x < 2 →
  (∀ s', shows s' (with_word (upd (vw_word v) (mh + 4) (hw q x m)) v) → Q tt s') →
  wp (set_inuse mh x) Q killed s.
Proof using Hs Hh Hok.
  intros Hw Hx HQ. eapply wp_set_field; [auto|rewrite Hw; by apply set_bit_hw| |done].
  apply hw_range. destruct Hok. split; [done|tauto].
Qed.
Lemma wp_set_magic2 x (Q : unit → S → Prop) :
  vw_word v (mh + 4) = hw q b m → 0 ≤ x < 4 →
  (∀ s', shows s' (with_word (upd (vw_word v) (mh + 4) (hw q b x)) v) → Q tt s') →
  wp (set_magic2 mh x) Q killed s.
Proof using Hs Hh Hok.
  intros Hw Hx HQ. eapply wp_set_field; [auto|rewrite Hw; by apply set_magic_hw| |done].
  apply hw_range. destruct Hok. split; [done|tauto].
Qed.
Lemma wp_set_prevblock x (Q : unit → S → Prop) :
  vw_word v mh = hw q b m → 0 ≤ x < 536870912 →
  (∀ s', shows s' (with_word (upd (vw_word v) mh (hw x b m)) v) → Q tt s') →
  wp (set_prevblock mh x) Q killed s.
Proof using Hs Hh Hok.
  intros Hw Hx HQ. eapply wp_set_field; [auto|rewrite Hw; by apply set_block_hw| |done].
  apply hw_range. destruct Hok. split; [done|tauto].
Qed.
Lemma wp_set_pad x (Q : unit → S → Prop) :
  vw_word v mh = hw q b m → 0 ≤ x < 2 →
  (∀ s', shows s' (with_word (upd (vw_word v) mh (hw q x m)) v) → Q tt s') →
  wp (set_pad mh x) Q killed s.
Proof using Hs Hh Hok.
  intros Hw Hx HQ. eapply wp_set_field; [auto|rewrite Hw; by apply set_bit_hw| |done].
  apply hw_range. destruct Hok. split; [done|tauto].
Qed.
Lemma wp_set_magic1 x (Q : unit → S → Prop) :
  vw_word v mh = hw q b m → 0 ≤ x < 4 →
  (∀ s', shows s' (with_word (upd (vw_word v) mh (hw q b x)) v) → Q tt s') →
  wp (set_magic1 mh x) Q killed s.
Proof using Hs Hh Hok.
  intros Hw Hx HQ. eapply wp_set_field; [auto|rewrite Hw; by apply set_magic_hw| |done].
  apply hw_range. destruct Hok. split; [done|tauto].
Qed.
End header.

Lemma wp_M_OK s v mh p b q b' (Q : bool → S → Prop) :
  shows s v → header v mh → vw_word v mh = hw p b 2 → hw_ok p b 2 →
  vw_word v (mh + 4) = hw q b' 2 → hw_ok q b' 2 →
  (∀ s', shows s' v → Q true s') → wp (M_OK mh) Q killed s.
Proof.
  intros Hs Hh Hw1 H1 Hw2 H2 HQ. destruct (head_align v mh Hh) as [A1 A2]. destruct Hh as (_ & ? & ? & ?).
  unfold M_OK. wp_bind. eapply wp_load; [done|done|lia|lia|]. intros s1 Hs1. rewrite Hw1, hw_magic by done.
  wp_bind. eapply wp_load; [done|done|lia|lia|]. intros s2 Hs2. rewrite Hw2, hw_magic by done. apply wp_ret. by apply HQ.
Qed.

(** Some word or other. *)
Lemma shows_word s v a : shows s v → a mod 4 = 0 → ∃ q b m, vw_word v a = hw q b m ∧ hw_ok q b m.
Proof.
  intros (Hi & _ & _ & _ & _ & Hw) Ha. rewrite <- Hw by done. apply hw_split. by apply pword_range.
Qed.
End spec.

(** ** Blocks *)

(** A block has its size in units of 8 bytes, header included, and is in use or
    free. *)
Notation block := (Z * bool)%type.
Definition bit_of (u : bool) : Z := if u then 1 else 0.

Fixpoint blocks (W : Z → Z) (a p : Z) (bs : list block) (t : Z) : Prop :=
  match bs with
  | [] => a = t
  | (q, u) :: bs' =>
      W a = hw p 0 2 ∧ W (a + 4) = hw q (bit_of u) 2 ∧ 1 ≤ q ∧ blocks W (a + 8 * q) q bs' t
  end.
(** The size of the last block, and the end of the blocks. *)
Definition last_size (p : Z) (bs : list block) : Z := match last bs with Some (q, _) => q | None => p end.
Definition units (bs : list block) : Z := foldr (λ b n, b.1 + n) 0 bs.

Lemma last_size_cons p q u bs : last_size p ((q, u) :: bs) = last_size q bs.
Proof. unfold last_size. rewrite last_cons. by destruct (last bs) as [[]|]. Qed.
Lemma blocks_end W a p bs t : blocks W a p bs t → t = a + 8 * units bs.
Proof.
  revert a p. induction bs as [|[q u] bs IH]; simpl; intros a p; [intros <-; lia|].
  intros (_ & _ & _ & H). apply IH in H. lia.
Qed.
Lemma units_nonneg W a p bs t : blocks W a p bs t → 0 ≤ units bs.
Proof.
  revert a p. induction bs as [|[q u] bs IH]; simpl; intros a p; [lia|].
  intros (_ & _ & ? & H). apply IH in H. lia.
Qed.
Lemma blocks_app W a p bs bs' t :
  blocks W a p (bs ++ bs') t ↔
  blocks W a p bs (a + 8 * units bs) ∧ blocks W (a + 8 * units bs) (last_size p bs) bs' t.
Proof.
  revert a p. induction bs as [|[q u] bs IH]; intros a p; simpl.
  - rewrite Z.add_0_r. naive_solver.
  - rewrite IH, last_size_cons. replace (a + 8 * (q + units bs)) with (a + 8 * q + 8 * units bs) by lia. tauto.
Qed.
(** Only the words from [a] on matter, up to [t]. *)
Lemma blocks_ext W W' a p bs t :
  blocks W a p bs t → (∀ b, a ≤ b < t → W' b = W b) → blocks W' a p bs t.
Proof.
  revert a p. induction bs as [|[q u] bs IH]; intros a p; simpl; [done|].
  intros (H1 & H2 & Hq & H) HW. pose proof (blocks_end _ _ _ _ _ H). pose proof (units_nonneg _ _ _ _ _ H).
  rewrite !HW by lia. split_and!; try done. apply IH; [done|]. intros b Hb. apply HW. lia.
Qed.
Lemma units_app bs bs' : units (bs ++ bs') = units bs + units bs'.
Proof. induction bs as [|[q u] bs IH]; simpl; [done|]. rewrite IH. lia. Qed.
(** The same with another block in front. *)
Lemma blocks_prev W W' a p p' bs t :
  blocks W a p bs t → (∀ b, a < b < t → W' b = W b) → (a ≠ t → W' a = hw p' 0 2) → blocks W' a p' bs t.
Proof.
  destruct bs as [|[q u] bs]; simpl; [done|]. intros (_ & H2 & Hq & H) HW Ha.
  pose proof (blocks_end _ _ _ _ _ H). pose proof (units_nonneg _ _ _ _ _ H).
  rewrite (HW (a + 4)) by lia. split_and!; [apply Ha; lia|done|done|]. eapply blocks_ext; [done|]. intros b Hb. apply HW. lia.
Qed.
