(* ===== verification/UMallocOps.v ===== *)
(** * The user allocator on lists of blocks

    [fit] and [release] are first-fit allocation and release with merging on
    a plain list of blocks; the routines of malloc.c do the same to the
    headers in memory. *)

From S2P Require Import Prelude UMalloc UMallocSpec.

(** ** The reference *)

(** The first free block of at least [need] units, cut when two or more are
    left over; the address of its data. *)
Fixpoint fit (need a : Z) (bs : list block) : option (Z * list block) :=
  match bs with
  | [] => None
  | (q, u) :: bs' =>
      if negb u && (need <=? q) then
        Some (a + 8, if need + 2 <=? q then (need, true) :: (q - need, false) :: bs' else (q, true) :: bs')
      else prod_map id (cons (q, u)) <$> fit need (a + 8 * q) bs'
  end.

(** Two neighbours, one block when both are free. *)
Definition join (b : block) (bs : list block) : list block :=
  match b, bs with
  | (q, false), (q', false) :: bs' => (q + q', false) :: bs'
  | _, _ => b :: bs
  end.
Fixpoint release (x a : Z) (bs : list block) : list block :=
  match bs with
  | [] => []
  | (q, u) :: bs' =>
      if a + 8 =? x then join (q, false) bs' else join (q, u) (release x (a + 8 * q) bs')
  end.

(** The blocks in use: data address and size in bytes. *)
Fixpoint live (a : Z) (bs : list block) : gmap Z Z :=
  match bs with
  | [] => ∅
  | (q, u) :: bs' =>
      if (u : bool) then <[a + 8 := 8 * q - 8]> (live (a + 8 * q) bs') else live (a + 8 * q) bs'
  end.

(** No two free blocks next to each other. *)
Fixpoint merged (bs : list block) : Prop :=
  match bs with
  | (_, u) :: ((_, u') :: _) as bs' => (u = false → u' = true) ∧ merged bs'
  | _ => True
  end.

(** Sizes of at least one unit. *)
Definition sizes_ok (bs : list block) : Prop := Forall (λ b, 1 ≤ b.1) bs.
Lemma blocks_sizes W a p bs t : blocks W a p bs t → sizes_ok bs.
Proof.
  revert a p. induction bs as [|[q u] bs IH]; intros a p; simpl; [constructor|].
  intros (_ & _ & ? & H). constructor; [done|]. by eapply IH.
Qed.

Lemma live_range a bs x n : sizes_ok bs → live a bs !! x = Some n →
  a + 8 ≤ x ∧ 0 ≤ n ∧ x + n ≤ a + 8 * units bs ∧ (x - a) mod 8 = 0 ∧ n mod 8 = 0.
Proof.
  intros Hs. revert a. induction Hs as [|[q u] bs Hq Hs IH]; intros a; simpl; [done|]. simpl in Hq.
  assert (Hu : 0 ≤ units bs) by (clear - Hs; induction Hs as [|[q u] bs Hq Hs IH]; simpl in *; lia).
  assert (Hr : live (a + 8 * q) bs !! x = Some n → a + 8 ≤ x ∧ 0 ≤ n ∧ x + n ≤ a + 8 * (q + units bs) ∧
    (x - a) mod 8 = 0 ∧ n mod 8 = 0).
  { intros Hl. apply IH in Hl as (? & ? & ? & Hm & ?). split_and!; try lia.
    replace (x - a) with (x - (a + 8 * q) + q * 8) by lia. by rewrite Z.mod_add. }
  destruct u; [|done]. rewrite lookup_insert_Some. intros [[<- <-]|[_ Hl]]; [|by apply Hr].
  split_and!; try lia; [by replace (a + 8 - a) with 8 by lia|].
  replace (8 * q - 8) with ((q - 1) * 8) by lia. by apply Z.mod_mul.
Qed.
Lemma units_sizes bs : sizes_ok bs → 0 ≤ units bs.
Proof. induction 1 as [|[q u] bs Hq Hs IH]; simpl in *; lia. Qed.
Lemma live_app a bs bs' : live a (bs ++ bs') = live a bs ∪ live (a + 8 * units bs) bs'.
Proof.
  revert a. induction bs as [|[q u] bs IH]; intros a; simpl; [by rewrite Z.add_0_r, (left_id_L ∅ (∪))|].
  replace (a + 8 * (q + units bs)) with (a + 8 * q + 8 * units bs) by lia.
  destruct u; rewrite IH; [by rewrite insert_union_l|done].
Qed.
(** Blocks in use on the two sides of a point. *)
Lemma live_split a bs bs' x n : sizes_ok (bs ++ bs') → live a (bs ++ bs') !! x = Some n →
  live a bs !! x = Some n ∧ x + n ≤ a + 8 * units bs ∨
  live (a + 8 * units bs) bs' !! x = Some n ∧ a + 8 * units bs + 8 ≤ x.
Proof.
  intros Hs. apply Forall_app in Hs as [Hs Hs']. rewrite live_app, lookup_union_Some_raw. intros [Hl|[_ Hl]].
  - left. split; [done|]. apply live_range in Hl; [lia|done].
  - right. split; [done|]. apply live_range in Hl; [lia|done].
Qed.

(** ** Splitting a block *)

Ltac upd_simpl := cbn [vw_word with_word]; unfold upd; repeat (case_decide; try lia); try done.

Section ops.
Context {K : Type} `{!Proc K, !ProcOk K}.
Notation S := (uheap K).
Implicit Types (s : S) (v : view) (W : Z → Z).

(** A heap with the blocks [bs]. *)
Record heap_is v (bs : list block) : Prop := {
  hp_lo : 0 < vw_lo v ≤ vw_base v;
  hp_align : vw_base v mod 8 = 0;
  hp_brk : vw_brk v = vw_top v;
  hp_top : vw_top v < 2147483648;
  hp_blocks : blocks (vw_word v) (vw_base v) 0 bs (vw_top v);
}.

(** What is known of one block among the others. *)
Lemma block_at v bs1 q u bs2 :
  heap_is v (bs1 ++ (q, u) :: bs2) →
  let mh := vw_base v + 8 * units bs1 in
  header v mh ∧ hw_ok (last_size 0 bs1) 0 2 ∧ hw_ok q (bit_of u) 2 ∧ 1 ≤ q ∧ vw_base v ≤ mh ∧
  vw_word v mh = hw (last_size 0 bs1) 0 2 ∧ vw_word v (mh + 4) = hw q (bit_of u) 2 ∧ mh + 8 * q ≤ vw_top v ∧
  blocks (vw_word v) (vw_base v) 0 bs1 mh ∧ blocks (vw_word v) (mh + 8 * q) q bs2 (vw_top v) ∧
  0 ≤ last_size 0 bs1 ∧ 8 * last_size 0 bs1 ≤ mh - vw_base v.
Proof.
  intros [Hlo Hal Hbrk Htop Hb] mh. apply blocks_app in Hb as (H1 & H2). fold mh in H1, H2. simpl in H2.
  destruct H2 as (Hw1 & Hw2 & Hq & H2). pose proof (units_nonneg _ _ _ _ _ H1). pose proof (units_nonneg _ _ _ _ _ H2) as Hu2.
  pose proof (blocks_end _ _ _ _ _ H2) as He.
  assert (Hls : 0 ≤ last_size 0 bs1 ≤ units bs1).
  { clear - H1. apply blocks_sizes in H1. unfold last_size. destruct (last bs1) as [[q u]|] eqn:Hl.
    - apply last_Some in Hl as [l ->]. rewrite units_app. simpl. apply Forall_app in H1 as [Hl H1].
      apply units_sizes in Hl. apply Forall_inv in H1. simpl in H1. lia.
    - apply last_None in Hl as ->. done. }
  assert (Hm : mh mod 8 = 0).
  { subst mh. rewrite <- Z.add_mod_idemp_r, (Z.mul_comm 8), Z.mod_mul, Z.add_0_r by done. done. }
  assert (0 ≤ bit_of u < 2) by (unfold bit_of; destruct u; lia).
  unfold header, hw_ok. subst mh. split_and!; try done; lia.
Qed.

(** Fill in the first word of a header, whatever it was. *)
Lemma fill_first {A} s v mh x (c : M S A) Q :
  shows s v → header v mh → 0 ≤ x < 536870912 →
  (∀ s' W', shows s' (with_word W' v) → (∀ b, W' b = upd (vw_word v) mh (hw x 0 2) b) → wp c Q killed s') →
  wp (set_prevblock mh x ;;; set_pad mh 0 ;;; set_magic1 mh MMAGIC ;;; c) Q killed s.
Proof.
  intros Hs Hh Hx HQ. destruct (head_align v mh Hh) as [A1 _]. destruct (shows_word s v mh Hs A1) as (q & b & m & Hw & Hok).
  assert (Hok1 : hw_ok x b m) by (split; [done|apply Hok]). assert (Hok2 : hw_ok x 0 m) by (split; [done|split; [done|apply Hok]]).
  wp_bind. eapply (wp_set_prevblock s v mh q b m); [done..|]. intros s1 Hs1.
  wp_bind. eapply (wp_set_pad s1 _ mh x b m); [done|done|done|by upd_simpl|done|]. intros s2 Hs2.
  wp_bind. eapply (wp_set_magic1 s2 _ mh x 0 m); [done|done|done|by upd_simpl|done|]. intros s3 Hs3.
  eapply HQ; [exact Hs3|]. intros a. by upd_simpl.
Qed.
Lemma fill_second {A} s v mh x u (c : M S A) Q :
  shows s v → header v mh → 0 ≤ x < 536870912 → 0 ≤ u < 2 →
  (∀ s' W', shows s' (with_word W' v) → (∀ b, W' b = upd (vw_word v) (mh + 4) (hw x u 2) b) → wp c Q killed s') →
  wp (set_nextblock mh x ;;; set_inuse mh u ;;; set_magic2 mh MMAGIC ;;; c) Q killed s.
Proof.
  intros Hs Hh Hx Hu HQ. destruct (head_align v mh Hh) as [_ A1].
  destruct (shows_word s v (mh + 4) Hs A1) as (q & b & m & Hw & Hok).
  assert (Hok1 : hw_ok x b m) by (split; [done|apply Hok]). assert (Hok2 : hw_ok x u m) by (split; [done|split; [done|apply Hok]]).
  wp_bind. eapply (wp_set_nextblock s v mh q b m); [done..|]. intros s1 Hs1.
  wp_bind. eapply (wp_set_inuse s1 _ mh x b m); [done|done|done|by upd_simpl|done|]. intros s2 Hs2.
  wp_bind. eapply (wp_set_magic2 s2 _ mh x u m); [done|done|done|by upd_simpl|done|]. intros s3 Hs3.
  eapply HQ; [exact Hs3|]. intros a. by upd_simpl.
Qed.

(** The words after [malloc_split]. *)
Definition split_words W (mh need q t : Z) (b : Z) : Z :=
  if decide (b = mh + 4) then hw need 0 2
  else if decide (b = mh + 8 * need) then hw need 0 2
  else if decide (b = mh + 8 * need + 4) then hw (q - need) 0 2
  else if decide (b = mh + 8 * q ∧ mh + 8 * q ≠ t) then hw (q - need) 0 2 else W b.

Lemma malloc_split_spec s v mh p q need :
  shows s v → header v mh → vw_word v mh = hw p 0 2 → vw_word v (mh + 4) = hw q 0 2 →
  hw_ok q 0 2 → 1 ≤ need ≤ q → vw_brk v = vw_top v → mh + 8 * q ≤ vw_top v → 
  (mh + 8 * q ≠ vw_top v → header v (mh + 8 * q) ∧ vw_word v (mh + 8 * q) = hw q 0 2) →
  wp (malloc_split mh (8 * need - 8))
     (λ _ s', if need + 2 <=? q
        then ∃ W', shows s' (with_word W' v) ∧ ∀ b, W' b = split_words (vw_word v) mh need q (vw_top v) b
        else shows s' v)
     killed s.
Proof.
  intros Hs Hh Hw1 Hw2 Hok Hneed Hbrk Hle Hnext. pose proof Hh as (Hal & Hlo & Hhi & Htop).
  unfold malloc_split, MBLOCKSIZE. wp_bind. apply wp_kassert.
  { apply Z.eqb_eq. replace (8 * need - 8) with ((need - 1) * 8) by lia. by apply Z.mod_mul. }
  wp_bind. eapply wp_SIZE; [done..|lia|]. intros s1 Hs1.
  destruct Hok as [Hq _]. rewrite u32_small by lia.
  destruct (Z.ltb_spec (8 * q - 8 - (8 * need - 8)) (2 * 8)).
  { apply wp_ret. destruct (Z.leb_spec (need + 2) q); [lia|done]. }
  destruct (Z.leb_spec (need + 2) q); [|lia].
  assert (Hok : hw_ok q 0 2) by (unfold hw_ok; lia).
  wp_bind. eapply wp_NEXT; [done..|lia|]. intros s2 Hs2. wp_bind. eapply wp_SIZE; [done..|lia|]. intros s3 Hs3.
  rewrite !u32_small by lia. unfold M_MKFIELD, MBLOCKSHIFT. rewrite !Z.shiftr_div_pow2 by done. change (2 ^ 3) with 8.
  replace ((8 * need - 8 + 8) / 8) with need by (Z.div_mod_to_equations; lia).
  replace ((8 * q - 8 - (8 * need - 8)) / 8) with (q - need) by (Z.div_mod_to_equations; lia).
  wp_bind. eapply wp_set_nextblock; [done..|lia|]. intros s4 Hs4. set (v4 := with_word _ v) in Hs4.
  assert (Hn4 : vw_word v4 (mh + 4) = hw need 0 2) by (unfold v4; by upd_simpl).
  wp_bind. eapply (wp_NEXT s4 v4 mh need 0 2); [done|done|unfold hw_ok; lia|done|lia|]. intros s5 Hs5.
  wp_bind. apply wp_kassert; [apply negb_true_iff, Z.eqb_neq; lia|].
  assert (Hh5 : header v4 (mh + 8 * need)).
  { split; [|simpl; lia]. replace (mh + 8 * need) with (mh + need * 8) by lia. by rewrite Z.mod_add. }
  eapply fill_first; [done|done|lia|]. intros s6 W6 Hs6 HW6.
  eapply fill_second; [done|done|lia|lia|]. intros s7 W7 Hs7 HW7.
  wp_bind. apply wp_get. destruct Hs7 as (Hi7 & Hb7 & Ht7 & Hr7). rewrite Ht7. simpl.
  assert (Hs7 : shows s7 (with_word W7 (with_word W6 v4))) by done. clear Hi7 Hb7 Ht7 Hr7.
  assert (HW : ∀ b, W7 b = if decide (b = mh + 4) then hw need 0 2
    else if decide (b = mh + 8 * need) then hw need 0 2
    else if decide (b = mh + 8 * need + 4) then hw (q - need) 0 2 else vw_word v b).
  { intros b. rewrite HW7. unfold upd. simpl. rewrite HW6. unfold v4. by upd_simpl. }
  apply wp_when.
  - intros Hne%negb_true_iff%Z.eqb_neq. destruct (Hnext Hne) as [Hh8 Hw8].
    wp_bind. eapply (wp_nextblock s7 _ (mh + 8 * need) (q - need) 0 2); [done|done|unfold hw_ok; lia|simpl; rewrite HW; by upd_simpl|].
    intros s8 Hs8. eapply (wp_set_prevblock s8 _ (mh + 8 * q) q 0 2); [done|done|done|simpl; rewrite HW; by upd_simpl|lia|].
    intros s9 Hs9. eexists. split; [exact Hs9|]. intros b. unfold split_words. simpl. unfold upd. rewrite HW.
    repeat case_decide; naive_solver lia.
  - intros He%negb_false_iff%Z.eqb_eq. exists W7. split; [exact Hs7|]. intros b. rewrite HW. unfold split_words.
    repeat case_decide; naive_solver lia.
Qed.

(** ** Taking a block *)

(** The words of the blocks in use are left alone. *)
Definition kept v v' (bs : list block) : Prop :=
  ∀ x n b, live (vw_base v) bs !! x = Some n → x ≤ b < x + n → vw_word v' b = vw_word v b.

Definition cut (need q : Z) (rest : list block) : list block :=
  if need + 2 <=? q then (need, true) :: (q - need, false) :: rest else (q, true) :: rest.

(** Words that only changed inside a free block, and in the header after it. *)
Lemma kept_inside v W' bs1 q bs2 :
  heap_is v (bs1 ++ (q, false) :: bs2) →
  let mh := vw_base v + 8 * units bs1 in
  (∀ b, b < mh ∨ mh + 8 * q + 4 ≤ b → W' b = vw_word v b) →
  kept v (with_word W' v) (bs1 ++ (q, false) :: bs2).
Proof.
  intros Hv mh HW x n b Hl Hb. simpl. apply HW. pose proof (blocks_sizes _ _ _ _ _ (hp_blocks _ _ Hv)) as Hs.
  apply live_split in Hl; [|done]. fold mh in Hl. destruct Hl as [[_ ?]|[Hl _]]; [lia|].
  apply Forall_app in Hs as [_ Hs]. apply Forall_cons in Hs as [Hq Hs]. simpl in Hl, Hq.
  apply live_range in Hl; [lia|done].
Qed.

Lemma next_header v bs1 q u bs2 :
  heap_is v (bs1 ++ (q, u) :: bs2) →
  let mh := vw_base v + 8 * units bs1 in
  mh + 8 * q ≠ vw_top v → header v (mh + 8 * q) ∧ vw_word v (mh + 8 * q) = hw q 0 2.
Proof.
  intros Hv mh Hne. destruct bs2 as [|[q2 u2] bs2].
  { destruct (block_at v bs1 q u [] Hv) as (_ & _ & _ & _ & _ & _ & _ & _ & _ & Hb & _). simpl in Hb. fold mh in Hb. congruence. }
  replace (bs1 ++ (q, u) :: (q2, u2) :: bs2) with ((bs1 ++ [(q, u)]) ++ (q2, u2) :: bs2) in Hv by by rewrite <- app_assoc.
  destruct (block_at _ _ _ _ _ Hv) as (Hh & _ & _ & _ & _ & Hw & _). rewrite units_app in *. simpl in *.
  replace (vw_base v + 8 * (units bs1 + (q + 0))) with (mh + 8 * q) in * by (subst mh; lia).
  split; [done|]. rewrite Hw. unfold last_size. by rewrite last_app.
Qed.

Lemma take_first s v bs1 q bs2 need :
  shows s v → heap_is v (bs1 ++ (q, false) :: bs2) → 1 ≤ need ≤ q →
  let mh := vw_base v + 8 * units bs1 in
  wp (malloc_split mh (8 * need - 8) ;;; set_inuse mh 1)
     (λ _ s', ∃ W', shows s' (with_word W' v) ∧ heap_is (with_word W' v) (bs1 ++ cut need q bs2) ∧
        kept v (with_word W' v) (bs1 ++ (q, false) :: bs2))
     killed s.
Proof.
  intros Hs Hv Hneed mh. destruct (block_at _ _ _ _ _ Hv) as (Hh & Hokp & Hokq & Hq & _ & Hw1 & Hw2 & Hle & Hb1 & Hb2 & _).
  fold mh in Hh, Hw1, Hw2, Hle, Hb1, Hb2. simpl in Hokq, Hw2. pose proof Hv as [Hlo Hal Hbrk Htop Hb].
  wp_bind. eapply wp_mono; [eapply (malloc_split_spec s v mh _ q need); try done; by apply (next_header v bs1 q false bs2)| |done].
  intros [] s1 Hs1. unfold cut. destruct (Z.leb_spec (need + 2) q).
  - destruct Hs1 as (W1 & Hs1 & HW1).
    eapply (wp_set_inuse s1 _ mh need 0 2); [done|done|unfold hw_ok in *; lia|simpl; rewrite HW1; unfold split_words; by rewrite decide_True|done|].
    intros s2 Hs2. eexists. split; [exact Hs2|].
    assert (HW : ∀ b, upd W1 (mh + 4) (hw need 1 2) b =
      if decide (b = mh + 4) then hw need 1 2 else split_words (vw_word v) mh need q (vw_top v) b).
    { intros b. unfold upd. case_decide; [done|]. apply HW1. }
    split.
    + split; try done. simpl. apply blocks_app. fold mh. split.
      * eapply blocks_ext; [done|]. intros b Hb'. rewrite HW. unfold split_words. by rewrite !decide_False by lia.
      * simpl. rewrite !HW. unfold split_words.
        replace (mh + 8 * need + 8 * (q - need)) with (mh + 8 * q) by lia.
        split_and!; try lia.
        -- by rewrite !decide_False by lia.
        -- by rewrite decide_True.
        -- by rewrite !decide_False, decide_True by lia.
        -- by rewrite !decide_False, decide_True by lia.
        -- eapply blocks_prev; [done| |].
           ++ intros b Hb'. rewrite HW. unfold split_words. by rewrite !decide_False by lia.
           ++ intros Hne. rewrite HW. unfold split_words. by rewrite !decide_False, decide_True by lia.
    + apply kept_inside; [done|]. intros b Hb'. fold mh in Hb'. simpl. rewrite HW. unfold split_words.
      by rewrite !decide_False by lia.
  - eapply (wp_set_inuse s1 v mh q 0 2); [done..|]. intros s2 Hs2. eexists. split; [exact Hs2|]. split.
    + split; try done. simpl. apply blocks_app. fold mh. split.
      * eapply blocks_ext; [done|]. intros b Hb'. by upd_simpl.
      * simpl. split_and!; try lia; [by upd_simpl|by upd_simpl|]. eapply blocks_ext; [done|]. intros b Hb'. by upd_simpl.
    + apply kept_inside; [done|]. intros b Hb'. fold mh in Hb'. by upd_simpl.
Qed.

(** ** Searching *)

Lemma search_spec v need : 1 ≤ need → ∀ rest bs1 fuel s,
  shows s v → heap_is v (bs1 ++ rest) → (length rest < fuel)%nat →
  wp (search fuel (vw_base v + 8 * units bs1) (last_size 0 bs1) (8 * need - 8))
     (λ r s', match fit need (vw_base v + 8 * units bs1) rest with
        | Some (x, rest') => r = inl x ∧ ∃ W', shows s' (with_word W' v) ∧
            heap_is (with_word W' v) (bs1 ++ rest') ∧ kept v (with_word W' v) (bs1 ++ rest)
        | None => r = inr (vw_top v, last_size 0 (bs1 ++ rest)) ∧ shows s' v
        end)
     killed s.
Proof.
  intros Hneed. induction rest as [|[q u] rest IH]; intros bs1 [|fuel] s Hs Hv Hf; simpl in Hf; try lia; cbn [search].
  - wp_bind. apply wp_get. rewrite app_nil_r in *.
    assert (vw_base v + 8 * units bs1 = vw_top v) as -> by (symmetry; apply (blocks_end _ _ _ _ _ (hp_blocks _ _ Hv))).
    pose proof Hs as (_ & _ & -> & _). rewrite Z.ltb_irrefl. by apply wp_ret.
  - destruct (block_at _ _ _ _ _ Hv) as (Hh & Hokp & Hokq & Hq & _ & Hw1 & Hw2 & Hle & _).
    set (mh := vw_base v + 8 * units bs1) in *. pose proof (hp_top _ _ Hv). pose proof Hh as (_ & Hlo & _).
    wp_bind. apply wp_get. pose proof Hs as (_ & _ & -> & _). destruct (Z.ltb_spec mh (vw_top v)); [|lia].
    wp_bind. eapply wp_M_OK; [done..|]. intros s1 Hs1. wp_bind. apply wp_kassert; [done|].
    wp_bind. apply (wp_prevblock s1 v mh _ _ _ Hs1 Hh Hokp); [done|]. intros s2 Hs2. wp_bind. apply wp_kassert; [apply Z.eqb_refl|].
    wp_bind. apply (wp_nextblock s2 v mh _ _ _ Hs2 Hh Hokq); [done|]. intros s3 Hs3. wp_bind. apply (wp_NEXTOFF s3 v mh _ _ _ Hs3 Hh Hokq); [done|]. intros s4 Hs4.
    wp_bind. apply (wp_inuse s4 v mh _ _ _ Hs4 Hh Hokq); [done|]. intros s5 Hs5. rewrite u32_small by lia.
    (** The rest of the search. *)
    assert (Hgo : ∀ s', shows s' v → negb u && (need <=? q) = false →
      wp (search fuel (mh + 8 * q) q (8 * need - 8))
        (λ r s', match fit need mh ((q, u) :: rest) with
          | Some (x, rest') => r = inl x ∧ ∃ W', shows s' (with_word W' v) ∧
              heap_is (with_word W' v) (bs1 ++ rest') ∧ kept v (with_word W' v) (bs1 ++ (q, u) :: rest)
          | None => r = inr (vw_top v, last_size 0 (bs1 ++ (q, u) :: rest)) ∧ shows s' v
          end) killed s').
    { intros s' Hs' Hno. simpl. rewrite Hno.
      replace (bs1 ++ (q, u) :: rest) with ((bs1 ++ [(q, u)]) ++ rest) in * by by rewrite <- app_assoc.
      specialize (IH (bs1 ++ [(q, u)]) fuel s' Hs' Hv ltac:(lia)). rewrite units_app in IH. simpl in IH.
      replace (vw_base v + 8 * (units bs1 + (q + 0))) with (mh + 8 * q) in IH by (subst mh; lia).
      assert (last_size 0 (bs1 ++ [(q, u)]) = q) as Hl by (unfold last_size; by rewrite last_app).
      rewrite Hl in IH. eapply wp_mono; [exact IH| |done]. intros r s''.
      destruct (fit need (mh + 8 * q) rest) as [[x rest']|]; [|done]. simpl. by rewrite <- app_assoc. }
    destruct u; simpl; [by apply Hgo|].
    wp_bind. apply (wp_SIZE s5 v mh _ _ _ Hs5 Hh Hokq); [done|done|]. intros s6 Hs6. destruct (Z.ltb_spec (8 * q - 8) (8 * need - 8)).
    { apply Hgo; [done|]. simpl. apply Z.leb_gt. lia. }
    destruct (Z.leb_spec need q); [|lia]. simpl.
    pose proof (take_first s6 v bs1 q rest need Hs6 Hv ltac:(lia)) as Htb. fold mh in Htb. cbv zeta in Htb.
    unfold wp, bind in Htb |- *. destruct (malloc_split mh (8 * need - 8) s6) as [[] s7|e s7| |]; try done.
    destruct (set_inuse mh 1 s7) as [[] s8|e s8| |]; try done. simpl. unfold M_DATA, MBLOCKSIZE.
    rewrite u32_small by lia. split; [done|]. exact Htb.
Qed.

(** ** Growing the heap *)

Lemma malloc_sbrk_spec s v size :
  shows s v → vw_brk v = vw_top v → 0 < vw_lo v → 0 ≤ size < 2147483648 →
  wp (malloc_sbrk size)
     (λ x s', x = 0 ∧ shows s' v ∨
        x = vw_top v ∧ x ≠ 0 ∧ vw_top v + size < 2147483648 ∧
        shows s' (mkview (vw_base v) (vw_top v + size) (vw_lo v) (vw_top v + size) (vw_word v)))
     killed s.
Proof.
  intros (Hi & Hb & Ht & Hlo & Hbrk & Hw) Hbt Hlo0 Hsz. unfold malloc_sbrk. rewrite i32_small by lia.
  wp_bind. unfold proc. apply wp_zoom. eapply wp_mono; [by apply sbrk_spec| |done].
  intros r k' (Hi' & Hlo' & Hw' & Hr). pose proof (pbrk_range _ Hi) as Hp. pose proof (pbrk_range _ Hi') as Hp'.
  assert (Hw'' : ∀ b, b mod 4 = 0 → pword k' b = vw_word v b) by (intros; rewrite Hw'; by apply Hw).
  destruct Hr as [(-> & _ & Hb')|[-> Hb']].
  - apply wp_ret. left. split; [done|]. split_and!; simpl; try done; congruence.
  - destruct (Z.eqb_spec (pbrk (u_proc s)) 4294967295); [lia|]. wp_bind. apply wp_get. simpl. rewrite Hbrk, Hbt, Ht.
    wp_bind. apply wp_kassert; [apply Z.eqb_refl|]. wp_bind. apply wp_modify. apply wp_ret. right.
    rewrite u32_small by lia. split_and!; [done|lia|lia|]. split_and!; simpl; try done; lia.
Qed.

(** A new block at the top. *)
Lemma heap_extend v W' bs need :
  heap_is v bs → 1 ≤ need → vw_top v + 8 * need < 2147483648 →
  W' (vw_top v) = hw (last_size 0 bs) 0 2 → W' (vw_top v + 4) = hw need 1 2 →
  (∀ b, b < vw_top v → W' b = vw_word v b) →
  heap_is (mkview (vw_base v) (vw_top v + 8 * need) (vw_lo v) (vw_top v + 8 * need) W') (bs ++ [(need, true)]).
Proof.
  intros [Hlo Hal Hbrk Htop Hb] Hn Ht H1 H2 HW. pose proof (blocks_end _ _ _ _ _ Hb) as He. split; simpl; try done.
  apply blocks_app. rewrite <- He. split; [|by simpl].
  eapply blocks_ext; [done|]. intros b Hb'. apply HW. lia.
Qed.
Lemma heap_kept v W' top bs :
  heap_is v bs → (∀ b, b < vw_top v → W' b = vw_word v b) → kept v (mkview (vw_base v) top (vw_lo v) top W') bs.
Proof.
  intros [Hlo Hal Hbrk Htop Hb] HW x n b Hl Hb'. simpl. apply HW.
  apply live_range in Hl; [|by eapply blocks_sizes]. rewrite (blocks_end _ _ _ _ _ Hb). lia.
Qed.

Definition need_of (size : Z) : Z := (size + 7) / 8 + 1.
Lemma round_size size : 0 ≤ size < 2147483640 →
  Z.land (u32 (u32 (size + MBLOCKSIZE) - 1)) 4294967288 = 8 * need_of size - 8.
Proof.
  intros Hs. unfold MBLOCKSIZE, need_of. rewrite (u32_small (size + 8)) by lia. rewrite u32_small by lia.
  replace (size + 8 - 1) with (8 * ((size + 7) / 8) + (size + 7) mod 8) by (Z.div_mod_to_equations; lia).
  replace 4294967288 with (4294967288 + 0) by done. rewrite land_high; [|Z.div_mod_to_equations; lia|apply Z.mod_pos_bound; lia|lia].
  rewrite Z.land_0_r. lia.
Qed.

(** Which answer, and which blocks afterwards. *)
Definition malloc_result (need : Z) v (bs : list block) (p : Z) (bs' : list block) : Prop :=
  match fit need (vw_base v) bs with
  | Some (x, bs1) => p = x ∧ bs' = bs1
  | None => p = 0 ∧ bs' = bs ∨ p = vw_top v + 8 ∧ bs' = bs ++ [(need, true)]
  end.

Lemma search_fuel_enough s v bs : shows s v → heap_is v bs → (length bs < search_fuel s)%nat.
Proof.
  intros (_ & Hb & Ht & _) [Hlo Hal Hbrk Htop Hbl]. unfold search_fuel, MBLOCKSIZE. rewrite Hb, Ht.
  rewrite (blocks_end _ _ _ _ _ Hbl). replace (vw_base v + 8 * units bs - vw_base v) with (units bs * 8) by lia.
  rewrite Z.div_mul by done. apply blocks_sizes in Hbl.
  assert (Z.of_nat (length bs) ≤ units bs); [|lia]. clear - Hbl.
  induction Hbl as [|[q u] bs Hq Hs IH]; simpl in *; lia.
Qed.

(** ** [malloc] *)

Lemma malloc_ready_spec s v bs size :
  shows s v → heap_is v bs → 0 ≤ size < 2147483632 →
  wp (malloc_ready size)
     (λ p s', ∃ v' bs', shows s' v' ∧ heap_is v' bs' ∧ kept v v' bs ∧ vw_base v' = vw_base v ∧
        malloc_result (need_of size) v bs p bs')
     killed s.
Proof.
  intros Hs Hv Hsz. pose proof Hv as [Hlo Hal Hbrk Htop Hb]. pose proof (blocks_end _ _ _ _ _ Hb) as He.
  pose proof (units_nonneg _ _ _ _ _ Hb) as Hu. unfold malloc_ready. wp_bind. apply wp_get.
  pose proof Hs as (_ & Hbase & Ht & _).
  wp_bind. apply wp_kassert.
  { rewrite Hbase, Ht. destruct (Z.eqb_spec (vw_base v) 0), (Z.eqb_spec (vw_top v) 0), (Z.ltb_spec (vw_top v) (vw_base v)); try done; lia. }
  rewrite round_size by lia. assert (Hn : 1 ≤ need_of size ∧ 8 * need_of size < 2147483648) by (unfold need_of; Z.div_mod_to_equations; lia).
  set (need := need_of size) in *. wp_bind. rewrite Hbase.
  pose proof (search_spec v need (proj1 Hn) bs [] (search_fuel s) s Hs Hv (search_fuel_enough s v bs Hs Hv)) as Hse.
  simpl in Hse. rewrite Z.add_0_r in Hse. unfold last_size at 1 in Hse. simpl in Hse.
  eapply wp_mono; [exact Hse| |done]. intros r s1 Hr. unfold malloc_result.
  destruct (fit need (vw_base v) bs) as [[x bs1]|].
  { destruct Hr as (-> & W' & Hs1 & Hv1 & Hk). apply wp_ret. eexists _, _. by split_and!. }
  destruct Hr as [-> Hs1]. rewrite Ht. wp_bind. apply wp_kassert; [apply Z.eqb_refl|].
  unfold MBLOCKSIZE. replace (8 * need - 8 + 8) with (8 * need) by lia. rewrite (u32_small (8 * need)) by lia.
  wp_bind. eapply wp_mono; [apply (malloc_sbrk_spec s1 v); [done|done|lia|lia]| |done].
  intros x s2 [[-> Hs2]|(-> & Hx0 & Htop' & Hs2)].
  { apply wp_ret. exists v, bs. by split_and!; [..|left]. }
  destruct (Z.eqb_spec (vw_top v) 0); [done|]. set (mh := vw_top v) in *. set (v2 := mkview _ _ _ _ _) in Hs2.
  assert (Hh : header v2 mh).
  { subst v2. unfold header. simpl. split; [|lia]. subst mh. rewrite He, <- Z.add_mod_idemp_r, (Z.mul_comm 8), Z.mod_mul, Z.add_0_r; done. }
  destruct (head_align v2 mh Hh) as [A1 A2].
  destruct (shows_word s2 v2 mh Hs2 A1) as (q1 & b1 & m1 & Hw1 & Hok1).
  destruct (shows_word s2 v2 (mh + 4) Hs2 A2) as (q2 & b2 & m2 & Hw2 & Hok2).
  assert (Hls : 0 ≤ last_size 0 bs < 536870912).
  { apply blocks_sizes in Hb as Hsz'. unfold last_size. destruct (last bs) as [[q u]|] eqn:Hl; [|lia].
    apply last_Some in Hl as [l ->]. rewrite units_app in *. simpl in *. apply Forall_app in Hsz' as [Hl H1].
    apply units_sizes in Hl. apply Forall_inv in H1. simpl in H1. lia. }
  assert (H0 : 0 ≤ b1 < 2 ∧ 0 ≤ m1 < 4 ∧ 0 ≤ q2 < 536870912 ∧ 0 ≤ b2 < 2 ∧ 0 ≤ m2 < 4) by (unfold hw_ok in *; tauto).
  wp_bind. apply (wp_set_prevblock s2 v2 mh q1 b1 m1); [done..|]. intros s3 Hs3.
  wp_bind. apply (wp_set_magic1 s3 _ mh (last_size 0 bs) b1 m1 Hs3 Hh); [unfold hw_ok; lia|by upd_simpl|done|]. intros s4 Hs4.
  wp_bind. apply (wp_set_magic2 s4 _ mh q2 b2 m2 Hs4 Hh); [done|simpl in *; by upd_simpl|done|]. intros s5 Hs5.
  wp_bind. apply (wp_set_pad s5 _ mh (last_size 0 bs) b1 2 Hs5 Hh); [unfold hw_ok; lia|by upd_simpl|done|]. intros s6 Hs6.
  wp_bind. apply (wp_set_inuse s6 _ mh q2 b2 2 Hs6 Hh); [unfold hw_ok; lia|by upd_simpl|done|]. intros s7 Hs7.
  unfold M_MKFIELD, MBLOCKSHIFT. rewrite Z.shiftr_div_pow2 by done. change (2 ^ 3) with 8.
  replace (8 * need / 8) with need by (rewrite Z.mul_comm, Z.div_mul; done).
  wp_bind. apply (wp_set_nextblock s7 _ mh q2 1 2 Hs7 Hh); [unfold hw_ok; lia|by upd_simpl|lia|]. intros s8 Hs8.
  apply wp_ret. eexists _, (bs ++ [(need, true)]). split; [exact Hs8|]. split; [|split; [|split; [done|]]].
  - apply (heap_extend v); [done|lia|done|by upd_simpl|by upd_simpl|]. intros b Hb'. fold mh in Hb'. by upd_simpl.
  - apply (heap_kept v); [done|]. intros b Hb'. fold mh in Hb'. by upd_simpl.
  - right. split; [|done]. unfold M_DATA, MBLOCKSIZE. apply u32_small. lia.
Qed.

(** Before the first call. *)
Definition uninit v : Prop := vw_base v = 0 ∧ vw_top v = 0 ∧ vw_brk v mod 8 = 0.
Definition started v : view := mkview (vw_brk v) (vw_brk v) (vw_lo v) (vw_brk v) (vw_word v).

Lemma malloc_init_spec s v :
  shows s v → uninit v →
  wp malloc_init (λ _ s', shows s' (started v) ∧ heap_is (started v) []) (λ _ _, False) s.
Proof.
  intros (Hi & Hb & Ht & Hlo & Hbrk & Hw) (Hb0 & Ht0 & Hal). unfold malloc_init. wp_bind. apply wp_get.
  wp_bind. apply wp_kassert; [by rewrite Hb, Hb0, Ht, Ht0|]. wp_bind. unfold proc at 1. apply wp_zoom.
  eapply wp_mono; [by apply sbrk_spec| |done]. intros r k' (Hi' & Hlo' & Hw' & [(_ & ? & _)|[-> Hb']]); [lia|].
  pose proof (pbrk_range _ Hi) as Hp. rewrite Hbrk in *. rewrite Z.add_0_r in Hb'.
  wp_bind. apply wp_kassert; [apply negb_true_iff, Z.eqb_neq; lia|]. wp_bind. apply wp_kassert; [apply negb_true_iff, Z.eqb_neq; lia|].
  wp_bind. apply wp_modify. unfold MBLOCKSIZE. rewrite Hal. simpl. apply wp_ret.
  split; [split_and!; simpl; try done; [congruence|intros b Hb2; rewrite Hw'; by apply Hw]|]. split; simpl; try done; lia.
Qed.

(** A heap, or one to be set up. *)
Definition usable v (bs : list block) : Prop := heap_is v bs ∨ uninit v ∧ bs = [].
(** Where the blocks are, or will be. *)
Definition ready v : view := if vw_base v =? 0 then started v else v.

Lemma malloc_spec s v bs size :
  shows s v → usable v bs → 0 ≤ size < 2147483632 →
  wp (malloc size)
     (λ p s', ∃ v' bs', shows s' v' ∧ heap_is v' bs' ∧ kept (ready v) v' bs ∧ vw_base v' = vw_base (ready v) ∧
        malloc_result (need_of size) (ready v) bs p bs')
     killed s.
Proof.
  intros Hs Hv Hsz. unfold malloc. wp_bind. apply wp_get. pose proof Hs as (_ & Hb & _). rewrite Hb. wp_bind.
  destruct Hv as [Hv|[Hu ->]].
  - pose proof Hv as [? _ _ _ _]. unfold ready. destruct (Z.eqb_spec (vw_base v) 0); [lia|]. simpl. by apply malloc_ready_spec.
  - unfold ready. rewrite (proj1 Hu). simpl. eapply wp_mono; [by apply malloc_init_spec| |done].
    intros [] s1 [Hs1 Hv1]. by apply malloc_ready_spec.
Qed.
End ops.
