(* ===== verification/UMallocFree.v ===== *)
(** * The user allocator: [free] *)

From S2P Require Import Prelude UMalloc UMallocSpec UMallocOps.

Section free.
Context {K : Type} `{!Proc K, !ProcOk K}.
Notation S := (uheap K).
Implicit Types (s : S) (v : view) (W : Z → Z).

(** ** Wiping *)

Lemma deadbeef_spec s v ptr n :
  shows s v → ptr mod 4 = 0 → 0 < vw_lo v ≤ ptr → 0 ≤ n → ptr + 4 * n ≤ vw_brk v → vw_brk v < 2147483648 →
  wp (malloc_deadbeef ptr (4 * n))
     (λ _ s', ∃ W', shows s' (with_word W' v) ∧ ∀ b, ¬ (ptr ≤ b < ptr + 4 * n) → W' b = vw_word v b)
     killed s.
Proof.
  intros Hs Hal Hlo Hn Hhi Htop. unfold malloc_deadbeef. rewrite Z.mul_comm, Z.div_mul by done.
  eapply wp_mono; [apply (wp_for_range (λ _ s', ∃ W', shows s' (with_word W' v) ∧
    ∀ b, ¬ (ptr ≤ b < ptr + 4 * n) → W' b = vw_word v b) killed)| |done].
  - exists (vw_word v). by destruct v.
  - intros i s1 Hi (W1 & Hs1 & HW1). rewrite u32_small by lia.
    eapply (wp_store s1 (with_word W1 v)); simpl; [done|by rewrite Z.mul_comm, Z.mod_add|lia|lia|done|].
    intros s2 Hs2. eexists. split; [exact Hs2|]. intros b Hb. unfold upd. rewrite decide_False by lia. by apply HW1.
  - intros [] s1. rewrite (Z.mul_comm n). done.
Qed.

(** ** Merging *)

(** Blocks that went into one. *)
Lemma kept_two v W' bs1 q1 q2 bs2 :
  heap_is v (bs1 ++ (q1, false) :: (q2, false) :: bs2) →
  let mh := vw_base v + 8 * units bs1 in
  (∀ b, b < mh ∨ mh + 8 * q1 + 8 * q2 + 4 ≤ b → W' b = vw_word v b) →
  kept v (with_word W' v) (bs1 ++ (q1, false) :: (q2, false) :: bs2).
Proof.
  intros Hv mh HW x n b Hl Hb. simpl. apply HW. pose proof (blocks_sizes _ _ _ _ _ (hp_blocks _ _ Hv)) as Hs.
  apply live_split in Hl; [|done]. fold mh in Hl. destruct Hl as [[_ ?]|[Hl _]]; [lia|].
  apply Forall_app in Hs as [_ Hs]. apply Forall_cons in Hs as [Hq1 Hs]. apply Forall_cons in Hs as [Hq2 Hs].
  simpl in Hl, Hq1, Hq2. apply live_range in Hl; [lia|done].
Qed.

Lemma kept_refl v bs : kept v v bs.
Proof. by intros x n b. Qed.

Lemma trymerge_spec s v bs1 q1 u1 q2 u2 bs2 :
  shows s v → heap_is v (bs1 ++ (q1, u1) :: (q2, u2) :: bs2) →
  let mh := vw_base v + 8 * units bs1 in
  wp (malloc_trymerge mh (mh + 8 * q1))
     (λ _ s', ∃ W', shows s' (with_word W' v) ∧ heap_is (with_word W' v) (bs1 ++ join (q1, u1) ((q2, u2) :: bs2)) ∧
        kept v (with_word W' v) (bs1 ++ (q1, u1) :: (q2, u2) :: bs2))
     killed s.
Proof.
  intros Hs Hv mh. destruct (block_at _ _ _ _ _ Hv) as (Hh1 & Hokp & Hok1 & Hq1 & Hge & Hw1 & Hw1' & Hle1 & Hb1 & _).
  pose proof Hv as Hv2. replace (bs1 ++ (q1, u1) :: (q2, u2) :: bs2) with ((bs1 ++ [(q1, u1)]) ++ (q2, u2) :: bs2) in Hv2
    by by rewrite <- app_assoc.
  destruct (block_at _ _ _ _ _ Hv2) as (Hh2 & Hokp2 & Hok2 & Hq2 & _ & Hw2 & Hw2' & Hle2 & _ & Hb2 & _).
  rewrite units_app in *. simpl units in *. fold mh in Hh1, Hge, Hw1, Hw1', Hle1, Hb1.
  replace (vw_base v + 8 * (units bs1 + (q1 + 0))) with (mh + 8 * q1) in * by (subst mh; lia).
  assert (Hl : last_size 0 (bs1 ++ [(q1, u1)]) = q1) by (unfold last_size; by rewrite last_app). rewrite Hl in *.
  pose proof Hv as [Hlo Hal Hbrk Htop Hb].
  assert (Hskip : ∀ s', shows s' v → ∃ W', shows s' (with_word W' v) ∧
    heap_is (with_word W' v) (bs1 ++ (q1, u1) :: (q2, u2) :: bs2) ∧ kept v (with_word W' v) (bs1 ++ (q1, u1) :: (q2, u2) :: bs2)).
  { intros s' Hs'. exists (vw_word v). destruct v. split_and!; [done|done|apply kept_refl]. }
  unfold malloc_trymerge. wp_bind. apply (wp_nextblock s v mh _ _ _ Hs Hh1 Hok1); [done|]. intros s1 Hs1.
  wp_bind. apply (wp_prevblock s1 v _ _ _ _ Hs1 Hh2 Hokp2); [done|]. intros s2 Hs2.
  wp_bind. apply wp_kassert; [apply Z.eqb_refl|].
  wp_bind. apply (wp_inuse s2 v mh _ _ _ Hs2 Hh1 Hok1); [done|]. intros s3 Hs3. destruct u1; simpl.
  { apply wp_ret. by apply Hskip. }
  wp_bind. apply (wp_inuse s3 v _ _ _ _ Hs3 Hh2 Hok2); [done|]. intros s4 Hs4. destruct u2; simpl.
  { apply wp_ret. by apply Hskip. }
  simpl bit_of in *.
  wp_bind. apply (wp_NEXT s4 v _ _ _ _ Hs4 Hh2 Hok2); [done|lia|]. intros s5 Hs5.
  wp_bind. apply (wp_SIZE s5 v _ _ _ _ Hs5 Hh1 Hok1); [done|done|]. intros s6 Hs6.
  wp_bind. apply (wp_SIZE s6 v _ _ _ _ Hs6 Hh2 Hok2); [done|done|]. intros s7 Hs7.
  unfold MBLOCKSIZE, M_MKFIELD, MBLOCKSHIFT. rewrite (u32_small (8 + (8 * q1 - 8))) by lia.
  rewrite (u32_small (8 + (8 * q1 - 8) + 8)) by lia. rewrite u32_small by lia. rewrite Z.shiftr_div_pow2 by done. change (2 ^ 3) with 8.
  replace ((8 + (8 * q1 - 8) + 8 + (8 * q2 - 8)) / 8) with (q1 + q2) by (Z.div_mod_to_equations; lia).
  wp_bind. apply (wp_set_nextblock s7 v mh _ _ _ Hs7 Hh1 Hok1); [done|unfold hw_ok in *; lia|]. intros s8 Hs8.
  set (v8 := with_word _ v) in Hs8. wp_bind. apply wp_get. pose proof Hs8 as (_ & _ & Ht8 & _). rewrite Ht8. simpl.
  (** The block above learns the new size. *)
  assert (Hnext : wp (when (negb (mh + 8 * q1 + 8 * q2 =? vw_top v)) (let! n := mh_nextblock mh in set_prevblock (mh + 8 * q1 + 8 * q2) n))
    (λ _ s', ∃ W', shows s' (with_word W' v) ∧ ∀ b, W' b = if decide (b = mh + 8 * q1 + 8 * q2 ∧ b ≠ vw_top v)
       then hw (q1 + q2) 0 2 else upd (vw_word v) (mh + 4) (hw (q1 + q2) 0 2) b) killed s8).
  { apply wp_when.
    - intros Hne%negb_true_iff%Z.eqb_neq. destruct (next_header v (bs1 ++ [(q1, false)]) q2 false bs2) as [Hh3 Hw3].
      { by rewrite <- app_assoc. }
      { rewrite units_app. simpl. intros Hc. apply Hne. subst mh. rewrite <- Hc. lia. }
      rewrite units_app in Hh3, Hw3. simpl in Hh3, Hw3.
      replace (vw_base v + 8 * (units bs1 + (q1 + 0)) + 8 * q2) with (mh + 8 * q1 + 8 * q2) in Hh3, Hw3 by (subst mh; lia).
      wp_bind. apply (wp_nextblock s8 v8 mh (q1 + q2) 0 2 Hs8 Hh1); [unfold hw_ok in *; lia|unfold v8; by upd_simpl|]. intros s9 Hs9.
      apply (wp_set_prevblock s9 v8 _ q2 0 2 Hs9 Hh3); [unfold hw_ok in *; lia|unfold v8; by upd_simpl|unfold hw_ok in *; lia|].
      intros s10 Hs10. eexists. split; [exact Hs10|]. intros b. simpl. unfold upd. repeat case_decide; naive_solver lia.
    - intros He%negb_false_iff%Z.eqb_eq. eexists. split; [exact Hs8|]. intros b. rewrite decide_False; [done|]. lia. }
  wp_bind. eapply wp_mono; [exact Hnext| |done]. intros [] s9 (W9 & Hs9 & HW9).
  eapply wp_mono; [apply (deadbeef_spec s9 _ (mh + 8 * q1) 2 Hs9)| |done]; simpl; try lia.
  { destruct (head_align v _ Hh2). done. }
  intros [] s10 (W10 & Hs10 & HW10). exists W10. split; [exact Hs10|]. 
  assert (HW : ∀ b, ¬ (mh + 8 * q1 ≤ b < mh + 8 * q1 + 8) → W10 b =
    if decide (b = mh + 8 * q1 + 8 * q2 ∧ b ≠ vw_top v) then hw (q1 + q2) 0 2
    else upd (vw_word v) (mh + 4) (hw (q1 + q2) 0 2) b).
  { intros b Hb'. rewrite HW10 by lia. apply HW9. }
  split.
  - split; try done. simpl. apply blocks_app. fold mh. split.
    + eapply blocks_ext; [done|]. intros b Hb'. rewrite HW by lia. rewrite decide_False by lia. by upd_simpl.
    + simpl. rewrite !HW by lia. rewrite !decide_False by lia.
      replace (mh + 8 * (q1 + q2)) with (mh + 8 * q1 + 8 * q2) by lia.
      split_and!; [by upd_simpl|by upd_simpl|lia|]. eapply blocks_prev; [done| |].
      * intros b Hb'. rewrite HW by lia. rewrite decide_False by lia. by upd_simpl.
      * intros Hne. rewrite HW by lia. by rewrite decide_True.
  - apply kept_two; [done|]. fold mh. intros b Hb'. rewrite HW by lia. rewrite decide_False by lia. by upd_simpl.
Qed.

(** ** [free] *)

(** [bs] with the blocks [l] behind, the last of [bs] joined with the first of
    [l]. *)
Fixpoint rejoin (bs l : list block) : list block :=
  match bs with
  | [] => l
  | [b] => join b l
  | b :: bs' => b :: rejoin bs' l
  end.
Lemma rejoin_snoc bs b l : rejoin (bs ++ [b]) l = bs ++ join b l.
Proof. induction bs as [|b' bs IH]; [done|]. destruct bs as [|b'' bs]; [done|]. simpl in *. by rewrite IH. Qed.

Lemma kept_trans v v' v'' bs bs' :
  kept v v' bs → kept v' v'' bs' → vw_base v' = vw_base v →
  (∀ x n, live (vw_base v) bs !! x = Some n → live (vw_base v) bs' !! x = Some n) → kept v v'' bs.
Proof.
  intros H1 H2 Hb Hl x n b Hx Hn. rewrite (H2 x n b); [by apply (H1 x n)| |done]. rewrite Hb. by apply Hl.
Qed.
Lemma live_join a b bs : live a (join b bs) = live a (b :: bs).
Proof.
  destruct b as [q []], bs as [|[q' []] bs]; simpl; try done. by replace (a + 8 * (q + q')) with (a + 8 * q + 8 * q') by lia.
Qed.

Lemma join_head q bs : ∃ q' l, join (q, false) bs = (q', false) :: l.
Proof. destruct bs as [|[q2 []] bs]; simpl; eauto. Qed.

(** The block marked free and wiped. *)
Lemma mark_free s v bs1 q bs2 :
  shows s v → heap_is v (bs1 ++ (q, true) :: bs2) →
  let mh := vw_base v + 8 * units bs1 in
  wp (set_inuse mh 0 ;;; let! size := M_SIZE mh in malloc_deadbeef (M_DATA mh) size)
     (λ _ s', ∃ W', shows s' (with_word W' v) ∧ heap_is (with_word W' v) (bs1 ++ (q, false) :: bs2) ∧
        kept v (with_word W' v) (bs1 ++ (q, false) :: bs2))
     killed s.
Proof.
  intros Hs Hv mh. destruct (block_at _ _ _ _ _ Hv) as (Hh & Hokp & Hok & Hq & Hge & Hw1 & Hw2 & Hle & Hb1 & Hb2 & _).
  fold mh in Hh, Hge, Hw1, Hw2, Hle, Hb1, Hb2. simpl in Hok, Hw2. pose proof Hv as [Hlo Hal Hbrk Htop Hb].
  wp_bind. apply (wp_set_inuse s v mh _ _ _ Hs Hh Hok); [done|done|]. intros s1 Hs1.
  assert (Hok0 : hw_ok q 0 2) by (unfold hw_ok in *; lia). set (v1 := with_word _ v) in Hs1.
  assert (Hw : vw_word v1 (mh + 4) = hw q 0 2) by (unfold v1; by upd_simpl).
  wp_bind. apply (wp_SIZE s1 v1 mh _ _ _ Hs1 Hh Hok0); [done|done|]. intros s2 Hs2.
  unfold M_DATA, MBLOCKSIZE. rewrite u32_small by lia. replace (8 * q - 8) with (4 * (2 * q - 2)) by lia.
  destruct (head_align v mh Hh) as [A1 _].
  eapply wp_mono; [apply (deadbeef_spec s2 v1 (mh + 8) (2 * q - 2) Hs2)| |done]; simpl; try lia.
  { replace (mh + 8) with (mh + 2 * 4) by lia. by rewrite Z.mod_add. }
  intros [] s3 (W3 & Hs3 & HW3). exists W3. split; [exact Hs3|].
  assert (HW : ∀ b, ¬ (mh + 8 ≤ b < mh + 8 * q) → W3 b = upd (vw_word v) (mh + 4) (hw q 0 2) b).
  { intros b Hb'. apply HW3. lia. }
  assert (Hv3 : heap_is (with_word W3 v) (bs1 ++ (q, false) :: bs2)).
  { split; try done. simpl. apply blocks_app. fold mh. split.
    - eapply blocks_ext; [done|]. intros b Hb'. rewrite HW by lia. by upd_simpl.
    - simpl. rewrite !HW by lia. split_and!; [by upd_simpl|by upd_simpl|done|]. eapply blocks_ext; [done|].
      intros b Hb'. rewrite HW by lia. by upd_simpl. }
  split; [done|]. intros x n b Hl Hb'. simpl.
  pose proof (blocks_sizes _ _ _ _ _ (hp_blocks _ _ Hv3)) as Hsz.
  apply live_split in Hl; [|done]. fold mh in Hl. destruct Hl as [[_ ?]|[Hl _]]; [rewrite HW by lia; by upd_simpl|].
  apply Forall_app in Hsz as [_ Hsz]. apply Forall_cons in Hsz as [_ Hsz]. simpl in Hl.
  apply live_range in Hl; [|done]. rewrite HW by lia. by upd_simpl.
Qed.

(** Merging with the block above, then with the block below. *)
Lemma merge_above s v bs1 q bs2 :
  shows s v → heap_is v (bs1 ++ (q, false) :: bs2) →
  let mh := vw_base v + 8 * units bs1 in
  wp (let! mhnext := M_NEXT mh in when (negb (mhnext =? vw_top v)) (malloc_trymerge mh mhnext))
     (λ _ s', ∃ W', shows s' (with_word W' v) ∧ heap_is (with_word W' v) (bs1 ++ join (q, false) bs2) ∧
        kept v (with_word W' v) (bs1 ++ (q, false) :: bs2))
     killed s.
Proof.
  intros Hs Hv mh. destruct (block_at _ _ _ _ _ Hv) as (Hh & Hokp & Hok & Hq & Hge & Hw1 & Hw2 & Hle & Hb1 & Hb2 & _).
  fold mh in Hh, Hge, Hw1, Hw2, Hle, Hb1, Hb2. pose proof (hp_top _ _ Hv).
  wp_bind. apply (wp_NEXT s v mh _ _ _ Hs Hh Hok); [done|lia|]. intros s1 Hs1. apply wp_when.
  - intros Hne%negb_true_iff%Z.eqb_neq. destruct bs2 as [|[q2 u2] bs2]; [by simpl in Hb2|]. by apply trymerge_spec.
  - intros He%negb_false_iff%Z.eqb_eq. destruct bs2 as [|[q2 u2] bs2].
    + exists (vw_word v). destruct v. split_and!; [done|done|apply kept_refl].
    + pose proof (blocks_end _ _ _ _ _ Hb2) as He2. apply blocks_sizes in Hb2. apply Forall_cons in Hb2 as [? Hb2].
      apply units_sizes in Hb2. simpl in *. lia.
Qed.
Lemma merge_below s v bs1 q l :
  shows s v → heap_is v (bs1 ++ (q, false) :: l) →
  let mh := vw_base v + 8 * units bs1 in
  wp (when (negb (mh =? vw_base v)) (let! mhprev := M_PREV mh in malloc_trymerge mhprev mh))
     (λ _ s', ∃ W', shows s' (with_word W' v) ∧ heap_is (with_word W' v) (rejoin bs1 ((q, false) :: l)) ∧
        kept v (with_word W' v) (bs1 ++ (q, false) :: l))
     killed s.
Proof.
  intros Hs Hv mh. apply wp_when.
  - intros Hne%negb_true_iff%Z.eqb_neq. destruct bs1 as [|[q0 u0] bs0 _] using rev_ind; [by subst mh; simpl in Hne; lia|].
    destruct (block_at _ _ _ _ _ Hv) as (Hh & Hokp & _ & _ & _ & Hw1 & _ & _ & _ & _ & Hls & Hls').
    fold mh in Hh, Hw1, Hls'. assert (Hl : last_size 0 (bs0 ++ [(q0, u0)]) = q0) by (unfold last_size; by rewrite last_app).
    rewrite Hl in *. pose proof (hp_lo _ _ Hv).
    wp_bind. apply (wp_PREV s v mh _ _ _ Hs Hh Hokp); [done|lia|]. intros s1 Hs1.
    rewrite <- app_assoc in Hv. simpl in Hv. rewrite rejoin_snoc.
    pose proof (trymerge_spec s1 v bs0 q0 u0 q false l Hs1 Hv) as Ht. cbv zeta in Ht.
    replace (vw_base v + 8 * units bs0) with (mh - 8 * q0) in Ht by (subst mh; rewrite units_app; simpl; lia).
    replace (mh - 8 * q0 + 8 * q0) with mh in Ht by lia. by rewrite <- app_assoc.
  - intros He%negb_false_iff%Z.eqb_eq. assert (bs1 = []) as ->.
    { pose proof (blocks_sizes _ _ _ _ _ (hp_blocks _ _ Hv)) as Hsz. apply Forall_app in Hsz as [Hsz _].
      destruct bs1 as [|[q0 u0] bs1]; [done|]. apply Forall_cons in Hsz as [? Hsz]. apply units_sizes in Hsz.
      subst mh. simpl in *. lia. }
    exists (vw_word v). destruct v. split_and!; [done|done|apply kept_refl].
Qed.

Lemma free_spec s v bs1 q bs2 :
  shows s v → heap_is v (bs1 ++ (q, true) :: bs2) →
  let mh := vw_base v + 8 * units bs1 in
  mh + 8 < vw_top v →
  wp (free (mh + 8))
     (λ _ s', ∃ W', shows s' (with_word W' v) ∧ heap_is (with_word W' v) (rejoin bs1 (join (q, false) bs2)) ∧
        kept v (with_word W' v) (bs1 ++ (q, false) :: bs2))
     killed s.
Proof.
  intros Hs Hv mh Hlt. destruct (block_at _ _ _ _ _ Hv) as (Hh & Hokp & Hok & Hq & Hge & Hw1 & Hw2 & Hle & _).
  fold mh in Hh, Hge, Hw1, Hw2, Hle. pose proof Hv as [Hlo Hal Hbrk Htop Hb]. pose proof Hs as (_ & Hsb & Hst & _).
  unfold free. destruct (Z.eqb_spec (mh + 8) 0); [lia|]. wp_bind. apply wp_get. rewrite Hsb, Hst.
  wp_bind. apply wp_kassert.
  { destruct (Z.eqb_spec (vw_base v) 0), (Z.eqb_spec (vw_top v) 0), (Z.ltb_spec (vw_top v) (vw_base v)); try done; lia. }
  wp_bind. apply wp_kassert.
  { destruct (Z.ltb_spec (mh + 8) (vw_base v)), (Z.leb_spec (vw_top v) (mh + 8)); try done; lia. }
  unfold MBLOCKSIZE. rewrite u32_small by lia. replace (mh + 8 - 8) with mh by lia.
  wp_bind. eapply wp_M_OK; [done..|]. intros s1 Hs1. wp_bind. apply wp_kassert; [done|].
  wp_bind. apply (wp_inuse s1 v mh _ _ _ Hs1 Hh Hok); [done|]. intros s2 Hs2. wp_bind. apply wp_kassert; [by destruct (true)|].
  (** Three parts. *)
  cut (wp ((set_inuse mh 0 ;;; let! size := M_SIZE mh in malloc_deadbeef (M_DATA mh) size) ;;;
           (let! mhnext := M_NEXT mh in when (negb (mhnext =? vw_top v)) (malloc_trymerge mh mhnext)) ;;;
           when (negb (mh =? vw_base v)) (let! mhprev := M_PREV mh in malloc_trymerge mhprev mh))
     (λ _ s', ∃ W', shows s' (with_word W' v) ∧ heap_is (with_word W' v) (rejoin bs1 (join (q, false) bs2)) ∧
        kept v (with_word W' v) (bs1 ++ (q, false) :: bs2)) killed s2).
  { unfold wp, bind. destruct (set_inuse mh 0 s2) as [[] s3|e s3| |]; try done. destruct (M_SIZE mh s3) as [n' s4|e s4| |]; try done.
    destruct (malloc_deadbeef (M_DATA mh) n' s4) as [[] s5|e s5| |]; try done. by destruct (M_NEXT mh s5). }
  wp_bind. eapply wp_mono; [apply (mark_free s2 v bs1 q bs2 Hs2 Hv)| |done]. intros [] s3 (W3 & Hs3 & Hv3 & Hk3).
  wp_bind. eapply wp_mono; [apply (merge_above s3 (with_word W3 v) bs1 q bs2 Hs3 Hv3)| |done]. intros [] s4 (W4 & Hs4 & Hv4 & Hk4).
  destruct (join_head q bs2) as (q' & l & Hj). rewrite Hj in *.
  eapply wp_mono; [apply (merge_below s4 (with_word W4 v) bs1 q' l Hs4 Hv4)| |done]. intros [] s5 (W5 & Hs5 & Hv5 & Hk5).
  exists W5. split; [exact Hs5|]. split; [exact Hv5|].
  eapply (kept_trans _ (with_word W3 v)); [exact Hk3| |done|by intros].
  eapply (kept_trans _ (with_word W4 v)); [exact Hk4|exact Hk5|done|].
  intros x m Hl. rewrite <- Hj, live_app, live_join, <- live_app. exact Hl.
Qed.
End free.
