(* ===== verification/UMallocThm.v ===== *)
(** * The user allocator: what programs are promised

    [malloc_refines] is the simulation between the allocator and a set of
    separate arrays, for every sequence of calls, loads and stores of a
    program; [malloc_first_fit] and [free_merges] say which block is used and
    what becomes of the neighbours. *)

From S2P Require Import Prelude UMalloc UMallocSpec UMallocOps UMallocFree.

(** ** Lists of blocks *)

(** The first block is in use, if there is one. *)
Definition head_used (bs : list block) : Prop := match bs with (_, u) :: _ => u = true | [] => True end.

Lemma merged_cons q u bs : merged ((q, u) :: bs) ↔ (u = false → head_used bs) ∧ merged bs.
Proof. destruct bs as [|[q' u'] bs]; simpl; tauto. Qed.

Lemma live_below a bs x : sizes_ok bs → x < a + 8 → live a bs !! x = None.
Proof.
  intros Hs Hx. destruct (live a bs !! x) as [n|] eqn:Hl; [|done]. apply live_range in Hl; [lia|done].
Qed.

(** Blocks in use do not overlap, headers included. *)
Lemma arrays_apart a bs x n y m : sizes_ok bs → live a bs !! x = Some n → live a bs !! y = Some m → x ≠ y →
  x + n + 8 ≤ y ∨ y + m + 8 ≤ x.
Proof.
  intros Hs. revert a. induction Hs as [|[q u] bs Hq Hs IH]; intros a; simpl; [done|]. simpl in Hq.
  destruct u; [|apply IH]. rewrite !lookup_insert_Some.
  intros [[<- <-]|[_ Hx]] [[<- <-]|[_ Hy]] Hne; [done| | |by eapply IH].
  - left. apply live_range in Hy; [lia|done].
  - right. apply live_range in Hx; [lia|done].
Qed.

Lemma fit_head need a bs x bs' : fit need a bs = Some (x, bs') → head_used bs → head_used bs'.
Proof.
  destruct bs as [|[q u] bs]; simpl; [done|]. intros Hf Hu. simpl in Hu. subst u. simpl in Hf.
  apply fmap_Some in Hf as ([x' l] & _ & Hf). by simplify_eq/=.
Qed.
Lemma fit_merged need a bs x bs' : fit need a bs = Some (x, bs') → merged bs → merged bs'.
Proof.
  revert a x bs'. induction bs as [|[q u] bs IH]; intros a x bs'; cbn [fit]; [done|].
  destruct (negb u && (need <=? q)) eqn:Hn.
  - apply andb_true_iff in Hn as [Hu _]. destruct u; [done|]. intros [= <- <-] Hm. apply merged_cons in Hm as [Hh Hm].
    destruct (need + 2 <=? q); rewrite !merged_cons; split_and!; try done; auto.
  - intros ([x' l] & Hf & [= -> ->])%fmap_Some Hm. apply merged_cons in Hm as [Hh Hm]. unfold id.
    apply merged_cons. split; [|by eapply IH]. intros Hu. eapply fit_head; eauto.
Qed.

(** The block found is new, large enough, and the others stay. *)
Lemma fit_live need a bs x bs' : 1 ≤ need → sizes_ok bs → fit need a bs = Some (x, bs') →
  ∃ m, live a bs !! x = None ∧ live a bs' = <[x := m]> (live a bs) ∧ 8 * need - 8 ≤ m ∧ units bs' = units bs ∧ sizes_ok bs'.
Proof.
  intros Hn Hs. revert a x bs'. induction Hs as [|[q u] bs Hq Hs IH]; intros a x bs'; simpl; [done|]. simpl in Hq.
  destruct (negb u && (need <=? q)) eqn:He.
  - apply andb_true_iff in He as [Hu Hle%Z.leb_le]. destruct u; [done|]. intros [= <- <-].
    pose proof (live_below (a + 8 * q) bs (a + 8) Hs ltac:(lia)) as Hb.
    destruct (Z.leb_spec (need + 2) q).
    + exists (8 * need - 8). simpl. replace (a + 8 * need + 8 * (q - need)) with (a + 8 * q) by lia.
      split_and!; [done|done|lia|lia|]. repeat (constructor; [simpl; lia|]). done.
    + exists (8 * q - 8). split_and!; [done|done|lia|done|by constructor].
  - intros ([x' l] & Hf & [= -> ->])%fmap_Some. unfold id. destruct (IH _ _ _ Hf) as (m & H1 & H2 & H3 & H4 & H5).
    exists m. simpl. rewrite H2, H4. split_and!; [| |done|done|by constructor].
    + destruct u; [|done]. rewrite lookup_insert_ne; [done|]. intros <-.
      assert (live (a + 8 * q) l !! (a + 8) = Some m) as Hl by (by rewrite H2, lookup_insert_eq).
      apply live_range in Hl; [lia|done].
    + destruct u; [|done]. apply insert_insert_ne. intros <-.
      assert (live (a + 8 * q) l !! (a + 8) = Some m) as Hl by (by rewrite H2, lookup_insert_eq).
      apply live_range in Hl; [lia|done].
Qed.

(** A block in use is somewhere in the list. *)
Lemma live_find a bs x n : sizes_ok bs → live a bs !! x = Some n →
  ∃ bs1 q bs2, bs = bs1 ++ (q, true) :: bs2 ∧ x = a + 8 * units bs1 + 8 ∧ n = 8 * q - 8.
Proof.
  intros Hs. revert a. induction Hs as [|[q u] bs Hq Hs IH]; intros a; simpl; [done|].
  assert (live (a + 8 * q) bs !! x = Some n → ∃ bs1 q' bs2, (q, u) :: bs = bs1 ++ (q', true) :: bs2 ∧
    x = a + 8 * units bs1 + 8 ∧ n = 8 * q' - 8) as Hr.
  { intros (bs1 & q' & bs2 & -> & -> & ->)%IH. exists ((q, u) :: bs1), q', bs2. simpl. split_and!; [done|lia|done]. }
  destruct u; [|done]. rewrite lookup_insert_Some. intros [[<- <-]|[_ Hl]]; [|by apply Hr].
  exists [], q, bs. split_and!; [done|simpl; lia|done].
Qed.
Lemma rejoin_live a bs l : live a (rejoin bs l) = live a (bs ++ l).
Proof.
  destruct bs as [|b bs _] using rev_ind; [done|]. rewrite rejoin_snoc, <- app_assoc, (live_app _ bs), (live_app _ bs).
  by rewrite live_join.
Qed.
Lemma release_live a bs1 q bs2 : sizes_ok (bs1 ++ (q, true) :: bs2) →
  live a (rejoin bs1 (join (q, false) bs2)) = delete (a + 8 * units bs1 + 8) (live a (bs1 ++ (q, true) :: bs2)).
Proof.
  intros Hs. apply Forall_app in Hs as [Hs1 Hs2]. apply Forall_cons in Hs2 as [Hq Hs2]. simpl in Hq.
  rewrite rejoin_live, !live_app, live_join. simpl. rewrite delete_union, delete_insert_eq.
  rewrite (delete_id (live (_ + 8 * q) bs2)) by (apply live_below; [done|lia]). f_equal. symmetry. apply delete_id.
  destruct (live a bs1 !! _) as [n|] eqn:Hl; [|done]. apply live_range in Hl; [lia|done].
Qed.

Lemma join_used q u l : (u = false → head_used l) → join (q, u) l = (q, u) :: l.
Proof. destruct u; [done|]. destruct l as [|[q' []] l]; simpl; try done. intros H. by specialize (H eq_refl). Qed.
Lemma rejoin_head bs l : bs ≠ [] → head_used (bs ++ l) → head_used (rejoin bs l).
Proof.
  destruct bs as [|[q u] [|b bs]]; simpl; [done| |done]. intros _ ->. done.
Qed.
Lemma join_merged q u l : merged l → (∀ q' l', l = (q', false) :: l' → head_used l') → merged (join (q, u) l).
Proof.
  intros Hm Hh. destruct u; [by apply (merged_cons q true l)|]. destruct l as [|[q' []] l]; [done|by apply (merged_cons q false)|].
  change (merged ((q + q', false) :: l)). apply merged_cons. apply merged_cons in Hm as [_ Hm]. split; [|done]. intros _. by eapply Hh.
Qed.
Lemma merged_head q l : merged ((q, false) :: l) → head_used l.
Proof. intros [H _]%merged_cons. by apply H. Qed.

(** What [free] leaves is merged again. *)
Lemma release_merged bs1 q bs2 : merged (bs1 ++ (q, true) :: bs2) → merged (rejoin bs1 (join (q, false) bs2)).
Proof.
  induction bs1 as [|[q1 u1] bs1 IH]; simpl app; rewrite merged_cons; intros [Hh Hm].
  - apply join_merged; [done|]. intros q' l' ->. by eapply merged_head.
  - destruct bs1 as [|b bs1].
    + simpl. specialize (IH Hm). simpl in IH. apply join_merged; [done|]. intros q' l' Hl. rewrite Hl in IH. by eapply merged_head.
    + change (merged ((q1, u1) :: rejoin (b :: bs1) (join (q, false) bs2))). apply merged_cons. split; [|by apply IH].
      intros Hu. apply rejoin_head; [done|]. by apply Hh.
Qed.
(** ... and is [release]. *)
Lemma release_rejoin a bs1 q bs2 : sizes_ok (bs1 ++ (q, true) :: bs2) → merged (bs1 ++ (q, true) :: bs2) →
  release (a + 8 * units bs1 + 8) a (bs1 ++ (q, true) :: bs2) = rejoin bs1 (join (q, false) bs2).
Proof.
  revert a. induction bs1 as [|[q1 u1] bs1 IH]; intros a Hs Hm; cbn [app release].
  - simpl units. rewrite (proj2 (Z.eqb_eq _ _)); [done|lia].
  - apply Forall_cons in Hs as [Hq Hs]. simpl in Hq. apply merged_cons in Hm as [Hh Hm].
    assert (0 ≤ units bs1). { apply Forall_app in Hs as [Hs _]. by apply units_sizes. }
    destruct (Z.eqb_spec (a + 8) (a + 8 * units ((q1, u1) :: bs1) + 8)) as [He|_]; [simpl in He; unfold units in *; lia|].
    replace (a + 8 * units ((q1, u1) :: bs1) + 8) with (a + 8 * q1 + 8 * units bs1 + 8) by (simpl; unfold units; lia).
    rewrite IH by done. destruct bs1 as [|b bs1]; [done|].
    change (rejoin ((q1, u1) :: b :: bs1) (join (q, false) bs2)) with ((q1, u1) :: rejoin (b :: bs1) (join (q, false) bs2)).
    apply join_used. intros Hu. apply rejoin_head; [done|]. by apply Hh.
Qed.

Lemma rejoin_nil bs b l : rejoin bs (join b l) ≠ [].
Proof.
  destruct bs as [|b' bs _] using rev_ind; [by destruct b as [? []], l as [|[? []] ?]|]. rewrite rejoin_snoc.
  destruct (join b l) as [|[? []] ?], b' as [? []], bs; done.
Qed.
Lemma join_sizes b l : sizes_ok (b :: l) → sizes_ok (join b l).
Proof.
  destruct b as [q []], l as [|[q' []] l]; try done. intros [H1 H2]%Forall_cons. apply Forall_cons in H2 as [H2 H3].
  constructor; [simpl in *; lia|done].
Qed.
Lemma rejoin_sizes bs q l : sizes_ok (bs ++ (q, true) :: l) → sizes_ok (rejoin bs (join (q, false) l)).
Proof.
  intros [H1 H2]%Forall_app. assert (sizes_ok (join (q, false) l)) as H3.
  { apply join_sizes. apply Forall_cons in H2 as [??]. by constructor. }
  destruct bs as [|b' bs _] using rev_ind; [done|]. rewrite rejoin_snoc. apply Forall_app in H1 as [H1 Hb].
  apply Forall_app. split; [done|]. apply join_sizes. constructor; [by apply Forall_inv in Hb|done].
Qed.

Lemma merged_snoc bs q : merged bs → merged (bs ++ [(q, true)]).
Proof.
  induction bs as [|[q1 u1] bs IH]; [done|]. simpl app. rewrite !merged_cons. intros [Hh Hm]. split; [|by apply IH].
  intros Hu. specialize (Hh Hu). destruct bs as [|[] bs]; [done|exact Hh].
Qed.

(** Nothing in use: one free block at most. *)
Lemma merged_unused a bs : merged bs → live a bs = ∅ → sizes_ok bs → bs = [] ∨ ∃ q, bs = [(q, false)].
Proof.
  intros Hm Hl Hs. destruct bs as [|[q []] bs]; [by left| |].
  - simpl in Hl. by apply insert_non_empty in Hl.
  - right. exists q. destruct bs as [|[q' u'] bs]; [done|]. apply merged_head in Hm. simpl in Hm. subst u'.
    simpl in Hl. by apply insert_non_empty in Hl.
Qed.

(** ** Programs *)

Inductive uop :=
| U_malloc (n : Z)
| U_free (p : Z)
| U_load (a : Z)
| U_store (a x : Z).
(** A program goes on with the answer to each call. *)
Inductive uprog :=
| U_done
| U_do (op : uop) (k : Z → uprog).

(** Separate arrays: sizes by address, and the words in them. *)
Record arrays := mkar { ar_live : gmap Z Z; ar_word : Z → Z }.
Definition inside (x : arrays) (a : Z) : Prop := ∃ p n, ar_live x !! p = Some n ∧ p ≤ a ∧ a + 4 ≤ p + n ∧ a mod 4 = 0.
Definition agree (m : gmap Z Z) (W W' : Z → Z) : Prop :=
  ∀ p n b, m !! p = Some n → p ≤ b < p + n → b mod 4 = 0 → W' b = W b.

(** What a program may do: ask for less than 2 GB, free what it has that is not
    empty, and use its arrays. *)
Definition uallowed (x : arrays) (op : uop) : Prop :=
  match op with
  | U_malloc n => 0 ≤ n < 2147483632
  | U_free p => p = 0 ∨ ∃ n, ar_live x !! p = Some n ∧ 0 < n
  | U_load a => inside x a
  | U_store a w => inside x a ∧ 0 ≤ w < 4294967296
  end.
Inductive ar_step (x : arrays) : uop → Z → arrays → Prop :=
| ar_malloc n p m W :
    0 < p → p mod 8 = 0 → n ≤ m → ar_live x !! p = None →
    (∀ y k, ar_live x !! y = Some k → y + k + 8 ≤ p ∨ p + m + 8 ≤ y) →
    agree (ar_live x) (ar_word x) W →
    ar_step x (U_malloc n) p (mkar (<[p := m]> (ar_live x)) W)
| ar_malloc_fails n : ar_step x (U_malloc n) 0 x
| ar_free p W :
    agree (delete p (ar_live x)) (ar_word x) W → ar_step x (U_free p) 0 (mkar (delete p (ar_live x)) W)
| ar_load a : ar_step x (U_load a) (ar_word x a) x
| ar_store a w : ar_step x (U_store a w) 0 (mkar (ar_live x) (upd (ar_word x) a w)).

(** Programs that only do what they may, whatever the answers; and their runs. *)
Inductive usafe : arrays → uprog → Prop :=
| us_done x : usafe x U_done
| us_do x op k : uallowed x op → (∀ r x', ar_step x op r x' → usafe x' (k r)) → usafe x (U_do op k).
Inductive ar_runs : arrays → uprog → arrays → Prop :=
| arr_done x : ar_runs x U_done x
| arr_do x op k r x' x'' : ar_step x op r x' → ar_runs x' (k r) x'' → ar_runs x (U_do op k) x''.

Section thm.
Context {K : Type} `{!Proc K, !ProcOk K}.
Notation S := (uheap K).
Implicit Types (s : S) (v : view).

Definition do_uop (op : uop) : M S Z :=
  match op with
  | U_malloc n => malloc n
  | U_free p => free p ;;; ret 0
  | U_load a => load a
  | U_store a x => store a x ;;; ret 0
  end.
Fixpoint urun (c : uprog) : M S unit :=
  match c with
  | U_done => ret tt
  | U_do op k => let! r := do_uop op in urun (k r)
  end.

(** The heap holds the arrays, and free blocks are merged. *)
Definition holds s (x : arrays) : Prop :=
  ∃ v bs, shows s v ∧ usable v bs ∧ merged bs ∧ live (vw_base v) bs = ar_live x ∧ agree (ar_live x) (ar_word x) (vw_word v).

Lemma usable_sizes v bs : usable v bs → sizes_ok bs.
Proof. intros [Hv|[_ ->]]; [|constructor]. eapply blocks_sizes, Hv. Qed.
Lemma kept_agree v v' bs W : kept v v' bs → agree (live (vw_base v) bs) W (vw_word v) → agree (live (vw_base v) bs) W (vw_word v').
Proof. intros Hk Ha p n b Hp Hb Hm. rewrite (Hk p n b) by done. by eapply Ha. Qed.

(** The block [malloc] answers with. *)
Lemma malloc_result_live v bs size p bs' :
  heap_is v bs → merged bs → sizes_ok bs' → 0 ≤ size → malloc_result (need_of size) v bs p bs' →
  merged bs' ∧ (p = 0 ∧ bs' = bs ∨
    ∃ m, size ≤ m ∧ live (vw_base v) bs !! p = None ∧ live (vw_base v) bs' = <[p := m]> (live (vw_base v) bs)).
Proof.
  intros Hv Hm Hs' Hsz Hr. assert (1 ≤ need_of size ∧ size ≤ 8 * need_of size - 8) as [Hn Hle].
  { unfold need_of. Z.div_mod_to_equations. lia. }
  pose proof (blocks_sizes _ _ _ _ _ (hp_blocks _ _ Hv)) as Hs. unfold malloc_result in Hr.
  destruct (fit (need_of size) (vw_base v) bs) as [[x bs1]|] eqn:Hf.
  - destruct Hr as [-> ->]. split; [by eapply fit_merged|]. right.
    destruct (fit_live _ _ _ _ _ Hn Hs Hf) as (m & ? & ? & ? & _). exists m. split; [lia|done].
  - destruct Hr as [[-> ->]|[-> ->]]; [by split; [|left]|]. pose proof (blocks_end _ _ _ _ _ (hp_blocks _ _ Hv)) as He.
    assert (live (vw_base v) bs !! (vw_top v + 8) = None) as Hnone.
    { destruct (live (vw_base v) bs !! _) eqn:Hl; [|done]. apply live_range in Hl; [lia|done]. }
    split; [by apply merged_snoc|]. right. exists (8 * need_of size - 8). split; [done|]. split; [done|].
    rewrite live_app. simpl. rewrite <- He, insert_empty, insert_union_singleton_r; [done|exact Hnone].
Qed.
Lemma usable_ready s v bs : shows s v → usable v bs → heap_is (ready v) bs.
Proof.
  intros Hs [Hv|[(Hb & Ht & Hm) ->]].
  - unfold ready. destruct (Z.eqb_spec (vw_base v) 0); [|done]. destruct Hv as [? _ _ _ _]. lia.
  - unfold ready. rewrite Hb. simpl. destruct Hs as (Hi & _ & _ & Hlo & Hbrk & _).
    destruct (pbrk_range _ Hi) as (? & ? & _). split; simpl; try done; lia.
Qed.
Lemma live_ready v bs : usable v bs → live (vw_base (ready v)) bs = live (vw_base v) bs.
Proof.
  intros [Hv|[_ ->]]; [|done]. unfold ready. destruct (Z.eqb_spec (vw_base v) 0); [|done]. destruct Hv as [? _ _ _ _]. lia.
Qed.

Lemma ready_word v : vw_word (ready v) = vw_word v.
Proof. unfold ready. by case_match. Qed.

(** One step of a program. *)
Definition stays s x (op : uop) : Prop :=
  wp (do_uop op) (λ r s', ∃ x', ar_step x op r x' ∧ holds s' x') killed s.

Lemma malloc_stays s x n : holds s x → uallowed x (U_malloc n) → stays s x (U_malloc n).
Proof.
  intros (v & bs & Hs & Hu & Hm & Hl & Ha) Hn. unfold stays, do_uop. simpl in Hn.
  eapply wp_mono; [by apply (malloc_spec s v bs n)| |done].
  intros p s' (v' & bs' & Hs' & Hv' & Hk & Hb & Hr). pose proof (usable_ready s v bs Hs Hu) as Hv.
  pose proof (blocks_sizes _ _ _ _ _ (hp_blocks _ _ Hv')) as Hsz'.
  rewrite <- (live_ready v bs Hu) in Hl.
  assert (agree (ar_live x) (ar_word x) (vw_word v')) as Ha'.
  { rewrite <- Hl in *. apply (kept_agree (ready v)); [done|]. by rewrite ready_word. }
  destruct (malloc_result_live (ready v) bs n p bs' Hv Hm Hsz' ltac:(lia) Hr) as [Hm' [[-> ->]|(m & Hnm & Hnone & Hl')]].
  - exists x. split; [constructor|]. exists v', bs. rewrite Hb. split; [done|]. split; [by left|]. done.
  - rewrite <- Hb in *. destruct (live_range (vw_base v') bs' p m Hsz') as (? & ? & ? & Hmod & _); [by rewrite Hl', lookup_insert_eq|].
    pose proof (hp_lo _ _ Hv'). pose proof (hp_align _ _ Hv').
    exists (mkar (<[p := m]> (ar_live x)) (vw_word v')). split.
    + rewrite Hl in *. constructor; try done; [lia|Z.div_mod_to_equations; lia|].
      intros y k Hy. assert (y ≠ p) as Hne by (intros ->; congruence).
      destruct (arrays_apart (vw_base v') bs' y k p m Hsz') as [|]; try done; [by rewrite Hl', lookup_insert_ne|by rewrite Hl', lookup_insert_eq|lia..].
    + exists v', bs'. split; [done|]. split; [by left|]. split; [done|]. split; [simpl; congruence|]. done.
Qed.
Lemma free_stays s x p : holds s x → uallowed x (U_free p) → stays s x (U_free p).
Proof.
  intros (v & bs & Hs & Hu & Hm & Hl & Ha) Hp. unfold stays, do_uop. wp_bind. destruct Hp as [->|(n & Hp & Hn)].
  { apply wp_ret. apply wp_ret. exists (mkar (delete 0 (ar_live x)) (ar_word x)).
    assert (ar_live x !! 0 = None) as H0.
    { rewrite <- Hl. apply live_below; [by eapply usable_sizes|]. destruct Hu as [[? _ _ _ _]|[[-> _] _]]; lia. }
    split; [constructor; done|]. rewrite delete_id by done. destruct x. by exists v, bs. }
  destruct Hu as [Hv|[_ ->]]; [|by rewrite <- Hl in Hp].
  pose proof (blocks_sizes _ _ _ _ _ (hp_blocks _ _ Hv)) as Hsz. rewrite <- Hl in Hp.
  destruct (live_range _ _ _ _ Hsz Hp) as (_ & _ & Hle & _). rewrite <- (blocks_end _ _ _ _ _ (hp_blocks _ _ Hv)) in Hle.
  destruct (live_find _ _ _ _ Hsz Hp) as (bs1 & q & bs2 & -> & -> & ->).
  eapply wp_mono; [apply (free_spec s v bs1 q bs2 Hs Hv); lia| |done]. intros [] s' (W' & Hs' & Hv' & Hk). apply wp_ret.
  set (mh := vw_base v + 8 * units bs1 + 8) in *. pose proof (release_live (vw_base v) bs1 q bs2 Hsz) as Hd. fold mh in Hd.
  assert (live (vw_base v) (bs1 ++ (q, false) :: bs2) = delete mh (ar_live x)) as Hd'.
  { rewrite <- Hl, <- Hd, rejoin_live, !live_app, live_join. done. }
  exists (mkar (delete mh (ar_live x)) W'). split.
  - constructor. rewrite <- Hd'. apply (kept_agree v (with_word W' v)); [done|]. rewrite Hd'.
    intros y k b Hy. apply Ha. by apply lookup_delete_Some in Hy as [_ Hy].
  - exists (with_word W' v), (rejoin bs1 (join (q, false) bs2)). split; [done|]. split; [by left|].
    split; [by apply release_merged|]. split; [cbn [ar_live vw_base with_word]; by rewrite Hd, Hl|]. done.
Qed.

Lemma holds_inside s x a : holds s x → inside x a →
  ∃ v, shows s v ∧ vw_lo v ≤ a ∧ a + 4 ≤ vw_brk v ∧ a mod 4 = 0 ∧ vw_word v a = ar_word x a ∧
    (∀ s', shows s' v → holds s' x) ∧
    ∀ s' w, shows s' (with_word (upd (vw_word v) a w) v) → holds s' (mkar (ar_live x) (upd (ar_word x) a w)).
Proof.
  intros (v & bs & Hs & Hu & Hm & Hl & Ha) (p & n & Hp & Hpa & Han & Hal).
  destruct Hu as [Hv|[_ ->]]; [|by rewrite <- Hl in Hp]. pose proof (blocks_sizes _ _ _ _ _ (hp_blocks _ _ Hv)) as Hsz.
  assert (Hr := Hp). rewrite <- Hl in Hr. apply live_range in Hr as (Hr1 & _ & Hr2 & _); [|done].
  rewrite <- (blocks_end _ _ _ _ _ (hp_blocks _ _ Hv)) in Hr2. pose proof Hv as [Hlo Hal8 Hbrk Htop Hb].
  exists v. split; [done|]. split; [lia|]. split; [lia|]. split; [done|]. split; [eapply Ha; [done|lia|done]|].
  split; [intros s' Hs'; exists v, bs; split; [done|split; [by left|done]]|]. intros s' w Hs'. exists (with_word (upd (vw_word v) a w) v), bs. split; [done|].
  assert (kept_blocks : blocks (upd (vw_word v) a w) (vw_base v) 0 bs (vw_top v)).
  { rewrite <- Hl in Hp. destruct (live_find _ _ _ _ Hsz Hp) as (bs1 & q & bs2 & -> & -> & ->).
    apply blocks_app in Hb as [Hb1 (H1 & H2 & Hq & Hb2)]. apply blocks_app. split; [|simpl; split_and!].
    - eapply blocks_ext; [done|]. intros b Hb'. unfold upd. rewrite decide_False by lia. done.
    - unfold upd. rewrite decide_False by lia. done.
    - unfold upd. rewrite decide_False by lia. done.
    - done.
    - eapply blocks_ext; [done|]. intros b Hb'. unfold upd. rewrite decide_False by lia. done. }
  split; [left; by split|]. split; [done|]. split; [done|].
  intros y k b Hy Hb' Hbm. simpl. unfold upd. case_decide; [done|]. by eapply Ha.
Qed.
Lemma step_stays s x op : holds s x → uallowed x op → stays s x op.
Proof.
  destruct op as [n|p|a|a w]; intros Hh Hal; [by apply malloc_stays|by apply free_stays| |].
  - destruct (holds_inside s x a Hh Hal) as (v & Hs & Hlo & Hbrk & Hm & Hw & Hr & _). unfold stays, do_uop.
    eapply wp_load; [done..|]. intros s' Hs'. rewrite Hw. exists x. split; [constructor|by apply Hr].
  - destruct Hal as [Hin Hw0]. destruct (holds_inside s x a Hh Hin) as (v & Hs & Hlo & Hbrk & Hm & _ & _ & Hr).
    unfold stays, do_uop. wp_bind. eapply wp_store; [done..|]. intros s' Hs'. apply wp_ret. eexists. split; [constructor|by apply Hr].
Qed.

Lemma run_stays s x c : usafe x c → holds s x →
  wp (urun c) (λ _ s', ∃ x', ar_runs x c x' ∧ holds s' x') killed s.
Proof.
  intros Hc. revert s. induction Hc as [x|x op k Hal Hk IH]; intros s Hh; simpl.
  - apply wp_ret. exists x. split; [constructor|done].
  - wp_bind. eapply wp_mono; [by apply step_stays| |done]. intros r s' (x' & Hst & Hh').
    eapply wp_mono; [by apply (IH r x' Hst s')| |done]. intros [] s'' (x'' & Hr & Hh''). exists x''. split; [by econstructor|done].
Qed.

(** ** The claims *)

(** C10 A program that asks for less than 2 GB at a time, frees only what it
    was given (once, and not empty) and accesses only its own blocks runs on
    the allocator as it would on separate arrays: [malloc] and [free] never
    report corruption and never loop, blocks are aligned, large enough and
    disjoint, and keep their contents until they are freed.  The kernel may
    still end it on an access. *)
Theorem malloc_refines s v c :
  shows s v → uninit v → usafe (mkar ∅ (vw_word v)) c →
  wp (urun c) (λ _ s', ∃ x', ar_runs (mkar ∅ (vw_word v)) c x' ∧ holds s' x') killed s.
Proof.
  intros Hs Hu Hc. apply run_stays; [done|]. exists v, []. split; [done|]. split; [by right|]. by split.
Qed.

(** [malloc] is first-fit on the list of blocks: it takes the first free
    block that is large enough, cut when two units or more are left, and only
    when there is none asks for more memory at the top; the other blocks stay
    as they are. *)
Theorem malloc_first_fit s v bs size :
  shows s v → heap_is v bs → 0 ≤ size < 2147483632 →
  wp (malloc size)
     (λ p s', ∃ v' bs', shows s' v' ∧ heap_is v' bs' ∧ vw_base v' = vw_base v ∧ kept v v' bs ∧
        match fit (need_of size) (vw_base v) bs with
        | Some (x, bs1) => p = x ∧ bs' = bs1
        | None => p = 0 ∧ bs' = bs ∨ p = vw_top v + 8 ∧ bs' = bs ++ [(need_of size, true)]
        end)
     killed s.
Proof.
  intros Hs Hv Hsz. eapply wp_mono; [by apply (malloc_spec s v bs size); [|left|]| |done].
  assert (ready v = v) as -> by (unfold ready; destruct (Z.eqb_spec (vw_base v) 0); [destruct Hv as [? _ _ _ _]; lia|done]).
  intros p s' (v' & bs' & ? & ? & ? & ? & ?). by exists v', bs'.
Qed.

(** [free] makes the block free and merges it with free neighbours on both
    sides: no two free blocks are ever next to each other, the blocks in use
    are the others, with their contents, and when none is left the heap is one
    free block. *)
Theorem free_merges s v bs p n :
  shows s v → heap_is v bs → merged bs → live (vw_base v) bs !! p = Some n → 0 < n →
  let bs' := release p (vw_base v) bs in
  merged bs' ∧ live (vw_base v) bs' = delete p (live (vw_base v) bs) ∧
  (live (vw_base v) bs' = ∅ → ∃ q, bs' = [(q, false)]) ∧
  wp (free p) (λ _ s', ∃ W', shows s' (with_word W' v) ∧ heap_is (with_word W' v) bs' ∧ kept v (with_word W' v) bs') killed s.
Proof.
  intros Hs Hv Hm Hp Hn bs'. pose proof (blocks_sizes _ _ _ _ _ (hp_blocks _ _ Hv)) as Hsz.
  destruct (live_range _ _ _ _ Hsz Hp) as (_ & _ & Hle & _). rewrite <- (blocks_end _ _ _ _ _ (hp_blocks _ _ Hv)) in Hle.
  destruct (live_find _ _ _ _ Hsz Hp) as (bs1 & q & bs2 & -> & -> & ->). unfold bs'. rewrite release_rejoin by done.
  pose proof (release_merged _ _ _ Hm) as Hm'. pose proof (release_live (vw_base v) bs1 q bs2 Hsz) as Hl.
  split; [done|]. split; [done|].
  assert (Hw : wp (free (vw_base v + 8 * units bs1 + 8)) (λ _ s', ∃ W', shows s' (with_word W' v) ∧
    heap_is (with_word W' v) (rejoin bs1 (join (q, false) bs2)) ∧ kept v (with_word W' v) (rejoin bs1 (join (q, false) bs2))) killed s).
  { eapply wp_mono; [apply (free_spec s v bs1 q bs2 Hs Hv); lia| |done]. intros [] s' (W' & Hs' & Hv' & Hk).
    exists W'. split; [done|]. split; [done|]. unfold kept in *. rewrite rejoin_live, live_app, live_join, <- live_app. exact Hk. }
  split; [|done]. intros He. destruct (merged_unused (vw_base v) (rejoin bs1 (join (q, false) bs2))) as [Hnil|]; [done|done| |by apply rejoin_nil in Hnil|done].
  by apply rejoin_sizes.
Qed.

(** A block of no bytes at the top of the heap cannot be freed: [malloc 0]
    may answer with the address of the heap's end, which [free] takes for a
    pointer that is not on the heap. *)
Theorem free_empty_top s v bs p s' :
  shows s v → heap_is v bs → fit 1 (vw_base v) bs = None → malloc 0 s = Ok p s' → p ≠ 0 →
  p = heaptop s' ∧ free p s' = Panic.
Proof.
  intros Hs Hv Hf Hr Hp. pose proof (malloc_spec s v bs 0 Hs (or_introl Hv) ltac:(lia)) as Hw.
  unfold wp in Hw. rewrite Hr in Hw. destruct Hw as (v' & bs' & Hs' & Hv' & _ & Hb & Hres).
  assert (ready v = v) as Hrd by (unfold ready; destruct (Z.eqb_spec (vw_base v) 0); [destruct Hv as [? _ _ _ _]; lia|done]).
  rewrite Hrd in *. unfold malloc_result in Hres. change (need_of 0) with 1 in Hres. rewrite Hf in Hres.
  destruct Hres as [[? _]|[-> ->]]; [done|]. pose proof (blocks_end _ _ _ _ _ (hp_blocks _ _ Hv)) as He.
  pose proof (blocks_end _ _ _ _ _ (hp_blocks _ _ Hv')) as He'. rewrite units_app in He'. simpl in He'.
  destruct Hs' as (_ & Hsb & Hst & _). assert (heaptop s' = vw_top v + 8) as Htop by lia. split; [done|].
  unfold free. destruct (Z.eqb_spec (vw_top v + 8) 0); [done|]. unfold bind, get, kassert. rewrite Htop.
  destruct (negb _); [|done]. rewrite (proj2 (Z.leb_le _ _) (Z.le_refl _)), orb_true_r. done.
Qed.

(** Sizes in the last seven bytes below 4 GB wrap around when they are
    rounded up: such a request is answered like a request for nothing. *)
Theorem malloc_size_wraps size s : 4294967289 ≤ size < 4294967296 → malloc size s = malloc 0 s.
Proof.
  intros Hsz. unfold malloc, malloc_ready, MBLOCKSIZE.
  assert (Z.land (u32 (u32 (size + 8) - 1)) 4294967288 = 0) as ->; [|done].
  assert (u32 (size + 8) = size + 8 - 4294967296) as ->.
  { unfold u32. symmetry. apply (Z.mod_unique _ _ 1); lia. }
  rewrite u32_small by lia. replace (size + 8 - 4294967296 - 1) with (8 * 0 + (size + 8 - 4294967296 - 1)) by lia.
  replace 4294967288 with (4294967288 + 0) by done. rewrite land_high by lia. by rewrite Z.land_0_r.
Qed.
End thm.

(** ** A small process, and the claims on it *)

Module SmallProc.
Record mem := mkmem { brk : Z; words : gmap Z Z }.
Definition lo : Z := 4096.
Definition small_sbrk (n : Z) : M mem Z :=
  let! m := get in
  if (n <? 0) || (8192 <? brk m + n) then ret 4294967295
  else put (mkmem (brk m + n) (words m)) ;;; ret (brk m).
Definition word (m : mem) (a : Z) : Z := u32 (default 0 (words m !! a)).
#[global] Instance small_proc : Proc mem := {
  sbrk := small_sbrk;
  ld a := gets (λ m, word m a);
  st a x := modify (λ m, mkmem (brk m) (<[a := x]> (words m)));
}.
#[global] Program Instance small_proc_ok : ProcOk mem := {
  prinv m := 4096 ≤ brk m ≤ 8192;
  plo m := 4096;
  pbrk := brk;
  pword := word;
  pkilled e m := False;
}.
Next Obligation. intros m Hm. simpl in *. split_and!; try lia. done. Qed.
Next Obligation. intros m a Hm. unfold word. apply Z.mod_pos_bound. lia. Qed.
Next Obligation.
  intros m n Hm Hn. simpl in *. unfold small_sbrk. wp_bind. apply wp_get. destruct (Z.ltb_spec n 0); [lia|]. simpl.
  destruct (Z.ltb_spec 8192 (brk m + n)); [apply wp_ret|wp_bind; apply wp_modify; apply wp_ret; simpl].
  - split; [done|]. split; [done|]. split; [done|]. left. lia.
  - split; [lia|]. split; [done|]. split; [done|]. by right.
Qed.
Next Obligation. intros m a Hm Ha Hl Hh. simpl in *. apply wp_gets. done. Qed.
Next Obligation.
  intros m a x Hm Ha Hl Hh Hx. simpl in *. apply wp_modify. simpl. split; [done|]. split; [done|]. split; [done|]. intros b Hb.
  unfold word. simpl. case_decide as Hd; [subst; rewrite lookup_insert_eq; by apply u32_small|by rewrite lookup_insert_ne].
Qed.

Definition start : uheap mem := mkuh 0 0 (mkmem 4096 ∅).
Definition view_of (s : uheap mem) : view := mkview (heapbase s) (heaptop s) lo (brk (u_proc s)) (word (u_proc s)).
Lemma shows_view s : 4096 ≤ brk (u_proc s) ≤ 8192 → shows s (view_of s).
Proof. intros Hb. split; [done|]. by split_and!. Qed.

(** Two blocks, the first one freed in the end. *)
Definition program : uprog :=
  U_do (U_malloc 10) (λ p, if p =? 0 then U_done else
  U_do (U_store p 7) (λ _,
  U_do (U_malloc 20) (λ q,
  U_do (U_load p) (λ w,
  U_do (U_free p) (λ _, U_done))))).
Lemma program_safe W : usafe (mkar ∅ W) program.
Proof.
  constructor; [simpl; lia|]. intros p x Hst. inversion Hst; subst; simpl; [|constructor]. destruct (Z.eqb_spec p 0); [lia|].
  assert (Hin : ∀ y, ar_live y !! p = Some m → inside y p).
  { intros y Hy. exists p, m. split_and!; [done|lia|lia|]. Z.div_mod_to_equations. lia. }
  constructor; [split; [apply Hin; simpl; by rewrite lookup_insert_eq|lia]|]. intros r x Hst2. inversion Hst2; subst. simpl.
  constructor; [simpl; lia|]. intros q x Hst3. inversion Hst3; subst.
  - simpl in *. rename select (<[p:=m]> ∅ !! q = None) into Hq. apply lookup_insert_None in Hq as [_ Hq].
    constructor; [apply Hin; simpl; by rewrite lookup_insert_ne, lookup_insert_eq|]. intros r x Hst4. inversion Hst4; subst.
    constructor; [right; exists m; simpl; rewrite lookup_insert_ne, lookup_insert_eq by done; split; [done|lia]|]. constructor.
  - constructor; [apply Hin; simpl; by rewrite lookup_insert_eq|]. intros r x Hst4. inversion Hst4; subst.
    constructor; [right; exists m; simpl; rewrite lookup_insert_eq; split; [done|lia]|]. constructor.
Qed.

Definition state {A} (o : outcome (uheap mem) A) : uheap mem := match o with Ok _ s => s | _ => start end.
Definition value (o : outcome (uheap mem) Z) : Z := match o with Ok r _ => r | _ => -1 end.
(** Three blocks, the middle one free. *)
Definition three : uheap mem :=
  state ((malloc 8 ;;; let! p := malloc 24 in malloc 8 ;;; free p) start).
Definition three_blocks : list block := [(2, true); (4, false); (2, true)].
Lemma three_heap : heap_is (view_of three) three_blocks.
Proof. by split; vm_compute. Qed.
Definition empty : uheap mem := state (malloc_init start).
Lemma empty_heap : heap_is (view_of empty) [].
Proof. by split; vm_compute. Qed.
End SmallProc.

Lemma malloc_refines_witness :
  (∃ x', ar_runs (mkar ∅ (vw_word (SmallProc.view_of SmallProc.start))) SmallProc.program x' ∧
     holds (SmallProc.state (urun SmallProc.program SmallProc.start)) x') ∧
  heaptop (SmallProc.state (urun SmallProc.program SmallProc.start)) = 4152.
Proof.
  split; [|vm_compute; reflexivity].
  assert (H : urun SmallProc.program SmallProc.start = Ok tt (SmallProc.state (urun SmallProc.program SmallProc.start)))
    by (vm_compute; reflexivity).
  pose proof (malloc_refines SmallProc.start (SmallProc.view_of SmallProc.start) SmallProc.program) as Hw.
  unfold wp in Hw. rewrite H in Hw. apply Hw; [apply SmallProc.shows_view; split; discriminate|by split_and!|apply SmallProc.program_safe].
Defined.
Lemma malloc_first_fit_witness :
  fit (need_of 8) 4096 SmallProc.three_blocks = Some (4120, [(2, true); (2, true); (2, false); (2, true)]) ∧
  wp (malloc 8) (λ p _, p = 4120) (λ _ _, False) SmallProc.three.
Proof.
  split; [vm_compute; reflexivity|].
  eapply wp_mono; [apply (malloc_first_fit SmallProc.three (SmallProc.view_of SmallProc.three) SmallProc.three_blocks 8)|..].
  - apply SmallProc.shows_view. vm_compute. split; discriminate.
  - exact SmallProc.three_heap.
  - lia.
  - intros p s' (v' & bs' & _ & _ & _ & _ & Hp). vm_compute in Hp. tauto.
  - intros e s' [].
Defined.
Lemma free_merges_witness :
  release 4104 4096 SmallProc.three_blocks = [(6, false); (2, true)] ∧
  wp (free 4104) (λ _ s', ∃ v', shows s' v' ∧ heap_is v' [(6, false); (2, true)]) (λ _ _, False) SmallProc.three.
Proof.
  split; [vm_compute; reflexivity|].
  destruct (free_merges SmallProc.three (SmallProc.view_of SmallProc.three) SmallProc.three_blocks 4104 8) as (_ & _ & _ & Hw).
  - apply SmallProc.shows_view. vm_compute. split; discriminate.
  - exact SmallProc.three_heap.
  - split; [done|split; [done|done]].
  - vm_compute. reflexivity.
  - lia.
  - eapply wp_mono; [exact Hw| |intros e s' []]. intros [] s' (W' & Hs & Hv & _). eexists. split; [exact Hs|exact Hv].
Defined.
Lemma free_empty_top_witness : free 4104 (SmallProc.state (malloc 0 SmallProc.empty)) = Panic.
Proof.
  refine (proj2 (free_empty_top SmallProc.empty (SmallProc.view_of SmallProc.empty) [] 4104 (SmallProc.state (malloc 0 SmallProc.empty)) _ _ _ _ _)).
  - apply SmallProc.shows_view. vm_compute. split; discriminate.
  - exact SmallProc.empty_heap.
  - reflexivity.
  - vm_compute. reflexivity.
  - lia.
Defined.
Lemma malloc_size_wraps_witness : SmallProc.value (malloc 4294967295 SmallProc.start) = 4104.
Proof. rewrite (malloc_size_wraps 4294967295 SmallProc.start); [vm_compute; reflexivity|lia]. Defined.
