(* ===== verification/UProc.v ===== *)
(** * User programs on virtual memory

    The memory and the [sbrk] the C library's allocator is proved against are
    those of a thread that runs in an address space: a word is four bytes, the
    most significant first, found through the TLB, and [sbrk] is the system
    call. *)

From S2P Require Import Prelude Kmem KPages Coremap KHeap KHeapSpec KHeapOps KHeapThm Vm VmPages VmSpec VmFault VmOps VmLife VmThm UMalloc UMallocSpec UMallocOps UMallocFree UMallocThm.

(** The kernel's memory, and the numbers [random] will give. *)
Record machine (V : Type) := mkmc { mc_vm : vm V; mc_rnd : nat → Z }.
Arguments mkmc {V} _ _.
Arguments mc_vm {V} _.
Arguments mc_rnd {V} _.

Definition word4 (f : Z → Z) (x : Z) : Z := ((f x * 256 + f (x + 1)) * 256 + f (x + 2)) * 256 + f (x + 3).
(** Byte [i] of a word. *)
Definition byte_of (w i : Z) : Z := w / 256 ^ (3 - i) mod 256.

Section proc.
Context {V : Type} `{!Vref V, !VrefOk V}.
Notation K := (machine V).
Implicit Types (s : vm V).

Definition kernel {A} (c : M (vm V) A) : M K A := zoom mc_vm (λ s k, mkmc s (mc_rnd k)) c.
Definition draw : M K Z :=
  let! k := get in
  modify (λ k, mkmc (mc_vm k) (λ n, mc_rnd k (S n))) ;;; ret (mc_rnd k O).

Definition put4 (pa w : Z) (s : vm V) : vm V :=
  foldl (λ s i, set_ram (λ x, if x =? pa + i then byte_of w i else vm_ram s x) s) s [0; 1; 2; 3].
Definition load_word (va rnd : Z) : M (vm V) Z :=
  let! pa := user_address VM_FAULT_READ va rnd in
  let! m := gets vm_ram in ret (word4 m pa).
Definition store_word (va w rnd : Z) : M (vm V) unit :=
  let! pa := user_address VM_FAULT_WRITE va rnd in
  modify (put4 pa w).

#[export] Instance vm_proc : Proc K := {
  sbrk n := let! r := kernel (sys_sbrk n) in ret (u32 r);
  ld a := let! rnd := draw in kernel (load_word a rnd);
  st a w := let! rnd := draw in kernel (store_word a w rnd);
}.

(** ** Words *)

(** The byte a program finds at an address: 0 where nothing was touched yet. *)
Definition ubyte s (va : Z) : Z := default 0 (amem s (vm_cur s) va).
Definition bytes_ok s : Prop := ∀ va, 0 ≤ ubyte s va < 256.

Lemma page_of_word va i : va mod 4 = 0 → 0 ≤ i < 4 → (va + i) / 4096 = va / 4096 ∧ (va + i) mod 4096 = va mod 4096 + i.
Proof. intros Hva Hi. Z.div_mod_to_equations. lia. Qed.
Lemma byte_range w i : 0 ≤ byte_of w i < 256.
Proof. unfold byte_of. apply Z.mod_pos_bound. lia. Qed.
Lemma word4_range f x : (∀ y, 0 ≤ f y < 256) → 0 ≤ word4 f x < 4294967296.
Proof. intros Hf. unfold word4. pose proof (Hf x). pose proof (Hf (x + 1)). pose proof (Hf (x + 2)). pose proof (Hf (x + 3)). lia. Qed.
Lemma word4_bytes f w x : 0 ≤ w < 4294967296 → (∀ i, 0 ≤ i < 4 → f (x + i) = byte_of w i) → word4 f x = w.
Proof.
  intros Hw Hf. unfold word4. rewrite <- (Z.add_0_r x) at 1. rewrite !Hf by lia. unfold byte_of.
  change (256 ^ (3 - 0)) with 16777216. change (256 ^ (3 - 1)) with 65536. change (256 ^ (3 - 2)) with 256.
  change (256 ^ (3 - 3)) with 1. Z.div_mod_to_equations. lia.
Qed.
Lemma word4_ext f g x : (∀ i, 0 ≤ i < 4 → f (x + i) = g (x + i)) → word4 f x = word4 g x.
Proof. intros H. unfold word4. rewrite <- (Z.add_0_r x) at 1 5. rewrite !H by lia. by rewrite Z.add_0_r. Qed.

Lemma load_word_spec s va rnd :
  vm_ok s → vm_cur s ≠ 0 → 0 ≤ va → va + 4 < 2147483648 → va mod 4 = 0 →
  wp (load_word va rnd)
     (λ w s', vm_ok s' ∧ quiet s s' ∧ w = word4 (ubyte s) va ∧ ∀ x, ubyte s' x = ubyte s x)
     (λ e s', e = EFAULT ∧ vm_ok s')
     s.
Proof.
  intros Hok Hc Hva Hva' Hm. unfold load_word. wp_bind. wp_use user_address_spec; [done|done|lia|by left| |naive_solver].
  intros pa s' (Hok' & Hq & Ht & k & Hf & ->). wp_bind. apply wp_gets. apply wp_ret.
  assert (Hc' : vm_cur s' = vm_cur s) by apply Hq.
  assert (Hu : ∀ x, ubyte s' x = ubyte s x).
  { intros x. unfold ubyte. rewrite Hc', Ht. unfold touch. by case_decide. }
  split; [done|]. split; [done|]. split; [|done]. 
  transitivity (word4 (ubyte s') va); [|by apply word4_ext].
  unfold word4. rewrite <- (Z.add_0_r (page_paddr _ _ + _)) at 1. rewrite <- (Z.add_0_r va) at 5.
  assert (∀ i, 0 ≤ i < 4 → vm_ram s' (page_paddr (vm_heap s') k + va mod 4096 + i) = ubyte s' (va + i)) as Hr.
  { intros i Hi. destruct (page_of_word va i Hm Hi) as [H1 H2]. unfold ubyte, amem. rewrite H1, H2, Hc', Hf. simpl. f_equal. lia. }
  rewrite !Hr by lia. done.
Qed.

Lemma poke_at s a va k i b :
  vm_ok s → frame s a (va / 4096) = Some k → va mod 4 = 0 → 0 ≤ i < 4 →
  let s' := set_ram (λ x, if x =? page_paddr (vm_heap s) k + va mod 4096 + i then b else vm_ram s x) s in
  vm_ok s' ∧ frame s' a (va / 4096) = Some k ∧ ∀ a' va', amem s' a' va' = poke (amem s) a (va + i) b a' va'.
Proof.
  intros Hok Hf Hm Hi s'. destruct (page_of_word va i Hm Hi) as [H1 H2]. split; [by apply vm_ok_ram|]. split; [exact Hf|].
  intros a' va'. unfold s'. rewrite <- Z.add_assoc, <- H2. apply amem_poke; [done|]. by rewrite H1.
Qed.
Lemma put4_spec s a va k w :
  vm_ok s → frame s a (va / 4096) = Some k → va mod 4 = 0 →
  let s' := put4 (page_paddr (vm_heap s) k + va mod 4096) w s in
  vm_ok s' ∧ ∀ a' va', amem s' a' va' = if decide (a' = a ∧ va ≤ va' < va + 4) then Some (byte_of w (va' - va)) else amem s a' va'.
Proof.
  intros Hok Hf Hm. unfold put4. cbn [foldl].
  destruct (poke_at s a va k 0 (byte_of w 0) Hok Hf Hm ltac:(lia)) as (Hok0 & Hf0 & H0). set (s0 := set_ram _ s) in *.
  destruct (poke_at s0 a va k 1 (byte_of w 1) Hok0 Hf0 Hm ltac:(lia)) as (Hok1 & Hf1 & H1).
  change (vm_heap s0) with (vm_heap s) in *. set (s1 := set_ram _ s0) in *.
  destruct (poke_at s1 a va k 2 (byte_of w 2) Hok1 Hf1 Hm ltac:(lia)) as (Hok2 & Hf2 & H2).
  change (vm_heap s1) with (vm_heap s) in *. set (s2 := set_ram _ s1) in *.
  destruct (poke_at s2 a va k 3 (byte_of w 3) Hok2 Hf2 Hm ltac:(lia)) as (Hok3 & _ & H3).
  change (vm_heap s2) with (vm_heap s) in *. split; [exact Hok3|]. intros a' va'. rewrite H3. unfold poke.
  destruct (decide (a' = a ∧ va' = va + 3)) as [[-> ->]|]; [rewrite decide_True by lia; do 2 f_equal; lia|]. rewrite H2. unfold poke.
  destruct (decide (a' = a ∧ va' = va + 2)) as [[-> ->]|]; [rewrite decide_True by lia; do 2 f_equal; lia|]. rewrite H1. unfold poke.
  destruct (decide (a' = a ∧ va' = va + 1)) as [[-> ->]|]; [rewrite decide_True by lia; do 2 f_equal; lia|]. rewrite H0. unfold poke.
  destruct (decide (a' = a ∧ va' = va + 0)) as [[-> ->]|]; [rewrite decide_True by lia; do 2 f_equal; lia|].
  rewrite decide_False; [done|]. lia.
Qed.

Lemma store_word_spec s va w rnd :
  vm_ok s → vm_cur s ≠ 0 → 0 ≤ va → va + 4 < 2147483648 → va mod 4 = 0 →
  wp (store_word va w rnd)
     (λ _ s', vm_ok s' ∧ quiet s s' ∧ ∀ x, ubyte s' x = if decide (va ≤ x < va + 4) then byte_of w (x - va) else ubyte s x)
     (λ e s', e = EFAULT ∧ vm_ok s')
     s.
Proof.
  intros Hok Hc Hva Hva' Hm. unfold store_word. wp_bind. wp_use user_address_spec; [done|done|lia|by right| |naive_solver].
  intros pa s' (Hok' & Hq & Ht & k & Hf & ->). apply wp_modify.
  destruct (put4_spec s' (vm_cur s) va k w Hok' Hf Hm) as [Hok2 H2]. split; [done|]. split; [exact Hq|].
  intros x. unfold ubyte. change (vm_cur (put4 _ w s')) with (vm_cur s'). assert (Hc' : vm_cur s' = vm_cur s) by apply Hq.
  rewrite Hc', H2. destruct (decide (va ≤ x < va + 4)) as [Hx|Hx]; [by rewrite decide_True|].
  rewrite decide_False by tauto. rewrite Ht. unfold touch. by case_decide.
Qed.

(** ** The process *)

(** The current address space, with its heap. *)
Definition cur_as s : option addrspace := vm_as s !! vm_cur s.
Definition heap_fine (A : addrspace) : Prop :=
  0 < heap_start A ≤ heap_end A ∧ heap_end A ≤ heap_start A + heap_size ∧
  heap_start A + heap_size + malloc_limit < 2147483648 ∧ heap_start A mod 8 = 0.
Definition running_program s : Prop :=
  vm_ok s ∧ vm_cur s ≠ 0 ∧ bytes_ok s ∧ ∃ A, cur_as s = Some A ∧ heap_fine A.

(** A user access keeps all that. *)
Lemma quiet_as s s' A : quiet s s' → cur_as s = Some A →
  ∃ A', cur_as s' = Some A' ∧ heap_start A' = heap_start A ∧ heap_end A' = heap_end A.
Proof.
  intros [(Hc & _ & Hm & _) _] HA. unfold cur_as in *. rewrite Hc.
  assert (core <$> (vm_as s' !! vm_cur s) = Some (core A)) as He by (by rewrite <- lookup_fmap, Hm, lookup_fmap, HA).
  destruct (vm_as s' !! vm_cur s) as [A'|]; [|done]. exists A'. destruct A, A'. by simplify_eq/=.
Qed.
Definition part (f : addrspace → Z) s : Z := default 0 (f <$> cur_as s).
Lemma quiet_running s s' : running_program s → quiet s s' → vm_ok s' → bytes_ok s' →
  running_program s' ∧ part heap_start s' = part heap_start s ∧ part heap_end s' = part heap_end s.
Proof.
  intros (Hok & Hc & Hb & A & HA & Hh) Hq Hok' Hb'. destruct (quiet_as s s' A Hq HA) as (A' & HA' & H1 & H2).
  unfold part. rewrite HA, HA'. simpl. split; [|done]. split; [done|]. split; [by rewrite (proj1 (proj1 Hq))|].
  split; [done|]. exists A'. split; [done|]. unfold heap_fine in *. by rewrite H1, H2.
Qed.

Lemma running_range s : running_program s →
  0 < part heap_start s ≤ part heap_end s ∧ part heap_end s < 2147483648 ∧ part heap_start s mod 8 = 0.
Proof.
  intros (_ & _ & _ & A & HA & H1 & H2 & H3 & H4). unfold part. rewrite HA. simpl. unfold malloc_limit in *. lia.
Qed.
Lemma wp_draw (Q : Z → K → Prop) E k : (∀ r f, Q r (mkmc (mc_vm k) f)) → wp draw Q E k.
Proof. intros H. unfold draw. wp_bind. apply wp_get. wp_bind. apply wp_modify. apply wp_ret. apply H. Qed.

Lemma vm_ld k a :
  running_program (mc_vm k) → a mod 4 = 0 → part heap_start (mc_vm k) ≤ a → a + 4 ≤ part heap_end (mc_vm k) →
  wp (ld a)
     (λ w k', w = word4 (ubyte (mc_vm k)) a ∧ running_program (mc_vm k') ∧
        part heap_start (mc_vm k') = part heap_start (mc_vm k) ∧ part heap_end (mc_vm k') = part heap_end (mc_vm k) ∧
        ∀ b, word4 (ubyte (mc_vm k')) b = word4 (ubyte (mc_vm k)) b)
     (λ e k', e = EFAULT ∧ vm_ok (mc_vm k')) k.
Proof.
  intros Hr Hm Hlo Hhi. pose proof (running_range _ Hr). pose proof Hr as (Hok & Hc & Hb & _). simpl. wp_bind. apply wp_draw.
  intros rnd f. unfold kernel. apply wp_zoom. eapply wp_mono; [apply load_word_spec; [done|done|simpl; lia|simpl; lia|done]| |done].
  intros w s' (Hok' & Hq & -> & Hu). split; [done|]. destruct (quiet_running _ s' Hr Hq Hok') as (? & ? & ?).
  { intros va. by rewrite Hu. }
  split; [done|]. split; [done|]. split; [done|]. intros b. apply word4_ext. intros i Hi. apply Hu.
Qed.
Lemma vm_st k a w :
  running_program (mc_vm k) → a mod 4 = 0 → part heap_start (mc_vm k) ≤ a → a + 4 ≤ part heap_end (mc_vm k) → 0 ≤ w < 4294967296 →
  wp (st a w)
     (λ _ k', running_program (mc_vm k') ∧
        part heap_start (mc_vm k') = part heap_start (mc_vm k) ∧ part heap_end (mc_vm k') = part heap_end (mc_vm k) ∧
        ∀ b, b mod 4 = 0 → word4 (ubyte (mc_vm k')) b = if decide (b = a) then w else word4 (ubyte (mc_vm k)) b)
     (λ e k', e = EFAULT ∧ vm_ok (mc_vm k')) k.
Proof.
  intros Hr Hm Hlo Hhi Hw. pose proof (running_range _ Hr). pose proof Hr as (Hok & Hc & Hb & _). simpl. wp_bind. apply wp_draw.
  intros rnd f. unfold kernel. apply wp_zoom. eapply wp_mono; [apply store_word_spec; [done|done|simpl; lia|simpl; lia|done]| |done].
  intros [] s' (Hok' & Hq & Hu). cbn [mc_vm] in *. destruct (quiet_running _ s' Hr Hq Hok') as (? & ? & ?).
  { intros va. rewrite Hu. case_decide; [apply byte_range|apply Hb]. }
  split; [done|]. split; [done|]. split; [done|]. intros b Hbm. case_decide as Hd.
  - subst b. apply word4_bytes; [done|]. intros i Hi. rewrite Hu, decide_True by lia. f_equal. lia.
  - apply word4_ext. intros i Hi. rewrite Hu, decide_False; [done|]. Z.div_mod_to_equations. lia.
Qed.
Lemma vm_sbrk k n :
  running_program (mc_vm k) → 0 ≤ n < 2147483648 →
  wp (sbrk n)
     (λ r k', running_program (mc_vm k') ∧ part heap_start (mc_vm k') = part heap_start (mc_vm k) ∧
        (∀ a, word4 (ubyte (mc_vm k')) a = word4 (ubyte (mc_vm k)) a) ∧
        (r = 4294967295 ∧ 0 < n ∧ part heap_end (mc_vm k') = part heap_end (mc_vm k) ∨
         r = part heap_end (mc_vm k) ∧ part heap_end (mc_vm k') = part heap_end (mc_vm k) + n))
     (λ _ _, False) k.
Proof.
  intros (Hok & Hc & Hb & A & HA & H1 & H2 & H3 & H4) Hn. simpl. wp_bind. unfold kernel. apply wp_zoom.
  eapply wp_mono; [apply (sys_sbrk_spec _ A); try done; unfold malloc_limit in *; lia| |done].
  intros r s' [Hok' Hcase]. apply wp_ret. simpl. case_decide as Hd.
  - destruct Hcase as [-> (Has & Hc' & _ & _ & _ & Hm)].
    assert (HA' : cur_as s' = Some (Vm.set_heap (heap_start A) (heap_end A + n) A)).
    { unfold cur_as. by rewrite Hc', Has, lookup_insert_eq. }
    assert (Hu : ∀ x, ubyte s' x = ubyte (mc_vm k) x) by (intros x; unfold ubyte; by rewrite Hc', Hm).
    unfold part. rewrite HA, HA'. simpl. split; [|split; [done|split]].
    + split; [done|]. split; [by rewrite Hc'|]. split; [intros x; by rewrite Hu|]. eexists. split; [done|].
      unfold heap_fine. simpl. lia.
    + intros a. apply word4_ext. intros i _. apply Hu.
    + right. split; [|done]. unfold i32, u32, malloc_limit in *. rewrite (Z.mod_small (_ + _)) by lia. rewrite Z.mod_small; lia.
  - destruct Hcase as [-> ->]. split; [by split_and!; [..|exists A; split_and!]|]. split; [done|]. split; [done|]. left. split; [done|].
    split; [|done]. unfold malloc_limit in *. lia.
Qed.

#[export] Program Instance vm_proc_ok : ProcOk K := {
  prinv k := running_program (mc_vm k);
  plo k := part heap_start (mc_vm k);
  pbrk k := part heap_end (mc_vm k);
  pword k a := word4 (ubyte (mc_vm k)) a;
  pkilled e k := e = EFAULT ∧ vm_ok (mc_vm k);
}.
Next Obligation. intros k H. by apply running_range. Qed.
Next Obligation. intros k a (_ & _ & Hb & _). by apply word4_range. Qed.
Next Obligation. intros. by apply vm_sbrk. Qed.
Next Obligation. intros. by apply vm_ld. Qed.
Next Obligation. intros. by apply vm_st. Qed.

(** C11 The allocator on virtual memory: a program with a heap, whose page
    tables, TLB and break are the kernel's, that is safe on separate arrays
    runs to its end with the answers of separate arrays, and finds in its
    address space the words of its arrays; the one other thing that can happen
    is that an access fails because the kernel has no page for it.  Memory
    stays sound either way. *)
Theorem malloc_on_vm k c :
  running_program (mc_vm k) → part heap_end (mc_vm k) mod 8 = 0 →
  let x := mkar ∅ (word4 (ubyte (mc_vm k))) in
  usafe x c →
  wp (urun c)
     (λ _ h, running_program (mc_vm (u_proc h)) ∧ ∃ x', ar_runs x c x' ∧
        agree (ar_live x') (ar_word x') (word4 (ubyte (mc_vm (u_proc h)))))
     (λ e h, e = EFAULT ∧ vm_ok (mc_vm (u_proc h)))
     (mkuh 0 0 k).
Proof.
  intros Hr Hal x Hc.
  set (v := mkview 0 0 (part heap_start (mc_vm k)) (part heap_end (mc_vm k)) (word4 (ubyte (mc_vm k)))).
  eapply wp_mono; [apply (run_stays (mkuh 0 0 k) x c Hc)| |done].
  - exists v, []. split; [split_and!; done|]. split; [by right|]. by split.
  - intros [] h (x' & Hruns & v' & bs & (Hi & _ & _ & _ & _ & Hw) & _ & _ & _ & Ha). split; [exact Hi|]. exists x'.
    split; [done|]. intros p n b Hp Hb Hm. rewrite <- (Ha p n b) by done. apply Hw. done.
Qed.
End proc.

(** A program with one region, on the small machine. *)
Module SmallProgram.
Definition loaded : SmallVm.st := SmallVm.state (do_event (Ev_region 4194304 100 0) SmallVm.running).
Definition image : machine Counts.t := mkmc loaded (λ _, 0).
Definition tr : list (vm_event * option Z) :=
  [(Ev_run SmallVm.junk, Some (SmallVm.value (do_event (Ev_run SmallVm.junk) SmallVm.boot))); (Ev_region 4194304 100 0, Some 0)].
Lemma tr_ok : vm_trace SmallVm.boot tr loaded.
Proof.
  apply (vt_ok _ _ _ SmallVm.running); [split; [reflexivity|exact SmallVm.junk_blank]|exact SmallVm.run_ok|].
  apply (vt_ok _ _ _ loaded); [|vm_compute; reflexivity|constructor].
  split; [vm_compute; discriminate|]. lia.
Qed.
Lemma loaded_rel : vm_inv loaded ∧ ∀ a va, amem loaded a va = None.
Proof.
  destruct (boot_inv SmallHeap.pages (λ _, 7) (replicate (Z.to_nat NUM_TLB) (0, 0)) {[ 5 := 1 ]} SmallVm.pages_small eq_refl
              SmallVm.boot_counts) as [Hi Hrel].
  destruct (trace_simulates _ nothing _ _ tr_ok Hi Hrel) as (Hi' & x' & Htr & Hm & _). split; [done|].
  intros a va. rewrite Hm. inversion Htr as [|x0 e0 o0 x1 l0 x2 Hs1 Htr1]; subst. inversion Htr1 as [|x3 e3 o3 x4 l3 x5 Hs2 Htr2]; subst.
  inversion Htr2; subst. inversion Hs1; inversion Hs2; subst; naive_solver.
Qed.
Lemma loaded_running : running_program loaded.
Proof.
  destruct loaded_rel as [[Hok _] Hm]. split; [done|]. split; [vm_compute; discriminate|]. split.
  - intros va. unfold ubyte. rewrite Hm. simpl. lia.
  - exists (default SmallVm.junk (cur_as loaded)). split; [vm_compute; reflexivity|]. split_and!; vm_compute; done.
Qed.
End SmallProgram.

Lemma malloc_on_vm_witness :
  match urun SmallProc.program (mkuh 0 0 SmallProgram.image) with
  | Ok _ s' => heaptop s' = 4198456 ∧ running_program (mc_vm (u_proc s'))
  | _ => False
  end.
Proof.
  pose proof (malloc_on_vm SmallProgram.image SmallProc.program SmallProgram.loaded_running eq_refl (SmallProc.program_safe _)) as H.
  assert (Ht : match urun SmallProc.program (mkuh 0 0 SmallProgram.image) with Ok _ s' => heaptop s' | _ => 0 end = 4198456)
    by (vm_compute; reflexivity).
  unfold wp in H. destruct (urun SmallProc.program (mkuh 0 0 SmallProgram.image)) as [[] s'| | |]; [|discriminate..].
  split; [exact Ht|exact (proj1 H)].
Defined.
