(* ===== verification/Trap.v ===== *)
(** * Traps and system calls (kern/arch/mips/mips/trap.c, interrupt.c,
      syscall.c: [mips_syscall] and [md_forkentry])

    Every way into the kernel from a running program: [mips_trap] is called
    with the registers saved in a trap frame; what it leaves there is what the
    program goes on with.  The routines it calls are those of the other
    components, behind the class [Kernel]. *)

From S2P Require Import Prelude.

Definition EX_IRQ : Z := 0.
Definition EX_MOD : Z := 1.
Definition EX_TLBL : Z := 2.
Definition EX_TLBS : Z := 3.
Definition EX_IBE : Z := 6.
Definition EX_DBE : Z := 7.
Definition EX_SYS : Z := 8.
Definition NTRAPCODES : Z := 13.
Definition CCA_CODE : Z := 60.
Definition CCA_CODESHIFT : Z := 2.
Definition CST_KUp : Z := 8.
Definition CST_IEp : Z := 4.
Definition CST_IRQMASK : Z := 65280.
Definition SPL_HIGH : Z := 15.
Definition STACK_SIZE : Z := 4096.
Definition VM_FAULT_READ : Z := 0.
Definition VM_FAULT_WRITE : Z := 1.
Definition VM_FAULT_READONLY : Z := 2.
Definition LAMEBUS_IRQ_BIT : Z := 1024.

Definition SYS__exit : Z := 0.
Definition SYS_execv : Z := 1.
Definition SYS_fork : Z := 2.
Definition SYS_waitpid : Z := 3.
Definition SYS_read : Z := 5.
Definition SYS_write : Z := 6.
Definition SYS_reboot : Z := 8.
Definition SYS_sbrk : Z := 10.
Definition SYS_getpid : Z := 11.

(** The saved registers; [tf_others] are the 27 no routine looks at. *)
Record trapframe := mktf {
  tf_vaddr : Z;
  tf_status : Z;
  tf_cause : Z;
  tf_v0 : Z;
  tf_a0 : Z;
  tf_a1 : Z;
  tf_a2 : Z;
  tf_a3 : Z;
  tf_sp : Z;
  tf_epc : Z;
  tf_others : list Z;
}.
#[global] Instance trapframe_eq_dec : EqDecision trapframe.
Proof. solve_decision. Defined.
Definition set_result (v0 a3 epc : Z) (tf : trapframe) : trapframe :=
  mktf (tf_vaddr tf) (tf_status tf) (tf_cause tf) v0 (tf_a0 tf) (tf_a1 tf) (tf_a2 tf) a3 (tf_sp tf) epc (tf_others tf).

(** [curspl] and the interrupt flag of the processor, [in_interrupt], the
    current thread's stack and [pcb_badfaultfunc] (0 for NULL), [curkstack],
    and the rest of the kernel. *)
Record cpu (S : Type) := mkcpu {
  curspl : Z;
  c_ie : bool;
  in_interrupt : Z;
  c_stack : Z;
  badfaultfunc : Z;
  curkstack : Z;
  c_kern : S;
}.
Arguments mkcpu {S} _ _ _ _ _ _ _.
Arguments curspl {S} _.
Arguments c_ie {S} _.
Arguments in_interrupt {S} _.
Arguments c_stack {S} _.
Arguments badfaultfunc {S} _.
Arguments curkstack {S} _.
Arguments c_kern {S} _.

(** What the rest of the kernel does; nothing when the call does not come back
    to the program that made it. *)
Class Kernel (S : Type) := {
  sys_reboot : Z → M (cpu S) unit;
  sys_fork : trapframe → M (cpu S) Z;
  sys_waitpid : Z → Z → Z → M (cpu S) Z;
  sys__exit : Z → M (cpu S) unit;
  sys_getpid : M (cpu S) Z;
  sys_write : Z → Z → Z → M (cpu S) unit;
  sys_read : Z → Z → Z → M (cpu S) Z;
  sys_execv : Z → Z → M (cpu S) (option Z);
  sys_sbrk : Z → M (cpu S) Z;
  vm_fault : Z → Z → M (cpu S) unit;
  mips_lamebus_interrupt : M (cpu S) unit;
}.

Section trap.
Context {S : Type} `{!Kernel S}.
Notation T := (cpu S).

Definition set_curspl (n : Z) (s : T) : T :=
  mkcpu n (c_ie s) (in_interrupt s) (c_stack s) (badfaultfunc s) (curkstack s) (c_kern s).
Definition set_inint (n : Z) (s : T) : T :=
  mkcpu (curspl s) (c_ie s) n (c_stack s) (badfaultfunc s) (curkstack s) (c_kern s).
Definition splx (newspl : Z) : M T Z :=
  let! s := get in
  put (mkcpu newspl (if 0 <? newspl then false else if newspl =? 0 then true else c_ie s)
             (in_interrupt s) (c_stack s) (badfaultfunc s) (curkstack s) (c_kern s)) ;;;
  ret (curspl s).
Definition splhigh : M T Z := splx SPL_HIGH.
Definition SAME_STACK (p1 p2 : Z) : bool := p1 / STACK_SIZE =? p2 / STACK_SIZE.

(** ** System calls *)

(** The call and its result: an error, or the value returned; nothing when it
    does not come back. *)
Definition answered {A} (f : A → Z) (c : M T A) : M T (option (errno + Z)) :=
  let! r := try c in
  ret (Some (match r with inl e => inl e | inr a => inr (f a) end)).
Definition call (callno : Z) (tf : trapframe) : M T (option (errno + Z)) :=
  if callno =? SYS_reboot then answered (λ _, 0) (sys_reboot (i32 (tf_a0 tf)))
  else if callno =? SYS_fork then answered id (sys_fork tf)
  else if callno =? SYS_waitpid then answered id (sys_waitpid (i32 (tf_a0 tf)) (tf_a1 tf) (i32 (tf_a2 tf)))
  else if callno =? SYS__exit then sys__exit (i32 (tf_a0 tf)) ;;; ret None
  else if callno =? SYS_getpid then answered id sys_getpid
  else if callno =? SYS_write then answered (λ _, 0) (sys_write (i32 (tf_a0 tf)) (tf_a1 tf) (tf_a2 tf))
  else if callno =? SYS_read then answered id (sys_read (i32 (tf_a0 tf)) (tf_a1 tf) (tf_a2 tf))
  else if callno =? SYS_execv then
    let! r := sys_execv (tf_a0 tf) (tf_a1 tf) in ret (inr <$> r)
  else if callno =? SYS_sbrk then answered id (sys_sbrk (i32 (tf_a0 tf)))
  else ret (Some (inl ENOSYS)).
Definition result_frame (r : errno + Z) (tf : trapframe) : trapframe :=
  match r with
  | inl e => set_result (errno_code e) 1 (u32 (tf_epc tf + 4)) tf
  | inr v => set_result (u32 v) 0 (u32 (tf_epc tf + 4)) tf
  end.
Definition mips_syscall (tf : trapframe) : M T (option trapframe) :=
  let! s := get in
  kassert (curspl s =? 0) ;;;
  let! r := call (i32 (tf_v0 tf)) tf in
  match r with
  | None => ret None
  | Some r =>
      let! s := get in
      kassert (curspl s =? 0) ;;;
      ret (Some (result_frame r tf))
  end.

(** ** Traps *)

Definition mips_interrupt (cause : Z) : M T unit :=
  let! s := get in
  modify (set_inint 1) ;;;
  kassert (curspl s >? 0) ;;;
  if negb (Z.land cause LAMEBUS_IRQ_BIT =? 0) then
    mips_lamebus_interrupt ;;;
    modify (set_inint (in_interrupt s))
  else panic.

Definition trap_code (tf : trapframe) : Z := Z.shiftr (Z.land (tf_cause tf) CCA_CODE) CCA_CODESHIFT.
Definition iskern (tf : trapframe) : bool := Z.land (tf_status tf) CST_KUp =? 0.

(** Up to the end of the [switch]: the frame to go back to, when the trap is
    dealt with; the inner nothing for a call that does not come back. *)
Definition handle (tf : trapframe) (savespl : Z) : M T (option (option trapframe)) :=
  let code := trap_code tf in
  if code =? EX_IRQ then mips_interrupt (tf_cause tf) ;;; ret (Some (Some tf))
  else
    splx savespl ;;;
    if code =? EX_SYS then
      let! s := get in
      kassert (curspl s =? 0) ;;;
      let! r := mips_syscall tf in
      ret (Some r)
    else if (code =? EX_MOD) || (code =? EX_TLBL) || (code =? EX_TLBS) then
      let how := if code =? EX_MOD then VM_FAULT_READONLY else if code =? EX_TLBL then VM_FAULT_READ else VM_FAULT_WRITE in
      let! r := try (vm_fault how (tf_vaddr tf)) in
      match r with inr _ => ret (Some (Some tf)) | inl _ => ret None end
    else if (code =? EX_IBE) || (code =? EX_DBE) then panic
    else ret None.
(** [kill_curthread]: [sys__exit(100)] does not return. *)
Definition kill_curthread (code : Z) : M T unit :=
  kassert (code <? NTRAPCODES) ;;;
  sys__exit 100.
(** [done:] *)
Definition trap_done (tfa savespl : Z) (tf : trapframe) : M T (option trapframe) :=
  splhigh ;;;
  modify (set_curspl savespl) ;;;
  let! s := get in
  kassert (SAME_STACK (curkstack s - 1) tfa) ;;;
  ret (Some tf).
(** [tfa] is where the frame is. *)
Definition mips_trap (tfa : Z) (tf : trapframe) : M T (option trapframe) :=
  let! s := get in
  let savespl := curspl s in
  modify (set_curspl SPL_HIGH) ;;;
  kassert (trap_code tf <? NTRAPCODES) ;;;
  kassert ((c_stack s =? 0) || (c_stack s <? tfa) && (tfa <? c_stack s + STACK_SIZE)) ;;;
  let! r := handle tf savespl in
  match r with
  | Some (Some tf') => trap_done tfa savespl tf'
  | Some None => ret None
  | None =>
      if negb (iskern tf) then kill_curthread (trap_code tf) ;;; ret None
      else
        let! s := get in
        if negb (badfaultfunc s =? 0)
        then trap_done tfa savespl (set_result (tf_v0 tf) (tf_a3 tf) (badfaultfunc s) tf)
        else panic
  end.

(** ** Into user mode *)

(** The registers a program starts or goes on with. *)
Definition mips_usermode (tfa : Z) (tf : trapframe) : M T trapframe :=
  splhigh ;;;
  modify (set_curspl 0) ;;;
  let! s := get in
  kassert (SAME_STACK (curkstack s - 1) tfa) ;;;
  ret tf.
Definition md_usermode (tfa argc argv stack entry : Z) : M T trapframe :=
  mips_usermode tfa (mktf 0 (Z.lor (Z.lor CST_IRQMASK CST_IEp) CST_KUp) 0 0 argc argv 0 0 stack entry (replicate 27 0)).
(** [md_forkentry] with the frame [tf] it was given; the address space is
    activated by [activate]. *)
Definition md_forkentry (activate : M T unit) (tfa : Z) (tf : trapframe) : M T trapframe :=
  activate ;;;
  mips_usermode tfa (set_result 0 0 (u32 (tf_epc tf + 4)) tf).
End trap.
