(* ===== verification/TrapThm.v ===== *)
(** * Traps: what a program sees of them *)

From S2P Require Import Prelude Kmem KPages Coremap KHeap KHeapSpec KHeapOps KHeapThm Vm VmSpec VmPages VmFault VmOps VmThm Trap.

Section trap.
Context {S : Type} `{!Kernel S}.
Notation T := (cpu S).
Implicit Types (s : T) (tf : trapframe).

Lemma trap_done_Ok tfa savespl tf s tf' s' :
  trap_done tfa savespl tf s = Ok (Some tf') s' → tf' = tf ∧ curspl s' = savespl ∧ c_ie s' = false ∧ c_kern s' = c_kern s.
Proof.
  intros (x & s1 & Hx & (y & s2 & [= <- <-] & (z & s3 & [= <- <-] & Hk)%bind_Ok)%bind_Ok)%bind_Ok.
  apply bind_Ok in Hk as (y & s2 & Hk & [= <- <-]). unfold kassert in Hk. destruct (SAME_STACK _ _); [|done]. injection Hk as _ <-.
  unfold splhigh, splx in Hx. apply bind_Ok in Hx as (z & s3 & [= <- <-] & (u & s4 & [= <- <-] & [= <- <-])%bind_Ok). done.
Qed.

(** What may differ in the frame of a trap that returns. *)
Definition back_from tf tf' : Prop :=
  if trap_code tf =? EX_SYS then ∃ r, tf' = result_frame r tf
  else tf' = tf ∨ iskern tf = true ∧ ∃ f, f ≠ 0 ∧ tf' = set_result (tf_v0 tf) (tf_a3 tf) f tf.

Lemma handle_back tf savespl s r s' :
  handle tf savespl s = Ok r s' →
  match r with
  | Some (Some tf') => if trap_code tf =? EX_SYS then ∃ a, tf' = result_frame a tf else tf' = tf
  | Some None => trap_code tf = EX_SYS
  | None => trap_code tf ≠ EX_SYS
  end.
Proof.
  unfold handle. destruct (Z.eqb_spec (trap_code tf) EX_IRQ) as [Hi|_].
  { intros (x & s1 & _ & [= <- <-])%bind_Ok. by rewrite Hi. }
  intros (x & s1 & _ & Hr)%bind_Ok. destruct (Z.eqb_spec (trap_code tf) EX_SYS) as [He|Hne].
  - apply bind_Ok in Hr as (y & s2 & _ & (z & s3 & _ & (w & s4 & Hc & [= <- <-])%bind_Ok)%bind_Ok). destruct w as [tf'|]; [|done].
    unfold mips_syscall in Hc. apply bind_Ok in Hc as (a & s5 & _ & (b & s6 & _ & (o & s7 & _ & Ho)%bind_Ok)%bind_Ok).
    destruct o as [a'|]; [|done]. apply bind_Ok in Ho as (c & s8 & _ & (d & s9 & _ & [= <- <-])%bind_Ok). by exists a'.
  - destruct (_ || _).
    + apply bind_Ok in Hr as (y & s2 & _ & Hr). destruct y; by injection Hr as <- <-.
    + destruct (_ || _); [done|]. by injection Hr as <- <-.
Qed.

(** C31 Whatever the trap, the registers a program finds when it gets the
    processor back are those it had, but for the answer of a system call (v0,
    a3 and the program counter past the instruction) and for a fault of the
    kernel itself on a program's address, which goes on in
    [pcb_badfaultfunc]; the interrupt level is the one before the trap, and
    interrupts are off until the return from the exception. *)
Theorem trap_restores tfa tf s tf' s' :
  mips_trap tfa tf s = Ok (Some tf') s' →
  curspl s' = curspl s ∧ c_ie s' = false ∧
  tf_sp tf' = tf_sp tf ∧ tf_others tf' = tf_others tf ∧ tf_status tf' = tf_status tf ∧
  (tf_a0 tf', tf_a1 tf', tf_a2 tf') = (tf_a0 tf, tf_a1 tf, tf_a2 tf) ∧
  back_from tf tf'.
Proof.
  intros (x & s1 & [= <- <-] & (y & s2 & [= <- <-] & Hk)%bind_Ok)%bind_Ok.
  apply bind_Ok in Hk as (y & s2 & _ & (z & s3 & _ & (r & s4 & Hh & Hr)%bind_Ok)%bind_Ok). apply handle_back in Hh. unfold back_from.
  destruct r as [[tf1|]|]; [|done|].
  - apply trap_done_Ok in Hr as (-> & Hs & Hi & _). split; [done|]. split; [done|].
    destruct (trap_code tf =? EX_SYS).
    + destruct Hh as [a ->]. split_and!; [by destruct a..|by exists a].
    + subst tf1. split_and!; try done. by left.
  - destruct (iskern tf) eqn:Hkern; cbn [negb] in Hr; [|by apply bind_Ok in Hr as (? & ? & _ & [=])].
    apply bind_Ok in Hr as (w & s5 & [= <- <-] & Hr). destruct (Z.eqb_spec (badfaultfunc s4) 0) as [|Hne]; [done|]. cbn [negb] in Hr.
    apply trap_done_Ok in Hr as (-> & Hs & Hi & _). split; [done|]. split; [done|]. destruct (Z.eqb_spec (trap_code tf) EX_SYS); [done|].
    split_and!; try done. right. split; [done|]. by exists (badfaultfunc s4).
Qed.
End trap.

(** ** Page faults *)

Section faults.
Context {V : Type} `{!Vref V, !VrefOk V}.
Notation K := (vm V).
Notation T := (cpu K).
Implicit Types (s : T) (tf : trapframe).

(** The routines of Vm.v, which keep the interrupt level themselves. *)
Definition on_vm {A} (c : M K A) : M T A := λ s,
  let back (k : K) := mkcpu (vm_spl k) (if 0 <? vm_spl k then false else if vm_spl k =? 0 then true else c_ie s)
                        (in_interrupt s) (c_stack s) (badfaultfunc s) (curkstack s) k in
  match c (Vm.set_spl (curspl s) (c_kern s)) with
  | Ok a k => Ok a (back k)
  | Err e k => Err e (back k)
  | Panic => Panic
  | Hang => Hang
  end.
(** A kernel with this virtual memory; [rnd] is what [random] gives. *)
Definition with_vm (o : Kernel K) (rnd : Z) : Kernel K := {|
  sys_reboot := @sys_reboot K o; sys_fork := @sys_fork K o; sys_waitpid := @sys_waitpid K o; sys__exit := @sys__exit K o;
  sys_getpid := @sys_getpid K o; sys_write := @sys_write K o; sys_read := @sys_read K o; sys_execv := @sys_execv K o;
  sys_sbrk n := on_vm (Vm.sys_sbrk n);
  vm_fault ft va := on_vm (Vm.vm_fault ft va rnd);
  mips_lamebus_interrupt := @mips_lamebus_interrupt K o;
|}.

Context (o : Kernel K) (rnd : Z).
#[local] Instance the_kernel : Kernel K := with_vm o rnd.

Definition set_kern (k : K) s : T := mkcpu (curspl s) (c_ie s) (in_interrupt s) (c_stack s) (badfaultfunc s) (curkstack s) k.
Definition set_ie (b : bool) s : T := mkcpu (curspl s) b (in_interrupt s) (c_stack s) (badfaultfunc s) (curkstack s) (c_kern s).
(** The frame of a TLB miss. *)
Definition fault_frame (ft va : Z) tf : trapframe :=
  mktf va (tf_status tf) (Z.shiftl (if ft =? Vm.VM_FAULT_READ then EX_TLBL else EX_TLBS) CCA_CODESHIFT)
       (tf_v0 tf) (tf_a0 tf) (tf_a1 tf) (tf_a2 tf) (tf_a3 tf) (tf_sp tf) (tf_epc tf) (tf_others tf).
(** An access of a program: a miss traps into the kernel with interrupts off,
    and the return from the exception executes the instruction again.
    Nothing when the program does not go on. *)
Definition access (tfa : Z) tf (ft va : Z) : M T (option Z) :=
  let! s := get in
  match tlb_translate (vm_tlb (c_kern s)) va with
  | Some pa => ret (Some pa)
  | None =>
      modify (set_ie false) ;;;
      let! r := mips_trap tfa (fault_frame ft va tf) in
      match r with
      | None => ret None
      | Some tf' =>
          modify (set_ie (c_ie s)) ;;;
          let! s := get in
          match tlb_translate (vm_tlb (c_kern s)) va with
          | Some pa => if tf_epc tf' =? tf_epc tf then ret (Some pa) else panic
          | None => hang
          end
      end
  end.

(** A program running on its stack with interrupts on. *)
Record in_user (tfa : Z) tf s : Prop := {
  iu_mode : iskern tf = false;
  iu_spl : curspl s = 0 ∧ vm_spl (c_kern s) = 0 ∧ c_ie s = true;
  iu_stack : c_stack s < tfa < c_stack s + STACK_SIZE;
  iu_kstack : SAME_STACK (curkstack s - 1) tfa = true;
}.

Lemma fault_code ft va tf : ft = Vm.VM_FAULT_READ ∨ ft = Vm.VM_FAULT_WRITE →
  trap_code (fault_frame ft va tf) = if ft =? Vm.VM_FAULT_READ then EX_TLBL else EX_TLBS.
Proof. by intros [-> | ->]. Qed.

(** The trap of a miss, by what [vm_fault] does. *)
Lemma fault_trap tfa tf ft va s :
  in_user tfa tf s → ft = Vm.VM_FAULT_READ ∨ ft = Vm.VM_FAULT_WRITE →
  mips_trap tfa (fault_frame ft va tf) (set_ie false s) =
  match Vm.vm_fault ft va rnd (c_kern s) with
  | Ok _ k => trap_done tfa 0 (fault_frame ft va tf) (mkcpu (vm_spl k) (negb (0 <? vm_spl k)) (in_interrupt s) (c_stack s) (badfaultfunc s) (curkstack s) k)
  | Err _ k => (sys__exit 100 ;;; ret None) (mkcpu (vm_spl k) (negb (0 <? vm_spl k)) (in_interrupt s) (c_stack s) (badfaultfunc s) (curkstack s) k)
  | Panic => Panic
  | Hang => Hang
  end.
Proof.
  intros [Hm (Hs & Hv & Hi) Hst _] Hft. destruct s as [spl ie ii st bf ks k]; simpl in Hs, Hv, Hi, Hst; subst spl ie.
  assert (Hk : Vm.set_spl 0 k = k) by (destruct k; simpl in *; by subst).
  assert (Hcode : trap_code (fault_frame ft va tf) = if ft =? Vm.VM_FAULT_READ then EX_TLBL else EX_TLBS) by by apply fault_code.
  assert (Hasr : (st =? 0) || (st <? tfa) && (tfa <? st + STACK_SIZE) = true) by lia.
  unfold mips_trap, handle, kill_curthread. rewrite Hcode. unfold bind at 1, get at 1, bind at 1, modify at 1. cbn [set_curspl set_ie curspl c_stack].
  rewrite Hasr. change (iskern (fault_frame ft va tf)) with (iskern tf). rewrite Hm.
  destruct Hft as [-> | ->]; cbv [Vm.VM_FAULT_READ Vm.VM_FAULT_WRITE EX_TLBL EX_TLBS EX_IRQ EX_SYS EX_MOD NTRAPCODES VM_FAULT_READ VM_FAULT_WRITE];
    cbn [Z.eqb Pos.eqb Z.ltb Z.compare Pos.compare Pos.compare_cont kassert orb]; unfold splx, try, bind, ret, get, put; cbn [vm_fault the_kernel with_vm on_vm];
    unfold on_vm; cbn [set_curspl set_ie fault_frame curspl c_kern c_ie in_interrupt c_stack badfaultfunc curkstack tf_vaddr]; cbn [Z.eqb Z.ltb Z.compare]; rewrite Hk;
    destruct (Vm.vm_fault _ va rnd k) as [[] k0|e k0| |]; try done; destruct (0 <? vm_spl k0), (vm_spl k0 =? 0); reflexivity.
Qed.

Lemma access_hit tfa tf ft va s pa : tlb_translate (vm_tlb (c_kern s)) va = Some pa → access tfa tf ft va s = Ok (Some pa) s.
Proof. intros Ht. unfold access, bind, get. by rewrite Ht. Qed.
(** Back from the trap, the instruction is executed again. *)
Lemma access_retry tfa tf ft va s s' pa :
  tlb_translate (vm_tlb (c_kern s)) va = None →
  mips_trap tfa (fault_frame ft va tf) (set_ie false s) = Ok (Some (fault_frame ft va tf)) s' →
  tlb_translate (vm_tlb (c_kern s')) va = Some pa →
  access tfa tf ft va s = Ok (Some pa) (set_ie (c_ie s) s').
Proof.
  intros Hm Ht Hh. unfold access, bind at 1, get at 1. rewrite Hm. unfold bind at 1, modify at 1, bind at 1. rewrite Ht.
  unfold bind, modify, get. cbn [set_ie c_kern fault_frame tf_epc]. by rewrite Hh, Z.eqb_refl.
Qed.
Lemma access_dies tfa tf ft va s s' :
  tlb_translate (vm_tlb (c_kern s)) va = None →
  mips_trap tfa (fault_frame ft va tf) (set_ie false s) = (sys__exit 100 ;;; ret None) s' →
  access tfa tf ft va s = (sys__exit 100 ;;; ret None) s'.
Proof.
  intros Hm Ht. unfold access, bind at 1, get at 1. rewrite Hm. unfold bind at 1, modify at 1, bind at 1. rewrite Ht.
  unfold bind, ret. by destruct (sys__exit 100 s').
Qed.

End faults.


(** ** System calls *)

Section calls.
Context {S : Type} `{!Kernel S}.
Notation T := (cpu S).
Implicit Types (s : T) (tf : trapframe).

(** A program in the kernel for a system call. *)
Definition at_call s : T := mkcpu 0 true (in_interrupt s) (c_stack s) (badfaultfunc s) (curkstack s) (c_kern s).
Definition on_stack (tfa : Z) s : Prop :=
  c_stack s < tfa < c_stack s + STACK_SIZE ∧ SAME_STACK (curkstack s - 1) tfa = true.
Lemma syscall_trap tfa tf s r s' :
  trap_code tf = EX_SYS → curspl s = 0 → on_stack tfa s →
  call (i32 (tf_v0 tf)) tf (at_call s) = Ok (Some r) s' → curspl s' = 0 → curkstack s' = curkstack s →
  ∃ s1, mips_trap tfa tf s = Ok (Some (result_frame r tf)) s1 ∧ c_kern s1 = c_kern s' ∧ curspl s1 = 0.
Proof.
  intros Hcode Hs [Hst Hks] Hcall Hs' Hk. destruct s as [spl ie ii st bf ks k]. simpl in Hs, Hst, Hks, Hk. subst spl.
  assert (Hasr : (st =? 0) || (st <? tfa) && (tfa <? st + STACK_SIZE) = true) by lia.
  assert (Hsys : mips_syscall tf (at_call (mkcpu 0 ie ii st bf ks k)) = Ok (Some (result_frame r tf)) s').
  { unfold mips_syscall, bind at 1, get at 1. cbn [at_call curspl Z.eqb kassert]. unfold bind at 1, ret at 1, bind at 1. fold (at_call (mkcpu 0 ie ii st bf ks k)).
    rewrite Hcall. unfold bind, get. rewrite Hs'. done. }
  unfold mips_trap, handle. rewrite Hcode. cbv [EX_SYS EX_IRQ NTRAPCODES]. cbn [Z.eqb Pos.eqb Z.ltb Z.compare Pos.compare Pos.compare_cont kassert].
  unfold splx, bind, get, put, modify, ret. cbn [set_curspl curspl c_stack c_ie in_interrupt badfaultfunc curkstack c_kern]. rewrite Hasr.
  cbn [kassert]. unfold ret. cbn [set_curspl curspl c_ie in_interrupt c_stack badfaultfunc curkstack c_kern Z.eqb Z.ltb Z.compare kassert]. unfold ret. unfold at_call in Hsys. cbn [c_kern in_interrupt c_stack badfaultfunc curkstack] in Hsys. rewrite Hsys.
  unfold trap_done, splhigh, splx, bind, get, put, modify, ret. cbn [set_curspl curkstack]. rewrite Hk, Hks. cbn. eauto.
Qed.


(** An [execv] that fails answers with the number of the error as if it had
    succeeded. *)
Lemma execv_error_lost tfa tf s s' e :
  trap_code tf = EX_SYS → i32 (tf_v0 tf) = SYS_execv → curspl s = 0 → on_stack tfa s →
  sys_execv (tf_a0 tf) (tf_a1 tf) (at_call s) = Ok (Some (errno_code e)) s' → curspl s' = 0 → curkstack s' = curkstack s →
  ∃ tf' s1, mips_trap tfa tf s = Ok (Some tf') s1 ∧ tf_a3 tf' = 0 ∧ tf_v0 tf' = errno_code e.
Proof.
  intros Hc Hv Hs Hst Hf Hs' Hk. destruct (syscall_trap tfa tf s (inr (errno_code e)) s' Hc Hs Hst) as (s1 & Ht & _); [|done|done|].
  { rewrite Hv. unfold call. cbn. unfold bind, ret. by rewrite Hf. }
  eexists _, s1. split; [exact Ht|]. split; [done|]. by destruct e.
Qed.
End calls.

(** ** Witnesses *)

Module SmallKernel.
Definition parts (S : Type) : Kernel S := {|
  sys_reboot _ := fail EINVAL; sys_fork _ := ret 102; sys_waitpid _ _ _ := ret 0; sys__exit _ := ret tt; sys_getpid := ret 101;
  sys_write _ _ _ := ret tt; sys_read _ _ _ := ret 0; sys_execv _ _ := ret None; sys_sbrk _ := ret 0; vm_fault _ _ := fail EFAULT;
  mips_lamebus_interrupt := ret tt |}.
Definition kernel : Kernel SmallVm.st := with_vm (parts SmallVm.st) 0.
Definition user (k : SmallVm.st) : cpu SmallVm.st := mkcpu 0 true 0 8192 0 12288 k.
(** In user mode, about to make system call [v0]. *)
Definition regs (v0 : Z) : trapframe := mktf 0 8 32 v0 1 2 3 4 2147483000 4194304 (replicate 27 9).
Lemma user_ok k : vm_spl k = 0 → in_user 10000 (regs 2) (user k).
Proof. intros Hk. split; [done|done|simpl; unfold STACK_SIZE; lia|done]. Qed.
End SmallKernel.

Lemma trap_restores_witness : ∃ tf' s', tf_sp tf' = 2147483000 ∧ curspl s' = 0 ∧ back_from (SmallKernel.regs 11) tf' ∧
  @mips_trap _ SmallKernel.kernel 10000 (SmallKernel.regs 11) (SmallKernel.user SmallVm.stored) = Ok (Some tf') s'.
Proof.
  destruct (@mips_trap _ SmallKernel.kernel 10000 (SmallKernel.regs 11) (SmallKernel.user SmallVm.stored)) as [[tf'|] s'| | |] eqn:He; try (vm_compute in He; discriminate He).
  destruct (@trap_restores _ SmallKernel.kernel _ _ _ _ _ He) as (Hs & _ & Hsp & _ & _ & _ & Hb). exists tf', s'. split_and!; [exact Hsp|exact Hs|exact Hb|reflexivity].
Defined.
