(* ===== verification/Printf.v ===== *)
(** * Formatted output (lib/libc/__printf.c, snprintf.c, printf.c, atoi.c)

    The code the kernel and libc share.  The output goes to a function of the
    caller, which works on a state [W]; the variable arguments are a list.  A
    string is the list of its characters without the final NUL. *)

From Stdlib Require Import Ascii String.
From S2P Require Import Prelude KString.

Notation str := (list Z) (only parsing).
(** Characters and texts of the source. *)
Definition chr (a : ascii) : Z := Z.of_N (N_of_ascii a).
Definition txt (s : string) : str := chr <$> list_ascii_of_string s.
(** The string in a [char] array that ends with a NUL. *)
Fixpoint cstr (l : str) : str :=
  match l with [] => [] | c :: l' => if c =? 0 then [] else c :: cstr l' end.
(** [strchr(s, ch) != NULL], for [ch] not NUL. *)
Definition has_char (s : str) (ch : Z) : bool := existsb (λ c, c =? ch) s.

(** ** State *)

(** A word, or a pointer to characters. *)
Inductive varg := A_int (n : Z) | A_str (p : option str).
Inductive intsize := INTSZ | LONGSZ.
#[global] Instance intsize_eq_dec : EqDecision intsize.
Proof. solve_decision. Defined.

Record PF (W : Type) := mkPF {
  clientdata : W;
  pf_ap : list varg;
  charcount : Z;
  in_pct : bool;
  pf_size : intsize;
  pf_num : Z;
  pf_sign : Z;
  spacing : Z;
  rightspc : bool;
  fillchar : Z;
  pf_base : Z;
  baseprefix : bool;
  altformat : bool;
}.
Arguments mkPF {W} _ _ _ _ _ _ _ _ _ _ _ _ _.
Arguments clientdata {W} _.
Arguments pf_ap {W} _.
Arguments charcount {W} _.
Arguments in_pct {W} _.
Arguments pf_size {W} _.
Arguments pf_num {W} _.
Arguments pf_sign {W} _.
Arguments spacing {W} _.
Arguments rightspc {W} _.
Arguments fillchar {W} _.
Arguments pf_base {W} _.
Arguments baseprefix {W} _.
Arguments altformat {W} _.

(** sizeof(long) * CHAR_BIT / 3 + 2 *)
Definition NUMBER_BUF_SIZE : nat := 12.

(** The digits of a number, written from right to left into a buffer with
    [room] slots left of [text]; there must be one for every digit. *)
Fixpoint digit_loop (room : nat) (xnum base : Z) (text : str) : option str :=
  match room with
  | O => None
  | S room' =>
      d ← zget (txt "0123456789abcdef") (xnum mod base);
      if xnum / base >? 0 then digit_loop room' (xnum / base) base (d :: text) else Some (d :: text)
  end.

Section printf.
Context {W : Type} (sendfunc : str → M W unit).
Notation S := (PF W).

Definition or_trap {A} (o : option A) : M S A := match o with Some a => ret a | None => panic end.
Definition set_data (w : W) (p : S) : S :=
  mkPF w (pf_ap p) (charcount p) (in_pct p) (pf_size p) (pf_num p) (pf_sign p) (spacing p) (rightspc p) (fillchar p)
    (pf_base p) (baseprefix p) (altformat p).
Definition set_ap (l : list varg) (p : S) : S :=
  mkPF (clientdata p) l (charcount p) (in_pct p) (pf_size p) (pf_num p) (pf_sign p) (spacing p) (rightspc p) (fillchar p)
    (pf_base p) (baseprefix p) (altformat p).
Definition set_count (n : Z) (p : S) : S :=
  mkPF (clientdata p) (pf_ap p) n (in_pct p) (pf_size p) (pf_num p) (pf_sign p) (spacing p) (rightspc p) (fillchar p)
    (pf_base p) (baseprefix p) (altformat p).
Definition set_inpct (p : S) : S :=
  mkPF (clientdata p) (pf_ap p) (charcount p) true (pf_size p) (pf_num p) (pf_sign p) (spacing p) (rightspc p) (fillchar p)
    (pf_base p) (baseprefix p) (altformat p).
Definition set_alt (p : S) : S :=
  mkPF (clientdata p) (pf_ap p) (charcount p) (in_pct p) (pf_size p) (pf_num p) (pf_sign p) (spacing p) (rightspc p)
    (fillchar p) (pf_base p) (baseprefix p) true.
Definition set_right (p : S) : S :=
  mkPF (clientdata p) (pf_ap p) (charcount p) (in_pct p) (pf_size p) (pf_num p) (pf_sign p) (spacing p) true (fillchar p)
    (pf_base p) (baseprefix p) (altformat p).
Definition set_size (z : intsize) (p : S) : S :=
  mkPF (clientdata p) (pf_ap p) (charcount p) (in_pct p) z (pf_num p) (pf_sign p) (spacing p) (rightspc p) (fillchar p)
    (pf_base p) (baseprefix p) (altformat p).
Definition set_spacing (n : Z) (p : S) : S :=
  mkPF (clientdata p) (pf_ap p) (charcount p) (in_pct p) (pf_size p) (pf_num p) (pf_sign p) n (rightspc p) (fillchar p)
    (pf_base p) (baseprefix p) (altformat p).
Definition set_fill (c : Z) (p : S) : S :=
  mkPF (clientdata p) (pf_ap p) (charcount p) (in_pct p) (pf_size p) (pf_num p) (pf_sign p) (spacing p) (rightspc p) c
    (pf_base p) (baseprefix p) (altformat p).
Definition set_num (n sign : Z) (p : S) : S :=
  mkPF (clientdata p) (pf_ap p) (charcount p) (in_pct p) (pf_size p) n sign (spacing p) (rightspc p) (fillchar p)
    (pf_base p) (baseprefix p) (altformat p).
Definition set_base (b : Z) (pre : bool) (p : S) : S :=
  mkPF (clientdata p) (pf_ap p) (charcount p) (in_pct p) (pf_size p) (pf_num p) (pf_sign p) (spacing p) (rightspc p)
    (fillchar p) b pre (altformat p).

(** [va_arg]; an argument of the wrong kind, or none, is undefined. *)
Definition va_int : M S Z := λ p,
  match pf_ap p with A_int n :: l => Ok n (set_ap l p) | _ => Panic end.
Definition va_str : M S (option str) := λ p,
  match pf_ap p with A_str s :: l => Ok s (set_ap l p) | _ => Panic end.

(** ** Operations *)

Definition pf_print (text : str) : M S unit :=
  zoom clientdata set_data (sendfunc text) ;;;
  modify (λ p, set_count (i32 (charcount p + zlen text)) p).

Definition pf_endfield : M S unit :=
  modify (λ p, mkPF (clientdata p) (pf_ap p) (charcount p) false INTSZ 0 0 0 false (chr " ") 0 false false).

Definition pf_modifier (ch : Z) : M S unit :=
  let! p := get in
  if ch =? chr "#" then put (set_alt p)
  else if ch =? chr "-" then put (set_right p)
  else if ch =? chr "l" then (if decide (pf_size p = LONGSZ) then ret tt else put (set_size LONGSZ p))
  else if ch =? chr "q" then put (set_size LONGSZ p)
  else if ch =? chr "0" then
    (if spacing p >? 0 then put (set_spacing (i32 (spacing p * 10)) p) else put (set_fill (chr "0") p))
  else
    kassert ((chr "0" <? ch) && (ch <=? chr "9")) ;;;
    put (set_spacing (i32 (spacing p * 10 + (ch - chr "0"))) p).

(** [int] and [long] have the same width. *)
Definition pf_getnum (ch : Z) : M S unit :=
  let! n := va_int in
  let! p := get in
  if ch =? chr "p" then put (set_num (u32 n) (pf_sign p) p)
  else if ch =? chr "d" then
    let signednum := match pf_size p with INTSZ => i32 n | LONGSZ => i32 n end in
    if signednum <? 0 then put (set_num (u32 (- signednum)) (-1) p) else put (set_num (u32 signednum) (pf_sign p) p)
  else put (set_num (match pf_size p with INTSZ => u32 n | LONGSZ => u32 n end) (pf_sign p) p).

Definition pf_setbase (ch : Z) : M S unit :=
  modify (λ p,
    let b := if (ch =? chr "d") || (ch =? chr "u") then 10
             else if (ch =? chr "x") || (ch =? chr "p") then 16
             else if ch =? chr "o" then 8 else pf_base p in
    set_base b (if altformat p || (ch =? chr "p") then true else baseprefix p) p).

Definition pf_fill (spc : Z) : M S unit :=
  let! p := get in
  for_range (Z.to_nat spc) 0 (λ _, pf_print [fillchar p]).

Definition pf_printstuff (prefix prefix2 stuff : str) : M S unit :=
  let! p := get in
  let len := i32 (zlen prefix + zlen prefix2 + zlen stuff) in
  let spc := if spacing p >? len then i32 (spacing p - len) else 0 in
  when ((spc >? 0) && negb (rightspc p) && negb (fillchar p =? chr "0")) (pf_fill spc) ;;;
  pf_print prefix ;;;
  pf_print prefix2 ;;;
  when ((spc >? 0) && negb (rightspc p) && (fillchar p =? chr "0")) (pf_fill spc) ;;;
  pf_print stuff ;;;
  when ((spc >? 0) && rightspc p) (pf_fill spc).

Definition pf_printnum : M S unit :=
  let! p := get in
  kassert (negb (pf_base p =? 0)) ;;;
  let! x := or_trap (digit_loop (NUMBER_BUF_SIZE - 1) (pf_num p) (pf_base p) []) in
  let bprefix := if baseprefix p && (pf_base p =? 16) then txt "0x"
                 else if baseprefix p && (pf_base p =? 8) then txt "0" else [] in
  let sprefix := if negb (pf_sign p =? 0) then txt "-" else [] in
  pf_printstuff sprefix bprefix x.

Definition pf_send (ch : Z) : M S unit :=
  kassert (negb (ch =? 0)) ;;;
  let! p := get in
  if negb (in_pct p) && negb (ch =? chr "%") then pf_print [ch]
  else if negb (in_pct p) then put (set_inpct p)
  else if has_char (txt "#-ql0123456789") ch then pf_modifier ch
  else if has_char (txt "doupx") ch then
    pf_getnum ch ;;; pf_setbase ch ;;; pf_printnum ;;; pf_endfield
  else if ch =? chr "s" then
    let! s := va_str in
    pf_printstuff [] [] (match s with Some s => s | None => txt "(null)" end) ;;; pf_endfield
  else
    let! c := (if ch =? chr "c" then (let! n := va_int in ret (u8 n)) else ret ch) in
    pf_printstuff [] [] (cstr [c; 0]) ;;; pf_endfield.

Fixpoint send_all (format : str) : M S unit :=
  match format with [] => ret tt | ch :: format' => pf_send ch ;;; send_all format' end.

(** Returns the number of characters. *)
Definition vprintf_ (format : str) (ap : list varg) : M W Z := λ w,
  let pf := mkPF w ap 0 false INTSZ 0 0 0 false 0 0 false false in
  match (pf_endfield ;;; send_all format) pf with
  | Ok _ p => Ok (charcount p) (clientdata p)
  | Err e p => Err e (clientdata p)
  | Panic => Panic
  | Hang => Hang
  end.
End printf.

(** ** printf, into a stream of characters *)

Definition printf_send (data : str) : M (list Z) unit := modify (λ out, out ++ data).
Definition vprintf (fmt : str) (ap : list varg) : M (list Z) Z := vprintf_ printf_send fmt ap.

(** ** snprintf *)

Record SNP := mkSNP { snp_buf : list Z; buflen : Z; bufpos : Z }.

(** A store outside the buffer is a wild one. *)
Definition snp_store (c : Z) : M SNP unit := λ s,
  if (0 <=? bufpos s) && (bufpos s <? zlen (snp_buf s))
  then Ok tt (mkSNP (zset (snp_buf s) (bufpos s) c) (buflen s) (bufpos s)) else Panic.
Fixpoint snprintf_send (data : str) : M SNP unit :=
  match data with
  | [] => ret tt
  | c :: data' =>
      (let! s := get in
       when (bufpos s <? buflen s)
         (snp_store c ;;; modify (λ s, mkSNP (snp_buf s) (buflen s) (u32 (bufpos s + 1))))) ;;;
      snprintf_send data'
  end.

(** Works on the buffer. *)
Definition vsnprintf (len : Z) (fmt : str) (ap : list varg) : M (list Z) Z := λ buf,
  let snp := mkSNP buf (if len =? 0 then 0 else len - 1) 0 in
  match (let! chars := vprintf_ snprintf_send fmt ap in
         when (len >? 0) (snp_store 0) ;;; ret chars) snp with
  | Ok chars s => Ok chars (snp_buf s)
  | Err e s => Err e (snp_buf s)
  | Panic => Panic
  | Hang => Hang
  end.
Definition snprintf (len : Z) (fmt : str) (ap : list varg) : M (list Z) Z := vsnprintf len fmt ap.

(** ** atoi *)

Fixpoint skip_blanks (s : str) : str :=
  match s with
  | c :: s' => if (c =? chr " ") || (c =? 9) then skip_blanks s' else s
  | [] => []
  end.
(** The digits up to the first character that is none; [strchr] finds a NUL at
    the end of the digits, which the loop condition excludes. *)
Fixpoint atoi_loop (s : str) (val : Z) : Z :=
  match s with
  | [] => val
  | c :: s' =>
      match strchr (txt "0123456789" ++ [0]) (schar c) with
      | Some (Some digit) => atoi_loop s' (u32 (val * 10 + digit))
      | _ => val
      end
  end.
Definition atoi (s : str) : Z :=
  let s := skip_blanks s in
  let '(neg, s) := match s with
                   | c :: s' => if c =? chr "-" then (true, s') else if c =? chr "+" then (false, s') else (false, s)
                   | [] => (false, s)
                   end in
  let val := atoi_loop s 0 in
  if neg then i32 (u32 (- val)) else i32 val.
