(* ===== verification/PrintfThm.v ===== *)
(** * Formatted output: what it prints

    The reference: a format is a list of characters and fields, a field prints
    its argument padded to a width.  [vprintf_] sends exactly that text. *)

From Stdlib Require Import Ascii String.
From S2P Require Import Prelude KString Printf.

(** Characters become their codes. *)
Ltac chars := repeat match goal with |- context [chr ?a] => let v := eval vm_compute in (chr a) in change (chr a) with v end.

(** ** The reference *)

Record field := mkfield { f_alt : bool; f_left : bool; f_zero : bool; f_width : Z }.
Definition field0 : field := mkfield false false false 0.
Inductive item := I_char (c : Z) | I_field (f : field) (ch : Z).

(** The width is an [int]. *)
Definition modifier (f : field) (ch : Z) : field :=
  if ch =? chr "#" then mkfield true (f_left f) (f_zero f) (f_width f)
  else if ch =? chr "-" then mkfield (f_alt f) true (f_zero f) (f_width f)
  else if (ch =? chr "l") || (ch =? chr "q") then f
  else if (ch =? chr "0") && (f_width f <=? 0) then mkfield (f_alt f) (f_left f) true (f_width f)
  else mkfield (f_alt f) (f_left f) (f_zero f) (i32 (f_width f * 10 + (ch - chr "0"))).
(** A format that ends inside a field leaves it out. *)
Fixpoint items (fmt : str) (o : option field) : list item :=
  match fmt with
  | [] => []
  | ch :: fmt' =>
      match o with
      | None => if ch =? chr "%" then items fmt' (Some field0) else I_char ch :: items fmt' None
      | Some f => if has_char (txt "#-ql0123456789") ch then items fmt' (Some (modifier f ch))
                  else I_field f ch :: items fmt' None
      end
  end.

(** Zeros go between the prefix and the text, spaces before both; on the right
    whatever the fill character is. *)
Definition pad (f : field) (prefix text : str) : str :=
  let fill := replicate (Z.to_nat (f_width f - zlen (prefix ++ text))) (if f_zero f then chr "0" else chr " ") in
  if f_left f then prefix ++ text ++ fill
  else if f_zero f then prefix ++ fill ++ text else fill ++ prefix ++ text.

(** The numeral of [n] in base [b], [k] being the number of digits. *)
Definition digit_char (d : Z) : Z := if d <? 10 then chr "0" + d else chr "a" + (d - 10).
Fixpoint numeral (k : nat) (b n : Z) : str :=
  match k with O => [] | S k' => numeral k' b (n / b) ++ [digit_char (n mod b)] end.
Fixpoint ndigits (fuel : nat) (b n : Z) : nat :=
  match fuel with O => O | S fuel' => if n <? b then 1 else S (ndigits fuel' b (n / b)) end.
Definition number (b n : Z) : str := numeral (ndigits 32 b n) b n.

Definition base_of (ch : Z) : Z :=
  if (ch =? chr "d") || (ch =? chr "u") then 10 else if ch =? chr "o" then 8 else 16.
Definition number_prefix (f : field) (ch : Z) (neg : bool) : str :=
  (if neg then txt "-" else []) ++
  (if f_alt f || (ch =? chr "p") then (if base_of ch =? 16 then txt "0x" else if base_of ch =? 8 then txt "0" else []) else []).
(** What one item prints, and the arguments left. *)
Definition render1 (it : item) (ap : list varg) : option (str * list varg) :=
  match it with
  | I_char c => Some ([c], ap)
  | I_field f ch =>
      if has_char (txt "doupx") ch then
        match ap with
        | A_int n :: ap' =>
            let neg := (ch =? chr "d") && (i32 n <? 0) in
            let v := if ch =? chr "d" then Z.abs (i32 n) else u32 n in
            Some (pad f (number_prefix f ch neg) (number (base_of ch) v), ap')
        | _ => None
        end
      else if ch =? chr "s" then
        match ap with A_str s :: ap' => Some (pad f [] (default (txt "(null)") s), ap') | _ => None end
      else if ch =? chr "c" then
        match ap with A_int n :: ap' => Some (pad f [] (cstr [u8 n]), ap') | _ => None end
      else Some (pad f [] [ch], ap)
  end.
Fixpoint render (its : list item) (ap : list varg) : option str :=
  match its with
  | [] => Some []
  | it :: its' => '(t, ap') ← render1 it ap; rest ← render its' ap'; Some (t ++ rest)
  end.

(** ** Numerals *)

(** The value of a numeral, the digits being read from the left. *)
Definition digit_value (c : Z) : Z := if c <? chr "a" then c - chr "0" else c - chr "a" + 10.
Definition value (b : Z) (s : str) : Z := foldl (λ v c, v * b + digit_value c) 0 s.

Lemma digit_char_value d : 0 ≤ d < 16 → digit_value (digit_char d) = d.
Proof.
  intros Hd. unfold digit_value, digit_char. change (chr "0") with 48. change (chr "a") with 97.
  destruct (Z.ltb_spec d 10), (Z.ltb_spec (48 + d) 97), (Z.ltb_spec (97 + (d - 10)) 97); lia.
Qed.
Lemma ndigits_bound fuel b n : 2 ≤ b → 0 ≤ n < 2 ^ Z.of_nat fuel → n < b ^ Z.of_nat (ndigits fuel b n) ∧ (ndigits fuel b n ≤ fuel)%nat.
Proof.
  intros Hb. revert n. induction fuel as [|fuel IH]; intros n Hn; [simpl in *; lia|]. cbn [ndigits].
  destruct (Z.ltb_spec n b); [rewrite Z.pow_1_r; split; [lia|lia]|].
  assert (Hd : 0 ≤ n / b < 2 ^ Z.of_nat fuel).
  { split; [apply Z.div_pos; lia|]. apply Z.div_lt_upper_bound; [lia|]. rewrite Nat2Z.inj_succ, Z.pow_succ_r in Hn by lia.
    assert (0 < 2 ^ Z.of_nat fuel) by (apply Z.pow_pos_nonneg; lia). nia. }
  destruct (IH _ Hd) as [H1 H2]. split; [|lia]. rewrite Nat2Z.inj_succ, Z.pow_succ_r by lia.
  pose proof (Z_div_mod_eq_full n b). pose proof (Z.mod_pos_bound n b). nia.
Qed.
Lemma numeral_value k b n : 2 ≤ b ≤ 16 → 0 ≤ n < b ^ Z.of_nat k → value b (numeral k b n) = n.
Proof.
  intros Hb. revert n. induction k as [|k IH]; intros n Hn; [simpl in *; unfold value; simpl; lia|]. cbn [numeral].
  unfold value. rewrite foldl_app. simpl. fold (value b (numeral k b (n / b))). pose proof (Z.mod_pos_bound n b ltac:(lia)).
  rewrite Nat2Z.inj_succ, Z.pow_succ_r in Hn by lia.
  assert (0 ≤ n / b < b ^ Z.of_nat k) by (split; [apply Z.div_pos; lia|apply Z.div_lt_upper_bound; lia]).
  rewrite digit_char_value, IH by lia.
  pose proof (Z_div_mod_eq_full n b). lia.
Qed.
Lemma number_value b n : 2 ≤ b ≤ 16 → 0 ≤ n < 4294967296 → value b (number b n) = n.
Proof.
  intros Hb Hn. apply numeral_value; [done|]. split; [lia|].
  apply (ndigits_bound 32); [lia|]. change (2 ^ Z.of_nat 32) with 4294967296. lia.
Qed.

(** The loop over the digits, in a buffer of 12, has room for every word in
    bases 8, 10 and 16. *)
Lemma digits_txt d : 0 ≤ d < 16 → zget (txt "0123456789abcdef") d = Some (digit_char d).
Proof.
  intros Hd. assert (Hc : ∃ n : nat, (n < 16)%nat ∧ d = Z.of_nat n) by (exists (Z.to_nat d); lia).
  destruct Hc as (n & Hn & ->). do 16 (destruct n as [|n]; [done|]). lia.
Qed.
Lemma digit_loop_S room n b text : digit_loop (S room) n b text =
  (d ← zget (txt "0123456789abcdef") (n mod b); if n / b >? 0 then digit_loop room (n / b) b (d :: text) else Some (d :: text)).
Proof. done. Qed.
Lemma digit_loop_spec fuel room b n text :
  2 ≤ b ≤ 16 → 0 ≤ n < 2 ^ Z.of_nat (S fuel) → n < b ^ Z.of_nat (S room) →
  digit_loop (S room) n b text = Some (numeral (ndigits (S fuel) b n) b n ++ text).
Proof.
  intros Hb. revert fuel n text. induction room as [|room IH]; intros fuel n text Hn Hr; rewrite digit_loop_S; cbn [ndigits];
    pose proof (Z.mod_pos_bound n b ltac:(lia)); rewrite (digits_txt (n mod b)) by lia; cbn [mbind option_bind].
  - rewrite Z.pow_1_r in Hr. rewrite (proj2 (Z.ltb_lt _ _)), (Z.div_small n b) by lia. done.
  - destruct (Z.ltb_spec n b); [rewrite (Z.div_small n b) by lia; done|].
    assert (1 ≤ n / b) by (apply Z.div_le_lower_bound; lia). rewrite (proj2 (Z.gtb_gt _ _)) by lia.
    rewrite Nat2Z.inj_succ, Z.pow_succ_r in Hn, Hr by lia.
    assert (n / b < b ^ Z.of_nat (S room)) by (apply Z.div_lt_upper_bound; lia).
    assert (Hlt : n / b < 2 ^ Z.of_nat fuel) by (apply Z.div_lt_upper_bound; nia).
    destruct fuel as [|fuel]; [simpl in Hlt; lia|]. rewrite (IH fuel) by lia. cbn [numeral]. by rewrite <- app_assoc.
Qed.
Lemma printnum_digits b n : b = 8 ∨ b = 10 ∨ b = 16 → 0 ≤ n < 4294967296 →
  digit_loop (NUMBER_BUF_SIZE - 1) n b [] = Some (number b n).
Proof.
  intros Hb Hn. unfold number. rewrite <- (app_nil_r (numeral _ _ _)). apply (digit_loop_spec 31 10).
  - lia.
  - change (2 ^ Z.of_nat 32) with 4294967296. lia.
  - destruct Hb as [->|[->| ->]]; [change (8 ^ Z.of_nat 11) with 8589934592|change (10 ^ Z.of_nat 11) with 100000000000|change (16 ^ Z.of_nat 11) with 17592186044416]; lia.
Qed.
Lemma number_length b n : b = 8 ∨ b = 10 ∨ b = 16 → 0 ≤ n < 4294967296 → zlen (number b n) ≤ 32.
Proof.
  intros Hb Hn. unfold number.
  assert (Hl : ∀ k m, zlen (numeral k b m) = Z.of_nat k) by (induction k; intros; cbn [numeral]; [done|]; rewrite zlen_app, IHk; unfold zlen; simpl; lia).
  rewrite Hl. destruct (ndigits_bound 32 b n) as [_ H2]; [lia|change (2 ^ Z.of_nat 32) with 4294967296; lia|lia].
Qed.

(** ** Where the text goes *)

(** A sink takes texts one after the other. *)
Class Sink {W} (send : str → M W unit) := {
  sk_ok : W → Prop;
  sk_put : W → str → W;
  sk_nil : ∀ w, sk_ok w → sk_put w [] = w;
  sk_app : ∀ w t t', sk_ok w → sk_put (sk_put w t) t' = sk_put w (t ++ t');
  sk_keep : ∀ w t, sk_ok w → sk_ok (sk_put w t);
  sk_send : ∀ w t, sk_ok w → send t w = Ok tt (sk_put w t);
}.

Section print.
Context {W : Type} (send : str → M W unit) `{!Sink send}.
Implicit Types (p : PF W).

Definition emit (t : str) p : PF W := set_count (charcount p + zlen t) (set_data (sk_put (clientdata p) t) p).
Definition fits (t : str) p : Prop := sk_ok (clientdata p) ∧ 0 ≤ charcount p ∧ charcount p + zlen t < 2147483648.

Lemma emit_app t t' p : sk_ok (clientdata p) → emit t' (emit t p) = emit (t ++ t') p.
Proof.
  intros Hp. unfold emit, set_count, set_data. simpl. rewrite sk_app by done. rewrite zlen_app. f_equal. lia.
Qed.
Lemma emit_nil p : sk_ok (clientdata p) → emit [] p = p.
Proof. intros Hp. unfold emit. rewrite sk_nil by done. rewrite zlen_nil, Z.add_0_r. by destruct p. Qed.
Lemma fits_app t t' p : fits (t ++ t') p → fits t p ∧ fits t' (emit t p).
Proof.
  unfold fits. rewrite zlen_app. intros (? & ? & ?). pose proof (zlen_nonneg t). pose proof (zlen_nonneg t').
  split; [split_and!; [done|lia..]|]. simpl. split_and!; [by apply sk_keep|lia..].
Qed.
Lemma pf_print_spec t p : fits t p → pf_print send t p = Ok tt (emit t p).
Proof.
  intros (Hk & H0 & Hn). unfold pf_print, bind, zoom. rewrite sk_send by done. unfold modify. simpl. pose proof (zlen_nonneg t).
  by rewrite i32_small by lia.
Qed.

(** ** One field *)

Record shaped (f : field) p : Prop := {
  sh_width : spacing p = f_width f;
  sh_left : rightspc p = f_left f;
  sh_fill : fillchar p = if f_zero f then chr "0" else chr " ";
}.
Lemma shaped_emit f t p : shaped f p → shaped f (emit t p).
Proof. intros []. by split. Qed.

Lemma fill_loop n lo c p : fits (replicate n c) p →
  for_range n lo (λ _, pf_print send [c]) p = Ok tt (emit (replicate n c) p).
Proof.
  revert lo p. induction n as [|n IH]; intros lo p Hf; cbn [for_range replicate] in *.
  - rewrite emit_nil; [done|apply Hf].
  - change (c :: replicate n c) with ([c] ++ replicate n c) in *. destruct (fits_app _ _ _ Hf) as [H1 H2].
    rewrite (bind_step _ _ _ tt (emit [c] p)) by by apply pf_print_spec. rewrite IH by done. by rewrite emit_app by apply Hf.
Qed.
Lemma pf_fill_spec n p : fits (replicate (Z.to_nat n) (fillchar p)) p →
  pf_fill send n p = Ok tt (emit (replicate (Z.to_nat n) (fillchar p)) p).
Proof. intros Hf. unfold pf_fill. rewrite (bind_step _ _ _ p p) by done. by apply fill_loop. Qed.

(** [c] sends the text [t], in the middle of a field. *)
Definition prints f (c : M (PF W) unit) (t : str) : Prop := ∀ p, shaped f p → fits t p → c p = Ok tt (emit t p).
Lemma prints_seq f c k t t' : prints f c t → prints f k t' → prints f (c ;;; k) (t ++ t').
Proof.
  intros Hc Hk p Hs Hf. destruct (fits_app _ _ _ Hf) as [H1 H2]. rewrite (bind_step _ _ _ tt (emit t p)) by auto.
  rewrite Hk by (done || by apply shaped_emit). by rewrite emit_app by apply Hf.
Qed.
Lemma prints_text f t : prints f (pf_print send t) t.
Proof. intros p _. apply pf_print_spec. Qed.
Lemma prints_fill f n (q : bool) :
  prints f (when ((Z.max 0 n >? 0) && q) (pf_fill send (Z.max 0 n)))
    (if q then replicate (Z.to_nat n) (if f_zero f then chr "0" else chr " ") else []).
Proof.
  intros p [_ _ <-] Hf. destruct q; [|rewrite andb_false_r, emit_nil by apply Hf; done]. rewrite andb_true_r.
  destruct (Z.gtb_spec (Z.max 0 n) 0) as [Hn|Hn]; cbn [when].
  - rewrite Z.max_r by lia. by apply pf_fill_spec.
  - replace (Z.to_nat n) with O by lia. simpl. rewrite emit_nil by apply Hf. done.
Qed.

Lemma pf_printstuff_spec f a b s :
  -2147483648 ≤ f_width f < 2147483648 → prints f (pf_printstuff send a b s) (pad f (a ++ b) s).
Proof.
  intros Hwr p Hs Hf. pose proof Hs as [Hw Hl Hc]. pose proof (zlen_nonneg a). pose proof (zlen_nonneg b). pose proof (zlen_nonneg s).
  assert (Hlen : zlen a + zlen b + zlen s < 2147483648).
  { destruct Hf as (_ & H2 & Hn). assert (zlen a + zlen b + zlen s ≤ zlen (pad f (a ++ b) s)); [|lia].
    unfold pad. destruct (f_left f), (f_zero f); rewrite !zlen_app, zlen_replicate; lia. }
  unfold pf_printstuff. rewrite (bind_step _ _ _ p p) by done. rewrite (i32_small (zlen a + _ + _)) by lia.
  set (n := f_width f - zlen ((a ++ b) ++ s)). assert (Hn : n = f_width f - (zlen a + zlen b + zlen s)) by (unfold n; rewrite !zlen_app; lia).
  set (spc := if spacing p >? _ then _ else _).
  assert (Hspc : spc = Z.max 0 n).
  { unfold spc. rewrite Hw. destruct (Z.gtb_spec (f_width f) (zlen a + zlen b + zlen s)); [rewrite i32_small; lia|lia]. }
  clearbody spc. rewrite Hspc, Hl. clear Hspc spc.
  assert (Hz : (fillchar p =? chr "0") = f_zero f) by (rewrite Hc; by destruct (f_zero f)). rewrite Hz, <- !andb_assoc.
  set (F (q : bool) := if q then replicate (Z.to_nat n) (if f_zero f then chr "0" else chr " ") else []).
  assert (Hpad : pad f (a ++ b) s = F (negb (f_left f) && negb (f_zero f)) ++ a ++ b ++ F (negb (f_left f) && f_zero f) ++ s ++ F (f_left f)).
  { unfold pad, F. fold n. destruct (f_left f), (f_zero f); simpl; by rewrite ?app_nil_r, <- ?app_assoc. }
  rewrite Hpad in *. revert Hs Hf. generalize p.
  repeat first [apply prints_text | apply prints_fill | apply prints_seq].
Qed.

(** ** Formats *)

Definition fill_of f : Z := if f_zero f then chr "0" else chr " ".
(** Outside a field, and inside one. *)
Definition idle (w : W) (ap : list varg) (n : Z) : PF W := mkPF w ap n false INTSZ 0 0 0 false (chr " ") 0 false false.
Definition inside f (z : intsize) (w : W) (ap : list varg) (n : Z) : PF W :=
  mkPF w ap n true z 0 0 (f_width f) (f_left f) (fill_of f) 0 false (f_alt f).
Definition width_ok f : Prop := -2147483648 ≤ f_width f < 2147483648.

Lemma has_char_in s ch : has_char s ch = true → ch ∈ s.
Proof. intros (x & Hin & <-%Z.eqb_eq)%existsb_exists. by apply list_elem_of_In. Qed.
Lemma modifier_ok f ch : width_ok f → width_ok (modifier f ch).
Proof. intros Hf. unfold modifier, width_ok in *. pose proof (i32_range (f_width f * 10 + (ch - chr "0"))). repeat case_match; simpl; done. Qed.

Lemma pf_modifier_spec f z w ap n ch :
  has_char (txt "#-ql0123456789") ch = true →
  ∃ z', pf_modifier ch (inside f z w ap n) = Ok tt (inside (modifier f ch) z' w ap n).
Proof.
  intros Hch%has_char_in. vm_compute in Hch. unfold pf_modifier, modifier, inside, fill_of.
  repeat (apply elem_of_cons in Hch as [->|Hch]); [..|by apply elem_of_nil in Hch]; cbn -[Z.mul Z.add i32].
  all: try by eexists.
  - destruct z; by eexists.
  - exists z. unfold bind, get, put. cbn -[Z.mul Z.add i32].
    destruct (Z.gtb_spec (f_width f) 0), (Z.leb_spec (f_width f) 0); try lia; simpl; [|done]. by rewrite Z.add_0_r.
Qed.

Lemma shaped_inside f z w ap n num sign base pre : shaped f (mkPF w ap n true z num sign (f_width f) (f_left f) (fill_of f) base pre (f_alt f)).
Proof. by split. Qed.
(** A field is printed and closed. *)
Lemma field_end f c t w ap n z num sign base pre :
  prints f c t → fits t (idle w ap n) →
  (c ;;; pf_endfield) (mkPF w ap n true z num sign (f_width f) (f_left f) (fill_of f) base pre (f_alt f)) =
  Ok tt (idle (sk_put w t) ap (n + zlen t)).
Proof. intros Hc Hf. rewrite (bind_step _ _ _ _ _ (Hc _ (shaped_inside f z w ap n num sign base pre) Hf)). done. Qed.

Lemma send_number f z w k ap n ch :
  has_char (txt "doupx") ch = true → width_ok f →
  let neg := (ch =? chr "d") && (i32 k <? 0) in
  let v := if ch =? chr "d" then Z.abs (i32 k) else u32 k in
  let t := pad f (number_prefix f ch neg) (number (base_of ch) v) in
  fits t (idle w ap n) →
  (pf_getnum ch ;;; pf_setbase ch ;;; pf_printnum send ;;; pf_endfield) (inside f z w (A_int k :: ap) n) =
  Ok tt (idle (sk_put w t) ap (n + zlen t)).
Proof.
  intros Hch Hw neg v t Hf.
  assert (Hv : 0 ≤ v < 4294967296).
  { unfold v. case_match; [pose proof (i32_range k); lia|unfold u32; apply Z.mod_pos_bound; lia]. }
  assert (Hb : base_of ch = 8 ∨ base_of ch = 10 ∨ base_of ch = 16) by (unfold base_of; repeat case_match; auto).
  set (pre := f_alt f || (ch =? chr "p")).
  rewrite (bind_step _ _ _ tt (mkPF w ap n true z v (if neg then -1 else 0) (f_width f) (f_left f) (fill_of f) 0 false (f_alt f))).
  2: { unfold pf_getnum, bind, va_int, get, put, inside. cbn -[i32 u32]. unfold neg, v.
       apply has_char_in in Hch. vm_compute in Hch.
       repeat (apply elem_of_cons in Hch as [->|Hch]); [..|by apply elem_of_nil in Hch]; cbn -[i32 u32]; try by destruct z.
       chars. pose proof (i32_range k). destruct z; (destruct (Z.ltb_spec (i32 k) 0); cbn -[i32 u32]; rewrite u32_small by lia;
         [by rewrite Z.abs_neq by lia|by rewrite Z.abs_eq by lia]). }
  rewrite (bind_step _ _ _ tt (mkPF w ap n true z v (if neg then -1 else 0) (f_width f) (f_left f) (fill_of f) (base_of ch) pre (f_alt f))).
  2: { unfold pf_setbase, modify, set_base, pre, base_of. apply has_char_in in Hch. vm_compute in Hch.
       repeat (apply elem_of_cons in Hch as [->|Hch]); [..|by apply elem_of_nil in Hch]; by destruct (f_alt f). }
  set (p := mkPF w ap n true z v _ _ _ _ _ pre _).
  assert (Hp : pf_printnum send p = pf_printstuff send (if neg then txt "-" else [])
    (if pre then if base_of ch =? 16 then txt "0x" else if base_of ch =? 8 then txt "0" else [] else []) (number (base_of ch) v) p).
  { unfold pf_printnum. rewrite (bind_step _ _ _ p p) by done. rewrite (bind_step _ _ _ tt p).
    2: { unfold kassert. simpl. rewrite (proj2 (Z.eqb_neq _ _)); [done|lia]. }
    rewrite (bind_step _ _ _ (number (base_of ch) v) p) by (unfold or_trap; simpl pf_num; simpl pf_base; by rewrite printnum_digits).
    unfold p. simpl. destruct neg, pre; done. }
  unfold bind at 1. rewrite Hp. apply (field_end f _ t w ap n z v _ _ pre); [|done].
  unfold t, number_prefix. by apply pf_printstuff_spec.
Qed.

Lemma send_field f z w ap n ch t ap' :
  ch ≠ 0 → has_char (txt "#-ql0123456789") ch = false → width_ok f →
  render1 (I_field f ch) ap = Some (t, ap') → fits t (idle w ap' n) →
  pf_send send ch (inside f z w ap n) = Ok tt (idle (sk_put w t) ap' (n + zlen t)).
Proof.
  intros Hch Hm Hw Hr Hf. unfold pf_send. rewrite (bind_step _ _ _ tt (inside f z w ap n)) by (unfold kassert; by rewrite (proj2 (Z.eqb_neq _ _) Hch)).
  rewrite (bind_step _ _ _ (inside f z w ap n) (inside f z w ap n)) by done. cbn [in_pct inside negb andb]. rewrite Hm. cbn [render1] in Hr.
  destruct (has_char (txt "doupx") ch) eqn:Hd.
  { destruct ap as [|[k|s] ap]; simplify_eq. by apply send_number. }
  destruct (ch =? chr "s").
  { destruct ap as [|[k|s] ap]; simplify_eq. rewrite (bind_step _ _ _ s (inside f z w ap' n)) by done.
    apply (field_end f _ _ w ap' n z 0 0 0 false); [|done]. destruct s; by apply (pf_printstuff_spec f [] []). }
  destruct (ch =? chr "c").
  { destruct ap as [|[k|s] ap]; simplify_eq. rewrite (bind_step _ _ _ (u8 k) (inside f z w ap' n)) by done.
    apply (field_end f _ _ w ap' n z 0 0 0 false); [|done]. apply (pf_printstuff_spec f [] []). done. }
  simplify_eq. rewrite (bind_step _ _ _ ch (inside f z w ap' n)) by done.
  apply (field_end f _ _ w ap' n z 0 0 0 false); [|done]. replace (cstr [ch; 0]) with [ch].
  - by apply (pf_printstuff_spec f [] []).
  - cbn [cstr]. by rewrite (proj2 (Z.eqb_neq _ _) Hch).
Qed.

(** The state between two characters of the format. *)
Definition state_for (o : option field) (z : intsize) (w : W) (ap : list varg) (n : Z) : PF W :=
  match o with None => idle w ap n | Some f => inside f z w ap n end.

Lemma send_all_spec fmt : ∀ o z w ap n t,
  Forall (λ c, c ≠ 0) fmt → (∀ f, o = Some f → width_ok f) → render (items fmt o) ap = Some t → fits t (idle w ap n) →
  ∃ p, send_all send fmt (state_for o z w ap n) = Ok tt p ∧ clientdata p = sk_put w t ∧ charcount p = n + zlen t.
Proof.
  induction fmt as [|ch fmt IH]; intros o z w ap n t Hch Ho Hr Hf.
  { injection Hr as <-. exists (state_for o z w ap n). destruct o; simpl; rewrite zlen_nil, sk_nil by apply Hf; split_and!; done || lia. }
  apply Forall_cons in Hch as [Hch Hrest]. cbn [items send_all] in *.
  assert (Hstep : ∀ it its t1 ap1, render1 it ap = Some (t1, ap1) → items fmt None = its → render (it :: its) ap = Some t →
    (fits t1 (idle w ap1 n) → pf_send send ch (state_for o z w ap n) = Ok tt (idle (sk_put w t1) ap1 (n + zlen t1))) →
    ∃ p, (pf_send send ch ;;; send_all send fmt) (state_for o z w ap n) = Ok tt p ∧ clientdata p = sk_put w t ∧ charcount p = n + zlen t).
  { intros it its t1 ap1 H1 Hits Ht Hs. cbn [render] in Ht. rewrite H1 in Ht. cbn in Ht. destruct (render its ap1) as [t2|] eqn:H2; [|done].
    injection Ht as <-. destruct (fits_app _ _ _ Hf) as [Hf1 Hf2].
    destruct (IH None INTSZ (sk_put w t1) ap1 (n + zlen t1) t2) as (p & Hp & Hc & Hn); [done|done|by rewrite Hits|done|].
    exists p. rewrite (bind_step _ _ _ tt (idle (sk_put w t1) ap1 (n + zlen t1))) by by apply Hs.
    split; [exact Hp|]. rewrite Hc, Hn, sk_app, zlen_app by apply Hf. split; [done|lia]. }
  assert (Ha : kassert (negb (ch =? 0)) (state_for o z w ap n) = Ok tt (state_for o z w ap n)) by (unfold kassert; by rewrite (proj2 (Z.eqb_neq _ _) Hch)).
  destruct o as [f|].
  - destruct (has_char (txt "#-ql0123456789") ch) eqn:Hm.
    + destruct (pf_modifier_spec f z w ap n ch Hm) as [z' Hz].
      destruct (IH (Some (modifier f ch)) z' w ap n t) as (p & Hp & ?); [done|intros ? [= <-]; by apply modifier_ok, Ho|done|done|].
      exists p. split; [|done]. rewrite (bind_step _ _ _ tt (inside (modifier f ch) z' w ap n)); [done|].
      unfold pf_send. rewrite (bind_step _ _ _ _ _ Ha), (bind_step _ _ _ (inside f z w ap n) (inside f z w ap n)) by done.
      cbn [in_pct inside negb andb]. by rewrite Hm.
    + destruct (render1 (I_field f ch) ap) as [[t1 ap1]|] eqn:H1; [|by cbn [render] in Hr; rewrite H1 in Hr].
      eapply Hstep; [exact H1|done|done|]. intros Hf1. apply send_field; auto.
  - destruct (Z.eqb_spec ch (chr "%")) as [->|Hne].
    + destruct (IH (Some field0) INTSZ w ap n t) as (p & Hp & ?); [done|by intros ? [= <-]|done|done|]. exists p. split; [|done].
      rewrite (bind_step _ _ _ tt (inside field0 INTSZ w ap n)); done.
    + eapply (Hstep (I_char ch)); [done|done|done|]. intros Hf1. unfold pf_send. rewrite (bind_step _ _ _ _ _ Ha).
      unfold bind, get. simpl. rewrite (proj2 (Z.eqb_neq _ _) Hne). simpl. by apply pf_print_spec.
Qed.
End print.

(** ** Streams and buffers *)

#[global] Program Instance printf_sink : Sink printf_send := {| sk_ok _ := True; sk_put := app |}.
Next Obligation. intros w _. apply app_nil_r. Qed.
Next Obligation. intros w t t' _. by rewrite app_assoc. Qed.
Next Obligation. done. Qed.
Next Obligation. done. Qed.

(** As much of the text as there is room for. *)
Definition snp_put (s : SNP) (t : str) : SNP :=
  let t := ztake (buflen s - bufpos s) t in mkSNP (splice (snp_buf s) (bufpos s) t) (buflen s) (bufpos s + zlen t).
Definition snp_ok (s : SNP) : Prop := 0 ≤ bufpos s ≤ buflen s ∧ buflen s ≤ zlen (snp_buf s) ∧ buflen s < 4294967296.

Lemma snp_put_app s t t' : snp_ok s → snp_put (snp_put s t) t' = snp_put s (t ++ t').
Proof.
  intros (Hp & Hb & _). unfold snp_put. simpl. set (room := buflen s - bufpos s) in *.
  rewrite (ztake_app room) by lia. pose proof (zlen_ztake_min room t ltac:(lia)) as Hl. pose proof (zlen_nonneg t).
  assert (ztake (buflen s - (bufpos s + zlen (ztake room t))) t' = ztake (room - zlen t) t') as ->.
  { rewrite Hl. unfold ztake. f_equal. unfold room in *. lia. }
  assert (zlen (ztake (room - zlen t) t') ≤ room - zlen (ztake room t)).
  { destruct (decide (0 ≤ room - zlen t)); [rewrite zlen_ztake_min by lia; lia|]. unfold ztake at 1.
    replace (Z.to_nat (room - zlen t)) with O by lia. rewrite take_0, zlen_nil. lia. }
  rewrite splice_splice by lia. rewrite zlen_app. f_equal. lia.
Qed.
Lemma snp_put_ok s t : snp_ok s → snp_ok (snp_put s t).
Proof.
  intros (Hp & Hb & Hm). unfold snp_put. simpl. pose proof (zlen_ztake_min (buflen s - bufpos s) t ltac:(lia)). pose proof (zlen_nonneg t).
  unfold snp_ok. simpl. rewrite zlen_splice by lia. lia.
Qed.
Lemma snp_put_char s c : snp_ok s → snp_put s [c] =
  if bufpos s <? buflen s then mkSNP (zset (snp_buf s) (bufpos s) c) (buflen s) (bufpos s + 1) else s.
Proof.
  intros (Hp & Hb & _). unfold snp_put. destruct (Z.ltb_spec (bufpos s) (buflen s)).
  - rewrite ztake_all by (unfold zlen; simpl; lia). f_equal. rewrite <- (splice_cons _ _ _ []) by lia. apply splice_nil.
  - replace (buflen s - bufpos s) with 0 by lia. rewrite ztake_0, splice_nil, zlen_nil, Z.add_0_r. by destruct s.
Qed.
Lemma snprintf_send_spec s t : snp_ok s → snprintf_send t s = Ok tt (snp_put s t).
Proof.
  revert s. induction t as [|c t IH]; intros s Hs.
  - unfold snp_put. unfold ztake. rewrite take_nil, splice_nil, zlen_nil, Z.add_0_r. by destruct s.
  - change (c :: t) with ([c] ++ t). rewrite <- snp_put_app by done. rewrite <- IH by by apply snp_put_ok. cbn [snprintf_send app].
    apply (bind_step _ (λ _, snprintf_send t) s tt). rewrite snp_put_char by done. unfold bind at 1, get. destruct Hs as (Hp & Hb & Hm).
    destruct (Z.ltb_spec (bufpos s) (buflen s)); [|done]. cbn [when]. unfold bind, snp_store.
    rewrite (proj2 (Z.leb_le _ _)), (proj2 (Z.ltb_lt (bufpos s) (zlen _))) by lia. unfold modify. simpl. by rewrite u32_small by lia.
Qed.
#[global] Program Instance snprintf_sink : Sink snprintf_send := {| sk_ok := snp_ok; sk_put := snp_put |}.
Next Obligation.
  intros s _. unfold snp_put, ztake. rewrite take_nil, splice_nil, zlen_nil, Z.add_0_r. by destruct s.
Qed.
Next Obligation. apply snp_put_app. Qed.
Next Obligation. apply snp_put_ok. Qed.
Next Obligation. apply snprintf_send_spec. Qed.

Section whole.
Context {W : Type} (send : str → M W unit) `{!Sink send}.
Lemma vprintf_spec fmt ap w text :
  Forall (λ c, c ≠ 0) fmt → render (items fmt None) ap = Some text → sk_ok w → zlen text < 2147483648 →
  vprintf_ send fmt ap w = Ok (zlen text) (sk_put w text).
Proof.
  intros Hfmt Hr Hw Hlen. unfold vprintf_. rewrite (bind_step _ _ _ tt (idle w ap 0)) by done.
  destruct (send_all_spec send fmt None INTSZ w ap 0 text) as (p & Hp & Hc & Hn); [done..| |].
  - by split_and!.
  - simpl in Hp. by rewrite Hp, Hc, Hn.
Qed.
End whole.

Lemma snprintf_spec fmt ap len buf text :
  Forall (λ c, c ≠ 0) fmt → render (items fmt None) ap = Some text → zlen text < 2147483648 →
  0 ≤ len ≤ zlen buf → len < 4294967296 →
  snprintf len fmt ap buf =
  Ok (zlen text) (if decide (len = 0) then buf else splice buf 0 (ztake (len - 1) text ++ [0])).
Proof.
  intros Hfmt Hr Hlen Hb Hm. unfold snprintf, vsnprintf. set (s := mkSNP buf _ 0).
  assert (Hs : snp_ok s) by (unfold s, snp_ok; simpl; destruct (Z.eqb_spec len 0); lia).
  rewrite (bind_step _ _ _ (zlen text) (snp_put s text)) by exact (vprintf_spec snprintf_send fmt ap s text Hfmt Hr Hs Hlen).
  destruct (decide (len = 0)) as [->|Hne].
  - unfold bind, when, ret, snp_put. change (buflen s - bufpos s) with 0. rewrite ztake_0, splice_nil. done.
  - assert (Hbl : buflen s = len - 1) by (unfold s; simpl; by rewrite (proj2 (Z.eqb_neq _ _) Hne)).
    rewrite (proj2 (Z.gtb_gt _ _)) by lia. unfold bind, when, ret. unfold snp_put. rewrite Hbl. unfold snp_store. cbn [bufpos snp_buf s].
    rewrite Z.sub_0_r, Z.add_0_l. pose proof (zlen_ztake_min (len - 1) text ltac:(lia)) as Hl. pose proof (zlen_nonneg text).
    assert (Hz : zlen (splice buf 0 (ztake (len - 1) text)) = zlen buf) by (apply zlen_splice; lia).
    rewrite (proj2 (Z.leb_le _ _)), (proj2 (Z.ltb_lt _ _)) by lia. simpl. f_equal.
    rewrite <- (splice_nil (zset _ _ _) (zlen (ztake (len - 1) text) + 1)), splice_cons by lia.
    rewrite <- splice_splice; [by rewrite Z.add_0_l|lia|change (zlen [0]) with 1; lia].
Qed.

(** ** Reading numbers back *)

Definition is_digit (c : Z) : Prop := 48 ≤ c ≤ 57.
Lemma digit_nat c : is_digit c → ∃ n : nat, (n < 10)%nat ∧ c = 48 + Z.of_nat n.
Proof. intros Hc. exists (Z.to_nat (c - 48)). unfold is_digit in *. lia. Qed.
Lemma digit_index c : is_digit c → strchr (txt "0123456789" ++ [0]) (schar c) = Some (Some (digit_value c)).
Proof.
  intros (n & Hn & ->)%digit_nat. do 10 (destruct n as [|n]; [done|]). lia.
Qed.
Lemma atoi_loop_spec s val : Forall is_digit s →
  atoi_loop s (u32 val) = u32 (foldl (λ v c, v * 10 + digit_value c) val s).
Proof.
  intros Hs. revert val. induction Hs as [|c s Hc _ IH]; intros val; [done|]. cbn [atoi_loop foldl]. rewrite digit_index by done.
  rewrite <- IH. f_equal. unfold u32. by rewrite Z.add_mod, Z.mul_mod_idemp_l, <- Z.add_mod by lia.
Qed.
Lemma numeral_digits k n : Forall is_digit (numeral k 10 n).
Proof.
  revert n. induction k as [|k IH]; intros n; cbn [numeral]; [done|]. apply Forall_app. split; [apply IH|]. constructor; [|done].
  pose proof (Z.mod_pos_bound n 10 ltac:(lia)). unfold is_digit, digit_char. rewrite (proj2 (Z.ltb_lt _ _)) by lia. change (chr "0") with 48. lia.
Qed.
Lemma ndigits_pos fuel b n : ∃ k, ndigits (S fuel) b n = S k.
Proof. destruct (n <? b) eqn:Hb; simpl; rewrite Hb; by eexists. Qed.
Lemma number_nonempty b n : number b n ≠ [].
Proof. unfold number. destruct (ndigits_pos 31 b n) as [k ->]. cbn [numeral]. intros He%(f_equal length). rewrite length_app in He. simpl in He. lia. Qed.
(** The decimal text of an [int]. *)
Definition decimal (n : Z) : str := (if n <? 0 then txt "-" else []) ++ number 10 (Z.abs n).

Lemma atoi_unsigned c s : is_digit c → atoi (c :: s) = i32 (atoi_loop (c :: s) 0).
Proof.
  intros (n & Hn & ->)%digit_nat. do 10 (destruct n as [|n]; [done|]). lia.
Qed.
Lemma atoi_decimal n : -2147483648 ≤ n < 2147483648 → atoi (decimal n) = n.
Proof.
  intros Hn. assert (Hv : value 10 (number 10 (Z.abs n)) = Z.abs n) by (apply number_value; lia).
  assert (Hd : Forall is_digit (number 10 (Z.abs n))) by apply numeral_digits.
  assert (Hl : atoi_loop (number 10 (Z.abs n)) 0 = Z.abs n).
  { change 0 with (u32 0) at 1. rewrite atoi_loop_spec by done. fold (value 10 (number 10 (Z.abs n))). rewrite Hv. apply u32_small. lia. }
  unfold decimal. destruct (Z.ltb_spec n 0).
  - change (i32 (u32 (- atoi_loop (number 10 (Z.abs n)) 0)) = n). rewrite Hl, Z.abs_neq by lia.
    rewrite Z.opp_involutive. unfold i32, u32. rewrite Z.add_mod_idemp_l by lia. rewrite Z.mod_small; lia.
  - rewrite app_nil_l. destruct (number 10 (Z.abs n)) as [|c s] eqn:Hs; [by apply number_nonempty in Hs|].
    apply Forall_cons in Hd as [Hc _]. rewrite atoi_unsigned by done.
    rewrite Hl, Z.abs_eq by lia. apply i32_small. lia.
Qed.

Lemma numeral_length k b n : zlen (numeral k b n) = Z.of_nat k.
Proof. revert n. induction k as [|k IH]; intros n; cbn [numeral]; [done|]. rewrite zlen_app, IH. change (zlen [digit_char (n mod b)]) with 1. lia. Qed.
Lemma ndigits_le fuel k b n : 2 ≤ b → 0 ≤ n < b ^ Z.of_nat (S k) → (ndigits fuel b n ≤ S k)%nat.
Proof.
  intros Hb. revert k n. induction fuel as [|fuel IH]; intros k n Hn; cbn [ndigits]; [lia|]. destruct (Z.ltb_spec n b); [lia|].
  destruct k as [|k]; [rewrite Z.pow_1_r in Hn; lia|]. rewrite Nat2Z.inj_succ, Z.pow_succ_r in Hn by lia.
  assert (ndigits fuel b (n / b) ≤ S k)%nat; [|lia]. apply IH. split; [apply Z.div_pos; lia|apply Z.div_lt_upper_bound; lia].
Qed.
Lemma decimal_length n : -2147483648 ≤ n < 2147483648 → zlen (decimal n) ≤ 11.
Proof.
  intros Hn. unfold decimal, number. rewrite zlen_app, numeral_length.
  assert (ndigits 32 10 (Z.abs n) ≤ 10)%nat by (apply ndigits_le; [lia|change (10 ^ Z.of_nat 10) with 10000000000; lia]).
  destruct (n <? 0); [change (zlen (txt "-")) with 1|rewrite zlen_nil]; lia.
Qed.
Lemma decimal_chars n : Forall (λ c, c ≠ 0) (decimal n).
Proof.
  unfold decimal. apply Forall_app. split; [destruct (n <? 0); by repeat constructor|].
  eapply Forall_impl; [apply numeral_digits|]. unfold is_digit. lia.
Qed.
Lemma cstr_app d rest : Forall (λ c, c ≠ 0) d → cstr (d ++ 0 :: rest) = d.
Proof. induction 1 as [|c d Hc _ IH]; simpl; [done|]. rewrite (proj2 (Z.eqb_neq _ _) Hc). by rewrite IH. Qed.
Lemma render_decimal n : -2147483648 ≤ n < 2147483648 → render (items (txt "%d") None) [A_int n] = Some (decimal n).
Proof.
  intros Hn. change (items (txt "%d") None) with [I_field field0 (chr "d")].
  assert (H1 : render1 (I_field field0 (chr "d")) [A_int n] = Some (decimal n, [])).
  { unfold render1. change (has_char (txt "doupx") (chr "d")) with true. change (chr "d" =? chr "d") with true. cbv iota zeta.
    rewrite i32_small by done. change (base_of (chr "d")) with 10.
    replace (number_prefix field0 (chr "d") (true && (n <? 0))) with (if n <? 0 then txt "-" else []) by by destruct (n <? 0).
    fold (decimal n). unfold pad. fold (decimal n). cbn [f_left f_zero f_width field0].
    pose proof (zlen_nonneg (decimal n)). by replace (Z.to_nat (0 - zlen (decimal n))) with O by lia. }
  cbn [render]. rewrite H1. cbn. by rewrite app_nil_r.
Qed.

(** ** The claims *)




(** C35 A number printed in decimal is read back by [atoi], the smallest
    [int] included. *)
Theorem snprintf_atoi n len buf :
  -2147483648 ≤ n < 2147483648 → 12 ≤ len ≤ zlen buf → len < 4294967296 →
  ∃ buf', snprintf len (txt "%d") [A_int n] buf = Ok (zlen (decimal n)) buf' ∧ atoi (cstr buf') = n.
Proof.
  intros Hn Hlen Hm. pose proof (decimal_length n Hn).
  eexists. split; [apply snprintf_spec; [by repeat constructor|by apply render_decimal|lia..]|].
  rewrite decide_False, ztake_all by lia. unfold splice. rewrite ztake_0, app_nil_l, <- app_assoc. simpl app.
  rewrite cstr_app by apply decimal_chars. by apply atoi_decimal.
Qed.
Lemma snprintf_atoi_witness :
  ∃ buf', snprintf 12 (txt "%d") [A_int (-2147483648)] (replicate 12 7) = Ok 11 buf' ∧ atoi (cstr buf') = -2147483648.
Proof. apply (snprintf_atoi (-2147483648) 12 (replicate 12 7)); [lia|done|done]. Defined.

(** With both flags the zeros are put behind the number. *)
Lemma left_zero_fill : vprintf (txt "%-05d") [A_int 42] [] = Ok 5 (txt "42000").
Proof. reflexivity. Qed.
