(* ===== verification/CopyInOut.v ===== *)
(** * Copying between user and kernel memory (kern/lib/copyinout.c)

    User memory is a partial map from addresses to bytes: an address that is
    absent is one whose access takes a fatal fault, upon which the trap code
    resumes in [copyfail] and the copy routine returns EFAULT through
    [setjmp].  The kernel side of a copy is one kernel object, a list of
    bytes, and an offset in it. *)

From S2P Require Import Prelude.

(** kern/arch/mips/include/vm.h *)
Definition MIPS_KSEG0 : Z := 2147483648.
Definition USERTOP : Z := MIPS_KSEG0.

Record cstate := mkcstate { c_user : gmap Z Z; c_kbuf : list Z }.

(** [Some stoplen], or [None] for EFAULT. *)
Definition copycheck (userptr len : Z) : option Z :=
  let bot := userptr in
  let top := u32 (u32 (bot + len) - 1) in
  if top <? bot then None
  else if bot >=? USERTOP then None
  else if top >=? USERTOP then Some (USERTOP - bot)
  else Some len.

(** One byte of [memcpy]: a store outside the kernel object is reported as a
    panic, a user access that faults as EFAULT. *)
Definition get_user (ua : Z) : M cstate Z := λ s,
  match c_user s !! ua with Some b => Ok b s | None => Err EFAULT s end.
Definition put_user (ua b : Z) : M cstate unit := λ s,
  match c_user s !! ua with
  | Some _ => Ok tt (mkcstate (<[ua := b]> (c_user s)) (c_kbuf s))
  | None => Err EFAULT s
  end.
Definition get_kern (k : Z) : M cstate Z := λ s,
  match zget (c_kbuf s) k with Some b => Ok b s | None => Panic end.
Definition put_kern (k b : Z) : M cstate unit := λ s,
  match zget (c_kbuf s) k with
  | Some _ => Ok tt (mkcstate (c_user s) (zset (c_kbuf s) k b))
  | None => Panic
  end.

Definition copyin (usersrc dest len : Z) : M cstate unit :=
  match copycheck usersrc len with
  | None => fail EFAULT
  | Some stoplen =>
      if negb (stoplen =? len) then fail EFAULT
      else for_range (Z.to_nat len) 0 (λ i,
             let! b := get_user (usersrc + i) in put_kern (dest + i) b)
  end.

Definition copyout (src userdest len : Z) : M cstate unit :=
  match copycheck userdest len with
  | None => fail EFAULT
  | Some stoplen =>
      if negb (stoplen =? len) then fail EFAULT
      else for_range (Z.to_nat len) 0 (λ i,
             let! b := get_kern (src + i) in put_user (userdest + i) b)
  end.

(** The loop of [copystr] from index [i]; [get] and [put] are the source and
    the destination.  The result is [*gotlen]. *)
Fixpoint copystr_loop (get : Z → M cstate Z) (put : Z → Z → M cstate unit)
  (fuel : nat) (i maxlen stoplen : Z) : M cstate Z :=
  if (i <? maxlen) && (i <? stoplen) then
    match fuel with
    | O => hang
    | S fuel' =>
        let! b := get i in
        put i b ;;;
        if b =? 0 then ret (i + 1)
        else copystr_loop get put fuel' (i + 1) maxlen stoplen
    end
  else if stoplen <? maxlen then fail EFAULT
  else fail ENAMETOOLONG.

Definition copystr (get : Z → M cstate Z) (put : Z → Z → M cstate unit)
  (maxlen stoplen : Z) : M cstate Z :=
  copystr_loop get put (Z.to_nat maxlen) 0 maxlen stoplen.

Definition copyinstr (usersrc dest len : Z) : M cstate Z :=
  match copycheck usersrc len with
  | None => fail EFAULT
  | Some stoplen =>
      copystr (λ i, get_user (usersrc + i)) (λ i b, put_kern (dest + i) b) len stoplen
  end.

Definition copyoutstr (src userdest len : Z) : M cstate Z :=
  match copycheck userdest len with
  | None => fail EFAULT
  | Some stoplen =>
      copystr (λ i, get_kern (src + i)) (λ i b, put_user (userdest + i) b) len stoplen
  end.

(** ** Specifications *)

(** The [n] user bytes from [ua] on, if all of them can be read. *)
Fixpoint user_bytes (m : gmap Z Z) (ua : Z) (n : nat) : option (list Z) :=
  match n with
  | O => Some []
  | S n => b ← m !! ua; d ← user_bytes m (ua + 1) n; Some (b :: d)
  end.

(** User memory with [d] stored from [ua] on. *)
Fixpoint user_store (m : gmap Z Z) (ua : Z) (d : list Z) : gmap Z Z :=
  match d with
  | [] => m
  | b :: d => user_store (<[ua := b]> m) (ua + 1) d
  end.

Definition in_user (ua len : Z) : Prop := 0 ≤ ua ∧ 0 < len ∧ ua + len ≤ USERTOP.

(** [copycheck] accepts a nonempty region whole exactly when it lies below
    the kernel. *)
Lemma copycheck_spec ua len :
  0 ≤ ua < 4294967296 → 0 < len < 4294967296 →
  match copycheck ua len with
  | Some stop => ua < USERTOP ∧ ua + len ≤ 4294967296 ∧ stop = Z.min len (USERTOP - ua)
  | None => USERTOP ≤ ua ∨ 4294967296 < ua + len
  end.
Proof.
  intros Hu Hl. unfold copycheck, USERTOP, MIPS_KSEG0.
  assert (Htop : u32 (u32 (ua + len) - 1) =
    if 4294967296 <? ua + len then ua + len - 1 - 4294967296 else ua + len - 1).
  { unfold u32. destruct (Z.ltb_spec 4294967296 (ua + len)); Z.div_mod_to_equations; lia. }
  rewrite Htop. repeat case_match; simplify_eq; lia.
Qed.

Lemma copycheck_ok ua len : in_user ua len → copycheck ua len = Some len.
Proof.
  unfold in_user, USERTOP, MIPS_KSEG0. intros (? & ? & ?).
  pose proof (copycheck_spec ua len) as Hc. unfold USERTOP, MIPS_KSEG0 in Hc.
  destruct (copycheck ua len); [|lia]. f_equal. lia.
Qed.

Lemma user_bytes_length m ua n d : user_bytes m ua n = Some d → length d = n.
Proof.
  revert ua d. induction n as [|n IH]; intros ua d Hd; simplify_eq/=; [done|].
  apply bind_Some in Hd as (b & _ & Hd). apply bind_Some in Hd as (d' & Hd' & Hd).
  simplify_eq/=. f_equal. eauto.
Qed.

(** [s'] differs from [s] only in the kernel bytes [dest .. dest + len - 1]. *)
Definition kern_frame (s s' : cstate) (dest len : Z) : Prop :=
  c_user s' = c_user s ∧ zlen (c_kbuf s') = zlen (c_kbuf s) ∧
  ∀ k, ¬ (dest ≤ k < dest + len) → zget (c_kbuf s') k = zget (c_kbuf s) k.

Lemma kern_frame_step s s' dest len b :
  0 < len → kern_frame (mkcstate (c_user s) (zset (c_kbuf s) dest b)) s' (dest + 1) (len - 1) →
  kern_frame s s' dest len.
Proof.
  intros Hl (Hu & Hlen & Hk). simpl in *. rewrite zlen_zset in Hlen. split_and!; [done..|].
  intros k Hk'. rewrite Hk by lia. apply zget_zset_ne. lia.
Qed.

Lemma wp_get_user ua Q (E : errno → cstate → Prop) s :
  (∀ b, c_user s !! ua = Some b → Q b s) → (c_user s !! ua = None → E EFAULT s) →
  wp (get_user ua) Q E s.
Proof. unfold wp, get_user. destruct (c_user s !! ua); auto. Qed.
Lemma wp_put_user ua b Q (E : errno → cstate → Prop) s :
  (is_Some (c_user s !! ua) → Q tt (mkcstate (<[ua := b]> (c_user s)) (c_kbuf s))) →
  (c_user s !! ua = None → E EFAULT s) → wp (put_user ua b) Q E s.
Proof. unfold wp, put_user. destruct (c_user s !! ua); eauto. Qed.
Lemma wp_get_kern k b Q (E : errno → cstate → Prop) s :
  zget (c_kbuf s) k = Some b → Q b s → wp (get_kern k) Q E s.
Proof. unfold wp, get_kern. by intros ->. Qed.
Lemma wp_put_kern k b Q (E : errno → cstate → Prop) s :
  0 ≤ k < zlen (c_kbuf s) → Q tt (mkcstate (c_user s) (zset (c_kbuf s) k b)) →
  wp (put_kern k b) Q E s.
Proof.
  intros Hk HQ. unfold wp, put_kern. by destruct (zget_is_Some (c_kbuf s) k Hk) as [x ->].
Qed.

Lemma copyin_loop n usersrc dest lo s :
  0 ≤ dest + lo → dest + lo + Z.of_nat n ≤ zlen (c_kbuf s) →
  wp (for_range n lo (λ i, let! b := get_user (usersrc + i) in put_kern (dest + i) b))
     (λ _ s', ∃ d, user_bytes (c_user s) (usersrc + lo) n = Some d ∧
                   s' = mkcstate (c_user s) (splice (c_kbuf s) (dest + lo) d))
     (λ e s', e = EFAULT ∧ user_bytes (c_user s) (usersrc + lo) n = None ∧
              kern_frame s s' (dest + lo) (Z.of_nat n)) s.
Proof.
  revert lo s. induction n as [|n IH]; intros lo s Hd Hlen; simpl.
  { exists []. rewrite splice_nil. by destruct s. }
  wp_bind. wp_bind. apply wp_get_user; [|by intros ->].
  intros b Hb. rewrite Hb. apply wp_put_kern; [lia|]. simpl.
  wp_use IH; simpl; rewrite ?zlen_zset; [lia|lia|..].
  - intros [] s' (d & Hd' & ->). exists (b :: d). rewrite Z.add_assoc in Hd'. rewrite Hd'.
    simpl. split; [done|]. by rewrite Z.add_assoc, splice_cons by lia.
  - intros e s' (-> & Hn & Hf). rewrite Z.add_assoc in Hn. rewrite Hn. split_and!; try done.
    apply (kern_frame_step _ _ _ _ b); [lia|]. rewrite Z.add_assoc in Hf.
    replace (Z.of_nat (S n) - 1) with (Z.of_nat n) by lia. done.
Qed.

Lemma copyout_loop n src userdest lo s d :
  ztake (Z.of_nat n) (zdrop (src + lo) (c_kbuf s)) = d →
  0 ≤ src + lo → src + lo + Z.of_nat n ≤ zlen (c_kbuf s) →
  wp (for_range n lo (λ i, let! b := get_kern (src + i) in put_user (userdest + i) b))
     (λ _ s', s' = mkcstate (user_store (c_user s) (userdest + lo) d) (c_kbuf s) ∧
              is_Some (user_bytes (c_user s) (userdest + lo) n))
     (λ e s', e = EFAULT ∧ user_bytes (c_user s) (userdest + lo) n = None ∧
              c_kbuf s' = c_kbuf s) s.
Proof.
  revert lo s d. induction n as [|n IH]; intros lo s d Hd Hlo Hlen; simpl.
  { subst. simpl. by destruct s. }
  destruct (zget_is_Some (c_kbuf s) (src + lo)) as [x Hx]; [lia|].
  assert (Hd' : d = x :: ztake (Z.of_nat n) (zdrop (src + (lo + 1)) (c_kbuf s))).
  { subst d. unfold zget in Hx. rewrite decide_True in Hx by lia. unfold ztake, zdrop.
    rewrite (drop_S _ x) by done.
    replace (Z.to_nat (Z.of_nat (S n))) with (S n) by lia. simpl.
    rewrite Nat2Z.id. by replace (Z.to_nat (src + (lo + 1))) with (S (Z.to_nat (src + lo))) by lia. }
  wp_bind. wp_bind. apply (wp_get_kern _ x); [done|].
  apply wp_put_user; [|by intros ->]. intros [b Hb]. rewrite Hb. simpl.
  assert (Hub : ∀ k m, user_bytes (<[userdest + lo := x]> m) (userdest + lo + 1 + Z.of_nat k) n
            = user_bytes m (userdest + lo + 1 + Z.of_nat k) n).
  { clear. induction n as [|n IHn]; intros k m; [done|]. simpl.
    rewrite lookup_insert_ne by lia.
    replace (userdest + lo + 1 + Z.of_nat k + 1) with (userdest + lo + 1 + Z.of_nat (S k)) by lia.
    by rewrite IHn. }
  specialize (Hub 0%nat (c_user s)). rewrite Z.add_0_r in Hub.
  wp_use (IH (lo + 1) (mkcstate (<[userdest + lo:=x]> (c_user s)) (c_kbuf s)));
    simpl; [done|lia|lia|..].
  - intros [] s' [-> [d' Hs']]. rewrite Z.add_assoc, Hub in Hs'. rewrite Hs'. simpl.
    split; [|eauto]. by rewrite Hd', Z.add_assoc.
  - intros e s' (-> & Hn & Hk). rewrite Z.add_assoc, Hub in Hn. by rewrite Hn.
Qed.

(** The routine copies the whole region or returns EFAULT. *)
Lemma copyin_spec usersrc dest len s :
  0 ≤ usersrc < 4294967296 → 0 < len < 4294967296 →
  0 ≤ dest → dest + len ≤ zlen (c_kbuf s) →
  wp (copyin usersrc dest len)
     (λ _ s', in_user usersrc len ∧
        ∃ d, user_bytes (c_user s) usersrc (Z.to_nat len) = Some d ∧
             s' = mkcstate (c_user s) (splice (c_kbuf s) dest d))
     (λ e s', e = EFAULT ∧ kern_frame s s' dest len ∧
        (¬ in_user usersrc len ∨ user_bytes (c_user s) usersrc (Z.to_nat len) = None)) s.
Proof.
  intros Hu Hl Hd Hb. unfold copyin. pose proof (copycheck_spec usersrc len Hu Hl) as Hc.
  assert (Hfr : kern_frame s s dest len) by done.
  unfold in_user. destruct (copycheck usersrc len) as [stop|].
  - destruct Hc as (? & ? & ->). destruct (Z.eqb_spec (len `min` (USERTOP - usersrc)) len) as [Hstop|Hstop].
    + simpl. wp_use (copyin_loop (Z.to_nat len) usersrc dest 0); [lia|lia|..];
        rewrite ?Z.add_0_r.
      * intros [] s' Hs'. split; [lia|done].
      * intros e s' (-> & ? & Hf). rewrite Z2Nat.id in Hf by lia. auto.
    + apply wp_fail. split_and!; [done|done|]. left. lia.
  - apply wp_fail. split_and!; [done|done|]. left. unfold USERTOP, MIPS_KSEG0 in *. lia.
Qed.

Lemma copyout_spec src userdest len s :
  0 ≤ userdest < 4294967296 → 0 < len < 4294967296 →
  0 ≤ src → src + len ≤ zlen (c_kbuf s) →
  wp (copyout src userdest len)
     (λ _ s', in_user userdest len ∧
        is_Some (user_bytes (c_user s) userdest (Z.to_nat len)) ∧
        s' = mkcstate (user_store (c_user s) userdest (ztake len (zdrop src (c_kbuf s))))
               (c_kbuf s))
     (λ e s', e = EFAULT ∧ c_kbuf s' = c_kbuf s ∧
        (¬ in_user userdest len ∨ user_bytes (c_user s) userdest (Z.to_nat len) = None)) s.
Proof.
  intros Hu Hl Hd Hb. unfold copyout. pose proof (copycheck_spec userdest len Hu Hl) as Hc.
  unfold in_user. destruct (copycheck userdest len) as [stop|].
  - destruct Hc as (? & ? & ->). destruct (Z.eqb_spec (len `min` (USERTOP - userdest)) len) as [Hstop|Hstop].
    + simpl. wp_use (copyout_loop (Z.to_nat len) src userdest 0); [done|lia|lia|..];
        rewrite ?Z.add_0_r, ?Z2Nat.id by lia.
      * intros [] s' [-> ?]. split; [lia|done].
      * intros e s' (-> & ? & Hf). auto.
    + apply wp_fail. split_and!; [done|done|]. left. lia.
  - apply wp_fail. split_and!; [done|done|]. left. unfold USERTOP, MIPS_KSEG0 in *. lia.
Qed.

(** ** Strings *)

(** The bytes copied when [copystr] succeeds: a string and its terminator. *)
Definition user_string (m : gmap Z Z) (ua got : Z) (str : list Z) : Prop :=
  user_bytes m ua (Z.to_nat got) = Some (str ++ [0]) ∧ 0 ∉ str.
(** No terminator among the [n] bytes from [ua] on. *)
Definition no_nul (m : gmap Z Z) (ua n : Z) : Prop :=
  ∃ d, user_bytes m ua (Z.to_nat n) = Some d ∧ 0 ∉ d.

Lemma user_bytes_cons m ua n b :
  0 < n → m !! ua = Some b →
  user_bytes m ua (Z.to_nat n) = d ← user_bytes m (ua + 1) (Z.to_nat (n - 1)); Some (b :: d).
Proof.
  intros Hn Hb. replace (Z.to_nat n) with (S (Z.to_nat (n - 1))) by lia. simpl. by rewrite Hb.
Qed.

(** The ways [copystr] fails, from index [i] on. *)
Definition str_fail (usersrc dest i maxlen stoplen : Z) (s : cstate) (e : errno)
  (s' : cstate) : Prop :=
  kern_frame s s' (dest + i) (maxlen - i) ∧
  (e = EFAULT ∧
     (user_bytes (c_user s) (usersrc + i) (Z.to_nat (Z.min maxlen stoplen - i)) = None ∨
      stoplen < maxlen ∧ no_nul (c_user s) (usersrc + i) (stoplen - i)) ∨
   e = ENAMETOOLONG ∧ maxlen ≤ stoplen ∧ no_nul (c_user s) (usersrc + i) (maxlen - i)).

Lemma copystr_end get put fuel usersrc dest i maxlen stoplen s Q :
  i ≤ maxlen → i ≤ stoplen → ¬ (i < maxlen ∧ i < stoplen) →
  wp (copystr_loop get put fuel i maxlen stoplen) Q
     (str_fail usersrc dest i maxlen stoplen s) s.
Proof.
  intros Him His Hout.
  assert (Hn : ∀ n, n = 0 → no_nul (c_user s) (usersrc + i) n).
  { intros n ->. exists []. split; [done|]. apply not_elem_of_nil. }
  destruct fuel; unfold copystr_loop; fold copystr_loop;
    replace ((i <? maxlen) && (i <? stoplen)) with false by lia;
    destruct (Z.ltb_spec stoplen maxlen); apply wp_fail; (split; [done|]).
  1,3: left; split; [done|]; right; split; [done|]; apply Hn; lia.
  all: right; split_and!; [done..|]; apply Hn; lia.
Qed.

Lemma copyinstr_loop fuel usersrc dest i maxlen stoplen s :
  0 ≤ dest + i → dest + maxlen ≤ zlen (c_kbuf s) → i ≤ maxlen → i ≤ stoplen →
  maxlen - i ≤ Z.of_nat fuel →
  wp (copystr_loop (λ i, get_user (usersrc + i)) (λ i b, put_kern (dest + i) b)
        fuel i maxlen stoplen)
     (λ g s', i < g ≤ Z.min maxlen stoplen ∧
        ∃ str, user_string (c_user s) (usersrc + i) (g - i) str ∧
               s' = mkcstate (c_user s) (splice (c_kbuf s) (dest + i) (str ++ [0])))
     (str_fail usersrc dest i maxlen stoplen s) s.
Proof.
  revert i s. induction fuel as [|fuel IH]; intros i s Hd Hb Him His Hf;
    (destruct (decide (i < maxlen ∧ i < stoplen)) as [Hin|Hout];
     [|apply copystr_end; done || lia]).
  { lia. }
  unfold copystr_loop; fold copystr_loop.
  replace ((i <? maxlen) && (i <? stoplen)) with true by lia.
  wp_bind. apply wp_get_user.
  2: { intros Hn. split; [done|]. left. split; [done|]. left.
       replace (Z.to_nat (Z.min maxlen stoplen - i))
         with (S (Z.to_nat (Z.min maxlen stoplen - i - 1))) by lia.
       simpl. by rewrite Hn. }
  intros b Hub. wp_bind. apply wp_put_kern; [lia|].
  destruct (Z.eqb_spec b 0) as [->|Hnz].
  { apply wp_ret. split; [lia|]. exists []. simpl. split.
    - split; [|apply not_elem_of_nil]. replace (i + 1 - i) with 1 by lia. simpl. by rewrite Hub.
    - f_equal. rewrite <- splice_cons, splice_nil by lia. done. }
  wp_use IH; simpl; rewrite ?zlen_zset; [lia|lia|lia|lia|lia|..].
  - intros g s' (Hg & str & [Hs Hnin] & ->). split; [lia|].
    exists (b :: str). split; [split|].
    + rewrite (user_bytes_cons _ _ _ b) by (done || lia).
      replace (g - i - 1) with (g - (i + 1)) by lia. rewrite <- Z.add_assoc, Hs. done.
    + apply not_elem_of_cons. done.
    + rewrite Z.add_assoc, splice_cons by lia. done.
  - assert (Hcons : ∀ n, 0 < n → user_bytes (c_user s) (usersrc + i) (Z.to_nat n) =
      d ← user_bytes (c_user s) (usersrc + (i + 1)) (Z.to_nat (n - 1)); Some (b :: d)).
    { intros n Hn. rewrite Z.add_assoc. by apply user_bytes_cons. }
    assert (Hnn : ∀ n, 0 < n → no_nul (c_user s) (usersrc + (i + 1)) (n - 1) →
                       no_nul (c_user s) (usersrc + i) n).
    { intros n Hn (d & Hd' & Hnin). exists (b :: d). rewrite Hcons, Hd' by lia.
      split; [done|]. by apply not_elem_of_cons. }
    intros e s' [Hfr He]. split.
    { apply (kern_frame_step _ _ _ _ b); [lia|].
      by replace (maxlen - i - 1) with (maxlen - (i + 1)) by lia; rewrite <- Z.add_assoc. }
    destruct He as [[-> [Hn|[? Hn]]]|(-> & ? & Hn)]; simpl in Hn.
    + left. split; [done|]. left. rewrite Hcons by lia.
      replace (_ - i - 1) with (maxlen `min` stoplen - (i + 1)) by lia. by rewrite Hn.
    + left. split; [done|]. right. split; [done|]. apply Hnn; [lia|].
      by replace (stoplen - i - 1) with (stoplen - (i + 1)) by lia.
    + right. split_and!; [done..|]. apply Hnn; [lia|].
      by replace (maxlen - i - 1) with (maxlen - (i + 1)) by lia.
Qed.

(** ** The properties *)

(** [copyin] either copies the whole user region into the kernel buffer,
    which happens exactly when the region lies below USERTOP and every byte
    of it can be read, or returns EFAULT having written at most the
    destination region; user memory is never changed. *)
Theorem copyin_correct usersrc dest len s :
  0 ≤ usersrc < 4294967296 → 0 < len < 4294967296 →
  0 ≤ dest → dest + len ≤ zlen (c_kbuf s) →
  wp (copyin usersrc dest len)
     (λ _ s', in_user usersrc len ∧
        ∃ d, user_bytes (c_user s) usersrc (Z.to_nat len) = Some d ∧
             s' = mkcstate (c_user s) (splice (c_kbuf s) dest d))
     (λ e s', e = EFAULT ∧ kern_frame s s' dest len ∧
        (¬ in_user usersrc len ∨ user_bytes (c_user s) usersrc (Z.to_nat len) = None)) s.
Proof. apply copyin_spec. Qed.

(** [copyinstr] returns a string that fits in [len] bytes with its
    terminator, lies entirely below USERTOP, and is what the kernel buffer
    now holds; ENAMETOOLONG means the first [len] bytes are readable user
    bytes without a terminator. *)
Theorem copyinstr_correct usersrc dest len s :
  0 ≤ usersrc < 4294967296 → 0 < len < 4294967296 →
  0 ≤ dest → dest + len ≤ zlen (c_kbuf s) →
  wp (copyinstr usersrc dest len)
     (λ got s', 0 < got ≤ len ∧ usersrc + got ≤ USERTOP ∧
        ∃ str, user_string (c_user s) usersrc got str ∧
               s' = mkcstate (c_user s) (splice (c_kbuf s) dest (str ++ [0])))
     (λ e s', kern_frame s s' dest len ∧
        (e = EFAULT ∨
         e = ENAMETOOLONG ∧ usersrc + len ≤ USERTOP ∧ no_nul (c_user s) usersrc len)) s.
Proof.
  intros Hu Hl Hd Hb. unfold copyinstr. pose proof (copycheck_spec usersrc len Hu Hl) as Hc.
  destruct (copycheck usersrc len) as [stop|].
  2: { apply wp_fail. split; [done|by left]. }
  destruct Hc as (? & ? & ->). unfold copystr.
  wp_use (copyinstr_loop (Z.to_nat len) usersrc dest 0); try lia.
  - intros got s' (Hg & str & Hs & ->). rewrite !Z.add_0_r, Z.sub_0_r in *.
    split_and!; [lia..|]. eauto.
  - intros e s' [Hf He]. rewrite !Z.add_0_r, !Z.sub_0_r in *. split; [done|].
    destruct He as [[-> _]|(-> & Hlen & Hn)]; [by left|]. right. split_and!; [done|lia|done].
Qed.

(** ** Witnesses: the string "hi" at user address 4096 *)

Definition toy_cstate : cstate :=
  mkcstate (<[4096 := 104]> (<[4097 := 105]> {[4098 := 0]})) [1; 2; 3; 4; 5].

Lemma copyin_correct_witness :
  wp (copyin 4096 1 3)
     (λ _ s', c_kbuf s' = [1; 104; 105; 0; 5]) (λ _ _, False) toy_cstate.
Proof.
  eapply wp_mono; [apply (copyin_correct 4096 1 3 toy_cstate); done|..].
  - intros _ s' (_ & d & Hd & ->). vm_compute in Hd. injection Hd as <-. reflexivity.
  - intros e s' (_ & _ & [Hn|Hn]); [|vm_compute in Hn; discriminate].
    apply Hn. unfold in_user, USERTOP, MIPS_KSEG0. lia.
Defined.

Lemma copyinstr_correct_witness :
  wp (copyinstr 4096 0 5)
     (λ got s', got = 3 ∧ c_kbuf s' = [104; 105; 0; 4; 5]) (λ _ _, False) toy_cstate ∧
  wp (copyinstr 4096 0 5) (λ got _, 0 < got ≤ 5) (λ _ _, True) toy_cstate.
Proof.
  split; [vm_compute; done|].
  eapply wp_mono; [apply (copyinstr_correct 4096 0 5 toy_cstate); done|..].
  - intros got s' (Hg & _). exact Hg.
  - done.
Defined.
