(* ===== verification/Uio.v ===== *)
(** * I/O descriptors (kern/userprog/uio.c, kern/include/uio.h)

    A [uio] describes one side of a transfer: a region of kernel or user
    memory, how much of it is left, and a file position.  The other side is a
    kernel buffer given to [uiomove]. *)

From S2P Require Import Prelude CopyInOut.

Inductive enum_uio_rw := UIO_READ | UIO_WRITE.
Inductive enum_uio_seg := UIO_USERSPACE | UIO_SYSSPACE | UIO_USERISPACE.
#[global] Instance enum_uio_rw_eq_dec : EqDecision enum_uio_rw.
Proof. solve_decision. Defined.
#[global] Instance enum_uio_seg_eq_dec : EqDecision enum_uio_seg.
Proof. solve_decision. Defined.

(** [iov_base] is [iov_ubase], a user address, or [iov_kbase], an offset in the
    kernel object the descriptor points into; [uio_space] is the address
    space, 0 for NULL. *)
Record uio := mkuio {
  iov_base : Z;
  iov_len : Z;
  uio_offset : Z;
  uio_resid : Z;
  uio_segflg : enum_uio_seg;
  uio_rw : enum_uio_rw;
  uio_space : Z;
}.

(** The memory a transfer works on: the descriptor, the kernel object its
    [iov_kbase] points into, user memory, the kernel object that holds the
    [ptr] argument, and [curthread->t_vmspace]. *)
Record ustate := mkustate {
  u_uio : uio;
  u_kbuf : list Z;
  u_user : gmap Z Z;
  u_ptr : list Z;
  u_curspace : Z;
}.

(** [memmove] between two kernel objects, with the wild accesses outside them
    reported as a panic. *)
Definition kmove_out (ptr size : Z) : M ustate unit := λ s,
  let base := iov_base (u_uio s) in
  if (0 <=? ptr) && (ptr + size <=? zlen (u_ptr s)) &&
     (0 <=? base) && (base + size <=? zlen (u_kbuf s))
  then Ok tt (mkustate (u_uio s)
                (splice (u_kbuf s) base (ztake size (zdrop ptr (u_ptr s))))
                (u_user s) (u_ptr s) (u_curspace s))
  else Panic.
Definition kmove_in (ptr size : Z) : M ustate unit := λ s,
  let base := iov_base (u_uio s) in
  if (0 <=? ptr) && (ptr + size <=? zlen (u_ptr s)) &&
     (0 <=? base) && (base + size <=? zlen (u_kbuf s))
  then Ok tt (mkustate (u_uio s) (u_kbuf s) (u_user s)
                (splice (u_ptr s) ptr (ztake size (zdrop base (u_kbuf s))))
                (u_curspace s))
  else Panic.
Definition ucopy (c : M cstate unit) : M ustate unit :=
  zoom (λ s, mkcstate (u_user s) (u_ptr s))
       (λ t s, mkustate (u_uio s) (u_kbuf s) (c_user t) (c_kbuf t) (u_curspace s)) c.

(** [iov_base], [iov_len], [uio_resid] and [uio_offset] after [size] bytes. *)
Definition uio_advance (size : Z) (u : uio) : uio :=
  mkuio (u32 (iov_base u + size)) (u32 (iov_len u - size)) (i32 (uio_offset u + size))
        (u32 (uio_resid u - size)) (uio_segflg u) (uio_rw u) (uio_space u).
#[global] Arguments uio_advance : simpl never.
Definition set_uio (f : uio → uio) : M ustate unit :=
  modify (λ s, mkustate (f (u_uio s)) (u_kbuf s) (u_user s) (u_ptr s) (u_curspace s)).

(** One round of the loop uses up either [n] or [iov_len], and the round after
    an exhausted [iov_len] panics, so two rounds reach the end. *)
Fixpoint uiomove_loop (fuel : nat) (ptr n : Z) : M ustate unit :=
  let! s := get in
  let u := u_uio s in
  if (n >? 0) && (uio_resid u >? 0) then
    match fuel with
    | O => hang
    | S fuel' =>
        let size := if iov_len u >? n then n else iov_len u in
        if size =? 0 then panic
        else
          match uio_segflg u with
          | UIO_SYSSPACE =>
              if decide (uio_rw u = UIO_READ) then kmove_out ptr size
              else kmove_in ptr size
          | UIO_USERSPACE | UIO_USERISPACE =>
              if decide (uio_rw u = UIO_READ)
              then ucopy (copyout ptr (iov_base u) size)
              else ucopy (copyin (iov_base u) ptr size)
          end ;;;
          set_uio (uio_advance size) ;;;
          uiomove_loop fuel' (ptr + size) (n - size)
    end
  else ret tt.

Definition uiomove (ptr n : Z) : M ustate unit :=
  let! s := get in
  let u := u_uio s in
  (if decide (uio_segflg u = UIO_SYSSPACE) then kassert (uio_space u =? 0)
   else kassert (uio_space u =? u_curspace s)) ;;;
  uiomove_loop 3 ptr n.

(** [ptr] is the start of the static array [zeros]. *)
Definition zeros16 : list Z := replicate 16 0.
Fixpoint uiomovezeros_loop (fuel : nat) (n : Z) : M ustate unit :=
  if n >? 0 then
    match fuel with
    | O => hang
    | S fuel' =>
        let amt := if 16 >? n then n else 16 in
        modify (λ s, mkustate (u_uio s) (u_kbuf s) (u_user s) zeros16 (u_curspace s)) ;;;
        uiomove 0 amt ;;;
        uiomovezeros_loop fuel' (n - amt)
    end
  else ret tt.

Definition uiomovezeros (n : Z) : M ustate unit :=
  let! s := get in
  kassert (bool_decide (uio_rw (u_uio s) = UIO_READ)) ;;;
  uiomovezeros_loop (Z.to_nat n) n.

(** The kernel buffer starts at offset [kbuf] of its object. *)
Definition mk_kuio (kbuf len pos : Z) (rw : enum_uio_rw) : uio :=
  mkuio kbuf len pos len UIO_SYSSPACE rw 0.

(** ** Correctness *)

(** A kernel descriptor whose region lies inside its object. *)
Record kuio_ok (s : ustate) : Prop := {
  ku_seg : uio_segflg (u_uio s) = UIO_SYSSPACE;
  ku_space : uio_space (u_uio s) = 0;
  ku_base : 0 ≤ iov_base (u_uio s);
  ku_len : 0 ≤ uio_resid (u_uio s) ≤ iov_len (u_uio s);
  ku_room : iov_base (u_uio s) + iov_len (u_uio s) ≤ zlen (u_kbuf s) < 2147483648;
  ku_off : 0 ≤ uio_offset (u_uio s) ∧
           uio_offset (u_uio s) + uio_resid (u_uio s) < 2147483648;
}.

(** The descriptor after [size] bytes when nothing wraps around. *)
Definition uio_adv (size : Z) (u : uio) : uio :=
  mkuio (iov_base u + size) (iov_len u - size) (uio_offset u + size)
        (uio_resid u - size) (uio_segflg u) (uio_rw u) (uio_space u).

(** The state after moving [n] bytes between the two kernel buffers. *)
Definition kmoved (ptr n : Z) (s : ustate) : ustate :=
  match uio_rw (u_uio s) with
  | UIO_READ =>
      mkustate (uio_adv n (u_uio s))
        (splice (u_kbuf s) (iov_base (u_uio s)) (ztake n (zdrop ptr (u_ptr s))))
        (u_user s) (u_ptr s) (u_curspace s)
  | UIO_WRITE =>
      mkustate (uio_adv n (u_uio s)) (u_kbuf s) (u_user s)
        (splice (u_ptr s) ptr (ztake n (zdrop (iov_base (u_uio s)) (u_kbuf s))))
        (u_curspace s)
  end.

Lemma uio_advance_small s n :
  kuio_ok s → 0 ≤ n ≤ uio_resid (u_uio s) →
  uio_advance n (u_uio s) = uio_adv n (u_uio s).
Proof.
  intros [] Hn. unfold uio_advance, uio_adv.
  rewrite !u32_small, i32_small by lia. done.
Qed.

Lemma uiomove_loop_stop fuel ptr n s :
  n = 0 ∨ uio_resid (u_uio s) = 0 → uiomove_loop fuel ptr n s = Ok tt s.
Proof.
  intros Hs. destruct fuel; simpl; unfold bind, get; simpl;
    replace ((n >? 0) && (uio_resid (u_uio s) >? 0)) with false by lia; done.
Qed.

(** One round moves [n] bytes, or what is left of the region. *)
Lemma uiomove_loop_step fuel ptr n s :
  kuio_ok s → 0 < n → 0 < uio_resid (u_uio s) → 0 ≤ ptr →
  let k := Z.min n (iov_len (u_uio s)) in
  k ≤ uio_resid (u_uio s) → ptr + k ≤ zlen (u_ptr s) →
  uiomove_loop (S fuel) ptr n s = uiomove_loop fuel (ptr + k) (n - k) (kmoved ptr k s).
Proof.
  intros Hok Hn Hr Hp k Hk Hb. pose proof Hok as [Hseg Hsp Hbase Hlen Hroom Hoff].
  simpl. unfold bind at 1, get at 1. simpl.
  replace ((n >? 0) && (uio_resid (u_uio s) >? 0)) with true by lia.
  replace (if iov_len (u_uio s) >? n then n else iov_len (u_uio s)) with k
    by (unfold k; destruct (Z.gtb_spec (iov_len (u_uio s)) n); lia).
  destruct (Z.eqb_spec k 0); [lia|]. rewrite Hseg. unfold kmoved, bind.
  assert (Hin : (0 <=? ptr) && (ptr + k <=? zlen (u_ptr s)) && (0 <=? iov_base (u_uio s)) &&
                (iov_base (u_uio s) + k <=? zlen (u_kbuf s)) = true) by lia.
  destruct (uio_rw (u_uio s)) eqn:Hrw; [rewrite decide_True by done|rewrite decide_False by done];
    unfold kmove_out, kmove_in; rewrite Hin; unfold set_uio, modify; simpl;
    by rewrite uio_advance_small by (done || lia).
Qed.

(** The whole call: [n] bytes, or all that is left when the descriptor covers
    its region. *)
Lemma uiomove_kernel ptr n s :
  kuio_ok s → 0 ≤ n → 0 ≤ ptr →
  n ≤ uio_resid (u_uio s) ∨ uio_resid (u_uio s) = iov_len (u_uio s) →
  ptr + Z.min n (uio_resid (u_uio s)) ≤ zlen (u_ptr s) →
  uiomove ptr n s = Ok tt (kmoved ptr (Z.min n (uio_resid (u_uio s))) s).
Proof.
  intros Hok Hn Hp Hcov Hb. pose proof Hok as [Hseg Hsp Hbase Hlen Hroom Hoff].
  unfold uiomove. unfold bind at 1, get at 1. simpl.
  rewrite decide_True by done. unfold bind, kassert.
  destruct (Z.eqb_spec (uio_space (u_uio s)) 0); [|done].
  change (uiomove_loop 3 ptr n s = Ok tt (kmoved ptr (Z.min n (uio_resid (u_uio s))) s)).
  destruct (decide (n = 0 ∨ uio_resid (u_uio s) = 0)) as [Hz|Hnz].
  - rewrite uiomove_loop_stop by done.
    replace (Z.min n (uio_resid (u_uio s))) with 0 by lia.
    unfold kmoved, uio_adv. destruct s as [[? ? ? ? ? [] ?] ? ? ? ?]; simpl;
      by rewrite ztake_0, splice_nil, !Z.add_0_r, !Z.sub_0_r.
  - assert (Z.min n (iov_len (u_uio s)) = Z.min n (uio_resid (u_uio s))) as Hm by lia.
    rewrite (uiomove_loop_step 2) by (done || lia). rewrite Hm.
    apply uiomove_loop_stop.
    destruct Hcov; [left; lia|]. unfold kmoved. destruct (uio_rw (u_uio s)); simpl; lia.
Qed.

(** Zero-filling: the same effect as moving a block of zeros. *)
Lemma kmoved_ok ptr n s :
  kuio_ok s → 0 ≤ ptr → 0 ≤ n ≤ uio_resid (u_uio s) → ptr + n ≤ zlen (u_ptr s) →
  kuio_ok (kmoved ptr n s).
Proof.
  intros [] Hp Hn Hb. unfold kmoved.
  destruct (uio_rw (u_uio s)); split; simpl; try done; try lia.
  rewrite zlen_splice by (rewrite ?zlen_ztake, ?zlen_zdrop; rewrite ?zlen_zdrop; lia). lia.
Qed.

(** [s] with [d] written at the descriptor's position (a read from the
    caller's point of view). *)
Definition kfilled (d : list Z) (s : ustate) : ustate :=
  mkustate (uio_adv (zlen d) (u_uio s)) (splice (u_kbuf s) (iov_base (u_uio s)) d)
    (u_user s) (u_ptr s) (u_curspace s).

Definition with_ptr (p : list Z) (s : ustate) : ustate :=
  mkustate (u_uio s) (u_kbuf s) (u_user s) p (u_curspace s).

Lemma zeros16_take k : 0 ≤ k ≤ 16 → ztake k (zdrop 0 zeros16) = replicate (Z.to_nat k) 0.
Proof.
  intros Hk. unfold zeros16. rewrite zdrop_0. unfold ztake.
  rewrite take_replicate. f_equal. lia.
Qed.

Lemma uiomovezeros_loop_spec fuel n s :
  kuio_ok s → uio_rw (u_uio s) = UIO_READ → 0 ≤ n ≤ uio_resid (u_uio s) →
  n ≤ Z.of_nat fuel →
  ∃ p, uiomovezeros_loop fuel n s =
       Ok tt (with_ptr p (kfilled (replicate (Z.to_nat n) 0) s)).
Proof.
  revert n s. induction fuel as [|fuel IH]; intros n s Hok Hrw Hn Hf.
  all: unfold uiomovezeros_loop; fold uiomovezeros_loop.
  all: destruct (Z.gtb_spec n 0); try lia.
  1,3: exists (u_ptr s); replace n with 0 by lia; unfold with_ptr, kfilled, uio_adv; simpl;
    rewrite splice_nil, zlen_nil, !Z.add_0_r, !Z.sub_0_r; destruct s as [[] ? ? ? ?]; done.
  set (amt := if 16 >? n then n else 16).
  assert (Ha : 0 < amt ≤ 16 ∧ amt ≤ n) by (unfold amt; destruct (Z.gtb_spec 16 n); lia).
  unfold bind at 1, modify at 1. fold (with_ptr zeros16 s).
  assert (Hok' : kuio_ok (with_ptr zeros16 s)) by by destruct Hok.
  unfold bind. rewrite uiomove_kernel; simpl; try done; try lia.
  2: { unfold zlen. simpl. lia. }
  rewrite Z.min_l by lia.
  assert (Hmv : kmoved 0 amt (with_ptr zeros16 s) =
                with_ptr zeros16 (kfilled (replicate (Z.to_nat amt) 0) s)).
  { unfold kmoved, kfilled, with_ptr. simpl. rewrite Hrw. rewrite zeros16_take by lia.
    rewrite zlen_replicate, Z2Nat.id by lia. done. }
  assert (Hok2 : kuio_ok (kmoved 0 amt (with_ptr zeros16 s))).
  { apply kmoved_ok; simpl; try done; try lia. unfold zlen. simpl. lia. }
  destruct (IH (n - amt) (kmoved 0 amt (with_ptr zeros16 s))) as [p Hp]; try done; try lia.
  { rewrite Hmv. done. }
  { rewrite Hmv. simpl. rewrite zlen_replicate. lia. }
  exists p. rewrite Hp, Hmv. f_equal. unfold with_ptr, kfilled; simpl. f_equal.
  - unfold uio_adv; simpl. rewrite !zlen_replicate. f_equal; lia.
  - destruct Hok as [_ _ ? ? ? _]. rewrite splice_splice by (rewrite ?zlen_replicate; lia).
    f_equal. rewrite <- replicate_add. f_equal. lia.
Qed.

Lemma uiomovezeros_kernel n s :
  kuio_ok s → uio_rw (u_uio s) = UIO_READ → 0 ≤ n ≤ uio_resid (u_uio s) →
  ∃ p, uiomovezeros n s = Ok tt (with_ptr p (kfilled (replicate (Z.to_nat n) 0) s)).
Proof.
  intros Hok Hrw Hn. unfold uiomovezeros, bind, get, kassert.
  rewrite bool_decide_true by done. simpl. apply uiomovezeros_loop_spec; try done. lia.
Qed.

(** ** Calls with a buffer of the caller's

    [u_ptr] only stands for the object [ptr] points into, so a caller that
    passes a buffer of its own gets that buffer back. *)
Definition keep_ptr {A} (c : M ustate A) : M ustate A := λ s,
  match c s with
  | Ok a s' => Ok a (with_ptr (u_ptr s) s')
  | Err e s' => Err e (with_ptr (u_ptr s) s')
  | Panic => Panic
  | Hang => Hang
  end.
Definition uiomove_buf (buf : list Z) (ptr n : Z) : M ustate (list Z) :=
  keep_ptr (modify (with_ptr buf) ;;; uiomove ptr n ;;; gets u_ptr).

(** [s] with [n] bytes taken at the descriptor's position (a write). *)
Definition kdrained (n : Z) (s : ustate) : ustate :=
  mkustate (uio_adv n (u_uio s)) (u_kbuf s) (u_user s) (u_ptr s) (u_curspace s).
Definition kdata (n : Z) (s : ustate) : list Z :=
  ztake n (zdrop (iov_base (u_uio s)) (u_kbuf s)).

Lemma uiomove_buf_read buf ptr n s :
  kuio_ok s → uio_rw (u_uio s) = UIO_READ → 0 ≤ ptr → 0 ≤ n ≤ uio_resid (u_uio s) →
  ptr + n ≤ zlen buf →
  uiomove_buf buf ptr n s = Ok buf (kfilled (ztake n (zdrop ptr buf)) s).
Proof.
  intros [] Hrw Hp Hn Hb. unfold uiomove_buf, keep_ptr, bind, modify.
  rewrite uiomove_kernel; simpl; try done; try lia.
  rewrite Z.min_l by lia. unfold kmoved, gets; simpl. rewrite Hrw. simpl.
  unfold with_ptr, kfilled; simpl. rewrite zlen_ztake; [done|rewrite zlen_zdrop; lia].
Qed.

Lemma uiomove_buf_write buf ptr n s :
  kuio_ok s → uio_rw (u_uio s) = UIO_WRITE → 0 ≤ ptr → 0 ≤ n ≤ uio_resid (u_uio s) →
  ptr + n ≤ zlen buf →
  uiomove_buf buf ptr n s = Ok (splice buf ptr (kdata n s)) (kdrained n s).
Proof.
  intros [] Hrw Hp Hn Hb. unfold uiomove_buf, keep_ptr, bind, modify.
  rewrite uiomove_kernel; simpl; try done; try lia.
  rewrite Z.min_l by lia. unfold kmoved, gets; simpl. by rewrite Hrw.
Qed.

Lemma zeros_kernel n s :
  kuio_ok s → uio_rw (u_uio s) = UIO_READ → 0 ≤ n ≤ uio_resid (u_uio s) →
  keep_ptr (uiomovezeros n) s = Ok tt (kfilled (replicate (Z.to_nat n) 0) s).
Proof.
  intros Hok Hrw Hn. unfold keep_ptr.
  by destruct (uiomovezeros_kernel n s Hok Hrw Hn) as [p ->].
Qed.

Lemma zlen_kdata n s : kuio_ok s → 0 ≤ n ≤ uio_resid (u_uio s) → zlen (kdata n s) = n.
Proof. intros [] ?. unfold kdata. rewrite zlen_ztake; [done|rewrite zlen_zdrop; lia]. Qed.
Lemma kfilled_ok d s : kuio_ok s → zlen d ≤ uio_resid (u_uio s) → kuio_ok (kfilled d s).
Proof.
  intros [] Hd. pose proof (zlen_nonneg d).
  split; simpl; try done; try lia. rewrite zlen_splice; lia.
Qed.
Lemma kdrained_ok n s : kuio_ok s → 0 ≤ n ≤ uio_resid (u_uio s) → kuio_ok (kdrained n s).
Proof. intros [] Hn. split; simpl; try done; lia. Qed.
Lemma kfilled_app d1 d2 s :
  kuio_ok s → zlen d1 + zlen d2 ≤ uio_resid (u_uio s) →
  kfilled d2 (kfilled d1 s) = kfilled (d1 ++ d2) s.
Proof.
  intros [] Hd. unfold kfilled; simpl. f_equal.
  - unfold uio_adv; simpl. rewrite zlen_app. f_equal; lia.
  - apply splice_splice; lia.
Qed.
Lemma kdrained_add n m s : kdrained m (kdrained n s) = kdrained (n + m) s.
Proof. unfold kdrained, uio_adv; simpl. f_equal. f_equal; lia. Qed.

(** ** The properties *)

(** On a kernel descriptor [uiomove] transfers exactly the smaller of the
    count asked for and the residue, in the direction the descriptor says,
    and advances the four counters of the descriptor by that amount; neither
    of its panics fires. *)
Theorem uiomove_kernel_correct ptr n s :
  kuio_ok s → 0 ≤ n → 0 ≤ ptr →
  n ≤ uio_resid (u_uio s) ∨ uio_resid (u_uio s) = iov_len (u_uio s) →
  ptr + Z.min n (uio_resid (u_uio s)) ≤ zlen (u_ptr s) →
  let k := Z.min n (uio_resid (u_uio s)) in
  ∃ s', uiomove ptr n s = Ok tt s' ∧ kuio_ok s' ∧ u_uio s' = uio_adv k (u_uio s) ∧
        match uio_rw (u_uio s) with
        | UIO_READ =>
            u_ptr s' = u_ptr s ∧
            u_kbuf s' = splice (u_kbuf s) (iov_base (u_uio s)) (ztake k (zdrop ptr (u_ptr s)))
        | UIO_WRITE =>
            u_kbuf s' = u_kbuf s ∧
            u_ptr s' = splice (u_ptr s) ptr (ztake k (zdrop (iov_base (u_uio s)) (u_kbuf s)))
        end.
Proof.
  intros Hok Hn Hp Hcov Hb k. exists (kmoved ptr k s). pose proof Hok as [? ? ? ? ? ?].
  split_and!.
  - by apply uiomove_kernel.
  - apply kmoved_ok; done || lia.
  - unfold kmoved. by destruct (uio_rw (u_uio s)).
  - unfold kmoved. by destruct (uio_rw (u_uio s)).
Qed.

(** A transfer to or from user space that faults returns EFAULT and leaves
    the descriptor where it was, so that the caller can tell how much was
    moved. *)
Theorem uiomove_user_fault ptr n s :
  uio_segflg (u_uio s) ≠ UIO_SYSSPACE → uio_space (u_uio s) = u_curspace s →
  0 < n ≤ uio_resid (u_uio s) → n ≤ iov_len (u_uio s) < 4294967296 →
  0 ≤ iov_base (u_uio s) < 4294967296 → 0 ≤ ptr → ptr + n ≤ zlen (u_ptr s) →
  wp (uiomove ptr n)
     (λ _ s', in_user (iov_base (u_uio s)) n ∧ u_uio s' = uio_advance n (u_uio s))
     (λ e s', e = EFAULT ∧ u_uio s' = u_uio s ∧
        (¬ in_user (iov_base (u_uio s)) n ∨
         user_bytes (u_user s) (iov_base (u_uio s)) (Z.to_nat n) = None)) s.
Proof.
  intros Hseg Hsp Hn Hl Hbase Hp Hb. unfold uiomove. wp_bind. apply wp_get. wp_bind.
  rewrite decide_False by done. apply wp_kassert; [lia|].
  unfold uiomove_loop; fold uiomove_loop. wp_bind. apply wp_get.
  replace ((n >? 0) && (uio_resid (u_uio s) >? 0)) with true by lia.
  replace (if iov_len (u_uio s) >? n then n else iov_len (u_uio s)) with n
    by (destruct (Z.gtb_spec (iov_len (u_uio s)) n); lia).
  destruct (Z.eqb_spec n 0); [lia|]. wp_bind.
  assert (Hdone : ∀ s1 : ustate, in_user (iov_base (u_uio s)) n → u_uio s1 = u_uio s →
    wp (set_uio (uio_advance n) ;;; uiomove_loop 2 (ptr + n) (n - n))
      (λ _ s', in_user (iov_base (u_uio s)) n ∧ u_uio s' = uio_advance n (u_uio s))
      (λ e s', e = EFAULT ∧ u_uio s' = u_uio s ∧
        (¬ in_user (iov_base (u_uio s)) n ∨
         user_bytes (u_user s) (iov_base (u_uio s)) (Z.to_nat n) = None)) s1).
  { intros s1 Hin Hu1. wp_bind. apply wp_modify. rewrite Z.sub_diag. unfold wp.
    rewrite uiomove_loop_stop by by left. simpl. by rewrite Hu1. }
  assert (Hc : wp (if decide (uio_rw (u_uio s) = UIO_READ)
                   then ucopy (copyout ptr (iov_base (u_uio s)) n)
                   else ucopy (copyin (iov_base (u_uio s)) ptr n))
    (λ _ s1, in_user (iov_base (u_uio s)) n ∧ u_uio s1 = u_uio s)
    (λ e s', e = EFAULT ∧ u_uio s' = u_uio s ∧
        (¬ in_user (iov_base (u_uio s)) n ∨
         user_bytes (u_user s) (iov_base (u_uio s)) (Z.to_nat n) = None)) s).
  { case_decide; apply wp_zoom; simpl.
    - wp_use copyout_spec; simpl; [lia|lia|done|done|by intros _ t (? & _)|].
      intros e t (-> & _ & ?). done.
    - wp_use copyin_spec; simpl; [lia|lia|done|done|by intros _ t (? & _)|].
      intros e t (-> & _ & ?). done. }
  destruct (uio_segflg (u_uio s)); try done;
    (wp_use Hc; [intros [] s1 [Hin Hu1]; by apply Hdone|done]).
Qed.

(** [uiomovezeros] writes exactly [n] zero bytes at the descriptor's
    position. *)
Theorem uiomovezeros_correct n s :
  kuio_ok s → uio_rw (u_uio s) = UIO_READ → 0 ≤ n ≤ uio_resid (u_uio s) →
  wp (uiomovezeros n)
     (λ _ s', u_kbuf s' = splice (u_kbuf s) (iov_base (u_uio s)) (replicate (Z.to_nat n) 0) ∧
              u_uio s' = uio_adv n (u_uio s))
     (λ _ _, False) s.
Proof.
  intros Hok Hrw Hn. destruct (uiomovezeros_kernel n s Hok Hrw Hn) as [p Hp].
  unfold wp. rewrite Hp. simpl. split; [done|]. by rewrite zlen_replicate, Z2Nat.id by lia.
Qed.

(** ** Witnesses *)

Definition toy_ustate : ustate :=
  mkustate (mk_kuio 2 4 100 UIO_READ) [0; 0; 0; 0; 0; 0; 0] ∅ [9; 8; 7] 0.
Lemma toy_ustate_ok : kuio_ok toy_ustate.
Proof. split; simpl; unfold zlen; simpl; lia || done. Qed.

Lemma uiomove_kernel_correct_witness :
  ∃ s', uiomove 1 2 toy_ustate = Ok tt s' ∧ u_kbuf s' = [0; 0; 8; 7; 0; 0; 0] ∧
        uio_resid (u_uio s') = 2.
Proof.
  destruct (uiomove_kernel_correct 1 2 toy_ustate) as (s' & Hrun & _ & Hu & _ & Hk);
    [exact toy_ustate_ok|done|done|by left|done|].
  exists s'. split; [exact Hrun|]. split; [rewrite Hk; reflexivity|rewrite Hu; reflexivity].
Defined.

Definition toy_user_ustate : ustate :=
  mkustate (mkuio 4096 4 0 4 UIO_USERSPACE UIO_READ 5) [] {[4096 := 1]} [9; 8; 7] 5.

Lemma uiomove_user_fault_witness :
  wp (uiomove 0 2) (λ _ s', u_uio s' = uio_advance 2 (u_uio toy_user_ustate))
     (λ e s', e = EFAULT ∧ u_uio s' = u_uio toy_user_ustate) toy_user_ustate.
Proof.
  eapply wp_mono; [apply (uiomove_user_fault 0 2 toy_user_ustate); done|..].
  - intros _ s' [_ Hu]. exact Hu.
  - intros e s' (-> & Hu & _). split; [reflexivity|exact Hu].
Defined.

Lemma uiomovezeros_correct_witness :
  wp (uiomovezeros 3) (λ _ s', uio_resid (u_uio s') = 1) (λ _ _, False) toy_ustate.
Proof.
  eapply wp_mono; [apply (uiomovezeros_correct 3 toy_ustate);
    [exact toy_ustate_ok|done|done]|..].
  - intros _ s' [_ ->]. reflexivity.
  - done.
Defined.
