(* ===== verification/BlockDev.v ===== *)
(** * Block devices as the file system sees them (kern/include/dev.h)

    [struct device] with the calls a file system makes on it.  The file
    system is verified against [BlockDevOk]; the disk driver (Lhd) is an
    instance of it. *)

From S2P Require Import Prelude CopyInOut Uio.

Definition SECTSIZE : Z := 512.

(** [D] is the state of the device, the medium included. *)
Class BlockDev (D : Type) := {
  d_open : Z → M D unit;
  d_close : M D unit;
  d_io : M (D * ustate) unit;
  d_ioctl : Z → Z → M D unit;
  d_blocks : D → Z;
  d_blocksize : D → Z;
}.

Definition bytes (l : list Z) : Prop := Forall (λ x, 0 ≤ x < 256) l.
Definition block_ok (l : list Z) : Prop := zlen l = SECTSIZE ∧ bytes l.

(** A kernel descriptor for exactly the block [b]. *)
Definition block_uio (s : ustate) (b : Z) : Prop :=
  kuio_ok s ∧ uio_offset (u_uio s) = SECTSIZE * b ∧ uio_resid (u_uio s) = SECTSIZE.

(** What a file system relies on: the device is a vector of sectors; a read
    delivers the sector or fails with EIO having moved nothing; a write
    replaces the sector. *)
Class BlockDevOk (D : Type) `{!BlockDev D} := {
  dinv : D → Prop;
  sector : D → Z → list Z;
  d_geometry : ∀ d, dinv d → d_blocksize d = SECTSIZE ∧ 0 ≤ d_blocks d;
  sector_ok : ∀ d b, dinv d → 0 ≤ b < d_blocks d → block_ok (sector d b);
  d_read_spec : ∀ d s b,
    dinv d → 0 ≤ b < d_blocks d → block_uio s b → uio_rw (u_uio s) = UIO_READ →
    wp d_io (λ _ t, dinv t.1 ∧ d_blocks t.1 = d_blocks d ∧
                    (∀ b', sector t.1 b' = sector d b') ∧ t.2 = kfilled (sector d b) s)
            (λ e t, e = EIO ∧ dinv t.1 ∧ d_blocks t.1 = d_blocks d ∧
                    (∀ b', sector t.1 b' = sector d b') ∧ t.2 = s) (d, s);
  d_write_spec : ∀ d s b,
    dinv d → 0 ≤ b < d_blocks d → block_uio s b → uio_rw (u_uio s) = UIO_WRITE →
    bytes (kdata SECTSIZE s) →
    wp d_io (λ _ t, dinv t.1 ∧ d_blocks t.1 = d_blocks d ∧
                    (∀ b', sector t.1 b' = if decide (b' = b) then kdata SECTSIZE s
                                           else sector d b') ∧
                    t.2 = kdrained SECTSIZE s)
            (λ _ _, False) (d, s);
}.

Lemma bytes_app l1 l2 : bytes (l1 ++ l2) ↔ bytes l1 ∧ bytes l2.
Proof. apply Forall_app. Qed.
Lemma bytes_ztake n l : bytes l → bytes (ztake n l).
Proof. apply Forall_take. Qed.
Lemma bytes_zdrop n l : bytes l → bytes (zdrop n l).
Proof. apply Forall_drop. Qed.
Lemma bytes_zeros n : bytes (replicate n 0).
Proof. apply Forall_replicate. lia. Qed.
Lemma bytes_splice l off d : bytes l → bytes d → bytes (splice l off d).
Proof.
  intros. unfold splice. rewrite !bytes_app. auto using bytes_ztake, bytes_zdrop.
Qed.
#[export] Hint Resolve bytes_ztake bytes_zdrop bytes_zeros bytes_splice : kern.
