(* ===== verification/Lhd.v ===== *)
(** * The LAMEbus disk driver (kern/dev/lamebus/lhd.c)

    The driver's registers, on-card buffer and semaphores, its I/O routine and
    its interrupt handler.  The disk itself is a parameter [LhdHw]: what it
    does with one sector.  A thread that sleeps on [lh_done] lets the disk
    finish its operation and its interrupt handler run. *)

From S2P Require Import Prelude CopyInOut Uio BlockDev.

Definition LHD_SECTSIZE : Z := 512.
Definition LHD_IDLE : Z := 0.
Definition LHD_WORKING : Z := 1.
Definition LHD_OK : Z := 4.
Definition LHD_INVSECT : Z := 12.
Definition LHD_MEDIA : Z := 20.
Definition LHD_ISWRITE : Z := 2.
Definition LHD_STATEMASK : Z := 29.

(** The disk: its size, and one operation (write?, sector, card buffer) giving
    a status code and the card buffer afterwards. *)
Class LhdHw (W : Type) := {
  hw_nsect : W → Z;
  hw_op : bool → Z → list Z → W → Z * list Z * W;
}.

Record lhd_softc (W : Type) := mklhd {
  lh_hw : W;
  lh_stat : Z;
  lh_sect : Z;
  lh_buf : list Z;
  lh_result : option errno;
  lh_clear : Z;
  lh_done : Z;
  lh_blocks : Z;
  lh_blocksize : Z;
}.
Arguments mklhd {W} _ _ _ _ _ _ _ _ _.
Arguments lh_hw {W} _.
Arguments lh_stat {W} _.
Arguments lh_sect {W} _.
Arguments lh_buf {W} _.
Arguments lh_result {W} _.
Arguments lh_clear {W} _.
Arguments lh_done {W} _.
Arguments lh_blocks {W} _.
Arguments lh_blocksize {W} _.

Inductive lhd_reg := LHD_REG_STAT | LHD_REG_SECT.

Section driver.
Context {W : Type} `{!LhdHw W}.
Notation lhd := (lhd_softc W).

Definition set_stat (v : Z) (l : lhd) : lhd :=
  mklhd (lh_hw l) v (lh_sect l) (lh_buf l) (lh_result l) (lh_clear l) (lh_done l)
        (lh_blocks l) (lh_blocksize l).
Definition set_sect (v : Z) (l : lhd) : lhd :=
  mklhd (lh_hw l) (lh_stat l) v (lh_buf l) (lh_result l) (lh_clear l) (lh_done l)
        (lh_blocks l) (lh_blocksize l).
Definition set_buf (b : list Z) (l : lhd) : lhd :=
  mklhd (lh_hw l) (lh_stat l) (lh_sect l) b (lh_result l) (lh_clear l) (lh_done l)
        (lh_blocks l) (lh_blocksize l).
Definition set_result (r : option errno) (l : lhd) : lhd :=
  mklhd (lh_hw l) (lh_stat l) (lh_sect l) (lh_buf l) r (lh_clear l) (lh_done l)
        (lh_blocks l) (lh_blocksize l).
Definition set_clear (n : Z) (l : lhd) : lhd :=
  mklhd (lh_hw l) (lh_stat l) (lh_sect l) (lh_buf l) (lh_result l) n (lh_done l)
        (lh_blocks l) (lh_blocksize l).
Definition set_done (n : Z) (l : lhd) : lhd :=
  mklhd (lh_hw l) (lh_stat l) (lh_sect l) (lh_buf l) (lh_result l) (lh_clear l) n
        (lh_blocks l) (lh_blocksize l).

Definition lhd_rdreg (reg : lhd_reg) : M lhd Z :=
  match reg with LHD_REG_STAT => gets lh_stat | LHD_REG_SECT => gets lh_sect end.
Definition lhd_wreg (reg : lhd_reg) (val : Z) : M lhd unit :=
  match reg with
  | LHD_REG_STAT => modify (set_stat val)
  | LHD_REG_SECT => modify (set_sect val)
  end.

(** 0 is [None]. *)
Definition lhd_code_to_errno (code : Z) : option errno :=
  let st := Z.land code LHD_STATEMASK in
  if st =? LHD_OK then None
  else if st =? LHD_INVSECT then Some EINVAL
  else if st =? LHD_MEDIA then Some EIO
  else Some EAGAIN.

(** [V] on one of the two semaphores: [rd] and [wr] select it. *)
Definition lh_V (rd : lhd → Z) (wr : Z → lhd → lhd) : M lhd unit :=
  let! n := gets rd in
  let n' := i32 (n + 1) in
  modify (wr n') ;;;
  kassert (n' >? 0).

Definition lhd_iodone (err : option errno) : M lhd unit :=
  modify (set_result err) ;;;
  lh_V lh_done set_done.

Definition lhd_irq : M lhd unit :=
  let! val := lhd_rdreg LHD_REG_STAT in
  let st := Z.land val LHD_STATEMASK in
  if (st =? LHD_IDLE) || (st =? LHD_WORKING) then ret tt
  else if (st =? LHD_OK) || (st =? LHD_INVSECT) || (st =? LHD_MEDIA) then
    lhd_wreg LHD_REG_STAT 0 ;;;
    lhd_iodone (lhd_code_to_errno val)
  else ret tt.

(** The disk finishes the operation in its registers. *)
Definition disk_finish : M lhd unit := λ l,
  if Z.land (lh_stat l) LHD_STATEMASK =? LHD_WORKING then
    let wbit := Z.land (lh_stat l) LHD_ISWRITE in
    let '(code, buf, w) := hw_op (negb (wbit =? 0)) (lh_sect l) (lh_buf l) (lh_hw l) in
    Ok tt (mklhd w (Z.lor code wbit) (lh_sect l) buf (lh_result l) (lh_clear l)
                 (lh_done l) (lh_blocks l) (lh_blocksize l))
  else Ok tt l.

(** [P(lh_clear)]: no other thread uses the device in a sequential run, so a
    sleeper would never wake. *)
Definition P_clear : M lhd unit :=
  let! n := gets lh_clear in
  if n =? 0 then hang else modify (set_clear (n - 1)).

(** [P(lh_done)]: a sleeper waits for the disk and its interrupt. *)
Definition P_done : M lhd unit :=
  let! n := gets lh_done in
  when (n =? 0) (disk_finish ;;; lhd_irq) ;;;
  let! n := gets lh_done in
  if n =? 0 then hang else modify (set_done (n - 1)).

Definition lhd_open (openflags : Z) : M lhd unit := ret tt.
Definition lhd_close : M lhd unit := ret tt.
Definition lhd_ioctl (op data : Z) : M lhd unit := fail EIOCTL.

Definition in_lhd {A} (c : M lhd A) : M (lhd * ustate) A := zoom fst (λ l s, (l, s.2)) c.
Definition in_uio {A} (c : M ustate A) : M (lhd * ustate) A := zoom snd (λ u s, (s.1, u)) c.

(** One sector of the loop of [lhd_io]. *)
Definition lhd_sector (sector statval i : Z) : M (lhd * ustate) unit :=
  in_lhd P_clear ;;;
  let! rw := gets (λ s, uio_rw (u_uio s.2)) in
  let! buf := gets (λ s, lh_buf s.1) in
  when (bool_decide (rw = UIO_WRITE))
    (let! r := try (in_uio (uiomove_buf buf 0 LHD_SECTSIZE)) in
     match r with
     | inl e => in_lhd (lh_V lh_clear set_clear) ;;; fail e
     | inr buf' => in_lhd (modify (set_buf buf'))
     end) ;;;
  in_lhd (lhd_wreg LHD_REG_SECT (u32 (sector + i))) ;;;
  in_lhd (lhd_wreg LHD_REG_STAT statval) ;;;
  in_lhd P_done ;;;
  let! result := gets (λ s, lh_result s.1) in
  let! buf := gets (λ s, lh_buf s.1) in
  let! result' :=
    (if bool_decide (result = None ∧ rw = UIO_READ) then
       let! r := try (in_uio (uiomove_buf buf 0 LHD_SECTSIZE)) in
       ret (match r with inl e => Some e | inr _ => None end)
     else ret result) in
  in_lhd (lh_V lh_clear set_clear) ;;;
  match result' with Some e => fail e | None => ret tt end.

(** [uio_offset] is signed: C division truncates. *)
Definition lhd_io : M (lhd * ustate) unit :=
  let! u := gets (λ s, u_uio s.2) in
  let sector := u32 (Z.quot (uio_offset u) LHD_SECTSIZE) in
  let sectoff := u32 (Z.rem (uio_offset u) LHD_SECTSIZE) in
  let len := uio_resid u / LHD_SECTSIZE in
  let lenoff := uio_resid u mod LHD_SECTSIZE in
  let! blocks := gets (λ s, lh_blocks s.1) in
  if negb (sectoff =? 0) || negb (lenoff =? 0) then fail EINVAL
  else if u32 (sector + len) >? blocks then fail EINVAL
  else
    let statval := match uio_rw u with
                   | UIO_WRITE => Z.lor LHD_WORKING LHD_ISWRITE
                   | UIO_READ => LHD_WORKING
                   end in
    for_range (Z.to_nat len) 0 (lhd_sector sector statval).

End driver.

#[global] Instance lhd_dev {W} `{!LhdHw W} : BlockDev (lhd_softc W) := {|
  d_open := lhd_open; d_close := lhd_close; d_io := lhd_io; d_ioctl := lhd_ioctl;
  d_blocks := lh_blocks; d_blocksize := lh_blocksize |}.

(** ** What is assumed of the disk

    A read of a sector delivers it or reports a media error; a write stores
    the card buffer or reports a media error, in which case the sector may
    hold anything.  [hw_reliable] states that no write will fail. *)
Class LhdHwOk (W : Type) `{!LhdHw W} := {
  hinv : W → Prop;
  hw_reliable : W → Prop;
  hsector : W → Z → list Z;
  hw_size : ∀ w, hinv w → 0 ≤ hw_nsect w < 4194304;
  hsector_ok : ∀ w b, hinv w → 0 ≤ b < hw_nsect w → block_ok (hsector w b);
  hw_read : ∀ w b buf code buf' w',
    hinv w → 0 ≤ b < hw_nsect w → zlen buf = LHD_SECTSIZE →
    hw_op false b buf w = (code, buf', w') →
    hinv w' ∧ hw_nsect w' = hw_nsect w ∧ (∀ c, hsector w' c = hsector w c) ∧
    (hw_reliable w → hw_reliable w') ∧
    (code = LHD_OK ∧ buf' = hsector w b ∨ code = LHD_MEDIA ∧ zlen buf' = LHD_SECTSIZE);
  hw_write : ∀ w b buf code buf' w',
    hinv w → 0 ≤ b < hw_nsect w → block_ok buf →
    hw_op true b buf w = (code, buf', w') →
    hinv w' ∧ hw_nsect w' = hw_nsect w ∧ (hw_reliable w → hw_reliable w') ∧
    zlen buf' = LHD_SECTSIZE ∧ (∀ c, c ≠ b → hsector w' c = hsector w c) ∧
    (code = LHD_OK ∧ hsector w' b = buf ∨ code = LHD_MEDIA ∧ ¬ hw_reliable w);
}.

Section proofs.
Context {W : Type} `{!LhdHw W, !LhdHwOk W}.
Notation lhd := (lhd_softc W).
Implicit Types (l : lhd) (s : ustate).

(** The driver between two operations. *)
Record lhd_idle (l : lhd) : Prop := {
  li_hw : hinv (lh_hw l);
  li_stat : lh_stat l = LHD_IDLE;
  li_buf : zlen (lh_buf l) = LHD_SECTSIZE;
  li_clear : lh_clear l = 1;
  li_done : lh_done l = 0;
  li_blocks : lh_blocks l = hw_nsect (lh_hw l);
  li_size : lh_blocksize l = LHD_SECTSIZE;
}.

(** The state after the disk has done its work with the card buffer [buf] and
    the interrupt handler has run. *)
Definition finished (l : lhd) (wr : bool) (b : Z) (buf : list Z) : lhd :=
  let '(code, buf', w') := hw_op wr b buf (lh_hw l) in
  mklhd w' 0 b buf' (lhd_code_to_errno code) 0 0 (lh_blocks l) (lh_blocksize l).

Definition statval (wr : bool) : Z :=
  if wr then Z.lor LHD_WORKING LHD_ISWRITE else LHD_WORKING.

Lemma op_finishes l wr b buf :
  (let '(code, _, _) := hw_op wr b buf (lh_hw l) in code = LHD_OK ∨ code = LHD_MEDIA) →
  P_done (mklhd (lh_hw l) (statval wr) b buf (lh_result l) 0 0 (lh_blocks l) (lh_blocksize l))
  = Ok tt (finished l wr b buf).
Proof.
  intros Hcode. unfold P_done, bind, gets, when, disk_finish, finished; simpl.
  destruct wr; simpl; destruct (hw_op _ _ _ _) as [[code buf'] w'];
    destruct Hcode as [-> | ->]; reflexivity.
Qed.

Lemma op_code wr b buf l :
  lhd_idle l → 0 ≤ b < lh_blocks l → zlen buf = LHD_SECTSIZE → (wr = true → bytes buf) →
  let '(code, _, _) := hw_op wr b buf (lh_hw l) in code = LHD_OK ∨ code = LHD_MEDIA.
Proof.
  intros [] Hb Hlen Hbuf. destruct (hw_op wr b buf (lh_hw l)) as [[code buf'] w'] eqn:Hop.
  destruct wr.
  - apply hw_write in Hop as (_ & _ & _ & _ & _ & Hc); [naive_solver|done|lia|by split; auto].
  - apply hw_read in Hop as (_ & _ & _ & _ & Hc); [naive_solver|done|lia|done].
Qed.

Lemma V_finished l wr b buf :
  lh_V lh_clear set_clear (finished l wr b buf) = Ok tt (set_clear 1 (finished l wr b buf)).
Proof. unfold finished. by destruct (hw_op _ _ _ _) as [[] ?]. Qed.

(** Run the operation that is in the registers. *)
Ltac use_P_done Hp :=
  match goal with |- context [P_done ?x] =>
    match type of Hp with _ = ?r => replace (P_done x) with r by (symmetry; exact Hp) end
  end.

(** One sector, reading: the card buffer goes to the descriptor unless the disk
    reports an error. *)
Lemma lhd_sector_read l s b sect i :
  lhd_idle l → 0 ≤ b < lh_blocks l → u32 (sect + i) = b →
  kuio_ok s → uio_rw (u_uio s) = UIO_READ → LHD_SECTSIZE ≤ uio_resid (u_uio s) →
  let l' := finished l false b (lh_buf l) in
  zlen (lh_buf l') = LHD_SECTSIZE →
  lhd_sector sect (statval false) i (l, s) =
    match lh_result l' with
    | None => Ok tt (set_clear 1 l', kfilled (lh_buf l') s)
    | Some e => Err e (set_clear 1 l', s)
    end.
Proof.
  intros Hl Hb Hsect Hok Hrw Hres l' Hbuf'. pose proof Hl as [? Hst Hbuf Hcl Hdn ? ?].
  pose proof (op_finishes l false b (lh_buf l)) as Hp.
  specialize (Hp ltac:(apply op_code; done)). fold l' in Hp.
  destruct l as [w st sc buf res cl dn nb bs]; simpl in *; subst.
  unfold lhd_sector, in_lhd, in_uio, bind, zoom, gets, P_clear, when, try. simpl.
  rewrite Hrw; simpl. use_P_done Hp.
  pose proof (V_finished _ _ _ _ : _ l' = _) as HV.
  destruct (lh_result l') eqn:Hr;
    [rewrite bool_decide_false by naive_solver|rewrite bool_decide_true by done]; simpl.
  - by rewrite Hr, HV.
  - rewrite uiomove_buf_read by (done || unfold LHD_SECTSIZE in *; lia).
    rewrite zdrop_0, ztake_all by lia. simpl. by rewrite HV.
Qed.

(** One sector, writing: the descriptor has moved on whether or not the disk
    reports an error. *)
Lemma lhd_sector_write l s b sect i :
  lhd_idle l → 0 ≤ b < lh_blocks l → u32 (sect + i) = b →
  kuio_ok s → uio_rw (u_uio s) = UIO_WRITE → LHD_SECTSIZE ≤ uio_resid (u_uio s) →
  bytes (kdata LHD_SECTSIZE s) →
  let l' := finished l true b (kdata LHD_SECTSIZE s) in
  lhd_sector sect (statval true) i (l, s) =
    match lh_result l' with
    | None => Ok tt (set_clear 1 l', kdrained LHD_SECTSIZE s)
    | Some e => Err e (set_clear 1 l', kdrained LHD_SECTSIZE s)
    end.
Proof.
  intros Hl Hb Hsect Hok Hrw Hres Hdata l'. pose proof Hl as [? Hst Hbuf Hcl Hdn ? ?].
  assert (Hlen : zlen (kdata LHD_SECTSIZE s) = LHD_SECTSIZE)
    by (apply zlen_kdata; unfold LHD_SECTSIZE in *; done || lia).
  pose proof (op_finishes l true b (kdata LHD_SECTSIZE s)) as Hp.
  specialize (Hp ltac:(apply op_code; done)). fold l' in Hp.
  destruct l as [w st sc buf res cl dn nb bs]; simpl in *; subst.
  unfold lhd_sector, in_lhd, in_uio, bind, zoom, gets, P_clear, when, try. simpl.
  rewrite Hrw; simpl. rewrite uiomove_buf_write by (done || unfold LHD_SECTSIZE in *; lia).
  replace (splice buf 0 (kdata LHD_SECTSIZE s)) with (kdata LHD_SECTSIZE s).
  2: { unfold splice. rewrite ztake_0, Hlen. simpl. unfold zdrop.
       rewrite drop_ge, app_nil_r; [done|unfold zlen in Hbuf; lia]. }
  simpl. use_P_done Hp.
  rewrite bool_decide_false by naive_solver; simpl.
  rewrite (V_finished _ _ _ _ : _ l' = _). by destruct (lh_result l').
Qed.

Lemma finished_idle l wr b buf :
  lhd_idle l → 0 ≤ b < lh_blocks l → zlen buf = LHD_SECTSIZE → (wr = true → bytes buf) →
  lhd_idle (set_clear 1 (finished l wr b buf)) ∧
  lh_blocks (finished l wr b buf) = lh_blocks l ∧
  (hw_reliable (lh_hw l) → hw_reliable (lh_hw (finished l wr b buf))).
Proof.
  intros [] Hb Hlen Hbuf. unfold finished.
  destruct (hw_op wr b buf (lh_hw l)) as [[code buf'] w'] eqn:Hop. destruct wr.
  - apply hw_write in Hop as (? & ? & ? & ? & ? & Hc); [|done|lia|by split; auto].
    split_and!; try done. split; simpl; try done. congruence.
  - assert (zlen (hsector (lh_hw l) b) = LHD_SECTSIZE) by (apply hsector_ok; [done|lia]).
    apply hw_read in Hop as (? & ? & ? & ? & Hc); [|done|lia|done].
    split_and!; try done. split; simpl; try done; [|congruence].
    by destruct Hc as [[_ ->]|[_ ?]].
Qed.

(** A one-block request passes the checks of [lhd_io] and is one round. *)
Lemma lhd_io_block l s b :
  lhd_idle l → 0 ≤ b < lh_blocks l → block_uio s b →
  lhd_io (l, s) =
  lhd_sector b (statval (bool_decide (uio_rw (u_uio s) = UIO_WRITE))) 0 (l, s).
Proof.
  intros Hl Hb (Hok & Hoff & Hres). pose proof (li_hw _ Hl) as Hhw.
  apply hw_size in Hhw. rewrite <- (li_blocks _ Hl) in Hhw. unfold SECTSIZE in *.
  unfold lhd_io, bind, gets. simpl. rewrite Hoff, Hres. unfold LHD_SECTSIZE.
  rewrite (Z.mul_comm 512), Z.quot_mul, Z.rem_mul by done.
  rewrite (u32_small b) by lia. change (512 / 512) with 1. change (u32 0) with 0.
  change (512 mod 512) with 0. simpl. rewrite u32_small by lia.
  destruct (Z.gtb_spec (b + 1) (lh_blocks l)); [lia|].
  unfold bind. destruct (uio_rw (u_uio s)); simpl;
    by destruct (lhd_sector _ _ _ _) as [[] ?| | |].
Qed.
End proofs.

(** The driver meets the file system's interface on a disk whose writes do not
    fail. *)
#[global] Program Instance lhd_dev_ok {W} `{!LhdHw W, !LhdHwOk W} :
  BlockDevOk (lhd_softc W) := {|
  dinv l := lhd_idle l ∧ hw_reliable (lh_hw l);
  sector l b := hsector (lh_hw l) b;
|}.
Next Obligation.
  intros W ? ? l [[] _]. simpl. split; [done|]. rewrite li_blocks0. by apply hw_size.
Qed.
Next Obligation.
  intros W ? ? l b [[] _] Hb. apply hsector_ok; [done|]. simpl in Hb. lia.
Qed.
Next Obligation.
  intros W ? ? l s b [Hl Hrel] Hb Hu Hrw. unfold wp; simpl.
  pose proof Hu as (Hok & _ & Hres). simpl in Hb.
  destruct (finished_idle l false b (lh_buf l)) as (Hi & Hbl & Hr); [done..|by apply Hl|done|].
  rewrite (lhd_io_block l s b) by done. rewrite Hrw, bool_decide_false by done.
  rewrite (lhd_sector_read l s b) by
    (done || (rewrite Z.add_0_r; apply u32_small; pose proof (hw_size _ (li_hw _ Hl)); pose proof (li_blocks _ Hl); lia)
     || apply Hi || (rewrite Hres; done)).
  revert Hi Hbl Hr. unfold finished.
  destruct (hw_op false b (lh_buf l) (lh_hw l)) as [[code buf'] w'] eqn:Hop; simpl.
  pose proof Hl as [].
  apply hw_read in Hop as (? & ? & ? & ? & [[-> ->]|[-> ?]]); [..|done|lia|done]; simpl; auto.
Qed.
Next Obligation.
  intros W ? ? l s b [Hl Hrel] Hb Hu Hrw Hdata. unfold wp; simpl.
  pose proof Hu as (Hok & _ & Hres). simpl in Hb.
  assert (Hlen : zlen (kdata LHD_SECTSIZE s) = LHD_SECTSIZE)
    by (apply zlen_kdata; unfold LHD_SECTSIZE, SECTSIZE in *; done || lia).
  destruct (finished_idle l true b (kdata LHD_SECTSIZE s)) as (Hi & Hbl & Hr); [done..|].
  rewrite (lhd_io_block l s b) by done. rewrite Hrw, bool_decide_true by done.
  rewrite (lhd_sector_write l s b) by
    (done || (rewrite Z.add_0_r; apply u32_small; pose proof (hw_size _ (li_hw _ Hl)); pose proof (li_blocks _ Hl); lia)
     || (rewrite Hres; done)).
  revert Hi Hbl Hr. unfold finished.
  destruct (hw_op true b (kdata LHD_SECTSIZE s) (lh_hw l)) as [[code buf'] w'] eqn:Hop; simpl.
  pose proof Hl as [].
  apply hw_write in Hop as (? & ? & ? & ? & Hoth & [[-> Hs]|[-> ?]]); [..|done|lia|done]; simpl.
  - intros. split_and!; auto. intros c. case_decide; [by subst|]. by apply Hoth.
  - done.
Qed.

(** ** Properties *)

Section properties.
Context {W : Type} `{!LhdHw W, !LhdHwOk W}.
Implicit Types (l : lhd_softc W) (s : ustate).

(** The [n] sectors from [b] on, as one string of bytes. *)
Definition sectors (l : lhd_softc W) (b : Z) (n : nat) : list Z :=
  concat (map (λ i, hsector (lh_hw l) (b + Z.of_nat i)) (seq 0 n)).

Lemma sectors_S l b n :
  sectors l b (S n) = sectors l b n ++ hsector (lh_hw l) (b + Z.of_nat n).
Proof.
  unfold sectors. rewrite seq_S, map_app, concat_app. simpl. by rewrite app_nil_r.
Qed.
Lemma zlen_sectors l b n :
  hinv (lh_hw l) → 0 ≤ b → b + Z.of_nat n ≤ hw_nsect (lh_hw l) →
  zlen (sectors l b n) = LHD_SECTSIZE * Z.of_nat n.
Proof.
  intros Hi Hb Hn. induction n as [|n IH]; [done|].
  rewrite sectors_S, zlen_app, IH by lia.
  destruct (hsector_ok (lh_hw l) (b + Z.of_nat n)) as [-> _]; [done|lia|].
  unfold LHD_SECTSIZE, SECTSIZE. lia.
Qed.

(** The state of a read after [i] sectors. *)
Definition read_upto (l : lhd_softc W) (s : ustate) (b i : Z) (t : lhd_softc W * ustate) : Prop :=
  lhd_idle t.1 ∧ lh_blocks t.1 = lh_blocks l ∧
  (∀ c, hsector (lh_hw t.1) c = hsector (lh_hw l) c) ∧
  t.2 = kfilled (sectors l b (Z.to_nat i)) s.

Lemma lhd_read_step l s b n i t :
  lhd_idle l → kuio_ok s → uio_rw (u_uio s) = UIO_READ →
  uio_resid (u_uio s) = LHD_SECTSIZE * n → 0 ≤ b → b + n ≤ lh_blocks l → 0 ≤ i < n →
  read_upto l s b i t →
  wp (lhd_sector b LHD_WORKING i) (λ _ t', read_upto l s b (i + 1) t')
     (λ e t', e = EIO ∧ ∃ i, 0 ≤ i < n ∧ read_upto l s b i t') t.
Proof.
  destruct t as [l1 s1]. intros Hl Hok Hrw Hres Hb Hn Hi (Hl1 & Hb1 & Hs1 & Hs); simpl in *.
  subst s1. pose proof (hw_size _ (li_hw _ Hl)). pose proof (li_blocks _ Hl).
  assert (Hz : zlen (sectors l b (Z.to_nat i)) = LHD_SECTSIZE * i)
    by (rewrite zlen_sectors, Z2Nat.id; [done|lia|apply Hl|done|lia]).
  unfold LHD_SECTSIZE in *.
  assert (Hok1 : kuio_ok (kfilled (sectors l b (Z.to_nat i)) s)) by (apply kfilled_ok; [done|lia]).
  destruct (finished_idle l1 false (b + i) (lh_buf l1)) as (Hf & Hfb & _);
    [done|lia|apply Hl1|done|].
  unfold wp. rewrite (lhd_sector_read l1 _ (b + i)); try done; try lia;
    [|apply u32_small; lia|simpl; unfold LHD_SECTSIZE; lia|apply Hf].
  revert Hf Hfb. unfold finished.
  destruct (hw_op false (b + i) (lh_buf l1) (lh_hw l1)) as [[code buf'] w'] eqn:Hop.
  pose proof Hl1 as [].
  apply hw_read in Hop as (? & ? & Hsec & ? & [[-> ->]|[-> ?]]); [..|done|lia|done]; simpl;
    intros Hf Hfb.
  - unfold read_upto; simpl. split_and!; try done; [intros c; by rewrite Hsec|].
    replace (Z.to_nat (i + 1)) with (S (Z.to_nat i)) by lia.
    rewrite sectors_S, Hs1, Z2Nat.id by lia. apply kfilled_app; [done|].
    destruct (hsector_ok (lh_hw l) (b + i)) as [-> _]; [apply Hl|lia|]. unfold SECTSIZE. lia.
  - split; [done|]. exists i. split; [lia|]. unfold read_upto; simpl.
    split_and!; try done. intros c; by rewrite Hsec.
Qed.

(** [lhd_io] on a kernel descriptor reads exactly the sectors asked for.
    On a media error it returns EIO, the descriptor has advanced over the
    sectors already delivered, and their data is in place. *)
Theorem lhd_io_read_correct l s b n :
  lhd_idle l → kuio_ok s → uio_rw (u_uio s) = UIO_READ →
  uio_offset (u_uio s) = LHD_SECTSIZE * b → uio_resid (u_uio s) = LHD_SECTSIZE * n →
  0 ≤ b → 0 ≤ n → b + n ≤ lh_blocks l →
  wp lhd_io (λ _ t, read_upto l s b n t)
     (λ e t, e = EIO ∧ ∃ i, 0 ≤ i < n ∧ read_upto l s b i t) (l, s).
Proof.
  intros Hl Hok Hrw Hoff Hres Hb Hn0 Hn.
  pose proof (hw_size _ (li_hw _ Hl)). pose proof (li_blocks _ Hl).
  unfold lhd_io. wp_bind. apply wp_gets. simpl. rewrite Hoff, Hres. wp_bind. apply wp_gets. simpl.
  rewrite (Z.mul_comm _ b), (Z.mul_comm _ n).
  rewrite Z.quot_mul, Z.rem_mul, Z.div_mul, Z.mod_mul by done. rewrite (u32_small b) by lia.
  simpl. rewrite u32_small by lia. destruct (Z.gtb_spec (b + n) (lh_blocks l)); [lia|].
  rewrite Hrw. replace (read_upto l s b n) with (read_upto l s b (0 + Z.of_nat (Z.to_nat n)))
    by (f_equal; lia).
  apply (wp_for_range (read_upto l s b)).
  - unfold read_upto; simpl; split_and!; try done. unfold kfilled, sectors, uio_adv; simpl.
    rewrite zlen_nil, splice_nil, !Z.add_0_r, !Z.sub_0_r. by destruct s as [[] ? ? ? ?].
  - intros i t Hi. apply lhd_read_step; done || lia.
Qed.

(** A request that is not aligned to sectors, or reaches past the end of
    the disk, is refused with EINVAL and has no effect. *)
Theorem lhd_io_rejects l s :
  0 ≤ uio_offset (u_uio s) < 2147483648 → 0 ≤ uio_resid (u_uio s) < 2147483648 →
  uio_offset (u_uio s) mod LHD_SECTSIZE ≠ 0 ∨ uio_resid (u_uio s) mod LHD_SECTSIZE ≠ 0 ∨
  lh_blocks l * LHD_SECTSIZE < uio_offset (u_uio s) + uio_resid (u_uio s) →
  lhd_io (l, s) = Err EINVAL (l, s).
Proof.
  intros Ho Hr Hbad. unfold lhd_io, bind, gets. simpl.
  rewrite Z.quot_div_nonneg, Z.rem_mod_nonneg by (unfold LHD_SECTSIZE; lia).
  unfold LHD_SECTSIZE in *.
  rewrite (u32_small (_ mod _)), (u32_small (_ / _)), (u32_small (_ / _ + _ / _))
    by (Z.div_mod_to_equations; lia).
  destruct (Z.eqb_spec (uio_offset (u_uio s) mod 512) 0); simpl; [|done].
  destruct (Z.eqb_spec (uio_resid (u_uio s) mod 512) 0); simpl; [|done].
  match goal with |- context [?x >? ?y] => destruct (Z.gtb_spec x y) end; [done|].
  Z.div_mod_to_equations. lia.
Qed.
End properties.

(** ** A disk to run the driver on

    Sectors in a list; the scripts say which of the next reads and writes
    fail. *)
Module SimDisk.

Record disk := mkdisk { dk_data : list (list Z); dk_rfail : list bool; dk_wfail : list bool }.

Definition op (wr : bool) (b : Z) (buf : list Z) (w : disk) : Z * list Z * disk :=
  match zget (dk_data w) b with
  | None => (LHD_INVSECT, buf, w)
  | Some x =>
      if wr then
        match dk_wfail w with
        | true :: f => (LHD_MEDIA, buf, mkdisk (dk_data w) (dk_rfail w) f)
        | f => (LHD_OK, buf, mkdisk (zset (dk_data w) b buf) (dk_rfail w) (tail f))
        end
      else
        match dk_rfail w with
        | true :: f => (LHD_MEDIA, buf, mkdisk (dk_data w) f (dk_wfail w))
        | f => (LHD_OK, x, mkdisk (dk_data w) (tail f) (dk_wfail w))
        end
  end.

#[global] Instance hw : LhdHw disk := {| hw_nsect w := zlen (dk_data w); hw_op := op |}.

Definition inv (w : disk) : Prop := zlen (dk_data w) < 4194304 ∧ Forall block_ok (dk_data w).
Definition sec (w : disk) (b : Z) : list Z := default [] (zget (dk_data w) b).

Lemma sec_ok w b : inv w → 0 ≤ b < zlen (dk_data w) → block_ok (sec w b).
Proof.
  intros [_ Hf] Hb. destruct (zget_is_Some _ _ Hb) as [x Hx]. unfold sec. rewrite Hx. simpl.
  unfold zget in Hx. rewrite decide_True in Hx by lia. by eapply Forall_lookup_1.
Qed.
Lemma zset_ok (l : list (list Z)) i x : Forall block_ok l → block_ok x → Forall block_ok (zset l i x).
Proof. unfold zset. case_decide; [apply Forall_insert|done]. Qed.

#[global] Program Instance hw_ok : LhdHwOk disk := {|
  hinv := inv; hw_reliable w := Forall (λ f, f = false) (dk_wfail w); hsector := sec |}.
Next Obligation. intros w [? _]. simpl. pose proof (zlen_nonneg (dk_data w)). lia. Qed.
Next Obligation. intros w b. apply sec_ok. Qed.
Next Obligation.
  intros w b buf code buf' w' [Hn Hf] Hb Hlen Hop. simpl in *. unfold op, sec in *.
  destruct (zget_is_Some _ _ Hb) as [x Hx]. rewrite Hx in *. simpl.
  destruct (dk_rfail w) as [|[] f]; simplify_eq; simpl; (split; [done|]); auto 10.
Qed.
Next Obligation.
  intros w b buf code buf' w' [Hn Hf] Hb [Hlen Hbuf] Hop. simpl in *. unfold op, sec in *.
  destruct (zget_is_Some _ _ Hb) as [x Hx]. rewrite Hx in *. simpl.
  assert (Hz : ∀ f, inv (mkdisk (zset (dk_data w) b buf) (dk_rfail w) f)).
  { split; simpl; [by rewrite zlen_zset|]. by apply zset_ok. }
  destruct (dk_wfail w) as [|[] f] eqn:Hw; simplify_eq; simpl;
    rewrite ?zlen_zset, ?zget_zset_eq by done;
    split_and!; auto; try (intros; by rewrite zget_zset_ne by done); simpl.
  all: try by inversion 1.
  - by split.
  - right. split; [done|]. by inversion 1.
Qed.

Definition dev (w : disk) : lhd_softc disk :=
  mklhd w LHD_IDLE 0 (replicate 512 0) None 1 0 (zlen (dk_data w)) LHD_SECTSIZE.

Lemma dev_idle w : inv w → lhd_idle (dev w).
Proof. intros. by split. Qed.

End SimDisk.

(** ** Witnesses *)

Definition toy_disk (rf wf : list bool) : SimDisk.disk :=
  SimDisk.mkdisk [replicate 512 7; replicate 512 8; replicate 512 9] rf wf.
Lemma toy_disk_inv rf wf : SimDisk.inv (toy_disk rf wf).
Proof.
  split; [done|]. unfold toy_disk, SimDisk.dk_data.
  repeat apply Forall_cons_2; try apply Forall_nil_2;
    (split; [done|by apply Forall_replicate]).
Qed.

(** A kernel descriptor over a 512-byte buffer. *)
Definition toy_uio (b : Z) (rw : enum_uio_rw) (data : list Z) : ustate :=
  mkustate (mk_kuio 0 (zlen data) (512 * b) rw) data ∅ [] 0.

Lemma lhd_io_read_correct_witness :
  wp lhd_io (λ _ t, u_kbuf t.2 = replicate 512 8 ++ replicate 512 9)
     (λ e t, e = EIO)
     (SimDisk.dev (toy_disk [] []), toy_uio 1 UIO_READ (replicate 1024 0)).
Proof.
  eapply wp_mono;
    [apply (lhd_io_read_correct (SimDisk.dev (toy_disk [] []))
              (toy_uio 1 UIO_READ (replicate 1024 0)) 1 2)|..].
  - apply SimDisk.dev_idle, toy_disk_inv.
  - split; vm_compute; intuition congruence.
  - reflexivity.
  - reflexivity.
  - reflexivity.
  - lia.
  - lia.
  - vm_compute. discriminate.
  - intros _ t (_ & _ & _ & Ht). rewrite Ht. vm_compute. reflexivity.
  - intros e t [He _]. exact He.
Defined.

Lemma lhd_io_rejects_witness :
  lhd_io (SimDisk.dev (toy_disk [] []), toy_uio 3 UIO_READ (replicate 512 0)) =
  Err EINVAL (SimDisk.dev (toy_disk [] []), toy_uio 3 UIO_READ (replicate 512 0)).
Proof.
  apply lhd_io_rejects.
  - vm_compute. intuition congruence.
  - vm_compute. intuition congruence.
  - right. right. vm_compute. reflexivity.
Defined.
