(* ===== verification/SfsDisk.v ===== *)
(** * SFS on-disk structures (kern/include/kern/sfs.h)

    The C code reads a block straight into a structure; [dec_*] is the layout
    of the structure in memory (big-endian, as on the MIPS), [enc_*] its
    inverse. *)

From S2P Require Import Prelude CopyInOut Uio BlockDev.

Definition SFS_MAGIC : Z := 2880303105.
Definition SFS_BLOCKSIZE : Z := 512.
Definition SFS_VOLNAME_SIZE : Z := 32.
Definition SFS_NDIRECT : Z := 15.
Definition SFS_DBPERIDB : Z := 128.
Definition SFS_NAMELEN : Z := 60.
Definition SFS_SB_LOCATION : Z := 0.
Definition SFS_ROOT_LOCATION : Z := 1.
Definition SFS_MAP_LOCATION : Z := 2.
Definition SFS_NOINO : Z := 0.
Definition SFS_BLOCKBITS : Z := SFS_BLOCKSIZE * 8.
Definition SFS_ROUNDUP (a b : Z) : Z := u32 (u32 (u32 (a + b) - 1) / b * b).
Definition SFS_BITMAPSIZE (nblocks : Z) : Z := SFS_ROUNDUP nblocks SFS_BLOCKBITS.
Definition SFS_BITBLOCKS (nblocks : Z) : Z := SFS_BITMAPSIZE nblocks / SFS_BLOCKBITS.
Definition SFS_TYPE_INVAL : Z := 0.
Definition SFS_TYPE_FILE : Z := 1.
Definition SFS_TYPE_DIR : Z := 2.

Record sfs_super := mksuper {
  sp_magic : Z;
  sp_nblocks : Z;
  sp_volname : list Z;
  sp_reserved : list Z;
}.

Record sfs_inode := mkinode {
  sfi_size : Z;
  sfi_type : Z;
  sfi_linkcount : Z;
  sfi_direct : list Z;
  sfi_indirect : Z;
  sfi_waste : list Z;
}.

Record sfs_dir := mkdir {
  sfd_ino : Z;
  sfd_name : list Z;
}.
Definition sizeof_sfs_dir : Z := 64.

#[global] Instance sfs_dir_eq_dec : EqDecision sfs_dir.
Proof. solve_decision. Defined.

(** ** Words in memory *)

Definition be16 (x : Z) : list Z := [u8 (x / 256); u8 x].
Definition be32 (x : Z) : list Z := [u8 (x / 16777216); u8 (x / 65536); u8 (x / 256); u8 x].
Definition rd16 (l : list Z) : Z * list Z :=
  match l with a :: b :: r => (a * 256 + b, r) | _ => (0, []) end.
Definition rd32 (l : list Z) : Z * list Z :=
  match l with
  | a :: b :: c :: d :: r => (a * 16777216 + b * 65536 + c * 256 + d, r)
  | _ => (0, [])
  end.
Definition enc_words (ws : list Z) : list Z := concat (map be32 ws).
Fixpoint rdwords (n : nat) (l : list Z) : list Z * list Z :=
  match n with
  | O => ([], l)
  | S n' => let '(w, r) := rd32 l in let '(ws, r') := rdwords n' r in (w :: ws, r')
  end.
#[global] Arguments rd32 : simpl never.
#[global] Arguments be32 : simpl never.
#[global] Arguments rd16 : simpl never.
#[global] Arguments be16 : simpl never.

(** An indirect block is [u_int32_t idbuf[SFS_DBPERIDB]]. *)
Definition dec_idbuf (l : list Z) : list Z := (rdwords 128 l).1.

Definition dec_inode (l : list Z) : sfs_inode :=
  let '(size, l) := rd32 l in
  let '(ty, l) := rd16 l in
  let '(lc, l) := rd16 l in
  let '(direct, l) := rdwords 15 l in
  let '(ind, l) := rd32 l in
  let '(waste, l) := rdwords 110 l in
  mkinode size ty lc direct ind waste.
Definition enc_inode (i : sfs_inode) : list Z :=
  be32 (sfi_size i) ++ be16 (sfi_type i) ++ be16 (sfi_linkcount i) ++
  enc_words (sfi_direct i) ++ be32 (sfi_indirect i) ++ enc_words (sfi_waste i).

Definition dec_super (l : list Z) : sfs_super :=
  let '(magic, l) := rd32 l in
  let '(nblocks, l) := rd32 l in
  mksuper magic nblocks (take 32 l) (rdwords 118 (drop 32 l)).1.
Definition enc_super (sp : sfs_super) : list Z :=
  be32 (sp_magic sp) ++ be32 (sp_nblocks sp) ++ sp_volname sp ++ enc_words (sp_reserved sp).

Definition dec_dir (l : list Z) : sfs_dir :=
  let '(ino, l) := rd32 l in mkdir ino (take 60 l).
Definition enc_dir (sd : sfs_dir) : list Z := be32 (sfd_ino sd) ++ sfd_name sd.

(** ** Values that fit their fields *)

Definition word32 (x : Z) : Prop := 0 ≤ x < 4294967296.
Definition word16 (x : Z) : Prop := 0 ≤ x < 65536.
Record inode_wf (i : sfs_inode) : Prop := {
  iw_size : word32 (sfi_size i);
  iw_type : word16 (sfi_type i);
  iw_link : word16 (sfi_linkcount i);
  iw_direct : length (sfi_direct i) = 15%nat ∧ Forall word32 (sfi_direct i);
  iw_indirect : word32 (sfi_indirect i);
  iw_waste : length (sfi_waste i) = 110%nat ∧ Forall word32 (sfi_waste i);
}.
Record super_wf (sp : sfs_super) : Prop := {
  sw_magic : word32 (sp_magic sp);
  sw_nblocks : word32 (sp_nblocks sp);
  sw_volname : length (sp_volname sp) = 32%nat ∧ bytes (sp_volname sp);
  sw_reserved : length (sp_reserved sp) = 118%nat ∧ Forall word32 (sp_reserved sp);
}.
Definition dir_wf (sd : sfs_dir) : Prop :=
  word32 (sfd_ino sd) ∧ length (sfd_name sd) = 60%nat ∧ bytes (sfd_name sd).

(** ** Round trips *)

Lemma rd32_be32 x r : word32 x → rd32 (be32 x ++ r) = (x, r).
Proof.
  unfold word32. intros Hx. unfold rd32, be32, u8; simpl. f_equal.
  Z.div_mod_to_equations. lia.
Qed.
Lemma rd16_be16 x r : word16 x → rd16 (be16 x ++ r) = (x, r).
Proof.
  unfold word16. intros Hx. unfold rd16, be16, u8; simpl. f_equal.
  Z.div_mod_to_equations. lia.
Qed.
Lemma rdwords_S n l :
  rdwords (S n) l = let '(w, r) := rd32 l in let '(ws, r') := rdwords n r in (w :: ws, r').
Proof. done. Qed.
Lemma enc_words_cons w ws : enc_words (w :: ws) = be32 w ++ enc_words ws.
Proof. done. Qed.
Lemma rdwords_enc ws r : Forall word32 ws → rdwords (length ws) (enc_words ws ++ r) = (ws, r).
Proof.
  induction 1 as [|w ws Hw _ IH]; [done|]. cbn [length].
  rewrite rdwords_S, enc_words_cons, <- app_assoc, rd32_be32 by done. by rewrite IH.
Qed.

(** Splitting a buffer that starts with a word. *)
Lemma rd32_bytes l w r :
  bytes l → 4 ≤ zlen l → rd32 l = (w, r) → l = be32 w ++ r ∧ word32 w ∧ bytes r.
Proof.
  intros Hb Hl Hrd. destruct l as [|a [|b [|c [|d l]]]]; unfold zlen in Hl; simpl in Hl; try lia.
  unfold rd32 in Hrd. simplify_eq. unfold bytes in Hb. rewrite !Forall_cons in Hb.
  destruct Hb as (? & ? & ? & ? & ?). split; [|split; [unfold word32; lia|done]].
  unfold be32, u8. simpl. repeat f_equal; Z.div_mod_to_equations; lia.
Qed.
Lemma rd16_bytes l w r :
  bytes l → 2 ≤ zlen l → rd16 l = (w, r) → l = be16 w ++ r ∧ word16 w ∧ bytes r.
Proof.
  intros Hb Hl Hrd. destruct l as [|a [|b l]]; unfold zlen in Hl; simpl in Hl; try lia.
  unfold rd16 in Hrd. simplify_eq. unfold bytes in Hb. rewrite !Forall_cons in Hb.
  destruct Hb as (? & ? & ?). split; [|split; [unfold word16; lia|done]].
  unfold be16, u8. simpl. repeat f_equal; Z.div_mod_to_equations; lia.
Qed.
Lemma rdwords_bytes n l ws r :
  bytes l → 4 * Z.of_nat n ≤ zlen l → rdwords n l = (ws, r) →
  l = enc_words ws ++ r ∧ length ws = n ∧ Forall word32 ws ∧ bytes r.
Proof.
  revert l ws r. induction n as [|n IH]; intros l ws r Hb Hl Hrd; simpl in Hrd; [by simplify_eq|].
  destruct (rd32 l) as [w l1] eqn:H1. destruct (rdwords n l1) as [ws1 r1] eqn:H2. simplify_eq.
  apply rd32_bytes in H1 as (-> & Hw & Hb1); [|done|lia].
  apply IH in H2 as (-> & <- & ? & ?); [|done|unfold zlen in *; rewrite length_app in Hl; simpl in Hl; lia].
  rewrite enc_words_cons, <- app_assoc. auto.
Qed.

Lemma zlen_be32 x : zlen (be32 x) = 4. Proof. done. Qed.
Lemma zlen_be16 x : zlen (be16 x) = 2. Proof. done. Qed.
Lemma zlen_enc_words ws : zlen (enc_words ws) = 4 * zlen ws.
Proof.
  induction ws as [|w ws IH]; [done|].
  rewrite enc_words_cons, zlen_app, IH, zlen_be32, zlen_cons. lia.
Qed.
Lemma u8_byte x : 0 ≤ u8 x < 256.
Proof. unfold u8. apply Z.mod_pos_bound. done. Qed.
Lemma bytes_be32 x : bytes (be32 x).
Proof. unfold be32. repeat apply Forall_cons_2; auto using u8_byte. Qed.
Lemma bytes_be16 x : bytes (be16 x).
Proof. unfold be16. repeat apply Forall_cons_2; auto using u8_byte. Qed.
Lemma bytes_enc_words ws : bytes (enc_words ws).
Proof.
  induction ws; [by apply Forall_nil_2|].
  rewrite enc_words_cons, bytes_app. auto using bytes_be32.
Qed.

Lemma zlen_length {A} (l : list A) n : length l = n → zlen l = Z.of_nat n.
Proof. by intros <-. Qed.

(** Sequential decoding of an encoded structure. *)
Create Rewrite HintDb sfsdec.
#[local] Hint Rewrite rd32_be32 rd16_be16 using done : sfsdec.

Lemma dec_enc_inode i : inode_wf i → dec_inode (enc_inode i) = i.
Proof.
  intros [? ? ? [Hd ?] ? [Hw ?]]. unfold dec_inode, enc_inode.
  autorewrite with sfsdec. rewrite <- Hd at 1. rewrite rdwords_enc by done.
  autorewrite with sfsdec. rewrite <- Hw at 1.
  rewrite <- (app_nil_r (enc_words (sfi_waste i))), rdwords_enc by done. by destruct i.
Qed.
Lemma enc_inode_block i : inode_wf i → block_ok (enc_inode i).
Proof.
  intros [? ? ? [Hd ?] ? [Hw ?]]. unfold enc_inode. split.
  - rewrite !zlen_app, !zlen_be32, !zlen_be16, !zlen_enc_words.
    by rewrite (zlen_length _ _ Hd), (zlen_length _ _ Hw).
  - rewrite !bytes_app. auto 10 using bytes_be32, bytes_be16, bytes_enc_words.
Qed.

(** Peel the next field off a buffer whose length [Hl] gives. *)
Ltac peel32 Hl l w r :=
  let H := fresh "Hrd" in
  destruct (rd32 l) as [w r] eqn:H;
  apply rd32_bytes in H as (-> & ? & ?); [|done|lia]; rewrite zlen_app, zlen_be32 in Hl.
Ltac peel16 Hl l w r :=
  let H := fresh "Hrd" in
  destruct (rd16 l) as [w r] eqn:H;
  apply rd16_bytes in H as (-> & ? & ?); [|done|lia]; rewrite zlen_app, zlen_be16 in Hl.
Ltac peelwords Hl n l ws r :=
  let H := fresh "Hrd" in let Hn := fresh "Hn" in
  destruct (rdwords n l) as [ws r] eqn:H;
  apply rdwords_bytes in H as (-> & Hn & ? & ?); [|done|lia];
  rewrite zlen_app, zlen_enc_words, (zlen_length _ _ Hn) in Hl.

Lemma dec_inode_wf l : block_ok l → inode_wf (dec_inode l) ∧ enc_inode (dec_inode l) = l.
Proof.
  unfold block_ok, SECTSIZE. intros [Hl Hb]. unfold dec_inode.
  peel32 Hl l sz l1. peel16 Hl l1 ty l2. peel16 Hl l2 lc l3. peelwords Hl 15%nat l3 ds l4.
  peel32 Hl l4 ib l5. peelwords Hl 110%nat l5 ws l6.
  rewrite (zlen_0_nil l6) by lia.
  split; [by split|]. unfold enc_inode; simpl. by rewrite app_nil_r.
Qed.

Lemma dec_enc_super sp : super_wf sp → dec_super (enc_super sp) = sp.
Proof.
  intros [? ? [Hv ?] [Hr ?]]. unfold dec_super, enc_super. autorewrite with sfsdec.
  rewrite take_app_length', drop_app_length' by done. rewrite <- Hr at 1.
  rewrite <- (app_nil_r (enc_words (sp_reserved sp))), rdwords_enc by done. by destruct sp.
Qed.
Lemma enc_super_block sp : super_wf sp → block_ok (enc_super sp).
Proof.
  intros [? ? [Hv ?] [Hr ?]]. unfold enc_super. split.
  - rewrite !zlen_app, !zlen_be32, !zlen_enc_words.
    by rewrite (zlen_length _ _ Hv), (zlen_length _ _ Hr).
  - rewrite !bytes_app. auto 10 using bytes_be32, bytes_enc_words.
Qed.
Lemma dec_super_wf l : block_ok l → super_wf (dec_super l) ∧ enc_super (dec_super l) = l.
Proof.
  unfold block_ok, SECTSIZE. intros [Hl Hb]. unfold dec_super.
  peel32 Hl l mg l1. peel32 Hl l1 nb l2.
  destruct (rdwords 118 (drop 32 l2)) as [ws l3] eqn:H3.
  apply rdwords_bytes in H3 as (Hd & Hw & ? & ?);
    [|by apply Forall_drop|unfold zlen in *; rewrite length_drop; lia].
  assert (l3 = []) as ->.
  { apply zlen_0_nil. apply (f_equal zlen) in Hd. change (drop 32 l2) with (zdrop 32 l2) in Hd.
    rewrite zlen_app, zlen_enc_words, (zlen_length _ _ Hw), zlen_zdrop in Hd by lia. lia. }
  rewrite app_nil_r in Hd. simpl. split.
  - split; simpl; try done. split; [rewrite length_take; unfold zlen in *; lia|by apply Forall_take].
  - unfold enc_super; simpl. by rewrite <- Hd, take_drop.
Qed.

Lemma dec_enc_dir sd : dir_wf sd → dec_dir (enc_dir sd) = sd.
Proof.
  intros (? & Hn & ?). unfold dec_dir, enc_dir. autorewrite with sfsdec.
  rewrite take_ge by lia. by destruct sd.
Qed.
Lemma enc_dir_bytes sd : dir_wf sd → zlen (enc_dir sd) = sizeof_sfs_dir ∧ bytes (enc_dir sd).
Proof.
  intros (? & Hn & ?). unfold enc_dir.
  rewrite zlen_app, zlen_be32, (zlen_length _ _ Hn), bytes_app. auto using bytes_be32.
Qed.
Lemma dec_dir_wf l :
  zlen l = sizeof_sfs_dir → bytes l → dir_wf (dec_dir l) ∧ enc_dir (dec_dir l) = l.
Proof.
  unfold sizeof_sfs_dir. intros Hl Hb. unfold dec_dir. peel32 Hl l ino r.
  assert (length r = 60%nat) by (unfold zlen in Hl; lia).
  rewrite take_ge by lia. by split.
Qed.

Lemma dec_enc_idbuf ws : length ws = 128%nat → Forall word32 ws → dec_idbuf (enc_words ws) = ws.
Proof.
  intros Hl Hw. unfold dec_idbuf. rewrite <- Hl, <- (app_nil_r (enc_words ws)).
  by rewrite rdwords_enc.
Qed.
Lemma enc_idbuf_block ws : length ws = 128%nat → block_ok (enc_words ws).
Proof.
  intros Hl. split; [by rewrite zlen_enc_words, (zlen_length _ _ Hl)|apply bytes_enc_words].
Qed.
Lemma dec_idbuf_wf l :
  block_ok l → length (dec_idbuf l) = 128%nat ∧ Forall word32 (dec_idbuf l) ∧
               enc_words (dec_idbuf l) = l.
Proof.
  unfold block_ok, SECTSIZE. intros [Hl Hb]. unfold dec_idbuf.
  peelwords Hl 128%nat l ws r. rewrite (zlen_0_nil r) by lia.
  by rewrite app_nil_r.
Qed.

