(* ===== verification/Vnode.v ===== *)
(** * Vnodes (kern/fs/vfs/vnode.c, kern/include/vnode.h)

    The abstract part of a file: its reference and open counts, the lock that
    protects them, and its operation table.  The lock operations are those
    of kern/thread/synch.c in a run of a single thread, where waiting for a
    lock that is held never ends. *)

From S2P Require Import Prelude Kmem.

(** [lk_pointer] is the holder, 0 for NULL. *)
Record lock := mklock {
  lk_name : Z;
  lk_held : Z;
  lk_pointer : Z;
}.

(** The operation tables there are; NULL is [None]. *)
Inductive vnode_ops := sfs_fileops | sfs_dirops.
#[global] Instance vnode_ops_eq_dec : EqDecision vnode_ops.
Proof. solve_decision. Defined.

Record vnode := mkvnode {
  vn_refcount : Z;
  vn_opencount : Z;
  vn_countlock : Z;
  vn_fs : Z;
  vn_data : Z;
  vn_ops : option vnode_ops;
}.

(** The memory these routines work on: the heap, the locks and the vnodes in
    it by address, and [curthread]. *)
Record vst (H : Type) := mkvst {
  vs_heap : H;
  vs_locks : gmap Z lock;
  vs_vn : gmap Z vnode;
  vs_cur : Z;
}.
Arguments mkvst {H} _ _ _ _.
Arguments vs_heap {H} _.
Arguments vs_locks {H} _.
Arguments vs_vn {H} _.
Arguments vs_cur {H} _.

Definition sizeof_struct_lock : Z := 16.

Section vnode.
Context {H : Type} `{!Kmem H}.
Notation st := (vst H).

Definition vheap {A} (c : M H A) : M st A :=
  zoom vs_heap (λ h s, mkvst h (vs_locks s) (vs_vn s) (vs_cur s)) c.
Definition set_lock (p : Z) (l : lock) : M st unit :=
  modify (λ s, mkvst (vs_heap s) (<[p := l]> (vs_locks s)) (vs_vn s) (vs_cur s)).
Definition set_vn (p : Z) (v : vnode) : M st unit :=
  modify (λ s, mkvst (vs_heap s) (vs_locks s) (<[p := v]> (vs_vn s)) (vs_cur s)).
(** A pointer that leads nowhere is a wild access. *)
Definition get_lock (p : Z) : M st lock := λ s,
  match vs_locks s !! p with Some l => Ok l s | None => Panic end.
Definition get_vn (p : Z) : M st vnode := λ s,
  match vs_vn s !! p with Some v => Ok v s | None => Panic end.

(** ** Locks *)

(** The characters of a string are not needed here, only its length. *)
Definition kstrdup (strlen : Z) : M st Z := vheap (kmalloc (strlen + 1)).

(** [held] and [pointer] are whatever the block contains. *)
Definition lock_create (namelen : Z) : M st Z :=
  let! p := vheap (kmalloc sizeof_struct_lock) in
  if p =? 0 then ret 0
  else
    let! n := kstrdup namelen in
    if n =? 0 then vheap (kfree p) ;;; ret 0
    else
      let! h := gets vs_heap in
      set_lock p (mklock n (kword (p + 4) h) (kword (p + 12) h)) ;;;
      ret p.

Definition lock_destroy (p : Z) : M st unit :=
  kassert (negb (p =? 0)) ;;;
  let! l := get_lock p in
  vheap (kfree (lk_name l)) ;;;
  vheap (kfree p) ;;;
  modify (λ s, mkvst (vs_heap s) (delete p (vs_locks s)) (vs_vn s) (vs_cur s)).

Definition lock_do_i_hold (p : Z) : M st bool :=
  let! l := get_lock p in
  let! cur := gets vs_cur in
  ret (lk_pointer l =? cur).

Definition lock_acquire (p : Z) : M st unit :=
  kassert (negb (p =? 0)) ;;;
  let! mine := lock_do_i_hold p in
  kassert (negb mine) ;;;
  let! l := get_lock p in
  let! cur := gets vs_cur in
  if negb (lk_held l =? 0) then hang
  else set_lock p (mklock (lk_name l) 1 cur).

Definition lock_release (p : Z) : M st unit :=
  kassert (negb (p =? 0)) ;;;
  let! l := get_lock p in
  set_lock p (mklock (lk_name l) 0 0).

(** ** Vnodes *)

Definition set_refcount (n : Z) (v : vnode) : vnode :=
  mkvnode n (vn_opencount v) (vn_countlock v) (vn_fs v) (vn_data v) (vn_ops v).
Definition set_opencount (n : Z) (v : vnode) : vnode :=
  mkvnode (vn_refcount v) n (vn_countlock v) (vn_fs v) (vn_data v) (vn_ops v).

(** ["vnode-countlock"] has 15 characters.  On ENOMEM [vn_fs] and [vn_data]
    keep what the block contained. *)
Definition vnode_init (vn : Z) (ops : option vnode_ops) (fs fsdata : Z) : M st unit :=
  kassert (negb (vn =? 0)) ;;;
  kassert (bool_decide (is_Some ops)) ;;;
  let! lk := lock_create 15 in
  let! h := gets vs_heap in
  if lk =? 0 then
    set_vn vn (mkvnode 1 0 0 (kword (vn + 12) h) (kword (vn + 16) h) ops) ;;; fail ENOMEM
  else set_vn vn (mkvnode 1 0 lk fs fsdata ops).

Definition vnode_kill (vn : Z) : M st unit :=
  let! v := get_vn vn in
  kassert (vn_refcount v =? 1) ;;;
  kassert (vn_opencount v =? 0) ;;;
  kassert (negb (vn_countlock v =? 0)) ;;;
  lock_destroy (vn_countlock v) ;;;
  set_vn vn (mkvnode 0 0 0 0 0 None).

Definition vnode_incref (vn : Z) : M st unit :=
  kassert (negb (vn =? 0)) ;;;
  let! v := get_vn vn in
  lock_acquire (vn_countlock v) ;;;
  set_vn vn (set_refcount (i32 (vn_refcount v + 1)) v) ;;;
  lock_release (vn_countlock v).

(** The part of [vnode_decref] under the lock: must the vnode be reclaimed? *)
Definition vnode_decref_locked (vn : Z) : M st bool :=
  kassert (negb (vn =? 0)) ;;;
  let! v := get_vn vn in
  lock_acquire (vn_countlock v) ;;;
  kassert (vn_refcount v >? 0) ;;;
  (if vn_refcount v >? 1 then set_vn vn (set_refcount (vn_refcount v - 1) v) else ret tt) ;;;
  lock_release (vn_countlock v) ;;;
  ret (negb (vn_refcount v >? 1)).

Definition vnode_incopen (vn : Z) : M st unit :=
  kassert (negb (vn =? 0)) ;;;
  let! v := get_vn vn in
  lock_acquire (vn_countlock v) ;;;
  set_vn vn (set_opencount (i32 (vn_opencount v + 1)) v) ;;;
  lock_release (vn_countlock v).

Definition vnode_decopen_locked (vn : Z) : M st Z :=
  kassert (negb (vn =? 0)) ;;;
  let! v := get_vn vn in
  lock_acquire (vn_countlock v) ;;;
  kassert (vn_opencount v >? 0) ;;;
  set_vn vn (set_opencount (vn_opencount v - 1) v) ;;;
  lock_release (vn_countlock v) ;;;
  ret (vn_opencount v - 1).

Definition DEADBEEF : Z := 3735928559.

(** [reclaim] tells whether the operation name is ["reclaim"].  The two
    warnings about large counts only print. *)
Definition vnode_check (vn : Z) (reclaim : bool) : M st unit :=
  if (vn =? 0) || (vn =? DEADBEEF) then panic
  else
    let! v := get_vn vn in
    match vn_ops v with
    | None => panic
    | Some _ =>
        if vn_fs v =? DEADBEEF then panic
        else
          let! l := get_lock (vn_countlock v) in
          (if negb (lk_held l =? 1)
           then set_lock (vn_countlock v) (mklock (lk_name l) 0 (lk_pointer l)) else ret tt) ;;;
          lock_acquire (vn_countlock v) ;;;
          (if vn_refcount v <? 0 then panic
           else if (vn_refcount v =? 0) && negb reclaim then panic
           else if vn_opencount v <? 0 then panic
           else ret tt) ;;;
          lock_release (vn_countlock v)
    end.

End vnode.

(** The two counts that call back into the file system: [lift] runs a vnode
    routine on the file system's state. *)
Section callbacks.
Context {H S : Type} `{!Kmem H}.
Context (lift : ∀ A, M (vst H) A → M S A) (vop_reclaim vop_close : Z → M S unit).

Definition VOP_RECLAIM (vn : Z) : M S unit :=
  lift _ (vnode_check vn true) ;;; vop_reclaim vn.
Definition VOP_CLOSE (vn : Z) : M S unit :=
  lift _ (vnode_check vn false) ;;; vop_close vn.

(** An error of the operation is only printed. *)
Definition vnode_decref (vn : Z) : M S unit :=
  let! actually_do_it := lift _ (vnode_decref_locked vn) in
  when actually_do_it (try (VOP_RECLAIM vn) ;;; ret tt).
Definition vnode_decopen (vn : Z) : M S unit :=
  let! opencount := lift _ (vnode_decopen_locked vn) in
  if opencount >? 0 then ret tt else try (VOP_CLOSE vn) ;;; ret tt.
End callbacks.

(** ** Behaviour on a vnode whose lock is free *)

Section proofs.
Context {H : Type} `{!Kmem H}.
Implicit Types (s : vst H) (v : vnode).

Record vn_quiet (s : vst H) (p : Z) (v : vnode) : Prop := {
  vq_ptr : p ≠ 0 ∧ p ≠ DEADBEEF;
  vq_vn : vs_vn s !! p = Some v;
  vq_lockptr : vn_countlock v ≠ 0;
  vq_lock : ∃ n, vs_locks s !! vn_countlock v = Some (mklock n 0 0);
  vq_cur : vs_cur s ≠ 0;
}.

Definition put_vn (p : Z) (v : vnode) (s : vst H) : vst H :=
  mkvst (vs_heap s) (vs_locks s) (<[p := v]> (vs_vn s)) (vs_cur s).

Lemma put_vn_id s p v : vs_vn s !! p = Some v → put_vn p v s = s.
Proof. intros Hp. unfold put_vn. rewrite insert_id by done. by destruct s. Qed.

Lemma lock_acquire_free s lk n :
  lk ≠ 0 → vs_locks s !! lk = Some (mklock n 0 0) → vs_cur s ≠ 0 →
  lock_acquire lk s =
  Ok tt (mkvst (vs_heap s) (<[lk := mklock n 1 (vs_cur s)]> (vs_locks s)) (vs_vn s) (vs_cur s)).
Proof.
  intros Hl Hn Hc. apply Z.eqb_neq in Hl.
  assert (E : (0 =? vs_cur s) = false) by lia.
  unfold lock_acquire, lock_do_i_hold, get_lock, bind, kassert, gets, ret.
  rewrite Hl. cbn -[Z.eqb]. rewrite Hn. cbn -[Z.eqb]. rewrite E. cbn -[Z.eqb]. by rewrite Hn.
Qed.
Lemma lock_release_held s lk l :
  lk ≠ 0 → vs_locks s !! lk = Some l →
  lock_release lk s =
  Ok tt (mkvst (vs_heap s) (<[lk := mklock (lk_name l) 0 0]> (vs_locks s)) (vs_vn s) (vs_cur s)).
Proof.
  intros Hl%Z.eqb_neq Hn. unfold lock_release, get_lock, bind, kassert, ret.
  rewrite Hl. cbn. by rewrite Hn.
Qed.

(** A section under the count lock runs as if the lock were not there. *)
Lemma locked_section s p v (f : vnode) :
  vn_quiet s p v →
  bind (lock_acquire (vn_countlock v))
    (λ _, bind (set_vn p f) (λ _, lock_release (vn_countlock v))) s = Ok tt (put_vn p f s).
Proof.
  intros [_ Hv Hl [n Hn] Hc]. unfold bind, set_vn, modify.
  rewrite (lock_acquire_free _ _ n) by done.
  rewrite (lock_release_held _ _ (mklock n 1 (vs_cur s))) by (simpl; rewrite ?lookup_insert_eq; done).
  simpl. rewrite insert_insert_eq, insert_id by done. done.
Qed.
Lemma acquire_release s p v :
  vn_quiet s p v →
  bind (lock_acquire (vn_countlock v)) (λ _, lock_release (vn_countlock v)) s = Ok tt s.
Proof.
  intros [_ Hv Hl [n Hn] Hc]. unfold bind. rewrite (lock_acquire_free _ _ n) by done.
  rewrite (lock_release_held _ _ (mklock n 1 (vs_cur s))) by (simpl; rewrite ?lookup_insert_eq; done).
  simpl. rewrite insert_insert_eq, insert_id by done. by destruct s.
Qed.

Lemma vnode_incref_spec s p v :
  vn_quiet s p v →
  vnode_incref p s = Ok tt (put_vn p (set_refcount (i32 (vn_refcount v + 1)) v) s).
Proof.
  intros Hq. pose proof Hq as [[Hp _] Hv _ _ _].
  rewrite <- (locked_section s p v _ Hq).
  unfold vnode_incref. unfold bind at 1, kassert. destruct (Z.eqb_spec p 0); [done|]. simpl.
  unfold bind at 1, get_vn. by rewrite Hv.
Qed.

Lemma vnode_decref_locked_spec s p v :
  vn_quiet s p v → 0 < vn_refcount v →
  vnode_decref_locked p s =
  if vn_refcount v >? 1
  then Ok false (put_vn p (set_refcount (vn_refcount v - 1) v) s) else Ok true s.
Proof.
  intros Hq Hr. pose proof Hq as [[Hp _] Hv _ _ _].
  unfold vnode_decref_locked. unfold bind at 1, kassert.
  destruct (Z.eqb_spec p 0); [done|]. simpl. unfold bind at 1, get_vn. rewrite Hv.
  destruct (Z.gtb_spec (vn_refcount v) 0); [|lia].
  destruct (Z.gtb_spec (vn_refcount v) 1); simpl.
  - pose proof (locked_section s p v (set_refcount (vn_refcount v - 1) v) Hq) as Hs.
    revert Hs. unfold bind, ret. repeat case_match; simpl; intros; simplify_eq; done.
  - pose proof (acquire_release s p v Hq) as Har. revert Har. unfold bind, ret.
    repeat case_match; simpl; intros; simplify_eq; done.
Qed.

Lemma vnode_check_spec s p v r :
  vn_quiet s p v → is_Some (vn_ops v) → vn_fs v ≠ DEADBEEF →
  0 < vn_refcount v → 0 ≤ vn_opencount v → vnode_check p r s = Ok tt s.
Proof.
  intros Hq [ops Hops] Hfs Hr Ho. pose proof Hq as [[Hp Hd] Hv Hl [n Hn] Hc].
  unfold vnode_check. destruct (Z.eqb_spec p 0); [done|].
  destruct (Z.eqb_spec p DEADBEEF); [done|]. simpl. unfold bind at 1, get_vn.
  rewrite Hv, Hops. destruct (Z.eqb_spec (vn_fs v) DEADBEEF); [done|].
  unfold bind at 1, get_lock. rewrite Hn. simpl.
  unfold bind at 1, set_lock, modify. rewrite insert_id by done.
  destruct s as [hp lks vns cur]; simpl in *.
  destruct (Z.ltb_spec (vn_refcount v) 0); [lia|].
  destruct (Z.eqb_spec (vn_refcount v) 0); [lia|]. simpl.
  destruct (Z.ltb_spec (vn_opencount v) 0); [lia|].
  pose proof (acquire_release _ p v Hq) as Har. revert Har. unfold bind, ret.
  repeat case_match; intros; simplify_eq; done.
Qed.

(** ** Properties *)

(** References are counted exactly: taking a reference and dropping it again
    leaves the vnode as it was and does not reclaim it, whatever the file
    system's reclaim operation does. *)
Theorem vnode_incref_decref {S} (lift : ∀ A, M (vst H) A → M S A)
    (prj : S → vst H) (upd : vst H → S → S) (reclaim : Z → M S unit) t p v :
  (∀ A (c : M (vst H) A), lift A c = zoom prj upd c) →
  (∀ t', upd (prj t') t' = t') → (∀ x t', prj (upd x t') = x) →
  (∀ x y t', upd x (upd y t') = upd x t') →
  vn_quiet (prj t) p v → 0 < vn_refcount v < 2147483647 →
  bind (lift _ (vnode_incref p)) (λ _, vnode_decref lift reclaim p) t = Ok tt t.
Proof.
  intros Hlift Hid Hput Hpp Hq Hr. unfold vnode_decref. rewrite !Hlift.
  unfold bind at 1, zoom at 1. rewrite (vnode_incref_spec _ _ _ Hq), i32_small by lia.
  set (s1 := put_vn p _ (prj t)).
  assert (Hq1 : vn_quiet s1 p (set_refcount (vn_refcount v + 1) v)).
  { destruct Hq. split; simpl; try done. by rewrite lookup_insert_eq. }
  unfold bind, zoom. rewrite Hput, (vnode_decref_locked_spec _ _ _ Hq1) by (simpl; lia). simpl.
  destruct (Z.gtb_spec (vn_refcount v + 1) 1); [|lia]. simpl. rewrite Hpp.
  unfold s1, put_vn; simpl. rewrite insert_insert_eq.
  replace (set_refcount _ _) with v by (unfold set_refcount; simpl; rewrite Z.add_simpl_r; by destruct v).
  change (Ok (S:=S) tt (upd (put_vn p v (prj t)) t) = Ok tt t).
  destruct Hq. by rewrite put_vn_id, Hid by done.
Qed.

(** [lock_create] does not initialise the lock: when the block it gets still
    contains a freed block's fill pattern, taking a reference on a vnode
    with that lock never returns. *)
Theorem fresh_lock_can_hang s lk s1 p v :
  lock_create 15 s = Ok lk s1 → lk ≠ 0 →
  (∀ a, kword a (vs_heap s1) = DEADBEEF) → vs_cur s1 ≠ DEADBEEF →
  p ≠ 0 → vs_vn s1 !! p = Some v → vn_countlock v = lk →
  vnode_incref p s1 = Hang.
Proof.
  intros Hcr Hlk Hjunk Hcur Hp Hv Hvl.
  assert (Hl : ∃ n, vs_locks s1 !! lk = Some (mklock n DEADBEEF DEADBEEF)).
  { revert Hcr. unfold lock_create, bind, kstrdup, vheap, zoom, gets, set_lock, modify, ret.
    repeat case_match; intros; simplify_eq; try done.
    simpl in *. rewrite lookup_insert_eq, !Hjunk. eauto. }
  destruct Hl as [n Hl]. apply Z.eqb_neq in Hp, Hlk. rewrite <- Hvl in Hl, Hlk.
  assert (E : (DEADBEEF =? vs_cur s1) = false) by lia.
  unfold vnode_incref, lock_acquire, lock_do_i_hold, get_lock, get_vn, bind, kassert, gets, ret.
  rewrite Hp. cbn -[Z.eqb]. rewrite Hv, Hlk. cbn -[Z.eqb]. rewrite Hl. cbn -[Z.eqb].
  rewrite E. cbn -[Z.eqb]. by rewrite Hl.
Qed.
End proofs.

(** ** Creating and destroying vnodes *)

Section memory.
Context {H : Type} `{!Kmem H, !KmemOk H}.
Implicit Types (s : vst H) (v : vnode).

(** Nothing of the state changed, except for the internals of the allocator. *)
Definition same_mem s s' : Prop :=
  vs_locks s' = vs_locks s ∧ vs_vn s' = vs_vn s ∧ vs_cur s' = vs_cur s ∧
  kinv (vs_heap s') ∧ klive (vs_heap s') = klive (vs_heap s).

(** A new lock [lk], with its name in [nm]. *)
Record new_lock (lk nm : Z) s s' : Prop := {
  nl_null : lk ≠ 0 ∧ nm ≠ 0;
  nl_fresh : klive (vs_heap s) !! lk = None ∧ klive (vs_heap s) !! nm = None ∧ lk ≠ nm;
  nl_inv : kinv (vs_heap s');
  nl_live : ∃ u1 u2, klive (vs_heap s') = <[nm := u2]> (<[lk := u1]> (klive (vs_heap s)));
  nl_locks : ∃ h p, vs_locks s' = <[lk := mklock nm h p]> (vs_locks s);
  nl_vn : vs_vn s' = vs_vn s;
  nl_cur : vs_cur s' = vs_cur s;
}.

Lemma lock_create_spec s n :
  kinv (vs_heap s) → 0 ≤ n < 4294963200 →
  wp (lock_create n) (λ lk s', lk = 0 ∧ same_mem s s' ∨ ∃ nm, new_lock lk nm s s') (λ _ _, False) s.
Proof.
  intros Hk Hn. unfold lock_create. wp_bind. apply wp_zoom.
  wp_use kmalloc_spec; [done|done| |done].
  intros lk h1 (Hk1 & [[-> Hl1]|(u1 & Hnz & Hf1 & _ & Hl1)]).
  { by left. }
  destruct (Z.eqb_spec lk 0); [done|]. wp_bind. apply wp_zoom. simpl.
  wp_use kmalloc_spec; [done|lia| |done].
  intros nm h2 (Hk2 & [[-> Hl2]|(u2 & Hnz2 & Hf2 & _ & Hl2)]); simpl.
  - wp_bind. apply wp_zoom. simpl.
    wp_use kfree_spec; [done|rewrite Hl2, Hl1, lookup_insert_eq; by eexists| |done].
    intros [] h3 [Hk3 Hl3]. apply wp_ret. left. split_and!; try done. split_and!; try done. simpl.
    by rewrite Hl3, Hl2, Hl1, delete_insert_id.
  - destruct (Z.eqb_spec nm 0); [done|]. wp_bind. apply wp_gets. wp_bind. apply wp_modify.
    apply wp_ret. right. exists nm. rewrite Hl1 in Hf2.
    assert (Hne : lk ≠ nm) by (intros ->; by rewrite lookup_insert_eq in Hf2).
    rewrite lookup_insert_ne in Hf2 by done. split; try done; simpl.
    + exists u1, u2. by rewrite Hl2, Hl1.
    + by eexists _, _.
Qed.

(** A vnode initialised at [p], or everything as before but for [p] itself. *)
Lemma vnode_init_spec s p o fs data :
  kinv (vs_heap s) → p ≠ 0 →
  wp (vnode_init p (Some o) fs data)
     (λ _ s', ∃ lk nm s1, new_lock lk nm s s1 ∧ s' = put_vn p (mkvnode 1 0 lk fs data (Some o)) s1)
     (λ e s', e = ENOMEM ∧ ∃ s1 v, same_mem s s1 ∧ s' = put_vn p v s1) s.
Proof.
  intros Hk Hp. unfold vnode_init. wp_bind. apply wp_kassert; [lia|]. wp_bind.
  apply wp_kassert; [done|]. wp_bind. wp_use lock_create_spec; [done|lia| |done].
  intros lk s1 [[-> Hs]|(nm & Hl)]; wp_bind; apply wp_gets.
  - wp_bind. apply wp_modify. apply wp_fail. split; [done|]. by eexists s1, _.
  - destruct (nl_null _ _ _ _ Hl). destruct (Z.eqb_spec lk 0); [done|]. apply wp_modify. by exists lk, nm, s1.
Qed.

(** Destroying a vnode nobody else refers to gives its lock back. *)
Lemma vnode_kill_spec s p v nm h q :
  kinv (vs_heap s) → vs_vn s !! p = Some v → vn_refcount v = 1 → vn_opencount v = 0 →
  vn_countlock v ≠ 0 → vs_locks s !! vn_countlock v = Some (mklock nm h q) → nm ≠ vn_countlock v →
  is_Some (klive (vs_heap s) !! nm) → is_Some (klive (vs_heap s) !! vn_countlock v) →
  wp (vnode_kill p)
     (λ _ s', vs_locks s' = delete (vn_countlock v) (vs_locks s) ∧
        vs_vn s' = <[p := mkvnode 0 0 0 0 0 None]> (vs_vn s) ∧ vs_cur s' = vs_cur s ∧
        kinv (vs_heap s') ∧
        klive (vs_heap s') = delete (vn_countlock v) (delete nm (klive (vs_heap s))))
     (λ _ _, False) s.
Proof.
  intros Hk Hv Hr Ho Hlk Hl Hne Hn1 Hn2. unfold vnode_kill. wp_bind. unfold wp at 1, get_vn. rewrite Hv.
  wp_bind. apply wp_kassert; [lia|]. wp_bind. apply wp_kassert; [lia|].
  wp_bind. apply wp_kassert; [lia|]. wp_bind. unfold lock_destroy. wp_bind. apply wp_kassert; [lia|].
  wp_bind. unfold wp at 1, get_lock. rewrite Hl. wp_bind. apply wp_zoom. simpl.
  wp_use kfree_spec; [done|done| |done]. intros [] h1 [Hk1 Hl1]. wp_bind. apply wp_zoom. simpl.
  wp_use kfree_spec; [done|by rewrite Hl1, lookup_delete_ne| |done]. intros [] h2 [Hk2 Hl2].
  apply wp_modify. apply wp_modify. simpl. split_and!; try done. by rewrite Hl2, Hl1.
Qed.
End memory.

(** ** Witnesses *)

Definition toy_vst : vst Toy.heap :=
  mkvst (Toy.fresh 1000) {[48 := mklock 0 0 0]}
        {[32 := mkvnode 1 0 48 16 32 (Some sfs_fileops)]} 5.
Definition toy_vnode : vnode := mkvnode 1 0 48 16 32 (Some sfs_fileops).

Lemma vnode_incref_decref_witness :
  bind (zoom id (λ x _, x) (vnode_incref 32))
       (λ _, vnode_decref (λ A c, zoom id (λ x _, x) c) (λ _, panic) 32) toy_vst = Ok tt toy_vst.
Proof.
  apply (vnode_incref_decref (λ A c, zoom id (λ x _, x) c) id (λ x _, x) (λ _, panic)
           toy_vst 32 toy_vnode); try reflexivity.
  - split; try (vm_compute; split; congruence); try (vm_compute; congruence); try reflexivity.
    exists 0. reflexivity.
  - split; reflexivity.
Defined.

(** The allocator with the fill pattern of freed blocks in its memory. *)
Definition junk_kmem : Kmem Toy.heap :=
  {| kmalloc := Toy.kmalloc; kfree := Toy.kfree; kword := λ _ _, DEADBEEF |}.
Definition junk_vst : vst Toy.heap :=
  mkvst (Toy.fresh 1000) ∅ {[512 := mkvnode 1 0 16 0 0 (Some sfs_fileops)]} 5.

Lemma fresh_lock_can_hang_witness :
  ∃ s1, @lock_create _ junk_kmem 15 junk_vst = Ok 16 s1 ∧ vnode_incref 512 s1 = Hang.
Proof.
  destruct (@lock_create _ junk_kmem 15 junk_vst) as [lk s1| | |] eqn:E; try discriminate E.
  exists s1. pose proof E as E2. vm_compute in E2. injection E2 as <- <-.
  split; [reflexivity|].
  apply (@fresh_lock_can_hang _ junk_kmem junk_vst 16 _ 512
           (mkvnode 1 0 16 0 0 (Some sfs_fileops)) E); try reflexivity; discriminate.
Defined.
