(* ===== verification/Vfs.v ===== *)
(** * The virtual file system layer (kern/fs/vfs)

    The table of devices and mounted file systems (vfslist.c), the
    translation of path names (vfslookup.c), the current directory (vfscwd.c)
    and the operations on path names (vfspath.c), over vnodes and file systems
    given by the interface [Files].  A string is the list of its characters
    without the final NUL; a path is cut up in place by the source, and is not
    used again afterwards. *)

From S2P Require Import Prelude KString Kmem KArray Vm.

Notation str := (list Z) (only parsing).

(** [!strcmp(a, b)] *)
Definition streq (a b : str) : bool :=
  match strcmp (a ++ [0]) (b ++ [0]) with Some r => r =? 0 | None => false end.

(** Constants of kern/limits.h, kern/unistd.h and kern/stat.h. *)
Definition NAME_MAX : Z := 255.
Definition O_RDONLY : Z := 0.
Definition O_WRONLY : Z := 1.
Definition O_RDWR : Z := 2.
Definition O_CREAT : Z := 4.
Definition O_EXCL : Z := 8.
Definition O_TRUNC : Z := 16.
Definition O_APPEND : Z := 32.
Definition O_ACCMODE : Z := 3.
Definition S_IFMT : Z := 28672.
Definition S_IFDIR : Z := 8192.
Definition S_IFCHR : Z := 16384.
Definition S_IFBLK : Z := 20480.
Definition COLON : Z := 58.
Definition SLASH : Z := 47.

(** ** What is below: vnodes and file systems *)

(** An operation that hands something back returns it; the others return
    nothing.  [dev_create_vnode] is that of device.c and answers 0 for NULL;
    [kfree_vnode] is [kfree] of such a vnode.  [UIOMOVE u] copies into the
    buffer [u] describes. *)
Class Files (W : Type) `{!Vref W} := {
  vn_fs_of : Z → W → Z;
  VOP_INCOPEN : Z → M W unit;
  VOP_DECOPEN : Z → M W unit;
  VOP_OPEN : Z → Z → M W unit;
  VOP_GETTYPE : Z → M W Z;
  VOP_TRUNCATE : Z → Z → M W unit;
  VOP_READLINK : Z → Z → M W unit;
  VOP_NAMEFILE : Z → Z → M W unit;
  VOP_CREAT : Z → str → bool → M W Z;
  VOP_SYMLINK : Z → str → str → M W unit;
  VOP_MKDIR : Z → str → M W unit;
  VOP_LINK : Z → str → Z → M W unit;
  VOP_REMOVE : Z → str → M W unit;
  VOP_RMDIR : Z → str → M W unit;
  VOP_RENAME : Z → str → Z → str → M W unit;
  VOP_LOOKUP : Z → str → M W Z;
  VOP_LOOKPARENT : Z → str → Z → M W (Z * str);
  FSOP_SYNC : Z → M W unit;
  FSOP_GETVOLNAME : Z → M W (option str);
  FSOP_GETROOT : Z → M W Z;
  FSOP_UNMOUNT : Z → M W unit;
  dev_create_vnode : Z → M W Z;
  kfree_vnode : Z → M W unit;
  UIOMOVE : Z → str → M W unit;
}.

(** ** State *)

Record knowndev := mkkd {
  kd_name : str;
  kd_rawname : option str;
  kd_device : Z;
  kd_vnode : Z;
  kd_fs : Z;
}.
Definition sizeof_struct_knowndev : Z := 20.

(** [knowndevs], an array of pointers with the heap it lives in, and what they
    point to; whether the current thread holds [knowndevs_lock] and
    [bootfs_lock]; [bootfs_vnode] and [curthread->t_cwd], 0 for NULL; what is
    below. *)
Record vfs (H W : Type) := mkvfs {
  vf_mem : H * array Z;
  vf_kd : gmap Z knowndev;
  knowndevs_lock : bool;
  bootfs_vnode : Z;
  bootfs_lock : bool;
  t_cwd : Z;
  vf_w : W;
}.
Arguments mkvfs {H W} _ _ _ _ _ _ _.
Arguments vf_mem {H W} _.
Arguments vf_kd {H W} _.
Arguments knowndevs_lock {H W} _.
Arguments bootfs_vnode {H W} _.
Arguments bootfs_lock {H W} _.
Arguments t_cwd {H W} _.
Arguments vf_w {H W} _.

Section vfs.
Context {H W : Type} `{!Kmem H, !Vref W, !Files W}.
Notation S := (vfs H W).

Definition set_devlock (b : bool) (s : S) : S :=
  mkvfs (vf_mem s) (vf_kd s) b (bootfs_vnode s) (bootfs_lock s) (t_cwd s) (vf_w s).
Definition set_bootfs (v : Z) (s : S) : S :=
  mkvfs (vf_mem s) (vf_kd s) (knowndevs_lock s) v (bootfs_lock s) (t_cwd s) (vf_w s).
Definition set_bootlock (b : bool) (s : S) : S :=
  mkvfs (vf_mem s) (vf_kd s) (knowndevs_lock s) (bootfs_vnode s) b (t_cwd s) (vf_w s).
Definition set_cwd (v : Z) (s : S) : S :=
  mkvfs (vf_mem s) (vf_kd s) (knowndevs_lock s) (bootfs_vnode s) (bootfs_lock s) v (vf_w s).
Definition set_kds (m : gmap Z knowndev) (s : S) : S :=
  mkvfs (vf_mem s) m (knowndevs_lock s) (bootfs_vnode s) (bootfs_lock s) (t_cwd s) (vf_w s).

Definition below {A} (c : M W A) : M S A :=
  zoom vf_w (λ w s, mkvfs (vf_mem s) (vf_kd s) (knowndevs_lock s) (bootfs_vnode s) (bootfs_lock s) (t_cwd s) w) c.
Definition on_table {A} (c : M (H * array Z) A) : M S A :=
  zoom vf_mem (λ m s, mkvfs m (vf_kd s) (knowndevs_lock s) (bootfs_vnode s) (bootfs_lock s) (t_cwd s) (vf_w s)) c.
Definition vmalloc (sz : Z) : M S Z := on_table (on_heap (kmalloc sz)).
Definition vfree (p : Z) : M S unit := on_table (on_heap (kfree p)).

(** The answer of a routine the caller has looked at. *)
Definition give {A} (r : errno + A) : M S A := match r with inl e => fail e | inr a => ret a end.

(** [c] with the lock held; an early [goto out] releases it too. *)
Definition with_devs {A} (c : M S A) : M S A :=
  let! held := gets knowndevs_lock in
  kassert (negb held) ;;;
  modify (set_devlock true) ;;;
  let! r := try c in
  modify (set_devlock false) ;;;
  give r.
Definition with_boot {A} (c : M S A) : M S A :=
  let! held := gets bootfs_lock in
  kassert (negb held) ;;;
  modify (set_bootlock true) ;;;
  let! r := try c in
  modify (set_bootlock false) ;;;
  give r.
Definition lock_do_i_hold_devs : M S unit := let! held := gets knowndevs_lock in kassert held.

(** A pointer that leads nowhere is a wild access. *)
Definition kd_of (p : Z) : M S knowndev := λ s,
  match vf_kd s !! p with Some kd => Ok kd s | None => Panic end.
Definition getguy (i : Z) : M S (Z * knowndev) := λ s,
  match array_getguy (vf_mem s).2 i with
  | Some (Some p) => (let! kd := kd_of p in ret (p, kd)) s
  | _ => Panic
  end.
Definition getnum : M S nat := gets (λ s, Z.to_nat (array_getnum (vf_mem s).2)).
Definition set_kd_fs (p fs : Z) : M S unit :=
  let! kd := kd_of p in
  modify (λ s, set_kds (<[p := mkkd (kd_name kd) (kd_rawname kd) (kd_device kd) (kd_vnode kd) fs]> (vf_kd s)) s).

(** ** The table (vfslist.c) *)

(** The loops over the table: [n] entries are left, from [i] on. *)
Fixpoint sync_loop (n : nat) (i : Z) : M S unit :=
  match n with
  | O => ret tt
  | Datatypes.S n' =>
      let! ' (_, dev) := getguy i in
      when (negb (kd_fs dev =? 0)) (let! _ := try (below (FSOP_SYNC (kd_fs dev))) in ret tt) ;;;
      sync_loop n' (i + 1)
  end.
Definition vfs_sync : M S unit := with_devs (let! n := getnum in sync_loop n 0).

Definition opteq (a : option str) (b : str) : bool := match a with Some a => streq a b | None => false end.

(** One entry of the table: the answer, or go on. *)
Definition getroot_entry (kd : knowndev) (devname : str) : M S (option Z) :=
  let device (_ : unit) : M S (option Z) :=
    if streq (kd_name kd) devname then
      kassert (kd_fs kd =? 0) ;;;
      kassert (bool_decide (kd_rawname kd = None)) ;;;
      kassert (negb (kd_device kd =? 0)) ;;;
      below (VOP_INCREF (kd_vnode kd)) ;;;
      ret (Some (kd_vnode kd))
    else if opteq (kd_rawname kd) devname then
      kassert (negb (kd_device kd =? 0)) ;;;
      below (VOP_INCREF (kd_vnode kd)) ;;;
      ret (Some (kd_vnode kd))
    else ret None in
  if negb (kd_fs kd =? 0) then
    let! volname := below (FSOP_GETVOLNAME (kd_fs kd)) in
    if streq (kd_name kd) devname || opteq volname devname then
      let! r := below (FSOP_GETROOT (kd_fs kd)) in ret (Some r)
    else device tt
  else if bool_decide (is_Some (kd_rawname kd)) && streq (kd_name kd) devname then fail ENXIO
  else device tt.
Fixpoint getroot_loop (n : nat) (i : Z) (devname : str) : M S Z :=
  match n with
  | O => fail ENODEV
  | Datatypes.S n' =>
      let! ' (_, kd) := getguy i in
      let! r := getroot_entry kd devname in
      match r with Some v => ret v | None => getroot_loop n' (i + 1) devname end
  end.
Definition vfs_getroot (devname : str) : M S Z :=
  with_devs (let! n := getnum in getroot_loop n 0 devname).

Fixpoint getdevname_loop (n : nat) (i fs : Z) : M S (option str) :=
  match n with
  | O => ret None
  | Datatypes.S n' =>
      let! ' (_, kd) := getguy i in
      if kd_fs kd =? fs then ret (Some (kd_name kd)) else getdevname_loop n' (i + 1) fs
  end.
Definition vfs_getdevname (fs : Z) : M S (option str) :=
  kassert (negb (fs =? 0)) ;;;
  with_devs (let! n := getnum in getdevname_loop n 0 fs).

(** The name with ["raw"] behind, and the block it is in; no block without
    memory. *)
Definition raw_suffix : str := [114; 97; 119].
Definition mkrawname (name : str) : M S Z := vmalloc (zlen name + 3 + 1).

Definition samestring (a b : option str) : bool :=
  match a, b with Some a, Some b => streq a b | _, _ => false end.
Definition samestring3 (a b c d : option str) : bool := samestring a b || samestring a c || samestring a d.

Fixpoint badnames_loop (n : nat) (i : Z) (n1 n2 n3 : option str) : M S bool :=
  match n with
  | O => ret false
  | Datatypes.S n' =>
      let! ' (_, kd) := getguy i in
      let! clash :=
        (if negb (kd_fs kd =? 0) then
           let! volname := below (FSOP_GETVOLNAME (kd_fs kd)) in ret (samestring3 volname n1 n2 n3)
         else ret false) in
      if (clash : bool) then ret true
      else if samestring3 (kd_rawname kd) n1 n2 n3 || samestring3 (Some (kd_name kd)) n1 n2 n3 then ret true
      else badnames_loop n' (i + 1) n1 n2 n3
  end.
Definition badnames (n1 n2 n3 : option str) : M S bool :=
  lock_do_i_hold_devs ;;;
  let! n := getnum in badnames_loop n 0 n1 n2 n3.

(** The label [puke]: what there is by then is freed. *)
Definition puke (name rawname vnode kd : Z) : M S unit :=
  when (negb (name =? 0)) (vfree name) ;;;
  when (negb (rawname =? 0)) (vfree rawname) ;;;
  when (negb (vnode =? 0)) (below (kfree_vnode vnode)) ;;;
  when (negb (kd =? 0)) (vfree kd) ;;;
  fail ENOMEM.

Definition vfs_doadd (dname : str) (mountable : bool) (dev fs : Z) : M S unit :=
  let! name := vmalloc (zlen dname + 1) in
  if name =? 0 then puke 0 0 0 0
  else
    let! rawname := (if mountable then mkrawname dname else ret 0) in
    if mountable && (rawname =? 0) then puke name 0 0 0
    else
      let! vnode := below (dev_create_vnode dev) in
      if vnode =? 0 then puke name rawname 0 0
      else
        let! kd := vmalloc sizeof_struct_knowndev in
        if kd =? 0 then puke name rawname vnode 0
        else
          let raw := if mountable then Some (dname ++ raw_suffix) else None in
          modify (λ s, set_kds (<[kd := mkkd dname raw dev vnode fs]> (vf_kd s)) s) ;;;
          let! volname := (if negb (fs =? 0) then below (FSOP_GETVOLNAME fs) else ret None) in
          with_devs
            (let! bad := badnames (Some dname) raw volname in
             if negb bad then on_table (array_add kd) else fail EEXIST).
Definition vfs_adddev (devname : str) (dev : Z) (mountable : bool) : M S unit := vfs_doadd devname mountable dev 0.
Definition vfs_addfs (devname : str) (fs : Z) : M S unit := vfs_doadd devname false 0 fs.

(** ** Mounting *)

Fixpoint findmount_loop (n : nat) (i : Z) (devname : str) : M S Z :=
  match n with
  | O => fail ENODEV
  | Datatypes.S n' =>
      let! ' (p, dev) := getguy i in
      if bool_decide (kd_rawname dev = None) then findmount_loop n' (i + 1) devname
      else if streq devname (kd_name dev) then ret p
      else findmount_loop n' (i + 1) devname
  end.
Definition findmount (devname : str) : M S Z :=
  lock_do_i_hold_devs ;;;
  let! n := getnum in findmount_loop n 0 devname.

Definition vfs_mount (devname : str) (mountfunc : Z → M W Z) : M S unit :=
  with_devs
    (let! p := findmount devname in
     let! kd := kd_of p in
     if negb (kd_fs kd =? 0) then fail EBUSY
     else
       kassert (negb (bool_decide (kd_rawname kd = None))) ;;;
       kassert (negb (kd_device kd =? 0)) ;;;
       let! fs := below (mountfunc (kd_device kd)) in
       kassert (negb (fs =? 0)) ;;;
       set_kd_fs p fs ;;;
       let! _ := below (FSOP_GETVOLNAME fs) in
       ret tt).

Definition vfs_unmount (devname : str) : M S unit :=
  with_devs
    (let! p := findmount devname in
     let! kd := kd_of p in
     if kd_fs kd =? 0 then fail EINVAL
     else
       kassert (negb (bool_decide (kd_rawname kd = None))) ;;;
       kassert (negb (kd_device kd =? 0)) ;;;
       below (FSOP_SYNC (kd_fs kd)) ;;;
       below (FSOP_UNMOUNT (kd_fs kd)) ;;;
       set_kd_fs p 0).

Definition failed {A} (r : errno + A) : bool := match r with inl _ => true | inr _ => false end.
Definition unmount_entry (p : Z) (dev : knowndev) : M S unit :=
  if bool_decide (kd_rawname dev = None) then ret tt
  else if kd_fs dev =? 0 then ret tt
  else
    let! r := try (below (FSOP_SYNC (kd_fs dev))) in
    let! r := (if failed r then try (below (FSOP_SYNC (kd_fs dev))) else ret r) in
    if failed r then ret tt
    else
      let! r := try (below (FSOP_UNMOUNT (kd_fs dev))) in
      if failed r then ret tt else set_kd_fs p 0.
Fixpoint unmountall_loop (n : nat) (i : Z) : M S unit :=
  match n with
  | O => ret tt
  | Datatypes.S n' =>
      let! ' (p, dev) := getguy i in
      unmount_entry p dev ;;;
      unmountall_loop n' (i + 1)
  end.
Definition vfs_unmountall : M S unit := with_devs (let! n := getnum in unmountall_loop n 0).

(** ** The current directory (vfscwd.c), first part *)

Definition vfs_getcurdir : M S Z :=
  let! cwd := gets t_cwd in
  if negb (cwd =? 0) then below (VOP_INCREF cwd) ;;; ret cwd else fail ENOENT.

Definition vfs_setcurdir (dir : Z) : M S unit :=
  let! vtype := below (VOP_GETTYPE dir) in
  if negb (Z.land vtype S_IFMT =? S_IFDIR) then fail ENOTDIR
  else
    below (VOP_INCREF dir) ;;;
    let! old := gets t_cwd in
    modify (set_cwd dir) ;;;
    when (negb (old =? 0)) (below (VOP_DECREF old)).

Definition vfs_clearcurdir : M S unit :=
  let! old := gets t_cwd in
  modify (set_cwd 0) ;;;
  when (negb (old =? 0)) (below (VOP_DECREF old)).

(** ** Path names (vfslookup.c) *)

(** The search for the first colon or slash: [colon] and [slash]. *)
Fixpoint first_sep (path : str) (i : Z) : Z * Z :=
  match path with
  | [] => (-1, -1)
  | c :: path' =>
      if c =? COLON then (i, -1) else if c =? SLASH then (-1, i) else first_sep path' (i + 1)
  end.
Fixpoint skip_slashes (path : str) : str :=
  match path with
  | c :: path' => if c =? SLASH then skip_slashes path' else path
  | [] => []
  end.

(** Returns [*startvn] and [*subpath]. *)
Definition getdevice (path : str) : M S (Z * str) :=
  let '(colon, slash) := first_sep path 0 in
  if (colon <? 0) && negb (slash =? 0) then
    let! startvn := vfs_getcurdir in ret (startvn, path)
  else if colon >? 0 then
    let! startvn := vfs_getroot (ztake colon path) in
    ret (startvn, skip_slashes (zdrop (colon + 1) path))
  else
    kassert ((colon =? 0) || (slash =? 0)) ;;;
    let! startvn :=
      (if bool_decide (zget path 0 = Some SLASH) then
         with_boot
           (let! b := gets bootfs_vnode in
            if b =? 0 then fail ENOENT else below (VOP_INCREF b) ;;; ret b)
       else
         kassert (bool_decide (zget path 0 = Some COLON)) ;;;
         let! vn := vfs_getcurdir in
         let! w := gets vf_w in
         kassert (negb (vn_fs_of vn w =? 0)) ;;;
         let! r := below (FSOP_GETROOT (vn_fs_of vn w)) in
         below (VOP_DECREF vn) ;;;
         ret r) in
    ret (startvn, skip_slashes (zdrop 1 path)).

Definition vfs_lookparent (path : str) (buflen : Z) : M S (Z * str) :=
  let! ' (startvn, path) := getdevice path in
  let! r := (if zlen path =? 0 then ret (inl EINVAL) else try (below (VOP_LOOKPARENT startvn path buflen))) in
  below (VOP_DECREF startvn) ;;;
  give r.

Definition vfs_lookup (path : str) : M S Z :=
  let! ' (startvn, path) := getdevice path in
  if zlen path =? 0 then ret startvn
  else
    let! r := try (below (VOP_LOOKUP startvn path)) in
    below (VOP_DECREF startvn) ;;;
    give r.

(** ** The current directory, by name *)

Definition vfs_chdir (path : str) : M S unit :=
  let! vn := vfs_lookup path in
  let! r := try (vfs_setcurdir vn) in
  below (VOP_DECREF vn) ;;;
  give r.

Definition vfs_getcwd (uio : Z) : M S unit :=
  let! cwd := vfs_getcurdir in
  let! w := gets vf_w in
  let fs := vn_fs_of cwd w in
  kassert (negb (fs =? 0)) ;;;
  let! volname := below (FSOP_GETVOLNAME fs) in
  let! name := match volname with Some n => ret (Some n) | None => vfs_getdevname fs end in
  match name with
  | None => panic
  | Some name =>
      let! r := try (below (UIOMOVE uio name ;;; UIOMOVE uio [COLON] ;;; VOP_NAMEFILE cwd uio)) in
      below (VOP_DECREF cwd) ;;;
      give r
  end.

(** ** The boot file system *)

Definition change_bootfs (newguy : Z) : M S unit :=
  let! oldguy := with_boot (let! o := gets bootfs_vnode in modify (set_bootfs newguy) ;;; ret o) in
  when (negb (oldguy =? 0)) (below (VOP_DECREF oldguy)).

(** [snprintf(tmp, sizeof(tmp)-1, "%s", fsname)] keeps [NAME_MAX - 1]
    characters; [s] is the colon with what is behind it. *)
Definition vfs_setbootfs (fsname : str) : M S unit :=
  let tmp := ztake (NAME_MAX - 1) fsname in
  let! tmp :=
    match strchr (tmp ++ [0]) COLON with
    | None => panic
    | Some (Some i) => let s := zdrop i tmp in if zlen s >? 0 then fail EINVAL else ret tmp
    | Some None => ret (tmp ++ [COLON])
    end in
  vfs_chdir tmp ;;;
  let! newguy := vfs_getcurdir in
  change_bootfs newguy.
Definition vfs_clearbootfs : M S unit := change_bootfs 0.

(** ** Operations on path names (vfspath.c) *)

Definition flag (flags bit : Z) : bool := negb (Z.land flags bit =? 0).

Definition vfs_open (path : str) (openflags : Z) : M S Z :=
  let how := Z.land openflags O_ACCMODE in
  if negb ((how =? O_RDONLY) || (how =? O_WRONLY) || (how =? O_RDWR)) then fail EINVAL
  else
    let canwrite := negb (how =? O_RDONLY) in
    let! vn :=
      (if flag openflags O_CREAT then
         let! ' (dir, name) := vfs_lookparent path (NAME_MAX + 1) in
         let! r := try (below (VOP_CREAT dir name (flag openflags O_EXCL))) in
         below (VOP_DECREF dir) ;;;
         give r
       else vfs_lookup path) in
    kassert (negb (vn =? 0)) ;;;
    let! r := try (below (VOP_OPEN vn openflags)) in
    match r with
    | inl e => below (VOP_DECREF vn) ;;; fail e
    | inr _ =>
        below (VOP_INCOPEN vn) ;;;
        if flag openflags O_TRUNC then
          let! r := (if negb canwrite then ret (inl EINVAL) else try (below (VOP_TRUNCATE vn 0))) in
          match r with
          | inl e => below (VOP_DECOPEN vn) ;;; below (VOP_DECREF vn) ;;; fail e
          | inr _ => ret vn
          end
        else ret vn
    end.

Definition vfs_close (vn : Z) : M S unit := below (VOP_DECOPEN vn) ;;; below (VOP_DECREF vn).

(** [c] on the directory and the last name of a path. *)
Definition in_parent (path : str) (c : Z → str → M W unit) : M S unit :=
  let! ' (dir, name) := vfs_lookparent path (NAME_MAX + 1) in
  let! r := try (below (c dir name)) in
  below (VOP_DECREF dir) ;;;
  give r.
Definition vfs_remove (path : str) : M S unit := in_parent path VOP_REMOVE.
Definition vfs_symlink (contents path : str) : M S unit := in_parent path (λ d n, VOP_SYMLINK d n contents).
Definition vfs_mkdir (path : str) : M S unit := in_parent path VOP_MKDIR.
Definition vfs_rmdir (path : str) : M S unit := in_parent path VOP_RMDIR.

(** The end of [vfs_rename] and [vfs_link]: both vnodes must be on one file
    system. *)
Definition same_fs (v newdir : Z) (c : M W unit) : M S unit :=
  let! w := gets vf_w in
  if (vn_fs_of v w =? 0) || (vn_fs_of newdir w =? 0) || negb (vn_fs_of v w =? vn_fs_of newdir w) then
    below (VOP_DECREF newdir) ;;; below (VOP_DECREF v) ;;; fail EXDEV
  else
    let! r := try (below c) in
    below (VOP_DECREF newdir) ;;;
    below (VOP_DECREF v) ;;;
    give r.

Definition vfs_rename (oldpath newpath : str) : M S unit :=
  let! ' (olddir, oldname) := vfs_lookparent oldpath (NAME_MAX + 1) in
  let! r := try (vfs_lookparent newpath (NAME_MAX + 1)) in
  match r with
  | inl e => below (VOP_DECREF olddir) ;;; fail e
  | inr (newdir, newname) => same_fs olddir newdir (VOP_RENAME olddir oldname newdir newname)
  end.

Definition vfs_link (oldpath newpath : str) : M S unit :=
  let! oldfile := vfs_lookup oldpath in
  let! r := try (vfs_lookparent newpath (NAME_MAX + 1)) in
  match r with
  | inl e => below (VOP_DECREF oldfile) ;;; fail e
  | inr (newdir, newname) => same_fs oldfile newdir (VOP_LINK newdir newname oldfile)
  end.

Definition vfs_readlink (path : str) (uio : Z) : M S unit :=
  let! vn := vfs_lookup path in
  let! r := try (below (VOP_READLINK vn uio)) in
  below (VOP_DECREF vn) ;;;
  give r.

End vfs.
