(* ===== verification/VfsSpec.v ===== *)
(** * The virtual file system layer: references

    What vnodes and file systems promise ([FilesOk], after the comments of
    vnode.h and fs.h), the invariant of the VFS layer, and the effect of each
    of its routines on the reference and open counts. *)

From S2P Require Import Prelude KString Kmem KArray Vm Vfs.

(** [n] at one vnode, nothing elsewhere. *)
Definition one (v n : Z) : Z → Z := λ x, if decide (x = v) then n else 0.
Definition nil : Z → Z := λ _, 0.

(** The characters of a string. *)
Definition str_ok (l : str) : Prop := Forall (λ c, 0 < c < 256) l.
Lemma streq_spec a b : str_ok a → str_ok b → streq a b = bool_decide (a = b).
Proof.
  intros Ha Hb. unfold streq. destruct (strcmp_spec (a ++ [0]) (b ++ [0]) a b) as (r & -> & Hr); [by exists []|by exists []|].
  case_bool_decide as Hd; [apply Z.eqb_eq|apply Z.eqb_neq]; tauto.
Qed.

(** ** The promise of what is below *)

(** Counts changed by [r] and [o]; mounted file systems and the file systems
    of vnodes in use stay. *)
Record moved {W} (refs opens : W → Z → Z) (mounted : W → Z → Prop) (volname : W → Z → option str) (fs_of : Z → W → Z)
    (w w' : W) (r o : Z → Z) : Prop := {
  mv_refs : ∀ v, refs w' v = refs w v + r v;
  mv_opens : ∀ v, opens w' v = opens w v + o v;
  mv_fs : ∀ v, 0 < refs w v → 0 < refs w' v → fs_of v w' = fs_of v w;
  mv_mounted : ∀ fs, mounted w fs → mounted w' fs;
  mv_volname : ∀ fs, mounted w fs → volname w' fs = volname w fs;
}.

(** [frefs] and [fopens] are the counts, [fmounted] says which file systems
    there are.  A directory belongs to a file system, and the file system of a
    vnode in use is there. *)
Class FilesOk (W : Type) `{!Vref W, !Files W} := {
  frefs : W → Z → Z;
  fopens : W → Z → Z;
  fmounted : W → Z → Prop;
  fvolname : W → Z → option str;
  steps w w' r o := moved frefs fopens fmounted fvolname vn_fs_of w w' r o;
  quiet_op {A} (c : M W A) w := wp c (λ _ w', steps w w' nil nil) (λ _ w', steps w w' nil nil) w;
  new_ref (c : M W Z) w := wp c (λ v w', v ≠ 0 ∧ steps w w' (one v 1) nil) (λ _ w', steps w w' nil nil) w;
  fopens_nonneg : ∀ w v, 0 ≤ fopens w v;
  fs_of_used : ∀ w v, 0 < frefs w v → vn_fs_of v w ≠ 0 → fmounted w (vn_fs_of v w);
  incref_ok : ∀ w v, 0 < frefs w v → wp (VOP_INCREF v) (λ _ w', steps w w' (one v 1) nil) (λ _ _, False) w;
  decref_ok : ∀ w v, 0 < frefs w v → wp (VOP_DECREF v) (λ _ w', steps w w' (one v (-1)) nil) (λ _ _, False) w;
  incopen_ok : ∀ w v, 0 < frefs w v → wp (VOP_INCOPEN v) (λ _ w', steps w w' nil (one v 1)) (λ _ _, False) w;
  decopen_ok : ∀ w v, 0 < frefs w v → 0 < fopens w v →
    wp (VOP_DECOPEN v) (λ _ w', steps w w' nil (one v (-1))) (λ _ _, False) w;
  gettype_ok : ∀ w v, 0 < frefs w v →
    wp (VOP_GETTYPE v) (λ t w', steps w w' nil nil ∧ (Z.land t S_IFMT = S_IFDIR → vn_fs_of v w' ≠ 0)) (λ _ w', steps w w' nil nil) w;
  open_ok : ∀ w v f, 0 < frefs w v → quiet_op (VOP_OPEN v f) w;
  truncate_ok : ∀ w v n, 0 < frefs w v → quiet_op (VOP_TRUNCATE v n) w;
  readlink_ok : ∀ w v u, 0 < frefs w v → quiet_op (VOP_READLINK v u) w;
  namefile_ok : ∀ w v u, 0 < frefs w v → quiet_op (VOP_NAMEFILE v u) w;
  symlink_ok : ∀ w v n c, 0 < frefs w v → quiet_op (VOP_SYMLINK v n c) w;
  mkdir_ok : ∀ w v n, 0 < frefs w v → quiet_op (VOP_MKDIR v n) w;
  link_ok : ∀ w v n f, 0 < frefs w v → 0 < frefs w f → quiet_op (VOP_LINK v n f) w;
  remove_ok : ∀ w v n, 0 < frefs w v → quiet_op (VOP_REMOVE v n) w;
  rmdir_ok : ∀ w v n, 0 < frefs w v → quiet_op (VOP_RMDIR v n) w;
  rename_ok : ∀ w v n v' n', 0 < frefs w v → 0 < frefs w v' → quiet_op (VOP_RENAME v n v' n') w;
  creat_ok : ∀ w v n x, 0 < frefs w v → new_ref (VOP_CREAT v n x) w;
  lookup_ok : ∀ w v p, 0 < frefs w v → new_ref (VOP_LOOKUP v p) w;
  lookparent_ok : ∀ w v p n, 0 < frefs w v →
    wp (VOP_LOOKPARENT v p n) (λ r w', r.1 ≠ 0 ∧ steps w w' (one r.1 1) nil) (λ _ w', steps w w' nil nil) w;
  sync_ok : ∀ w fs, fmounted w fs → quiet_op (FSOP_SYNC fs) w;
  getvolname_ok : ∀ w fs, fmounted w fs →
    wp (FSOP_GETVOLNAME fs) (λ n w', n = fvolname w fs ∧ steps w w' nil nil) (λ _ _, False) w;
  getroot_ok : ∀ w fs, fmounted w fs →
    wp (FSOP_GETROOT fs) (λ v w', v ≠ 0 ∧ steps w w' (one v 1) nil ∧ vn_fs_of v w' = fs) (λ _ _, False) w;
  (** All but [fs] stay mounted. *)
  unmount_ok : ∀ w fs, fmounted w fs →
    wp (FSOP_UNMOUNT fs)
       (λ _ w', moved frefs fopens (λ w f, f ≠ fs ∧ fmounted w f) fvolname vn_fs_of w w' nil nil ∧
          ∀ v, 0 < frefs w v → vn_fs_of v w ≠ fs)
       (λ _ w', steps w w' nil nil) w;
  dev_create_ok : ∀ w d,
    wp (dev_create_vnode d) (λ v w', v = 0 ∧ steps w w' nil nil ∨ v ≠ 0 ∧ steps w w' (one v 1) nil) (λ _ _, False) w;
  kfree_vnode_ok : ∀ w v, 0 < frefs w v → wp (kfree_vnode v) (λ _ w', steps w w' (one v (-1)) nil) (λ _ _, False) w;
  uiomove_ok : ∀ w u d, quiet_op (UIOMOVE u d) w;
  volname_ok : ∀ w fs n, fmounted w fs → fvolname w fs = Some n → str_ok n;
}.

(** Quiet operations one after the other. *)
Lemma quiet_seq {W A B} `{!Vref W, !Files W, !FilesOk W} (c : M W A) (k : M W B) w :
  quiet_op c w → (∀ w', (∀ v, frefs w' v = frefs w v) → quiet_op k w') → quiet_op (c ;;; k) w.
Proof.
  intros Hc Hk. unfold quiet_op. wp_bind. eapply wp_mono; [exact Hc| |done]. intros a w1 [R1 O1 F1 M1 V1]. unfold nil in *.
  assert (Hr : ∀ v, frefs w1 v = frefs w v) by (intros v; rewrite R1; lia).
  assert (Htr : ∀ w2, steps w1 w2 nil nil → steps w w2 nil nil).
  { intros w2 [R2 O2 F2 M2 V2]. split; unfold nil in *.
    - intros v. rewrite R2, R1. lia.
    - intros v. rewrite O2, O1. lia.
    - intros v Hv Hv2. rewrite F2; [by apply F1; [|rewrite Hr]|by rewrite Hr|done].
    - auto.
    - intros fs Hf. rewrite V2 by auto. by apply V1. }
  eapply wp_mono; [by apply Hk|by intros ? ? ?%Htr|by intros ? ? ?%Htr].
Qed.

(** How often [v] is in a list. *)
Fixpoint occ (v : Z) (l : list Z) : Z :=
  match l with [] => 0 | x :: l' => one x 1 v + occ v l' end.
Lemma one_range x v : 0 ≤ one x 1 v ≤ 1.
Proof. unfold one. case_decide; lia. Qed.
Lemma occ_nonneg v l : 0 ≤ occ v l.
Proof. induction l as [|x l IH]; simpl; [done|]. pose proof (one_range x v). lia. Qed.
Lemma occ_app v l l' : occ v (l ++ l') = occ v l + occ v l'.
Proof. induction l as [|x l IH]; simpl; [done|]. lia. Qed.
Lemma occ_in v l : v ∈ l → 1 ≤ occ v l.
Proof.
  induction l as [|x l IH]; [by intros ?%elem_of_nil|]. intros [->|Hv]%elem_of_cons; simpl.
  - unfold one. rewrite decide_True by done. pose proof (occ_nonneg x l). lia.
  - apply IH in Hv. pose proof (one_range x v). lia.
Qed.
#[export] Hint Resolve one_range occ_nonneg : core.

Section spec.
Context {H W : Type} `{!Kmem H, !KmemOk H, !Vref W, !Files W, !FilesOk W}.
Notation S := (vfs H W).
Implicit Types (s : S) (kd : knowndev).

(** ** The invariant *)

(** The table as a list. *)
Definition entry_of s (o : option Z) : option (Z * knowndev) :=
  p ← o; kd ← vf_kd s !! p; Some (p, kd).
Definition table s : list (Z * knowndev) := omap (entry_of s) (arr_contents (vf_mem s).2).

(** A device, mountable or not, or a file system without a device. *)
Record kd_ok (w : W) kd : Prop := {
  ko_vnode : kd_vnode kd ≠ 0;
  ko_fs : kd_fs kd ≠ 0 → fmounted w (kd_fs kd);
  ko_nodev : kd_device kd = 0 → kd_rawname kd = None ∧ kd_fs kd ≠ 0;
  ko_dev : kd_device kd ≠ 0 → kd_rawname kd = None → kd_fs kd = 0;
}.
(** The references the VFS layer itself has to a vnode, and those of its
    callers. *)
Definition held s (v : Z) : Z :=
  one (t_cwd s) 1 v + one (bootfs_vnode s) 1 v + occ v ((λ e, kd_vnode e.2) <$> table s).
Definition owed s (v : Z) : Z := frefs (vf_w s) v - held s v.

(** The array is one of pointers to different, live entries; no file system is
    mounted twice; every pointer is counted; the current directory is on a file
    system. *)
Record table_ok s : Prop := {
  tk_mem : array_ok (vf_mem s);
  tk_num : arr_num (vf_mem s).2 < 268435455;
  tk_slots : Forall (λ o, is_Some (entry_of s o)) (arr_contents (vf_mem s).2);
  tk_live : ∀ p kd, (p, kd) ∈ table s → is_Some (arr_frame (vf_mem s) !! p);
  tk_names : ∀ p kd, (p, kd) ∈ table s → str_ok (kd_name kd) ∧ ∀ r, kd_rawname kd = Some r → str_ok r;
  tk_ptrs : NoDup (fst <$> table s);
  tk_fs : ∀ p kd p' kd', (p, kd) ∈ table s → (p', kd') ∈ table s → kd_fs kd ≠ 0 → kd_fs kd' = kd_fs kd → p' = p;
}.
Record vfs_core s : Prop := {
  vk_table : table_ok s;
  vk_kds : ∀ p kd, (p, kd) ∈ table s → kd_ok (vf_w s) kd;
  vk_owed : ∀ v, v ≠ 0 → 0 ≤ owed s v;
  vk_cwd : t_cwd s ≠ 0 → vn_fs_of (t_cwd s) (vf_w s) ≠ 0;
}.
(** Between calls no lock is held. *)
Definition vfs_ok s : Prop := vfs_core s ∧ knowndevs_lock s = false ∧ bootfs_lock s = false.

Lemma held_nonneg s v : 0 ≤ held s v.
Proof. unfold held. pose proof (one_range (t_cwd s) v). pose proof (one_range (bootfs_vnode s) v). pose proof (occ_nonneg v ((λ e, kd_vnode e.2) <$> table s)). lia. Qed.
Lemma owed_refs s v : owed s v ≤ frefs (vf_w s) v.
Proof. unfold owed. pose proof (held_nonneg s v). lia. Qed.
Lemma cwd_held s : 0 < held s (t_cwd s).
Proof.
  unfold held. unfold one at 1. rewrite decide_True by done.
  pose proof (one_range (bootfs_vnode s) (t_cwd s)). pose proof (occ_nonneg (t_cwd s) ((λ e, kd_vnode e.2) <$> table s)). lia.
Qed.
Lemma cwd_used s : vfs_core s → t_cwd s ≠ 0 → 0 < frefs (vf_w s) (t_cwd s).
Proof.
  intros Hk Hc. pose proof (vk_owed _ Hk _ Hc) as Ho. unfold owed in Ho. pose proof (cwd_held s). lia.
Qed.
Lemma boot_used s : vfs_core s → bootfs_vnode s ≠ 0 → 0 < frefs (vf_w s) (bootfs_vnode s).
Proof.
  intros Hk Hc. pose proof (vk_owed _ Hk _ Hc) as Ho. unfold owed, held in Ho. unfold one at 2 in Ho. rewrite decide_True in Ho by done.
  pose proof (one_range (t_cwd s) (bootfs_vnode s)). pose proof (occ_nonneg (bootfs_vnode s) ((λ e, kd_vnode e.2) <$> table s)). lia.
Qed.
Lemma entry_used s p kd : vfs_core s → (p, kd) ∈ table s → 0 < frefs (vf_w s) (kd_vnode kd).
Proof.
  intros Hk He. pose proof (ko_vnode _ _ (vk_kds _ Hk _ _ He)) as Hv. pose proof (vk_owed _ Hk _ Hv) as Ho. unfold owed, held in Ho.
  pose proof (one_range (t_cwd s) (kd_vnode kd)). pose proof (one_range (bootfs_vnode s) (kd_vnode kd)).
  assert (1 ≤ occ (kd_vnode kd) ((λ e, kd_vnode e.2) <$> table s)); [|lia]. apply occ_in, list_elem_of_fmap. by exists (p, kd).
Qed.

(** ** Steps of what is below *)

(** [s'] is [s] after steps below that changed the counts by [r] and [o]. *)
Record went s s' (r o : Z → Z) : Prop := {
  wn_core : vfs_core s';
  wn_refs : ∀ v, owed s' v = owed s v + r v;
  wn_opens : ∀ v, fopens (vf_w s') v = fopens (vf_w s) v + o v;
  wn_vol : ∀ fs, fmounted (vf_w s) fs → fmounted (vf_w s') fs ∧ fvolname (vf_w s') fs = fvolname (vf_w s) fs;
  wn_fs : ∀ v, v ≠ 0 → 0 < held s v → vn_fs_of v (vf_w s') = vn_fs_of v (vf_w s);
  wn_frame : ∃ w, s' = mkvfs (vf_mem s) (vf_kd s) (knowndevs_lock s) (bootfs_vnode s) (bootfs_lock s) (t_cwd s) w;
}.

Lemma went_refl s : vfs_core s → went s s nil nil.
Proof. intros Hk. split; [done|intros; unfold nil; lia..|done|done|]. exists (vf_w s). by destruct s. Qed.
Lemma went_trans s s1 s2 r1 o1 r2 o2 r o :
  went s s1 r1 o1 → went s1 s2 r2 o2 → (∀ v, r v = r1 v + r2 v) → (∀ v, o v = o1 v + o2 v) → went s s2 r o.
Proof.
  intros [_ R1 O1 V1 F1 [w1 ->]] [K R2 O2 V2 F2 [w2 ->]] Hr Ho. split; [done| | | | |by exists w2].
  - intros v. rewrite R2, R1, Hr. lia.
  - intros v. rewrite O2, O1, Ho. lia.
  - intros fs Hf. destruct (V1 fs Hf) as [H1 <-]. by apply V2.
  - intros v Hv Hh. rewrite <- F1 by done. by apply F2.
Qed.

Lemma steps_went s w' r o :
  vfs_core s → steps (vf_w s) w' r o → (∀ v, v ≠ 0 → 0 ≤ owed s v + r v) →
  went s (mkvfs (vf_mem s) (vf_kd s) (knowndevs_lock s) (bootfs_vnode s) (bootfs_lock s) (t_cwd s) w') r o.
Proof.
  intros Hk [R O F Mt V] Hr. set (s' := mkvfs _ _ _ _ _ _ _).
  assert (Ho : ∀ v, owed s' v = owed s v + r v) by (intros v; unfold owed; simpl; rewrite R; change (held s' v) with (held s v); lia).
  assert (Hf : ∀ v, v ≠ 0 → 0 < held s v → vn_fs_of v w' = vn_fs_of v (vf_w s)).
  { intros v Hv Hh. pose proof (vk_owed _ Hk _ Hv) as H0. specialize (Hr v Hv). unfold owed in *. apply F; [lia|]. rewrite R. lia. }
  split; [|done|done|auto|exact Hf|by eexists]. pose proof Hk as [Ht Hkd Hw Hc]. split; [by destruct Ht| | |].
  - intros p kd He. destruct (Hkd p kd He) as [? Hfs ? ?]. split; try done. intros Hne. apply Mt, Hfs, Hne.
  - intros v Hv. rewrite Ho. by apply Hr.
  - simpl. intros Hne. rewrite Hf; [by apply Hc|done|by apply cwd_held].
Qed.
Lemma owed_one s v n x : vfs_core s → (x = v → 0 ≤ owed s x + n) → x ≠ 0 → 0 ≤ owed s x + one v n x.
Proof. intros Hk Hn Hx. unfold one. case_decide; [by apply Hn|]. pose proof (vk_owed _ Hk _ Hx). lia. Qed.
Lemma owed_nil s x : vfs_core s → x ≠ 0 → 0 ≤ owed s x + nil x.
Proof. intros Hk Hx. unfold nil. pose proof (vk_owed _ Hk _ Hx). lia. Qed.
Lemma owed_more s v x : vfs_core s → x ≠ 0 → 0 ≤ owed s x + one v 1 x.
Proof. intros Hk Hx. apply owed_one; [done| |done]. intros ->. pose proof (vk_owed _ Hk _ Hx). lia. Qed.
Hint Resolve owed_nil owed_more : core.

(** [P] holds of the answer, and [F] when there may be an error. *)
Lemma wp_below {A} (c : M W A) (P : A → W → Prop) (F : Prop) s r o Q E :
  vfs_core s → wp c (λ a w', P a w' ∧ steps (vf_w s) w' (r a) (o a)) (λ _ w', F ∧ steps (vf_w s) w' nil nil) (vf_w s) →
  (∀ a v, v ≠ 0 → 0 ≤ owed s v + r a v) →
  (∀ a s', went s s' (r a) (o a) → P a (vf_w s') → Q a s') → (F → ∀ e s', went s s' nil nil → E e s') →
  wp (below c) Q E s.
Proof.
  intros Hk Hc Hr HQ HE. unfold below. apply wp_zoom. eapply wp_mono; [exact Hc| |].
  - intros a w' [HP Hs]. apply HQ; [|done]. apply steps_went; [done|done|apply Hr].
  - intros e w' [HF Hs]. apply HE; [done|]. apply steps_went; auto.
Qed.

Section ops.
Context s (Hk : vfs_core s).
#[local] Set Default Proof Using "All".

Lemma wp_incref v Q E :
  0 < frefs (vf_w s) v → (∀ s', went s s' (one v 1) nil → Q tt s') → wp (below (VOP_INCREF v)) Q E s.
Proof.
  intros Hv HQ. apply (wp_below _ (λ _ _, True) False s (λ _, one v 1) (λ _, nil)); [done| |auto|by intros [] s' ? _; apply HQ|done].
  eapply wp_mono; [by apply incref_ok|by intros|by intros].
Qed.
Lemma wp_decref v Q E :
  0 < owed s v → (∀ s', went s s' (one v (-1)) nil → Q tt s') → wp (below (VOP_DECREF v)) Q E s.
Proof.
  intros Hv HQ. pose proof (owed_refs s v).
  apply (wp_below _ (λ _ _, True) False s (λ _, one v (-1)) (λ _, nil)); [done| | |by intros [] s' ? _; apply HQ|done].
  - eapply wp_mono; [apply decref_ok; lia|by intros|by intros].
  - intros _ x Hx. apply owed_one; [done| |done]. intros ->. lia.
Qed.
(** The same, with the file systems of the other vnodes. *)
Lemma wp_decref_fs v Q E :
  0 < owed s v →
  (∀ s', went s s' (one v (-1)) nil →
     (∀ x, 0 < frefs (vf_w s) x → 0 < frefs (vf_w s') x → vn_fs_of x (vf_w s') = vn_fs_of x (vf_w s)) → Q tt s') →
  wp (below (VOP_DECREF v)) Q E s.
Proof.
  intros Hv HQ. pose proof (owed_refs s v).
  apply (wp_below _ (λ _ w', ∀ x, 0 < frefs (vf_w s) x → 0 < frefs w' x → vn_fs_of x w' = vn_fs_of x (vf_w s)) False s (λ _, one v (-1)) (λ _, nil));
    [done| | |by intros [] s' ? ?; apply HQ|done].
  - eapply wp_mono; [apply decref_ok; lia| |by intros]. intros [] w' Hs. split; [apply Hs|done].
  - intros _ x Hx. apply owed_one; [done| |done]. intros ->. lia.
Qed.
Lemma wp_incopen v Q E :
  0 < owed s v → (∀ s', went s s' nil (one v 1) → Q tt s') → wp (below (VOP_INCOPEN v)) Q E s.
Proof.
  intros Hv HQ. pose proof (owed_refs s v).
  apply (wp_below _ (λ _ _, True) False s (λ _, nil) (λ _, one v 1)); [done| |auto|by intros [] s' ? _; apply HQ|done].
  eapply wp_mono; [apply incopen_ok; lia|by intros|by intros].
Qed.
Lemma wp_decopen v Q E :
  0 < owed s v → 0 < fopens (vf_w s) v → (∀ s', went s s' nil (one v (-1)) → Q tt s') → wp (below (VOP_DECOPEN v)) Q E s.
Proof.
  intros Hv Ho HQ. pose proof (owed_refs s v).
  apply (wp_below _ (λ _ _, True) False s (λ _, nil) (λ _, one v (-1))); [done| |auto|by intros [] s' ? _; apply HQ|done].
  eapply wp_mono; [apply decopen_ok; lia|by intros|by intros].
Qed.
Lemma wp_quiet {A} (c : M W A) Q E :
  quiet_op c (vf_w s) → (∀ a s', went s s' nil nil → Q a s') → (∀ e s', went s s' nil nil → E e s') → wp (below c) Q E s.
Proof.
  intros Hc HQ HE. apply (wp_below _ (λ _ _, True) True s (λ _, nil) (λ _, nil)); auto.
  eapply wp_mono; [exact Hc|by intros|by intros].
Qed.
Lemma wp_new_ref (c : M W Z) Q E :
  new_ref c (vf_w s) → (∀ v s', v ≠ 0 → went s s' (one v 1) nil → Q v s') → (∀ e s', went s s' nil nil → E e s') → wp (below c) Q E s.
Proof.
  intros Hc HQ HE. apply (wp_below _ (λ v _, v ≠ 0) True s (λ v, one v 1) (λ _, nil)); auto.
  eapply wp_mono; [exact Hc|by intros|by intros].
Qed.
Lemma wp_lookparent_below v p n Q E :
  0 < frefs (vf_w s) v → (∀ d nm s', d ≠ 0 → went s s' (one d 1) nil → Q (d, nm) s') → (∀ e s', went s s' nil nil → E e s') →
  wp (below (VOP_LOOKPARENT v p n)) Q E s.
Proof.
  intros Hv HQ HE. apply (wp_below _ (λ r _, r.1 ≠ 0) True s (λ r, one r.1 1) (λ _, nil)); auto.
  - eapply wp_mono; [by apply lookparent_ok|by intros|by intros].
  - intros [d nm] s' Hw Hd. by apply HQ.
Qed.
Lemma wp_gettype v Q E :
  0 < frefs (vf_w s) v →
  (∀ t s', went s s' nil nil → (Z.land t S_IFMT = S_IFDIR → vn_fs_of v (vf_w s') ≠ 0) → Q t s') →
  (∀ e s', went s s' nil nil → E e s') → wp (below (VOP_GETTYPE v)) Q E s.
Proof.
  intros Hv HQ HE. apply (wp_below _ (λ t w', Z.land t S_IFMT = S_IFDIR → vn_fs_of v w' ≠ 0) True s (λ _, nil) (λ _, nil)); auto.
  eapply wp_mono; [by apply gettype_ok|naive_solver|by intros].
Qed.
Lemma wp_getvolname fs Q E :
  fmounted (vf_w s) fs → (∀ s', went s s' nil nil → Q (fvolname (vf_w s) fs) s') → wp (below (FSOP_GETVOLNAME fs)) Q E s.
Proof.
  intros Hf HQ. apply (wp_below _ (λ n _, n = fvolname (vf_w s) fs) False s (λ _, nil) (λ _, nil)); auto; [| |done].
  - eapply wp_mono; [by apply getvolname_ok|naive_solver|by intros].
  - intros n s' Hw ->. by apply HQ.
Qed.
Lemma wp_getroot fs Q E :
  fmounted (vf_w s) fs →
  (∀ v s', v ≠ 0 → went s s' (one v 1) nil → vn_fs_of v (vf_w s') = fs → Q v s') → wp (below (FSOP_GETROOT fs)) Q E s.
Proof.
  intros Hf HQ. apply (wp_below _ (λ v w', v ≠ 0 ∧ vn_fs_of v w' = fs) False s (λ v, one v 1) (λ _, nil)); auto; [| |done].
  - eapply wp_mono; [by apply getroot_ok|naive_solver|by intros].
  - intros v s' Hw [? ?]. by apply HQ.
Qed.
End ops.

(** ** The table *)

Lemma omap_all {A B} (f : A → option B) (l : list A) i y :
  Forall (λ x, is_Some (f x)) l → omap f l !! i = Some y → ∃ x, l !! i = Some x ∧ f x = Some y.
Proof.
  intros Hl. revert i. induction Hl as [|x l [z Hz] _ IH]; intros i; [done|]. simpl. rewrite Hz.
  destruct i as [|i]; simpl; [intros [= <-]; by exists x|apply IH].
Qed.
Lemma table_slot s i p kd : table_ok s → table s !! i = Some (p, kd) →
  arr_contents (vf_mem s).2 !! i = Some (Some p) ∧ vf_kd s !! p = Some kd.
Proof.
  intros Ht Hl. destruct (omap_all _ _ _ _ (tk_slots _ Ht) Hl) as (o & Ho & He). unfold entry_of in He.
  destruct o as [q|]; [|done]. simpl in He. destruct (vf_kd s !! q) as [kd'|] eqn:Hq; simplify_eq/=. done.
Qed.
Lemma table_kd s p kd : table_ok s → (p, kd) ∈ table s → vf_kd s !! p = Some kd.
Proof. intros Ht [i Hi]%list_elem_of_lookup. by apply (table_slot s i). Qed.
Lemma drop_S_tail {A} (l : list A) n x t : drop n l = x :: t → drop (Datatypes.S n) l = t.
Proof. intros Hd. by rewrite <- (Nat.add_1_r n), <- drop_drop, Hd. Qed.

Lemma drop_table s i p kd l :
  table_ok s → 0 ≤ i → drop (Z.to_nat i) (table s) = (p, kd) :: l →
  getguy i s = Ok (p, kd) s ∧ drop (Z.to_nat (i + 1)) (table s) = l.
Proof.
  intros Ht Hi Hd. split; [|replace (Z.to_nat (i + 1)) with (Datatypes.S (Z.to_nat i)) by lia; by eapply drop_S_tail].
  assert (Hl : table s !! Z.to_nat i = Some (p, kd)) by (by rewrite <- (Nat.add_0_r (Z.to_nat i)), <- lookup_drop, Hd).
  destruct (table_slot s _ _ _ Ht Hl) as (Hc & Hkd). pose proof (tk_mem _ Ht) as (_ & Hwf & _).
  pose proof (lookup_lt_Some _ _ _ Hc) as Hlt. unfold getguy.
  assert (array_getguy (vf_mem s).2 i = Some (Some p)) as ->; [|unfold bind, kd_of; by rewrite Hkd].
  destruct Hwf as [Hnum Hslots _ _].
  assert (Hin : i < arr_num (vf_mem s).2).
  { unfold arr_contents, ztake in Hlt. rewrite length_take in Hlt. lia. }
  unfold array_getguy. rewrite (proj2 (Z.leb_le _ _)) by lia. rewrite (proj2 (Z.geb_le _ _)) by lia. rewrite (proj2 (Z.ltb_lt _ _)) by lia.
  simpl. unfold arr_contents, ztake in Hc. apply lookup_take_Some in Hc as [Hc _]. unfold zget. by rewrite decide_True by lia.
Qed.

Lemma table_length s : table_ok s → Z.to_nat (arr_num (vf_mem s).2) = length (table s).
Proof.
  intros Ht. pose proof (tk_mem _ Ht) as (_ & [Hnum Hslots _ _] & _). unfold table.
  assert (∀ l, Forall (λ o, is_Some (entry_of s o)) l → length (omap (entry_of s) l) = length l) as Ho.
  { intros l Hl. induction Hl as [|o l [e He] _ IH]; [done|]. simpl. rewrite He. cbn [length]. f_equal. exact IH. }
  rewrite Ho by apply Ht. unfold arr_contents, ztake. rewrite length_take. unfold zlen in Hslots. lia.
Qed.

(** Entry [i] of the table, and the rest. *)
Lemma wp_getguy s i p kd l Q E :
  table_ok s → 0 ≤ i → drop (Z.to_nat i) (table s) = (p, kd) :: l →
  ((p, kd) ∈ table s → drop (Z.to_nat (i + 1)) (table s) = l → Q (p, kd) s) → wp (getguy i) Q E s.
Proof.
  intros Ht Hi Hd HQ. destruct (drop_table s i p kd l Ht Hi Hd) as [Hg Hd']. unfold wp. rewrite Hg. apply HQ; [|done].
  apply list_elem_of_lookup. exists (Z.to_nat i). by rewrite <- (Nat.add_0_r (Z.to_nat i)), <- lookup_drop, Hd.
Qed.
Lemma wp_getnum s Q E : table_ok s → Q (length (table s)) s → wp getnum Q E s.
Proof. intros Ht HQ. unfold getnum. apply wp_gets. unfold array_getnum. by rewrite table_length. Qed.

Lemma core_locks s b b' :
  vfs_core s → vfs_core (mkvfs (vf_mem s) (vf_kd s) b (bootfs_vnode s) b' (t_cwd s) (vf_w s)).
Proof. intros [[] ? ? ?]. by split. Qed.
Lemma went_table s s' r o : went s s' r o → table s' = table s.
Proof. by intros [_ _ _ _ _ [w ->]]. Qed.

(** A section under the lock. *)
Lemma wp_devs {A} (c : M S A) s Q E :
  knowndevs_lock s = false →
  wp c (λ a s', Q a (set_devlock false s')) (λ e s', E e (set_devlock false s')) (set_devlock true s) →
  wp (with_devs c) Q E s.
Proof.
  intros Hl Hc. unfold with_devs. wp_bind. apply wp_gets. rewrite Hl. wp_bind. apply wp_kassert; [done|].
  wp_bind. apply wp_modify. unfold wp, bind, try in *. destruct (c (set_devlock true s)); done.
Qed.
Lemma went_devs s s' r o : knowndevs_lock s = false → went (set_devlock true s) s' r o → went s (set_devlock false s') r o.
Proof.
  intros Hl [Hk R O V F [w ->]]. split; [exact (core_locks _ false (bootfs_lock s) Hk)|done|done|done|done|]. exists w. unfold set_devlock. simpl. by rewrite Hl.
Qed.
Lemma wp_boot {A} (c : M S A) s Q E :
  bootfs_lock s = false →
  wp c (λ a s', Q a (set_bootlock false s')) (λ e s', E e (set_bootlock false s')) (set_bootlock true s) →
  wp (with_boot c) Q E s.
Proof.
  intros Hl Hc. unfold with_boot. wp_bind. apply wp_gets. rewrite Hl. wp_bind. apply wp_kassert; [done|].
  wp_bind. apply wp_modify. unfold wp, bind, try in *. destruct (c (set_bootlock true s)); done.
Qed.
Lemma went_boot s s' r o : bootfs_lock s = false → went (set_bootlock true s) s' r o → went s (set_bootlock false s') r o.
Proof.
  intros Hl [Hk R O V F [w ->]]. split; [exact (core_locks _ (knowndevs_lock s) false Hk)|done|done|done|done|]. exists w. unfold set_bootlock. simpl. by rewrite Hl.
Qed.
Lemma went_ok s s' r o : vfs_ok s → went s s' r o → vfs_ok s'.
Proof. intros (_ & H1 & H2) [Hk _ _ _ _ [w ->]]. done. Qed.
End spec.
