(* ===== verification/VfsOps.v ===== *)
(** * The virtual file system layer: what each routine does

    Every routine is described by the answer it gives and by the references
    that change hands. *)

From S2P Require Import Prelude KString Kmem KArray Vm Vfs VfsSpec.

(** ** Names of devices: the reference *)

(** What a name stands for: the root of a mounted file system, a device, or a
    device that has to be mounted first. *)
Inductive dev_answer := A_root (fs : Z) | A_device (v : Z) | A_unmounted.
#[global] Instance dev_answer_eq_dec : EqDecision dev_answer.
Proof. solve_decision. Defined.

(** One entry of the table, by the comment at the head of vfslist.c. *)
Definition dev_entry (volname : Z → option str) (kd : knowndev) (name : str) : option dev_answer :=
  if decide (kd_name kd = name) then
    Some (if decide (kd_fs kd ≠ 0) then A_root (kd_fs kd)
          else match kd_rawname kd with Some _ => A_unmounted | None => A_device (kd_vnode kd) end)
  else if decide (kd_fs kd ≠ 0 ∧ volname (kd_fs kd) = Some name) then Some (A_root (kd_fs kd))
  else if decide (kd_rawname kd = Some name) then Some (A_device (kd_vnode kd))
  else None.
(** The first entry that has the name. *)
Fixpoint find_dev (volname : Z → option str) (l : list (Z * knowndev)) (name : str) : option dev_answer :=
  match l with
  | [] => None
  | (_, kd) :: l' => match dev_entry volname kd name with Some a => Some a | None => find_dev volname l' name end
  end.

(** ** Path names: the reference *)

(** Where a path starts: at the current directory, at a device, at the boot
    file system, at the root of the current file system. *)
Inductive path_start := P_cwd | P_dev (name : str) | P_boot | P_curfs.

(** Up to the first colon or slash, and the rest from there on. *)
Fixpoint upto_sep (path : str) : str * str :=
  match path with
  | [] => ([], [])
  | c :: path' =>
      if decide (c = COLON ∨ c = SLASH) then ([], path)
      else let '(a, b) := upto_sep path' in (c :: a, b)
  end.
(** The four forms: [dev:path], [/path], [:path], and a relative path; slashes
    behind the start are skipped. *)
Definition parse_path (path : str) : path_start * str :=
  match upto_sep path with
  | (_, []) => (P_cwd, path)
  | ([], c :: rest) => (if decide (c = COLON) then P_curfs else P_boot, skip_slashes rest)
  | (dev, c :: rest) => if decide (c = COLON) then (P_dev dev, skip_slashes rest) else (P_cwd, path)
  end.

Lemma first_sep_upto path i :
  match upto_sep path with
  | (a, []) => first_sep path i = (-1, -1)
  | (a, c :: b) => path = a ++ c :: b ∧
      (c = COLON ∧ first_sep path i = (i + zlen a, -1) ∨ c = SLASH ∧ first_sep path i = (-1, i + zlen a))
  end.
Proof.
  revert i. induction path as [|c path IH]; intros i; cbn [upto_sep first_sep]; [done|]. unfold COLON, SLASH in *. case_decide as Hd.
  - split; [done|]. destruct (Z.eqb_spec c 58), (Z.eqb_spec c 47); [lia|left|right|lia]; split; try done; f_equal; unfold zlen; simpl; lia.
  - destruct (Z.eqb_spec c 58), (Z.eqb_spec c 47); [tauto..|]. specialize (IH (i + 1)). destruct (upto_sep path) as [a [|c' b]]; [done|].
    destruct IH as [-> IH]. split; [done|]. replace (i + zlen (c :: a)) with (i + 1 + zlen a) by (unfold zlen; simpl; lia). exact IH.
Qed.

Lemma ztake_app_exact (a b : str) : ztake (zlen a) (a ++ b) = a.
Proof. unfold ztake, zlen. by rewrite Nat2Z.id, take_app_length. Qed.
Lemma zdrop_app_cons (a b : str) c : zdrop (zlen a + 1) (a ++ c :: b) = b.
Proof.
  unfold zdrop, zlen. replace (Z.to_nat (Z.of_nat (length a) + 1)) with (length a + 1)%nat by lia.
  by rewrite <- drop_drop, drop_app_length.
Qed.

(** Composition of steps, the counts being added up. *)
Ltac wsum := intros ?v; unfold one, nil; repeat case_decide; subst; lia.
Ltac went_seq H1 H2 := eapply (went_trans _ _ _ _ _ _ _ _ _ H1 H2); wsum.

Section ops.
Context {H W : Type} `{!Kmem H, !KmemOk H, !Vref W, !Files W, !FilesOk W}.
Notation S := (vfs H W).
Implicit Types (s : S) (kd : knowndev).

Lemma opteq_spec a b : (∀ x, a = Some x → str_ok x) → str_ok b → opteq a b = bool_decide (a = Some b).
Proof.
  intros Ha Hb. destruct a as [a|]; cbn [opteq]; [|by rewrite bool_decide_eq_false_2]. rewrite streq_spec by auto.
  by apply bool_decide_ext; naive_solver.
Qed.

(** What is known when an entry gives its answer. *)
Definition answers s s' (a : option dev_answer) (r : Z) : Prop :=
  match a with
  | Some (A_root fs) => r ≠ 0 ∧ went s s' (one r 1) nil ∧ vn_fs_of r (vf_w s') = fs
  | Some (A_device v) => r = v ∧ went s s' (one v 1) nil
  | _ => False
  end.
Definition refuses s s' (a : option dev_answer) (e : errno) : Prop :=
  went s s' nil nil ∧ (a = Some A_unmounted ∧ e = ENXIO ∨ a = None ∧ e = ENODEV).

(** The end of an entry that stands for its device. *)
Lemma wp_device s p kd (Q : option Z → S → Prop) E :
  vfs_core s → (p, kd) ∈ table s → kd_device kd ≠ 0 → (∀ s', went s s' (one (kd_vnode kd) 1) nil → Q (Some (kd_vnode kd)) s') →
  wp (kassert (negb (kd_device kd =? 0)) ;;; below (VOP_INCREF (kd_vnode kd)) ;;; ret (Some (kd_vnode kd))) Q E s.
Proof.
  intros Hk He Hd HQ. wp_bind. apply wp_kassert; [by apply negb_true_iff, Z.eqb_neq|]. wp_bind.
  apply wp_incref; [done|by eapply entry_used|]. intros s' Hw. apply wp_ret. by apply HQ.
Qed.

Lemma getroot_entry_spec s p kd name :
  vfs_core s → (p, kd) ∈ table s → str_ok name →
  let a := dev_entry (fvolname (vf_w s)) kd name in
  wp (getroot_entry kd name)
     (λ r s', match r with Some v => answers s s' a v | None => went s s' nil nil ∧ a = None end)
     (λ e s', e = ENXIO ∧ went s s' nil nil ∧ a = Some A_unmounted) s.
Proof.
  intros Hk He Hn a. destruct (tk_names _ (vk_table _ Hk) _ _ He) as [Hn1 Hn2]. pose proof (vk_kds _ Hk _ _ He) as [_ Hfs Hnd Hd].
  subst a. unfold getroot_entry, dev_entry. rewrite !streq_spec by done.
  rewrite opteq_spec by done. destruct (Z.eqb_spec (kd_fs kd) 0) as [Hf|Hf]; cbn [negb].
  - assert (Hdev : kd_device kd ≠ 0) by naive_solver.
    rewrite (decide_False (P := kd_fs kd ≠ 0)) by tauto. rewrite (decide_False (P := kd_fs kd ≠ 0 ∧ _)) by tauto.
    destruct (decide (kd_name kd = name)) as [Hnm|Hnm].
    + rewrite (bool_decide_eq_true_2 (kd_name kd = name)) by done. rewrite andb_true_r.
      destruct (kd_rawname kd) as [raw|]; simpl; [apply wp_fail; split; [done|]; split; [by apply went_refl|done]|].
      wp_bind. apply wp_ret. wp_bind. apply wp_ret. apply (wp_device s p); done.
    + rewrite (bool_decide_eq_false_2 (kd_name kd = name)) by done. rewrite andb_false_r.
      destruct (decide (kd_rawname kd = Some name)) as [Hr|Hr]; [rewrite bool_decide_eq_true_2 by done|rewrite bool_decide_eq_false_2 by done].
      * apply (wp_device s p); done.
      * apply wp_ret. split; [by apply went_refl|done].
  - rewrite (decide_True (P := kd_fs kd ≠ 0)) by done. specialize (Hfs Hf). wp_bind. apply wp_getvolname; [done|done|]. intros s1 Hw1.
    pose proof (went_table _ _ _ _ Hw1) as Ht1. pose proof (wn_core _ _ _ _ Hw1) as Hk1.
    rewrite opteq_spec by (try done; intros x Hx; by eapply volname_ok).
    destruct (decide (kd_name kd = name)) as [Hnm|Hnm];
      [rewrite (bool_decide_eq_true_2 (kd_name kd = name)) by done|rewrite (bool_decide_eq_false_2 (kd_name kd = name)) by done]; cbn [orb].
    { wp_bind. apply wp_getroot; [done|by eapply ko_fs, Hf; eapply vk_kds; rewrite ?Ht1|]. intros v s2 Hv Hw2 Hvf.
      apply wp_ret. split; [done|]. split; [went_seq Hw1 Hw2|done]. }
    destruct (decide (fvolname (vf_w s) (kd_fs kd) = Some name)) as [Hvn|Hvn];
      [rewrite (bool_decide_eq_true_2 (fvolname _ _ = _)) by done|rewrite (bool_decide_eq_false_2 (fvolname _ _ = _)) by done].
    { rewrite decide_True by done. wp_bind. apply wp_getroot; [done|by eapply ko_fs, Hf; eapply vk_kds; rewrite ?Ht1|].
      intros v s2 Hv Hw2 Hvf. apply wp_ret. split; [done|]. split; [went_seq Hw1 Hw2|done]. }
    rewrite (decide_False (P := kd_fs kd ≠ 0 ∧ _)) by tauto.
    destruct (decide (kd_rawname kd = Some name)) as [Hr|Hr]; [rewrite bool_decide_eq_true_2 by done|rewrite bool_decide_eq_false_2 by done].
    + apply (wp_device s1 p); [done|by rewrite Ht1|naive_solver|]. intros s2 Hw2. split; [done|]. went_seq Hw1 Hw2.
    + apply wp_ret. by split.
Qed.

Lemma find_dev_ext f g l name :
  (∀ p kd, (p, kd) ∈ l → kd_fs kd ≠ 0 → f (kd_fs kd) = g (kd_fs kd)) → find_dev f l name = find_dev g l name.
Proof.
  induction l as [|[p kd] l IH]; intros Hl; simpl; [done|]. rewrite IH by (intros; eapply Hl; [by apply elem_of_cons; right|done]).
  assert (dev_entry f kd name = dev_entry g kd name) as ->; [|done]. unfold dev_entry.
  destruct (decide (kd_fs kd ≠ 0)) as [Hf|Hf]; [rewrite (Hl p kd) by (done || by apply elem_of_cons; left); done|].
  destruct (decide (kd_name kd = name)); [done|]. rewrite !(decide_False (P := kd_fs kd ≠ 0 ∧ _)) by tauto. done.
Qed.
Lemma answers_later s s1 s' a r : went s s1 nil nil → answers s1 s' a r → answers s s' a r.
Proof.
  intros Hw. destruct a as [[fs|v|]|]; simpl; [|..|done].
  - intros (? & Hw2 & ?). split; [done|]. split; [went_seq Hw Hw2|done].
  - intros [-> Hw2]. split; [done|]. went_seq Hw Hw2.
  - done.
Qed.
Lemma refuses_later s s1 s' a e : went s s1 nil nil → refuses s1 s' a e → refuses s s' a e.
Proof. intros Hw [Hw2 He]. split; [went_seq Hw Hw2|done]. Qed.
(** The names of mounted volumes do not change on the way. *)
Lemma find_dev_went s s' r o l name : vfs_core s → went s s' r o → (∀ e, e ∈ l → e ∈ table s) →
  find_dev (fvolname (vf_w s')) l name = find_dev (fvolname (vf_w s)) l name.
Proof.
  intros Hk Hw Hl. apply find_dev_ext. intros p kd He Hf. apply (wn_vol _ _ _ _ Hw).
  eapply ko_fs; [|done]. eapply vk_kds; [done|]. by apply Hl.
Qed.

Lemma getroot_loop_spec name l : str_ok name → ∀ i s,
  vfs_core s → 0 ≤ i → drop (Z.to_nat i) (table s) = l →
  let a := find_dev (fvolname (vf_w s)) l name in
  wp (getroot_loop (length l) i name) (λ r s', answers s s' a r) (λ e s', refuses s s' a e) s.
Proof.
  intros Hn. induction l as [|[p kd] l IH]; intros i s Hk Hi Hd a.
  { apply wp_fail. split; [by apply went_refl|]. by right. }
  cbn [length getroot_loop]. wp_bind. eapply (wp_getguy s i p kd l); [apply Hk|done|done|]. intros He Hd'.
  wp_bind. eapply wp_mono; [by apply (getroot_entry_spec s p kd)| |].
  - intros [v|] s1 Hr; [apply wp_ret; subst a; simpl; by destruct (dev_entry _ kd name) eqn:Hde|].
    destruct Hr as [Hw Hr]. pose proof (went_table _ _ _ _ Hw) as Ht.
    assert (Ha : a = find_dev (fvolname (vf_w s1)) l name).
    { subst a. cbn [find_dev]. rewrite Hr. symmetry. eapply find_dev_went; [done..|]. intros e Hin. rewrite <- Hd' in Hin.
      apply list_elem_of_lookup in Hin as [j Hj]. rewrite lookup_drop in Hj. by eapply list_elem_of_lookup_2. }
    eapply wp_mono; [apply (IH (i + 1) s1); [apply Hw|lia|by rewrite Ht]| |]; rewrite <- Ha.
    + intros r s' Hr'. by eapply answers_later.
    + intros e s' Hr'. by eapply refuses_later.
  - intros e s1 (-> & Hw & Hr). subst a. cbn [find_dev]. rewrite Hr. split; [done|]. by left.
Qed.

Lemma vfs_getroot_spec s name :
  vfs_ok s → str_ok name →
  let a := find_dev (fvolname (vf_w s)) (table s) name in
  wp (vfs_getroot name) (λ r s', answers s s' a r) (λ e s', refuses s s' a e) s.
Proof.
  intros (Hk & Hl & _) Hn a. unfold vfs_getroot. apply wp_devs; [done|].
  assert (Hk0 : vfs_core (set_devlock true s)) by by apply (core_locks s true (bootfs_lock s)).
  wp_bind. apply wp_getnum; [apply Hk0|]. eapply wp_mono; [apply (getroot_loop_spec name (table s) Hn 0 (set_devlock true s)); [done|done|done]| |].
  - intros r s' Hr. subst a. change (vf_w (set_devlock true s)) with (vf_w s) in Hr.
    destruct (find_dev (fvolname (vf_w s)) (table s) name) as [[fs|v|]|]; simpl in *; [|..|done].
    + destruct Hr as (? & Hw & ?). split; [done|]. split; [by apply went_devs|done].
    + destruct Hr as [-> Hw]. split; [done|]. by apply went_devs.
    + done.
  - intros e s' [Hw Hr]. split; [by apply went_devs|done].
Qed.

(** ** The current directory *)

Lemma vfs_getcurdir_spec s :
  vfs_core s →
  wp vfs_getcurdir (λ r s', r = t_cwd s ∧ r ≠ 0 ∧ went s s' (one r 1) nil) (λ e s', e = ENOENT ∧ t_cwd s = 0 ∧ s' = s) s.
Proof.
  intros Hk. unfold vfs_getcurdir. wp_bind. apply wp_gets. destruct (Z.eqb_spec (t_cwd s) 0) as [Hc|Hc]; simpl; [by apply wp_fail|].
  wp_bind. apply wp_incref; [done|by apply cwd_used|]. intros s' Hw. by apply wp_ret.
Qed.

(** ** Where a path starts *)

(** The vnode handed back, with one reference; or why there is none. *)
Definition starts_at s s' (p : path_start) (v : Z) : Prop :=
  match p with
  | P_cwd => v = t_cwd s
  | P_boot => v = bootfs_vnode s
  | P_curfs => t_cwd s ≠ 0 ∧ vn_fs_of v (vf_w s') = vn_fs_of (t_cwd s) (vf_w s)
  | P_dev n => match find_dev (fvolname (vf_w s)) (table s) n with
               | Some (A_root fs) => vn_fs_of v (vf_w s') = fs
               | Some (A_device d) => v = d
               | _ => False
               end
  end.
Definition no_start s (p : path_start) (e : errno) : Prop :=
  match p with
  | P_cwd | P_curfs => t_cwd s = 0 ∧ e = ENOENT
  | P_boot => bootfs_vnode s = 0 ∧ e = ENOENT
  | P_dev n => match find_dev (fvolname (vf_w s)) (table s) n with
               | Some A_unmounted => e = ENXIO
               | None => e = ENODEV
               | _ => False
               end
  end.

Lemma find_dev_vnode s l n v : vfs_core s → (∀ e, e ∈ l → e ∈ table s) →
  find_dev (fvolname (vf_w s)) l n = Some (A_device v) → v ≠ 0.
Proof.
  intros Hk. induction l as [|[p kd] l IH]; intros Hl; simpl; [done|].
  assert (kd_vnode kd ≠ 0) by (eapply ko_vnode, vk_kds; [done|apply Hl; by apply elem_of_cons; left]).
  destruct (dev_entry _ kd n) as [a|] eqn:Hd; [|apply IH; intros; apply Hl; by apply elem_of_cons; right].
  intros [= ->]. unfold dev_entry in Hd. repeat (case_decide || case_match); simplify_eq/=; done.
Qed.

Definition getdevice_post s path (r : Z * str) s' : Prop :=
  r.2 = (parse_path path).2 ∧ r.1 ≠ 0 ∧ went s s' (one r.1 1) nil ∧ starts_at s s' (parse_path path).1 r.1.
Definition getdevice_err s path (e : errno) s' : Prop :=
  went s s' nil nil ∧ no_start s (parse_path path).1 e.

Lemma from_boot s : vfs_ok s →
  wp (with_boot (let! b := gets bootfs_vnode in if b =? 0 then fail ENOENT else below (VOP_INCREF b) ;;; ret b))
     (λ r s', r ≠ 0 ∧ went s s' (one r 1) nil ∧ r = bootfs_vnode s)
     (λ e s', went s s' nil nil ∧ bootfs_vnode s = 0 ∧ e = ENOENT) s.
Proof.
  intros (Hk & _ & Hl). assert (Hk0 : vfs_core (set_bootlock true s)) by by apply (core_locks s (knowndevs_lock s) true).
  apply wp_boot; [done|]. wp_bind. apply wp_gets. simpl. destruct (Z.eqb_spec (bootfs_vnode s) 0) as [Hb|Hb].
  - apply wp_fail. split; [|done]. apply went_boot; [done|]. by apply went_refl.
  - wp_bind. apply wp_incref; [done|by apply (boot_used (set_bootlock true s))|]. intros s' Hw. apply wp_ret. split; [done|]. split; [by apply went_boot|done].
Qed.
Lemma from_curfs s : vfs_core s →
  wp (let! vn := vfs_getcurdir in
      let! w := gets vf_w in
      kassert (negb (vn_fs_of vn w =? 0)) ;;;
      let! r := below (FSOP_GETROOT (vn_fs_of vn w)) in
      below (VOP_DECREF vn) ;;; ret r)
     (λ r s', r ≠ 0 ∧ went s s' (one r 1) nil ∧ t_cwd s ≠ 0 ∧ vn_fs_of r (vf_w s') = vn_fs_of (t_cwd s) (vf_w s))
     (λ e s', went s s' nil nil ∧ t_cwd s = 0 ∧ e = ENOENT) s.
Proof.
  intros Hk. wp_bind. eapply wp_mono; [by apply vfs_getcurdir_spec| |].
  2: { intros e s' (-> & Hc & ->). split; [by apply went_refl|done]. }
  intros vn s1 (-> & Hc & Hw1). pose proof (wn_core _ _ _ _ Hw1) as Hk1. pose proof (wn_frame _ _ _ _ Hw1) as [w1 Hs1].
  assert (Hc1 : t_cwd s1 = t_cwd s) by by rewrite Hs1.
  assert (Hf1 : vn_fs_of (t_cwd s) (vf_w s1) = vn_fs_of (t_cwd s) (vf_w s)) by (apply (wn_fs _ _ _ _ Hw1); [done|apply cwd_held]).
  assert (Hne : vn_fs_of (t_cwd s) (vf_w s1) ≠ 0) by (rewrite <- Hc1; apply vk_cwd; congruence).
  wp_bind. apply wp_gets. wp_bind. apply wp_kassert; [by apply negb_true_iff, Z.eqb_neq|].
  wp_bind. apply wp_getroot; [done| |].
  { apply fs_of_used; [|done]. rewrite <- Hc1. apply cwd_used; [done|congruence]. }
  intros v s2 Hv Hw2 Hvf. pose proof (wn_core _ _ _ _ Hw2) as Hk2.
  assert (Ho2 : ∀ x, owed s2 x = owed s x + one (t_cwd s) 1 x + one v 1 x).
  { intros x. rewrite (wn_refs _ _ _ _ Hw2), (wn_refs _ _ _ _ Hw1). lia. }
  wp_bind. apply wp_decref_fs; [done| |].
  { rewrite Ho2. unfold one at 1. rewrite decide_True by done. pose proof (vk_owed _ Hk _ Hc). pose proof (one_range v (t_cwd s)). lia. }
  intros s3 Hw3 Hfs. apply wp_ret. split; [done|].
  assert (Hw13 : went s s3 (one v 1) nil).
  { assert (Hw12 : went s s2 (λ x, one (t_cwd s) 1 x + one v 1 x) nil) by (eapply (went_trans _ _ _ _ _ _ _ _ _ Hw1 Hw2); wsum). went_seq Hw12 Hw3. }
  split; [done|]. split; [done|]. rewrite Hfs; [congruence|..].
  - pose proof (owed_refs s2 v). rewrite Ho2 in H0. unfold one at 2 in H0. rewrite decide_True in H0 by done.
    pose proof (one_range (t_cwd s) v). pose proof (vk_owed _ Hk _ Hv). lia.
  - pose proof (owed_refs s3 v) as H0. rewrite (wn_refs _ _ _ _ Hw13) in H0. unfold one in H0. rewrite decide_True in H0 by done.
    pose proof (vk_owed _ Hk _ Hv). lia.
Qed.

Lemma getdevice_spec s path :
  vfs_ok s → str_ok path → wp (getdevice path) (getdevice_post s path) (getdevice_err s path) s.
Proof.
  intros Hok Hp. pose proof Hok as (Hk & _). unfold getdevice, getdevice_post, getdevice_err, parse_path.
  pose proof (first_sep_upto path 0) as Hsep. destruct (upto_sep path) as [dev [|c rest]].
  { assert (∀ T (x : T), match dev with [] | _ => x end = x) as Hdev by by destruct dev. rewrite Hsep, !Hdev. simpl.
    wp_bind. eapply wp_mono; [by apply vfs_getcurdir_spec| |].
    - intros v s' (-> & Hv & Hw). by apply wp_ret.
    - intros e s' (-> & Hc & ->). split; [by apply went_refl|done]. }
  destruct Hsep as [-> Hsep]. destruct dev as [|d dev].
  - change (zlen []) with 0 in Hsep. cbn [app] in *. rewrite Z.add_0_l in Hsep.
    assert (zdrop 1 (c :: rest) = rest) as Hdrop by done.
    destruct Hsep as [[-> ->]|[-> ->]]; simpl.
    + wp_bind. apply wp_ret. wp_bind. wp_bind. apply wp_ret. eapply wp_mono; [by apply from_curfs| |].
      * intros v s' (? & ? & ? & ?). apply wp_ret. done.
      * intros e s' (? & ? & ?). done.
    + wp_bind. apply wp_ret. wp_bind. eapply wp_mono; [by apply from_boot| |].
      * intros v s' (? & ? & ?). apply wp_ret. done.
      * intros e s' (? & ? & ?). done.
  - assert (Hz : 0 < zlen (d :: dev)) by (unfold zlen; simpl; lia). rewrite Z.add_0_l in Hsep.
    destruct Hsep as [[-> ->]|[-> ->]].
    + rewrite (proj2 (Z.ltb_ge _ _)) by lia. cbn [andb]. rewrite (proj2 (Z.gtb_gt _ _)) by lia. rewrite decide_True by done.
      rewrite ztake_app_exact, zdrop_app_cons by done. apply Forall_app in Hp as [Hp _].
      wp_bind. eapply wp_mono; [by apply vfs_getroot_spec| |].
      * intros v s' Hr. apply wp_ret. simpl. split; [done|].
        destruct (find_dev (fvolname (vf_w s)) (table s) (d :: dev)) as [[fs|x|]|] eqn:Hf; simpl in *; try done.
        destruct Hr as [-> Hw]. split; [|done]. by eapply (find_dev_vnode s (table s)).
      * intros e s' [Hw Hr]. split; [done|]. simpl.
        destruct (find_dev (fvolname (vf_w s)) (table s) (d :: dev)) as [[fs|x|]|]; naive_solver.
    + cbn [Z.ltb Z.compare andb]. rewrite (proj2 (Z.eqb_neq _ _)) by lia. simpl. wp_bind. eapply wp_mono; [by apply vfs_getcurdir_spec| |].
      * intros v s' (-> & Hv & Hw). by apply wp_ret.
      * intros e s' (-> & Hc & ->). split; [by apply went_refl|done].
Qed.

(** ** Looking up *)

Lemma went_owed s s' v o : vfs_core s → v ≠ 0 → went s s' (one v 1) o → 0 < owed s' v.
Proof.
  intros Hk Hv Hw. rewrite (wn_refs _ _ _ _ Hw). unfold one. rewrite decide_True by done. pose proof (vk_owed _ Hk _ Hv). lia.
Qed.
Lemma owed_used s v : 0 < owed s v → 0 < frefs (vf_w s) v.
Proof. pose proof (owed_refs s v). lia. Qed.

(** A call on a vnode that the caller then lets go. *)
Lemma drop_after {A} (c : M W A) (P : A → Prop) (R : A → Z → Z) s s1 v :
  vfs_core s → v ≠ 0 → went s s1 (one v 1) nil → (∀ a x, 0 ≤ R a x) →
  wp (below c) (λ a s2, P a ∧ went s1 s2 (R a) nil) (λ _ s2, went s1 s2 nil nil) s1 →
  wp (let! r := try (below c) in below (VOP_DECREF v) ;;; give r)
     (λ a s', P a ∧ went s s' (R a) nil) (λ _ s', went s s' nil nil) s1.
Proof.
  intros Hk Hv Hw1 HR Hc. pose proof (went_owed _ _ _ _ Hk Hv Hw1) as Ho.
  assert (Hdrop : ∀ r s2 (Q : unit → S → Prop) E, went s1 s2 r nil → (∀ x, 0 ≤ r x) → (∀ s3, went s s3 r nil → Q tt s3) → wp (below (VOP_DECREF v)) Q E s2).
  { intros r s2 Q E Hw2 Hr HQ. apply wp_decref; [apply Hw2|rewrite (wn_refs _ _ _ _ Hw2); specialize (Hr v); lia|]. intros s3 Hw3. apply HQ.
    assert (Hw12 : went s s2 (λ x, one v 1 x + r x) nil) by (eapply (went_trans _ _ _ _ _ _ _ _ _ Hw1 Hw2); wsum).
    eapply (went_trans _ _ _ _ _ _ _ _ _ Hw12 Hw3); wsum. }
  wp_bind. apply wp_try. eapply wp_mono; [exact Hc| |].
  - intros a s2 [HP Hw2]. wp_bind. apply (Hdrop (R a)); [done|apply HR|]. intros s3 Hw3. by apply wp_ret.
  - intros e s2 Hw2. wp_bind. apply (Hdrop nil); [done|done|]. intros s3 Hw3. by apply wp_fail.
Qed.
Lemma drop_after_quiet (c : M W unit) s s1 v :
  vfs_core s → v ≠ 0 → went s s1 (one v 1) nil → (0 < frefs (vf_w s1) v → quiet_op c (vf_w s1)) →
  wp (let! r := try (below c) in below (VOP_DECREF v) ;;; give r) (λ _ s', went s s' nil nil) (λ _ s', went s s' nil nil) s1.
Proof.
  intros Hk Hv Hw1 Hc. eapply wp_mono; [apply (drop_after c (λ _, True) (λ _, nil) s s1 v Hk Hv Hw1)| |done].
  - done.
  - apply wp_quiet; [apply Hw1|apply Hc, owed_used; by eapply went_owed|done|done].
  - by intros [] s' [_ ?].
Qed.

Lemma vfs_lookparent_spec s path n :
  vfs_ok s → str_ok path →
  wp (vfs_lookparent path n) (λ r s', r.1 ≠ 0 ∧ went s s' (one r.1 1) nil) (λ _ s', went s s' nil nil) s.
Proof.
  intros Hok Hp. pose proof Hok as (Hk & _). unfold vfs_lookparent. wp_bind. eapply wp_mono; [by apply getdevice_spec| |by intros e s' [? _]].
  intros [v sub] s1 (_ & Hv & Hw1 & _). simpl in Hv, Hw1. pose proof (wn_core _ _ _ _ Hw1) as Hk1. pose proof (went_owed _ _ _ _ Hk Hv Hw1) as Ho1.
  destruct (zlen sub =? 0).
  - wp_bind. apply wp_ret. wp_bind. apply wp_decref; [done|done|]. intros s2 Hw2. apply wp_fail. went_seq Hw1 Hw2.
  - apply (drop_after _ (λ r, r.1 ≠ 0) (λ r, one r.1 1) s s1 v); [done..|intros; apply one_range|].
    by apply wp_lookparent_below; [|apply owed_used|..].
Qed.
Lemma vfs_lookup_spec s path :
  vfs_ok s → str_ok path →
  wp (vfs_lookup path) (λ r s', r ≠ 0 ∧ went s s' (one r 1) nil) (λ _ s', went s s' nil nil) s.
Proof.
  intros Hok Hp. pose proof Hok as (Hk & _). unfold vfs_lookup. wp_bind. eapply wp_mono; [by apply getdevice_spec| |by intros e s' [? _]].
  intros [v sub] s1 (_ & Hv & Hw1 & _). simpl in Hv, Hw1. destruct (zlen sub =? 0); [by apply wp_ret|].
  apply (drop_after _ (λ r, r ≠ 0) (λ r, one r 1) s s1 v); [done..|intros; apply one_range|].
  apply wp_new_ref; [apply Hw1|apply lookup_ok, owed_used; by eapply went_owed|done|done].
Qed.

(** ** Operations on path names *)

Lemma in_parent_spec s path (c : Z → str → M W unit) :
  vfs_ok s → str_ok path → (∀ w d n, 0 < frefs w d → quiet_op (c d n) w) →
  wp (in_parent path c) (λ _ s', went s s' nil nil) (λ _ s', went s s' nil nil) s.
Proof.
  intros Hok Hp Hc. pose proof Hok as (Hk & _). unfold in_parent. wp_bind. eapply wp_mono; [by apply vfs_lookparent_spec| |done].
  intros [d nm] s1 [Hd Hw1]. apply drop_after_quiet; [done..|]. apply Hc.
Qed.
Lemma vfs_readlink_spec s path u :
  vfs_ok s → str_ok path → wp (vfs_readlink path u) (λ _ s', went s s' nil nil) (λ _ s', went s s' nil nil) s.
Proof.
  intros Hok Hp. pose proof Hok as (Hk & _). unfold vfs_readlink. wp_bind. eapply wp_mono; [by apply vfs_lookup_spec| |done].
  intros v s1 [Hv Hw1]. apply drop_after_quiet; [done..|]. apply readlink_ok.
Qed.

(** Two vnodes let go at the end. *)
Lemma same_fs_spec s s2 v d (c : M W unit) :
  vfs_core s → v ≠ 0 → d ≠ 0 → went s s2 (λ x, one v 1 x + one d 1 x) nil →
  (0 < frefs (vf_w s2) v → 0 < frefs (vf_w s2) d → quiet_op c (vf_w s2)) →
  wp (same_fs v d c) (λ _ s', went s s' nil nil) (λ _ s', went s s' nil nil) s2.
Proof.
  intros Hk Hv Hd Hw Hc. pose proof (wn_core _ _ _ _ Hw) as Hk2.
  assert (Ho : ∀ x, x ≠ 0 → one v 1 x + one d 1 x ≤ owed s2 x).
  { intros x Hx. rewrite (wn_refs _ _ _ _ Hw). pose proof (vk_owed _ Hk _ Hx). lia. }
  set (Q := λ (_ : unit) s', went s s' nil nil). set (E := λ (_ : errno) s', went s s' nil nil).
  assert (Hboth : ∀ s3 (k : M S unit), went s2 s3 nil nil → (∀ s', went s s' nil nil → wp k Q E s') →
    wp (below (VOP_DECREF d) ;;; below (VOP_DECREF v) ;;; k) Q E s3).
  { intros s3 k Hw3 HQ. pose proof (Ho d Hd) as Hod. pose proof (Ho v Hv) as Hov.
    wp_bind. apply wp_decref; [apply Hw3|rewrite (wn_refs _ _ _ _ Hw3); unfold one, nil in *; repeat case_decide; lia|]. intros s4 Hw4.
    wp_bind. apply wp_decref; [apply Hw4|rewrite (wn_refs _ _ _ _ Hw4), (wn_refs _ _ _ _ Hw3); unfold one, nil in *; repeat case_decide; lia|].
    intros s5 Hw5. apply HQ. assert (Hw03 : went s s3 (λ x, one v 1 x + one d 1 x) nil) by went_seq Hw Hw3.
    assert (Hw04 : went s s4 (one v 1) nil) by went_seq Hw03 Hw4. went_seq Hw04 Hw5. }
  unfold same_fs. wp_bind. apply wp_gets. case_match; [by apply Hboth; [apply went_refl|]|].
  assert (Hq : quiet_op c (vf_w s2)).
  { apply Hc; apply owed_used; [specialize (Ho v Hv)|specialize (Ho d Hd)]; unfold one in *; repeat case_decide; lia. }
  wp_bind. apply wp_try. apply wp_quiet; [done|done|..].
  - intros [] s3 Hw3. by apply (Hboth s3 (ret tt)).
  - intros e s3 Hw3. by apply (Hboth s3 (fail e)).
Qed.
(** The second path of an operation, with a vnode from the first. *)
Lemma second_parent s s1 v path (c : Z → str → M W unit) :
  vfs_ok s → str_ok path → v ≠ 0 → went s s1 (one v 1) nil →
  (∀ w d n, 0 < frefs w v → 0 < frefs w d → quiet_op (c d n) w) →
  wp (let! r := try (vfs_lookparent path (NAME_MAX + 1)) in
      match r with
      | inl e => below (VOP_DECREF v) ;;; fail e
      | inr (newdir, newname) => same_fs v newdir (c newdir newname)
      end) (λ _ s', went s s' nil nil) (λ _ s', went s s' nil nil) s1.
Proof.
  intros Hok Hp Hv Hw1 Hc. pose proof Hok as (Hk & _).
  wp_bind. apply wp_try. eapply wp_mono; [apply (vfs_lookparent_spec s1 path _ (went_ok _ _ _ _ Hok Hw1) Hp)| |].
  - intros [d nm] s2 [Hd Hw2]. simpl in Hd, Hw2. apply (same_fs_spec s s2 v d); [done..| |].
    + eapply (went_trans _ _ _ _ _ _ _ _ _ Hw1 Hw2); wsum.
    + intros. by apply Hc.
  - intros e s2 Hl. assert (Hw02 : went s s2 (one v 1) nil) by went_seq Hw1 Hl. wp_bind. apply wp_decref; [apply Hl|by eapply went_owed|].
    intros s3 Hw3. apply wp_fail. went_seq Hw02 Hw3.
Qed.
Lemma vfs_rename_spec s p1 p2 :
  vfs_ok s → str_ok p1 → str_ok p2 → wp (vfs_rename p1 p2) (λ _ s', went s s' nil nil) (λ _ s', went s s' nil nil) s.
Proof.
  intros Hok Hp1 Hp2. unfold vfs_rename. wp_bind. eapply wp_mono; [by apply vfs_lookparent_spec| |done].
  intros [d nm] s1 [Hd Hw1]. apply second_parent; [done..|]. intros. by apply rename_ok.
Qed.
Lemma vfs_link_spec s p1 p2 :
  vfs_ok s → str_ok p1 → str_ok p2 → wp (vfs_link p1 p2) (λ _ s', went s s' nil nil) (λ _ s', went s s' nil nil) s.
Proof.
  intros Hok Hp1 Hp2. unfold vfs_link. wp_bind. eapply wp_mono; [by apply vfs_lookup_spec| |done].
  intros v s1 [Hv Hw1]. apply second_parent; [done..|]. intros. by apply link_ok.
Qed.

(** Opening: the vnode, with a reference and counted as open. *)
Lemma open_vnode s path flags :
  vfs_ok s → str_ok path →
  wp (if flag flags O_CREAT then
        let! ' (dir, name) := vfs_lookparent path (NAME_MAX + 1) in
        let! r := try (below (VOP_CREAT dir name (flag flags O_EXCL))) in
        below (VOP_DECREF dir) ;;; give r
      else vfs_lookup path) (λ v s', v ≠ 0 ∧ went s s' (one v 1) nil) (λ _ s', went s s' nil nil) s.
Proof.
  intros Hok Hp. pose proof Hok as (Hk & _). destruct (flag flags O_CREAT); [|by apply vfs_lookup_spec].
  wp_bind. eapply wp_mono; [by apply vfs_lookparent_spec| |done]. intros [d nm] s1 [Hd Hw1]. simpl in Hd, Hw1.
  apply (drop_after _ (λ v, v ≠ 0) (λ v, one v 1) s s1 d); [done..|intros; apply one_range|].
  apply wp_new_ref; [apply Hw1|apply creat_ok, owed_used; by eapply went_owed|done|done].
Qed.
Lemma vfs_open_spec s path flags :
  vfs_ok s → str_ok path →
  wp (vfs_open path flags) (λ v s', v ≠ 0 ∧ went s s' (one v 1) (one v 1)) (λ _ s', went s s' nil nil) s.
Proof.
  intros Hok Hp. pose proof Hok as (Hk & _). unfold vfs_open. case_match; [apply wp_fail; by apply went_refl|].
  wp_bind. eapply wp_mono; [by apply open_vnode| |done]. intros v s1 [Hv Hw1]. pose proof (went_owed _ _ _ _ Hk Hv Hw1) as Ho1.
  wp_bind. apply wp_kassert; [by apply negb_true_iff, Z.eqb_neq|].
  wp_bind. apply wp_try. apply wp_quiet; [apply Hw1|by apply open_ok, owed_used|..].
  2: { intros e s2 Hopn. assert (Hw02 : went s s2 (one v 1) nil) by went_seq Hw1 Hopn.
    wp_bind. apply wp_decref; [apply Hopn|by eapply went_owed|]. intros s3 Hw3. apply wp_fail. went_seq Hw02 Hw3. }
  intros [] s2 Hopn. assert (Hw02 : went s s2 (one v 1) nil) by went_seq Hw1 Hopn.
  wp_bind. apply wp_incopen; [apply Hopn|by eapply went_owed|]. intros s3 Hw3. assert (Hw03 : went s s3 (one v 1) (one v 1)) by went_seq Hw02 Hw3.
  pose proof (wn_core _ _ _ _ Hw3) as Hk3. destruct (flag flags O_TRUNC); [|by apply wp_ret].
  assert (Hback : ∀ e s4, went s3 s4 nil nil → wp (below (VOP_DECOPEN v) ;;; below (VOP_DECREF v) ;;; fail e)
    (λ v s', v ≠ 0 ∧ went s s' (one v 1) (one v 1)) (λ _ s', went s s' nil nil) s4).
  { intros e s4 Hw4. assert (Hw04 : went s s4 (one v 1) (one v 1)) by went_seq Hw03 Hw4.
    wp_bind. apply wp_decopen; [apply Hw4|exact (went_owed _ _ _ _ Hk Hv Hw04)|rewrite (wn_opens _ _ _ _ Hw04); unfold one; rewrite decide_True by done; pose proof (fopens_nonneg (vf_w s) v); lia|].
    intros s5 Hw5. assert (Hw05 : went s s5 (one v 1) nil) by went_seq Hw04 Hw5.
    wp_bind. apply wp_decref; [apply Hw5|exact (went_owed _ _ _ _ Hk Hv Hw05)|]. intros s6 Hw6. apply wp_fail. went_seq Hw05 Hw6. }
  case_match; [wp_bind; apply wp_ret; apply Hback; by apply went_refl|].
  wp_bind. apply wp_try. apply wp_quiet; [done|apply truncate_ok, owed_used, (went_owed _ _ _ _ Hk Hv Hw03)| |by intros; apply Hback].
  intros [] s4 Hw4. apply wp_ret. split; [done|]. went_seq Hw03 Hw4.
Qed.
Lemma vfs_close_spec s v :
  vfs_core s → 0 < owed s v → 0 < fopens (vf_w s) v →
  wp (vfs_close v) (λ _ s', went s s' (one v (-1)) (one v (-1))) (λ _ _, False) s.
Proof.
  intros Hk Ho Hop. unfold vfs_close. wp_bind. apply wp_decopen; [done..|]. intros s1 Hw1.
  apply wp_decref; [apply Hw1|rewrite (wn_refs _ _ _ _ Hw1); unfold nil; lia|]. intros s2 Hw2. went_seq Hw1 Hw2.
Qed.

(** ** The directories the layer itself has *)

(** The references of callers and the open counts as they were, or changed by
    [r] and [o]; the table stays. *)
Record settled s s' (r o : Z → Z) : Prop := {
  st_core : vfs_core s';
  st_refs : ∀ v, v ≠ 0 → owed s' v = owed s v + r v;
  st_opens : ∀ v, fopens (vf_w s') v = fopens (vf_w s) v + o v;
  st_locks : knowndevs_lock s' = knowndevs_lock s ∧ bootfs_lock s' = bootfs_lock s;
  st_table : table s' = table s;
}.
Lemma went_settled s s' r o : went s s' r o → settled s s' r o.
Proof. intros [Hk R O _ _ [w ->]]. by split. Qed.
Lemma settled_trans s s1 s2 r1 o1 r2 o2 r o :
  settled s s1 r1 o1 → settled s1 s2 r2 o2 → (∀ v, v ≠ 0 → r v = r1 v + r2 v) → (∀ v, o v = o1 v + o2 v) → settled s s2 r o.
Proof.
  intros [_ R1 O1 [L1 L1'] T1] [K R2 O2 [L2 L2'] T2] Hr Ho. split; [done| | |split; congruence|congruence].
  - intros v Hv. rewrite R2, R1, Hr by done. lia.
  - intros v. rewrite O2, O1, Ho. lia.
Qed.
Lemma settled_ok s s' r o : vfs_ok s → settled s s' r o → vfs_ok s'.
Proof. intros (_ & H1 & H2) [Hk _ _ [H3 H4] _]. split; [done|]. split; congruence. Qed.
Ltac settle H1 H2 := eapply (settled_trans _ _ _ _ _ _ _ _ _ H1 H2); [intros ?v ?Hv; unfold one, nil; repeat case_decide; subst; done || lia|wsum].

(** Another current directory, or boot file system: its reference changes
    hands. *)
Lemma change_cwd s v :
  vfs_core s → (v ≠ 0 → 0 < owed s v ∧ vn_fs_of v (vf_w s) ≠ 0) →
  settled s (set_cwd v s) (λ x, one (t_cwd s) 1 x - one v 1 x) nil.
Proof.
  intros Hk Hv. pose proof Hk as [Ht Hkd Ho Hc].
  assert (Hr : ∀ x, owed (set_cwd v s) x = owed s x + (one (t_cwd s) 1 x - one v 1 x)).
  { intros x. unfold owed, held. simpl. change (table (set_cwd v s)) with (table s). lia. }
  split; [|by intros|intros; unfold nil; simpl; lia|done|done]. split; [by destruct Ht|exact Hkd| |].
  - intros x Hx. rewrite Hr. pose proof (one_range (t_cwd s) x). pose proof (Ho x Hx). unfold one at 2. case_decide as Hd; [|lia].
    subst x. destruct (Hv Hx). lia.
  - simpl. intros Hne. by apply Hv.
Qed.
Lemma change_boot s v :
  vfs_core s → (v ≠ 0 → 0 < owed s v) → settled s (set_bootfs v s) (λ x, one (bootfs_vnode s) 1 x - one v 1 x) nil.
Proof.
  intros Hk Hv. pose proof Hk as [Ht Hkd Ho Hc].
  assert (Hr : ∀ x, owed (set_bootfs v s) x = owed s x + (one (bootfs_vnode s) 1 x - one v 1 x)).
  { intros x. unfold owed, held. simpl. change (table (set_bootfs v s)) with (table s). lia. }
  split; [|by intros|intros; unfold nil; simpl; lia|done|done]. split; [by destruct Ht|exact Hkd| |exact Hc].
  intros x Hx. rewrite Hr. pose proof (one_range (bootfs_vnode s) x). pose proof (Ho x Hx). unfold one at 2. case_decide as Hd; [|lia].
  subst x. specialize (Hv Hx). lia.
Qed.
(** The old one let go. *)
Lemma drop_old s old Q E :
  vfs_core s → (old ≠ 0 → 0 < owed s old) →
  (∀ s', settled s s' (λ x, - one old 1 x) nil → t_cwd s' = t_cwd s → bootfs_vnode s' = bootfs_vnode s → Q tt s') →
  wp (when (negb (old =? 0)) (below (VOP_DECREF old))) Q E s.
Proof.
  intros Hk Ho HQ. apply wp_when.
  - intros Hne%negb_true_iff%Z.eqb_neq. apply wp_decref; [done|by apply Ho|]. intros s' Hw. pose proof (wn_frame _ _ _ _ Hw) as [w Hs].
    apply HQ; [|by rewrite Hs..]. assert (H0 := went_settled _ _ _ _ (went_refl s Hk)). pose proof (went_settled _ _ _ _ Hw) as H1. settle H0 H1.
  - intros He%negb_false_iff%Z.eqb_eq. subst old. apply HQ; [|done..]. pose proof (went_settled _ _ _ _ (went_refl s Hk)) as H0. settle H0 H0.
Qed.

Lemma vfs_setcurdir_spec s v :
  vfs_core s → v ≠ 0 → 0 < owed s v →
  wp (vfs_setcurdir v) (λ _ s', settled s s' nil nil ∧ t_cwd s' = v ∧ bootfs_vnode s' = bootfs_vnode s)
     (λ _ s', settled s s' nil nil ∧ t_cwd s' = t_cwd s ∧ bootfs_vnode s' = bootfs_vnode s) s.
Proof.
  intros Hk Hv Ho. unfold vfs_setcurdir. wp_bind.
  assert (Hquiet : ∀ s', went s s' nil nil → settled s s' nil nil ∧ t_cwd s' = t_cwd s ∧ bootfs_vnode s' = bootfs_vnode s).
  { intros s' Hw. split; [by apply went_settled|]. pose proof (wn_frame _ _ _ _ Hw) as [w ->]. done. }
  apply wp_gettype; [done|by apply owed_used| |by intros; apply Hquiet]. intros t s1 Hw1 Hty. 
  destruct (Z.eqb_spec (Z.land t S_IFMT) S_IFDIR) as [Hd|Hd]; simpl; [|apply wp_fail; by apply Hquiet].
  specialize (Hty Hd). pose proof (wn_core _ _ _ _ Hw1) as Hk1. destruct (Hquiet s1 Hw1) as (Hs1 & Hc1 & Hb1).
  assert (Ho1 : 0 < owed s1 v) by (rewrite (wn_refs _ _ _ _ Hw1); unfold nil; lia).
  wp_bind. apply (wp_below (VOP_INCREF v) (λ _ w', vn_fs_of v w' ≠ 0) False s1 (λ _, one v 1) (λ _, nil)); [done| |by intros; apply owed_more| |done].
  { eapply wp_mono; [apply incref_ok; by apply owed_used| |by intros]. intros [] w' Hst. split; [|done].
    rewrite (mv_fs _ _ _ _ _ _ _ _ _ Hst); [done|by apply owed_used|]. rewrite (mv_refs _ _ _ _ _ _ _ _ _ Hst). pose proof (owed_used _ _ Ho1). pose proof (one_range v v). lia. }
  intros [] s2 Hw2 Hf2. pose proof (wn_frame _ _ _ _ Hw2) as [w2 Hfr2]. pose proof (wn_core _ _ _ _ Hw2) as Hk2.
  wp_bind. apply wp_gets. wp_bind. apply wp_modify.
  assert (Ho2 : ∀ x, owed s2 x = owed s1 x + one v 1 x) by apply (wn_refs _ _ _ _ Hw2).
  pose proof (change_cwd s2 v Hk2) as Hch. assert (Hs2 : settled s2 (set_cwd v s2) (λ x, one (t_cwd s2) 1 x - one v 1 x) nil).
  { apply Hch. intros _. split; [|done]. rewrite Ho2. pose proof (one_range v v). lia. }
  pose proof (went_settled _ _ _ _ Hw2) as Hw2'. assert (Hs12 : settled s (set_cwd v s2) (λ x, one (t_cwd s) 1 x) nil).
  { assert (Hs02 : settled s s2 (one v 1) nil) by settle Hs1 Hw2'. rewrite <- Hc1. replace (t_cwd s1) with (t_cwd s2) by by rewrite Hfr2. settle Hs02 Hs2. }
  apply drop_old; [apply Hs2| |].
  - intros Hne. rewrite (st_refs _ _ _ _ Hs12) by done. replace (t_cwd s2) with (t_cwd s) in * by by rewrite Hfr2.
    pose proof (vk_owed _ Hk _ Hne). unfold one. rewrite decide_True by done. lia.
  - intros s3 Hs3 Hc3 Hb3. simpl in Hc3, Hb3. split; [|split; [done|by rewrite Hb3, Hfr2]].
    replace (t_cwd s2) with (t_cwd s) in Hs3 by by rewrite Hfr2. settle Hs12 Hs3.
Qed.

Lemma vfs_clearcurdir_spec s :
  vfs_core s → wp vfs_clearcurdir (λ _ s', settled s s' nil nil ∧ t_cwd s' = 0 ∧ bootfs_vnode s' = bootfs_vnode s) (λ _ _, False) s.
Proof.
  intros Hk. unfold vfs_clearcurdir. wp_bind. apply wp_gets. wp_bind. apply wp_modify.
  pose proof (change_cwd s 0 Hk ltac:(done)) as Hs1. apply drop_old; [apply Hs1| |].
  - intros Hne. rewrite (st_refs _ _ _ _ Hs1) by done. pose proof (vk_owed _ Hk _ Hne). unfold one. rewrite decide_True by done.
    case_decide; [done|lia].
  - intros s2 Hs2 Hc Hb. split; [settle Hs1 Hs2|done].
Qed.
Lemma vfs_chdir_spec s path :
  vfs_ok s → str_ok path →
  wp (vfs_chdir path) (λ _ s', settled s s' nil nil ∧ t_cwd s' ≠ 0 ∧ bootfs_vnode s' = bootfs_vnode s)
     (λ _ s', settled s s' nil nil ∧ t_cwd s' = t_cwd s ∧ bootfs_vnode s' = bootfs_vnode s) s.
Proof.
  intros Hok Hp. pose proof Hok as (Hk & _). unfold vfs_chdir. wp_bind. eapply wp_mono; [by apply vfs_lookup_spec| |].
  2: { intros e s' Hw. split; [by apply went_settled|]. pose proof (wn_frame _ _ _ _ Hw) as [w ->]. done. }
  intros v s1 [Hv Hw1]. pose proof (went_owed _ _ _ _ Hk Hv Hw1) as Ho1. pose proof (wn_frame _ _ _ _ Hw1) as [w1 Hf1].
  pose proof (went_settled _ _ _ _ Hw1) as Hs1. wp_bind. apply wp_try.
  assert (Hlast : ∀ s2 (k : M S unit) Q E, settled s1 s2 nil nil →
    (∀ s3, settled s s3 nil nil → t_cwd s3 = t_cwd s2 → bootfs_vnode s3 = bootfs_vnode s2 → wp k Q E s3) → wp (below (VOP_DECREF v) ;;; k) Q E s2).
  { intros s2 k Q E Hs2 Hkk. wp_bind. apply wp_decref; [apply Hs2|rewrite (st_refs _ _ _ _ Hs2) by done; unfold nil; lia|]. intros s3 Hw3.
    pose proof (went_settled _ _ _ _ Hw3) as Hs3. assert (Hs02 : settled s s2 (one v 1) nil) by settle Hs1 Hs2.
    pose proof (wn_frame _ _ _ _ Hw3) as [w3 Hf3]. apply Hkk; [settle Hs02 Hs3|by rewrite Hf3..]. }
  eapply wp_mono; [apply vfs_setcurdir_spec; [apply Hw1|done|done]| |].
  - intros [] s2 (Hs2 & Hc2 & Hb2). apply Hlast; [done|]. intros s3 Hs3 Hc3 Hb3. apply wp_ret. split; [done|].
    split; [congruence|]. rewrite Hb3, Hb2. by rewrite Hf1.
  - intros e s2 (Hs2 & Hc2 & Hb2). apply Hlast; [done|]. intros s3 Hs3 Hc3 Hb3. apply wp_fail. split; [done|].
    rewrite Hb3, Hb2, Hc3, Hc2. by rewrite Hf1.
Qed.

(** The name of the device a file system is on. *)
Lemma getdevname_loop_spec fs l : ∀ i s,
  vfs_core s → 0 ≤ i → drop (Z.to_nat i) (table s) = l →
  wp (getdevname_loop (length l) i fs)
     (λ r s', s' = s ∧ r = (kd_name <$> (list_find (λ e, kd_fs e.2 = fs) l ≫= λ x, Some x.2.2))) (λ _ _, False) s.
Proof.
  induction l as [|[p kd] l IH]; intros i s Hk Hi Hd; [by apply wp_ret|]. cbn [length getdevname_loop].
  wp_bind. eapply (wp_getguy s i p kd l); [apply Hk|done|done|]. intros _ Hd'. cbn [list_find snd].
  destruct (Z.eqb_spec (kd_fs kd) fs) as [He|He]; [rewrite decide_True by done; by apply wp_ret|]. rewrite decide_False by done.
  eapply wp_mono; [apply (IH (i + 1) s); [done|lia|done]| |done]. intros r s' [-> ->]. split; [done|].
  destruct (list_find _ l) as [[j [q kd']]|]; done.
Qed.
Lemma vfs_getdevname_spec s fs :
  vfs_ok s → fs ≠ 0 →
  wp (vfs_getdevname fs)
     (λ r s', s' = s ∧ r = (kd_name <$> (list_find (λ e, kd_fs e.2 = fs) (table s) ≫= λ x, Some x.2.2))) (λ _ _, False) s.
Proof.
  intros (Hk & Hl & _) Hf. unfold vfs_getdevname. wp_bind. apply wp_kassert; [by apply negb_true_iff, Z.eqb_neq|].
  assert (Hk0 : vfs_core (set_devlock true s)) by by apply (core_locks s true (bootfs_lock s)).
  apply wp_devs; [done|]. wp_bind. apply wp_getnum; [apply Hk0|].
  eapply wp_mono; [apply (getdevname_loop_spec fs (table s) 0 (set_devlock true s)); done| |done].
  intros r s' [-> ->]. split; [|done]. unfold set_devlock. simpl. rewrite <- Hl. by destruct s.
Qed.
(** Every mounted file system has a name: its volume's, or its device's. *)
Definition named s (fs : Z) : Prop := fvolname (vf_w s) fs ≠ None ∨ ∃ p kd, (p, kd) ∈ table s ∧ kd_fs kd = fs.

Lemma vfs_getcwd_spec s u :
  vfs_ok s → (t_cwd s ≠ 0 → named s (vn_fs_of (t_cwd s) (vf_w s))) →
  wp (vfs_getcwd u) (λ _ s', went s s' nil nil ∧ t_cwd s ≠ 0) (λ e s', went s s' nil nil) s.
Proof.
  intros Hok Hnamed. pose proof Hok as (Hk & _). unfold vfs_getcwd. wp_bind. eapply wp_mono; [by apply vfs_getcurdir_spec| |].
  2: { intros e s' (_ & _ & ->). by apply went_refl. }
  intros v s1 (-> & Hc & Hw1). specialize (Hnamed Hc). pose proof (wn_core _ _ _ _ Hw1) as Hk1. pose proof (wn_frame _ _ _ _ Hw1) as [w1 Hf1].
  assert (Hfs : vn_fs_of (t_cwd s) (vf_w s1) = vn_fs_of (t_cwd s) (vf_w s)) by (apply (wn_fs _ _ _ _ Hw1); [done|apply cwd_held]).
  pose proof (vk_cwd _ Hk Hc) as Hne. wp_bind. apply wp_gets. rewrite Hfs. set (fs := vn_fs_of (t_cwd s) (vf_w s)) in *.
  assert (Hm : fmounted (vf_w s) fs) by (apply fs_of_used; [by apply cwd_used|done]). destruct (wn_vol _ _ _ _ Hw1 fs Hm) as [Hm1 Hv1].
  wp_bind. apply wp_kassert; [by apply negb_true_iff, Z.eqb_neq|]. wp_bind. apply wp_getvolname; [done|done|]. intros s2 Hw2.
  assert (Hw02 : went s s2 (one (t_cwd s) 1) nil) by went_seq Hw1 Hw2. rewrite Hv1. wp_bind.
  assert (Hrest : ∀ name, wp (let! r := try (below (UIOMOVE u name ;;; UIOMOVE u [COLON] ;;; VOP_NAMEFILE (t_cwd s) u)) in
    below (VOP_DECREF (t_cwd s)) ;;; give r) (λ _ s', went s s' nil nil ∧ t_cwd s ≠ 0) (λ _ s', went s s' nil nil) s2).
  { intros name. eapply wp_mono; [apply (drop_after_quiet _ s s2 (t_cwd s)); [done..|]|by intros|done].
    intros Hu. apply quiet_seq; [apply uiomove_ok|]. intros w' Hr. apply quiet_seq; [apply uiomove_ok|]. intros w'' Hr'.
    apply namefile_ok. rewrite Hr', Hr. done. }
  destruct Hnamed as [Hvn|(p & kd & He & Hkf)].
  - destruct (fvolname (vf_w s) fs) as [n|]; [|done]. apply wp_ret. apply Hrest.
  - destruct (fvolname (vf_w s) fs) as [n|]; [apply wp_ret; apply Hrest|].
    eapply wp_mono; [apply (vfs_getdevname_spec s2 fs (went_ok _ _ _ _ Hok Hw02) Hne)| |done]. intros r s3 [-> ->].
    rewrite (went_table _ _ _ _ Hw02). destruct (list_find (λ e, kd_fs e.2 = fs) (table s)) as [[j [q kd']]|] eqn:Hlf; simpl; [apply Hrest|].
    apply list_find_None in Hlf. rewrite Forall_forall in Hlf. by destruct (Hlf _ He).
Qed.

(** ** The boot file system *)

Lemma change_bootfs_spec s v :
  vfs_ok s → (v ≠ 0 → 0 < owed s v) →
  wp (change_bootfs v) (λ _ s', settled s s' (λ x, - one v 1 x) nil ∧ bootfs_vnode s' = v ∧ t_cwd s' = t_cwd s) (λ _ _, False) s.
Proof.
  intros (Hk & Hl1 & Hl2) Hv. unfold change_bootfs. wp_bind. apply wp_boot; [done|].
  wp_bind. apply wp_gets. wp_bind. apply wp_modify. apply wp_ret. cbn [bootfs_vnode set_bootlock].
  pose proof (change_boot s v Hk Hv) as Hs1. set (s1 := set_bootfs v s) in *.
  replace (set_bootlock false (set_bootfs v (set_bootlock true s))) with s1 by (unfold s1, set_bootlock, set_bootfs; simpl; by rewrite Hl2).
  apply drop_old; [apply Hs1| |].
  - intros Hne. rewrite (st_refs _ _ _ _ Hs1) by done. pose proof (vk_owed _ Hk _ Hne). unfold one. rewrite decide_True by done.
    case_decide as Hd; [|lia]. subst v. specialize (Hv Hne). lia.
  - intros s2 Hs2 Hc Hb. split; [settle Hs1 Hs2|done].
Qed.
Lemma vfs_clearbootfs_spec s :
  vfs_ok s → wp vfs_clearbootfs (λ _ s', settled s s' nil nil ∧ bootfs_vnode s' = 0 ∧ t_cwd s' = t_cwd s) (λ _ _, False) s.
Proof.
  intros Hok. eapply wp_mono; [by apply (change_bootfs_spec s 0)| |done]. intros [] s' (Hs & ? & ?). split; [|done].
  pose proof (went_settled _ _ _ _ (went_refl s (proj1 Hok))) as Hs0. settle Hs0 Hs.
Qed.

(** The names it accepts have no colon; see [vfs_setbootfs_colon]. *)
Lemma strchr_none l c : str_ok l → 0 < c < 128 → c ∉ l → strchr (l ++ [0]) c = Some None.
Proof.
  intros Hl Hc Hn. apply strchr_absent; [done|]. apply Forall_forall. intros x Hx. split; [by apply (proj1 (Forall_forall _ _) Hl)|congruence].
Qed.
Lemma strchr_some l c : str_ok l → 0 < c < 128 → c ∈ l → ∃ i, 0 ≤ i < zlen l ∧ strchr (l ++ [0]) c = Some (Some i).
Proof.
  intros Hl Hc (l1 & l2 & -> & Hn)%list_elem_of_split_l. exists (zlen l1). rewrite zlen_app, zlen_cons. pose proof (zlen_nonneg l1). pose proof (zlen_nonneg l2).
  split; [lia|]. rewrite <- app_assoc. apply strchr_first; [done|]. apply Forall_app in Hl as [Hl _]. apply Forall_forall. intros x Hx.
  split; [by apply (proj1 (Forall_forall _ _) Hl)|congruence].
Qed.
Lemma ztake_str n l : str_ok l → str_ok (ztake n l).
Proof. intros Hl. by apply Forall_take. Qed.

Lemma vfs_setbootfs_spec s name :
  vfs_ok s → str_ok name → COLON ∉ ztake (NAME_MAX - 1) name →
  wp (vfs_setbootfs name)
     (λ _ s', settled s s' nil nil ∧ t_cwd s' ≠ 0 ∧ bootfs_vnode s' = t_cwd s')
     (λ _ s', settled s s' nil nil ∧ bootfs_vnode s' = bootfs_vnode s) s.
Proof.
  intros Hok Hn Hc. unfold vfs_setbootfs. rewrite (strchr_none _ COLON); [|by apply ztake_str|done|done].
  wp_bind. apply wp_ret. wp_bind.
  assert (Hp : str_ok (ztake (NAME_MAX - 1) name ++ [COLON])).
  { apply Forall_app. split; [by apply ztake_str|]. repeat constructor; done. }
  eapply wp_mono; [by apply vfs_chdir_spec| |by intros e s' (? & _ & ?)]. intros [] s1 (Hs1 & Hc1 & Hb1).
  pose proof (st_core _ _ _ _ Hs1) as Hk1. wp_bind. eapply wp_mono; [by apply vfs_getcurdir_spec| |by intros e s' (_ & ? & _)].
  intros v s2 (-> & _ & Hw2). pose proof (went_settled _ _ _ _ Hw2) as Hs2. pose proof (wn_frame _ _ _ _ Hw2) as [w2 Hf2].
  assert (Hs02 : settled s s2 (one (t_cwd s1) 1) nil) by settle Hs1 Hs2.
  eapply wp_mono; [apply (change_bootfs_spec s2 (t_cwd s1) (settled_ok _ _ _ _ Hok Hs02))| |done].
  - intros Hne. exact (went_owed _ _ _ _ Hk1 Hne Hw2).
  - intros [] s3 (Hs3 & Hb3 & Hc3). split; [settle Hs02 Hs3|]. rewrite Hc3, Hb3, Hf2. done.
Qed.
End ops.
