(* ===== verification/VfsMount.v ===== *)
(** * The virtual file system layer: devices and mounting

    The routines that change the table of devices. *)

From S2P Require Import Prelude KString Kmem KArray Vm Vfs VfsSpec VfsOps.

(** An entry with another file system. *)
Definition with_fs (fs : Z) (kd : knowndev) : knowndev := mkkd (kd_name kd) (kd_rawname kd) (kd_device kd) (kd_vnode kd) fs.
(** The table after the entry at [p] got the file system [fs]. *)
Definition put_fs (p fs : Z) (l : list (Z * knowndev)) : list (Z * knowndev) :=
  (λ e, if decide (e.1 = p) then (e.1, with_fs fs e.2) else e) <$> l.
(** The mountable device of that name. *)
Definition find_mount (l : list (Z * knowndev)) (name : str) : option (Z * knowndev) :=
  snd <$> list_find (λ e, kd_rawname e.2 ≠ None ∧ kd_name e.2 = name) l.

Lemma put_fs_fst p fs l : (put_fs p fs l).*1 = l.*1.
Proof. unfold put_fs. rewrite <- list_fmap_compose. apply list_fmap_ext. intros i [q kd] _. simpl. by case_decide. Qed.
Lemma put_fs_vnodes p fs l : (λ e, kd_vnode e.2) <$> put_fs p fs l = (λ e, kd_vnode e.2) <$> l.
Proof. unfold put_fs. rewrite <- list_fmap_compose. apply list_fmap_ext. intros i [q kd] _. simpl. by case_decide. Qed.
Lemma elem_of_put_fs p fs l q kd : (q, kd) ∈ put_fs p fs l ↔
  ∃ kd0, (q, kd0) ∈ l ∧ kd = if decide (q = p) then with_fs fs kd0 else kd0.
Proof.
  unfold put_fs. rewrite list_elem_of_fmap. split.
  - intros ([q0 kd0] & He & Hin). simpl in He. destruct (decide (q0 = p)); simplify_eq; exists kd0; (split; [done|]); by case_decide.
  - intros (kd0 & Hin & ->). exists (q, kd0). split; [|done]. simpl. by case_decide.
Qed.
Lemma put_fs_put p fs fs' l : put_fs p fs (put_fs p fs' l) = put_fs p fs l.
Proof. unfold put_fs. rewrite <- list_fmap_compose. apply list_fmap_ext. intros i [q kd] _. simpl. destruct (decide (q = p)); simpl; by case_decide. Qed.
Lemma nodup_fst (l : list (Z * knowndev)) p kd kd' : NoDup l.*1 → (p, kd) ∈ l → (p, kd') ∈ l → kd = kd'.
Proof.
  intros Hnd [i Hi]%list_elem_of_lookup [j Hj]%list_elem_of_lookup.
  assert (i = j) as ->; [|congruence]. eapply (NoDup_lookup _ _ _ p Hnd); by rewrite list_lookup_fmap, ?Hi, ?Hj.
Qed.
Lemma put_fs_id p kd l : NoDup l.*1 → (p, kd) ∈ l → put_fs p (kd_fs kd) l = l.
Proof.
  intros Hnd Hin. unfold put_fs. rewrite <- (list_fmap_id l) at 2. apply list_fmap_ext. intros i [q kd'] Hi. simpl. case_decide as Hd; [|done].
  subst q. assert (kd' = kd) as -> by (eapply nodup_fst; [exact Hnd|by eapply list_elem_of_lookup_2|done]). by destruct kd.
Qed.

Section mount.
Context {H W : Type} `{!Kmem H, !KmemOk H, !Vref W, !Files W, !FilesOk W}.
Notation S := (vfs H W).
Implicit Types (s : S) (kd : knowndev).

Definition put_kd (p : Z) kd s : S := set_kds (<[p := kd]> (vf_kd s)) s.
Lemma table_put s p kd fs : vf_kd s !! p = Some kd → table (put_kd p (with_fs fs kd) s) = put_fs p fs (table s).
Proof.
  intros Hp. unfold table. simpl. induction (arr_contents (vf_mem s).2) as [|o l IH]; [done|]. simpl.
  assert (entry_of (put_kd p (with_fs fs kd) s) o = (λ e, if decide (e.1 = p) then (e.1, with_fs fs e.2) else e) <$> entry_of s o) as ->.
  { destruct o as [q|]; [|done]. unfold entry_of. simpl. destruct (decide (q = p)) as [->|Hne].
    - rewrite lookup_insert_eq, Hp. simpl. by rewrite decide_True.
    - rewrite lookup_insert_ne by done. destruct (vf_kd s !! q); simpl; [by rewrite decide_False|done]. }
  destruct (entry_of s o) as [e|]; simpl; [|exact IH]. f_equal. exact IH.
Qed.

(** A file system put on an entry, or taken off, once what is below is ready. *)
Lemma table_ok_put s p kd fs w :
  table_ok s → (p, kd) ∈ table s → (fs ≠ 0 → ∀ q kd', (q, kd') ∈ table s → kd_fs kd' ≠ fs) →
  table_ok (put_kd p (with_fs fs kd) (mkvfs (vf_mem s) (vf_kd s) (knowndevs_lock s) (bootfs_vnode s) (bootfs_lock s) (t_cwd s) w)).
Proof.
  intros Ht He Hnew. pose proof (table_kd s p kd Ht He) as Hp. set (s' := put_kd _ _ _).
  assert (Htab : table s' = put_fs p fs (table s)) by (unfold s'; by rewrite table_put).
  destruct Ht as [Hmem Hnum Hslots Hlive Hnames Hptrs Hfs]. split; [done|done|..].
  - eapply Forall_impl; [exact Hslots|]. intros o [[q kd'] Ho]. unfold entry_of in *. destruct o as [q'|]; [|done]. simpl in *.
    destruct (decide (q' = p)) as [->|]; [by rewrite lookup_insert_eq|]. rewrite lookup_insert_ne by done. by rewrite Ho.
  - rewrite Htab. intros q kd' (kd0 & Hin & _)%elem_of_put_fs. by eapply Hlive.
  - rewrite Htab. intros q kd' (kd0 & Hin & ->)%elem_of_put_fs. destruct (Hnames q kd0 Hin). by case_decide.
  - by rewrite Htab, put_fs_fst.
  - rewrite Htab. intros q kd1 q' kd2 (k1 & H1 & ->)%elem_of_put_fs (k2 & H2 & ->)%elem_of_put_fs. simpl.
    case_decide as D1; case_decide as D2; subst; simpl; try done.
    + intros Hne Heq. by destruct (Hnew Hne q' k2 H2).
    + intros Hne Heq. rewrite Heq in Hnew. exfalso. by eapply (Hnew Hne q k1).
    + by eapply Hfs.
Qed.

(** Everything but the table as it was. *)
Record remounted s s' (l : list (Z * knowndev)) : Prop := {
  rm_core : vfs_core s';
  rm_refs : ∀ v, owed s' v = owed s v;
  rm_opens : ∀ v, fopens (vf_w s') v = fopens (vf_w s) v;
  rm_rest : vf_mem s' = vf_mem s ∧ knowndevs_lock s' = knowndevs_lock s ∧ bootfs_vnode s' = bootfs_vnode s ∧
            bootfs_lock s' = bootfs_lock s ∧ t_cwd s' = t_cwd s;
  rm_table : table s' = l;
}.
Lemma remounted_devs s s' l : knowndevs_lock s = false → remounted (set_devlock true s) s' l → remounted s (set_devlock false s') l.
Proof. intros Hl [Hk R O (? & ? & ? & ? & ?) T]. split; [exact (core_locks _ false (bootfs_lock s') Hk)|done|done|done|done]. Qed.
Lemma went_remounted s s' : went s s' nil nil → remounted s s' (table s).
Proof.
  intros Hw. pose proof (went_table _ _ _ _ Hw). destruct Hw as [Hk R O _ _ [w ->]].
  split; [done|intros v; rewrite R; unfold nil; lia|intros v; rewrite O; unfold nil; lia|done|done].
Qed.

Lemma remounted_trans s s1 s2 l l' : remounted s s1 l → remounted s1 s2 l' → remounted s s2 l'.
Proof.
  intros [_ R1 O1 (M1 & L1 & B1 & BL1 & C1) T1] [K3 R3 O3 (M3 & L3 & B3 & BL3 & C3) T3].
  split; [done|intros v; by rewrite R3, R1|intros v; by rewrite O3, O1|split_and!; congruence|done].
Qed.
Lemma remounted_went s s1 s2 l : remounted s s1 l → went s1 s2 nil nil → remounted s s2 l.
Proof. intros H1 H2%went_remounted. rewrite <- (rm_table _ _ _ H1). by eapply remounted_trans. Qed.

(** The common step of mounting and unmounting. *)
Lemma remount s p kd fs w r :
  vfs_core s → (p, kd) ∈ table s → kd_rawname kd ≠ None →
  moved frefs fopens r fvolname vn_fs_of (vf_w s) w nil nil →
  (∀ q kd', (q, kd') ∈ table s → q ≠ p → kd_fs kd' ≠ 0 → fmounted w (kd_fs kd')) →
  (fs ≠ 0 → fmounted w fs ∧ ∀ q kd', (q, kd') ∈ table s → kd_fs kd' ≠ fs) →
  remounted s (put_kd p (with_fs fs kd) (mkvfs (vf_mem s) (vf_kd s) (knowndevs_lock s) (bootfs_vnode s) (bootfs_lock s) (t_cwd s) w))
    (put_fs p fs (table s)).
Proof.
  intros Hk He Hraw [R O F _ _] Hother Hnew. pose proof Hk as [Ht Hkd Ho Hc]. pose proof (table_kd s p kd Ht He) as Hp. set (s' := put_kd _ _ _).
  assert (Htab : table s' = put_fs p fs (table s)) by (unfold s'; by rewrite table_put).
  assert (Href : ∀ v, owed s' v = owed s v).
  { intros v. unfold owed, held. rewrite Htab, put_fs_vnodes. simpl. rewrite R. unfold nil. lia. }
  split; [|done|intros v; simpl; rewrite O; unfold nil; lia|done|done]. split.
  - apply table_ok_put; [done|done|]. intros Hne. by apply Hnew.
  - rewrite Htab. intros q kd' (kd0 & Hin & ->)%elem_of_put_fs. destruct (Hkd q kd0 Hin) as [H1 H2 H3 H4]. case_decide as Hd.
    + subst q. assert (kd0 = kd) as -> by (eapply nodup_fst; [apply Ht|done|done]). split; simpl; [done|intros Hx; by destruct (Hnew Hx)|naive_solver|done].
    + split; [done|by eapply Hother|done|done].
  - intros v Hv. rewrite Href. by apply Ho.
  - simpl. intros Hne. rewrite F; [by apply Hc|by apply cwd_used|]. rewrite R. unfold nil. pose proof (cwd_used s Hk Hne). lia.
Qed.

(** ** Finding a mountable device *)

Lemma findmount_loop_spec name l : str_ok name → ∀ i s,
  vfs_core s → 0 ≤ i → drop (Z.to_nat i) (table s) = l →
  wp (findmount_loop (length l) i name)
     (λ p s', s' = s ∧ ∃ kd, find_mount l name = Some (p, kd) ∧ (p, kd) ∈ table s)
     (λ e s', s' = s ∧ e = ENODEV ∧ find_mount l name = None) s.
Proof.
  intros Hn. induction l as [|[p kd] l IH]; intros i s Hk Hi Hd; [by apply wp_fail|]. cbn [length findmount_loop].
  wp_bind. eapply (wp_getguy s i p kd l); [apply Hk|done|done|]. intros He Hd'. unfold find_mount. cbn [list_find snd].
  assert (Hnext : ¬ (kd_rawname kd ≠ None ∧ kd_name kd = name) → wp (findmount_loop (length l) (i + 1) name)
    (λ p s', s' = s ∧ ∃ kd', snd <$> (prod_map Datatypes.S id <$> list_find (λ e, kd_rawname e.2 ≠ None ∧ kd_name e.2 = name) l) = Some (p, kd') ∧ (p, kd') ∈ table s)
    (λ e s', s' = s ∧ e = ENODEV ∧ snd <$> (prod_map Datatypes.S id <$> list_find (λ e, kd_rawname e.2 ≠ None ∧ kd_name e.2 = name) l) = None) s).
  { intros _. eapply wp_mono; [apply (IH (i + 1) s); [done|lia|done]|..]; unfold find_mount.
    - intros q s' [-> (kd' & Hf & ?)]. split; [done|]. exists kd'. split; [|done]. destruct (list_find _ l) as [[j e]|]; [|done]. done.
    - intros e s' (-> & -> & Hf). split; [done|]. split; [done|]. by destruct (list_find _ l). }
  destruct (tk_names _ (vk_table _ Hk) _ _ He) as [Hn1 _]. case_bool_decide as Hraw.
  - rewrite decide_False by tauto. apply Hnext. tauto.
  - rewrite streq_spec by done. case_bool_decide as Heq.
    + rewrite decide_True by done. apply wp_ret. split; [done|]. by exists kd.
    + rewrite decide_False by naive_solver. apply Hnext. naive_solver.
Qed.
Lemma findmount_spec s name :
  vfs_core s → knowndevs_lock s = true → str_ok name →
  wp (findmount name) (λ p s', s' = s ∧ ∃ kd, find_mount (table s) name = Some (p, kd) ∧ (p, kd) ∈ table s)
     (λ e s', s' = s ∧ e = ENODEV ∧ find_mount (table s) name = None) s.
Proof.
  intros Hk Hl Hn. unfold findmount, lock_do_i_hold_devs. wp_bind. wp_bind. apply wp_gets. apply wp_kassert; [done|].
  wp_bind. apply wp_getnum; [apply Hk|]. by apply findmount_loop_spec.
Qed.
Lemma find_mount_raw l name p kd : find_mount l name = Some (p, kd) → kd_rawname kd ≠ None ∧ kd_name kd = name.
Proof.
  unfold find_mount. destruct (list_find _ l) as [[j e]|] eqn:Hf; [|done]. intros [= ->]. apply list_find_Some in Hf as (_ & H1 & _). done.
Qed.
Lemma wp_kd_of s p kd Q E : vf_kd s !! p = Some kd → Q kd s → wp (kd_of p) Q E s.
Proof. intros Hp HQ. unfold wp, kd_of. by rewrite Hp. Qed.

(** ** Mounting *)

(** What a mount routine must do: a new file system, or nothing. *)
Definition mounts (c : Z → M W Z) : Prop := ∀ w d,
  wp (c d) (λ fs w', fs ≠ 0 ∧ fmounted w' fs ∧ ¬ fmounted w fs ∧ steps w w' nil nil) (λ _ w', steps w w' nil nil) w.

Lemma vfs_mount_spec s name c :
  vfs_ok s → str_ok name → mounts c →
  wp (vfs_mount name c)
     (λ _ s', ∃ p kd fs, find_mount (table s) name = Some (p, kd) ∧ kd_fs kd = 0 ∧ fs ≠ 0 ∧ ¬ fmounted (vf_w s) fs ∧ fmounted (vf_w s') fs ∧
        remounted s s' (put_fs p fs (table s)))
     (λ e s', remounted s s' (table s) ∧
        match find_mount (table s) name with
        | None => e = ENODEV
        | Some (_, kd) => kd_fs kd ≠ 0 → e = EBUSY
        end) s.
Proof.
  intros (Hk & Hl & Hl') Hn Hc. unfold vfs_mount. apply wp_devs; [done|]. set (s0 := set_devlock true s).
  assert (Hk0 : vfs_core s0) by by apply (core_locks s true (bootfs_lock s)).
  assert (Hsame : remounted s (set_devlock false s0) (table s)).
  { apply remounted_devs; [done|]. exact (went_remounted s0 s0 (went_refl s0 Hk0)). }
  wp_bind. eapply wp_mono; [by apply findmount_spec| |]; change (table s0) with (table s).
  2: { intros e s1 (-> & -> & ->). done. }
  intros p s1 [-> (kd & Hf & He)]. rewrite Hf. destruct (find_mount_raw _ _ _ _ Hf) as [Hraw _]. pose proof (vk_kds _ Hk0 _ _ He) as [_ _ Hnd _].
  wp_bind. eapply wp_kd_of; [by apply (table_kd s0); [apply Hk0|]|].
  destruct (Z.eqb_spec (kd_fs kd) 0) as [Hfs|Hfs]; simpl; [|by apply wp_fail].
  wp_bind. apply wp_kassert; [by rewrite bool_decide_eq_false_2|]. wp_bind. apply wp_kassert; [apply negb_true_iff, Z.eqb_neq; naive_solver|].
  wp_bind. unfold below at 1. apply wp_zoom. eapply wp_mono; [apply Hc| |].
  2: { intros e w' Hst. split; [|done]. apply remounted_devs; [done|]. apply (went_remounted s0). apply steps_went; [done|done|].
    intros v Hv. unfold nil. pose proof (vk_owed _ Hk0 _ Hv). lia. }
  intros fs w' (Hfs0 & Hm & Hnm & Hst). wp_bind. apply wp_kassert; [by apply negb_true_iff, Z.eqb_neq|].
  wp_bind. unfold set_kd_fs. wp_bind. eapply wp_kd_of; [by apply (table_kd s0); [apply Hk0|]|]. apply wp_modify.
  assert (Hrm : remounted s0 (put_kd p (with_fs fs kd) (mkvfs (vf_mem s0) (vf_kd s0) (knowndevs_lock s0) (bootfs_vnode s0) (bootfs_lock s0) (t_cwd s0) w'))
    (put_fs p fs (table s))).
  { eapply (remount s0); [done|done|done|exact Hst| |].
    - intros q kd' Hin _ Hne. apply Hst. by eapply ko_fs; [eapply vk_kds|].
    - intros _. split; [done|]. intros q kd' Hin Heq. apply Hnm. rewrite <- Heq. change (vf_w s0) with (vf_w s0).
      eapply ko_fs; [by eapply vk_kds|]. congruence. }
  pose proof (rm_core _ _ _ Hrm) as Hk1. wp_bind. apply wp_getvolname; [done|done|]. intros s3 Hw3. apply wp_ret.
  exists p, kd, fs. split_and!; [done|done|done|done|by apply (wn_vol _ _ _ _ Hw3)|]. apply remounted_devs; [done|].
  exact (remounted_went _ _ _ _ Hrm Hw3).
Qed.

(** ** Unmounting *)

(** A file system that could be unmounted, and the entry without it. *)
Lemma unmounted s p kd w :
  vfs_core s → (p, kd) ∈ table s → kd_rawname kd ≠ None → kd_fs kd ≠ 0 →
  moved frefs fopens (λ w f, f ≠ kd_fs kd ∧ fmounted w f) fvolname vn_fs_of (vf_w s) w nil nil →
  remounted s (put_kd p (with_fs 0 kd) (mkvfs (vf_mem s) (vf_kd s) (knowndevs_lock s) (bootfs_vnode s) (bootfs_lock s) (t_cwd s) w))
    (put_fs p 0 (table s)).
Proof.
  intros Hk He Hraw Hfs Hst. eapply (remount s p kd 0 w); [done|done|done|exact Hst| |done].
  intros q kd' Hin Hne Hf'. apply (mv_mounted _ _ _ _ _ _ _ _ _ Hst). split; [|by eapply ko_fs; [eapply vk_kds|]].
  intros Heq. apply Hne. by eapply (tk_fs _ (vk_table _ Hk) p kd q kd').
Qed.

Lemma vfs_unmount_spec s name :
  vfs_ok s → str_ok name →
  wp (vfs_unmount name)
     (λ _ s', ∃ p kd, find_mount (table s) name = Some (p, kd) ∧ kd_fs kd ≠ 0 ∧ remounted s s' (put_fs p 0 (table s)))
     (λ e s', remounted s s' (table s) ∧
        match find_mount (table s) name with
        | None => e = ENODEV
        | Some (_, kd) => kd_fs kd = 0 → e = EINVAL
        end) s.
Proof.
  intros (Hk & Hl & Hl') Hn. unfold vfs_unmount. apply wp_devs; [done|]. set (s0 := set_devlock true s).
  assert (Hk0 : vfs_core s0) by by apply (core_locks s true (bootfs_lock s)).
  assert (Hsame : ∀ s1, went s0 s1 nil nil → remounted s (set_devlock false s1) (table s)).
  { intros s1 Hw. apply remounted_devs; [done|]. exact (went_remounted s0 s1 Hw). }
  wp_bind. eapply wp_mono; [by apply findmount_spec| |]; change (table s0) with (table s).
  2: { intros e s1 (-> & -> & ->). split; [|done]. by apply Hsame, went_refl. }
  intros p s1 [-> (kd & Hf & He)]. rewrite Hf. destruct (find_mount_raw _ _ _ _ Hf) as [Hraw _]. pose proof (vk_kds _ Hk0 _ _ He) as [_ Hm Hnd _].
  wp_bind. eapply wp_kd_of; [by apply (table_kd s0); [apply Hk0|]|].
  destruct (Z.eqb_spec (kd_fs kd) 0) as [Hfs|Hfs]; [apply wp_fail; split; [by apply Hsame, went_refl|done]|]. specialize (Hm Hfs).
  wp_bind. apply wp_kassert; [by rewrite bool_decide_eq_false_2|]. wp_bind. apply wp_kassert; [apply negb_true_iff, Z.eqb_neq; naive_solver|].
  wp_bind. apply wp_quiet; [done|by apply sync_ok| |by intros e s1 Hw; split; [apply Hsame|]]. intros [] s1 Hw1.
  pose proof (wn_core _ _ _ _ Hw1) as Hk1. pose proof (went_table _ _ _ _ Hw1) as Ht1. assert (He1 : (p, kd) ∈ table s1) by by rewrite Ht1.
  wp_bind. unfold below. apply wp_zoom. eapply wp_mono; [apply unmount_ok; by apply (wn_vol _ _ _ _ Hw1)| |].
  - intros [] w' [Hst _]. unfold set_kd_fs. wp_bind. eapply wp_kd_of; [by apply (table_kd s1); [apply Hk1|]|]. apply wp_modify.
    exists p, kd. split; [done|]. split; [done|]. apply remounted_devs; [done|].
    pose proof (unmounted s1 p kd w' Hk1 He1 Hraw Hfs Hst) as Hrm. rewrite Ht1 in Hrm.
    eapply remounted_trans; [exact (went_remounted s0 s1 Hw1)|exact Hrm].
  - intros e w' Hst. split; [|done]. apply Hsame. assert (Hw2 := steps_went s1 w' nil nil Hk1 Hst (λ v Hv, owed_nil s1 v Hk1 Hv)).
    went_seq Hw1 Hw2.
Qed.

(** ** Unmounting everything *)

(** No file system refuses to be synced or unmounted. *)
Definition never_fails : Prop := ∀ w fs, fmounted w fs →
  wp (FSOP_SYNC fs) (λ _ _, True) (λ _ _, False) w ∧ wp (FSOP_UNMOUNT fs) (λ _ _, True) (λ _ _, False) w.
Definition finished (e : Z * knowndev) : Prop := kd_rawname e.2 = None ∨ kd_fs e.2 = 0.

Lemma wp_eq {A B} (c : M B A) Q E b : wp c Q E b → wp c (λ a b', c b = Ok a b' ∧ Q a b') (λ e b', c b = Err e b' ∧ E e b') b.
Proof. unfold wp. by destruct (c b). Qed.

Lemma unmount_entry_spec s p kd :
  vfs_core s → (p, kd) ∈ table s →
  wp (unmount_entry p kd)
     (λ _ s', went s s' nil nil ∧ (never_fails → finished (p, kd)) ∨ kd_rawname kd ≠ None ∧ remounted s s' (put_fs p 0 (table s)))
     (λ _ _, False) s.
Proof.
  intros Hk He. pose proof (vk_kds _ Hk _ _ He) as [_ Hm _ _]. unfold unmount_entry, finished. case_bool_decide as Hraw; [apply wp_ret; left; split; [by apply went_refl|auto]|].
  destruct (Z.eqb_spec (kd_fs kd) 0) as [Hfs|Hfs]; [apply wp_ret; left; split; [by apply went_refl|auto]|]. specialize (Hm Hfs).
  assert (Hsync : ∀ s1, vfs_core s1 → fmounted (vf_w s1) (kd_fs kd) → wp (try (below (FSOP_SYNC (kd_fs kd))))
    (λ r s2, went s1 s2 nil nil ∧ (never_fails → failed r = false)) (λ _ _, False) s1).
  { intros s1 Hk1 Hm1. apply wp_try. unfold below. apply wp_zoom. eapply wp_mono; [apply wp_eq, sync_ok, Hm1|..].
    - intros [] w' [_ Hst]. split; [|done]. apply steps_went; [done|done|]. intros v Hv. by apply owed_nil.
    - intros e w' [Heq Hst]. split; [apply steps_went; [done|done|]; intros v Hv; by apply owed_nil|].
      intros Hnf. destruct (Hnf _ _ Hm1) as [Hs _]. unfold wp in Hs. by rewrite Heq in Hs. }
  wp_bind. eapply wp_mono; [by apply Hsync| |done]. intros r1 s1 [Hw1 Hn1]. destruct (wn_vol _ _ _ _ Hw1 _ Hm) as [Hm1 _].
  wp_bind. eapply (wp_mono _ (λ r s2, went s s2 nil nil ∧ (never_fails → failed r = false)) _ (λ _ _, False)); [| |done].
  { destruct (failed r1) eqn:Hf; [|apply wp_ret; by rewrite Hf].
    eapply wp_mono; [apply Hsync; [apply Hw1|done]| |done]. intros r2 s2 [Hw2 Hn2]. split; [went_seq Hw1 Hw2|done]. }
  intros r2 s2 [Hw2 Hn2]. destruct (failed r2); [apply wp_ret; left; split; [done|]; intros Hnf; by specialize (Hn2 Hnf)|].
  pose proof (wn_core _ _ _ _ Hw2) as Hk2. destruct (wn_vol _ _ _ _ Hw2 _ Hm) as [Hm2 _].
  pose proof (went_table _ _ _ _ Hw2) as Ht2. assert (He2 : (p, kd) ∈ table s2) by by rewrite Ht2.
  wp_bind. apply wp_try. unfold below. apply wp_zoom. eapply wp_mono; [apply wp_eq, unmount_ok, Hm2|..].
  - intros [] w' (_ & Hst & _). simpl. unfold set_kd_fs. wp_bind. eapply wp_kd_of; [by apply (table_kd s2); [apply Hk2|]|]. apply wp_modify.
    right. split; [done|]. pose proof (unmounted s2 p kd w' Hk2 He2 Hraw Hfs Hst) as Hrm. rewrite Ht2 in Hrm.
    eapply remounted_trans; [exact (went_remounted s s2 Hw2)|exact Hrm].
  - intros e w' [Heq Hst]. simpl. apply wp_ret. left. split.
    + assert (Hw3 := steps_went s2 w' nil nil Hk2 Hst (λ v Hv, owed_nil s2 v Hk2 Hv)). went_seq Hw2 Hw3.
    + intros Hnf. destruct (Hnf _ _ Hm2) as [_ Hu]. unfold wp in Hu. by rewrite Heq in Hu.
Qed.

(** Some entries lost their file systems. *)
Definition thinned (l l' : list (Z * knowndev)) : Prop :=
  Forall2 (λ e e', e' = e ∨ kd_rawname e.2 ≠ None ∧ e' = (e.1, with_fs 0 e.2)) l l'.

Lemma put_fs_at p fs kd l1 l2 : NoDup (l1 ++ (p, kd) :: l2).*1 → put_fs p fs (l1 ++ (p, kd) :: l2) = l1 ++ (p, with_fs fs kd) :: l2.
Proof.
  intros Hnd. rewrite fmap_app, fmap_cons in Hnd. apply NoDup_app in Hnd as (_ & H1 & Hnd). apply NoDup_cons in Hnd as [H2 _]. simpl in *.
  assert (Hid : ∀ l, p ∉ l.*1 → put_fs p fs l = l).
  { intros l Hl. unfold put_fs. rewrite <- (list_fmap_id l) at 2. apply list_fmap_ext. intros i [q k] Hi. simpl. rewrite decide_False; [done|].
    intros ->. apply Hl. apply list_elem_of_fmap. exists (p, k). split; [done|]. by eapply list_elem_of_lookup_2. }
  unfold put_fs in *. rewrite fmap_app, fmap_cons. simpl. rewrite decide_True by done. rewrite !Hid; [done|done|].
  intros Hin. apply (H1 p Hin). apply elem_of_cons. by left.
Qed.

Lemma unmountall_loop_spec l : ∀ l1 s,
  vfs_core s → table s = l1 ++ l →
  wp (unmountall_loop (length l) (Z.of_nat (length l1)))
     (λ _ s', ∃ l', remounted s s' (l1 ++ l') ∧ thinned l l' ∧ (never_fails → Forall finished l')) (λ _ _, False) s.
Proof.
  induction l as [|[p kd] l IH]; intros l1 s Hk Ht.
  { apply wp_ret. exists []. split; [|split; [constructor|intros _; constructor]]. rewrite <- Ht. apply went_remounted. by apply went_refl. }
  cbn [length unmountall_loop]. wp_bind. eapply (wp_getguy s _ p kd l); [apply Hk|lia|by rewrite Ht, Nat2Z.id, drop_app_length|]. intros He _.
  wp_bind. eapply wp_mono; [by apply unmount_entry_spec| |done].
  replace (Z.of_nat (length l1) + 1) with (Z.of_nat (length (l1 ++ [(p, kd)]))) by (rewrite length_app; simpl; lia).
  intros [] s1 [[Hw Hf]|[Hraw Hrm]].
  - pose proof (went_remounted _ _ Hw) as Hrm. eapply wp_mono; [apply (IH (l1 ++ [(p, kd)]) s1); [apply Hw|by rewrite (went_table _ _ _ _ Hw), Ht, <- app_assoc]| |done].
    intros [] s2 (l' & Hrm2 & Hth & Hall). exists ((p, kd) :: l'). rewrite <- app_assoc in Hrm2. split; [by eapply remounted_trans|].
    split; [by constructor; [left|]|]. intros Hnf. constructor; [by apply Hf|by apply Hall].
  - rewrite Ht, put_fs_at in Hrm by (rewrite <- Ht; apply Hk).
    replace (length (l1 ++ [(p, kd)])) with (length (l1 ++ [(p, with_fs 0 kd)])) by by rewrite !length_app.
    eapply wp_mono; [apply (IH (l1 ++ [(p, with_fs 0 kd)]) s1); [apply Hrm|by rewrite (rm_table _ _ _ Hrm), <- app_assoc]| |done].
    intros [] s2 (l' & Hrm2 & Hth & Hall). exists ((p, with_fs 0 kd) :: l'). rewrite <- app_assoc in Hrm2. split; [by eapply remounted_trans|].
    split; [by constructor; [right|]|]. intros Hnf. constructor; [by right|by apply Hall].
Qed.
Lemma vfs_unmountall_spec s :
  vfs_ok s →
  wp vfs_unmountall (λ _ s', ∃ l', remounted s s' l' ∧ thinned (table s) l' ∧ (never_fails → Forall finished l')) (λ _ _, False) s.
Proof.
  intros (Hk & Hl & _). assert (Hk0 : vfs_core (set_devlock true s)) by by apply (core_locks s true (bootfs_lock s)).
  unfold vfs_unmountall. apply wp_devs; [done|]. wp_bind. apply wp_getnum; [apply Hk0|].
  eapply wp_mono; [apply (unmountall_loop_spec (table s) [] (set_devlock true s) Hk0 eq_refl)| |done].
  intros [] s' (l' & Hrm & ?). exists l'. split; [by apply remounted_devs|done].
Qed.

(** ** Syncing *)

Lemma sync_loop_spec l : ∀ i s,
  vfs_core s → 0 ≤ i → drop (Z.to_nat i) (table s) = l → wp (sync_loop (length l) i) (λ _ s', went s s' nil nil) (λ _ _, False) s.
Proof.
  induction l as [|[p kd] l IH]; intros i s Hk Hi Hd; [apply wp_ret; by apply went_refl|]. cbn [length sync_loop].
  wp_bind. eapply (wp_getguy s i p kd l); [apply Hk|done|done|]. intros He Hd'. wp_bind.
  eapply (wp_mono _ (λ _ s', went s s' nil nil) _ (λ _ _, False)); [| |done].
  - apply wp_when; [|intros _; by apply went_refl]. intros Hf%negb_true_iff%Z.eqb_neq. wp_bind. apply wp_try.
    apply wp_quiet; [done| |by intros; apply wp_ret|by intros; apply wp_ret]. apply sync_ok. by eapply ko_fs; [eapply vk_kds|].
  - intros [] s1 Hw1. eapply wp_mono; [apply (IH (i + 1) s1); [apply Hw1|lia|by rewrite (went_table _ _ _ _ Hw1)]| |done].
    intros [] s2 Hw2. went_seq Hw1 Hw2.
Qed.
Lemma vfs_sync_spec s : vfs_ok s → wp vfs_sync (λ _ s', went s s' nil nil) (λ _ _, False) s.
Proof.
  intros (Hk & Hl & _). assert (Hk0 : vfs_core (set_devlock true s)) by by apply (core_locks s true (bootfs_lock s)).
  unfold vfs_sync. apply wp_devs; [done|]. wp_bind. apply wp_getnum; [apply Hk0|].
  eapply wp_mono; [apply (sync_loop_spec (table s) 0 (set_devlock true s)); done| |done]. intros [] s' Hw. by apply went_devs.
Qed.
End mount.
