(* ===== verification/VfsAdd.v ===== *)
(** * The virtual file system layer: new devices

    [vfs_adddev] and [vfs_addfs]: memory for the entry, the check of the
    names, and the table. *)

From S2P Require Import Prelude KString Kmem KArray Vm Vfs VfsSpec VfsOps VfsMount.

(** ** Names *)

(** The names of an entry: of the device, of the raw device, of the volume. *)
Definition names (volname : Z → option str) (kd : knowndev) : list str :=
  kd_name kd :: option_list (kd_rawname kd) ++ (if decide (kd_fs kd ≠ 0) then option_list (volname (kd_fs kd)) else []).
Definition taken (volname : Z → option str) (l : list (Z * knowndev)) (ns : list str) : Prop :=
  Exists (λ e, Exists (λ n, n ∈ ns) (names volname e.2)) l.
#[global] Instance taken_dec f l ns : Decision (taken f l ns).
Proof. unfold taken. apply _. Defined.
Definition opts (n1 n2 n3 : option str) : list str := option_list n1 ++ option_list n2 ++ option_list n3.

Lemma samestring3_spec a n1 n2 n3 :
  (∀ x, a = Some x → str_ok x) → Forall str_ok (opts n1 n2 n3) →
  samestring3 a n1 n2 n3 = bool_decide (Exists (λ n, n ∈ opts n1 n2 n3) (option_list a)).
Proof.
  intros Ha Hn. unfold opts in *. rewrite !Forall_app in Hn. destruct Hn as (H1 & H2 & H3).
  assert (Hs : ∀ n, Forall str_ok (option_list n) → samestring a n = bool_decide (a ≠ None ∧ a = n)).
  { intros n Hn. destruct a as [a|], n as [n|]; cbn [samestring].
    - rewrite streq_spec; [|by apply Ha|by apply Forall_inv in Hn]. apply bool_decide_ext. naive_solver.
    - by rewrite bool_decide_eq_false_2 by naive_solver.
    - by rewrite bool_decide_eq_false_2 by naive_solver.
    - by rewrite bool_decide_eq_false_2 by naive_solver. }
  unfold samestring3. rewrite !Hs by done. rewrite <- !bool_decide_or. apply bool_decide_ext.
  destruct a as [a|]; simpl.
  - rewrite Exists_cons, Exists_nil, !elem_of_app. destruct n1, n2, n3; simpl; rewrite ?list_elem_of_singleton, ?elem_of_nil; naive_solver.
  - rewrite Exists_nil. naive_solver.
Qed.

Section add.
Context {H W : Type} `{!Kmem H, !KmemOk H, !Vref W, !Files W, !FilesOk W}.
Notation S := (vfs H W).
Implicit Types (s : S) (kd : knowndev).

(** The mounted volumes are still there, with their names. *)
Definition vols s s' : Prop := ∀ fs, fmounted (vf_w s) fs → fmounted (vf_w s') fs ∧ fvolname (vf_w s') fs = fvolname (vf_w s) fs.
Lemma vols_trans s s1 s2 : vols s s1 → vols s1 s2 → vols s s2.
Proof. intros H1 H2 fs Hf. destruct (H1 fs Hf) as [Hf1 <-]. by apply H2. Qed.

Lemma taken_vols s s' l ns : vfs_core s → vols s s' → (∀ e, e ∈ l → e ∈ table s) →
  taken (fvolname (vf_w s')) l ns ↔ taken (fvolname (vf_w s)) l ns.
Proof.
  intros Hk Hv Hl.
  assert (Hn : ∀ p kd, (p, kd) ∈ l → names (fvolname (vf_w s')) kd = names (fvolname (vf_w s)) kd).
  2: { unfold taken. rewrite !Exists_exists. split; intros ([p kd] & Hin & Hx); exists (p, kd); (split; [done|]); simpl in *; by rewrite (Hn p kd Hin) in *. }
  intros p kd Hin. unfold names. case_decide as Hd; [|done]. destruct (Hv (kd_fs kd)) as [_ ->]; [|done].
  eapply ko_fs; [|done]. by eapply vk_kds; [|apply Hl].
Qed.

Lemma badnames_loop_spec n1 n2 n3 l : Forall str_ok (opts n1 n2 n3) → ∀ i s,
  vfs_core s → 0 ≤ i → drop (Z.to_nat i) (table s) = l →
  wp (badnames_loop (length l) i n1 n2 n3)
     (λ b s', went s s' nil nil ∧ b = bool_decide (taken (fvolname (vf_w s)) l (opts n1 n2 n3))) (λ _ _, False) s.
Proof.
  intros Hn. induction l as [|[p kd] l IH]; intros i s Hk Hi Hd.
  { apply wp_ret. split; [by apply went_refl|]. by rewrite bool_decide_eq_false_2 by by intros ?%Exists_nil. }
  cbn [length badnames_loop]. wp_bind. eapply (wp_getguy s i p kd l); [apply Hk|done|done|]. intros He Hd'.
  destruct (tk_names _ (vk_table _ Hk) _ _ He) as [Hn1 Hn2]. pose proof (vk_kds _ Hk _ _ He) as [_ Hm _ _].
  set (P (a : option str) := Exists (λ n, n ∈ opts n1 n2 n3) (option_list a)).
  set (vol := if decide (kd_fs kd ≠ 0) then fvolname (vf_w s) (kd_fs kd) else None).
  assert (Htk : taken (fvolname (vf_w s)) ((p, kd) :: l) (opts n1 n2 n3) ↔
    (P vol ∨ P (kd_rawname kd) ∨ P (Some (kd_name kd))) ∨ taken (fvolname (vf_w s)) l (opts n1 n2 n3)).
  { unfold taken. rewrite Exists_cons. simpl. unfold names, P, vol. rewrite Exists_cons, Exists_app. simpl. rewrite (Exists_cons _ (kd_name kd)), Exists_nil.
    case_decide; simpl; rewrite ?Exists_nil; tauto. }
  wp_bind. eapply (wp_mono _ (λ b s1, went s s1 nil nil ∧ b = bool_decide (P vol)) _ (λ _ _, False)); [| |done].
  { unfold vol. destruct (Z.eqb_spec (kd_fs kd) 0) as [Hf|Hf]; simpl.
    - apply wp_ret. split; [by apply went_refl|]. rewrite decide_False by tauto. by rewrite bool_decide_eq_false_2 by by intros ?%Exists_nil.
    - wp_bind. apply wp_getvolname; [done|by apply Hm|]. intros s1 Hw1. apply wp_ret. split; [done|]. rewrite decide_True by done.
      apply samestring3_spec; [|done]. intros x Hx. eapply volname_ok; [by apply Hm|done]. }
  intros b s1 [Hw1 ->]. destruct (bool_decide (P vol)) eqn:Hb1.
  { apply wp_ret. split; [done|]. apply bool_decide_eq_true in Hb1. rewrite bool_decide_eq_true_2; [done|]. rewrite Htk. tauto. }
  apply bool_decide_eq_false in Hb1. rewrite !samestring3_spec by (done || naive_solver). rewrite <- bool_decide_or.
  fold (P (kd_rawname kd)) (P (Some (kd_name kd))). case_bool_decide as Hb2.
  { apply wp_ret. split; [done|]. rewrite bool_decide_eq_true_2; [done|]. rewrite Htk. tauto. }
  eapply wp_mono; [apply (IH (i + 1) s1); [apply Hw1|lia|by rewrite (went_table _ _ _ _ Hw1)]| |done].
  intros b s2 [Hw2 ->]. split; [went_seq Hw1 Hw2|]. apply bool_decide_ext.
  assert (Hin : ∀ e, e ∈ l → e ∈ table s).
  { intros e. rewrite <- Hd'. intros [j Hj]%list_elem_of_lookup. rewrite lookup_drop in Hj. by eapply list_elem_of_lookup_2. }
  rewrite Htk, (taken_vols s s1 l _ Hk (wn_vol _ _ _ _ Hw1) Hin). tauto.
Qed.

(** ** Memory *)

(** The blocks of the table, and the blocks [ps] of the caller. *)
Definition protected s (q : Z) : Prop :=
  q = arr_self (vf_mem s).2 ∨ (q = arr_v (vf_mem s).2 ∧ q ≠ 0) ∨ ∃ kd, (q, kd) ∈ table s.
Record mine s (ps : list Z) : Prop := {
  mn_nodup : NoDup ps;
  mn_live : ∀ p, p ∈ ps → p ≠ 0 ∧ is_Some (klive (vf_mem s).1 !! p) ∧ ¬ protected s p;
}.
Definition set_heap_of (h : H) s : S :=
  mkvfs (h, (vf_mem s).2) (vf_kd s) (knowndevs_lock s) (bootfs_vnode s) (bootfs_lock s) (t_cwd s) (vf_w s).

Lemma protected_live s q : table_ok s → protected s q → is_Some (klive (vf_mem s).1 !! q).
Proof.
  intros Ht [->|[[-> Hv]|[kd Hin]]].
  - apply (tk_mem _ Ht).
  - destruct (tk_mem _ Ht) as (_ & _ & _ & _ & Ho). destruct (Ho Hv) as (_ & u & ? & _). by exists u.
  - destruct (tk_live _ Ht q kd Hin) as [u Hu]. exists u. unfold arr_frame in Hu. apply lookup_delete_Some in Hu as [_ Hu]. by apply lookup_delete_Some in Hu as [_ Hu].
Qed.
Lemma core_heap s h :
  vfs_core s → kinv h → (∀ q u, protected s q → klive (vf_mem s).1 !! q = Some u → klive h !! q = Some u) → vfs_core (set_heap_of h s).
Proof.
  intros [Ht Hkd Ho Hc] Hi Hp. split; [|done|done|done]. destruct Ht as [(Hk & Hwf & Hself & Hsl & Hv) Hnum Hslots Hlive Hnames Hptrs Hfs].
  split; [|done|done| |done|done|done].
  - split; [done|]. split; [done|]. split; [done|]. split.
    + destruct Hsl as [u Hu]. exists u. apply Hp; [by left|done].
    + intros Hne. destruct (Hv Hne) as (? & u & Hu & ?). split; [done|]. exists u. split; [|done]. apply Hp; [by right; left|done].
  - intros q kd Hin. destruct (Hlive q kd Hin) as [u Hu]. exists u. unfold arr_frame in *. simpl in *.
    apply lookup_delete_Some in Hu as [? Hu]. apply lookup_delete_Some in Hu as [? Hu]. rewrite !lookup_delete_ne by done.
    apply Hp; [right; right; by exists kd|done].
Qed.
Lemma vmalloc_spec s ps sz Q E :
  vfs_core s → mine s ps → 0 ≤ sz ≤ 4294963200 →
  (∀ p h, vfs_core (set_heap_of h s) → (p = 0 ∧ mine (set_heap_of h s) ps ∨ p ≠ 0 ∧ mine (set_heap_of h s) (p :: ps)) → Q p (set_heap_of h s)) →
  wp (vmalloc sz) Q E s.
Proof.
  intros Hk [Hnd Hl] Hsz HQ. unfold vmalloc, on_table, on_heap. apply wp_zoom, wp_zoom.
  eapply wp_mono; [apply kmalloc_spec; [apply (tk_mem _ (vk_table _ Hk))|done]| |done].
  intros p h [Hi Hcase]. change (Q p (set_heap_of h s)).
  assert (Hsub : ∀ q u, klive (vf_mem s).1 !! q = Some u → klive h !! q = Some u).
  { intros q u Hq. destruct Hcase as [[_ ->]|(u' & _ & Hn & _ & ->)]; [done|]. rewrite lookup_insert_ne; [done|]. intros ->. congruence. }
  assert (Hmine : mine (set_heap_of h s) ps).
  { split; [done|]. intros q Hq. destruct (Hl q Hq) as (? & [u Hu] & ?). split; [done|]. split; [|done]. exists u. by apply Hsub. }
  apply HQ; [apply core_heap; [done|done|by intros; apply Hsub]|].
  destruct Hcase as [[-> _]|(u & Hp & Hn & _ & Hh)]; [by left|right]. split; [done|]. destruct Hmine as [_ Hl']. split.
  - constructor; [|done]. intros Hin. destruct (Hl p Hin) as (_ & [? ?] & _). congruence.
  - intros q [->|Hq]%elem_of_cons; [|by apply Hl']. split; [done|]. split; [simpl; rewrite Hh, lookup_insert_eq; eauto|].
    intros Hpr. destruct (protected_live s p (vk_table _ Hk) Hpr) as [? ?]. congruence.
Qed.
Lemma vfree_spec s p ps Q E :
  vfs_core s → mine s (p :: ps) → (∀ h, vfs_core (set_heap_of h s) → mine (set_heap_of h s) ps → Q tt (set_heap_of h s)) → wp (vfree p) Q E s.
Proof.
  intros Hk [Hnd Hl] HQ. destruct (Hl p) as (Hp & Hlive & Hpr); [by apply elem_of_cons; left|]. apply NoDup_cons in Hnd as [Hnin Hnd].
  unfold vfree, on_table, on_heap. apply wp_zoom, wp_zoom. eapply wp_mono; [apply kfree_spec; [apply (tk_mem _ (vk_table _ Hk))|done]| |done].
  intros [] h [Hi Hh]. change (Q tt (set_heap_of h s)). apply HQ.
  - apply core_heap; [done|done|]. intros q u Hq Hu. rewrite Hh, lookup_delete_ne; [done|]. by intros ->.
  - split; [done|]. intros q Hq. destruct (Hl q) as (? & Hlq & ?); [by apply elem_of_cons; right|]. split; [done|]. split; [|done].
    simpl. rewrite Hh, lookup_delete_ne; [done|]. by intros ->.
Qed.
(** Nothing of this is touched below. *)
Lemma mine_went s s' r o ps : went s s' r o → mine s ps → mine s' ps.
Proof. intros [_ _ _ _ _ [w ->]] [? ?]. by split. Qed.

Lemma mine_perm s ps ps' : ps ≡ₚ ps' → mine s ps → mine s ps'.
Proof. intros Hp [Hnd Hl]. split; [by rewrite <- Hp|]. intros p Hin. apply Hl. by rewrite Hp. Qed.
Lemma heap_settled s h : vfs_core (set_heap_of h s) → settled s (set_heap_of h s) nil nil.
Proof. intros Hk. split; [done|intros v _; unfold nil; change (owed (set_heap_of h s) v) with (owed s v); lia|intros v; unfold nil; simpl; lia|done|done]. Qed.
Ltac settle H1 H2 := eapply (settled_trans _ _ _ _ _ _ _ _ _ H1 H2); [intros ?v ?Hv; unfold one, nil; repeat case_decide; subst; done || lia|wsum].

(** The blocks there are among [l]. *)
Definition blocks_of (l : list Z) : list Z := filter (λ p, p ≠ 0) l.

Lemma blocks_of_cons p l : blocks_of (p :: l) = if decide (p = 0) then blocks_of l else p :: blocks_of l.
Proof. unfold blocks_of. rewrite filter_cons. repeat case_decide; done. Qed.

Lemma puke_spec s name raw vn :
  vfs_core s → mine s (blocks_of [name; raw]) → (vn ≠ 0 → 0 < owed s vn) →
  wp (puke name raw vn 0) (λ _ _, False) (λ e s', e = ENOMEM ∧ settled s s' (λ x, - one vn 1 x) nil) s.
Proof.
  intros Hk Hm Ho. pose proof (went_settled _ _ _ _ (went_refl s Hk)) as Hs0. unfold puke.
  assert (Hfree : ∀ s1 p ps (Q : unit → S → Prop) E, settled s s1 nil nil → mine s1 (blocks_of (p :: ps)) →
    (∀ s2, settled s s2 nil nil → mine s2 (blocks_of ps) → Q tt s2) → wp (when (negb (p =? 0)) (vfree p)) Q E s1).
  { intros s1 p ps Q E Hs1 Hm1 HQ. unfold blocks_of in Hm1. rewrite filter_cons in Hm1. apply wp_when.
    - intros Hp%negb_true_iff%Z.eqb_neq. rewrite decide_True in Hm1 by done. eapply vfree_spec; [apply Hs1|done|]. intros h Hkh Hmh.
      apply HQ; [|done]. pose proof (heap_settled _ _ Hkh) as Hsh. settle Hs1 Hsh.
    - intros Hp%negb_false_iff%Z.eqb_eq. rewrite decide_False in Hm1 by tauto. by apply HQ. }
  wp_bind. apply (Hfree s name [raw]); [done|done|]. intros s1 Hs1 Hm1. wp_bind. apply (Hfree s1 raw []); [done|done|]. intros s2 Hs2 _.
  pose proof (st_core _ _ _ _ Hs2) as Hk2. wp_bind. apply wp_when.
  - intros Hv%negb_true_iff%Z.eqb_neq. assert (Ho2 : 0 < owed s2 vn) by (rewrite (st_refs _ _ _ _ Hs2) by done; unfold nil; specialize (Ho Hv); lia).
    apply (wp_below _ (λ _ _, True) False s2 (λ _, one vn (-1)) (λ _, nil)); [done| | | |done].
    + eapply wp_mono; [apply kfree_vnode_ok; by apply owed_used|by intros|by intros].
    + intros _ x Hx. apply owed_one; [done| |done]. intros ->. lia.
    + intros [] s3 Hw3 _. wp_bind. apply wp_ret. apply wp_fail. split; [done|]. pose proof (went_settled _ _ _ _ Hw3) as Hs3. settle Hs2 Hs3.
  - intros Hv%negb_false_iff%Z.eqb_eq. subst vn. wp_bind. apply wp_ret. apply wp_fail. split; [done|]. settle Hs0 Hs2.
Qed.

(** ** The entry *)

(** An entry that is not in the table yet. *)
Lemma new_kd s p kd : vfs_core s → ¬ protected s p → settled s (put_kd p kd s) nil nil.
Proof.
  intros Hk Hp. pose proof Hk as [Ht Hkd Ho Hc].
  assert (He : ∀ o, o ∈ arr_contents (vf_mem s).2 → entry_of (put_kd p kd s) o = entry_of s o).
  { intros o Hin. pose proof (tk_slots _ Ht) as Hsl. rewrite Forall_forall in Hsl. destruct (Hsl o Hin) as [e Hoe].
    unfold entry_of in *. destruct o as [q|]; [|done]. simpl in *. rewrite lookup_insert_ne; [done|]. intros <-. apply Hp. right. right.
    destruct (vf_kd s !! p) as [kd0|] eqn:Hpk; [|done]. simpl in Hoe. exists kd0. unfold table. apply list_elem_of_omap. exists (Some p).
    split; [done|]. unfold entry_of. simpl. by rewrite Hpk. }
  assert (Htab : table (put_kd p kd s) = table s).
  { unfold table. simpl. revert He. induction (arr_contents (vf_mem s).2) as [|o l IH]; intros He; [done|]. simpl.
    rewrite He by (apply elem_of_cons; by left). case_match; [f_equal|]; apply IH; intros o' Hin; apply He, elem_of_cons; by right. }
  assert (How : ∀ v, owed (put_kd p kd s) v = owed s v) by (intros v; unfold owed, held; by rewrite Htab).
  split; [|intros v _; rewrite How; unfold nil; lia|intros v; unfold nil; simpl; lia|done|done].
  split; [|by rewrite Htab|intros v Hv; rewrite How; by apply Ho|exact Hc].
  destruct Ht as [Hmem Hnum Hslots Hlive Hnames Hptrs Hfs]. split; rewrite ?Htab; try done.
  rewrite Forall_forall in *. intros o Hin. rewrite He by done. by apply Hslots.
Qed.

(** The table with one more entry; its vnode's reference is now the table's. *)
Record added s s' (e : Z * knowndev) : Prop := {
  ad_core : vfs_core s';
  ad_refs : ∀ v, v ≠ 0 → owed s' v = owed s v - one (kd_vnode e.2) 1 v;
  ad_opens : ∀ v, fopens (vf_w s') v = fopens (vf_w s) v;
  ad_rest : knowndevs_lock s' = knowndevs_lock s ∧ bootfs_lock s' = bootfs_lock s ∧ bootfs_vnode s' = bootfs_vnode s ∧ t_cwd s' = t_cwd s;
  ad_table : table s' = table s ++ [e];
  ad_vols : vols s s';
}.
Lemma contents_length (a : array Z) : array_wf a → Z.of_nat (length (arr_contents a)) = arr_num a.
Proof. intros [Hn Hs _ _]. unfold arr_contents, ztake. rewrite length_take. unfold zlen in Hs. lia. Qed.

Lemma add_entry s m p kd ps :
  vfs_core s → mine s (p :: ps) → vf_kd s !! p = Some kd → kd_ok (vf_w s) kd → 0 < owed s (kd_vnode kd) →
  str_ok (kd_name kd) → (∀ r, kd_rawname kd = Some r → str_ok r) → (kd_fs kd ≠ 0 → ∀ q kd', (q, kd') ∈ table s → kd_fs kd' ≠ kd_fs kd) →
  array_ok m → arr_num (vf_mem s).2 + 1 < 268435455 → arr_contents m.2 = arr_contents (vf_mem s).2 ++ [Some p] → arr_frame m = arr_frame (vf_mem s) →
  added s (mkvfs m (vf_kd s) (knowndevs_lock s) (bootfs_vnode s) (bootfs_lock s) (t_cwd s) (vf_w s)) (p, kd).
Proof.
  intros Hk Hm Hp Hkd Ho Hn1 Hn2 Hnew Hok Hnum Hcont Hfr. set (s' := mkvfs _ _ _ _ _ _ _). pose proof Hk as [Ht Hkds How Hc].
  assert (Htab : table s' = table s ++ [(p, kd)]).
  { unfold table. simpl. rewrite Hcont, omap_app. f_equal. simpl. unfold entry_of. simpl. by rewrite Hp. }
  assert (Href : ∀ v, owed s' v = owed s v - one (kd_vnode kd) 1 v).
  { intros v. unfold owed, held. rewrite Htab, fmap_app, occ_app. simpl. lia. }
  destruct (mn_live _ _ Hm p) as (Hp0 & Hlive & Hpr); [by apply elem_of_cons; left|].
  assert (Hel : ∀ q k, (q, k) ∈ table s' → (q, k) ∈ table s ∨ q = p ∧ k = kd).
  { intros q k. rewrite Htab. intros [?|Hin]%elem_of_app; [by left|]. apply list_elem_of_singleton in Hin. simplify_eq. by right. }
  split; [|by intros; apply Href|done|done|done|by intros fs]. split.
  - destruct Ht as [Hmem _ Hslots Htlive Hnames Hptrs Hfs]. split; [done| |..].
    + destruct Hok as (_ & Hwf & _). destruct Hmem as (_ & Hwf0 & _). pose proof (contents_length _ Hwf). pose proof (contents_length _ Hwf0).
      rewrite Hcont, length_app in H0. simpl in *. lia.
    + simpl. rewrite Hcont. apply Forall_app. split; [exact Hslots|]. constructor; [|constructor]. unfold entry_of. simpl. rewrite Hp. by eexists.
    + simpl. rewrite Hfr. intros q k [Hin|[-> ->]]%Hel; [by eapply Htlive|]. unfold arr_frame.
      rewrite lookup_delete_ne by (intros He; apply Hpr; by left). rewrite lookup_delete_ne; [done|]. intros He. apply Hpr. right. left. by split.
    + intros q k [Hin|[-> ->]]%Hel; [by eapply Hnames|done].
    + rewrite Htab, fmap_app. apply NoDup_app. split; [done|]. split; [|apply NoDup_singleton].
      intros q Hq Hq'. simpl in Hq'. apply list_elem_of_singleton in Hq'. subst q. apply list_elem_of_fmap in Hq as ([q k] & Heq & Hin). simpl in Heq. subst q.
      apply Hpr. right. right. by exists k.
    + intros q k q' k' [Hin|[-> ->]]%Hel [Hin'|[-> ->]]%Hel Hne Heq; [by eapply Hfs| | |done].
      * exfalso. rewrite <- Heq in Hne. eapply (Hnew Hne q k); [done|congruence].
      * exfalso. by eapply (Hnew Hne q' k').
  - intros q k [Hin|[-> ->]]%Hel; [by eapply Hkds|done].
  - intros v Hv. rewrite Href. unfold one. case_decide; [subst; lia|]. pose proof (How v Hv). lia.
  - exact Hc.
Qed.

(** ** Adding *)

Definition raw_name (name : str) (mountable : bool) : option str := if mountable then Some (name ++ raw_suffix) else None.
(** The names of the new entry. *)
Definition new_names s (name : str) (mountable : bool) (fs : Z) : list str :=
  opts (Some name) (raw_name name mountable) (if decide (fs ≠ 0) then fvolname (vf_w s) fs else None).
(** A device without a file system, or a file system without a device. *)
Definition addable s (mountable : bool) (dev fs : Z) : Prop :=
  dev ≠ 0 ∧ fs = 0 ∨
  dev = 0 ∧ mountable = false ∧ fs ≠ 0 ∧ fmounted (vf_w s) fs ∧ ∀ q kd, (q, kd) ∈ table s → kd_fs kd ≠ fs.

Lemma badnames_spec s n1 n2 n3 :
  vfs_core s → knowndevs_lock s = true → Forall str_ok (opts n1 n2 n3) →
  wp (badnames n1 n2 n3)
     (λ b s', went s s' nil nil ∧ b = bool_decide (taken (fvolname (vf_w s)) (table s) (opts n1 n2 n3))) (λ _ _, False) s.
Proof.
  intros Hk Hl Hn. unfold badnames, lock_do_i_hold_devs. wp_bind. wp_bind. apply wp_gets. apply wp_kassert; [done|].
  wp_bind. apply wp_getnum; [apply Hk|]. by apply badnames_loop_spec.
Qed.
Lemma added_devs s s' e : knowndevs_lock s = false → added (set_devlock true s) s' e → added s (set_devlock false s') e.
Proof. intros Hl [Hk R O (? & ? & ? & ?) T V]. split; [exact (core_locks _ false (bootfs_lock s') Hk)|done|done|done|done|exact V]. Qed.
Lemma settled_devs s s' r o : knowndevs_lock s = false → settled (set_devlock true s) s' r o → settled s (set_devlock false s') r o.
Proof. intros Hl [Hk R O [_ ?] T]. split; [exact (core_locks _ false (bootfs_lock s') Hk)|done|done|done|done]. Qed.

(** The part under the lock, the entry being filled in. *)
Lemma doadd_locked s p kd ps n1 n2 n3 :
  vfs_ok s → mine s (p :: ps) → vf_kd s !! p = Some kd → kd_ok (vf_w s) kd → 0 < owed s (kd_vnode kd) →
  str_ok (kd_name kd) → (∀ r, kd_rawname kd = Some r → str_ok r) → (kd_fs kd ≠ 0 → ∀ q kd', (q, kd') ∈ table s → kd_fs kd' ≠ kd_fs kd) →
  arr_num (vf_mem s).2 + 1 < 268435455 → Forall str_ok (opts n1 n2 n3) →
  let clash := taken (fvolname (vf_w s)) (table s) (opts n1 n2 n3) in
  wp (with_devs (let! bad := badnames n1 n2 n3 in if negb bad then on_table (array_add p) else fail EEXIST))
     (λ _ s', ¬ clash ∧ added s s' (p, kd)) (λ e s', settled s s' nil nil ∧ (e = EEXIST ∧ clash ∨ e = ENOMEM)) s.
Proof.
  intros (Hk & Hl & _) Hm Hp Hkd Ho Hn1 Hn2 Hnew Hnum Hn clash. apply wp_devs; [done|]. set (s0 := set_devlock true s).
  assert (Hk0 : vfs_core s0) by by apply (core_locks s true (bootfs_lock s)).
  wp_bind. eapply wp_mono; [by apply badnames_spec| |done]. change (fvolname (vf_w s0)) with (fvolname (vf_w s)). change (table s0) with (table s). fold clash.
  intros bad s1 [Hw1 ->]. pose proof (wn_core _ _ _ _ Hw1) as Hk1. pose proof (went_table _ _ _ _ Hw1) as Ht1. pose proof (went_settled _ _ _ _ Hw1) as Hs1.
  case_bool_decide as Hcl; simpl; [apply wp_fail; split; [by apply settled_devs|by left]|].
  pose proof (wn_frame _ _ _ _ Hw1) as [w1 Hf1]. assert (Hmem : vf_mem s1 = vf_mem s) by by rewrite Hf1.
  unfold on_table. apply wp_zoom. rewrite Hmem. eapply wp_mono; [apply array_add_spec; [apply (tk_mem _ (vk_table _ Hk))|lia]|..].
  - intros [] m (Hok & Hcont & Hfr). split; [done|]. apply added_devs; [done|].
    assert (Had : added s1 (mkvfs m (vf_kd s1) (knowndevs_lock s1) (bootfs_vnode s1) (bootfs_lock s1) (t_cwd s1) (vf_w s1)) (p, kd)).
    { eapply (add_entry s1 m p kd ps); [done| |by rewrite Hf1| | |done|done|by rewrite Ht1|done|by rewrite Hmem|by rewrite Hmem|by rewrite Hmem].
      - eapply mine_went; [exact Hw1|]. by destruct Hm.
      - destruct Hkd as [? Hkf ? ?]. split; try done. intros Hne. apply (wn_vol _ _ _ _ Hw1). by apply Hkf.
      - rewrite (wn_refs _ _ _ _ Hw1). unfold nil. change (owed s0 (kd_vnode kd)) with (owed s (kd_vnode kd)). lia. }
    destruct Had as [K R O (L1 & L2 & B & C) T V].
    split; [exact K| | |rewrite L1, L2, B, C; by rewrite Hf1|by rewrite T, Ht1|eapply vols_trans; [exact (wn_vol _ _ _ _ Hw1)|exact V]].
    + intros v Hv. rewrite R by done. rewrite (wn_refs _ _ _ _ Hw1). unfold nil. fold s0. cbn [snd]. lia.
    + intros v. rewrite O, (wn_opens _ _ _ _ Hw1). unfold nil. fold s0. lia.
  - intros e m (-> & _ & Hok & Hm2 & Hkl). split; [|by right]. apply settled_devs; [done|].
    assert (Hkh : vfs_core (set_heap_of m.1 s1)).
    { apply core_heap; [done|apply Hok|]. intros q u _. rewrite Hmem, Hkl. done. }
    pose proof (heap_settled _ _ Hkh) as Hsh. assert (Hs2 : settled s0 (set_heap_of m.1 s1) nil nil) by settle Hs1 Hsh.
    unfold set_heap_of in Hs2. rewrite Hmem, <- Hm2, <- surjective_pairing in Hs2. exact Hs2.
Qed.

(** A device vnode, with one reference. *)
Lemma wp_dev_create s d Q E :
  vfs_core s → (∀ v s', (v = 0 ∧ went s s' nil nil ∨ v ≠ 0 ∧ went s s' (one v 1) nil) → Q v s') → wp (below (dev_create_vnode d)) Q E s.
Proof.
  intros Hk HQ. apply (wp_below _ (λ _ _, True) False s (λ v, if decide (v = 0) then nil else one v 1) (λ _, nil)); [done| | | |done].
  - eapply wp_mono; [apply dev_create_ok| |by intros]. intros v w' [[-> Hs]|[Hv Hs]]; split; [done|done|done|by rewrite decide_False].
  - intros v x Hx. case_decide; [by apply owed_nil|by apply owed_more].
  - intros v s' Hw _. apply HQ. case_decide; auto.
Qed.

(** The callers' references are as they were; on an error the vnode of the
    device may be left over, with a reference that nobody has. *)
Definition doadd_err s (ns : list str) (e : errno) s' : Prop :=
  ∃ r, settled s s' r nil ∧ ((∀ v, r v = 0) ∧ e = ENOMEM ∨ ∃ v, v ≠ 0 ∧ r = one v 1 ∧ (e = EEXIST ∧ taken (fvolname (vf_w s)) (table s) ns ∨ e = ENOMEM)).
Record doadd_post s (name : str) (mountable : bool) (dev fs : Z) (ns : list str) s' : Prop := {
  dp_core : vfs_core s';
  dp_refs : ∀ v, v ≠ 0 → owed s' v = owed s v;
  dp_opens : ∀ v, fopens (vf_w s') v = fopens (vf_w s) v;
  dp_locks : knowndevs_lock s' = knowndevs_lock s ∧ bootfs_lock s' = bootfs_lock s;
  dp_table : ∃ p vn, table s' = table s ++ [(p, mkkd name (raw_name name mountable) dev vn fs)];
  dp_new : ¬ taken (fvolname (vf_w s)) (table s) ns;
  dp_vols : vols s s';
}.

Lemma raw_ok name r mountable : str_ok name → raw_name name mountable = Some r → str_ok r.
Proof. intros Hn. destruct mountable; [|done]. intros [= <-]. apply Forall_app. split; [done|]. repeat constructor; done. Qed.
Lemma new_names_ok s name mountable fs : str_ok name → (fs ≠ 0 → fmounted (vf_w s) fs) → Forall str_ok (new_names s name mountable fs).
Proof.
  intros Hn Hf. unfold new_names, opts. apply Forall_app. split; [by repeat constructor|]. apply Forall_app. split.
  - destruct (raw_name name mountable) eqn:Hr; simpl; [|constructor]. constructor; [by eapply raw_ok|constructor].
  - case_decide as Hd; [|constructor]. destruct (fvolname (vf_w s) fs) eqn:Hv; simpl; [|constructor]. constructor; [|constructor].
    eapply volname_ok; [by apply Hf|done].
Qed.

(** The end of the routine, with all the memory there is to get. *)
Lemma doadd_end s s3 p rest name mountable dev vn fs :
  vfs_ok s → settled s s3 (one vn 1) nil → vols s s3 → mine s3 (p :: rest) → vn ≠ 0 → str_ok name → addable s mountable dev fs →
  arr_num (vf_mem s3).2 + 1 < 268435455 →
  wp (modify (λ s, set_kds (<[p := mkkd name (raw_name name mountable) dev vn fs]> (vf_kd s)) s) ;;;
      let! volname := (if negb (fs =? 0) then below (FSOP_GETVOLNAME fs) else ret None) in
      with_devs (let! bad := badnames (Some name) (raw_name name mountable) volname in
                 if negb bad then on_table (array_add p) else fail EEXIST))
     (λ _ s', doadd_post s name mountable dev fs (new_names s name mountable fs) s')
     (λ e s', doadd_err s (new_names s name mountable fs) e s') s3.
Proof.
  intros Hok Hs3 Hv3 Hm3 Hvn Hn Hadd Hnum. set (kd := mkkd name (raw_name name mountable) dev vn fs). pose proof Hok as (Hk & _).
  destruct (mn_live _ _ Hm3 p) as (_ & _ & Hpr); [by apply elem_of_cons; left|]. wp_bind. apply wp_modify. change (set_kds _ s3) with (put_kd p kd s3).
  pose proof (new_kd s3 p kd (st_core _ _ _ _ Hs3) Hpr) as Hs4. set (s4 := put_kd p kd s3) in *.
  assert (Hs04 : settled s s4 (one vn 1) nil) by settle Hs3 Hs4. assert (Hm4 : mine s4 (p :: rest)).
  { destruct Hm3 as [Hnd Hl]. split; [done|]. intros q Hq. destruct (Hl q Hq) as (? & ? & Hx). split; [done|]. split; [done|].
    unfold protected in *. by rewrite (st_table _ _ _ _ Hs4). }
  assert (Hfsm : fs ≠ 0 → fmounted (vf_w s) fs) by (destruct Hadd as [[_ ?]|(_ & _ & _ & ? & _)]; done).
  wp_bind. eapply (wp_mono _ (λ vol s5, went s4 s5 nil nil ∧ vol = if decide (fs ≠ 0) then fvolname (vf_w s) fs else None) _ (λ _ _, False)); [| |done].
  { destruct (Z.eqb_spec fs 0) as [Hf|Hf]; simpl.
    - apply wp_ret. split; [apply went_refl, Hs4|by rewrite decide_False by tauto].
    - destruct (Hv3 fs (Hfsm Hf)) as [Hmt Hvol]. apply wp_getvolname; [apply Hs4|done|]. intros s5 Hw5. split; [done|].
      rewrite decide_True by done. change (vf_w s4) with (vf_w s3). done. }
  intros vol s5 [Hw5 Hvol]. pose proof (went_settled _ _ _ _ Hw5) as Hs5. assert (Hs05 : settled s s5 (one vn 1) nil) by settle Hs04 Hs5.
  assert (Hv5 : vols s s5) by (eapply vols_trans; [exact Hv3|exact (wn_vol _ _ _ _ Hw5)]).
  pose proof (wn_frame _ _ _ _ Hw5) as [w5 Hf5]. pose proof (st_table _ _ _ _ Hs05) as Ht5.
  assert (Hns : opts (Some name) (raw_name name mountable) vol = new_names s name mountable fs) by (unfold new_names; by rewrite Hvol).
  assert (Hcl : taken (fvolname (vf_w s5)) (table s5) (new_names s name mountable fs) ↔ taken (fvolname (vf_w s)) (table s) (new_names s name mountable fs)).
  { rewrite Ht5. by apply taken_vols. }
  eapply wp_mono; [apply (doadd_locked s5 p kd rest)|..]; rewrite ?Hns.
  - by eapply settled_ok.
  - by eapply mine_went.
  - rewrite Hf5. simpl. by rewrite lookup_insert_eq.
  - split; simpl; [done|intros Hf; apply (Hv5 fs), Hfsm, Hf|..].
    + intros ->. destruct Hadd as [[? _]|(_ & -> & ? & _)]; done.
    + intros Hd _. destruct Hadd as [[_ ?]|(? & _)]; done.
  - simpl. rewrite (st_refs _ _ _ _ Hs05) by done. unfold one. rewrite decide_True by done. pose proof (vk_owed _ Hk _ Hvn). lia.
  - done.
  - intros r. by apply raw_ok.
  - simpl. intros Hf q kd' Hin. rewrite Ht5 in Hin. destruct Hadd as [[_ ?]|(_ & _ & _ & _ & Hd)]; [done|by eapply Hd].
  - rewrite Hf5. exact Hnum.
  - by apply new_names_ok.
  - intros [] s6 [Hncl [K R O (L1 & L2 & B & C) T V]]. rewrite Hcl in Hncl. destruct (st_locks _ _ _ _ Hs05) as [Hl1 Hl2].
    split; [done| | |split; congruence|exists p, vn; by rewrite T, Ht5|done|by eapply vols_trans].
    + intros v Hv. rewrite R, (st_refs _ _ _ _ Hs05) by done. simpl. lia.
    + intros v. rewrite O, (st_opens _ _ _ _ Hs05). unfold nil. lia.
  - intros e s6 [Hs6 He]. rewrite Hcl in He. exists (one vn 1). split; [settle Hs05 Hs6|]. right. exists vn. done.
Qed.

Lemma mine_nil s : mine s [].
Proof. split; [constructor|by intros p ?%elem_of_nil]. Qed.
Lemma heap_step s s1 h r : settled s s1 r nil → vfs_core (set_heap_of h s1) → settled s (set_heap_of h s1) r nil.
Proof. intros Hs Hk. pose proof (heap_settled _ _ Hk) as Hh. settle Hs Hh. Qed.
(** Nothing is left behind when memory runs out early. *)
Lemma puke_err s s1 name raw vn ns :
  vfs_ok s → settled s s1 (λ x, one vn 1 x) nil → mine s1 (blocks_of [name; raw]) →
  wp (puke name raw vn 0) (λ _ _, False) (λ e s', doadd_err s ns e s') s1.
Proof.
  intros (Hk & _) Hs Hm. eapply wp_mono; [apply puke_spec; [apply Hs|done|]|done|].
  - intros Hv. rewrite (st_refs _ _ _ _ Hs) by done. unfold one. rewrite decide_True by done. pose proof (vk_owed _ Hk _ Hv). lia.
  - intros e s2 [-> Hs2]. exists nil. split; [settle Hs Hs2|]. by left.
Qed.

Lemma vfs_doadd_spec s name mountable dev fs :
  vfs_ok s → str_ok name → zlen name < 4294963196 → addable s mountable dev fs → arr_num (vf_mem s).2 + 1 < 268435455 →
  wp (vfs_doadd name mountable dev fs)
     (λ _ s', doadd_post s name mountable dev fs (new_names s name mountable fs) s')
     (λ e s', doadd_err s (new_names s name mountable fs) e s') s.
Proof.
  intros Hok Hn Hlen Hadd Hnum. pose proof Hok as (Hk & _). pose proof (went_settled _ _ _ _ (went_refl s Hk)) as Hs0.
  assert (Hz : 0 ≤ zlen name) by (unfold zlen; lia).
  assert (Hzero : ∀ s', settled s s' nil nil → settled s s' (λ x, one 0 1 x) nil) by (intros s' Hs; settle Hs0 Hs).
  unfold vfs_doadd. wp_bind. apply (vmalloc_spec s []); [done|apply mine_nil|lia|]. intros nm h1 Hk1 Hm1. pose proof (heap_step s s h1 nil Hs0 Hk1) as Hs1.
  destruct Hm1 as [[-> Hm1]|[Hnm Hm1]].
  { simpl. eapply wp_mono; [by apply (puke_err s _ 0 0 0); [|apply Hzero|]|done|done]. }
  rewrite (proj2 (Z.eqb_neq _ _) Hnm). set (s1 := set_heap_of h1 s) in *. wp_bind.
  eapply (wp_mono _ (λ raw s2, ∃ h2, s2 = set_heap_of h2 s1 ∧ vfs_core s2 ∧ mine s2 (blocks_of [raw; nm]) ∧ (mountable = false → raw = 0)) _ (λ _ _, False)); [| |done].
  { destruct mountable; [|apply wp_ret; exists h1; split_and!; [done|done|by rewrite !blocks_of_cons, decide_True, decide_False by done|done]].
    apply (vmalloc_spec s1 [nm]); [done|done|lia|]. intros raw h2 Hk2 Hm2. exists h2. split_and!; [done|done| |done].
    rewrite !blocks_of_cons, (decide_False (P := nm = 0)) by done. destruct Hm2 as [[-> Hm2]|[Hr Hm2]]; [by rewrite decide_True|by rewrite decide_False]. }
  intros raw s2 (h2 & -> & Hk2 & Hm2 & Hraw). pose proof (heap_step s s1 h2 nil Hs1 Hk2) as Hs2. set (s2 := set_heap_of h2 s1) in *.
  assert (Hm2' : mine s2 (blocks_of [nm; raw])) by (eapply mine_perm; [|exact Hm2]; unfold blocks_of; apply filter_Permutation; constructor).
  destruct (mountable && (raw =? 0)) eqn:Hfail.
  { apply andb_true_iff in Hfail as [_ Hr%Z.eqb_eq]. subst raw. eapply wp_mono; [by apply (puke_err s s2 nm 0 0); [|apply Hzero|]|done|done]. }
  wp_bind. apply wp_dev_create; [done|]. intros vn s3 [[-> Hw3]|[Hvn Hw3]]; pose proof (went_settled _ _ _ _ Hw3) as Hs3'.
  { simpl. assert (Hs3 : settled s s3 nil nil) by settle Hs2 Hs3'. eapply wp_mono; [by apply (puke_err s s3 nm raw 0); [|apply Hzero|eapply mine_went]|done|done]. }
  rewrite (proj2 (Z.eqb_neq _ _) Hvn). assert (Hs3 : settled s s3 (one vn 1) nil) by settle Hs2 Hs3'. pose proof (mine_went _ _ _ _ _ Hw3 Hm2') as Hm3.
  wp_bind. apply (vmalloc_spec s3 (blocks_of [nm; raw])); [apply Hw3|done|unfold sizeof_struct_knowndev; lia|]. intros kd h4 Hk4 Hm4.
  pose proof (heap_step s s3 h4 _ Hs3 Hk4) as Hs4. destruct Hm4 as [[-> Hm4]|[Hkd Hm4]].
  { simpl. eapply wp_mono; [by apply (puke_err s _ nm raw vn)|done|done]. }
  rewrite (proj2 (Z.eqb_neq _ _) Hkd). eapply (doadd_end s _ kd (blocks_of [nm; raw])); [done|exact Hs4| |exact Hm4|done|done|done|].
  - intros f Hf. exact (wn_vol _ _ _ _ Hw3 f Hf).
  - pose proof (wn_frame _ _ _ _ Hw3) as [w3 Hf3]. simpl. rewrite Hf3. exact Hnum.
Qed.
End add.
