(* ===== verification/Device.v ===== *)
(** * Devices as vnodes (kern/fs/vfs/device.c, kern/fs/vfs/devnull.c)

    The vnode operations that stand in front of a driver, and the null
    device.  An operation answers with an error code, or with what it hands
    back. *)

From S2P Require Import Prelude CopyInOut Uio Vm Vfs.

(** [struct device]: the driver works on the state [W]. *)
Record device (W : Type) := mkdevice {
  d_open : Z → M W unit;
  d_close : M W unit;
  d_io : uio → M W uio;
  d_ioctl : Z → Z → M W unit;
  d_blocks : Z;
  d_blocksize : Z;
}.
Arguments mkdevice {W} _ _ _ _ _ _.
Arguments d_open {W} _.
Arguments d_close {W} _.
Arguments d_io {W} _.
Arguments d_ioctl {W} _.
Arguments d_blocks {W} _.
Arguments d_blocksize {W} _.

(** [struct stat] *)
Record stat := mkstat { st_mode : Z; st_nlink : Z; st_size : Z; st_blocks : Z }.

Section dev.
Context {W : Type} `{!Vref W}.
Implicit Types (d : device W).

Definition dev_open d (flags : Z) : M W unit :=
  if negb (Z.land flags (Z.lor (Z.lor (Z.lor O_CREAT O_TRUNC) O_EXCL) O_APPEND) =? 0) then fail EINVAL else d_open d flags.
Definition dev_close d : M W unit := d_close d.
Definition dev_reclaim : M W unit := ret tt.
Definition dev_read d (u : uio) : M W uio :=
  kassert (bool_decide (uio_rw u = UIO_READ)) ;;; d_io d u.
Definition dev_write d (u : uio) : M W uio :=
  kassert (bool_decide (uio_rw u = UIO_WRITE)) ;;; d_io d u.
Definition null_io : M W uio := fail EINVAL.
Definition dev_ioctl d (op data : Z) : M W unit := d_ioctl d op data.
Definition dev_gettype d : M W Z := ret (if d_blocks d >? 0 then S_IFBLK else S_IFCHR).
Definition dev_stat d : M W stat :=
  let! mode := dev_gettype d in
  ret (mkstat mode 1 (if d_blocks d >? 0 then i32 (u32 (d_blocks d * d_blocksize d)) else 0) (d_blocks d)).

(** [pos] is an [off_t]; the remainder and the quotient are those of unsigned
    numbers. *)
Definition dev_tryseek d (pos : Z) : M W unit :=
  if d_blocks d >? 0 then
    if d_blocksize d =? 0 then panic
    else if negb (u32 pos mod d_blocksize d =? 0) then fail EINVAL
    else if pos <? 0 then fail EINVAL
    else if u32 pos / d_blocksize d >=? d_blocks d then fail EINVAL
    else ret tt
  else fail ESPIPE.
Definition null_fsync : M W unit := ret tt.
Definition dev_mmap : M W unit := fail EUNIMP.
Definition dev_truncate d (len : Z) : M W unit :=
  if (d_blocks d >? 0) && (i32 (u32 (d_blocks d * d_blocksize d)) =? len) then ret tt else fail EINVAL.
Definition dev_namefile : M W unit := ret tt.
Definition null_creat : M W Z := fail ENOTDIR.
Definition null_symlink : M W unit := fail ENOTDIR.
Definition null_nameop : M W unit := fail ENOTDIR.
Definition null_link : M W unit := fail ENOTDIR.
Definition null_rename : M W unit := fail ENOTDIR.
Definition dev_lookup (dir : Z) (pathname : str) : M W Z :=
  if zlen pathname >? 0 then fail ENOENT else VOP_INCREF dir ;;; ret dir.
Definition dev_lookparent : M W (Z * str) := fail ENOTDIR.

(** ** The null device *)

Definition nullopen (openflags : Z) : M W unit := ret tt.
Definition nullclose : M W unit := ret tt.
Definition nullio (u : uio) : M W uio :=
  ret (if bool_decide (uio_rw u = UIO_WRITE)
       then mkuio (iov_base u) (iov_len u) (uio_offset u) 0 (uio_segflg u) (uio_rw u) (uio_space u)
       else u).
Definition nullioctl (op data : Z) : M W unit := fail EINVAL.
Definition devnull : device W := mkdevice nullopen nullclose nullio nullioctl 0 1.

(** ** Properties *)

(** The checks of a seek, in unsigned arithmetic, accept the first bytes of
    the blocks and nothing else. *)
Lemma seek_target b n pos :
  0 < b → -2147483648 ≤ pos < 2147483648 →
  (u32 pos mod b = 0 ∧ 0 ≤ pos ∧ u32 pos / b < n) ↔ ∃ k, 0 ≤ k < n ∧ pos = k * b.
Proof.
  intros Hb Hp. split.
  - intros (Hm & H0 & Hn). rewrite u32_small in Hm, Hn by lia.
    exists (pos / b). pose proof (Z_div_mod_eq_full pos b). split; [split; [by apply Z.div_pos|lia]|nia].
  - intros (k & Hk & ->). rewrite u32_small by nia.
    rewrite Z.mod_mul, Z.div_mul by lia. split_and!; [done|nia|lia].
Qed.

(** A seek on a block device is accepted exactly at the start of one of
    its blocks, although the position is signed and the arithmetic is not; a
    character device is never sought. *)
Theorem dev_tryseek_correct d pos s :
  0 < d_blocksize d → -2147483648 ≤ pos < 2147483648 →
  (d_blocks d ≤ 0 → dev_tryseek d pos s = Err ESPIPE s) ∧
  (0 < d_blocks d →
   (∃ k, 0 ≤ k < d_blocks d ∧ pos = k * d_blocksize d) ∧ dev_tryseek d pos s = Ok tt s ∨
   ¬ (∃ k, 0 ≤ k < d_blocks d ∧ pos = k * d_blocksize d) ∧ dev_tryseek d pos s = Err EINVAL s).
Proof.
  intros Hb Hp. rewrite <- (seek_target _ (d_blocks d) pos Hb Hp). unfold dev_tryseek.
  split; intros Hn.
  - by destruct (Z.gtb_spec (d_blocks d) 0); [lia|].
  - destruct (Z.gtb_spec (d_blocks d) 0); [|lia].
    destruct (Z.eqb_spec (d_blocksize d) 0); [lia|].
    destruct (Z.eqb_spec (u32 pos mod d_blocksize d) 0); [|right; split; [tauto|done]].
    destruct (Z.ltb_spec pos 0); [right; split; [lia|done]|].
    rewrite Z.geb_leb.
    destruct (Z.leb_spec (d_blocks d) (u32 pos / d_blocksize d)); [right; split; [lia|done]|].
    left. split; [lia|done].
Qed.
End dev.

(** A disk of four blocks of 512 bytes. *)
Definition small_disk : device unit :=
  mkdevice (λ _, ret tt) (ret tt) (λ u, ret u) (λ _ _, fail EINVAL) 4 512.
Lemma dev_tryseek_correct_witness :
  dev_tryseek small_disk 1536 tt = Ok tt tt ∧ dev_tryseek small_disk 2048 tt = Err EINVAL tt ∧
  dev_tryseek small_disk (-512) tt = Err EINVAL tt.
Proof.
  split; [|split].
  - destruct (dev_tryseek_correct small_disk 1536 tt) as [_ [[_ He]|[Hn _]]]; [done..|]. destruct Hn. exists 3. done.
  - destruct (dev_tryseek_correct small_disk 2048 tt) as [_ [[(k & Hk & He) _]|[_ He]]]; [done..| |done]. simpl in *. lia.
  - destruct (dev_tryseek_correct small_disk (-512) tt) as [_ [[(k & Hk & He) _]|[_ He]]]; [done..| |done]. simpl in *. lia.
Defined.
