(* ===== verification/VfsThm.v ===== *)
(** * The virtual file system layer: what it promises

    [vfs_balanced] covers every call; the other theorems say what names and
    paths stand for, and how the table of devices changes. *)

From S2P Require Import Prelude KString Kmem KArray Vm Vfs VfsSpec VfsOps VfsMount VfsAdd Device.

Section thm.
Context {H W : Type} `{!Kmem H, !KmemOk H, !Vref W, !Files W, !FilesOk W}.
Notation S := (vfs H W).
Implicit Types (s : S).

(** ** Calls *)

Inductive vfs_call :=
| C_open (path : str) (flags : Z)
| C_close (v : Z)
| C_lookup (path : str)
| C_lookparent (path : str) (n : Z)
| C_getroot (name : str)
| C_remove (path : str)
| C_symlink (contents path : str)
| C_mkdir (path : str)
| C_rmdir (path : str)
| C_rename (path1 path2 : str)
| C_link (path1 path2 : str)
| C_readlink (path : str) (u : Z)
| C_getcurdir
| C_setcurdir (v : Z)
| C_clearcurdir
| C_chdir (path : str)
| C_getcwd (u : Z)
| C_setbootfs (name : str)
| C_clearbootfs
| C_sync
| C_mount (name : str) (mountfunc : Z → M W Z)
| C_unmount (name : str)
| C_unmountall.

Definition then0 {A} (c : M S A) : M S Z := c ;;; ret 0.
Definition do_call (c : vfs_call) : M S Z :=
  match c with
  | C_open path flags => vfs_open path flags
  | C_close v => then0 (vfs_close v)
  | C_lookup path => vfs_lookup path
  | C_lookparent path n => let! r := vfs_lookparent path n in ret r.1
  | C_getroot name => vfs_getroot name
  | C_remove path => then0 (vfs_remove path)
  | C_symlink contents path => then0 (vfs_symlink contents path)
  | C_mkdir path => then0 (vfs_mkdir path)
  | C_rmdir path => then0 (vfs_rmdir path)
  | C_rename p1 p2 => then0 (vfs_rename p1 p2)
  | C_link p1 p2 => then0 (vfs_link p1 p2)
  | C_readlink path u => then0 (vfs_readlink path u)
  | C_getcurdir => vfs_getcurdir
  | C_setcurdir v => then0 (vfs_setcurdir v)
  | C_clearcurdir => then0 vfs_clearcurdir
  | C_chdir path => then0 (vfs_chdir path)
  | C_getcwd u => then0 (vfs_getcwd u)
  | C_setbootfs name => then0 (vfs_setbootfs name)
  | C_clearbootfs => then0 vfs_clearbootfs
  | C_sync => then0 vfs_sync
  | C_mount name f => then0 (vfs_mount name f)
  | C_unmount name => then0 (vfs_unmount name)
  | C_unmountall => then0 vfs_unmountall
  end.

(** What the caller must have: strings; the reference and the open file it
    gives back; a mount routine that keeps its promise; a name for the file
    system of the current directory. *)
Definition callable s (c : vfs_call) : Prop :=
  match c with
  | C_open p _ | C_lookup p | C_lookparent p _ | C_getroot p | C_remove p | C_symlink _ p | C_mkdir p | C_rmdir p
  | C_readlink p _ | C_chdir p | C_setbootfs p | C_unmount p => str_ok p
  | C_rename p q | C_link p q => str_ok p ∧ str_ok q
  | C_close v => 0 < owed s v ∧ 0 < fopens (vf_w s) v
  | C_setcurdir v => v ≠ 0 ∧ 0 < owed s v
  | C_getcwd _ => t_cwd s ≠ 0 → named s (vn_fs_of (t_cwd s) (vf_w s))
  | C_mount p f => str_ok p ∧ mounts f
  | _ => True
  end.
(** The references and open files a call hands out, its answer being [r]. *)
Definition hands (c : vfs_call) (r : Z) : (Z → Z) * (Z → Z) :=
  match c with
  | C_open _ _ => (one r 1, one r 1)
  | C_close v => (one v (-1), one v (-1))
  | C_lookup _ | C_lookparent _ _ | C_getroot _ | C_getcurdir => (one r 1, nil)
  | _ => (nil, nil)
  end.

(** After a call: the invariant, and the counts. *)
Definition balanced s s' (d : (Z → Z) * (Z → Z)) : Prop :=
  vfs_ok s' ∧ (∀ v, v ≠ 0 → owed s' v = owed s v + d.1 v) ∧ ∀ v, fopens (vf_w s') v = fopens (vf_w s) v + d.2 v.

Lemma settled_balanced s s' r o : vfs_ok s → settled s s' r o → balanced s s' (r, o).
Proof. intros Hok Hs. split; [by eapply settled_ok|]. split; apply Hs. Qed.
Lemma went_balanced s s' r o : vfs_ok s → went s s' r o → balanced s s' (r, o).
Proof. intros Hok Hw. apply settled_balanced; [done|]. by apply went_settled. Qed.
Lemma remounted_balanced s s' l : vfs_ok s → remounted s s' l → balanced s s' (nil, nil).
Proof.
  intros (_ & H1 & H2) [Hk R O (_ & L1 & _ & L2 & _) _]. split; [split; [done|split; congruence]|]. unfold nil. simpl.
  split; [intros v _; rewrite R; lia|intros v; rewrite O; lia].
Qed.
Lemma quiet_call {A} s (c : M S A) :
  wp c (λ _ s', balanced s s' (nil, nil)) (λ _ s', balanced s s' (nil, nil)) s →
  wp (then0 c) (λ _ s', balanced s s' (nil, nil)) (λ _ s', balanced s s' (nil, nil)) s.
Proof. intros Hc. unfold then0. wp_bind. eapply wp_mono; [exact Hc|by intros; apply wp_ret|done]. Qed.

Lemma setbootfs_colon s name : str_ok name → COLON ∈ ztake (NAME_MAX - 1) name → vfs_setbootfs name s = Err EINVAL s.
Proof.
  intros Hn Hc. unfold vfs_setbootfs. destruct (strchr_some (ztake (NAME_MAX - 1) name) COLON) as (i & Hi & ->); [by apply ztake_str|done|done|].
  rewrite (proj2 (Z.gtb_gt _ _)); [done|]. rewrite zlen_zdrop; lia.
Qed.
Lemma getroot_balanced s name : vfs_ok s → str_ok name →
  wp (vfs_getroot name) (λ r s', balanced s s' (one r 1, nil)) (λ _ s', balanced s s' (nil, nil)) s.
Proof.
  intros Hok Hn. eapply wp_mono; [by apply vfs_getroot_spec|..].
  - intros r s' Hr. apply went_balanced; [done|]. destruct (find_dev _ _ name) as [[fs|v|]|]; simpl in Hr; [by destruct Hr as (_ & ? & _)| |done..].
    destruct Hr as [-> Hw]. done.
  - intros e s' [Hw _]. by apply went_balanced.
Qed.

(** ** Names after a change of the table *)

Lemma find_dev_app f l l' n :
  find_dev f (l ++ l') n = match find_dev f l n with Some a => Some a | None => find_dev f l' n end.
Proof. induction l as [|[p kd] l IH]; simpl; [done|]. by destruct (dev_entry f kd n). Qed.
Lemma dev_entry_names f kd n : dev_entry f kd n ≠ None ↔ n ∈ names f kd.
Proof.
  unfold dev_entry, names. rewrite elem_of_cons, elem_of_app.
  assert (∀ o : option str, n ∈ option_list o ↔ o = Some n) as Ho.
  { intros [x|]; simpl; [rewrite list_elem_of_singleton|rewrite elem_of_nil]; naive_solver. }
  destruct (decide (kd_name kd = n)) as [->|Hn]; [naive_solver|]. rewrite Ho.
  destruct (decide (kd_fs kd ≠ 0)) as [Hf|Hf]; [rewrite Ho|rewrite elem_of_nil]; repeat case_decide; naive_solver.
Qed.
Lemma find_dev_none f l ns n : ¬ taken f l ns → n ∈ ns → find_dev f l n = None.
Proof.
  unfold taken. intros Ht Hn. induction l as [|[p kd] l IH]; [done|]. simpl. rewrite Exists_cons in Ht.
  destruct (dev_entry f kd n) as [a|] eqn:Ha; [|by apply IH; tauto].
  destruct Ht. left. apply Exists_exists. exists n. split; [|done]. apply (dev_entry_names f kd n). congruence.
Qed.
Lemma find_mount_cons e l name :
  find_mount (e :: l) name = if decide (kd_rawname e.2 ≠ None ∧ kd_name e.2 = name) then Some e else find_mount l name.
Proof. unfold find_mount. simpl. case_decide; [done|]. by destruct (list_find _ l) as [[]|]. Qed.
Lemma find_mount_in l name p kd : find_mount l name = Some (p, kd) → (p, kd) ∈ l.
Proof.
  unfold find_mount. destruct (list_find _ l) as [[j e]|] eqn:Hl; [|done]. intros [= ->].
  apply list_find_Some in Hl as (Hl & _). by eapply list_elem_of_lookup_2.
Qed.
Lemma find_mount_put l name p kd fs :
  NoDup l.*1 → find_mount l name = Some (p, kd) → find_mount (put_fs p fs l) name = Some (p, with_fs fs kd).
Proof.
  induction l as [|[q kd'] l IH]; [done|]. rewrite fmap_cons. intros [Hq Hnd]%NoDup_cons. rewrite find_mount_cons.
  change (put_fs p fs ((q, kd') :: l)) with ((if decide (q = p) then (q, with_fs fs kd') else (q, kd')) :: put_fs p fs l).
  case_decide as Hd; [intros [= -> ->]; rewrite decide_True, find_mount_cons by done; by rewrite decide_True|].
  intros Hl. rewrite (decide_False (P := q = p)), find_mount_cons, decide_False by (done || intros ->; apply Hq, (list_elem_of_fmap_2 fst _ _ (find_mount_in _ _ _ _ Hl))).
  by apply IH.
Qed.
Lemma remounted_ok s s' l : vfs_ok s → remounted s s' l → vfs_ok s'.
Proof. intros (_ & H1 & H2) [Hk _ _ (_ & L1 & _ & L2 & _) _]. split; [done|split; congruence]. Qed.

(** ** The claims *)


(** C40 A device name is looked up in the table as the comment at its head
    says: a name stands for its device or for the root of what is mounted
    there, a volume name for the root, a raw name for the device, and the first
    entry that has the name answers.  The caller gets one reference to what the
    name stands for; a device to be mounted is refused with ENXIO and an
    unknown name with ENODEV. *)
Theorem vfs_getroot_correct s name :
  vfs_ok s → str_ok name →
  let a := find_dev (fvolname (vf_w s)) (table s) name in
  wp (vfs_getroot name) (λ r s', answers s s' a r) (λ e s', refuses s s' a e) s.
Proof. apply vfs_getroot_spec. Qed.

(** A path is cut at its first colon or slash, and starts at a device, the
    boot file system, the root of the current file system or the current
    directory; what is left of it has no slash in front.  The caller gets one
    reference to the vnode it starts at. *)
Theorem getdevice_correct s path :
  vfs_ok s → str_ok path → wp (getdevice path) (getdevice_post s path) (getdevice_err s path) s.
Proof. apply getdevice_spec. Qed.

(** A device that was added is found under its name, and under its raw
    name when it can be mounted; every other name stands for what it did.  A
    name that is in use is never given again. *)
Theorem vfs_adddev_found s name dev mountable :
  vfs_ok s → str_ok name → zlen name < 4294963196 → dev ≠ 0 → arr_num (vf_mem s).2 + 1 < 268435455 →
  let ns := new_names s name mountable 0 in
  let find s n := find_dev (fvolname (vf_w s)) (table s) n in
  wp (vfs_adddev name dev mountable)
     (λ _ s', vfs_ok s' ∧ ¬ taken (fvolname (vf_w s)) (table s) ns ∧ ∃ vn, vn ≠ 0 ∧
        find s' name = Some (if mountable then A_unmounted else A_device vn) ∧
        (mountable = true → find s' (name ++ raw_suffix) = Some (A_device vn)) ∧
        ∀ n, n ∉ ns → find s' n = find s n)
     (λ e s', e = EEXIST ∧ taken (fvolname (vf_w s)) (table s) ns ∧ table s' = table s ∨ e = ENOMEM ∧ table s' = table s) s.
Proof.
  intros Hok Hn Hlen Hdev Hnum ns find. pose proof Hok as (Hk & Hl1 & Hl2).
  eapply wp_mono; [apply (vfs_doadd_spec s name mountable dev 0 Hok Hn Hlen); [by left|done]|..].
  - intros [] s' [K _ _ [L1 L2] (p & vn & T) Hnew V]. split; [split; [done|split; congruence]|]. split; [done|]. exists vn.
    set (kd := mkkd name (raw_name name mountable) dev vn 0) in T.
    assert (Hin : (p, kd) ∈ table s') by (rewrite T; apply elem_of_app; right; by apply list_elem_of_singleton).
    split; [exact (ko_vnode _ _ (vk_kds _ K p kd Hin))|].
    assert (Hf : ∀ n, find s' n = match find s n with Some a => Some a | None => dev_entry (fvolname (vf_w s')) kd n end).
    { intros n. unfold find. rewrite T, find_dev_app. rewrite (find_dev_ext (fvolname (vf_w s')) (fvolname (vf_w s)) (table s)).
      - simpl. by destruct (dev_entry _ kd n).
      - intros q kd' Hq Hf. apply V. eapply ko_fs; [|done]. by eapply vk_kds. }
    assert (Hno : ∀ n, n ∈ ns → find s n = None) by (intros n Hin'; by eapply find_dev_none).
    assert (Hns : name ∈ ns) by (subst ns; unfold new_names, opts; simpl; apply elem_of_cons; by left).
    split; [|split].
    + rewrite Hf, Hno by done. unfold dev_entry. simpl. rewrite decide_True by done. by destruct mountable.
    + intros ->. rewrite Hf, Hno by (subst ns; unfold new_names, opts; simpl; apply elem_of_cons; right; apply elem_of_cons; by left).
      unfold dev_entry. simpl. rewrite decide_False; [by rewrite decide_True|]. intros He%(f_equal length). rewrite length_app in He. simpl in He. lia.
    + intros n Hn'. rewrite Hf. destruct (find s n); [done|]. destruct (dev_entry _ kd n) eqn:He; [|done]. destruct Hn'.
      assert (n ∈ names (fvolname (vf_w s')) kd) as Hx by (apply dev_entry_names; congruence). subst ns. unfold names, new_names, opts in *. simpl in *. done.
  - intros e s' (r & Hs & Hr). rewrite (st_table _ _ _ _ Hs). naive_solver.
Qed.

(** Mounting a device and unmounting it again restores the table of
    devices: every name stands for what it did before, and no reference or
    open file is gained or lost.  When the second half fails (the file system
    is in use) the file system stays on that one entry. *)
Theorem mount_unmount_table s name f :
  vfs_ok s → str_ok name → mounts f →
  wp (vfs_mount name f ;;; vfs_unmount name)
     (λ _ s', remounted s s' (table s))
     (λ e s', remounted s s' (table s) ∨
        ∃ p kd fs, find_mount (table s) name = Some (p, kd) ∧ kd_fs kd = 0 ∧ fs ≠ 0 ∧ remounted s s' (put_fs p fs (table s))) s.
Proof.
  intros Hok Hn Hf. pose proof Hok as (Hk & _). pose proof (tk_ptrs _ (vk_table _ Hk)) as Hnd. wp_bind. eapply wp_mono; [by apply vfs_mount_spec|..].
  - intros [] s1 (p & kd & fs & Hfm & Hkd & Hfs & _ & _ & Hrm). pose proof (rm_table _ _ _ Hrm) as Ht.
    eapply wp_mono; [apply vfs_unmount_spec; [by eapply remounted_ok|done]|..].
    + intros [] s2 (q & kd' & Hfm' & _ & Hrm2). rewrite Ht in Hfm', Hrm2. rewrite (find_mount_put _ _ p kd) in Hfm' by done.
      injection Hfm' as <- <-. rewrite put_fs_put in Hrm2. rewrite <- Hkd, (put_fs_id p kd) in Hrm2 by (done || by eapply find_mount_in).
      by eapply remounted_trans.
    + intros e s2 [Hrm2 _]. right. exists p, kd, fs. split_and!; try done. rewrite Ht in Hrm2. by eapply remounted_trans.
  - intros e s1 [Hrm _]. by left.
Qed.

(** No name with a colon in it can be made the boot file system, although
    a colon at the end is meant to be accepted: [strlen(s)] is that of the
    string at the colon, which is never empty. *)
Theorem vfs_setbootfs_colon s name :
  str_ok name → COLON ∈ ztake (NAME_MAX - 1) name → vfs_setbootfs name s = Err EINVAL s.
Proof. apply setbootfs_colon. Qed.
End thm.

(** ** Witnesses: a small world *)

(** Vnodes below 1000 are null devices; file system [f] has the vnodes from
    [10 * f] on, the first of them its root and the next its only file. *)
Module SmallFiles.

Record world := mkworld { refs : Z → Z; opens : Z → Z; mnt : Z → bool }.
Definition fs_of (v : Z) : Z := if v <? 1000 then 0 else v / 10.
Definition there (w : world) (f : Z) : bool := (100 <=? f) && mnt w f.
Definition alive (w : world) (v : Z) : bool := if v <? 1000 then 0 <? v else there w (v / 10).
Definition cnt (w : world) (v : Z) : Z := if alive w v then Z.max 0 (refs w v) else 0.
Definition ocnt (w : world) (v : Z) : Z := Z.max 0 (opens w v).
Definition bumped (v n : Z) (w : world) : world := mkworld (λ x, cnt w x + one v n x) (opens w) (mnt w).
Definition obumped (v n : Z) (w : world) : world := mkworld (refs w) (λ x, ocnt w x + one v n x) (mnt w).

#[global] Instance small_vref : Vref world := { VOP_INCREF v := modify (bumped v 1); VOP_DECREF v := modify (bumped v (-1)) }.

Definition file (v : Z) : M world Z := VOP_INCREF (10 * (v / 10) + 1) ;;; ret (10 * (v / 10) + 1).
Definition on_dev {A} (v : Z) (c k : M world A) : M world A := if v <? 1000 then c else k.
Definition busy (w : world) (f : Z) : bool := negb (forallb (λ k, cnt w (10 * f + k) =? 0) (seqZ 0 10)).
Definition unmount (f : Z) : M world unit :=
  let! w := get in
  if busy w f then fail EBUSY else put (mkworld (refs w) (opens w) (λ g, negb (g =? f) && mnt w g)).
Definition mount (d : Z) : M world Z :=
  let! w := get in
  let f := 100 + Z.abs d in
  if mnt w f then fail EBUSY
  else put (mkworld (λ v, if v / 10 =? f then 0 else refs w v) (opens w) (λ g, (g =? f) || mnt w g)) ;;; ret f.
Definition volname (f : Z) : option str := if f =? 107 then Some [118; 111; 108] else None.

#[global] Instance small_files : Files world := {
  vn_fs_of v _ := fs_of v;
  VOP_INCOPEN v := modify (obumped v 1);
  VOP_DECOPEN v := modify (obumped v (-1));
  VOP_OPEN v f := on_dev v (dev_open devnull f) (ret tt);
  VOP_GETTYPE v := on_dev v (dev_gettype devnull) (ret (if v mod 10 =? 0 then S_IFDIR else 4096));
  VOP_TRUNCATE v n := on_dev v (dev_truncate devnull n) (ret tt);
  VOP_READLINK v u := fail EINVAL;
  VOP_NAMEFILE v u := on_dev v dev_namefile (ret tt);
  VOP_CREAT v n x := on_dev v null_creat (file v);
  VOP_SYMLINK v n c := on_dev v null_symlink (fail EUNIMP);
  VOP_MKDIR v n := on_dev v null_nameop (fail EUNIMP);
  VOP_LINK v n f := on_dev v null_link (fail EUNIMP);
  VOP_REMOVE v n := on_dev v null_nameop (fail EUNIMP);
  VOP_RMDIR v n := on_dev v null_nameop (fail EUNIMP);
  VOP_RENAME v n v' n' := on_dev v null_rename (fail EUNIMP);
  VOP_LOOKUP v p := on_dev v (dev_lookup v p) (if decide (p = []) then VOP_INCREF v ;;; ret v else file v);
  VOP_LOOKPARENT v p n := on_dev v dev_lookparent (VOP_INCREF v ;;; ret (v, p));
  FSOP_SYNC f := ret tt;
  FSOP_GETVOLNAME f := ret (volname f);
  FSOP_GETROOT f := VOP_INCREF (10 * f) ;;; ret (10 * f);
  FSOP_UNMOUNT := unmount;
  dev_create_vnode d := VOP_INCREF (1 + d mod 999) ;;; ret (1 + d mod 999);
  kfree_vnode v := VOP_DECREF v;
  UIOMOVE u d := ret tt;
}.

Notation fsteps w w' r o := (moved cnt ocnt (λ w f, there w f = true) (λ _, volname) vn_fs_of w w' r o).
Notation fquiet c w := (wp c (λ _ w', fsteps w w' nil nil) (λ _ w', fsteps w w' nil nil) w).

Lemma steps_refl w : fsteps w w nil nil.
Proof. split; unfold nil; try done; intros v; lia. Qed.
Lemma used_alive w v : 0 < cnt w v → alive w v = true.
Proof. unfold cnt. by destruct (alive w v). Qed.
Lemma bump_steps w v n : alive w v = true → 0 ≤ cnt w v + n → fsteps w (bumped v n w) (one v n) nil.
Proof.
  intros Ha Hn. split; try done.
  - intros x. unfold cnt at 1. change (alive (bumped v n w) x) with (alive w x). simpl.
    destruct (alive w x) eqn:Hx; [|unfold one; case_decide; [congruence|]; unfold cnt; rewrite Hx; simpl; lia].
    assert (0 ≤ cnt w x) by (unfold cnt; case_match; lia). unfold one. case_decide; subst; lia.
  - intros x. unfold nil. change (ocnt (bumped v n w) x) with (ocnt w x). lia.
Qed.
Lemma obump_steps w v n : 0 ≤ ocnt w v + n → fsteps w (obumped v n w) nil (one v n).
Proof.
  intros Hn. split; try done.
  - intros x. unfold nil. change (cnt (obumped v n w) x) with (cnt w x). lia.
  - intros x. unfold ocnt at 1. simpl. unfold one. case_decide; subst; unfold ocnt in *; lia.
Qed.
Lemma wp_bump w v (Q : unit → world → Prop) E :
  alive w v = true → (fsteps w (bumped v 1 w) (one v 1) nil → Q tt (bumped v 1 w)) → wp (VOP_INCREF v) Q E w.
Proof. intros Ha HQ. apply wp_modify, HQ, bump_steps; [done|]. unfold cnt. case_match; lia. Qed.
Lemma quiet_ret w : fquiet (ret tt) w.
Proof. apply wp_ret, steps_refl. Qed.
Lemma quiet_fail e w : fquiet (fail (A := unit) e) w.
Proof. apply wp_fail, steps_refl. Qed.
Lemma file_alive w v : (v <? 1000) = false → alive w v = true → alive w (10 * (v / 10) + 1) = true ∧ 10 * (v / 10) + 1 ≠ 0.
Proof.
  unfold alive. intros Hv. rewrite Hv. intros Ht. apply Z.ltb_ge in Hv.
  assert (100 ≤ v / 10) by (apply Z.div_le_lower_bound; lia). split; [|lia].
  rewrite (proj2 (Z.ltb_ge _ _)) by lia.
  replace ((10 * (v / 10) + 1) / 10) with (v / 10); [done|]. apply (Z.div_unique _ _ _ 1); lia.
Qed.
Lemma bump_ref w v : alive w v = true → v ≠ 0 →
  wp (VOP_INCREF v ;;; ret v) (λ v w', v ≠ 0 ∧ fsteps w w' (one v 1) nil) (λ _ w', fsteps w w' nil nil) w.
Proof. intros Ha Hv. wp_bind. apply wp_bump; [done|]. intros Hs. by apply wp_ret. Qed.
Lemma alive_pos w v : alive w v = true → v ≠ 0.
Proof. unfold alive. destruct (Z.ltb_spec v 1000); lia. Qed.
Lemma unmount_small w f : there w f = true →
  wp (unmount f)
     (λ _ w', moved cnt ocnt (λ w g, g ≠ f ∧ there w g = true) (λ _, volname) vn_fs_of w w' nil nil ∧
        ∀ v, 0 < cnt w v → fs_of v ≠ f)
     (λ _ w', fsteps w w' nil nil) w.
Proof.
  intros Hf. unfold unmount. wp_bind. apply wp_get. destruct (busy w f) eqn:Hb; [apply wp_fail, steps_refl|].
  apply negb_false_iff in Hb. rewrite forallb_forall in Hb.
  assert (H100 : 100 ≤ f) by (unfold there in Hf; apply andb_true_iff in Hf as [Hf _]; lia).
  assert (Hz : ∀ v, v / 10 = f → cnt w v = 0).
  { intros v Hv. pose proof (Z_div_mod_eq_full v 10). pose proof (Z.mod_pos_bound v 10).
    replace v with (10 * f + v mod 10) by lia. apply Z.eqb_eq, Hb. apply list_elem_of_In, elem_of_seqZ. lia. }
  apply wp_modify. split.
  - split; try done.
    + intros v. unfold nil. rewrite Z.add_0_r. specialize (Hz v). unfold cnt, alive, there in *. simpl.
      destruct (Z.ltb_spec v 1000); [done|]. destruct (Z.eqb_spec (v / 10) f) as [He|]; cbn [negb andb]; [|done].
      rewrite andb_false_r. symmetry. auto.
    + intros v. unfold nil, ocnt. simpl. lia.
    + intros g [Hg Ht]. split; [done|]. unfold there in *. simpl. by rewrite (proj2 (Z.eqb_neq g f) Hg).
  - intros v Hv. unfold fs_of. destruct (Z.ltb_spec v 1000); [lia|]. intros He. specialize (Hz v He). lia.
Qed.

#[local] Obligation Tactic := idtac.
Ltac by_dev v := unfold on_dev; destruct (v <? 1000) eqn:?Hv.
#[global] Program Instance small_ok : FilesOk world := {|
  frefs := cnt; fopens := ocnt; fmounted w f := there w f = true; fvolname _ := volname
|}.
Next Obligation. intros w v. unfold ocnt. lia. Qed.
Next Obligation.
  intros w v Hv%used_alive. simpl. unfold fs_of. unfold alive in Hv. by destruct (v <? 1000).
Qed.
Next Obligation. intros w v Hv%used_alive. by apply wp_bump. Qed.
Next Obligation. intros w v Hv. pose proof (used_alive _ _ Hv). apply wp_modify, bump_steps; [done|lia]. Qed.
Next Obligation. intros w v _. apply wp_modify, obump_steps. unfold ocnt. lia. Qed.
Next Obligation. intros w v _ Ho. apply wp_modify, obump_steps. lia. Qed.
Next Obligation.
  intros w v _. simpl. by_dev v; apply wp_ret; (split; [apply steps_refl|]); simpl.
  - done.
  - unfold fs_of. rewrite Hv. intros _. apply Z.ltb_ge in Hv. assert (100 ≤ v / 10) by (apply Z.div_le_lower_bound; lia). lia.
Qed.
Next Obligation. intros w v f _. simpl. by_dev v; [|apply quiet_ret]. unfold dev_open. case_match; [apply quiet_fail|apply quiet_ret]. Qed.
Next Obligation. intros w v n _. simpl. by_dev v; [apply quiet_fail|apply quiet_ret]. Qed.
Next Obligation. intros w v u _. apply quiet_fail. Qed.
Next Obligation. intros w v u _. simpl. by_dev v; apply quiet_ret. Qed.
Next Obligation. intros w v n c _. simpl. by_dev v; apply quiet_fail. Qed.
Next Obligation. intros w v n _. simpl. by_dev v; apply quiet_fail. Qed.
Next Obligation. intros w v n f _ _. simpl. by_dev v; apply quiet_fail. Qed.
Next Obligation. intros w v n _. simpl. by_dev v; apply quiet_fail. Qed.
Next Obligation. intros w v n _. simpl. by_dev v; apply quiet_fail. Qed.
Next Obligation. intros w v n v' n' _ _. simpl. by_dev v; apply quiet_fail. Qed.
Next Obligation.
  intros w v n x Ha%used_alive. simpl. by_dev v; [apply wp_fail, steps_refl|].
  destruct (file_alive w v Hv Ha). by apply bump_ref.
Qed.
Next Obligation.
  intros w v p Ha. pose proof (used_alive _ _ Ha) as Hal. simpl. by_dev v.
  - unfold dev_lookup. case_match; [apply wp_fail, steps_refl|]. apply bump_ref; [done|by eapply alive_pos].
  - case_decide; [apply bump_ref; [done|by eapply alive_pos]|]. destruct (file_alive w v Hv Hal). by apply bump_ref.
Qed.
Next Obligation.
  intros w v p n Ha%used_alive. simpl. by_dev v; [apply wp_fail, steps_refl|]. wp_bind. apply wp_bump; [done|].
  intros Hs. apply wp_ret. split; [by eapply alive_pos|done].
Qed.
Next Obligation. intros w f _. apply quiet_ret. Qed.
Next Obligation. intros w f _. apply wp_ret. split; [done|apply steps_refl]. Qed.
Next Obligation.
  intros w f Hf. simpl. assert (100 ≤ f) by (unfold there in Hf; apply andb_true_iff in Hf as [Hf _]; lia).
  assert (Hd : 10 * f / 10 = f) by (rewrite Z.mul_comm; by apply Z.div_mul).
  wp_bind. apply wp_bump; [unfold alive; by rewrite (proj2 (Z.ltb_ge _ _)), Hd, Hf by lia|]. intros Hs. apply wp_ret. split; [lia|]. split; [done|].
  unfold fs_of. by rewrite (proj2 (Z.ltb_ge _ _)) by lia.
Qed.
Next Obligation. intros w f Hf. by apply unmount_small. Qed.
Next Obligation.
  intros w d. simpl. pose proof (Z.mod_pos_bound d 999 eq_refl). wp_bind. apply wp_bump.
  - unfold alive. rewrite !(proj2 (Z.ltb_lt _ _)) by lia. done.
  - intros Hs. apply wp_ret. right. split; [lia|done].
Qed.
Next Obligation. intros w v Hv. pose proof (used_alive _ _ Hv). apply wp_modify, bump_steps; [done|lia]. Qed.
Next Obligation. intros w u d. apply quiet_ret. Qed.
Next Obligation.
  intros w f n _. simpl. unfold volname. case_match; [|done]. intros [= <-]. by repeat constructor.
Qed.

Lemma mount_small : mounts mount.
Proof.
  intros w d. unfold mount. wp_bind. apply wp_get. set (f := 100 + Z.abs d).
  destruct (mnt w f) eqn:Hm; [apply wp_fail, steps_refl|]. wp_bind. apply wp_modify, wp_ret.
  assert (Hf : 100 ≤ f) by lia. split; [lia|]. split; [|split].
  - simpl. unfold there. simpl. by rewrite Z.eqb_refl, (proj2 (Z.leb_le _ _) Hf).
  - simpl. unfold there. by rewrite Hm, andb_false_r.
  - split; try done.
    + intros v. unfold nil. rewrite Z.add_0_r. simpl. unfold cnt, alive, there. simpl.
      destruct (Z.eqb_spec (v / 10) f) as [He|]; [|done]. destruct (Z.ltb_spec v 1000) as [Hv|_].
      { pose proof (Z.div_lt_upper_bound v 10 100 ltac:(lia) ltac:(lia)). lia. }
      rewrite He, Hm, !andb_false_r. by case_match.
    + intros v. unfold nil. change (ocnt w v = ocnt w v + 0). lia.
    + intros g. simpl. unfold there. simpl. intros [-> ->]%andb_true_iff. by rewrite orb_true_r.
Qed.

(** An empty table; then a mountable disk "lhd0", device 7. *)
Definition bare : world := mkworld (λ _, 0) (λ _, 0) (λ _, false).
Definition empty_vfs : vfs Toy.heap world :=
  mkvfs (Toy.mkheap 64 4000 {[16 := 12]}, mkarray 16 0 0 0 []) ∅ false 0 false 0 bare.
Definition lhd0 : str := [108; 104; 100; 48].
Definition ran {A} (c : M (vfs Toy.heap world) A) (s : vfs Toy.heap world) : vfs Toy.heap world :=
  match c s with Ok _ s' => s' | _ => s end.
Definition with_disk : vfs Toy.heap world := ran (vfs_adddev lhd0 7 true) empty_vfs.

Lemma empty_ok : vfs_ok empty_vfs.
Proof.
  split; [|done]. split.
  - split; [|done|by constructor|by intros p kd ?%elem_of_nil|by intros p kd ?%elem_of_nil|by constructor|by intros p kd ? ? ?%elem_of_nil].
    split; [|split].
    + split; [done|]. cbn [empty_vfs vf_mem fst Toy.live]. by intros p sz [<- <-]%lookup_singleton_Some.
    + by split.
    + split; [done|]. split; [by exists 12|done].
  - by intros p kd ?%elem_of_nil.
  - intros v Hv. unfold owed, held, one. simpl. rewrite !decide_False by done. unfold cnt. case_match; done.
  - done.
Qed.
Lemma lhd0_ok : str_ok lhd0.
Proof. by repeat constructor. Qed.
Lemma with_disk_ok : vfs_ok with_disk.
Proof.
  unfold with_disk, ran. pose proof (vfs_doadd_spec empty_vfs lhd0 true 7 0 empty_ok lhd0_ok ltac:(done) ltac:(by left) ltac:(done)) as Hw.
  unfold wp in Hw. unfold vfs_adddev. destruct (vfs_doadd lhd0 true 7 0 empty_vfs); [|exact empty_ok|done|done].
  destruct Hw as [K _ _ [L1 L2] _ _ _]. split; [done|]. by rewrite L1, L2.
Qed.
End SmallFiles.

Import SmallFiles.

Lemma vfs_getroot_correct_witness :
  wp (vfs_getroot lhd0) (λ _ _, False) (λ e s', e = ENXIO) with_disk.
Proof.
  eapply wp_mono; [apply (vfs_getroot_correct with_disk lhd0); [exact with_disk_ok|exact lhd0_ok]|..].
  - intros r s' Hr. vm_compute (find_dev _ _ _) in Hr. done.
  - intros e s' [_ [[_ He]|[He _]]]; [done|]. vm_compute in He. done.
Defined.
Lemma getdevice_correct_witness :
  wp (getdevice (lhd0 ++ raw_suffix ++ [COLON; SLASH; 120])) (λ r _, r = (8, [120])) (λ _ _, False) with_disk.
Proof.
  eapply wp_mono; [apply (getdevice_correct with_disk); [exact with_disk_ok|by repeat constructor]|..].
  - intros [v rest] s' (Hr & _ & _ & Hs). vm_compute in Hr. vm_compute in Hs. simpl in *. by subst.
  - intros e s' [_ He]. vm_compute in He. done.
Defined.
Lemma vfs_adddev_found_witness :
  wp (vfs_adddev lhd0 7 true)
     (λ _ s', find_dev (fvolname (vf_w s')) (table s') lhd0 = Some A_unmounted) (λ e _, e = ENOMEM) empty_vfs.
Proof.
  eapply wp_mono; [apply (vfs_adddev_found empty_vfs lhd0 7 true); [exact empty_ok|exact lhd0_ok|done..]|..].
  - by intros [] s' (_ & _ & vn & _ & Hf & _).
  - intros e s' [(_ & Ht & _)|[He _]]; [|done]. by apply Exists_nil in Ht.
Defined.
Lemma mount_unmount_table_witness :
  match (vfs_mount lhd0 mount ;;; vfs_unmount lhd0) with_disk with Ok _ s' => table s' = table with_disk | _ => False end.
Proof.
  assert (Hok : match (vfs_mount lhd0 mount ;;; vfs_unmount lhd0) with_disk with Ok _ _ => true | _ => false end = true) by (vm_compute; reflexivity).
  pose proof (mount_unmount_table with_disk lhd0 mount with_disk_ok lhd0_ok mount_small) as Hw. unfold wp in Hw.
  destruct ((vfs_mount lhd0 mount ;;; vfs_unmount lhd0) with_disk); [apply Hw|done..].
Defined.
Lemma vfs_setbootfs_colon_witness : vfs_setbootfs (lhd0 ++ [COLON]) with_disk = Err EINVAL with_disk.
Proof. apply (vfs_setbootfs_colon with_disk); [by repeat constructor|]. apply list_elem_of_In. simpl. tauto. Defined.
