(* ===== verification/Thread.v ===== *)
(** * Threads, the scheduler, locks and processes
      (kern/thread/thread.c, scheduler.c, synch.c, kern/main/process_create.c,
      the process calls of kern/arch/mips/mips/syscall.c)

    One processor runs one thread at a time, and with interrupts off nothing
    interferes, so a routine is one step up to the place where it gives the
    processor away in [mi_switch].  What a thread still has to do when it gets
    the processor back is kept with it as a [kont].  A step ends in [Some v]
    when the routine returned [v] to its caller and in [None] when the thread
    is off the processor.

    Pointers to threads, processes, semaphores, locks and condition variables
    are heap addresses, 0 for NULL; the objects are kept by address. *)

From S2P Require Import Prelude Kmem KArray KQueue Vnode.

Inductive threadstate_t := S_RUN | S_READY | S_SLEEP | S_ZOMB.

(** What follows once a lock has been taken. *)
Inductive cont :=
  | C_done
  | C_child (thread temp : Z)
  | C_waitpid (child : Z)
  | C_waited (child : Z)
  | C_exit
  | C_cv (spl : Z) (c : cont).

(** Where a thread goes on after a switch; [spl] is the saved level. *)
Inductive kont :=
  | K_start
  | K_yield (spl : Z)
  | K_P (sem spl : Z)
  | K_acquire (lock spl : Z) (c : cont)
  | K_cv (cv lock spl : Z) (c : cont)
  | K_zombie.

(** [t_magic]: the first four bytes of the stack.  [t_inint] is
    [pcb_ininterrupt]. *)
Record thread := mkthread {
  t_inint : Z;
  t_name : Z;
  t_sleepaddr : Z;
  t_stack : Z;
  t_magic : list Z;
  t_pid : Z;
  t_array_ptr : Z;
  t_vmspace : Z;
  t_cwd : Z;
  t_kont : option kont;
}.

Definition PROCESS_RUNNING : Z := 1.
Definition PROCESS_STOP : Z := 0.
Definition MAXPID : Z := 500.
Definition MINPID : Z := 101.
Record process := mkprocess {
  p_status : Z;
  p_exitcode : Z;
  p_pid : Z;
  p_ppid : Z;
  p_process_ptr : Z;
  p_array_cv : Z;
}.
Record semaphore := mksem { sem_name : Z; sem_count : Z }.
Record cv := mkcv { cv_name : Z }.

Definition sizeof_thread : Z := 88.
Definition sizeof_process : Z := 24.
Definition sizeof_semaphore : Z := 8.
Definition sizeof_lock : Z := 16.
Definition sizeof_cv : Z := 4.
Definition STACK_SIZE : Z := 4096.
Definition SPL_HIGH : Z := 15.
Definition magic : list Z := [174; 17; 218; 51].

(** The parts of the kernel the thread system calls: address spaces and
    vnodes, on the same memory. *)
Class Kenv (H : Type) := {
  as_activate : Z → M H unit;
  as_destroy : Z → M H unit;
  vop_incref : Z → M H unit;
  vop_decref : Z → M H unit;
}.

(** [ts_idle]: the thread on whose stack [scheduler] is waiting for something
    to become ready, 0 when it is not. *)
Record ts (H : Type) := mkts {
  ts_heap : H;
  ts_threads : gmap Z thread;
  ts_cur : Z;
  ts_idle : Z;
  ts_sleepers : array Z;
  ts_zombies : array Z;
  ts_runqueue : queue Z;
  ts_numthreads : Z;
  ts_spl : Z;
  ts_inint : Z;
  ts_sems : gmap Z semaphore;
  ts_locks : gmap Z lock;
  ts_cvs : gmap Z cv;
  ts_procs : gmap Z process;
  ts_table : list Z;
  ts_process_lock : Z;
  ts_first : Z;
}.
Arguments mkts {H} _ _ _ _ _ _ _ _ _ _ _ _ _ _ _ _ _.
Arguments ts_heap {H} _.
Arguments ts_threads {H} _.
Arguments ts_cur {H} _.
Arguments ts_idle {H} _.
Arguments ts_sleepers {H} _.
Arguments ts_zombies {H} _.
Arguments ts_runqueue {H} _.
Arguments ts_numthreads {H} _.
Arguments ts_spl {H} _.
Arguments ts_inint {H} _.
Arguments ts_sems {H} _.
Arguments ts_locks {H} _.
Arguments ts_cvs {H} _.
Arguments ts_procs {H} _.
Arguments ts_table {H} _.
Arguments ts_process_lock {H} _.
Arguments ts_first {H} _.

Section setters.
Context {H : Type}.
Implicit Types (s : ts H).
Definition set_heap (x : H) s : ts H :=
  mkts x (ts_threads s) (ts_cur s) (ts_idle s) (ts_sleepers s) (ts_zombies s) (ts_runqueue s) (ts_numthreads s) (ts_spl s) (ts_inint s) (ts_sems s) (ts_locks s) (ts_cvs s) (ts_procs s) (ts_table s) (ts_process_lock s) (ts_first s).
Definition set_threads (x : gmap Z thread) s : ts H :=
  mkts (ts_heap s) x (ts_cur s) (ts_idle s) (ts_sleepers s) (ts_zombies s) (ts_runqueue s) (ts_numthreads s) (ts_spl s) (ts_inint s) (ts_sems s) (ts_locks s) (ts_cvs s) (ts_procs s) (ts_table s) (ts_process_lock s) (ts_first s).
Definition set_cur (x : Z) s : ts H :=
  mkts (ts_heap s) (ts_threads s) x (ts_idle s) (ts_sleepers s) (ts_zombies s) (ts_runqueue s) (ts_numthreads s) (ts_spl s) (ts_inint s) (ts_sems s) (ts_locks s) (ts_cvs s) (ts_procs s) (ts_table s) (ts_process_lock s) (ts_first s).
Definition set_idle (x : Z) s : ts H :=
  mkts (ts_heap s) (ts_threads s) (ts_cur s) x (ts_sleepers s) (ts_zombies s) (ts_runqueue s) (ts_numthreads s) (ts_spl s) (ts_inint s) (ts_sems s) (ts_locks s) (ts_cvs s) (ts_procs s) (ts_table s) (ts_process_lock s) (ts_first s).
Definition set_sleepers (x : array Z) s : ts H :=
  mkts (ts_heap s) (ts_threads s) (ts_cur s) (ts_idle s) x (ts_zombies s) (ts_runqueue s) (ts_numthreads s) (ts_spl s) (ts_inint s) (ts_sems s) (ts_locks s) (ts_cvs s) (ts_procs s) (ts_table s) (ts_process_lock s) (ts_first s).
Definition set_zombies (x : array Z) s : ts H :=
  mkts (ts_heap s) (ts_threads s) (ts_cur s) (ts_idle s) (ts_sleepers s) x (ts_runqueue s) (ts_numthreads s) (ts_spl s) (ts_inint s) (ts_sems s) (ts_locks s) (ts_cvs s) (ts_procs s) (ts_table s) (ts_process_lock s) (ts_first s).
Definition set_runqueue (x : queue Z) s : ts H :=
  mkts (ts_heap s) (ts_threads s) (ts_cur s) (ts_idle s) (ts_sleepers s) (ts_zombies s) x (ts_numthreads s) (ts_spl s) (ts_inint s) (ts_sems s) (ts_locks s) (ts_cvs s) (ts_procs s) (ts_table s) (ts_process_lock s) (ts_first s).
Definition set_numthreads (x : Z) s : ts H :=
  mkts (ts_heap s) (ts_threads s) (ts_cur s) (ts_idle s) (ts_sleepers s) (ts_zombies s) (ts_runqueue s) x (ts_spl s) (ts_inint s) (ts_sems s) (ts_locks s) (ts_cvs s) (ts_procs s) (ts_table s) (ts_process_lock s) (ts_first s).
Definition set_spl (x : Z) s : ts H :=
  mkts (ts_heap s) (ts_threads s) (ts_cur s) (ts_idle s) (ts_sleepers s) (ts_zombies s) (ts_runqueue s) (ts_numthreads s) x (ts_inint s) (ts_sems s) (ts_locks s) (ts_cvs s) (ts_procs s) (ts_table s) (ts_process_lock s) (ts_first s).
Definition set_inint (x : Z) s : ts H :=
  mkts (ts_heap s) (ts_threads s) (ts_cur s) (ts_idle s) (ts_sleepers s) (ts_zombies s) (ts_runqueue s) (ts_numthreads s) (ts_spl s) x (ts_sems s) (ts_locks s) (ts_cvs s) (ts_procs s) (ts_table s) (ts_process_lock s) (ts_first s).
Definition set_sems (x : gmap Z semaphore) s : ts H :=
  mkts (ts_heap s) (ts_threads s) (ts_cur s) (ts_idle s) (ts_sleepers s) (ts_zombies s) (ts_runqueue s) (ts_numthreads s) (ts_spl s) (ts_inint s) x (ts_locks s) (ts_cvs s) (ts_procs s) (ts_table s) (ts_process_lock s) (ts_first s).
Definition set_locks (x : gmap Z lock) s : ts H :=
  mkts (ts_heap s) (ts_threads s) (ts_cur s) (ts_idle s) (ts_sleepers s) (ts_zombies s) (ts_runqueue s) (ts_numthreads s) (ts_spl s) (ts_inint s) (ts_sems s) x (ts_cvs s) (ts_procs s) (ts_table s) (ts_process_lock s) (ts_first s).
Definition set_cvs (x : gmap Z cv) s : ts H :=
  mkts (ts_heap s) (ts_threads s) (ts_cur s) (ts_idle s) (ts_sleepers s) (ts_zombies s) (ts_runqueue s) (ts_numthreads s) (ts_spl s) (ts_inint s) (ts_sems s) (ts_locks s) x (ts_procs s) (ts_table s) (ts_process_lock s) (ts_first s).
Definition set_procs (x : gmap Z process) s : ts H :=
  mkts (ts_heap s) (ts_threads s) (ts_cur s) (ts_idle s) (ts_sleepers s) (ts_zombies s) (ts_runqueue s) (ts_numthreads s) (ts_spl s) (ts_inint s) (ts_sems s) (ts_locks s) (ts_cvs s) x (ts_table s) (ts_process_lock s) (ts_first s).
Definition set_table (x : list Z) s : ts H :=
  mkts (ts_heap s) (ts_threads s) (ts_cur s) (ts_idle s) (ts_sleepers s) (ts_zombies s) (ts_runqueue s) (ts_numthreads s) (ts_spl s) (ts_inint s) (ts_sems s) (ts_locks s) (ts_cvs s) (ts_procs s) x (ts_process_lock s) (ts_first s).
Definition set_process_lock (x : Z) s : ts H :=
  mkts (ts_heap s) (ts_threads s) (ts_cur s) (ts_idle s) (ts_sleepers s) (ts_zombies s) (ts_runqueue s) (ts_numthreads s) (ts_spl s) (ts_inint s) (ts_sems s) (ts_locks s) (ts_cvs s) (ts_procs s) (ts_table s) x (ts_first s).
Definition set_first (x : Z) s : ts H :=
  mkts (ts_heap s) (ts_threads s) (ts_cur s) (ts_idle s) (ts_sleepers s) (ts_zombies s) (ts_runqueue s) (ts_numthreads s) (ts_spl s) (ts_inint s) (ts_sems s) (ts_locks s) (ts_cvs s) (ts_procs s) (ts_table s) (ts_process_lock s) x.
End setters.

Definition t_set_inint (x : Z) (t : thread) : thread :=
  mkthread x (t_name t) (t_sleepaddr t) (t_stack t) (t_magic t) (t_pid t) (t_array_ptr t) (t_vmspace t) (t_cwd t) (t_kont t).
Definition t_set_sleepaddr (x : Z) (t : thread) : thread :=
  mkthread (t_inint t) (t_name t) x (t_stack t) (t_magic t) (t_pid t) (t_array_ptr t) (t_vmspace t) (t_cwd t) (t_kont t).
Definition t_set_stack (x : Z) (m : list Z) (t : thread) : thread :=
  mkthread (t_inint t) (t_name t) (t_sleepaddr t) x m (t_pid t) (t_array_ptr t) (t_vmspace t) (t_cwd t) (t_kont t).
Definition t_set_process (pid ptr : Z) (t : thread) : thread :=
  mkthread (t_inint t) (t_name t) (t_sleepaddr t) (t_stack t) (t_magic t) pid ptr (t_vmspace t) (t_cwd t) (t_kont t).
Definition t_set_vmspace (x : Z) (t : thread) : thread :=
  mkthread (t_inint t) (t_name t) (t_sleepaddr t) (t_stack t) (t_magic t) (t_pid t) (t_array_ptr t) x (t_cwd t) (t_kont t).
Definition t_set_cwd (x : Z) (t : thread) : thread :=
  mkthread (t_inint t) (t_name t) (t_sleepaddr t) (t_stack t) (t_magic t) (t_pid t) (t_array_ptr t) (t_vmspace t) x (t_kont t).
Definition t_set_kont (x : option kont) (t : thread) : thread :=
  mkthread (t_inint t) (t_name t) (t_sleepaddr t) (t_stack t) (t_magic t) (t_pid t) (t_array_ptr t) (t_vmspace t) (t_cwd t) x.

Section thread.
Context {H : Type} `{!Kmem H, !Kenv H}.
Notation S := (ts H).

(** ** Access *)

Definition on_mem {A} (c : M H A) : M S A := zoom ts_heap set_heap c.
Definition on_sleepers {A} (c : M (H * array Z) A) : M S A :=
  zoom (λ s, (ts_heap s, ts_sleepers s)) (λ p s, set_heap p.1 (set_sleepers p.2 s)) c.
Definition on_zombies {A} (c : M (H * array Z) A) : M S A :=
  zoom (λ s, (ts_heap s, ts_zombies s)) (λ p s, set_heap p.1 (set_zombies p.2 s)) c.
Definition on_runqueue {A} (c : M (H * queue Z) A) : M S A :=
  zoom (λ s, (ts_heap s, ts_runqueue s)) (λ p s, set_heap p.1 (set_runqueue p.2 s)) c.

(** A pointer that leads to no object is a wild access. *)
Definition opt {A} (o : option A) : M S A := match o with Some a => ret a | None => panic end.
Definition the_thread (t : Z) : M S thread := let! s := get in opt (ts_threads s !! t).
Definition upd_thread (t : Z) (f : thread → thread) : M S unit :=
  let! th := the_thread t in modify (λ s, set_threads (<[t := f th]> (ts_threads s)) s).
Definition the_sem (p : Z) : M S semaphore := let! s := get in opt (ts_sems s !! p).
Definition put_sem (p : Z) (x : semaphore) : M S unit := modify (λ s, set_sems (<[p := x]> (ts_sems s)) s).
Definition the_lock (p : Z) : M S lock := let! s := get in opt (ts_locks s !! p).
Definition put_lock (p : Z) (x : lock) : M S unit := modify (λ s, set_locks (<[p := x]> (ts_locks s)) s).
Definition the_cv (p : Z) : M S cv := let! s := get in opt (ts_cvs s !! p).
Definition the_proc (p : Z) : M S process := let! s := get in opt (ts_procs s !! p).
Definition put_proc (p : Z) (x : process) : M S unit := modify (λ s, set_procs (<[p := x]> (ts_procs s)) s).

(** ** Interrupt level (arch/mips/mips/spl.c) *)

Definition splx (newspl : Z) : M S Z :=
  let! s := get in
  put (set_spl newspl s) ;;;
  ret (ts_spl s).
Definition splhigh : M S Z := splx SPL_HIGH.
Definition spl0 : M S Z := splx 0.
Definition assert_spl : M S unit := let! s := get in kassert (ts_spl s >? 0).

(** ** The scheduler *)

Definition make_runnable (t : Z) : M S unit :=
  assert_spl ;;;
  on_runqueue (q_addtail t).
Definition scheduler_preallocate (nthreads : Z) : M S unit :=
  assert_spl ;;;
  on_runqueue (q_preallocate nthreads).
(** [None]: nothing is ready, [cpu_idle] waits for an interrupt. *)
Definition scheduler : M S (option Z) :=
  assert_spl ;;;
  let! s := get in
  if q_empty (ts_runqueue s) then ret None
  else
    let! o := on_runqueue q_remhead in
    let! t := opt o in
    ret (Some t).

(** ** Switching *)

(** The magic number at the end of the stack. *)
Definition check_magic (t : Z) : M S unit :=
  if t =? 0 then ret tt
  else
    let! th := the_thread t in
    if t_stack th =? 0 then ret tt
    else kassert (bool_decide (t_magic th = magic)).

Definition md_switch (old nu : Z) : M S unit :=
  if old =? nu then ret tt
  else
    let! s := get in
    upd_thread old (t_set_inint (ts_inint s)) ;;;
    let! th := the_thread nu in
    modify (set_inint (t_inint th)).

(** [mi_switch] from the call of the scheduler to [md_switch]; it is entered
    again after every interrupt while nothing is ready. *)
Definition dispatch : M S unit :=
  let! old := gets ts_idle in
  let! n := scheduler in
  match n with
  | None => ret tt
  | Some next =>
      modify (set_idle 0) ;;;
      modify (set_cur next) ;;;
      md_switch old next
  end.

Definition is_ok (r : errno + unit) : bool := match r with inl _ => false | inr _ => true end.

(** [true]: the thread is off the processor and goes on at [k] later. *)
Definition mi_switch (nextstate : threadstate_t) (k : kont) : M S bool :=
  assert_spl ;;;
  let! cur := gets ts_cur in
  check_magic cur ;;;
  if cur =? 0 then ret false
  else
    modify (set_cur 0) ;;;
    upd_thread cur (t_set_kont (Some k)) ;;;
    let! result :=
      match nextstate with
      | S_READY => try (make_runnable cur)
      | S_SLEEP => try (on_sleepers (array_add cur))
      | S_ZOMB => try (on_zombies (array_add cur))
      | S_RUN => panic
      end in
    kassert (is_ok result) ;;;
    modify (set_idle cur) ;;;
    dispatch ;;;
    ret true.

Definition thread_destroy (t : Z) : M S unit :=
  let! cur := gets ts_cur in
  kassert (negb (t =? cur)) ;;;
  let! th := the_thread t in
  kassert (t_vmspace th =? 0) ;;;
  kassert (t_cwd th =? 0) ;;;
  when (negb (t_stack th =? 0)) (on_mem (kfree (t_stack th))) ;;;
  on_mem (kfree (t_name th)) ;;;
  on_mem (kfree t) ;;;
  modify (λ s, set_threads (delete t (ts_threads s)) s).

Definition guy (a : array Z) (i : Z) : M S Z :=
  let! o := opt (array_getguy a i) in opt o.

Definition exorcise : M S unit :=
  assert_spl ;;;
  let! z := gets ts_zombies in
  for_range (Z.to_nat (array_getnum z)) 0 (λ i,
    let! t := guy z i in
    let! cur := gets ts_cur in
    kassert (negb (t =? cur)) ;;;
    thread_destroy t) ;;;
  let! result := try (on_zombies (array_setsize 0)) in
  kassert (is_ok result).

(** The end of [mi_switch], for a thread that was switched away before. *)
Definition activate_cur : M S unit :=
  let! cur := gets ts_cur in
  let! th := the_thread cur in
  when (negb (t_vmspace th =? 0)) (on_mem (as_activate (t_vmspace th))).
Definition switched_back : M S unit := exorcise ;;; activate_cur.

Definition finish (v : Z) : M S (option Z) := ret (Some v).

Definition thread_yield : M S (option Z) :=
  let! spl := splhigh in
  let! s := get in
  kassert (negb (arr_self (ts_sleepers s) =? 0)) ;;;
  let! away := mi_switch S_READY (K_yield spl) in
  if away then ret None else splx spl ;;; finish 0.

(** Never returns to the thread at once: [curthread] is not NULL. *)
Definition thread_sleep (addr : Z) (k : kont) : M S (option Z) :=
  let! s := get in
  kassert (ts_inint s =? 0) ;;;
  upd_thread (ts_cur s) (t_set_sleepaddr addr) ;;;
  mi_switch S_SLEEP k ;;;
  ret None.

(** The loops over the sleepers.  Every round takes one thread off the list or
    goes on to the next index, so the length of the list is enough fuel. *)
Fixpoint wakeup_loop (single : bool) (fuel : nat) (addr i : Z) : M S unit :=
  let! s := get in
  if negb (i <? array_getnum (ts_sleepers s)) then ret tt
  else match fuel with
  | O => hang
  | Datatypes.S fuel' =>
      let! t := guy (ts_sleepers s) i in
      let! th := the_thread t in
      if t_sleepaddr th =? addr then
        let! _ := on_sleepers (array_remove i) in
        let! result := try (make_runnable t) in
        kassert (is_ok result) ;;;
        if single then ret tt else wakeup_loop single fuel' addr i
      else wakeup_loop single fuel' addr (i + 1)
  end.
Definition wakeup (single : bool) (addr : Z) : M S unit :=
  assert_spl ;;;
  let! s := get in
  wakeup_loop single (Z.to_nat (array_getnum (ts_sleepers s))) addr 0.
Definition thread_wakeup (addr : Z) : M S unit := wakeup false addr.
Definition wakeup_single_thread (addr : Z) : M S unit := wakeup true addr.
Definition thread_single_wakeup (addr : Z) : M S unit := wakeup true addr.

Fixpoint has_sleeper (n : nat) (addr i : Z) : M S bool :=
  match n with
  | O => ret false
  | Datatypes.S n' =>
      let! s := get in
      let! t := guy (ts_sleepers s) i in
      let! th := the_thread t in
      if t_sleepaddr th =? addr then ret true else has_sleeper n' addr (i + 1)
  end.
Definition thread_hassleepers (addr : Z) : M S bool :=
  assert_spl ;;;
  let! s := get in
  has_sleeper (Z.to_nat (array_getnum (ts_sleepers s))) addr 0.

(** ** Semaphores *)

Definition kstrdup (strlen : Z) : M S Z := on_mem (kmalloc (strlen + 1)).

Definition sem_create (namelen initial_count : Z) : M S Z :=
  kassert (initial_count >=? 0) ;;;
  let! sem := on_mem (kmalloc sizeof_semaphore) in
  if sem =? 0 then ret 0
  else
    let! n := kstrdup namelen in
    if n =? 0 then on_mem (kfree sem) ;;; ret 0
    else put_sem sem (mksem n initial_count) ;;; ret sem.

Definition sem_destroy (sem : Z) : M S unit :=
  kassert (negb (sem =? 0)) ;;;
  let! spl := splhigh in
  let! b := thread_hassleepers sem in
  kassert (negb b) ;;;
  splx spl ;;;
  let! x := the_sem sem in
  on_mem (kfree (sem_name x)) ;;;
  on_mem (kfree sem) ;;;
  modify (λ s, set_sems (delete sem (ts_sems s)) s).

(** [P] from the test of the loop on. *)
Definition P_loop (sem spl : Z) : M S (option Z) :=
  let! x := the_sem sem in
  if sem_count x =? 0 then thread_sleep sem (K_P sem spl)
  else
    kassert (sem_count x >? 0) ;;;
    put_sem sem (mksem (sem_name x) (sem_count x - 1)) ;;;
    splx spl ;;;
    finish 0.
Definition P (sem : Z) : M S (option Z) :=
  kassert (negb (sem =? 0)) ;;;
  let! s := get in
  kassert (ts_inint s =? 0) ;;;
  let! spl := splhigh in
  P_loop sem spl.

Definition V (sem : Z) : M S unit :=
  kassert (negb (sem =? 0)) ;;;
  let! spl := splhigh in
  let! x := the_sem sem in
  let count := i32 (sem_count x + 1) in
  put_sem sem (mksem (sem_name x) count) ;;;
  kassert (count >? 0) ;;;
  thread_wakeup sem ;;;
  splx spl ;;;
  ret tt.

(** ** Locks and condition variables *)

(** [held] and [pointer] are whatever the block contains. *)
Definition lock_create (namelen : Z) : M S Z :=
  let! p := on_mem (kmalloc sizeof_lock) in
  if p =? 0 then ret 0
  else
    let! n := kstrdup namelen in
    if n =? 0 then on_mem (kfree p) ;;; ret 0
    else
      let! h := gets ts_heap in
      put_lock p (mklock n (kword (p + 4) h) (kword (p + 12) h)) ;;;
      ret p.
Definition lock_destroy (p : Z) : M S unit :=
  kassert (negb (p =? 0)) ;;;
  let! l := the_lock p in
  on_mem (kfree (lk_name l)) ;;;
  on_mem (kfree p) ;;;
  modify (λ s, set_locks (delete p (ts_locks s)) s).

Definition lock_do_i_hold (p : Z) : M S bool :=
  let! l := the_lock p in
  let! cur := gets ts_cur in
  ret (lk_pointer l =? cur).

Definition lock_release (p : Z) : M S unit :=
  kassert (negb (p =? 0)) ;;;
  let! spl := splhigh in
  let! l := the_lock p in
  put_lock p (mklock (lk_name l) 0 (lk_pointer l)) ;;;
  thread_wakeup p ;;;
  let! l := the_lock p in
  put_lock p (mklock (lk_name l) (lk_held l) 0) ;;;
  splx spl ;;;
  ret tt.

Definition cv_create (namelen : Z) : M S Z :=
  let! p := on_mem (kmalloc sizeof_cv) in
  if p =? 0 then ret 0
  else
    let! n := kstrdup namelen in
    if n =? 0 then on_mem (kfree p) ;;; ret 0
    else modify (λ s, set_cvs (<[p := mkcv n]> (ts_cvs s)) s) ;;; ret p.
Definition cv_destroy (p : Z) : M S unit :=
  kassert (negb (p =? 0)) ;;;
  let! c := the_cv p in
  on_mem (kfree (cv_name c)) ;;;
  on_mem (kfree p) ;;;
  modify (λ s, set_cvs (delete p (ts_cvs s)) s).

(** [cv_wait] up to its sleep; afterwards it takes the lock again. *)
Definition cv_wait (cv lock : Z) (c : cont) : M S (option Z) :=
  kassert (negb (cv =? 0)) ;;;
  kassert (negb (lock =? 0)) ;;;
  let! b := lock_do_i_hold lock in
  kassert b ;;;
  let! spl := splhigh in
  lock_release lock ;;;
  thread_sleep cv (K_cv cv lock spl c).
Definition cv_signal (cv lock : Z) : M S unit :=
  kassert (negb (cv =? 0)) ;;;
  kassert (negb (lock =? 0)) ;;;
  let! spl := splhigh in
  wakeup_single_thread cv ;;;
  splx spl ;;;
  ret tt.
Definition cv_broadcast (cv lock : Z) : M S unit :=
  kassert (negb (cv =? 0)) ;;;
  kassert (negb (lock =? 0)) ;;;
  let! spl := splhigh in
  thread_wakeup cv ;;;
  splx spl ;;;
  ret tt.

(** ** Processes *)

Definition table_get (i : Z) : M S Z := let! s := get in opt (zget (ts_table s) i).
Definition table_set (i x : Z) : M S unit :=
  let! s := get in
  if (0 <=? i) && (i <? zlen (ts_table s)) then put (set_table (zset (ts_table s) i x) s) else panic.

(** The loop of [next_pid] over the entries from [i] on. *)
Fixpoint free_slot (l : list Z) (i : Z) : option Z :=
  match l with
  | [] => None
  | p :: l' => if p =? 0 then Some i else free_slot l' (i + 1)
  end.
(** An empty table is the table that is NULL. *)
Definition next_pid : M S Z :=
  let! s := get in
  ret (default (-1) (free_slot (ztake (MAXPID - MINPID) (zdrop MINPID (ts_table s))) MINPID)).

(** The loop only finds the entry with index [pid]. *)
Definition get_process (pid : Z) : M S Z :=
  if (pid >? MAXPID) || (pid <? MINPID) then ret 0 else table_get pid.

Definition free_thread (t : Z) : M S unit :=
  let! th := the_thread t in
  on_mem (kfree (t_name th)) ;;;
  on_mem (kfree t) ;;;
  modify (λ s, set_threads (delete t (ts_threads s)) s).
Definition free_process (p : Z) : M S unit :=
  on_mem (kfree p) ;;;
  modify (λ s, set_procs (delete p (ts_procs s)) s).

(** A process structure nothing has been stored in yet. *)
Definition raw_process (p : Z) (h : H) : process :=
  mkprocess (kword p h) (kword (p + 4) h) (kword (p + 8) h) (kword (p + 12) h) (kword (p + 16) h) (kword (p + 20) h).
Definition proc_set_cv (c : Z) (p : process) : process :=
  mkprocess (p_status p) (p_exitcode p) (p_pid p) (p_ppid p) (p_process_ptr p) c.

(** Up to the lock: the structure and its condition variable (["array_cv"] has
    8 characters); 0 when memory ran out, the thread having been freed. *)
Definition new_process (t : Z) : M S Z :=
  let! temp := on_mem (kmalloc sizeof_process) in
  if temp =? 0 then free_thread t ;;; ret 0
  else
    let! h := gets ts_heap in
    put_proc temp (raw_process temp h) ;;;
    let! c := cv_create 8 in
    let! p := the_proc temp in
    put_proc temp (proc_set_cv c p) ;;;
    if c =? 0 then free_thread t ;;; free_process temp ;;; ret 0
    else ret temp.
(** Entering thread [t] and process [temp] as number [pid], child of [ppid]. *)
Definition enter_process (t temp pid ppid : Z) : M S unit :=
  let! p := the_proc temp in
  put_proc temp (mkprocess PROCESS_RUNNING 0 pid ppid t (p_array_cv p)) ;;;
  upd_thread t (t_set_process pid temp) ;;;
  table_set pid temp.

(** ["process_lock"] has 12 characters.  [false] is the return of NULL. *)
Definition init_process (t : Z) : M S bool :=
  let! s := get in
  let! ok :=
    if ts_process_lock s =? 0 then
      let! l := lock_create 12 in
      modify (set_process_lock l) ;;;
      if l =? 0 then free_thread t ;;; ret false else ret true
    else ret true in
  if negb ok then ret false
  else
    let! temp := new_process t in
    if temp =? 0 then ret false
    else enter_process t temp MINPID (MINPID - 1) ;;; ret true.

(** [child_process] once it has the lock; [false] is the return of NULL. *)
Definition child_locked (t temp : Z) : M S bool :=
  let! pid := next_pid in
  let! p := the_proc temp in
  put_proc temp (mkprocess (p_status p) (p_exitcode p) pid (p_ppid p) (p_process_ptr p) (p_array_cv p)) ;;;
  if pid =? -1 then
    cv_destroy (p_array_cv p) ;;;
    free_thread t ;;;
    free_process temp ;;;
    ret false
  else
    let! cur := gets ts_cur in
    let! th := the_thread cur in
    enter_process t temp pid (t_pid th) ;;;
    let! lk := gets ts_process_lock in
    lock_release lk ;;;
    ret true.

(** ** Creating threads *)

Definition new_thread (namelen : Z) : M S Z :=
  let! t := on_mem (kmalloc sizeof_thread) in
  if t =? 0 then ret 0
  else
    let! n := kstrdup namelen in
    if n =? 0 then on_mem (kfree t) ;;; ret 0
    else
      modify (λ s, set_threads (<[t := mkthread 0 n 0 0 [] 0 0 0 0 None]> (ts_threads s)) s) ;;;
      ret t.

(** The end of [thread_fork] when something failed. *)
Definition fork_fail {A} (t spl : Z) (e : errno) : M S A :=
  splx spl ;;;
  let! th := the_thread t in
  when (negb (t_cwd th =? 0)) (on_mem (vop_decref (t_cwd th))) ;;;
  on_mem (kfree (t_stack th)) ;;;
  free_thread t ;;;
  fail e.

(** The part of [thread_fork] with interrupts off. *)
Definition fork_prepare (t : Z) : M S unit :=
  let! s := get in
  let n := i32 (ts_numthreads s + 1) in
  on_sleepers (array_preallocate n) ;;;
  on_zombies (array_preallocate n) ;;;
  scheduler_preallocate n ;;;
  make_runnable t ;;;
  modify (set_numthreads n).

(** [thread_fork] from the stack on. *)
Definition fork_rest (t : Z) : M S (option Z) :=
  let! stack := on_mem (kmalloc STACK_SIZE) in
  upd_thread t (t_set_stack stack []) ;;;
  if stack =? 0 then free_thread t ;;; fail ENOMEM
  else
    upd_thread t (t_set_stack stack magic) ;;;
    let! cur := gets ts_cur in
    let! th := the_thread cur in
    when (negb (t_cwd th =? 0)) (
      on_mem (vop_incref (t_cwd th)) ;;;
      upd_thread t (t_set_cwd (t_cwd th))) ;;;
    upd_thread t (t_set_kont (Some K_start)) ;;;
    let! spl := splhigh in
    let! r := try (fork_prepare t) in
    match r with
    | inl e => fork_fail t spl e
    | inr _ => splx spl ;;; finish t
    end.

(** ** Exit *)

(** The loop that throws away the children that have stopped; [j] of them so
    far, and [n] has room for 20. *)
Fixpoint reap (fuel : nat) (parent i j : Z) : M S unit :=
  match fuel with
  | O => ret tt
  | Datatypes.S fuel' =>
      let! p := table_get i in
      if p =? 0 then reap fuel' parent (i + 1) j
      else
        let! pr := the_proc p in
        if (p_ppid pr =? parent) && (p_status pr =? PROCESS_STOP) then
          kassert (j <? 20) ;;;
          cv_destroy (p_array_cv pr) ;;;
          free_process p ;;;
          table_set i 0 ;;;
          reap fuel' parent (i + 1) (j + 1)
        else reap fuel' parent (i + 1) j
  end.

Definition thread_exit : M S (option Z) :=
  let! cur := gets ts_cur in
  let! th := the_thread cur in
  kassert ((t_pid th >=? MINPID) && (t_pid th <=? MAXPID)) ;;;
  reap (Z.to_nat (MAXPID - MINPID + 1)) (t_pid th) MINPID 0 ;;;
  let! lk := gets ts_process_lock in
  lock_release lk ;;;
  check_magic cur ;;;
  splhigh ;;;
  let! th := the_thread cur in
  when (negb (t_vmspace th =? 0)) (
    upd_thread cur (t_set_vmspace 0) ;;;
    on_mem (as_destroy (t_vmspace th))) ;;;
  when (negb (t_cwd th =? 0)) (
    on_mem (vop_decref (t_cwd th)) ;;;
    upd_thread cur (t_set_cwd 0)) ;;;
  let! s := get in
  kassert (ts_numthreads s >? 0) ;;;
  modify (set_numthreads (ts_numthreads s - 1)) ;;;
  mi_switch S_ZOMB K_zombie ;;;
  ret None.

(** ** Waiting for a process *)

(** The end of [sys_waitpid]; the result is what was stored in [*status]. *)
Definition waitpid_end (child status : Z) : M S (option Z) :=
  let! lk := gets ts_process_lock in
  lock_release lk ;;;
  the_proc child ;;;
  finish status.
Definition waitpid_status (child : Z) : M S (option Z) :=
  let! p := the_proc child in
  let! lk := gets ts_process_lock in
  lock_release lk ;;;
  waitpid_end child (p_exitcode p).
Definition waitpid_locked (child : Z) : M S (option Z) :=
  let! p := the_proc child in
  let! cur := gets ts_cur in
  let! th := the_thread cur in
  let! lk := gets ts_process_lock in
  if negb (p_ppid p =? t_pid th) then lock_release lk ;;; fail EINVAL
  else if p_status p =? PROCESS_STOP then waitpid_status child
  else cv_wait (p_array_cv p) lk (C_waited child).

(** ** Taking a lock, and what follows *)

Fixpoint after (c : cont) : M S (option Z) :=
  match c with
  | C_done => finish 0
  | C_child t temp =>
      let! ok := child_locked t temp in
      if ok then fork_rest t else fail ENOMEM
  | C_waitpid child => waitpid_locked child
  | C_waited child => waitpid_status child
  | C_exit =>
      let! cur := gets ts_cur in
      let! th := the_thread cur in
      let! p := the_proc (t_array_ptr th) in
      let! lk := gets ts_process_lock in
      cv_signal (p_array_cv p) lk ;;;
      thread_exit
  | C_cv spl c' => splx spl ;;; after c'
  end.

(** [lock_acquire] from the test of the loop on. *)
Definition acquire_loop (p spl : Z) (c : cont) : M S (option Z) :=
  let! l := the_lock p in
  if negb (lk_held l =? 0) then thread_sleep p (K_acquire p spl c)
  else
    let! cur := gets ts_cur in
    put_lock p (mklock (lk_name l) 1 cur) ;;;
    splx spl ;;;
    after c.
Definition lock_acquire (p : Z) (c : cont) : M S (option Z) :=
  kassert (negb (p =? 0)) ;;;
  let! b := lock_do_i_hold p in
  kassert (negb b) ;;;
  let! spl := splhigh in
  acquire_loop p spl c.

Definition thread_create (namelen : Z) (k : Z → M S (option Z)) : M S (option Z) :=
  let! t := new_thread namelen in
  if t =? 0 then fail ENOMEM
  else
    let! first := gets ts_first in
    if first =? 1 then
      let! ok := init_process t in
      if ok then k t else fail ENOMEM
    else
      let! temp := new_process t in
      if temp =? 0 then fail ENOMEM
      else
        let! lk := gets ts_process_lock in
        lock_acquire lk (C_child t temp).

Definition thread_fork (namelen : Z) : M S (option Z) := thread_create namelen fork_rest.

Definition sys_getpid : M S (option Z) :=
  let! cur := gets ts_cur in
  let! th := the_thread cur in
  finish (t_pid th).

Definition sys__exit (exitcode : Z) : M S (option Z) :=
  let! cur := gets ts_cur in
  let! th := the_thread cur in
  let! p := the_proc (t_array_ptr th) in
  put_proc (t_array_ptr th)
    (mkprocess PROCESS_STOP exitcode (p_pid p) (p_ppid p) (p_process_ptr p) (p_array_cv p)) ;;;
  let! lk := gets ts_process_lock in
  lock_acquire lk C_exit.

Definition sys_waitpid (pid status options : Z) : M S (option Z) :=
  if negb (options =? 0) then fail EINVAL
  else if status =? 0 then fail EFAULT
  else
    let! child := get_process pid in
    if child =? 0 then fail EFAULT
    else
      let! lk := gets ts_process_lock in
      lock_acquire lk (C_waitpid child).

(** ** Going on after a switch *)

Definition wake : M S unit := let! cur := gets ts_cur in upd_thread cur (t_set_sleepaddr 0).
Definition resume (k : kont) : M S (option Z) :=
  let! cur := gets ts_cur in
  upd_thread cur (t_set_kont None) ;;;
  match k with
  | K_start => activate_cur ;;; spl0 ;;; finish 0
  | K_yield spl => switched_back ;;; splx spl ;;; finish 0
  | K_P sem spl => switched_back ;;; wake ;;; P_loop sem spl
  | K_acquire lock spl c => switched_back ;;; wake ;;; acquire_loop lock spl c
  | K_cv _ lock spl c => switched_back ;;; wake ;;; lock_acquire lock (C_cv spl c)
  | K_zombie => switched_back ;;; panic
  end.

(** ** Start and end *)

Definition null_array : array Z := mkarray 0 0 0 0 [].
Definition null_queue : queue Z := mkqueue 0 0 0 0 0 [].

Definition scheduler_bootstrap : M S unit :=
  let! q := on_mem (q_create 32) in
  let! q := opt q in
  modify (set_runqueue q).

(** ["<boot/menu>"] has 11 characters. *)
Definition thread_bootstrap : M S (option Z) :=
  let! tab := on_mem (kmalloc ((MAXPID + 1) * 4)) in
  kassert (negb (tab =? 0)) ;;;
  let! h := gets ts_heap in
  modify (set_table (replicate (Z.to_nat MAXPID) 0 ++ [kword (tab + 4 * MAXPID) h])) ;;;
  let! a := on_mem array_create in
  let! a := opt a in
  modify (set_sleepers a) ;;;
  let! z := on_mem array_create in
  let! z := opt z in
  modify (set_zombies z) ;;;
  let! r := try (thread_create 11 finish) in
  match r with
  | inr (Some me) =>
      modify (set_first 0) ;;;
      modify (set_cur me) ;;;
      modify (set_numthreads 1) ;;;
      finish me
  | _ => panic
  end.

Definition thread_shutdown : M S unit :=
  let! s := get in
  on_mem (array_destroy (ts_sleepers s)) ;;;
  modify (set_sleepers null_array) ;;;
  on_mem (array_destroy (ts_zombies s)) ;;;
  modify (set_zombies null_array).

(** A queue is empty after as many removals as it has slots. *)
Fixpoint drop_all (fuel : nat) : M S unit :=
  let! s := get in
  if q_empty (ts_runqueue s) then ret tt
  else match fuel with
  | O => hang
  | Datatypes.S fuel' => let! o := on_runqueue q_remhead in opt o ;;; drop_all fuel'
  end.
Definition scheduler_killall : M S unit :=
  assert_spl ;;;
  let! s := get in
  drop_all (Z.to_nat (q_size (ts_runqueue s))).
Definition scheduler_shutdown : M S unit :=
  scheduler_killall ;;;
  assert_spl ;;;
  let! s := get in
  on_mem (q_destroy (ts_runqueue s)) ;;;
  modify (set_runqueue null_queue).
Definition thread_killall : M S unit :=
  assert_spl ;;;
  let! result := try (on_sleepers (array_setsize 0)) in
  kassert (is_ok result).
Definition thread_panic : M S unit := assert_spl ;;; thread_killall ;;; scheduler_killall.

End thread.
