(* ===== verification/ThreadSpec.v ===== *)
(** * Threads: who owns what, and where every thread is

    [owns] gives every heap block of the thread system its owner, so that no
    block is freed while something else still uses it and a new block is never
    one in use.  [tinv] adds the place of every thread and what the sleeping
    ones wait for. *)

From S2P Require Import Prelude Kmem KArray KQueue Vnode Thread.

(** ** Partial correctness

    [wlp c Q E s]: if [c] returns from [s], normally or with an error, then
    [Q] or [E] holds. *)

Definition wlp {S A} (c : M S A) (Q : A → S → Prop) (E : errno → S → Prop) (s : S) : Prop :=
  match c s with Ok a s' => Q a s' | Err e s' => E e s' | Panic | Hang => True end.

Section wlp.
Context {S : Type}.
Implicit Types (s : S).
Lemma wlp_wp {A} (c : M S A) Q E s : wp c Q E s → wlp c Q E s.
Proof. unfold wp, wlp. by destruct (c s). Qed.
Lemma wlp_bind {A B} (c : M S A) (f : A → M S B) Q E s :
  wlp c (λ a s', wlp (f a) Q E s') E s → wlp (bind c f) Q E s.
Proof. unfold wlp, bind. by destruct (c s). Qed.
Lemma wlp_mono {A} (c : M S A) (Q Q' : A → S → Prop) (E E' : errno → S → Prop) s :
  wlp c Q E s → (∀ a s', Q a s' → Q' a s') → (∀ e s', E e s' → E' e s') → wlp c Q' E' s.
Proof. unfold wlp. destruct (c s); naive_solver. Qed.
Lemma wlp_kassert b (Q : unit → S → Prop) E s : (b = true → Q tt s) → wlp (kassert b) Q E s.
Proof. unfold wlp, kassert. destruct b; naive_solver. Qed.
Lemma wlp_try {A} (c : M S A) Q E s :
  wlp c (λ a s', Q (inr a) s') (λ e s', Q (inl e) s') s → wlp (try c) Q E s.
Proof. unfold wlp, try. by destruct (c s). Qed.
Lemma wlp_zoom {T A} (prj : S → T) upd (c : M T A) Q E s :
  wlp c (λ a t, Q a (upd t s)) (λ e t, E e (upd t s)) (prj s) → wlp (zoom prj upd c) Q E s.
Proof. unfold wlp, zoom. by destruct (c (prj s)). Qed.
Lemma wlp_when b (c : M S unit) Q E s :
  (b = true → wlp c Q E s) → (b = false → Q tt s) → wlp (when b c) Q E s.
Proof. destruct b; naive_solver. Qed.
Lemma wlp_panic {A} (Q : A → S → Prop) E s : wlp panic Q E s.
Proof. done. Qed.
Lemma wlp_for_range (I : Z → S → Prop) E n lo body s :
  I lo s → (∀ i s', lo ≤ i < lo + Z.of_nat n → I i s' → wlp (body i) (λ _ s'', I (i + 1) s'') E s') →
  wlp (for_range n lo body) (λ _ s', I (lo + Z.of_nat n) s') E s.
Proof.
  revert lo s. induction n as [|n IH]; intros lo s Hlo Hbody; simpl; [by rewrite Z.add_0_r|].
  apply wlp_bind. eapply wlp_mono; [apply Hbody; [lia|done]| |done].
  intros [] s1 Hs1. replace (lo + Z.of_nat (Datatypes.S n)) with (lo + 1 + Z.of_nat n) by lia.
  apply IH; [done|]. intros i s2 Hi. apply Hbody. lia.
Qed.
Lemma wlp_and {A} (c : M S A) (Q Q' : A → S → Prop) (E E' : errno → S → Prop) s :
  wlp c Q E s → wlp c Q' E' s → wlp c (λ a s', Q a s' ∧ Q' a s') (λ e s', E e s' ∧ E' e s') s.
Proof. unfold wlp. by destruct (c s). Qed.
End wlp.

Ltac wlp_bind := apply wlp_bind.
Tactic Notation "wlp_use" uconstr(H) := eapply wlp_mono; [eapply H|..].

(** ** Owners *)

Inductive block :=
  | B_thread (t : Z) | B_name (t : Z) | B_stack (t : Z)
  | B_cv (c : Z) | B_cvname (c : Z) | B_proc (p : Z)
  | B_sem (p : Z) | B_semname (p : Z) | B_lock (p : Z) | B_lockname (p : Z)
  | B_arr (zombies : bool) | B_arrv (zombies : bool) | B_queue | B_queuev.
#[global] Instance block_eq_dec : EqDecision block.
Proof. solve_decision. Defined.

Section own.
Context {H : Type} `{!Kmem H, !KmemOk H, !Kenv H}.
Notation S := (ts H).
Implicit Types (s : S) (own : gmap Z block).

Definition arr_owned (z : bool) (a : array Z) own : Prop :=
  own !! arr_self a = Some (B_arr z) ∧ (arr_v a ≠ 0 → own !! arr_v a = Some (B_arrv z)).
Definition q_owned (q : queue Z) own : Prop :=
  own !! q_self q = Some B_queue ∧ own !! q_dptr q = Some B_queuev.
Definition thread_owned own (t : Z) (th : thread) : Prop :=
  own !! t = Some (B_thread t) ∧ own !! t_name th = Some (B_name t) ∧
  (t_stack th ≠ 0 → own !! t_stack th = Some (B_stack t)).

Record owns s own : Prop := {
  ow_kinv : kinv (ts_heap s);
  ow_live : ∀ p, is_Some (own !! p) → is_Some (klive (ts_heap s) !! p);
  ow_thread : map_Forall (thread_owned own) (ts_threads s);
  ow_cv : map_Forall (λ c x, own !! c = Some (B_cv c) ∧ own !! cv_name x = Some (B_cvname c)) (ts_cvs s);
  ow_proc : map_Forall (λ p _, own !! p = Some (B_proc p)) (ts_procs s);
  ow_sem : map_Forall (λ p x, own !! p = Some (B_sem p) ∧ own !! sem_name x = Some (B_semname p)) (ts_sems s);
  ow_lock : map_Forall (λ p x, own !! p = Some (B_lock p) ∧ own !! lk_name x = Some (B_lockname p)) (ts_locks s);
  ow_sl : array_ok (ts_heap s, ts_sleepers s) ∧ arr_owned false (ts_sleepers s) own;
  ow_zo : array_ok (ts_heap s, ts_zombies s) ∧ arr_owned true (ts_zombies s) own;
  ow_rq : q_ok (ts_heap s, ts_runqueue s) ∧ q_owned (ts_runqueue s) own;
}.

(** ** The heap *)

(** A heap that still has the blocks of [own]. *)
Definition keeps own (h h' : H) : Prop :=
  kinv h' ∧ ∀ p, is_Some (own !! p) → klive h' !! p = klive h !! p.

Lemma array_ok_keeps own h h' z (a : array Z) :
  array_ok (h, a) → arr_owned z a own → keeps own h h' → array_ok (h', a).
Proof.
  intros (Hk & Hwf & Hs & Hl & Hv) [Ho Hov] [Hk' Heq]. split; [done|]. split; [done|].
  unfold array_owns in *. simpl in *. rewrite Heq by eauto. split; [done|]. split; [done|].
  intros Hne. rewrite Heq by eauto. auto.
Qed.
Lemma q_ok_keeps own h h' (q : queue Z) :
  q_ok (h, q) → q_owned q own → keeps own h h' → q_ok (h', q).
Proof.
  intros (Hk & Hwf & Hs & Hl & Hne & Hv) [Ho Hov] [Hk' Heq]. split; [done|]. split; [done|].
  unfold q_owns in *. simpl in *. rewrite !Heq by eauto. done.
Qed.
Lemma owns_heap s own h' : owns s own → keeps own (ts_heap s) h' → owns (set_heap h' s) own.
Proof.
  intros [] Hkeep. pose proof Hkeep as [Hk Heq]. split; simpl; try done.
  - intros p Hp. rewrite Heq by done. auto.
  - destruct ow_sl0. split; [by eapply array_ok_keeps|done].
  - destruct ow_zo0. split; [by eapply array_ok_keeps|done].
  - destruct ow_rq0. split; [by eapply q_ok_keeps|done].
Qed.

Lemma owns_more s own own' :
  owns s own → own ⊆ own' → (∀ p, is_Some (own' !! p) → is_Some (klive (ts_heap s) !! p)) → owns s own'.
Proof.
  intros [] Hsub Hl. assert (Hw : ∀ p b, own !! p = Some b → own' !! p = Some b) by (intros; by eapply lookup_weaken).
  split; try done.
  - intros t th Ht. destruct (ow_thread0 t th Ht) as (? & ? & ?). split; [auto|]. split; [auto|]. auto.
  - intros c x Hc. destruct (ow_cv0 c x Hc). auto.
  - intros p x Hp. apply Hw. by eapply ow_proc0.
  - intros c x Hc. destruct (ow_sem0 c x Hc). auto.
  - intros c x Hc. destruct (ow_lock0 c x Hc). auto.
  - destruct ow_sl0 as [? [? ?]]. split; [done|]. split; auto.
  - destruct ow_zo0 as [? [? ?]]. split; [done|]. split; auto.
  - destruct ow_rq0 as [? [? ?]]. split; [done|]. split; auto.
Qed.

Lemma kmalloc_own s own sz (Q : Z → S → Prop) E :
  owns s own → 0 ≤ sz ≤ 4294963200 →
  (∀ h', owns (set_heap h' s) own → Q 0 (set_heap h' s)) →
  (∀ p h', p ≠ 0 → own !! p = None → (∀ b, owns (set_heap h' s) (<[p := b]> own)) → Q p (set_heap h' s)) →
  wlp (on_mem (kmalloc sz)) Q E s.
Proof.
  intros Ho Hsz H0 H1. apply wlp_zoom, wlp_wp. wp_use kmalloc_spec; [apply Ho|done| |done].
  intros p h' (Hk & [[-> Hl]|(u & Hnz & Hn & _ & Hl)]).
  - apply H0. apply owns_heap; [done|]. split; [done|]. intros p Hp. by rewrite Hl.
  - assert (Hnone : own !! p = None).
    { apply eq_None_not_Some. intros Hp. apply (ow_live _ _ Ho) in Hp. rewrite Hn in Hp. by apply is_Some_None in Hp. }
    apply H1; [done|done|]. intros b. eapply owns_more; [apply owns_heap; [done|]|by apply insert_subseteq|].
    + split; [done|]. intros q Hq. rewrite Hl, lookup_insert_ne; [done|]. intros ->. by destruct Hq; congruence.
    + intros q Hq. simpl. rewrite Hl. destruct (decide (p = q)) as [->|Hne]; [by rewrite lookup_insert_eq|].
      rewrite lookup_insert_ne in Hq by done. rewrite lookup_insert_ne by done. by apply (ow_live _ _ Ho).
Qed.

(** ** Letting go of blocks *)

Definition without (D : block → bool) own : gmap Z block := filter (λ kv, D kv.2 = false) own.
Lemma lookup_without D own p b : without D own !! p = Some b ↔ own !! p = Some b ∧ D b = false.
Proof. unfold without. by rewrite map_lookup_filter_Some. Qed.

Lemma keeps_free own D h h' p b :
  kinv h' → klive h' = delete p (klive h) → own !! p = Some b → D b = true →
  keeps (without D own) h h'.
Proof.
  intros Hk Hl Hp Hb. split; [done|]. intros q [c [Hq Hc]%lookup_without]. rewrite Hl, lookup_delete_ne; [done|].
  intros ->. congruence.
Qed.
Lemma blocks_keep_trans own h1 h2 h3 : keeps own h1 h2 → keeps own h2 h3 → keeps own h1 h3.
Proof. intros [_ H12] [Hk H23]. split; [done|]. intros p Hp. by rewrite H23, H12. Qed.

Record dropped (D : block → bool) s s' : Prop := {
  dr_static : ∀ z, D (B_arr z) = false ∧ D (B_arrv z) = false;
  dr_queue : D B_queue = false ∧ D B_queuev = false;
  dr_threads : ts_threads s' ⊆ ts_threads s;
  dr_thread : ∀ t, is_Some (ts_threads s' !! t) → D (B_thread t) = false ∧ D (B_name t) = false ∧ D (B_stack t) = false;
  dr_cvs : ts_cvs s' ⊆ ts_cvs s;
  dr_cv : ∀ t, is_Some (ts_cvs s' !! t) → D (B_cv t) = false ∧ D (B_cvname t) = false;
  dr_procs : ts_procs s' ⊆ ts_procs s;
  dr_proc : ∀ t, is_Some (ts_procs s' !! t) → D (B_proc t) = false;
  dr_sync : ts_sems s' = ts_sems s ∧ ts_locks s' = ts_locks s;
  dr_syncb : ∀ p, D (B_sem p) = false ∧ D (B_semname p) = false ∧ D (B_lock p) = false ∧ D (B_lockname p) = false;
  dr_same : ts_sleepers s' = ts_sleepers s ∧ ts_zombies s' = ts_zombies s ∧ ts_runqueue s' = ts_runqueue s;
}.
Lemma owns_drop D s s' own :
  owns s own → dropped D s s' → keeps (without D own) (ts_heap s) (ts_heap s') → owns s' (without D own).
Proof.
  intros [] [] Hkeep. pose proof Hkeep as [Hk Heq]. destruct dr_same0 as (Hsl & Hzo & Hrq).
  destruct dr_sync0 as (Hsem & Hlock).
  assert (Hst : ∀ z a, arr_owned z a own → arr_owned z a (without D own)).
  { intros z a [? ?]. destruct (dr_static0 z). split; [by apply lookup_without|]. intros. apply lookup_without; auto. }
  assert (Hqu : ∀ q, q_owned q own → q_owned q (without D own)).
  { intros q [? ?]. destruct dr_queue0. split; by apply lookup_without. }
  split; rewrite ?Hsl, ?Hzo, ?Hrq, ?Hsem, ?Hlock; try done.
  - intros p Hp. rewrite Heq by done. destruct Hp as [b [Hp _]%lookup_without]. eauto.
  - intros t th Ht. destruct (dr_thread0 t) as (? & ? & ?); [eauto|].
    destruct (ow_thread0 t th) as (? & ? & ?); [by eapply lookup_weaken|].
    split; [by apply lookup_without|]. split; [by apply lookup_without|]. intros. apply lookup_without; auto.
  - intros c x Hc. destruct (dr_cv0 c) as (? & ?); [eauto|]. destruct (ow_cv0 c x); [by eapply lookup_weaken|].
    by split; apply lookup_without.
  - intros p x Hp. apply lookup_without. split; [|eauto]. eapply ow_proc0. by eapply lookup_weaken.
  - intros c x Hc. destruct (dr_syncb0 c) as (? & ? & _). destruct (ow_sem0 c x Hc). by split; apply lookup_without.
  - intros c x Hc. destruct (dr_syncb0 c) as (_ & _ & ? & ?). destruct (ow_lock0 c x Hc). by split; apply lookup_without.
  - destruct ow_sl0. split; [|auto]. eapply array_ok_keeps; [done|by apply Hst|done].
  - destruct ow_zo0. split; [|auto]. eapply array_ok_keeps; [done|by apply Hst|done].
  - destruct ow_rq0. split; [|auto]. eapply q_ok_keeps; [done|by apply Hqu|done].
Qed.

(** ** Arrays and the queue *)

Definition self_kept (a : array Z) : unit → H * array Z → Prop := λ _ w, arr_self w.2 = arr_self a.
Lemma on_heap_wlp {T A} (c : M H A) (Q : A → H * T → Prop) (E : errno → H * T → Prop) (w : H * T) :
  (∀ r h', Q r (h', w.2)) → (∀ e h', E e (h', w.2)) → wlp (on_heap c) Q E w.
Proof. intros HQ HE. apply wlp_zoom. unfold wlp. by destruct (c w.1). Qed.

Lemma preallocate_self n h a : wlp (array_preallocate n) (self_kept a) (λ _ w, arr_self w.2 = arr_self a) (h, a).
Proof.
  unfold array_preallocate. wlp_bind. unfold wlp at 1, gets. simpl. wlp_bind. apply wlp_kassert. intros _.
  destruct (grow_max 33 n (arr_max a)); [|done]. wlp_bind. apply on_heap_wlp; [|done]. intros r h1.
  destruct (r =? 0); [done|]. wlp_bind. apply wlp_when; [|done]. intros _. by apply on_heap_wlp.
Qed.
Lemma setsize_self n h a : wlp (array_setsize n) (self_kept a) (λ _ w, arr_self w.2 = arr_self a) (h, a).
Proof.
  unfold array_setsize. wlp_bind. unfold wlp at 1, gets. simpl. wlp_bind. apply wlp_kassert. intros _. wlp_bind.
  destruct (n >? arr_max a).
  { wlp_use preallocate_self; [|done]. intros [] w Hs. unfold wlp, on_obj, modify. simpl. done. }
  destruct ((n =? 0) && (arr_max a >? 16)); [|done].
  wlp_bind. apply wlp_kassert. intros _. wlp_bind. by apply on_heap_wlp.
Qed.
Lemma add_self x h a : wlp (array_add x) (self_kept a) (λ _ w, arr_self w.2 = arr_self a) (h, a).
Proof.
  unfold array_add. wlp_bind. unfold wlp at 1, gets. simpl. wlp_bind. wlp_use setsize_self; [|done].
  intros [] [h' a'] Hs. unfold arr_store. wlp_bind. unfold wlp at 1, gets. simpl.
  by destruct (_ && _).
Qed.
Lemma remove_self i h a : wlp (array_remove i) (self_kept a) (λ _ w, arr_self w.2 = arr_self a) (h, a).
Proof.
  unfold array_remove. wlp_bind. unfold wlp at 1, gets. simpl. wlp_bind. apply wlp_kassert. intros _.
  wlp_bind. by apply wlp_kassert.
Qed.


Definition q_kept {A} (w : H * queue Z) : A → H * queue Z → Prop := λ _ w', q_self w'.2 = q_self w.2.
Lemma q_copy_self addtail fuel data osize onw i (w0 w : H * queue Z) :
  (∀ x (v : H * queue Z), wlp (addtail x) (q_kept v) (q_kept v) v) → q_self w.2 = q_self w0.2 →
  wlp (q_copy addtail fuel data osize onw i) (q_kept w0) (q_kept w0) w.
Proof.
  intros Ha. revert i w. induction fuel as [|fuel IH]; intros i w Hw; simpl; (destruct (i =? onw); [done|]); [done|].
  destruct (zget data i) as [x|]; [|done]. wlp_bind. apply wlp_try. wlp_use Ha; [|done].
  intros [] w' Hw'. apply IH. unfold q_kept in Hw'. congruence.
Qed.
Lemma q_grow_self addtail n (w : H * queue Z) :
  (∀ x (v : H * queue Z), wlp (addtail x) (q_kept v) (q_kept v) v) → wlp (q_grow addtail n) (q_kept w) (q_kept w) w.
Proof.
  intros Ha. unfold q_grow. wlp_bind. unfold wlp at 1, gets. cbv zeta.
  destruct (grow_size 32 n (q_size w.2)); [|done]. wlp_bind. apply on_heap_wlp; [|done]. intros d h'.
  destruct (d =? 0); [done|]. wlp_bind. unfold wlp at 1, on_obj, modify. wlp_bind.
  wlp_use q_copy_self; [done| | |done]; [done|]. intros [] w' Hw'. by apply on_heap_wlp.
Qed.
Lemma addtail_self depth x (w : H * queue Z) : wlp (q_addtail_ depth x) (q_kept w) (q_kept w) w.
Proof.
  revert x w. induction depth as [|depth IH]; intros x w; cbn [q_addtail_];
    wlp_bind; unfold wlp at 1, gets; wlp_bind; apply wlp_kassert; intros _; wlp_bind; cbv zeta.
  all: destruct (_ =? q_nextread w.2); [try done|].
  2: wlp_use q_grow_self; [intros; apply IH| |done].
  2: intros [] w' Hw'.
  all: unfold wlp at 1, bind, gets; simpl; unfold wlp, on_obj, modify, panic; by destruct (_ && _).
Qed.
Lemma preallocate_q_self n (w : H * queue Z) : wlp (q_preallocate n) (q_kept w) (q_kept w) w.
Proof.
  unfold q_preallocate. wlp_bind. unfold wlp at 1, gets. wlp_bind. apply wlp_kassert. intros _.
  destruct (n >? q_size w.2); [|done]. apply q_grow_self. intros. apply addtail_self.
Qed.
Lemma remhead_self (w : H * queue Z) : wlp q_remhead (q_kept w) (q_kept w) w.
Proof.
  unfold q_remhead. wlp_bind. unfold wlp at 1, gets. wlp_bind. apply wlp_kassert. intros _.
  wlp_bind. apply wlp_kassert. intros _. by destruct (zget _ _).
Qed.

(** Moving a block [B v] of an object: [own'] has the new address in place of
    the old one. *)
Definition moved (old : block) own own' (h h' : H) : Prop :=
  kinv h' ∧ (∀ p, is_Some (own' !! p) → is_Some (klive h' !! p)) ∧
  ∀ p b, own !! p = Some b → b ≠ old → own' !! p = Some b.
Definition is_block (old b : block) : bool := bool_decide (b = old).
Definition move (old : block) (v : Z) own : gmap Z block :=
  if decide (v = 0) then without (is_block old) own else <[v := old]> (without (is_block old) own).

Lemma frame_lookup (m m' : gmap Z Z) self v v' p u :
  delete self (delete v' m') = delete self (delete v m) → p ≠ self → p ≠ v → m !! p = Some u →
  p ≠ v' ∧ m' !! p = Some u.
Proof.
  intros Hf Hs Hv Hp. assert (Hl : delete self (delete v m) !! p = Some u) by by rewrite !lookup_delete_ne.
  rewrite <- Hf, !lookup_delete_Some in Hl. destruct Hl as (_ & ? & ?). auto.
Qed.

(** An object with a structure [self] and a block [v], whose frame is kept. *)
Lemma moved_frame old selfb own h h' self v v' :
  (∀ p, is_Some (own !! p) → is_Some (klive h !! p)) → kinv h → kinv h' → old ≠ selfb →
  own !! self = Some selfb → (v ≠ 0 → own !! v = Some old) →
  is_Some (klive h' !! self) → (v' ≠ 0 → is_Some (klive h' !! v') ∧ v' ≠ self) →
  delete self (delete v' (klive h')) = delete self (delete v (klive h)) →
  moved old own (move old v' own) h h' ∧ (v' ≠ 0 → move old v' own !! v' = Some old) ∧
  ∀ p b, own !! p = Some b → b ≠ old → b ≠ selfb → klive h' !! p = klive h !! p.
Proof.
  intros Hl Hk Hk' Hne Hself Hv Hself' Hv' Hf.
  assert (Hpres : ∀ p b, own !! p = Some b → b ≠ old → p ≠ v' ∧ (b ≠ selfb → klive h' !! p = klive h !! p)).
  { intros p b Hp Hb. destruct (Hl p) as [u Hu]; [eauto|]. destruct (decide (p = self)) as [->|Hps].
    - split; [|congruence]. intros <-. destruct (decide (self = 0)) as [->|Hz]; [|by apply Hv' in Hz as [_ ?]].
      by rewrite klive_null in Hu.
    - assert (p ≠ v). { intros ->. destruct (decide (v = 0)) as [->|Hz]; [by rewrite klive_null in Hu|].
        apply Hv in Hz. congruence. }
      destruct (frame_lookup _ _ _ _ _ _ _ Hf Hps ltac:(done) Hu) as [? Hu']. split; [done|]. intros _. congruence. }
  assert (Hkeep : ∀ p b, own !! p = Some b → b ≠ old → move old v' own !! p = Some b).
  { intros p b Hp Hb. destruct (Hpres p b Hp Hb) as [Hpv _]. unfold move.
    assert (Hw : without (is_block old) own !! p = Some b).
    { apply lookup_without. split; [done|]. by apply bool_decide_eq_false_2. }
    case_decide; [done|]. by rewrite lookup_insert_ne. }
  split; [|split; [intros Hz; unfold move; by rewrite decide_False, lookup_insert_eq|intros p b Hp Hb ?; by eapply Hpres]].
  split; [done|]. split; [|done]. intros p [b Hp]. unfold move in Hp.
  assert (Hcase : (p = v' ∧ v' ≠ 0) ∨ own !! p = Some b ∧ b ≠ old).
  { case_decide; [right|destruct (decide (v' = p)) as [->|]; [by left|right; rewrite lookup_insert_ne in Hp by done]];
      apply lookup_without in Hp as [? ?%bool_decide_eq_false_1]; done. }
  destruct Hcase as [[-> Hz]|[Hp' Hb]]; [by apply Hv' in Hz as [? _]|].
  destruct (decide (b = selfb)) as [->|Hbs].
  - destruct (decide (p = self)) as [->|Hps]; [done|].
    destruct (Hl p) as [u Hu]; [eauto|]. assert (p ≠ v).
    { intros ->. destruct (decide (v = 0)) as [->|Hz]; [by rewrite klive_null in Hu|]. apply Hv in Hz. congruence. }
    by destruct (frame_lookup _ _ _ _ _ _ _ Hf Hps ltac:(done) Hu) as [_ ->].
  - destruct (Hpres p b Hp' Hb) as [_ ->]; [|done]. apply Hl. eauto.
Qed.

Definition intact (old selfb : block) own (h h' : H) : Prop :=
  ∀ p b, own !! p = Some b → b ≠ old → b ≠ selfb → klive h' !! p = klive h !! p.
Lemma intact_keeps old selfb own h h' :
  kinv h' → intact old selfb own h h' → keeps (without (λ b, is_block old b || is_block selfb b) own) h h'.
Proof.
  intros Hk Hi. split; [done|]. intros p [b [Hp Hb]%lookup_without].
  apply orb_false_iff in Hb as [?%bool_decide_eq_false_1 ?%bool_decide_eq_false_1]. by eapply Hi.
Qed.
Lemma lookup_intact old selfb own p b :
  own !! p = Some b → old ≠ b → selfb ≠ b → without (λ b, is_block old b || is_block selfb b) own !! p = Some b.
Proof.
  intros Hp ??. apply lookup_without. split; [done|]. unfold is_block. by rewrite !bool_decide_eq_false_2.
Qed.
Lemma other_array old selfb own own' h h' z (a : array Z) :
  array_ok (h, a) ∧ arr_owned z a own → moved old own own' h h' → intact old selfb own h h' →
  old ≠ B_arr z → old ≠ B_arrv z → selfb ≠ B_arr z → selfb ≠ B_arrv z →
  array_ok (h', a) ∧ arr_owned z a own'.
Proof.
  intros [Hok [Hs Hv]] (Hk & _ & Hm) Hi ????. split; [|split; [auto|auto]].
  apply (array_ok_keeps (without (λ b, is_block old b || is_block selfb b) own) h h' z); [done| |by apply intact_keeps].
  split; [|intros Hz]; apply lookup_intact; auto.
Qed.
Lemma other_queue old selfb own own' h h' (q : queue Z) :
  q_ok (h, q) ∧ q_owned q own → moved old own own' h h' → intact old selfb own h h' →
  old ≠ B_queue → old ≠ B_queuev → selfb ≠ B_queue → selfb ≠ B_queuev →
  q_ok (h', q) ∧ q_owned q own'.
Proof.
  intros [Hok [Hs Hv]] (Hk & _ & Hm) Hi ????. split; [|split; [auto|auto]].
  apply (q_ok_keeps (without (λ b, is_block old b || is_block selfb b) own) h h'); [done| |by apply intact_keeps].
  split; apply lookup_intact; auto.
Qed.

Definition static_block (b : block) : Prop :=
  match b with B_arr _ | B_arrv _ | B_queue | B_queuev => True | _ => False end.
Definition same_objects s s' : Prop :=
  ts_threads s' = ts_threads s ∧ ts_cvs s' = ts_cvs s ∧ ts_procs s' = ts_procs s ∧
  ts_sems s' = ts_sems s ∧ ts_locks s' = ts_locks s.
Lemma owns_moved old s s' own own' :
  owns s own → static_block old → moved old own own' (ts_heap s) (ts_heap s') → same_objects s s' →
  array_ok (ts_heap s', ts_sleepers s') ∧ arr_owned false (ts_sleepers s') own' →
  array_ok (ts_heap s', ts_zombies s') ∧ arr_owned true (ts_zombies s') own' →
  q_ok (ts_heap s', ts_runqueue s') ∧ q_owned (ts_runqueue s') own' → owns s' own'.
Proof.
  intros [] Hst (Hk & Hl & Hm) (Ht & Hc & Hp & Hsem & Hlock) ???.
  assert (Hd : ∀ b, ¬ static_block b → b ≠ old) by (intros b Hb He; by subst b).
  split; try done; rewrite ?Ht, ?Hc, ?Hp, ?Hsem, ?Hlock.
  - intros t th Hth. destruct (ow_thread0 t th Hth) as (? & ? & ?).
    split; [apply Hm; [done|apply Hd; auto]|]. split; [apply Hm; [done|apply Hd; auto]|].
    intros. apply Hm; [auto|apply Hd; auto].
  - intros c x Hx. destruct (ow_cv0 c x Hx). split; (apply Hm; [done|apply Hd; auto]).
  - intros p x Hx. apply Hm; [by eapply ow_proc0|apply Hd; auto].
  - intros c x Hx. destruct (ow_sem0 c x Hx). split; (apply Hm; [done|apply Hd; auto]).
  - intros c x Hx. destruct (ow_lock0 c x Hx). split; (apply Hm; [done|apply Hd; auto]).
Qed.

Lemma array_moved z own h h' (a a' : array Z) :
  (∀ p, is_Some (own !! p) → is_Some (klive h !! p)) → array_ok (h, a) ∧ arr_owned z a own → array_ok (h', a') →
  arr_self a' = arr_self a → arr_frame (h', a') = arr_frame (h, a) →
  ∃ own', moved (B_arrv z) own own' h h' ∧ intact (B_arrv z) (B_arr z) own h h' ∧ arr_owned z a' own'.
Proof.
  intros Hl [(Hk & Hwf & Hs & Hself & Hv) [Ho Hov]] (Hk' & Hwf' & Hs' & Hself' & Hv') He Hf.
  unfold arr_frame in Hf. simpl in *. rewrite He in *. exists (move (B_arrv z) (arr_v a') own).
  destruct (moved_frame (B_arrv z) (B_arr z) own h h' (arr_self a) (arr_v a) (arr_v a')) as (Hm & Hnew & Hi);
    [done..| |done|].
  { intros Hz. apply Hv' in Hz as (? & u & ? & _). eauto. }
  split; [done|]. split; [done|]. split; [|done]. rewrite He. apply Hm; [done|discriminate].
Qed.
Lemma queue_moved own h h' (q q' : queue Z) :
  (∀ p, is_Some (own !! p) → is_Some (klive h !! p)) → q_ok (h, q) ∧ q_owned q own → q_ok (h', q') →
  q_self q' = q_self q → q_frame (h', q') = q_frame (h, q) →
  ∃ own', moved B_queuev own own' h h' ∧ intact B_queuev B_queue own h h' ∧ q_owned q' own'.
Proof.
  intros Hl [(Hk & Hwf & Hs & Hself & Hne & Hv) [Ho Hov]] (Hk' & Hwf' & Hs' & Hself' & Hne' & Hv') He Hf.
  unfold q_frame in Hf. simpl in *. rewrite He in *. exists (move B_queuev (q_dptr q') own).
  destruct Hv' as (u & Hu & _).
  destruct (moved_frame B_queuev B_queue own h h' (q_self q) (q_dptr q) (q_dptr q')) as (Hm & Hnew & Hi);
    [done..| |done|].
  { eauto. }
  split; [done|]. split; [done|]. split; [rewrite He; apply Hm; [done|discriminate]|].
  apply Hnew. intros Hz. rewrite Hz, klive_null in Hu by done. done.
Qed.

Lemma owns_sleepers s own h' a' :
  owns s own → array_ok (h', a') → arr_self a' = arr_self (ts_sleepers s) →
  arr_frame (h', a') = arr_frame (ts_heap s, ts_sleepers s) →
  ∃ own', owns (set_heap h' (set_sleepers a' s)) own'.
Proof.
  intros Ho Ha Hs Hf. pose proof Ho as [].
  destruct (array_moved false own (ts_heap s) h' (ts_sleepers s) a') as (own' & Hm & Hi & Hao); [done..|].
  exists own'. apply (owns_moved (B_arrv false) s _ own); try done.
  - by eapply other_array.
  - by eapply other_queue.
Qed.
Lemma owns_zombies s own h' a' :
  owns s own → array_ok (h', a') → arr_self a' = arr_self (ts_zombies s) →
  arr_frame (h', a') = arr_frame (ts_heap s, ts_zombies s) →
  ∃ own', owns (set_heap h' (set_zombies a' s)) own'.
Proof.
  intros Ho Ha Hs Hf. pose proof Ho as [].
  destruct (array_moved true own (ts_heap s) h' (ts_zombies s) a') as (own' & Hm & Hi & Hao); [done..|].
  exists own'. apply (owns_moved (B_arrv true) s _ own); try done.
  - by eapply other_array.
  - by eapply other_queue.
Qed.
Lemma owns_runqueue s own h' q' :
  owns s own → q_ok (h', q') → q_self q' = q_self (ts_runqueue s) →
  q_frame (h', q') = q_frame (ts_heap s, ts_runqueue s) →
  ∃ own', owns (set_heap h' (set_runqueue q' s)) own'.
Proof.
  intros Ho Ha Hs Hf. pose proof Ho as [].
  destruct (queue_moved own (ts_heap s) h' (ts_runqueue s) q') as (own' & Hm & Hi & Hao); [done..|].
  exists own'. apply (owns_moved B_queuev s _ own); try done; by eapply other_array.
Qed.
End own.
