(* ===== verification/ThreadInv.v ===== *)
(** * Threads: the invariant

    Every thread is in exactly one place: running, in the run queue, among the
    sleepers or the zombies, or being made by another thread.  A sleeping thread
    sleeps on what it waits for, and what it waits for has not happened. *)

From S2P Require Import Prelude Kmem KArray KQueue Vnode Thread ThreadSpec.

(** ** Places *)

Inductive place := P_cur | P_run | P_sleep | P_zombie | P_new (maker : Z).
#[global] Instance place_eq_dec : EqDecision place.
Proof. solve_decision. Defined.

(** [l] is the list of the threads at [p]. *)
Definition placed (l : list Z) (pl : gmap Z place) (p : place) : Prop :=
  NoDup l ∧ ∀ t, t ∈ l ↔ pl !! t = Some p.

Lemma placed_add l pl p t : placed l pl p → pl !! t ≠ Some p → placed (l ++ [t]) (<[t := p]> pl) p.
Proof.
  intros [Hn Hl] Ht. split.
  - apply NoDup_app. split; [done|]. split; [|apply NoDup_singleton].
    intros x Hx ->%list_elem_of_singleton. by apply Ht, Hl.
  - intros x. rewrite elem_of_app, list_elem_of_singleton, lookup_insert_Some, Hl.
    destruct (decide (t = x)) as [->|]; naive_solver.
Qed.
Lemma placed_other l pl p p' t : placed l pl p → pl !! t ≠ Some p → p' ≠ p → placed l (<[t := p']> pl) p.
Proof.
  intros [Hn Hl] Ht Hp. split; [done|]. intros x. rewrite Hl, lookup_insert_Some.
  destruct (decide (t = x)) as [->|]; naive_solver.
Qed.
Lemma placed_delete l pl p p' i t : placed l pl p → l !! i = Some t → p' ≠ p → placed (delete i l) (<[t := p']> pl) p.
Proof.
  intros [Hn Hl] Hi Hp.
  assert (Hperm : l ≡ₚ t :: delete i l) by by apply delete_Permutation.
  assert (Hn' : NoDup (t :: delete i l)) by by rewrite <- Hperm.
  apply NoDup_cons in Hn' as [Hnin Hn']. split; [done|]. intros x.
  assert (Hx : x ∈ l ↔ x = t ∨ x ∈ delete i l) by (rewrite Hperm at 1; apply elem_of_cons).
  rewrite lookup_insert_Some, <- Hl, Hx.
  destruct (decide (t = x)) as [->|]; naive_solver.
Qed.
Lemma placed_tail l pl p p' t : placed (t :: l) pl p → p' ≠ p → placed l (<[t := p']> pl) p.
Proof. intros Hl Hp. by apply (placed_delete (t :: l) pl p p' 0 t). Qed.
Lemma placed_drop l pl p t : placed l pl p → pl !! t ≠ Some p → placed l (delete t pl) p.
Proof.
  intros [Hn Hl] Ht. split; [done|]. intros x. rewrite Hl, lookup_delete_Some. naive_solver.
Qed.
Lemma placed_in l pl p i t : placed l pl p → l !! i = Some t → pl !! t = Some p.
Proof. intros [_ Hl] Hi. apply Hl. by eapply list_elem_of_lookup_2. Qed.

(** ** What a thread waits for *)

Definition chan (k : kont) : option Z :=
  match k with
  | K_P sem _ => Some sem
  | K_acquire lock _ _ => Some lock
  | K_cv cv _ _ _ => Some cv
  | K_start | K_yield _ | K_zombie => None
  end.
Fixpoint child_of (c : cont) : option Z :=
  match c with C_child t _ => Some t | C_cv _ c' => child_of c' | _ => None end.
(** The thread being made by the thread that goes on at [k]. *)
Definition making (k : kont) : option Z :=
  match k with K_acquire _ _ c | K_cv _ _ _ c => child_of c | _ => None end.

(** The thread only waits to have the lock. *)
Fixpoint simple (c : cont) : bool :=
  match c with C_done => true | C_cv _ c' => simple c' | _ => false end.
(** The lock the thread that goes on at [k] takes first. *)
Definition lock_wanted (k : kont) : option (Z * cont) :=
  match k with K_acquire p _ c | K_cv _ p _ c => Some (p, c) | _ => None end.

Section inv.
Context {H : Type} `{!Kmem H, !KmemOk H, !Kenv H}.
Notation S := (ts H).
Implicit Types (s : S) (own : gmap Z block) (pl : gmap Z place) (ex : Z → Prop).

Definition waiting s (k : kont) : Prop :=
  match k with
  | K_P sem _ => ∃ x, ts_sems s !! sem = Some x ∧ sem_count x = 0
  | K_acquire lock _ _ => ∃ x, ts_locks s !! lock = Some x ∧ lk_held x ≠ 0
  | K_cv _ _ _ _ => True
  | K_start | K_yield _ | K_zombie => False
  end.

Definition run_list s : list Z := omap id (q_elems (ts_runqueue s)).
Definition sleep_list s : list Z := omap id (arr_contents (ts_sleepers s)).
Definition zombie_list s : list Z := omap id (arr_contents (ts_zombies s)).
Definition cur_list s : list Z := if ts_cur s =? 0 then [] else [ts_cur s].

(** Everything but plain waiting is done under the process lock [L]. *)
Definition kont_ok (L : Z) pl (t : Z) (k : kont) : Prop :=
  k ≠ K_zombie ∧ (∀ c, making k = Some c → pl !! c = Some (P_new t)) ∧
  ∀ p c, lock_wanted k = Some (p, c) → simple c = false → p = L.
(** Sleepers on an address in [ex] are about to be woken. *)
Definition thread_ok ex s pl (t : Z) (th : thread) : Prop :=
  t_vmspace th = 0 ∧ t_cwd th = 0 ∧
  match pl !! t with
  | Some P_sleep => ∃ k, t_kont th = Some k ∧ chan k = Some (t_sleepaddr th) ∧
      (ex (t_sleepaddr th) ∨ waiting s k) ∧ kont_ok (ts_process_lock s) pl t k
  | Some P_run => ∃ k, t_kont th = Some k ∧ kont_ok (ts_process_lock s) pl t k
  | Some P_cur => ∀ k, t_kont th = Some k → kont_ok (ts_process_lock s) pl t k
  | Some P_zombie => t_kont th = Some K_zombie
  | Some (P_new _) => t_kont th = None ∨ t_kont th = Some K_start
  | None => False
  end.

Record lists s : Prop := {
  li_run : q_elems (ts_runqueue s) = Some <$> run_list s;
  li_sleep : arr_contents (ts_sleepers s) = Some <$> sleep_list s;
  li_zombie : arr_contents (ts_zombies s) = Some <$> zombie_list s;
  li_qsize : q_size (ts_runqueue s) ≤ 134217728;
  li_total : zlen (run_list s) + zlen (sleep_list s) + zlen (zombie_list s) + zlen (cur_list s) ≤ 67108860;
}.
Record tinv ex s own pl : Prop := {
  ti_owns : owns s own;
  ti_lists : lists s;
  ti_run : placed (run_list s) pl P_run;
  ti_sleep : placed (sleep_list s) pl P_sleep;
  ti_zombie : placed (zombie_list s) pl P_zombie;
  ti_cur : placed (cur_list s) pl P_cur;
  ti_dom : dom pl ⊆ dom (ts_threads s);
  ti_thread : map_Forall (thread_ok ex s pl) (ts_threads s);
  ti_idle : ts_idle s ≠ 0 → ts_cur s = 0 ∧ is_Some (ts_threads s !! ts_idle s);
}.
Definition none : Z → Prop := λ _, False.

Lemma omap_Some (l : list Z) : omap id (Some <$> l) = l.
Proof. induction l as [|x l IH]; [done|]. simpl. by f_equal. Qed.

(** ** Steps that leave the places alone *)

Definition same_lists s s' : Prop :=
  ts_runqueue s' = ts_runqueue s ∧ ts_sleepers s' = ts_sleepers s ∧ ts_zombies s' = ts_zombies s ∧
  ts_cur s' = ts_cur s.
Lemma lists_same s s' : lists s → same_lists s s' → lists s'.
Proof.
  intros [] (Hr & Hs & Hz & Hc). unfold run_list, sleep_list, zombie_list, cur_list in *.
  split; unfold run_list, sleep_list, zombie_list, cur_list; by rewrite ?Hr, ?Hs, ?Hz, ?Hc.
Qed.
Lemma placed_same s s' pl :
  same_lists s s' →
  (placed (run_list s) pl P_run ↔ placed (run_list s') pl P_run) ∧
  (placed (sleep_list s) pl P_sleep ↔ placed (sleep_list s') pl P_sleep) ∧
  (placed (zombie_list s) pl P_zombie ↔ placed (zombie_list s') pl P_zombie) ∧
  (placed (cur_list s) pl P_cur ↔ placed (cur_list s') pl P_cur).
Proof.
  intros (Hr & Hs & Hz & Hc). unfold run_list, sleep_list, zombie_list, cur_list. by rewrite Hr, Hs, Hz, Hc.
Qed.

(** Only synchronisation objects, the interrupt level and tables change. *)
Lemma tinv_sync ex ex' s s' own own' pl :
  tinv ex s own pl → owns s' own' → same_lists s s' → ts_threads s' = ts_threads s → ts_idle s' = ts_idle s →
  ts_process_lock s' = ts_process_lock s →
  (∀ t th k, ts_threads s !! t = Some th → pl !! t = Some P_sleep → t_kont th = Some k →
     ex (t_sleepaddr th) ∨ waiting s k → chan k = Some (t_sleepaddr th) → ex' (t_sleepaddr th) ∨ waiting s' k) →
  tinv ex' s' own' pl.
Proof.
  intros [] Ho Hl Ht Hid Hpk Hw. destruct (placed_same s s' pl Hl) as (Hr & Hs & Hz & Hc).
  split; try done; rewrite ?Ht, ?Hid.
  - by eapply lists_same.
  - by apply Hr.
  - by apply Hs.
  - by apply Hz.
  - by apply Hc.
  - done.
  - intros t th Hth. destruct (ti_thread0 t th Hth) as (? & ? & Hp). split; [done|]. split; [done|].
    rewrite Hpk. destruct (pl !! t) as [[]|] eqn:Hpl; try done. destruct Hp as (k & Hk & Hch & Hwt & Hok).
    exists k. split; [done|]. split; [done|]. split; [by eapply Hw|done].
  - intros Hne. destruct (ti_idle0 Hne). by destruct Hl as (_ & _ & _ & ->).
Qed.

(** A change of one thread that keeps its blocks. *)
Definition same_blocks (th th' : thread) : Prop :=
  t_name th' = t_name th ∧ t_stack th' = t_stack th ∧ t_vmspace th' = t_vmspace th ∧ t_cwd th' = t_cwd th.
Lemma owns_upd s own t th th' :
  owns s own → ts_threads s !! t = Some th → t_name th' = t_name th → t_stack th' = t_stack th →
  owns (set_threads (<[t := th']> (ts_threads s)) s) own.
Proof.
  intros [] Ht Hn Hs. split; try done. simpl. intros u x Hx. apply lookup_insert_Some in Hx as [[<- <-]|[_ Hx]].
  - unfold thread_owned. rewrite Hn, Hs. by apply ow_thread.
  - by apply ow_thread.
Qed.
Lemma tinv_upd ex s own pl t th th' :
  tinv ex s own pl → ts_threads s !! t = Some th → t_name th' = t_name th → t_stack th' = t_stack th →
  thread_ok ex s pl t th' → tinv ex (set_threads (<[t := th']> (ts_threads s)) s) own pl.
Proof.
  intros [] Ht Hn Hs Hok. split; try done.
  - by eapply owns_upd.
  - by destruct ti_lists0.
  - simpl. rewrite dom_insert_lookup_L; [done|]. eauto.
  - simpl. intros u x Hx. apply lookup_insert_Some in Hx as [[<- <-]|[_ Hx]]; [done|by apply ti_thread0].
  - simpl. intros Hne. destruct (ti_idle0 Hne) as [? Hi]. split; [done|]. apply lookup_insert_is_Some.
    destruct (decide (t = ts_idle s)); [by left|by right].
Qed.
End inv.
