(* ===== verification/ThreadOps.v ===== *)
(** * Threads: switching, sleeping and waking *)

From S2P Require Import Prelude Kmem KArray KQueue Vnode Thread ThreadSpec ThreadInv.

Section ops.
Context {H : Type} `{!Kmem H, !KmemOk H}.
Notation S := (ts H).
Implicit Types (s : S) (own : gmap Z block) (pl : gmap Z place) (ex : Z → Prop).

(** ** Access *)

Lemma wlp_opt {A} (o : option A) (Q : A → S → Prop) E s : (∀ a, o = Some a → Q a s) → wlp (opt o) Q E s.
Proof. destruct o; [|done]. intros HQ. by apply HQ. Qed.
Lemma wlp_the_thread t (Q : thread → S → Prop) E s :
  (∀ th, ts_threads s !! t = Some th → Q th s) → wlp (the_thread t) Q E s.
Proof. apply wlp_opt. Qed.
Lemma wlp_upd_thread t f (Q : unit → S → Prop) E s :
  (∀ th, ts_threads s !! t = Some th → Q tt (set_threads (<[t := f th]> (ts_threads s)) s)) →
  wlp (upd_thread t f) Q E s.
Proof. intros HQ. unfold upd_thread. wlp_bind. by apply wlp_the_thread. Qed.
Lemma wlp_assert_spl (Q : unit → S → Prop) E s : (0 < ts_spl s → Q tt s) → wlp assert_spl Q E s.
Proof. intros HQ. unfold assert_spl. wlp_bind. apply wlp_kassert. intros. apply HQ. lia. Qed.

(** ** The run queue and the arrays *)

Definition nomem s own s' : Prop := ∃ h', s' = set_heap h' s ∧ owns s' own.

Lemma set_same s h' : set_heap h' (set_runqueue (ts_runqueue s) s) = set_heap h' s ∧
  set_heap h' (set_sleepers (ts_sleepers s) s) = set_heap h' s ∧
  set_heap h' (set_zombies (ts_zombies s) s) = set_heap h' s.
Proof. by destruct s. Qed.
Lemma nomem_live s own h' : owns s own → kinv h' → klive h' = klive (ts_heap s) → owns (set_heap h' s) own.
Proof. intros Ho Hk Hl. apply owns_heap; [done|]. split; [done|]. intros p _. by rewrite Hl. Qed.

Lemma addtail_step s own x :
  owns s own → q_size (ts_runqueue s) ≤ 134217728 → zlen (q_elems (ts_runqueue s)) ≤ 67108862 →
  wlp (on_runqueue (q_addtail x))
    (λ _ s', ∃ h' q' own', s' = set_heap h' (set_runqueue q' s) ∧ owns s' own' ∧
       q_elems q' = q_elems (ts_runqueue s) ++ [Some x] ∧ q_size q' ≤ 134217728)
    (λ _ s', nomem s own s') s.
Proof.
  intros Ho Hsz Hlen. apply wlp_zoom. pose proof (ow_rq _ _ Ho) as [Hq _].
  wlp_use wlp_and; [apply wlp_wp, q_addtail_spec; [done|simpl; lia]|apply addtail_self|..].
  - intros [] [h' q'] [(Hok & He & _ & Hf & Hs) Hself]. simpl in *.
    destruct (owns_runqueue s own h' q') as [own' Ho']; [done..|]. exists h', q', own'. split_and!; try done. lia.
  - intros e [h' q'] [(_ & _ & (Hk & _ & _) & Hsame & Hl) _]. simpl in *. subst q'.
    exists h'. rewrite (proj1 (set_same s h')). split; [done|]. by apply nomem_live.
Qed.
Lemma remhead_step s own x l :
  owns s own → q_elems (ts_runqueue s) = x :: l →
  wlp (on_runqueue q_remhead)
    (λ r s', r = x ∧ ∃ q' own', s' = set_runqueue q' s ∧ owns s' own' ∧ q_elems q' = l ∧
       q_size q' = q_size (ts_runqueue s)) (λ _ _, False) s.
Proof.
  intros Ho Hx. apply wlp_zoom. pose proof (ow_rq _ _ Ho) as [Hq _].
  wlp_use wlp_and; [apply wlp_wp, q_remhead_spec; [done|exact Hx]|apply remhead_self|..]; [|by intros e [h' q'] [? _]].
  intros r [h' q'] [(-> & Hok & Hh & He & Hs & Hf) Hself]. simpl in *. subst h'. split; [done|].
  destruct (owns_runqueue s own (ts_heap s) q') as [own' Ho']; [done..|]. exists q', own'.
  by destruct s.
Qed.
Lemma sleepers_add_step s own x :
  owns s own → arr_num (ts_sleepers s) < 268435455 →
  wlp (on_sleepers (array_add x))
    (λ _ s', ∃ h' a' own', s' = set_heap h' (set_sleepers a' s) ∧ owns s' own' ∧
       arr_contents a' = arr_contents (ts_sleepers s) ++ [Some x])
    (λ _ s', nomem s own s') s.
Proof.
  intros Ho Hn. apply wlp_zoom. pose proof (ow_sl _ _ Ho) as [Ha _].
  wlp_use wlp_and; [apply wlp_wp, array_add_spec; [done|done]|apply add_self|..].
  - intros [] [h' a'] [(Hok & He & Hf) Hself]. unfold self_kept in Hself. simpl in *.
    destruct (owns_sleepers s own h' a') as [own' Ho']; [done..|]. by exists h', a', own'.
  - intros e [h' a'] [(_ & _ & (Hk & _) & Hsame & Hl) _]. simpl in *. subst a'.
    exists h'. rewrite (proj1 (proj2 (set_same s h'))). split; [done|]. by apply nomem_live.
Qed.
Lemma zombies_add_step s own x :
  owns s own → arr_num (ts_zombies s) < 268435455 →
  wlp (on_zombies (array_add x))
    (λ _ s', ∃ h' a' own', s' = set_heap h' (set_zombies a' s) ∧ owns s' own' ∧
       arr_contents a' = arr_contents (ts_zombies s) ++ [Some x])
    (λ _ s', nomem s own s') s.
Proof.
  intros Ho Hn. apply wlp_zoom. pose proof (ow_zo _ _ Ho) as [Ha _].
  wlp_use wlp_and; [apply wlp_wp, array_add_spec; [done|done]|apply add_self|..].
  - intros [] [h' a'] [(Hok & He & Hf) Hself]. unfold self_kept in Hself. simpl in *.
    destruct (owns_zombies s own h' a') as [own' Ho']; [done..|]. by exists h', a', own'.
  - intros e [h' a'] [(_ & _ & (Hk & _) & Hsame & Hl) _]. simpl in *. subst a'.
    exists h'. rewrite (proj2 (proj2 (set_same s h'))). split; [done|]. by apply nomem_live.
Qed.
Lemma sleepers_remove_step s own i :
  owns s own → 0 ≤ i < arr_num (ts_sleepers s) →
  wlp (on_sleepers (array_remove i))
    (λ _ s', ∃ a' own', s' = set_sleepers a' s ∧ owns s' own' ∧
       arr_contents a' = delete (Z.to_nat i) (arr_contents (ts_sleepers s))) (λ _ _, False) s.
Proof.
  intros Ho Hi. apply wlp_zoom. pose proof (ow_sl _ _ Ho) as [Ha _].
  wlp_use wlp_and; [apply wlp_wp, array_remove_spec; [done|done]|apply remove_self|..]; [|by intros e [h' a'] [? _]].
  intros [] [h' a'] [(Hok & Hh & Hf & He) Hself]. unfold self_kept in Hself. simpl in *. subst h'.
  destruct (owns_sleepers s own (ts_heap s) a') as [own' Ho']; [done..|]. exists a', own'. by destruct s.
Qed.

(** ** Changing places *)

Lemma kont_ok_move L pl t p u k :
  (∀ m, pl !! t = Some (P_new m) → m ≠ u) → kont_ok L pl u k → kont_ok L (<[t := p]> pl) u k.
Proof.
  intros Ht (Hz & Hm & Hlk). split; [done|]. split; [|done]. intros c Hc. apply Hm in Hc. rewrite lookup_insert_ne; [done|].
  intros ->. by apply Ht in Hc.
Qed.
Lemma thread_ok_move ex s s' pl t p u x :
  u ≠ t → (pl !! t = Some (P_new u) → t_kont x = None) → ts_sems s' = ts_sems s → ts_locks s' = ts_locks s →
  ts_process_lock s' = ts_process_lock s → thread_ok ex s pl u x → thread_ok ex s' (<[t := p]> pl) u x.
Proof.
  intros Hne Hm Hs Hl Hpk (? & ? & Hp). split; [done|]. split; [done|]. rewrite lookup_insert_ne, Hpk by done.
  assert (Hw : ∀ k, waiting s k → waiting s' k) by (intros []; unfold waiting; by rewrite ?Hs, ?Hl).
  assert (Hk : ∀ k, t_kont x = Some k → kont_ok (ts_process_lock s) pl u k → kont_ok (ts_process_lock s) (<[t := p]> pl) u k).
  { intros k Hk. apply kont_ok_move. intros m Ht ->. apply Hm in Ht. congruence. }
  destruct (pl !! u) as [[]|]; try done.
  - intros k Hkx. apply Hk; auto.
  - destruct Hp as (k & Hkx & Hok). exists k. split; [done|]. by apply Hk.
  - destruct Hp as (k & Hkx & Hc & Hex & Hok). exists k. split; [done|]. split; [done|].
    split; [destruct Hex; auto|]. by apply Hk.
Qed.

(** Thread [t] goes to place [p] and becomes [th']. *)
Lemma tinv_move ex s s' own own' pl t th' p :
  tinv ex s own pl →
  (∀ u x, pl !! t = Some (P_new u) → ts_threads s !! u = Some x → t_kont x = None) →
  ts_threads s' = <[t := th']> (ts_threads s) → ts_sems s' = ts_sems s → ts_locks s' = ts_locks s →
  ts_process_lock s' = ts_process_lock s → owns s' own' → lists s' →
  placed (run_list s') (<[t := p]> pl) P_run → placed (sleep_list s') (<[t := p]> pl) P_sleep →
  placed (zombie_list s') (<[t := p]> pl) P_zombie → placed (cur_list s') (<[t := p]> pl) P_cur →
  thread_ok ex s' (<[t := p]> pl) t th' →
  (ts_idle s' ≠ 0 → ts_cur s' = 0 ∧ is_Some (ts_threads s' !! ts_idle s')) →
  tinv ex s' own' (<[t := p]> pl).
Proof.
  intros [] Hnew Ht Hs Hl Hpk Ho Hli Hr Hsl Hz Hc Hok Hid. split; try done.
  - rewrite Ht, !dom_insert_L. set_solver.
  - rewrite Ht. intros u x Hx. apply lookup_insert_Some in Hx as [[<- <-]|[Hne Hx]]; [done|].
    eapply thread_ok_move; [done| |done|done|done|by apply ti_thread]. intros Hp. by eapply Hnew.
Qed.

Lemma lists_run s s' l :
  lists s → q_elems (ts_runqueue s') = Some <$> l → run_list s' = l.
Proof. intros _ He. unfold run_list. rewrite He. apply omap_Some. Qed.
Lemma arr_num_contents h (a : array Z) : array_ok (h, a) → arr_num a = zlen (arr_contents a).
Proof.
  intros (_ & [] & _). unfold arr_contents. simpl in *. rewrite zlen_ztake; lia.
Qed.
Lemma sleepers_num s own : owns s own → lists s → arr_num (ts_sleepers s) = zlen (sleep_list s).
Proof.
  intros Ho []. destruct (ow_sl _ _ Ho) as [Ha _]. rewrite (arr_num_contents _ _ Ha), li_sleep. unfold zlen.
  by rewrite length_fmap.
Qed.
Lemma zombies_num s own : owns s own → lists s → arr_num (ts_zombies s) = zlen (zombie_list s).
Proof.
  intros Ho []. destruct (ow_zo _ _ Ho) as [Ha _]. rewrite (arr_num_contents _ _ Ha), li_zombie. unfold zlen.
  by rewrite length_fmap.
Qed.
Lemma cur_list_0 s : ts_cur s = 0 → cur_list s = [].
Proof. intros He. unfold cur_list. by rewrite He. Qed.
Lemma cur_list_1 s : ts_cur s ≠ 0 → cur_list s = [ts_cur s].
Proof. intros He. unfold cur_list. by destruct (Z.eqb_spec (ts_cur s) 0). Qed.
Lemma placed_nil pl p l t : placed [t] pl p → p ≠ l → placed [] (<[t := l]> pl) p.
Proof. intros Hp Hne. by apply (placed_tail [] pl p l t). Qed.

(** ** Off the processor *)

Definition sched_frame s s' : Prop :=
  ts_sems s' = ts_sems s ∧ ts_locks s' = ts_locks s ∧ ts_cvs s' = ts_cvs s ∧ ts_procs s' = ts_procs s ∧
  ts_table s' = ts_table s ∧ ts_process_lock s' = ts_process_lock s ∧ ts_first s' = ts_first s ∧
  ts_numthreads s' = ts_numthreads s ∧ ts_spl s' = ts_spl s.
Definition off (t : Z) (k : kont) (th : thread) s : S :=
  set_threads (<[t := t_set_kont (Some k) th]> (ts_threads s)) (set_cur 0 s).

(** The thread has been put away on the list of its new state. *)
Record left (t : Z) (ar sl zo : list Z) s s' : Prop := {
  lf_cur : ts_cur s' = 0;
  lf_idle : ts_idle s' = 0;
  lf_thread : is_Some (ts_threads s' !! t);
  lf_frame : sched_frame s s';
  lf_run : run_list s' = run_list s ++ ar;
  lf_sleep : sleep_list s' = sleep_list s ++ sl;
  lf_zombie : zombie_list s' = zombie_list s ++ zo;
}.

Section leave.
#[local] Set Default Proof Using "Type*".
Context (ex : Z → Prop) (s : S) (own : gmap Z block) (pl : gmap Z place) (t : Z) (th : thread) (k : kont).
Hypothesis Hinv : tinv ex s own pl.
Hypothesis Hcur : ts_cur s = t.
Hypothesis Ht0 : t ≠ 0.
Hypothesis Hth : ts_threads s !! t = Some th.

Lemma leave_facts :
  pl !! t = Some P_cur ∧ cur_list s = [t] ∧ ts_idle s = 0 ∧ owns (off t k th s) own ∧
  t_vmspace th = 0 ∧ t_cwd th = 0 ∧
  zlen (run_list s) + zlen (sleep_list s) + zlen (zombie_list s) ≤ 67108859.
Proof.
  pose proof Hinv as []. pose proof (cur_list_1 s ltac:(congruence)) as Hcl. rewrite Hcur in Hcl.
  split_and!; try done.
  - apply ti_cur. rewrite Hcl. left.
  - destruct (decide (ts_idle s = 0)) as [|Hne]; [done|]. apply ti_idle in Hne as [? _]. congruence.
  - unfold off. apply (owns_upd (set_cur 0 s) own t th); try done. by destruct ti_owns.
  - by destruct (ti_thread t th Hth).
  - by destruct (ti_thread t th Hth) as (_ & ? & _).
  - destruct ti_lists. rewrite Hcl in li_total. unfold zlen in li_total |- *. simpl in li_total. lia.
Qed.
Lemma leave_move s2 own2 p :
  ts_threads s2 = ts_threads (off t k th s) → ts_cur s2 = 0 → ts_idle s2 = 0 → sched_frame s s2 →
  owns s2 own2 → lists s2 → p ≠ P_cur →
  placed (run_list s2) (<[t := p]> pl) P_run → placed (sleep_list s2) (<[t := p]> pl) P_sleep →
  placed (zombie_list s2) (<[t := p]> pl) P_zombie →
  thread_ok ex s2 (<[t := p]> pl) t (t_set_kont (Some k) th) → tinv ex s2 own2 (<[t := p]> pl).
Proof.
  intros Hths Hc Hid (Hs & Hl & _ & _ & _ & Hpk & _) Ho Hli Hp Hr Hsl Hz Hok. destruct leave_facts as (Hplt & Hcl & _).
  apply (tinv_move ex s s2 own own2 pl t (t_set_kont (Some k) th) p); try done.
  - rewrite Hplt. naive_solver.
  - rewrite (cur_list_0 s2 Hc). apply placed_nil; [|done]. rewrite <- Hcl. apply Hinv.
Qed.

Lemma leave_ready :
  kont_ok (ts_process_lock s) pl t k →
  wlp (make_runnable t) (λ _ s', ∃ own' pl', tinv ex s' own' pl' ∧ left t [t] [] [] s s') (λ _ _, True) (off t k th s).
Proof.
  intros Hk. destruct leave_facts as (Hplt & Hcl & Hid & Ho & Hvm & Hcw & Htot). pose proof Hinv as []. pose proof ti_lists as [].
  unfold make_runnable. wlp_bind. apply wlp_assert_spl. intros _.
  assert (Hlen : zlen (q_elems (ts_runqueue s)) = zlen (run_list s)) by (rewrite li_run; unfold zlen; by rewrite length_fmap).
  pose proof (zlen_nonneg (sleep_list s)). pose proof (zlen_nonneg (zombie_list s)).
  wlp_use addtail_step; [done|done| | |done]; [simpl; lia|].
  intros [] s' (h' & q' & own' & -> & Ho' & He & Hsz). simpl in He. exists own', (<[t := P_run]> pl).
  assert (Hrun : run_list (set_heap h' (set_runqueue q' (off t k th s))) = run_list s ++ [t]).
  { unfold run_list at 1. simpl. rewrite He, li_run. change [Some t] with (Some <$> [t]). by rewrite <- fmap_app, omap_Some. }
  split.
  - apply leave_move; try done.
    + split; try done; [rewrite Hrun; simpl; by rewrite He, li_run, fmap_app|].
      rewrite Hrun. unfold sleep_list, zombie_list, cur_list in *. simpl. rewrite zlen_app.
      unfold zlen at 2 5. simpl. lia.
    + rewrite Hrun. apply placed_add; [done|congruence].
    + apply placed_other; [done|congruence|done].
    + apply placed_other; [done|congruence|done].
    + split; [done|]. split; [done|]. rewrite lookup_insert_eq. exists k. split; [done|].
      apply kont_ok_move; [congruence|done].
  - split; try done; simpl; [|by rewrite app_nil_r..]. by rewrite lookup_insert_eq.
Qed.

Lemma leave_sleep :
  chan k = Some (t_sleepaddr th) → ex (t_sleepaddr th) ∨ waiting s k → kont_ok (ts_process_lock s) pl t k →
  wlp (on_sleepers (array_add t)) (λ _ s', ∃ own' pl', tinv ex s' own' pl' ∧ left t [] [t] [] s s') (λ _ _, True) (off t k th s).
Proof.
  intros Hch Hw Hk. destruct leave_facts as (Hplt & Hcl & Hid & Ho & Hvm & Hcw & Htot). pose proof Hinv as []. pose proof ti_lists as [].
  pose proof (zlen_nonneg (run_list s)). pose proof (zlen_nonneg (zombie_list s)).
  pose proof (sleepers_num _ _ ti_owns ti_lists) as Hnum.
  wlp_use sleepers_add_step; [done| | |done]; [simpl; lia|].
  intros [] s' (h' & a' & own' & -> & Ho' & He). simpl in He. exists own', (<[t := P_sleep]> pl).
  assert (Hsl : sleep_list (set_heap h' (set_sleepers a' (off t k th s))) = sleep_list s ++ [t]).
  { unfold sleep_list at 1. simpl. rewrite He, li_sleep. change [Some t] with (Some <$> [t]). by rewrite <- fmap_app, omap_Some. }
  split.
  - apply leave_move; try done.
    + split; try done; [rewrite Hsl; simpl; by rewrite He, li_sleep, fmap_app|].
      rewrite Hsl. unfold run_list, zombie_list, cur_list in *. simpl. rewrite zlen_app.
      unfold zlen at 3 5. simpl. lia.
    + apply placed_other; [done|congruence|done].
    + rewrite Hsl. apply placed_add; [done|congruence].
    + apply placed_other; [done|congruence|done].
    + split; [done|]. split; [done|]. rewrite lookup_insert_eq. exists k. split; [done|]. split; [done|].
      split; [done|]. apply kont_ok_move; [congruence|done].
  - split; try done; simpl; [by rewrite lookup_insert_eq|by rewrite app_nil_r..].
Qed.
Lemma leave_zombie :
  k = K_zombie →
  wlp (on_zombies (array_add t)) (λ _ s', ∃ own' pl', tinv ex s' own' pl' ∧ left t [] [] [t] s s') (λ _ _, True) (off t k th s).
Proof.
  intros Hk. destruct leave_facts as (Hplt & Hcl & Hid & Ho & Hvm & Hcw & Htot). pose proof Hinv as []. pose proof ti_lists as [].
  pose proof (zlen_nonneg (run_list s)). pose proof (zlen_nonneg (sleep_list s)).
  pose proof (zombies_num _ _ ti_owns ti_lists) as Hnum.
  wlp_use zombies_add_step; [done| | |done]; [simpl; lia|].
  intros [] s' (h' & a' & own' & -> & Ho' & He). simpl in He. exists own', (<[t := P_zombie]> pl).
  assert (Hzo : zombie_list (set_heap h' (set_zombies a' (off t k th s))) = zombie_list s ++ [t]).
  { unfold zombie_list at 1. simpl. rewrite He, li_zombie. change [Some t] with (Some <$> [t]). by rewrite <- fmap_app, omap_Some. }
  split.
  - apply leave_move; try done.
    + split; try done; [rewrite Hzo; simpl; by rewrite He, li_zombie, fmap_app|].
      rewrite Hzo. unfold run_list, sleep_list, cur_list in *. simpl. rewrite zlen_app.
      unfold zlen at 4 5. simpl. lia.
    + apply placed_other; [done|congruence|done].
    + apply placed_other; [done|congruence|done].
    + rewrite Hzo. apply placed_add; [done|congruence].
    + split; [done|]. split; [done|]. rewrite lookup_insert_eq. simpl. by rewrite Hk.
  - split; try done; simpl; [by rewrite lookup_insert_eq|by rewrite app_nil_r..].
Qed.
End leave.

(** ** Onto the processor *)

Lemma wlp_md_switch old nu (Q : unit → S → Prop) E s :
  (old = nu → Q tt s) →
  (∀ tho s1 thn, ts_threads s !! old = Some tho → s1 = set_threads (<[old := t_set_inint (ts_inint s) tho]> (ts_threads s)) s →
     ts_threads s1 !! nu = Some thn → Q tt (set_inint (t_inint thn) s1)) →
  wlp (md_switch old nu) Q E s.
Proof.
  intros H1 H2. unfold md_switch. destruct (Z.eqb_spec old nu); [by apply H1|].
  wlp_bind. unfold wlp at 1, get. wlp_bind. apply wlp_upd_thread. intros tho Ho. wlp_bind.
  apply wlp_the_thread. intros thn Hn. by eapply H2.
Qed.

Lemma tinv_inint ex s own pl x : tinv ex s own pl → tinv ex (set_inint x s) own pl.
Proof.
  intros Hi. apply (tinv_sync ex ex s _ own); try done. by destruct (ti_owns _ _ _ _ Hi).
Qed.
Lemma thread_ok_inint ex s pl t th x : thread_ok ex s pl t th → thread_ok ex s pl t (t_set_inint x th).
Proof. done. Qed.

Lemma thread_nonnull s own t : owns s own → is_Some (ts_threads s !! t) → t ≠ 0.
Proof.
  intros Ho [th Ht] ->. destruct (ow_thread _ _ Ho 0 th Ht) as (Hb & _). destruct (ow_live _ _ Ho 0) as [u Hu]; [eauto|].
  by rewrite klive_null in Hu by apply Ho.
Qed.
(** The first thread of the queue becomes the current one. *)
Lemma tinv_take ex s own pl t l q' own' :
  tinv ex s own pl → ts_cur s = 0 → run_list s = t :: l →
  owns (set_runqueue q' s) own' → q_elems q' = Some <$> l → q_size q' = q_size (ts_runqueue s) →
  let s' := set_cur t (set_idle 0 (set_runqueue q' s)) in
  tinv ex s' own' (<[t := P_cur]> pl) ∧ run_list s' = l ∧ cur_list s' = [t] ∧ is_Some (ts_threads s !! t).
Proof.
  intros Hi Hc Hrl Ho' He Hsz s'. pose proof Hi as []. pose proof ti_lists as [].
  assert (Hplt : pl !! t = Some P_run) by (apply ti_run; rewrite Hrl; left).
  assert (Hth : is_Some (ts_threads s !! t)) by (apply elem_of_dom, ti_dom, elem_of_dom; eauto).
  pose proof (thread_nonnull s own t ti_owns Hth) as Ht0. destruct Hth as [th Hth].
  assert (Hrun : run_list s' = l) by (unfold run_list; simpl; by rewrite He, omap_Some).
  assert (Hcur : cur_list s' = [t]) by by apply (cur_list_1 s').
  split; [|split; [done|split; [done|eauto]]].
  apply (tinv_move ex s s' own own' pl t th P_cur); try done.
  - naive_solver.
  - simpl. by rewrite insert_id.
  - by destruct Ho'.
  - split; rewrite ?Hrun, ?Hcur; try done; [simpl; lia|].
    rewrite Hrl, zlen_cons, (cur_list_0 s Hc) in li_total. unfold sleep_list, zombie_list in *. simpl.
    unfold zlen in li_total |- *. simpl in *. lia.
  - rewrite Hrun. apply (placed_tail l pl P_run P_cur); [by rewrite <- Hrl|done].
  - apply placed_other; [done|congruence|done].
  - apply placed_other; [done|congruence|done].
  - rewrite Hcur. apply (placed_add [] pl); [by rewrite <- (cur_list_0 s Hc)|congruence].
  - destruct (ti_thread t th Hth) as (? & ? & Hp). split; [done|]. split; [done|].
    rewrite lookup_insert_eq. rewrite Hplt in Hp. destruct Hp as (k & Hk & Hok). intros k' Hk'.
    assert (k' = k) as -> by congruence. apply kont_ok_move; [congruence|done].
Qed.

Lemma dispatch_spec ex s own pl :
  tinv ex s own pl → ts_cur s = 0 →
  wlp dispatch (λ _ s', ∃ own' pl', tinv ex s' own' pl' ∧ sched_frame s s' ∧
     run_list s = cur_list s' ++ run_list s' ∧ sleep_list s' = sleep_list s ∧ zombie_list s' = zombie_list s)
     (λ _ _, False) s.
Proof.
  intros Hi Hc. pose proof Hi as []. pose proof ti_lists as []. unfold dispatch. wlp_bind. unfold wlp at 1, gets.
  wlp_bind. unfold scheduler. wlp_bind. apply wlp_assert_spl. intros _. wlp_bind. unfold wlp at 1, get.
  pose proof (ow_rq _ _ ti_owns) as [(_ & Hqwf & _) _]. simpl in Hqwf.
  destruct (q_empty (ts_runqueue s)) eqn:Hemp.
  { unfold wlp at 1, ret. exists own, pl. split; [done|]. split; [done|]. by rewrite (cur_list_0 s Hc). }
  destruct (run_list s) as [|t l] eqn:Hrl.
  { assert (q_empty (ts_runqueue s) = true); [|congruence]. apply q_empty_iff; [done|]. by rewrite li_run. }
  wlp_bind. wlp_use (remhead_step s own (Some t) (Some <$> l)); [done|by rewrite li_run| |done].
  intros r s1 (-> & q' & own' & -> & Ho' & He & Hsz). unfold wlp at 1. simpl. unfold ret, modify.
  destruct (tinv_take ex s own pl t l q' own') as (Hi' & Hrun & Hcur & _); [done..|]. cbv zeta in *.
  set (s2 := set_cur t (set_idle 0 (set_runqueue q' s))) in *.
  assert (Hflow : t :: l = cur_list s2 ++ run_list s2) by by rewrite Hcur, Hrun.
  apply wlp_md_switch.
  - intros _. exists own', (<[t := P_cur]> pl). done.
  - intros tho s3 thn Hold -> Hn. exists own', (<[t := P_cur]> pl). split.
    { apply tinv_inint. eapply tinv_upd; [done|done|done|done|]. apply thread_ok_inint.
      by apply (ThreadInv.ti_thread _ _ _ _ Hi'). }
    done.
Qed.

(** ** The switch *)

Definition leave_ok ex s pl (st : threadstate_t) (t : Z) (th : thread) (k : kont) : Prop :=
  match st with
  | S_READY => kont_ok (ts_process_lock s) pl t k
  | S_SLEEP => chan k = Some (t_sleepaddr th) ∧ (ex (t_sleepaddr th) ∨ waiting s k) ∧ kont_ok (ts_process_lock s) pl t k
  | S_ZOMB => k = K_zombie
  | S_RUN => True
  end.
Definition to_run (st : threadstate_t) (t : Z) : list Z := if st is S_READY then [t] else [].
Definition to_sleep (st : threadstate_t) (t : Z) : list Z := if st is S_SLEEP then [t] else [].
Definition to_zombie (st : threadstate_t) (t : Z) : list Z := if st is S_ZOMB then [t] else [].

Record switched (st : threadstate_t) (t : Z) s s' : Prop := {
  sw_frame : sched_frame s s';
  sw_run : run_list s ++ to_run st t = cur_list s' ++ run_list s';
  sw_sleep : sleep_list s' = sleep_list s ++ to_sleep st t;
  sw_zombie : zombie_list s' = zombie_list s ++ to_zombie st t;
}.

Lemma leave_spec ex s own pl st t th k :
  tinv ex s own pl → ts_cur s = t → t ≠ 0 → ts_threads s !! t = Some th → leave_ok ex s pl st t th k →
  wlp (match st with
       | S_READY => try (make_runnable t)
       | S_SLEEP => try (on_sleepers (array_add t))
       | S_ZOMB => try (on_zombies (array_add t))
       | S_RUN => panic
       end)
    (λ r s', is_ok r = true → ∃ own' pl', tinv ex s' own' pl' ∧ left t (to_run st t) (to_sleep st t) (to_zombie st t) s s')
    (λ _ _, False) (off t k th s).
Proof.
  intros Hi Hc H0 Ht Hl. destruct st; [done|..]; apply wlp_try.
  - wlp_use leave_ready; [done..| |by intros]. auto.
  - destruct Hl as (? & ? & ?). wlp_use leave_sleep; [done..| |by intros]. auto.
  - wlp_use leave_zombie; [done..| |by intros]. auto.
Qed.

Lemma check_magic_spec t (Q : unit → S → Prop) E s : Q tt s → wlp (check_magic t) Q E s.
Proof.
  intros HQ. unfold check_magic. destruct (t =? 0); [done|]. wlp_bind. apply wlp_the_thread. intros th _.
  destruct (t_stack th =? 0); [done|]. by apply wlp_kassert.
Qed.

Lemma mi_switch_spec ex s own pl st t th k :
  tinv ex s own pl → ts_cur s = t → t ≠ 0 → ts_threads s !! t = Some th → leave_ok ex s pl st t th k →
  wlp (mi_switch st k) (λ b s', b = true ∧ ∃ own' pl', tinv ex s' own' pl' ∧ switched st t s s') (λ _ _, False) s.
Proof.
  intros Hi Hc H0 Ht Hl. unfold mi_switch. wlp_bind. apply wlp_assert_spl. intros _. wlp_bind. unfold wlp at 1, gets.
  wlp_bind. apply check_magic_spec. rewrite Hc. destruct (Z.eqb_spec t 0); [done|].
  wlp_bind. unfold wlp at 1, modify. wlp_bind. apply wlp_upd_thread. simpl. intros th' Hth'.
  assert (th' = th) as -> by congruence. wlp_bind.
  eapply wlp_mono; [by eapply leave_spec| |done].
  intros r s1 Hr. wlp_bind. apply wlp_kassert. intros Hok. destruct (Hr Hok) as (own1 & pl1 & Hi1 & []).
  wlp_bind. unfold wlp at 1, modify. wlp_bind.
  assert (Hi2 : tinv ex (set_idle t s1) own1 pl1).
  { destruct Hi1. split; try done; [by destruct ti_owns|by destruct ti_lists]. }
  wlp_use dispatch_spec; [done|done| |done].
  intros [] s3 (own3 & pl3 & Hi3 & Hf3 & Hr3 & Hs3 & Hz3). split; [done|]. exists own3, pl3. split; [done|].
  unfold run_list, sleep_list, zombie_list in Hr3, Hs3, Hz3. simpl in Hr3, Hs3, Hz3.
  split.
  - unfold sched_frame in *. destruct lf_frame0 as (? & ? & ? & ? & ? & ? & ? & ? & ?), Hf3 as (? & ? & ? & ? & ? & ? & ? & ? & ?).
    simpl in *. split_and!; congruence.
  - rewrite <- lf_run0. exact Hr3.
  - rewrite <- lf_sleep0. exact Hs3.
  - rewrite <- lf_zombie0. exact Hz3.
Qed.

(** ** Waking *)

Record woken (ar : list Z) s s' : Prop := {
  wk_frame : sched_frame s s';
  wk_threads : ts_threads s' = ts_threads s;
  wk_cur : ts_cur s' = ts_cur s;
  wk_idle : ts_idle s' = ts_idle s;
  wk_inint : ts_inint s' = ts_inint s;
  wk_zombies : ts_zombies s' = ts_zombies s;
  wk_run : run_list s' = run_list s ++ ar;
  wk_sleep : zlen (sleep_list s') + zlen ar = zlen (sleep_list s);
}.
Lemma woken_nil s : woken [] s s.
Proof. split; try done; [by rewrite app_nil_r|unfold zlen; simpl; lia]. Qed.
Lemma sched_frame_trans s1 s2 s3 : sched_frame s1 s2 → sched_frame s2 s3 → sched_frame s1 s3.
Proof.
  intros (? & ? & ? & ? & ? & ? & ? & ? & ?) (? & ? & ? & ? & ? & ? & ? & ? & ?).
  unfold sched_frame. split_and!; congruence.
Qed.
Lemma woken_trans ar1 ar2 s1 s2 s3 : woken ar1 s1 s2 → woken ar2 s2 s3 → woken (ar1 ++ ar2) s1 s3.
Proof.
  intros [] []. split; try congruence.
  - by eapply sched_frame_trans.
  - by rewrite wk_run1, wk_run0, app_assoc.
  - rewrite zlen_app. lia.
Qed.

Lemma guy_spec s own i (Q : Z → S → Prop) E :
  owns s own → lists s → 0 ≤ i → (∀ t, sleep_list s !! Z.to_nat i = Some t → Q t s) →
  i < arr_num (ts_sleepers s) → wlp (guy (ts_sleepers s) i) Q E s.
Proof.
  intros Ho Hl Hi HQ Hn. unfold guy. wlp_bind. apply wlp_opt. intros o Hg. apply wlp_opt. intros t ->.
  destruct (ow_sl _ _ Ho) as [(_ & Hwf & _) _]. destruct (array_getguy_spec (ts_sleepers s) i Hwf) as [He _]; [lia|].
  rewrite He, (li_sleep _ Hl), zget_fmap in Hg. apply HQ. unfold zget in Hg. rewrite decide_True in Hg by done.
  destruct (sleep_list s !! Z.to_nat i); [|done]. simpl in Hg. congruence.
Qed.

(** Threads being made stay so. *)
Definition news pl pl' : Prop := ∀ t m, pl !! t = Some (P_new m) → pl' !! t = Some (P_new m).
Lemma wake_one ex s own pl i t :
  tinv ex s own pl → 0 ≤ i → sleep_list s !! Z.to_nat i = Some t →
  wlp (let! _ := on_sleepers (array_remove i) in let! result := try (make_runnable t) in kassert (is_ok result))
    (λ _ s', ∃ own' pl', tinv ex s' own' pl' ∧ news pl pl' ∧ woken [t] s s' ∧ sleep_list s' = delete (Z.to_nat i) (sleep_list s))
    (λ _ _, False) s.
Proof.
  intros Hi Hi0 Ht. pose proof Hi as []. pose proof ti_lists as []. pose proof (sleepers_num _ _ ti_owns ti_lists) as Hnum.
  pose proof (lookup_lt_Some _ _ _ Ht) as Hlt. wlp_bind. wlp_use sleepers_remove_step; [done| | |done].
  { rewrite Hnum. unfold zlen. lia. }
  intros [] s1 (a' & own1 & -> & Ho1 & He1). wlp_bind. apply wlp_try. unfold make_runnable. wlp_bind.
  apply wlp_assert_spl. intros _.
  assert (Hlen : zlen (q_elems (ts_runqueue s)) = zlen (run_list s)) by (rewrite li_run; unfold zlen; by rewrite length_fmap).
  pose proof (zlen_nonneg (sleep_list s)). pose proof (zlen_nonneg (zombie_list s)). pose proof (zlen_nonneg (cur_list s)).
  wlp_use addtail_step; [done|done| | |]; [simpl; lia| |by intros; apply wlp_kassert].
  intros [] s2 (h' & q' & own' & -> & Ho' & He & Hsz). simpl in He, He1. apply wlp_kassert. intros _.
  set (s2 := set_heap h' (set_runqueue q' (set_sleepers a' s))).
  assert (Hplt : pl !! t = Some P_sleep) by by eapply placed_in.
  assert (Hrun : run_list s2 = run_list s ++ [t]).
  { unfold run_list at 1, s2. simpl. rewrite He, li_run. change [Some t] with (Some <$> [t]). by rewrite <- fmap_app, omap_Some. }
  assert (Hsl : sleep_list s2 = delete (Z.to_nat i) (sleep_list s)).
  { unfold sleep_list at 1, s2. simpl. rewrite He1, li_sleep, <- list_fmap_delete. apply omap_Some. }
  assert (Hdel : length (delete (Z.to_nat i) (sleep_list s)) = (length (sleep_list s) - 1)%nat).
  { apply length_delete. eauto. }
  assert (Hth : is_Some (ts_threads s !! t)) by (apply elem_of_dom, ti_dom, elem_of_dom; eauto). destruct Hth as [th Hth].
  exists own', (<[t := P_run]> pl). split; [|split; [|split; [|done]]].
  - apply (tinv_move ex s s2 own own' pl t th P_run); try done.
    + rewrite Hplt. naive_solver.
    + simpl. by rewrite insert_id.
    + split; rewrite ?Hrun, ?Hsl; try done.
      * simpl. by rewrite He, li_run, fmap_app.
      * simpl. by rewrite He1, li_sleep, list_fmap_delete.
      * change (zombie_list s2) with (zombie_list s). change (cur_list s2) with (cur_list s).
        rewrite zlen_app. unfold zlen in *. simpl. lia.
    + rewrite Hrun. apply placed_add; [done|congruence].
    + rewrite Hsl. by eapply placed_delete.
    + apply placed_other; [done|congruence|done].
    + apply placed_other; [done|congruence|done].
    + destruct (ti_thread t th Hth) as (? & ? & Hp). split; [done|]. split; [done|]. rewrite Hplt in Hp.
      rewrite lookup_insert_eq. destruct Hp as (k & Hk & _ & _ & Hok). exists k. split; [done|].
      apply kont_ok_move; [congruence|done].
  - intros u m Hu. rewrite lookup_insert_ne; [done|congruence].
  - split; try done. rewrite Hsl. unfold zlen. simpl. lia.
Qed.

(** No thread among the first [n] sleepers sleeps on [addr]. *)
Definition nobody (addr : Z) (n : nat) s : Prop :=
  ∀ j t th, (j < n)%nat → sleep_list s !! j = Some t → ts_threads s !! t = Some th → t_sleepaddr th ≠ addr.

Lemma wlp_assoc {A B C} (c : M S A) (d : A → M S B) (e : B → M S unit) (f : M S C) Q E s :
  wlp ((let! a := c in let! b := d a in e b) ;;; f) Q E s → wlp (let! a := c in let! b := d a in e b ;;; f) Q E s.
Proof. unfold wlp, bind. destruct (c s) as [a s1| | |]; try done. by destruct (d a s1). Qed.

Lemma wakeup_loop_spec ex single fuel addr i s own pl :
  tinv ex s own pl → 0 ≤ i → nobody addr (Z.to_nat i) s →
  wlp (wakeup_loop single fuel addr i)
    (λ _ s', ∃ own' pl' ar, tinv ex s' own' pl' ∧ news pl pl' ∧ woken ar s s' ∧
       (single = false → nobody addr (length (sleep_list s')) s')) (λ _ _, False) s.
Proof.
  revert i s own pl. induction fuel as [|fuel IH]; intros i s own pl Hi Hi0 Hno; cbn [wakeup_loop];
    wlp_bind; unfold wlp at 1, get; pose proof Hi as []; pose proof (sleepers_num _ _ ti_owns ti_lists) as Hnum;
    unfold array_getnum; destruct (Z.ltb_spec i (arr_num (ts_sleepers s))) as [Hlt|Hge]; cbn [negb]; [done| | |].
  1,3: (exists own, pl, []; split; [done|]; split; [by intros ? ?|]; split; [apply woken_nil|]; intros _ j t th Hj;
        apply Hno; unfold zlen in Hnum; lia).
  wlp_bind. eapply guy_spec; [done|done|done| |done]. intros t Ht. wlp_bind. apply wlp_the_thread. intros th Hth.
  destruct (Z.eqb_spec (t_sleepaddr th) addr) as [He|Hne].
  - apply (wlp_assoc (on_sleepers (array_remove i)) (λ _, try (make_runnable t)) (λ r, kassert (is_ok r))).
    wlp_bind. wlp_use (wake_one ex s own pl i t Hi Hi0 Ht); [|done].
    intros [] s1 (own1 & pl1 & Hi1 & Hnw1 & Hw1 & Hsl1). destruct single; [by exists own1, pl1, [t]|].
    assert (Hno1 : nobody addr (Z.to_nat i) s1).
    { intros j u x Hj. rewrite Hsl1, (wk_threads _ _ _ Hw1), list_lookup_delete_lt by done. by apply Hno. }
    wlp_use (IH i s1 own1 pl1 Hi1 Hi0 Hno1); [|done]. intros [] s2 (own2 & pl2 & ar & Hi2 & Hnw2 & Hw2 & Hn2).
    exists own2, pl2, ([t] ++ ar). split; [done|]. split; [by intros u m Hu; apply Hnw2, Hnw1|]. split; [by eapply woken_trans|done].
  - apply (IH (i + 1) s own pl Hi); [lia|]. intros j u x Hj Hu Hx.
    destruct (decide (j = Z.to_nat i)) as [->|]; [congruence|]. apply (Hno j u x); [lia|done|done].
Qed.

Lemma wakeup_spec ex single addr s own pl :
  tinv ex s own pl →
  wlp (wakeup single addr)
    (λ _ s', ∃ own' pl' ar, tinv ex s' own' pl' ∧ news pl pl' ∧ woken ar s s' ∧
       (single = false → nobody addr (length (sleep_list s')) s')) (λ _ _, False) s.
Proof.
  intros Hi. unfold wakeup. wlp_bind. apply wlp_assert_spl. intros _. wlp_bind. unfold wlp at 1, get.
  apply (wakeup_loop_spec ex single _ addr 0 s own pl Hi); [done|]. intros j t th Hj. simpl in Hj. lia.
Qed.
(** Waking everybody on [addr] ends the exception for it. *)
Lemma thread_wakeup_spec addr s own pl :
  tinv (λ a, a = addr) s own pl →
  wlp (thread_wakeup addr) (λ _ s', ∃ own' pl' ar, tinv none s' own' pl' ∧ news pl pl' ∧ woken ar s s') (λ _ _, False) s.
Proof.
  intros Hi. wlp_use wakeup_spec; [done| |done]. intros [] s' (own' & pl' & ar & Hi' & Hnw & Hw & Hn).
  exists own', pl', ar. split; [|done]. pose proof Hi' as [].
  apply (tinv_sync (λ a, a = addr) none s' s' own' own' pl'); try done.
  intros t th k Ht Hp Hk [Hex|Hwt] _; [exfalso|by right].
  assert (Hin : t ∈ sleep_list s') by by apply ti_sleep. apply list_elem_of_lookup in Hin as [j Hj].
  apply (Hn eq_refl j t th); [by eapply lookup_lt_Some|done|done|done].
Qed.
End ops.
