(* ===== verification/ThreadSync.v ===== *)
(** * Threads: semaphores, locks and condition variables *)

From S2P Require Import Prelude Kmem KArray KQueue Vnode Thread ThreadSpec ThreadInv ThreadOps.

Section sync.
Context {H : Type} `{!Kmem H, !KmemOk H}.
Notation S := (ts H).
Implicit Types (s : S) (own : gmap Z block) (pl : gmap Z place) (ex : Z → Prop) (X : Z → Prop).

(** ** What a step leaves alone *)

(** The threads there are, without the zombies. *)
Definition count s : Z := zlen (run_list s) + zlen (sleep_list s) + zlen (cur_list s).

(** A step during which the current thread stays on the processor: the threads
    [ar] become ready, and only locks in [X] change. *)
Record quiet X (ar : list Z) s s' : Prop := {
  qt_run : run_list s' = run_list s ++ ar;
  qt_cur : ts_cur s' = ts_cur s;
  qt_count : ts_numthreads s' - count s' = ts_numthreads s - count s;
  qt_locks : ∀ p, ¬ X p → ts_locks s' !! p = ts_locks s !! p;
  qt_plock : ts_process_lock s' = ts_process_lock s;
  qt_first : ts_first s' = ts_first s;
  qt_zombie : zlen (zombie_list s') ≤ zlen (zombie_list s);
}.
(** A step that ends with the thread off the processor when [r] is [None]. *)
Record post X (r : option Z) s s' : Prop := {
  ps_flow : ∃ ar, run_list s ++ ar = (if r is None then cur_list s' else []) ++ run_list s';
  ps_cur : r ≠ None → ts_cur s' = ts_cur s;
  ps_count : ts_numthreads s' - count s' = ts_numthreads s - count s;
  ps_locks : ∀ p, ¬ X p → ts_locks s' !! p = ts_locks s !! p;
  ps_plock : ts_process_lock s' = ts_process_lock s;
  ps_first : ts_first s' = ts_first s;
}.
Definition good s : Prop := ∃ own pl, tinv none s own pl.

Lemma quiet_refl X s : quiet X [] s s.
Proof. split; try done. by rewrite app_nil_r. Qed.
Lemma quiet_trans X Y ar1 ar2 s1 s2 s3 :
  quiet X ar1 s1 s2 → quiet Y ar2 s2 s3 → quiet (λ p, X p ∨ Y p) (ar1 ++ ar2) s1 s3.
Proof.
  intros [] []. split; try congruence; [by rewrite qt_run1, qt_run0, app_assoc| |lia].
  intros p Hp. rewrite qt_locks1, qt_locks0; tauto.
Qed.
Lemma quiet_mono X Y ar s s' : (∀ p, X p → Y p) → quiet X ar s s' → quiet Y ar s s'.
Proof. intros Hs []. split; auto. Qed.
Lemma post_quiet X Y ar r s1 s2 s3 : quiet X ar s1 s2 → post Y r s2 s3 → post (λ p, X p ∨ Y p) r s1 s3.
Proof.
  intros [] [[ar' Hf] ?????]. split; try congruence; [|intros; rewrite ps_cur0; done|].
  - exists (ar ++ ar'). by rewrite app_assoc, <- qt_run0.
  - intros p Hp. rewrite ps_locks0, qt_locks0; tauto.
Qed.
Lemma post_mono X Y r s s' : (∀ p, X p → Y p) → post X r s s' → post Y r s s'.
Proof. intros Hs []. split; auto. Qed.
Lemma quiet_post X ar v s s' : quiet X ar s s' → post X (Some v) s s'.
Proof. intros []. split; try done. exists ar. by rewrite qt_run0. Qed.

Lemma woken_quiet ar s s' : woken ar s s' → quiet none ar s s'.
Proof.
  intros []. destruct wk_frame as (? & Hl & ? & ? & ? & ? & ? & Hn & ?). split; try done.
  - unfold count, cur_list. rewrite wk_run, wk_cur, Hn, zlen_app. lia.
  - intros p _. by rewrite Hl.
  - unfold zombie_list. by rewrite wk_zombies.
Qed.
Lemma switched_post st s s' : switched st (ts_cur s) s s' → ts_cur s ≠ 0 → st ≠ S_ZOMB → st ≠ S_RUN → post none None s s'.
Proof.
  intros [(_ & Hl & _ & _ & _ & Hpl & Hfi & Hn & _)] Hc0 Hz Hr. split; try done.
  - exists (to_run st (ts_cur s)). done.
  - unfold count. rewrite Hn, sw_sleep, zlen_app. rewrite (cur_list_1 s) by done.
    apply (f_equal zlen) in sw_run. rewrite !zlen_app in sw_run.
    destruct st; try done; unfold to_run, to_sleep, zlen in *; simpl in *; lia.
  - intros p _. by rewrite Hl.
Qed.

(** ** Changing the level, a semaphore, a lock *)

Lemma tinv_spl ex s own pl x : tinv ex s own pl → tinv ex (set_spl x s) own pl.
Proof. intros Hi. apply (tinv_sync ex ex s _ own); try done. by destruct (ti_owns _ _ _ _ Hi). Qed.
Lemma tinv_lock ex ex' s own pl p l' :
  tinv ex s own pl → (∀ a, ex a → ex' a) → (∃ l, ts_locks s !! p = Some l ∧ lk_name l' = lk_name l) →
  (∀ l, ts_locks s !! p = Some l → lk_held l ≠ 0 → lk_held l' ≠ 0 ∨ ex' p) →
  tinv ex' (set_locks (<[p := l']> (ts_locks s)) s) own pl.
Proof.
  intros Hi Hex (l0 & Hl0 & Hn0) Hl. apply (tinv_sync ex ex' s _ own); try done.
  { destruct (ti_owns _ _ _ _ Hi). split; try done. simpl. apply map_Forall_insert_2; [|done]. rewrite Hn0. by apply ow_lock. }
  intros t th k _ _ _ [He|Hw] Hch; [left; auto|]. destruct k as [| |sem spl|q spl c|cv q spl c|]; try by right.
  simpl in Hw. destruct Hw as (l & Hq & Hh). simpl in Hch. injection Hch as Hch. subst q. destruct (decide (p = t_sleepaddr th)) as [->|Hne].
  - destruct (Hl l Hq Hh) as [Hh'|]; [|by left]. right. simpl. rewrite lookup_insert_eq. eauto.
  - right. simpl. rewrite lookup_insert_ne by done. eauto.
Qed.
Lemma tinv_sem ex ex' s own pl p x' :
  tinv ex s own pl → (∀ a, ex a → ex' a) → (∃ x, ts_sems s !! p = Some x ∧ sem_name x' = sem_name x) →
  (∀ x, ts_sems s !! p = Some x → sem_count x = 0 → sem_count x' = 0 ∨ ex' p) →
  tinv ex' (set_sems (<[p := x']> (ts_sems s)) s) own pl.
Proof.
  intros Hi Hex (l0 & Hl0 & Hn0) Hl. apply (tinv_sync ex ex' s _ own); try done.
  { destruct (ti_owns _ _ _ _ Hi). split; try done. simpl. apply map_Forall_insert_2; [|done]. rewrite Hn0. by apply ow_sem. }
  intros t th k _ _ _ [He|Hw] Hch; [left; auto|]. destruct k as [| |q spl|q spl c|cv q spl c|]; try by right.
  simpl in Hw. destruct Hw as (x & Hq & Hh). simpl in Hch. injection Hch as Hch. subst q. destruct (decide (p = t_sleepaddr th)) as [->|Hne].
  - destruct (Hl x Hq Hh) as [Hh'|]; [|by left]. right. simpl. rewrite lookup_insert_eq. eauto.
  - right. simpl. rewrite lookup_insert_ne by done. eauto.
Qed.
Lemma wlp_the_lock p (Q : lock → S → Prop) E s :
  (∀ l, ts_locks s !! p = Some l → Q l s) → wlp (the_lock p) Q E s.
Proof. apply wlp_opt. Qed.
Lemma wlp_the_sem p (Q : semaphore → S → Prop) E s :
  (∀ l, ts_sems s !! p = Some l → Q l s) → wlp (the_sem p) Q E s.
Proof. apply wlp_opt. Qed.
Lemma wlp_splx x (Q : Z → S → Prop) E s : Q (ts_spl s) (set_spl x s) → wlp (splx x) Q E s.
Proof. done. Qed.

(** ** The current thread *)

Lemma cur_facts ex s own pl :
  tinv ex s own pl → ts_cur s ≠ 0 → pl !! ts_cur s = Some P_cur ∧ is_Some (ts_threads s !! ts_cur s).
Proof.
  intros Hi Hc. assert (Hp : pl !! ts_cur s = Some P_cur).
  { apply (ti_cur _ _ _ _ Hi). rewrite (cur_list_1 s Hc). left. }
  split; [done|]. apply elem_of_dom, (ti_dom _ _ _ _ Hi), elem_of_dom. eauto.
Qed.
Lemma cur_upd ex s own pl th th' :
  tinv ex s own pl → ts_cur s ≠ 0 → ts_threads s !! ts_cur s = Some th →
  t_name th' = t_name th → t_stack th' = t_stack th → t_vmspace th' = t_vmspace th → t_cwd th' = t_cwd th →
  (t_kont th' = t_kont th ∨ t_kont th' = None) →
  tinv ex (set_threads (<[ts_cur s := th']> (ts_threads s)) s) own pl.
Proof.
  intros Hi Hc Ht Hn Hs Hv Hcw Hk. eapply tinv_upd; [done|done|done|done|].
  destruct (cur_facts _ _ _ _ Hi Hc) as [Hp _]. destruct (ti_thread _ _ _ _ Hi _ _ Ht) as (? & ? & Hok).
  split; [congruence|]. split; [congruence|]. rewrite Hp in *. intros k Hk'. apply Hok.
  destruct Hk as [<-|Hnone]; [done|congruence].
Qed.

Lemma thread_sleep_spec s own pl addr k :
  tinv none s own pl → ts_cur s ≠ 0 → waiting s k → chan k = Some addr → kont_ok (ts_process_lock s) pl (ts_cur s) k →
  wlp (thread_sleep addr k) (λ r s', r = None ∧ good s' ∧ post none None s s' ∧ sched_frame s s') (λ _ _, False) s.
Proof.
  intros Hi Hc Hw Hch Hk. unfold thread_sleep. wlp_bind. unfold wlp at 1, get. wlp_bind. apply wlp_kassert. intros _.
  wlp_bind. apply wlp_upd_thread. intros th Ht. wlp_bind.
  set (s1 := set_threads _ s).
  assert (Hi1 : tinv none s1 own pl) by (apply (cur_upd none s own pl th); auto).
  wlp_use (mi_switch_spec none s1 own pl S_SLEEP (ts_cur s) (t_set_sleepaddr addr th) k); [done|done|done| | | |done].
  { simpl. by rewrite lookup_insert_eq. }
  { split; [done|]. split; [by right|done]. }
  intros b s' (-> & own' & pl' & Hi' & Hs). split; [done|]. split; [by exists own', pl'|].
  pose proof (switched_post S_SLEEP s1 s' Hs Hc ltac:(done) ltac:(done)) as Hp.
  split; [by destruct Hp|by destruct Hs].
Qed.

(** ** Semaphores *)

Definition opost X (r : option Z) s s' : Prop := good s' ∧ post X r s s'.

Lemma spl_quiet s x : quiet none [] s (set_spl x s).
Proof. split; try done. simpl. by rewrite app_nil_r. Qed.
Lemma opost_quiet X ar r s1 s2 s3 : quiet none ar s1 s2 → opost X r s2 s3 → opost X r s1 s3.
Proof.
  intros Hq [Hg Hp]. split; [done|]. eapply post_mono; [|by eapply post_quiet]. by intros p [[]|].
Qed.

Lemma P_loop_spec s own pl sem spl :
  tinv none s own pl → ts_cur s ≠ 0 →
  wlp (P_loop sem spl) (λ r s', opost none r s s') (λ _ _, False) s.
Proof.
  intros Hi Hc. unfold P_loop. wlp_bind. apply wlp_the_sem. intros x Hx.
  destruct (Z.eqb_spec (sem_count x) 0) as [He|Hne].
  - wlp_use thread_sleep_spec; [done|done|simpl; eauto|done| | |done]; [split; done|].
    by intros r s' (-> & ? & ? & _).
  - wlp_bind. apply wlp_kassert. intros Hpos. wlp_bind. unfold wlp at 1, put_sem, modify. wlp_bind.
    apply wlp_splx. unfold wlp, finish, ret. split.
    + exists own, pl. apply tinv_spl. eapply tinv_sem; [done|done|eauto|]. intros y Hy H0. exfalso. congruence.
    + apply (quiet_post none []). split; try done. simpl. by rewrite app_nil_r.
Qed.
Lemma P_spec s own pl sem :
  tinv none s own pl → ts_cur s ≠ 0 → wlp (P sem) (λ r s', opost none r s s') (λ _ _, False) s.
Proof.
  intros Hi Hc. unfold P. wlp_bind. apply wlp_kassert. intros _. wlp_bind. unfold wlp at 1, get.
  wlp_bind. apply wlp_kassert. intros _. wlp_bind. apply wlp_splx.
  wlp_use P_loop_spec; [by apply tinv_spl|done| |done]. intros r s'. apply opost_quiet with []. apply spl_quiet.
Qed.

(** What a routine does that stays on the processor and changes no thread. *)
Definition qpost X pl s s' : Prop := ∃ own' pl' ar, tinv none s' own' pl' ∧ news pl pl' ∧ quiet X ar s s' ∧
  ts_threads s' = ts_threads s ∧ ts_inint s' = ts_inint s ∧ ts_spl s' = ts_spl s ∧ ts_numthreads s' = ts_numthreads s.

Lemma V_spec s own pl sem :
  tinv none s own pl → wlp (V sem) (λ _ s', qpost none pl s s' ∧ ts_locks s' = ts_locks s) (λ _ _, False) s.
Proof.
  intros Hi. unfold V. wlp_bind. apply wlp_kassert. intros _. wlp_bind. apply wlp_splx.
  wlp_bind. apply wlp_the_sem. intros x Hx. wlp_bind. unfold wlp at 1, put_sem, modify. wlp_bind. apply wlp_kassert. intros _.
  wlp_bind. set (s1 := set_sems _ _).
  assert (Hi1 : tinv (λ a, a = sem) s1 own pl).
  { unfold s1. apply (tinv_sem none _ (set_spl SPL_HIGH s)); [by apply tinv_spl|by intros a []|eauto|by right]. }
  wlp_use thread_wakeup_spec; [done| |done]. intros [] s2 (own2 & pl2 & ar & Hi2 & Hnw & Hw).
  wlp_bind. apply wlp_splx. unfold wlp, ret. pose proof (woken_quiet _ _ _ Hw) as Hq.
  split; [|destruct Hw as [(_ & Hl & _)]; exact Hl].
  exists own2, pl2, ar. split; [by apply tinv_spl|]. split; [done|]. split; [by destruct Hq|]. destruct Hw as [(_ & _ & _ & _ & _ & _ & _ & ? & _)]. done.
Qed.

(** ** Locks *)

Lemma lock_release_spec s own pl p :
  tinv none s own pl →
  wlp (lock_release p)
    (λ _ s', qpost (λ q, q = p) pl s s' ∧ ∃ l, ts_locks s !! p = Some l ∧ ts_locks s' = <[p := mklock (lk_name l) 0 0]> (ts_locks s))
    (λ _ _, False) s.
Proof.
  intros Hi. unfold lock_release. wlp_bind. apply wlp_kassert. intros _. wlp_bind. apply wlp_splx.
  wlp_bind. apply wlp_the_lock. intros l Hl. wlp_bind. unfold wlp at 1, put_lock, modify. wlp_bind.
  set (s1 := set_locks _ _).
  assert (Hi1 : tinv (λ a, a = p) s1 own pl).
  { unfold s1. apply (tinv_lock none _ (set_spl SPL_HIGH s)); [by apply tinv_spl|by intros a []|eauto|by right]. }
  wlp_use thread_wakeup_spec; [done| |done]. intros [] s2 (own2 & pl2 & ar & Hi2 & Hnw & Hw).
  pose proof (wk_frame _ _ _ Hw) as (_ & Hl2 & _). pose proof (woken_quiet _ _ _ Hw) as Hq.
  wlp_bind. apply wlp_the_lock. rewrite Hl2. simpl. rewrite lookup_insert_eq. intros l' [= <-].
  wlp_bind. unfold wlp at 1, put_lock, modify. wlp_bind. apply wlp_splx. unfold wlp, ret. simpl.
  assert (Hlocks : <[p := mklock (lk_name l) 0 0]> (ts_locks s2) = <[p := mklock (lk_name l) 0 0]> (ts_locks s)).
  { rewrite Hl2. simpl. by rewrite insert_insert_eq. }
  split; [|exists l; split; [done|exact Hlocks]]. exists own2, pl2, ar. split.
  - apply tinv_spl. eapply tinv_lock; [done|done|..]; rewrite Hl2; simpl; rewrite lookup_insert_eq; [eauto|].
    intros ? [= <-]. done.
  - destruct Hw as [(_ & _ & _ & _ & _ & _ & _ & ? & _)], Hq. split; [done|]. split; [|done]. split; try done. intros q Hne. simpl. rewrite Hlocks.
    by rewrite lookup_insert_ne.
Qed.

Lemma opost_of_qpost X pl s1 s2 s3 r : qpost X pl s1 s2 → opost none r s2 s3 → opost X r s1 s3.
Proof.
  intros (own & pl' & ar & _ & _ & Hq & _) [Hg Hp]. split; [done|].
  eapply post_mono; [|by eapply post_quiet]. by intros p [?|[]].
Qed.
Lemma qpost_opost X pl s s' v : qpost X pl s s' → opost X (Some v) s s'.
Proof. intros (own & pl' & ar & Hi & _ & Hq & _). split; [by exists own, pl'|by eapply quiet_post]. Qed.

Lemma cv_wait_spec s own pl cv p c :
  tinv none s own pl → ts_cur s ≠ 0 → child_of c = None → (simple c = false → p = ts_process_lock s) →
  wlp (cv_wait cv p c)
    (λ r s', r = None ∧ opost (λ q, q = p) None s s' ∧
       ∃ l, ts_locks s !! p = Some l ∧ ts_locks s' = <[p := mklock (lk_name l) 0 0]> (ts_locks s) ∧ lk_pointer l = ts_cur s)
    (λ _ _, False) s.
Proof.
  intros Hi Hc Hch Hsm. unfold cv_wait. do 2 (wlp_bind; apply wlp_kassert; intros _).
  wlp_bind. unfold lock_do_i_hold. wlp_bind. apply wlp_the_lock. intros l0 Hl0. unfold wlp at 1, bind, gets, ret.
  wlp_bind. apply wlp_kassert. intros Hhold%Z.eqb_eq. wlp_bind. apply wlp_splx. wlp_bind.
  wlp_use lock_release_spec; [by apply tinv_spl| |done].
  intros [] s1 (Hq & l & Hl & Hls). simpl in Hl. pose proof Hq as (own1 & pl1 & ar & Hi1 & Hnw & Hqt & Ht1 & _).
  wlp_use thread_sleep_spec; [done| |done|done| | |done].
  { by rewrite (qt_cur _ _ _ _ Hqt). }
  { split; [done|]. simpl. rewrite Hch. split; [done|]. intros q c' [= <- <-]. by rewrite (qt_plock _ _ _ _ Hqt). }
  intros r s' (-> & Hg & Hp & (_ & Hl' & _)). split; [done|]. split.
  - eapply opost_quiet; [apply (spl_quiet s SPL_HIGH)|]. by eapply opost_of_qpost.
  - exists l. rewrite Hl', Hls. simpl. split; [done|]. split; [done|]. congruence.
Qed.
Lemma wake_cv_spec s own pl single cv :
  tinv none s own pl →
  wlp (let! spl := splhigh in wakeup single cv ;;; splx spl ;;; ret tt) (λ _ s', qpost none pl s s' ∧ ts_locks s' = ts_locks s) (λ _ _, False) s.
Proof.
  intros Hi. wlp_bind. apply wlp_splx. wlp_bind. wlp_use wakeup_spec; [by apply tinv_spl| |done].
  intros [] s2 (own2 & pl2 & ar & Hi2 & Hnw & Hw & _). wlp_bind. apply wlp_splx. unfold wlp, ret.
  pose proof (woken_quiet _ _ _ Hw) as Hq. split; [|destruct Hw as [(_ & Hl & _)]; exact Hl].
  exists own2, pl2, ar. split; [by apply tinv_spl|]. split; [done|]. split; [by destruct Hq|]. destruct Hw as [(_ & _ & _ & _ & _ & _ & _ & ? & _)]. done.
Qed.
Lemma cv_signal_spec s own pl cv p :
  tinv none s own pl → wlp (cv_signal cv p) (λ _ s', qpost none pl s s' ∧ ts_locks s' = ts_locks s) (λ _ _, False) s.
Proof.
  intros Hi. unfold cv_signal. do 2 (wlp_bind; apply wlp_kassert; intros _). by apply (wake_cv_spec s own).
Qed.
Lemma cv_broadcast_spec s own pl cv p :
  tinv none s own pl → wlp (cv_broadcast cv p) (λ _ s', qpost none pl s s' ∧ ts_locks s' = ts_locks s) (λ _ _, False) s.
Proof.
  intros Hi. unfold cv_broadcast. do 2 (wlp_bind; apply wlp_kassert; intros _). by apply (wake_cv_spec s own).
Qed.

(** Off the processor only when there is a current thread: a clock interrupt
    while [scheduler] waits comes back at once. *)
Lemma thread_yield_spec s own pl :
  tinv none s own pl →
  wlp thread_yield (λ r s', opost none r s s' ∧ ts_locks s' = ts_locks s) (λ _ _, False) s.
Proof.
  intros Hi. unfold thread_yield. wlp_bind. apply wlp_splx. wlp_bind. unfold wlp at 1, get.
  wlp_bind. apply wlp_kassert. intros _. wlp_bind. pose proof (tinv_spl none s own pl SPL_HIGH Hi) as Hi1.
  destruct (decide (ts_cur s = 0)) as [Hc|Hc].
  - unfold mi_switch. wlp_bind. apply wlp_assert_spl. intros _. wlp_bind. unfold wlp at 1, gets. simpl. rewrite Hc.
    unfold wlp, check_magic, bind, ret, splx, finish, get, put. simpl. split; [|done]. split; [|apply (quiet_post none [])].
    + exists own, pl. by apply tinv_spl, tinv_spl.
    + split; try done. simpl. by rewrite app_nil_r.
  - destruct (cur_facts _ _ _ _ Hi1 Hc) as [Hp [th Ht]].
    wlp_use (mi_switch_spec none _ own pl S_READY (ts_cur s) th); [done|done|done|done|by split| |done].
    intros b s' (-> & own' & pl' & Hi' & Hs). unfold wlp, ret. split; [|destruct Hs as [(_ & Hl & _)]; exact Hl].
    eapply opost_quiet; [apply (spl_quiet s SPL_HIGH)|]. split; [by exists own', pl'|]. by eapply switched_post.
Qed.
End sync.
