(* ===== verification/ThreadLife.v ===== *)
(** * Threads: creation, exit and processes *)

From S2P Require Import Prelude Kmem KArray KQueue Vnode Thread ThreadSpec ThreadInv ThreadOps ThreadSync.

Section life.
Context {H : Type} `{!Kmem H, !KmemOk H}.
Notation S := (ts H).
Implicit Types (s : S) (own : gmap Z block) (pl : gmap Z place) (ex : Z → Prop) (X : Z → Prop).

(** ** Memory *)

Lemma wlp_kfree s p (Q : unit → S → Prop) E :
  kinv (ts_heap s) → is_Some (klive (ts_heap s) !! p) →
  (∀ h', kinv h' → klive h' = delete p (klive (ts_heap s)) → Q tt (set_heap h' s)) →
  wlp (on_mem (kfree p)) Q E s.
Proof.
  intros Hk Hl HQ. apply wlp_zoom, wlp_wp. wp_use kfree_spec; [done|done| |done]. intros [] h' [Hk' Hl']. by apply HQ.
Qed.

(** Only the heap, condition variables, processes, tables and counters differ. *)
Record same_sched s s' : Prop := {
  sm_lists : same_lists s s';
  sm_idle : ts_idle s' = ts_idle s;
  sm_sems : ts_sems s' = ts_sems s;
  sm_locks : ts_locks s' = ts_locks s;
  sm_plock : ts_process_lock s' = ts_process_lock s;
  sm_num : ts_numthreads s' = ts_numthreads s;
  sm_first : ts_first s' = ts_first s;
}.
Lemma same_sched_trans s1 s2 s3 : same_sched s1 s2 → same_sched s2 s3 → same_sched s1 s3.
Proof.
  intros [(? & ? & ? & ?)] [(? & ? & ? & ?)]. split; try congruence. unfold same_lists. split_and!; congruence.
Qed.
Lemma tinv_mem ex s s' own own' pl :
  tinv ex s own pl → owns s' own' → same_sched s s' → ts_threads s' = ts_threads s → tinv ex s' own' pl.
Proof.
  intros Hi Ho [] Ht. apply (tinv_sync ex ex s s' own own' pl); try done.
  intros t th k _ _ _ [?|Hw] _; [by left|]. right. destruct k; simpl in *; by rewrite ?sm_sems0, ?sm_locks0.
Qed.
Lemma same_sched_quiet s s' : same_sched s s' → quiet none [] s s'.
Proof.
  intros [(Hr & Hs & Hz & Hc)]. unfold same_lists in *. split; try done.
  - unfold run_list. by rewrite Hr, app_nil_r.
  - unfold count, run_list, sleep_list, cur_list. by rewrite Hr, Hs, Hc, sm_num0.
  - intros p _. by rewrite sm_locks0.
  - unfold zombie_list. by rewrite Hz.
Qed.

(** ** Destroying threads *)

Definition of_thread (t : Z) (b : block) : bool :=
  match b with B_thread u | B_name u | B_stack u => u =? t | _ => false end.
Lemma own_ne own p q b c : own !! p = Some b → own !! q = Some c → b ≠ c → p ≠ q.
Proof. intros Hp Hq Hne ->. congruence. Qed.
Lemma dropped_thread s t h' :
  dropped (of_thread t) s (set_threads (delete t (ts_threads s)) (set_heap h' s)).
Proof.
  split; simpl; try done; [apply delete_subseteq|].
  intros u [x Hx]. apply lookup_delete_Some in Hx as [Hne _]. split_and!; by apply Z.eqb_neq.
Qed.

(** The common part of [free_thread] and [thread_destroy]; [stack]: also the stack. *)
Lemma drop_thread_spec s own t th h' (fr : list Z) :
  owns s own → ts_threads s !! t = Some th → kinv h' →
  (∀ p, p ∉ fr → klive h' !! p = klive (ts_heap s) !! p) →
  (∀ p, p ∈ fr → p = t ∨ p = t_name th ∨ p = t_stack th ∧ t_stack th ≠ 0) →
  owns (set_threads (delete t (ts_threads s)) (set_heap h' s)) (without (of_thread t) own).
Proof.
  intros Ho Ht Hk Hl Hfr. apply (owns_drop (of_thread t) s); [done|apply dropped_thread|]. simpl. split; [done|].
  intros p [b [Hp Hb]%lookup_without]. apply Hl. intros Hin.
  destruct (ow_thread _ _ Ho t th Ht) as (H1 & H2 & H3).
  destruct (Hfr p Hin) as [->|[->|[-> Hs]]]; [|..|apply H3 in Hs]; simplify_eq; simpl in Hb; by rewrite Z.eqb_refl in Hb.
Qed.
Lemma free_thread_spec s own t (Q : unit → S → Prop) E :
  owns s own →
  (∀ th h', ts_threads s !! t = Some th → owns (set_threads (delete t (ts_threads s)) (set_heap h' s)) (without (of_thread t) own) →
     Q tt (set_threads (delete t (ts_threads s)) (set_heap h' s))) →
  wlp (free_thread t) Q E s.
Proof.
  intros Ho HQ. unfold free_thread. wlp_bind. apply wlp_the_thread. intros th Ht.
  destruct (ow_thread _ _ Ho t th Ht) as (H1 & H2 & _).
  wlp_bind. apply wlp_kfree; [apply Ho|apply (ow_live _ _ Ho); eauto|]. intros h1 Hk1 Hl1.
  wlp_bind. apply wlp_kfree; [done| |].
  { simpl. rewrite Hl1, lookup_delete_ne by (by eapply own_ne). apply (ow_live _ _ Ho); eauto. }
  simpl. intros h2 Hk2 Hl2. apply (HQ th h2 Ht). eapply (drop_thread_spec s own t th h2 [t; t_name th]); [done|done|done| |].
  - intros p Hp. rewrite Hl2, Hl1, !lookup_delete_ne; set_solver.
  - set_solver.
Qed.
Lemma thread_destroy_spec s own t (Q : unit → S → Prop) E :
  owns s own →
  (∀ th h', ts_threads s !! t = Some th → owns (set_threads (delete t (ts_threads s)) (set_heap h' s)) (without (of_thread t) own) →
     Q tt (set_threads (delete t (ts_threads s)) (set_heap h' s))) →
  wlp (thread_destroy t) Q E s.
Proof.
  intros Ho HQ. unfold thread_destroy. wlp_bind. unfold wlp at 1, gets. wlp_bind. apply wlp_kassert. intros _.
  wlp_bind. apply wlp_the_thread. intros th Ht. do 2 (wlp_bind; apply wlp_kassert; intros _).
  destruct (ow_thread _ _ Ho t th Ht) as (H1 & H2 & H3). wlp_bind.
  apply wlp_when.
  - intros Hs. apply negb_true_iff, Z.eqb_neq in Hs. pose proof (H3 Hs) as H4.
    apply wlp_kfree; [apply Ho|apply (ow_live _ _ Ho); eauto|]. intros h0 Hk0 Hl0.
    wlp_bind. apply wlp_kfree; [done| |].
    { simpl. rewrite Hl0, lookup_delete_ne by (by eapply own_ne). apply (ow_live _ _ Ho); eauto. }
    simpl. intros h1 Hk1 Hl1. wlp_bind. apply wlp_kfree; [done| |].
    { simpl. rewrite Hl1, Hl0, !lookup_delete_ne by (by eapply own_ne). apply (ow_live _ _ Ho); eauto. }
    simpl. intros h2 Hk2 Hl2. apply (HQ th h2 Ht).
    eapply (drop_thread_spec s own t th h2 [t; t_name th; t_stack th]); [done|done|done| |].
    + intros p Hp. rewrite Hl2, Hl1, Hl0, !lookup_delete_ne; set_solver.
    + set_solver.
  - intros _. wlp_bind. apply wlp_kfree; [apply Ho|apply (ow_live _ _ Ho); eauto|]. intros h1 Hk1 Hl1.
    wlp_bind. apply wlp_kfree; [done| |].
    { simpl. rewrite Hl1, lookup_delete_ne by (by eapply own_ne). apply (ow_live _ _ Ho); eauto. }
    simpl. intros h2 Hk2 Hl2. apply (HQ th h2 Ht). eapply (drop_thread_spec s own t th h2 [t; t_name th]); [done|done|done| |].
    + intros p Hp. rewrite Hl2, Hl1, !lookup_delete_ne; set_solver.
    + set_solver.
Qed.

(** ** Burying the zombies *)

Lemma zombies_clear_step s own :
  owns s own →
  wlp (on_zombies (array_setsize 0))
    (λ _ s', ∃ h' a' own', s' = set_heap h' (set_zombies a' s) ∧ owns s' own' ∧ arr_contents a' = []) (λ _ _, False) s.
Proof.
  intros Ho. apply wlp_zoom. pose proof (ow_zo _ _ Ho) as [Ha _].
  wlp_use wlp_and; [apply wlp_wp, array_setsize_spec; [done|lia]|apply setsize_self|..].
  - intros [] [h' a'] [(Hok & Hn & Hf & _) Hself]. unfold self_kept in Hself. simpl in *.
    destruct (owns_zombies s own h' a') as [own' Ho']; [done..|]. exists h', a', own'. split; [done|]. split; [done|].
    unfold arr_contents. by rewrite Hn.
  - intros e [h' a'] [[Hlt _] _]. simpl in Hlt. destruct Ha as (_ & [] & _). simpl in *. lia.
Qed.
(** The guards of [thread_destroy]'s caller: the zombies without the first [i]. *)
Definition buried (zs : list Z) (i : nat) s s' : Prop :=
  ∃ m h' own', s' = set_threads m (set_heap h' s) ∧ owns s' own' ∧
    ∀ t, m !! t = if decide (t ∈ take i zs) then None else ts_threads s !! t.
Lemma bury_loop s own (zs : list Z) :
  owns s own → arr_contents (ts_zombies s) = Some <$> zs → ts_cur s ≠ 0 →
  wlp (for_range (Z.to_nat (array_getnum (ts_zombies s))) 0 (λ i,
         let! t := guy (ts_zombies s) i in
         let! cur := gets ts_cur in
         kassert (negb (t =? cur)) ;;;
         thread_destroy t))
    (λ _ s', buried zs (length zs) s s') (λ _ _, False) s.
Proof.
  intros Ho Hzs Hc. destruct (ow_zo _ _ Ho) as [Ha _]. pose proof (arr_num_contents _ _ Ha) as Hn. rewrite Hzs in Hn.
  unfold zlen in Hn. rewrite length_fmap in Hn. unfold array_getnum. rewrite Hn, Nat2Z.id.
  wlp_use (wlp_for_range (λ i s', buried zs (Z.to_nat i) s s') (λ _ _, False)); [| | |done].
  - exists (ts_threads s), (ts_heap s), own. by destruct s.
  - intros i s' Hi (m & h' & own' & -> & Ho' & Hm). wlp_bind. unfold guy. wlp_bind. apply wlp_opt. intros o Hg.
    apply wlp_opt. intros t ->. destruct Ha as (_ & Hwf & _).
    destruct (array_getguy_spec (ts_zombies s) i Hwf) as [He _]; [lia|].
    rewrite He, Hzs, zget_fmap in Hg. unfold zget in Hg. rewrite decide_True in Hg by lia.
    destruct (zs !! Z.to_nat i) as [u|] eqn:Hu; [|done]. simpl in Hg. assert (u = t) as -> by congruence.
    wlp_bind. unfold wlp at 1, gets. wlp_bind. apply wlp_kassert. intros _.
    eapply thread_destroy_spec; [done|]. simpl. intros th h2 Hth Ho2. exists (delete t m), h2, (without (of_thread t) own').
    split; [done|]. split; [done|]. intros v. replace (Z.to_nat (i + 1)) with (Datatypes.S (Z.to_nat i)) by lia.
    erewrite take_S_r by done. destruct (decide (v = t)) as [->|Hne].
    + rewrite lookup_delete_eq, decide_True; [done|]. apply elem_of_app. right. apply list_elem_of_here.
    + rewrite lookup_delete_ne, Hm by done. apply decide_ext. rewrite elem_of_app, list_elem_of_singleton. tauto.
  - intros [] s' Hb. rewrite Z.add_0_l, Nat2Z.id in Hb. done.
Qed.

Definition not_zombie (p : place) : bool := if p is P_zombie then false else true.
Definition survivors pl : gmap Z place := filter (λ kv, not_zombie kv.2 = true) pl.
Lemma lookup_survivors pl t p : survivors pl !! t = Some p ↔ pl !! t = Some p ∧ not_zombie p = true.
Proof. unfold survivors. by rewrite map_lookup_filter_Some. Qed.
Lemma placed_survivors l pl p : not_zombie p = true → placed l pl p → placed l (survivors pl) p.
Proof. intros Hp [Hn Hl]. split; [done|]. intros t. rewrite Hl, lookup_survivors. tauto. Qed.
Lemma thread_ok_survivors ex s s' pl t th p :
  pl !! t = Some p → not_zombie p = true → ts_sems s' = ts_sems s → ts_locks s' = ts_locks s →
  ts_process_lock s' = ts_process_lock s → thread_ok ex s pl t th → thread_ok ex s' (survivors pl) t th.
Proof.
  intros Hp Hz Hs Hl Hpk (? & ? & Hok). split; [done|]. split; [done|]. rewrite Hpk.
  assert (Hk : ∀ k, kont_ok (ts_process_lock s) pl t k → kont_ok (ts_process_lock s) (survivors pl) t k).
  { intros k (? & Hm & ?). split; [done|]. split; [|done]. intros c Hc. apply lookup_survivors. auto. }
  assert (Hw : ∀ k, waiting s k → waiting s' k) by (intros []; unfold waiting; by rewrite ?Hs, ?Hl).
  assert (survivors pl !! t = Some p) as -> by by apply lookup_survivors. rewrite Hp in Hok. destruct p; try done.
  - auto.
  - destruct Hok as (k & ? & ?). eauto.
  - destruct Hok as (k & ? & ? & [?|?] & ?); exists k; auto 8.
Qed.
Lemma tinv_buried ex s own pl h' a' m own' :
  tinv ex s own pl → ts_cur s ≠ 0 → let s' := set_heap h' (set_zombies a' (set_threads m s)) in
  owns s' own' → arr_contents a' = [] →
  (∀ t, m !! t = if decide (t ∈ zombie_list s) then None else ts_threads s !! t) →
  tinv ex s' own' (survivors pl).
Proof.
  intros Hi Hc s' Ho Ha Hm. pose proof Hi as []. pose proof ti_lists as [].
  assert (Hz : zombie_list s' = []) by (unfold zombie_list; simpl; by rewrite Ha).
  assert (Hin : ∀ t p, pl !! t = Some p → not_zombie p = true → m !! t = ts_threads s !! t).
  { intros t p Hp Hnz. rewrite Hm, decide_False; [done|]. intros Ht%ti_zombie. rewrite Hp in Ht. by simplify_eq. }
  split; try done.
  - split; rewrite ?Hz; try done. pose proof (zlen_nonneg (zombie_list s)).
    change (zlen (run_list s) + zlen (sleep_list s) + 0 + zlen (cur_list s) ≤ 67108860). lia.
  - by apply placed_survivors.
  - by apply placed_survivors.
  - rewrite Hz. split; [apply NoDup_nil_2|]. intros t. rewrite lookup_survivors. split; [by intros ?%elem_of_nil|naive_solver].
  - by apply placed_survivors.
  - intros t [p [Hp Hnz]%lookup_survivors]%elem_of_dom. apply elem_of_dom. simpl. rewrite (Hin t p Hp Hnz).
    apply elem_of_dom, ti_dom, elem_of_dom. eauto.
  - intros t th Ht. simpl in Ht. rewrite Hm in Ht. case_decide as Hd; [done|].
    pose proof (ti_thread t th Ht) as Hok. destruct (pl !! t) as [p|] eqn:Hp.
    + eapply thread_ok_survivors; [done| |done|done|done|done]. destruct p; try done. destruct Hd. by apply ti_zombie.
    + destruct Hok as (_ & _ & Hok). by rewrite Hp in Hok.
  - intros Hne. destruct (ti_idle Hne). congruence.
Qed.

(** What [switched_back] leaves behind. *)
Definition back pl s s' : Prop := ∃ own' pl', tinv none s' own' pl' ∧ news pl pl' ∧ quiet none [] s s' ∧
  ts_threads s' !! ts_cur s = ts_threads s !! ts_cur s ∧ ts_numthreads s' = ts_numthreads s.
Lemma exorcise_spec s own pl :
  tinv none s own pl → ts_cur s ≠ 0 → wlp exorcise (λ _ s', back pl s s') (λ _ _, False) s.
Proof.
  intros Hi Hc. pose proof Hi as []. unfold exorcise. wlp_bind. apply wlp_assert_spl. intros _. wlp_bind.
  unfold wlp at 1, gets. wlp_bind. wlp_use bury_loop; [done|apply ti_lists|done| |done].
  intros [] s1 (m & h1 & own1 & -> & Ho1 & Hm). rewrite take_ge in Hm by lia. wlp_bind. apply wlp_try.
  wlp_use zombies_clear_step; [done| |done]. intros [] s2 (h2 & a2 & own2 & -> & Ho2 & Ha2). apply wlp_kassert. intros _.
  exists own2, (survivors pl). split; [|split; [|split]].
  - by apply (tinv_buried none s own pl h2 a2 m own2).
  - intros t u Ht. by apply lookup_survivors.
  - split; try done; [unfold run_list; simpl; by rewrite app_nil_r|].
    unfold zombie_list at 1. simpl. rewrite Ha2. apply zlen_nonneg.
  - split; [|done]. simpl. rewrite Hm, decide_False; [done|]. intros Hz%ti_zombie.
    destruct (cur_facts _ _ _ _ Hi Hc) as [Hp _]. congruence.
Qed.

(** ** Making and unmaking threads *)

(** The current thread is at work on thread [t], which nobody else knows yet. *)
Definition busy s : Prop := ts_idle s = 0 ∧ ∀ th, ts_threads s !! ts_cur s = Some th → t_kont th = None.
Definition made pl (t : Z) s : Prop := pl !! t = Some (P_new (ts_cur s)).

Lemma thread_ok_unmake ex s s' pl t u x :
  u ≠ t → (pl !! t = Some (P_new u) → t_kont x = None) → ts_sems s' = ts_sems s → ts_locks s' = ts_locks s →
  ts_process_lock s' = ts_process_lock s → thread_ok ex s pl u x → thread_ok ex s' (delete t pl) u x.
Proof.
  intros Hne Hm Hs Hl Hpk (? & ? & Hp). split; [done|]. split; [done|]. rewrite lookup_delete_ne, Hpk by done.
  assert (Hw : ∀ k, waiting s k → waiting s' k) by (intros []; unfold waiting; by rewrite ?Hs, ?Hl).
  assert (Hk : ∀ k, t_kont x = Some k → kont_ok (ts_process_lock s) pl u k → kont_ok (ts_process_lock s) (delete t pl) u k).
  { intros k Hk (? & Hmk & ?). split; [done|]. split; [|done]. intros c Hc. apply Hmk in Hc.
    rewrite lookup_delete_ne; [done|]. intros <-. apply Hm in Hc. congruence. }
  destruct (pl !! u) as [[]|]; try done.
  - intros k Hkx. apply Hk; auto.
  - destruct Hp as (k & Hkx & Hok). exists k. split; [done|]. by apply Hk.
  - destruct Hp as (k & Hkx & Hc & Hex & Hok). exists k. split; [done|]. split; [done|].
    split; [destruct Hex; auto|]. by apply Hk.
Qed.
Lemma tinv_unmake ex s s' own own' pl t :
  tinv ex s own pl → busy s → made pl t s → owns s' own' → same_sched s s' →
  ts_threads s' = delete t (ts_threads s) → tinv ex s' own' (delete t pl).
Proof.
  intros Hi (Hid & Hk) Hm Ho [Hls] Ht. unfold made in Hm. pose proof Hi as [].
  destruct (placed_same s s' (delete t pl) Hls) as (Hr & Hs & Hz & Hcu). split; try done.
  - by eapply lists_same.
  - apply Hr, placed_drop; [done|congruence].
  - apply Hs, placed_drop; [done|congruence].
  - apply Hz, placed_drop; [done|congruence].
  - apply Hcu, placed_drop; [done|congruence].
  - rewrite Ht, !dom_delete_L. set_solver.
  - rewrite Ht. intros u x [Hne Hx]%lookup_delete_Some. eapply thread_ok_unmake; [done| |done|done|done|by apply ti_thread].
    rewrite Hm. intros [= <-]. by apply Hk.
  - by rewrite sm_idle0, Hid.
Qed.
Lemma tinv_make ex s s' own own' pl t th' :
  tinv ex s own pl → ts_threads s !! t = None → owns s' own' → same_sched s s' →
  ts_threads s' = <[t := th']> (ts_threads s) → t_vmspace th' = 0 → t_cwd th' = 0 → t_kont th' = None →
  tinv ex s' own' (<[t := P_new (ts_cur s)]> pl) ∧ pl !! t = None.
Proof.
  intros Hi Hn Ho Hss Ht Hv Hcw Hk. pose proof Hss as [Hls]. pose proof Hi as [].
  assert (Hpl : pl !! t = None). { apply not_elem_of_dom. intros Hd%ti_dom%elem_of_dom. rewrite Hn in Hd. by destruct Hd. }
  split; [|done]. destruct (placed_same s s' (<[t := P_new (ts_cur s)]> pl) Hls) as (Hr & Hs & Hz & Hcu).
  apply (tinv_move ex s s' own own' pl t th'); try done.
  - by rewrite Hpl.
  - by eapply lists_same.
  - apply Hr, placed_other; [done|congruence|done].
  - apply Hs, placed_other; [done|congruence|done].
  - apply Hz, placed_other; [done|congruence|done].
  - apply Hcu, placed_other; [done|congruence|done].
  - split; [done|]. split; [done|]. rewrite lookup_insert_eq. by left.
  - destruct Hls as (_ & _ & _ & ->). rewrite sm_idle0, Ht. intros Hne. destruct (ti_idle Hne) as [? Hid].
    split; [done|]. apply lookup_insert_is_Some. destruct (decide (t = ts_idle s)); [by left|by right].
Qed.

(** A block nothing else knows is given back. *)
Lemma owns_forget s h p b own : owns s own → owns (set_heap h s) (<[p := b]> own) → own !! p = None → owns (set_heap h s) own.
Proof.
  intros Ho Ho' Hn. destruct (ow_sl _ _ Ho'), (ow_zo _ _ Ho'), (ow_rq _ _ Ho'). destruct Ho. split; try done.
  - apply Ho'.
  - intros q Hq. apply (ThreadSpec.ow_live _ _ Ho'), lookup_insert_is_Some. destruct (decide (p = q)); [by left|by right].
  - by destruct ow_sl.
  - by destruct ow_zo.
  - by destruct ow_rq.
Qed.
Lemma kfree_foreign s own h p b (Q : unit → S → Prop) E :
  owns s own → owns (set_heap h s) (<[p := b]> own) → own !! p = None →
  (∀ h', owns (set_heap h' s) own → Q tt (set_heap h' s)) → wlp (on_mem (kfree p)) Q E (set_heap h s).
Proof.
  intros Ho Ho1 Hn HQ. apply wlp_kfree; [apply Ho1|apply (ow_live _ _ Ho1); by rewrite lookup_insert_eq|].
  intros h' Hk Hl. apply HQ. apply (owns_heap (set_heap h s)); [by eapply owns_forget|]. split; [done|].
  intros q [c Hq]. rewrite Hl, lookup_delete_ne; [done|]. intros ->. congruence.
Qed.

Definition untouched pl s s' : Prop := ∃ own', tinv none s' own' pl ∧ same_sched s s' ∧ ts_threads s' = ts_threads s.
Lemma same_sched_heap s h : same_sched s (set_heap h s).
Proof. done. Qed.
Lemma untouched_heap s own own' pl h : tinv none s own pl → owns (set_heap h s) own' → untouched pl s (set_heap h s).
Proof. intros Hi Ho. exists own'. split; [by eapply tinv_mem|done]. Qed.
Lemma untouched_trans pl s1 s2 s3 : untouched pl s1 s2 → untouched pl s2 s3 → untouched pl s1 s3.
Proof.
  intros (_ & _ & Hs & Ht) (own & Hi & Hs' & Ht'). exists own. split; [done|]. split; [by eapply same_sched_trans|congruence].
Qed.

(** An object with a name: [kmalloc], [kstrdup], and the object given back when
    there is no room for the name. *)
Lemma named_spec s own sz len b1 b2 (f : Z → Z → M S unit) (Q : Z → S → Prop) E :
  owns s own → 0 ≤ sz ≤ 4294963200 → 0 ≤ len < 4294963200 →
  (∀ h', owns (set_heap h' s) own → Q 0 (set_heap h' s)) →
  (∀ p n h', p ≠ 0 → own !! p = None → own !! n = None → n ≠ p →
     owns (set_heap h' s) (<[n := b2 p]> (<[p := b1 p]> own)) → wlp (f p n) (λ _ s', Q p s') E (set_heap h' s)) →
  wlp (let! p := on_mem (kmalloc sz) in
       if p =? 0 then ret 0
       else let! n := kstrdup len in
            if n =? 0 then on_mem (kfree p) ;;; ret 0 else f p n ;;; ret p) Q E s.
Proof.
  intros Ho Hsz Hlen H0 H1. wlp_bind. eapply kmalloc_own; [done|done| |]; [by intros h' Ho'; apply H0|].
  intros p h1 Hp Hn Hob. destruct (Z.eqb_spec p 0) as [|_]; [done|]. wlp_bind. unfold kstrdup.
  eapply (kmalloc_own _ (<[p := b1 p]> own)); [apply Hob|lia| |].
  - intros h2 Ho2. simpl. wlp_bind. eapply (kfree_foreign s own h2 p (b1 p)); [done|done|done|]. intros h3 Ho3. by apply H0.
  - intros n h2 Hn0 Hnn Hob2. destruct (Z.eqb_spec n 0) as [|_]; [done|].
    assert (n ≠ p) by (intros ->; by rewrite lookup_insert_eq in Hnn).
    rewrite lookup_insert_ne in Hnn by done. wlp_bind. eapply wlp_mono; [by eapply (H1 p n h2)|done|done].
Qed.
Lemma fresh_thread s own p : owns s own → own !! p = None → ts_threads s !! p = None.
Proof.
  intros Ho Hn. destruct (ts_threads s !! p) as [th|] eqn:Ht; [|done]. destruct (ow_thread _ _ Ho p th Ht). congruence.
Qed.
Lemma fresh_cv s own p : owns s own → own !! p = None → ts_cvs s !! p = None.
Proof.
  intros Ho Hn. destruct (ts_cvs s !! p) as [th|] eqn:Ht; [|done]. destruct (ow_cv _ _ Ho p th Ht). congruence.
Qed.

Lemma new_thread_spec s own pl len :
  tinv none s own pl → 0 ≤ len < 4294963200 →
  wlp (new_thread len)
    (λ t s', t = 0 ∧ untouched pl s s' ∨
       t ≠ 0 ∧ ∃ own' th, tinv none s' own' (<[t := P_new (ts_cur s)]> pl) ∧ pl !! t = None ∧ same_sched s s' ∧
         ts_threads s' = <[t := th]> (ts_threads s) ∧ t_kont th = None) (λ _ _, False) s.
Proof.
  intros Hi Hlen. pose proof (ti_owns _ _ _ _ Hi) as Ho. unfold new_thread.
  eapply (named_spec s own _ _ B_thread B_name
    (λ t n, modify (λ s, set_threads (<[t := mkthread 0 n 0 0 [] 0 0 0 0 None]> (ts_threads s)) s)));
    [done|unfold sizeof_thread; lia|done| |].
  - intros h' Ho'. left. split; [done|]. by eapply untouched_heap.
  - intros t n h' Ht0 Ht Hn Hne Ho'. unfold wlp, modify. right. split; [done|].
    pose proof (fresh_thread s own t Ho Ht) as Hft.
    exists (<[n := B_name t]> (<[t := B_thread t]> own)). eexists. simpl.
    assert (Ho2 : owns (set_threads (<[t := mkthread 0 n 0 0 [] 0 0 0 0 None]> (ts_threads s)) (set_heap h' s))
                    (<[n := B_name t]> (<[t := B_thread t]> own))).
    { destruct Ho'. split; try done. simpl. apply map_Forall_insert_2; [|done].
      split; [by rewrite lookup_insert_ne, lookup_insert_eq by done|]. split; [by rewrite lookup_insert_eq|done]. }
    destruct (tinv_make none s _ own _ pl t (mkthread 0 n 0 0 [] 0 0 0 0 None) Hi Hft Ho2) as [Hi' Hpl]; [done..|].
    by split; [exact Hi'|].
Qed.
Lemma cv_create_spec s own pl len :
  tinv none s own pl → 0 ≤ len < 4294963200 → wlp (cv_create len) (λ _ s', untouched pl s s' ∧ ts_procs s' = ts_procs s) (λ _ _, False) s.
Proof.
  intros Hi Hlen. pose proof (ti_owns _ _ _ _ Hi) as Ho. unfold cv_create.
  eapply (named_spec s own _ _ B_cv B_cvname (λ p n, modify (λ s, set_cvs (<[p := mkcv n]> (ts_cvs s)) s)));
    [done|unfold sizeof_cv; lia|done| |].
  - intros h' Ho'. split; [by eapply untouched_heap|done].
  - intros t n h' Ht0 Ht Hn Hne Ho'. unfold wlp, modify. split; [|done]. exists (<[n := B_cvname t]> (<[t := B_cv t]> own)).
    split; [|done]. eapply tinv_mem; [done| |done|done]. destruct Ho'. split; try done. simpl.
    apply map_Forall_insert_2; [|done]. split; [by rewrite lookup_insert_ne, lookup_insert_eq by done|].
    simpl. by rewrite lookup_insert_eq.
Qed.

Definition of_cv (c : Z) (b : block) : bool := match b with B_cv u | B_cvname u => u =? c | _ => false end.
Definition of_proc (p : Z) (b : block) : bool := match b with B_proc u => u =? p | _ => false end.
Lemma cv_destroy_spec s own pl p :
  tinv none s own pl → wlp (cv_destroy p) (λ _ s', untouched pl s s' ∧ ts_procs s' = ts_procs s) (λ _ _, False) s.
Proof.
  intros Hi. pose proof (ti_owns _ _ _ _ Hi) as Ho. unfold cv_destroy. wlp_bind. apply wlp_kassert. intros _.
  wlp_bind. apply wlp_opt. intros c Hc. destruct (ow_cv _ _ Ho p c Hc) as [H1 H2].
  wlp_bind. apply wlp_kfree; [apply Ho|apply (ow_live _ _ Ho); eauto|]. intros h1 Hk1 Hl1.
  wlp_bind. apply wlp_kfree; [done| |].
  { simpl. rewrite Hl1, lookup_delete_ne by (by eapply own_ne). apply (ow_live _ _ Ho); eauto. }
  simpl. intros h2 Hk2 Hl2. unfold wlp, modify. split; [|done]. exists (without (of_cv p) own). split; [|done].
  eapply tinv_mem; [done| |done|done]. apply (owns_drop (of_cv p) s); [done| |].
  - split; simpl; try done; [apply delete_subseteq|].
    intros u [x [Hne _]%lookup_delete_Some]. split; by apply Z.eqb_neq.
  - split; [done|]. simpl. intros q [b [Hq Hb]%lookup_without]. rewrite Hl2, Hl1, !lookup_delete_ne; [done|..];
      intros <-; simplify_eq; simpl in Hb; by rewrite Z.eqb_refl in Hb.
Qed.
Lemma free_process_spec s own pl p :
  tinv none s own pl → is_Some (ts_procs s !! p) → wlp (free_process p) (λ _ s', untouched pl s s') (λ _ _, False) s.
Proof.
  intros Hi [x Hx]. pose proof (ti_owns _ _ _ _ Hi) as Ho. pose proof (ow_proc _ _ Ho p x Hx) as H1. simpl in H1. unfold free_process.
  wlp_bind. apply wlp_kfree; [apply Ho|apply (ow_live _ _ Ho); eauto|]. intros h1 Hk1 Hl1. unfold wlp, modify.
  exists (without (of_proc p) own). split; [|done].
  eapply tinv_mem; [done| |done|done]. apply (owns_drop (of_proc p) s); [done| |].
  - split; simpl; try done; [apply delete_subseteq|].
    intros u [y [Hne _]%lookup_delete_Some]. by apply Z.eqb_neq.
  - split; [done|]. simpl. intros q [b [Hq Hb]%lookup_without]. rewrite Hl1, lookup_delete_ne; [done|].
    intros <-. simplify_eq. simpl in Hb. by rewrite Z.eqb_refl in Hb.
Qed.
Lemma put_proc_untouched s own pl p x :
  tinv none s own pl → is_Some (ts_procs s !! p) → untouched pl s (set_procs (<[p := x]> (ts_procs s)) s).
Proof.
  intros Hi [y Hy]. exists own. split; [|done]. eapply tinv_mem; [done| |done|done].
  destruct (ti_owns _ _ _ _ Hi). split; try done. simpl. apply map_Forall_insert_2; [|done]. by eapply ow_proc.
Qed.

(** What a routine does that gives up the thread it was making. *)
Definition unmade pl (t : Z) s s' : Prop := ∃ own', tinv none s' own' (delete t pl) ∧ same_sched s s' ∧
  ts_threads s' = delete t (ts_threads s) ∧ ts_procs s' = ts_procs s.
Lemma unmake_spec s own pl t :
  tinv none s own pl → busy s → made pl t s → wlp (free_thread t) (λ _ s', unmade pl t s s') (λ _ _, False) s.
Proof.
  intros Hi Hb Hm. eapply free_thread_spec; [apply Hi|]. intros th h' Ht Ho. exists (without (of_thread t) own).
  split; [by eapply tinv_unmake|done].
Qed.
Lemma unmade_quiet pl t s s' : unmade pl t s s' → quiet none [] s s'.
Proof. intros (own & _ & Hs & _). by apply same_sched_quiet. Qed.
Lemma untouched_quiet pl s s' : untouched pl s s' → quiet none [] s s'.
Proof. intros (own & _ & Hs & _). by apply same_sched_quiet. Qed.
Lemma untouched_busy pl s s' : untouched pl s s' → busy s → busy s'.
Proof. intros (_ & _ & [(_ & _ & _ & Hcur)] & Ht) Hb. unfold busy in *. by rewrite Hcur, Ht, sm_idle0. Qed.
Lemma untouched_made pl t s s' : untouched pl s s' → made pl t s → made pl t s'.
Proof. intros (_ & _ & [(_ & _ & _ & Hcur)] & Ht) Hb. unfold made in *. by rewrite Hcur. Qed.
End life.
