(* ===== verification/ThreadProc.v ===== *)
(** * Threads: processes, fork, exit and wait *)

From S2P Require Import Prelude Kmem KArray KQueue Vnode Thread ThreadSpec ThreadInv ThreadOps ThreadSync ThreadLife.

Section proc.
Context {H : Type} `{!Kmem H, !KmemOk H}.
Notation S := (ts H).
Implicit Types (s : S) (own : gmap Z block) (pl : gmap Z place) (ex : Z → Prop) (X : Z → Prop).

Lemma wlp_the_proc p (Q : process → S → Prop) E s :
  (∀ x, ts_procs s !! p = Some x → Q x s) → wlp (the_proc p) Q E s.
Proof. apply wlp_opt. Qed.

Lemma wlp_next_pid (Q : Z → S → Prop) E s : (∀ pid, Q pid s) → wlp next_pid Q E s.
Proof. intros HQ. apply HQ. Qed.

Lemma idle_0 ex s own pl : tinv ex s own pl → ts_cur s ≠ 0 → ts_idle s = 0.
Proof.
  intros Hi Hc. destruct (decide (ts_idle s = 0)) as [|Hne]; [done|]. by apply (ti_idle _ _ _ _ Hi) in Hne as [? _].
Qed.

(** ** A new process *)

(** The routine has failed and nothing is left of the new thread. *)
Definition failed s s' : Prop := good s' ∧ quiet none [] s s'.
Lemma failed_after pl t s s1 s' : unmade pl t s s1 → untouched (delete t pl) s1 s' → failed s s'.
Proof.
  intros Hu (own & Hi & Hs & _). split; [by exists own, (delete t pl)|].
  eapply quiet_mono; [|eapply (quiet_trans none none [] []); [by eapply unmade_quiet|by apply same_sched_quiet]].
  by intros p [[]|[]].
Qed.
Lemma quiet_none_trans ar s1 s2 s3 : quiet none [] s1 s2 → quiet none ar s2 s3 → quiet none ar s1 s3.
Proof.
  intros H1 H2. eapply quiet_mono; [|eapply (quiet_trans none none [] ar); done]. by intros p [[]|[]].
Qed.
Lemma failed_quiet s s1 s' : quiet none [] s s1 → failed s1 s' → failed s s'.
Proof. intros Hq [Hg Hq']. split; [done|]. by eapply quiet_none_trans. Qed.
(** Freeing the thread and the process. *)
Lemma unmake_process_spec s own pl t temp :
  tinv none s own pl → busy s → made pl t s → is_Some (ts_procs s !! temp) →
  wlp (free_thread t ;;; free_process temp) (λ _ s', failed s s') (λ _ _, False) s.
Proof.
  intros Hi Hb Hm Hp. wlp_bind. wlp_use unmake_spec; [done|done|done| |done]. intros [] s1 Hu.
  pose proof Hu as (own1 & Hi1 & _ & _ & Hp1). wlp_use free_process_spec; [done| | |done]; [by rewrite Hp1|].
  intros [] s2 Hu2. by eapply failed_after.
Qed.

Lemma wlp_seq_assoc {A B C} (c : M S A) (d : M S B) (f : M S C) Q E s :
  wlp ((c ;;; d) ;;; f) Q E s → wlp (c ;;; d ;;; f) Q E s.
Proof. unfold wlp, bind. by destruct (c s) as [? s1| | |]. Qed.

Lemma new_process_spec s own pl t :
  tinv none s own pl → busy s → made pl t s →
  wlp (new_process t)
    (λ temp s', temp = 0 ∧ failed s s' ∨ temp ≠ 0 ∧ untouched pl s s' ∧ is_Some (ts_procs s' !! temp)) (λ _ _, False) s.
Proof.
  intros Hi Hb Hm. unfold new_process. wlp_bind. eapply kmalloc_own; [apply Hi|unfold sizeof_process; lia| |].
  - intros h1 Ho1. simpl. wlp_bind. pose proof (untouched_heap s own own pl h1 Hi Ho1) as Hu. pose proof Hu as (own2 & Hi2 & _).
    wlp_use unmake_spec; [exact Hi2|by eapply untouched_busy|by eapply untouched_made| |done].
    intros [] s2 Hun. unfold wlp, ret. left. split; [done|].
    eapply failed_quiet; [by eapply untouched_quiet|]. pose proof Hun as (own3 & Hi3 & _). split; [by exists own3, (delete t pl)|].
    by eapply unmade_quiet.
  - intros temp h1 Ht0 Hn Hob. destruct (Z.eqb_spec temp 0) as [|_]; [done|]. wlp_bind. unfold wlp at 1, gets. wlp_bind.
    unfold wlp at 1, put_proc, modify. simpl. set (s1 := set_procs _ _).
    assert (Hu1 : untouched pl s s1).
    { exists (<[temp := B_proc temp]> own). split; [|done]. eapply tinv_mem; [done| |done|done].
      destruct (Hob (B_proc temp)). split; try done. simpl. apply map_Forall_insert_2; [by rewrite lookup_insert_eq|done]. }
    pose proof Hu1 as (own1 & Hi1 & _). wlp_bind. wlp_use cv_create_spec; [done|lia| |done].
    intros c s2 [Hu2 Hp2]. pose proof Hu2 as (own2 & Hi2 & _). wlp_bind. apply wlp_the_proc. intros x Hx. wlp_bind.
    unfold wlp at 1, put_proc, modify.
    pose proof (put_proc_untouched s2 own2 pl temp (proc_set_cv c x) Hi2 ltac:(eauto)) as Hu3.
    set (s3 := set_procs _ s2) in *. pose proof Hu3 as (own3 & Hi3 & _).
    assert (Hu : untouched pl s s3) by (eapply untouched_trans; [exact Hu1|by eapply untouched_trans]).
    assert (Htemp : is_Some (ts_procs s3 !! temp)) by (simpl; by rewrite lookup_insert_eq).
    destruct (c =? 0); [|unfold wlp, ret; by right].
    apply wlp_seq_assoc. wlp_bind.
    wlp_use unmake_process_spec; [exact Hi3|by eapply untouched_busy|by eapply untouched_made|done| |done].
    intros [] s4 Hf. unfold wlp, ret. left. split; [done|]. eapply failed_quiet; [by eapply untouched_quiet|done].
Qed.

(** A change of the thread being made. *)
Lemma made_ne ex s own pl t : tinv ex s own pl → is_Some (ts_threads s !! t) → made pl t s → t ≠ ts_cur s.
Proof.
  intros Hi Ht Hm ->. destruct (decide (ts_cur s = 0)) as [Hc|Hc].
  - apply (thread_nonnull s own _) in Ht; [done|apply Hi].
  - destruct (cur_facts _ _ _ _ Hi Hc) as [Hp _]. unfold made in Hm. congruence.
Qed.
Lemma made_upd s own own' pl t th th' :
  tinv none s own pl → busy s → made pl t s → ts_threads s !! t = Some th →
  let s' := set_threads (<[t := th']> (ts_threads s)) s in
  owns s' own' → t_vmspace th' = 0 → t_cwd th' = 0 → t_kont th' = None ∨ t_kont th' = Some K_start →
  tinv none s' own' pl ∧ busy s' ∧ quiet none [] s s'.
Proof.
  intros Hi Hb Hm Ht s' Ho Hv Hc Hk. pose proof Hb as (Hid & Hkc). pose proof (made_ne _ _ _ _ _ Hi ltac:(eauto) Hm) as Hne.
  pose proof Hi as []. unfold made in Hm. split; [|split].
  - rewrite <- (insert_id pl t _ Hm). apply (tinv_move none s s' own own' pl t th'); try done; rewrite ?(insert_id pl t _ Hm); try done.
    + rewrite Hm. intros u x [= <-]. apply Hkc.
    + by destruct ti_lists.
    + split; [done|]. split; [done|]. by rewrite Hm.
  - split; [done|]. simpl. by rewrite lookup_insert_ne.
  - split; try done. simpl. by rewrite app_nil_r.
Qed.
Lemma made_thread s own pl t th :
  tinv none s own pl → made pl t s → ts_threads s !! t = Some th →
  t_vmspace th = 0 ∧ t_cwd th = 0 ∧ (t_kont th = None ∨ t_kont th = Some K_start).
Proof.
  intros Hi Hm Ht. destruct (ti_thread _ _ _ _ Hi t th Ht) as (? & ? & Hk). unfold made in Hm. by rewrite Hm in Hk.
Qed.

(** The state in which the current thread goes on making [t]. *)
Definition making_state X pl t s s' : Prop := ∃ own' pl' ar, tinv none s' own' pl' ∧ busy s' ∧ made pl' t s' ∧ quiet X ar s s' ∧
  ts_numthreads s' = ts_numthreads s.

Lemma enter_process_spec s own pl t temp pid ppid :
  tinv none s own pl → busy s → made pl t s →
  wlp (enter_process t temp pid ppid)
    (λ _ s', ∃ own', tinv none s' own' pl ∧ busy s' ∧ quiet none [] s s' ∧ ts_numthreads s' = ts_numthreads s) (λ _ _, False) s.
Proof.
  intros Hi Hb Hm. unfold enter_process. wlp_bind. apply wlp_the_proc. intros x Hx. wlp_bind.
  unfold wlp at 1, put_proc, modify.
  pose proof (put_proc_untouched s own pl temp (mkprocess PROCESS_RUNNING 0 pid ppid t (p_array_cv x)) Hi ltac:(eauto)) as Hu1.
  set (s1 := set_procs _ s) in *. pose proof Hu1 as (own1 & Hi1 & _). wlp_bind. apply wlp_upd_thread. intros th Ht.
  destruct (made_thread s own pl t th Hi Hm Ht) as (Hv & Hc & Hk).
  destruct (made_upd s1 own1 own1 pl t th (t_set_process pid temp th)) as (Hi2 & Hb2 & Hq2);
    [done|by eapply untouched_busy|done|done| |done|done|done|].
  { eapply owns_upd; [apply Hi1|done|done|done]. }
  set (s2 := set_threads _ s1) in *. unfold table_set. wlp_bind. unfold wlp at 1, get.
  destruct (_ && _); [|done]. unfold wlp, put. exists own1. split; [|split].
  - eapply tinv_mem; [done| |done|done]. by destruct (ti_owns _ _ _ _ Hi2).
  - done.
  - split; [|done]. eapply quiet_none_trans; [by eapply untouched_quiet|]. eapply quiet_none_trans; [exact Hq2|]. by apply same_sched_quiet.
Qed.

Lemma child_locked_spec s own pl t temp :
  tinv none s own pl → busy s → ts_cur s ≠ 0 → made pl t s →
  wlp (child_locked t temp)
    (λ ok s', if (ok : bool) then making_state (λ q, q = ts_process_lock s) pl t s s' else failed s s') (λ _ _, False) s.
Proof.
  intros Hi Hb Hc0 Hm. unfold child_locked. wlp_bind. apply wlp_next_pid. intros pid. wlp_bind. apply wlp_the_proc. intros x Hx. wlp_bind.
  unfold wlp at 1, put_proc, modify.
  pose proof (put_proc_untouched s own pl temp (mkprocess (p_status x) (p_exitcode x) pid (p_ppid x) (p_process_ptr x) (p_array_cv x)) Hi ltac:(eauto)) as Hu1.
  set (s1 := set_procs _ s) in *. pose proof Hu1 as (own1 & Hi1 & _).
  pose proof (untouched_busy _ _ _ Hu1 Hb) as Hb1. pose proof (untouched_made _ t _ _ Hu1 Hm) as Hm1.
  destruct (pid =? -1).
  - wlp_bind. wlp_use cv_destroy_spec; [exact Hi1| |done]. intros [] s2 [Hu2 Hp2]. pose proof Hu2 as (own2 & Hi2 & _).
    apply wlp_seq_assoc. wlp_bind.
    wlp_use unmake_process_spec; [exact Hi2|by eapply untouched_busy|by eapply untouched_made| | |done].
    { rewrite Hp2. simpl. by rewrite lookup_insert_eq. }
    intros [] s3 Hf. unfold wlp, ret. eapply failed_quiet; [|done].
    eapply quiet_none_trans; by eapply untouched_quiet.
  - wlp_bind. unfold wlp at 1, gets. wlp_bind. apply wlp_the_thread. intros th Ht. wlp_bind.
    wlp_use enter_process_spec; [exact Hi1|done|done| |done]. intros [] s2 (own2 & Hi2 & Hb2 & Hq2 & Hn2).
    wlp_bind. unfold wlp at 1, gets. wlp_bind. wlp_use (lock_release_spec s2 own2 pl (ts_process_lock s2)); [exact Hi2| |done].
    intros [] s3 [(own3 & pl3 & ar & Hi3 & Hnw & Hq3 & Ht3 & _ & _ & Hn3) _]. unfold wlp, ret. exists own3, pl3, ar.
    rewrite (qt_plock _ _ _ _ Hq2) in Hq3. split; [done|]. split; [|split].
    + destruct Hb2 as (Hid2 & Hk2). unfold busy. rewrite Ht3, (qt_cur _ _ _ _ Hq3). split; [|done].
      eapply idle_0; [exact Hi3|]. by rewrite (qt_cur _ _ _ _ Hq3), (qt_cur _ _ _ _ Hq2).
    + unfold made in *. rewrite (qt_cur _ _ _ _ Hq3), (qt_cur _ _ _ _ Hq2). by apply Hnw.
    + split; [|by rewrite Hn3, Hn2]. eapply quiet_mono; [|eapply (quiet_trans none _ []); [eapply quiet_none_trans; [by eapply untouched_quiet|exact Hq2]|exact Hq3]].
      by intros q [[]|?].
Qed.

(** ** Room for one more thread *)

Lemma sleepers_pre_step s own n :
  owns s own → n < 268435456 →
  wlp (on_sleepers (array_preallocate n))
    (λ _ s', ∃ h' a' own', s' = set_heap h' (set_sleepers a' s) ∧ owns s' own' ∧ arr_contents a' = arr_contents (ts_sleepers s))
    (λ _ s', nomem s own s') s.
Proof.
  intros Ho Hn. apply wlp_zoom. pose proof (ow_sl _ _ Ho) as [Ha _].
  wlp_use wlp_and; [apply wlp_wp, array_preallocate_spec; [done|done]|apply preallocate_self|..].
  - intros [] [h' a'] [(Hok & He & _ & _ & _ & Hf) Hself]. unfold self_kept in Hself. simpl in *.
    destruct (owns_sleepers s own h' a') as [own' Ho']; [done..|]. by exists h', a', own'.
  - intros e [h' a'] [(_ & (Hk & _) & Hsame & Hl) _]. simpl in *. subst a'.
    exists h'. rewrite (proj1 (proj2 (set_same s h'))). split; [done|]. by apply nomem_live.
Qed.
Lemma zombies_pre_step s own n :
  owns s own → n < 268435456 →
  wlp (on_zombies (array_preallocate n))
    (λ _ s', ∃ h' a' own', s' = set_heap h' (set_zombies a' s) ∧ owns s' own' ∧ arr_contents a' = arr_contents (ts_zombies s))
    (λ _ s', nomem s own s') s.
Proof.
  intros Ho Hn. apply wlp_zoom. pose proof (ow_zo _ _ Ho) as [Ha _].
  wlp_use wlp_and; [apply wlp_wp, array_preallocate_spec; [done|done]|apply preallocate_self|..].
  - intros [] [h' a'] [(Hok & He & _ & _ & _ & Hf) Hself]. unfold self_kept in Hself. simpl in *.
    destruct (owns_zombies s own h' a') as [own' Ho']; [done..|]. by exists h', a', own'.
  - intros e [h' a'] [(_ & (Hk & _) & Hsame & Hl) _]. simpl in *. subst a'.
    exists h'. rewrite (proj2 (proj2 (set_same s h'))). split; [done|]. by apply nomem_live.
Qed.
Lemma runqueue_pre_step s own n :
  owns s own → n ≤ 67108864 → q_size (ts_runqueue s) ≤ 134217728 →
  wlp (on_runqueue (q_preallocate n))
    (λ _ s', ∃ h' q' own', s' = set_heap h' (set_runqueue q' s) ∧ owns s' own' ∧
       q_elems q' = q_elems (ts_runqueue s) ∧ q_size q' ≤ 134217728)
    (λ _ s', nomem s own s') s.
Proof.
  intros Ho Hn Hsz. apply wlp_zoom. pose proof (ow_rq _ _ Ho) as [Ha _].
  wlp_use wlp_and; [apply wlp_wp, q_preallocate_spec; [done|lia]|apply preallocate_q_self|..].
  - intros [] [h' a'] [(Hok & He & _ & _ & Hf & Hs) Hself]. unfold q_kept in Hself. simpl in *.
    destruct (owns_runqueue s own h' a') as [own' Ho']; [done..|]. exists h', a', own'. split_and!; try done. lia.
  - intros e [h' a'] [(_ & (Hk & _) & Hsame & Hl) _]. simpl in *. subst a'.
    exists h'. rewrite (proj1 (set_same s h')). split; [done|]. by apply nomem_live.
Qed.

(** The same threads in the same places, in other blocks. *)
Record alike s s' : Prop := {
  al_run : q_elems (ts_runqueue s') = q_elems (ts_runqueue s);
  al_size : q_size (ts_runqueue s) ≤ 134217728 → q_size (ts_runqueue s') ≤ 134217728;
  al_sleep : arr_contents (ts_sleepers s') = arr_contents (ts_sleepers s);
  al_zombie : arr_contents (ts_zombies s') = arr_contents (ts_zombies s);
  al_cur : ts_cur s' = ts_cur s;
  al_threads : ts_threads s' = ts_threads s;
  al_idle : ts_idle s' = ts_idle s;
  al_sems : ts_sems s' = ts_sems s;
  al_locks : ts_locks s' = ts_locks s;
  al_plock : ts_process_lock s' = ts_process_lock s;
  al_num : ts_numthreads s' = ts_numthreads s;
  al_first : ts_first s' = ts_first s;
}.
Lemma alike_lists s s' : alike s s' →
  run_list s' = run_list s ∧ sleep_list s' = sleep_list s ∧ zombie_list s' = zombie_list s ∧ cur_list s' = cur_list s.
Proof. intros []. unfold run_list, sleep_list, zombie_list, cur_list. by rewrite al_run0, al_sleep0, al_zombie0, al_cur0. Qed.
Lemma alike_quiet s s' : alike s s' → quiet none [] s s'.
Proof.
  intros Ha. destruct (alike_lists s s' Ha) as (Hr & Hs & Hz & Hc). destruct Ha. split; try done.
  - by rewrite Hr, app_nil_r.
  - unfold count. by rewrite Hr, Hs, Hc, al_num0.
  - intros p _. by rewrite al_locks0.
  - by rewrite Hz.
Qed.
Lemma tinv_alike s s' own own' pl : tinv none s own pl → owns s' own' → alike s s' → tinv none s' own' pl.
Proof.
  intros [] Ho Ha. destruct (alike_lists s s' Ha) as (Hr & Hs & Hz & Hc). pose proof Ha as []. destruct ti_lists.
  split; rewrite ?Hr, ?Hs, ?Hz, ?Hc; try done.
  - split; rewrite ?Hr, ?Hs, ?Hz, ?Hc, ?al_run0, ?al_sleep0, ?al_zombie0; try done. by apply al_size0.
  - by rewrite al_threads0.
  - rewrite al_threads0. intros t th Ht. destruct (ti_thread t th Ht) as (? & ? & Hp). split; [done|]. split; [done|].
    rewrite al_plock0. assert (Hw : ∀ k, waiting s k → waiting s' k) by (intros []; unfold waiting; by rewrite ?al_sems0, ?al_locks0).
    destruct (pl !! t) as [[]|]; try done. destruct Hp as (k & ? & ? & [[]|?] & ?). exists k.
    split; [done|]. split; [done|]. split; [right; auto|done].
  - by rewrite al_idle0, al_cur0, al_threads0.
Qed.
Lemma alike_trans s1 s2 s3 : alike s1 s2 → alike s2 s3 → alike s1 s3.
Proof. intros [] []. split; try congruence. auto. Qed.
Lemma nomem_alike s own s' : nomem s own s' → alike s s' ∧ owns s' own.
Proof. by intros (h & -> & Ho). Qed.

Definition total s : Z := zlen (run_list s) + zlen (sleep_list s) + zlen (zombie_list s) + zlen (cur_list s).
(** The thread that was made is ready. *)
Lemma enter_run_spec s own pl t th :
  tinv none s own pl → busy s → made pl t s → ts_threads s !! t = Some th → t_kont th = Some K_start → total s < 67108860 →
  wlp (make_runnable t)
    (λ _ s', ∃ own' pl', tinv none s' own' pl' ∧ alike s (set_runqueue (ts_runqueue s) s') ∧ run_list s' = run_list s ++ [t])
    (λ _ s', nomem s own s') s.
Proof.
  intros Hi (Hid & Hkc) Hm Ht Hk Htot. destruct (made_thread s own pl t th Hi Hm Ht) as (Hv & Hcw & _).
  unfold made in Hm. pose proof Hi as []. pose proof ti_lists as []. unfold total in Htot.
  unfold make_runnable. wlp_bind. apply wlp_assert_spl. intros _.
  assert (Hlen : zlen (q_elems (ts_runqueue s)) = zlen (run_list s)) by (rewrite li_run; unfold zlen; by rewrite length_fmap).
  pose proof (zlen_nonneg (sleep_list s)). pose proof (zlen_nonneg (zombie_list s)). pose proof (zlen_nonneg (cur_list s)).
  wlp_use addtail_step; [done|done| | |done]; [lia|].
  intros [] s' (h' & q' & own' & -> & Ho' & He & Hsz). simpl in He. exists own', (<[t := P_run]> pl).
  set (s' := set_heap h' (set_runqueue q' s)).
  assert (Hrun : run_list s' = run_list s ++ [t]).
  { unfold run_list at 1. simpl. rewrite He, li_run. change [Some t] with (Some <$> [t]). by rewrite <- fmap_app, omap_Some. }
  split; [|done]. apply (tinv_move none s s' own own' pl t th); try done.
  - rewrite Hm. intros u x [= <-]. apply Hkc.
  - simpl. by rewrite insert_id.
  - split; try done; [rewrite Hrun; simpl; by rewrite He, li_run, fmap_app|].
    rewrite Hrun. change (sleep_list s') with (sleep_list s). change (zombie_list s') with (zombie_list s).
    change (cur_list s') with (cur_list s). rewrite zlen_app. change (zlen [t]) with 1. lia.
  - rewrite Hrun. apply placed_add; [done|congruence].
  - apply placed_other; [done|congruence|done].
  - apply placed_other; [done|congruence|done].
  - apply placed_other; [done|congruence|done].
  - split; [done|]. split; [done|]. rewrite lookup_insert_eq. exists K_start. done.
Qed.

Definition acct s : Prop := ts_numthreads s = count s.
Lemma fork_prepare_spec s own pl t th :
  tinv none s own pl → busy s → made pl t s → ts_threads s !! t = Some th → t_kont th = Some K_start →
  total s < 67108860 → acct s →
  wlp (fork_prepare t)
    (λ _ s', good s' ∧ quiet none [t] s s')
    (λ _ s', ∃ own', owns s' own' ∧ alike s s') s.
Proof.
  intros Hi Hb Hm Ht Hk Htot Hac. unfold fork_prepare. wlp_bind. unfold wlp at 1, get.
  unfold acct, count, total in *. pose proof (zlen_nonneg (zombie_list s)). pose proof (zlen_nonneg (run_list s)).
  pose proof (zlen_nonneg (sleep_list s)). pose proof (zlen_nonneg (cur_list s)).
  rewrite (i32_small (ts_numthreads s + 1)) by lia. cbv zeta. set (n := ts_numthreads s + 1).
  pose proof (ti_owns _ _ _ _ Hi) as Ho. pose proof (li_qsize _ (ti_lists _ _ _ _ Hi)) as Hqs.
  wlp_bind. wlp_use sleepers_pre_step; [exact Ho|lia| |by intros e s' [? ?]%nomem_alike; eauto].
  intros [] s1 (h1 & a1 & own1 & -> & Ho1 & He1). set (s1 := set_heap h1 _) in *.
  assert (Ha1 : alike s s1) by done. wlp_bind.
  wlp_use zombies_pre_step; [exact Ho1|lia| |by intros e s' [? ?]%nomem_alike; exists own1; split; [|by eapply alike_trans]].
  intros [] s2 (h2 & a2 & own2 & -> & Ho2 & He2). set (s2 := set_heap h2 _) in *.
  assert (Ha2 : alike s s2) by done. wlp_bind. unfold scheduler_preallocate. wlp_bind. apply wlp_assert_spl. intros _.
  wlp_use runqueue_pre_step; [exact Ho2|lia|done| |by intros e s' [? ?]%nomem_alike; exists own2; split; [|by eapply alike_trans]].
  intros [] s3 (h3 & q3 & own3 & -> & Ho3 & He3 & Hs3). set (s3 := set_heap h3 _) in *.
  assert (Ha3 : alike s s3) by done. pose proof (tinv_alike s s3 own own3 pl Hi Ho3 Ha3) as Hi3.
  destruct (alike_lists s s3 Ha3) as (Hr3 & Hsl3 & Hz3 & Hc3). wlp_bind.
  wlp_use enter_run_spec; [exact Hi3|done|done|done|done| | |by intros e s' [? ?]%nomem_alike; exists own3; split; [|by eapply alike_trans]].
  { unfold total. rewrite Hr3, Hsl3, Hz3, Hc3. lia. }
  intros [] s4 (own4 & pl4 & Hi4 & Ha4 & Hr4). unfold wlp, modify. split.
  - exists own4, pl4. eapply tinv_sync; [exact Hi4| |done|done|done|done|done]. by destruct (ti_owns _ _ _ _ Hi4).
  - destruct Ha4. simpl in *. split; try done; simpl.
    + change (run_list s4 = run_list s ++ [t]). by rewrite Hr4, Hr3.
    + unfold count. change (run_list (set_numthreads n s4)) with (run_list s4).
      change (sleep_list (set_numthreads n s4)) with (sleep_list s4). change (cur_list (set_numthreads n s4)) with (cur_list s4).
      rewrite Hr4, Hr3, zlen_app. unfold sleep_list at 1, cur_list at 1. rewrite al_sleep0, al_cur0. simpl.
      change (omap id (arr_contents a1)) with (sleep_list s3). rewrite Hsl3. change (zlen [t]) with 1.
      unfold n, cur_list. lia.
    + intros p _. by rewrite al_locks0.
    + change (zlen (zombie_list s4) ≤ zlen (zombie_list s)). unfold zombie_list at 1. rewrite al_zombie0. simpl.
      change (omap id (arr_contents a2)) with (zombie_list s3). by rewrite Hz3.
Qed.
End proc.

Section fork.
Context {H : Type} `{!Kmem H, !KmemOk H, !Kenv H}.
Notation S := (ts H).
Implicit Types (s : S) (own : gmap Z block) (pl : gmap Z place) (ex : Z → Prop) (X : Z → Prop).

Lemma fork_fail_spec {A} s own pl t th spl e (Q : A → S → Prop) :
  tinv none s own pl → busy s → made pl t s → ts_threads s !! t = Some th → t_stack th ≠ 0 →
  wlp (fork_fail t spl e) Q (λ _ s', failed s s') s.
Proof.
  intros Hi0 Hb Hm Ht Hs. pose proof (tinv_spl none s own pl spl Hi0) as Hi. unfold fork_fail. wlp_bind. apply wlp_splx.
  set (s0 := set_spl spl s) in *. wlp_bind. apply wlp_the_thread. intros th' Ht'. assert (th' = th) as -> by (simpl in *; congruence).
  destruct (made_thread s0 own pl t th Hi Hm Ht') as (_ & Hc & _). rewrite Hc. wlp_bind. apply wlp_when; [done|]. intros _.
  pose proof (ti_owns _ _ _ _ Hi) as Ho. destruct (ow_thread _ _ Ho t th Ht) as (H1 & H2 & H3). specialize (H3 Hs).
  wlp_bind. apply wlp_kfree; [apply Ho|apply (ow_live _ _ Ho); eauto|]. intros h1 Hk1 Hl1.
  wlp_bind. unfold free_thread. wlp_bind. apply wlp_the_thread. intros th' Ht''. assert (th' = th) as -> by (simpl in *; congruence).
  wlp_bind. apply wlp_kfree; [done| |].
  { simpl in *. rewrite Hl1, lookup_delete_ne by (by eapply own_ne). apply (ow_live _ _ Ho); eauto. }
  intros h2 Hk2 Hl2. wlp_bind. apply wlp_kfree; [done| |].
  { simpl in *. rewrite Hl2, Hl1, !lookup_delete_ne by (by eapply own_ne). apply (ow_live _ _ Ho); eauto. }
  intros h3 Hk3 Hl3. unfold wlp, modify, fail.
  assert (Hu : unmade pl t s0 (set_threads (delete t (ts_threads s0)) (set_heap h3 s0))).
  { exists (without (of_thread t) own). split; [|done]. eapply tinv_unmake; [exact Hi|done|done| |done|done].
    eapply (drop_thread_spec s0 own t th h3 [t; t_name th; t_stack th]); [done|done|done| |set_solver].
    intros p Hp. simpl in *. rewrite Hl3, Hl2, Hl1, !lookup_delete_ne; set_solver. }
  pose proof Hu as (own3 & Hi3 & _). split; [by eexists own3, _|].
  by eapply quiet_none_trans; [apply (spl_quiet s spl)|eapply unmade_quiet].
Qed.

Lemma set_stack_spec s own pl t th stack m :
  tinv none s own pl → busy s → made pl t s → ts_threads s !! t = Some th → (stack ≠ 0 → own !! stack = Some (B_stack t)) →
  let s' := set_threads (<[t := t_set_stack stack m th]> (ts_threads s)) s in
  tinv none s' own pl ∧ busy s' ∧ quiet none [] s s'.
Proof.
  intros Hi Hb Hm Ht Hst s'. destruct (made_thread s own pl t th Hi Hm Ht) as (Hv & Hc & Hk).
  apply (made_upd s own own pl t th); try done. destruct (ti_owns _ _ _ _ Hi). split; try done. simpl.
  apply map_Forall_insert_2; [|done]. destruct (ow_thread t th Ht) as (? & ? & _). done.
Qed.
Lemma failed_opost X s s' v : failed s s' → opost X (Some v) s s'.
Proof. intros [Hg Hq]. split; [done|]. eapply quiet_post. eapply quiet_mono; [|exact Hq]. by intros p []. Qed.

Lemma quiet_total s s' : quiet none [] s s' → zombie_list s' = zombie_list s → sleep_list s' = sleep_list s → total s' = total s.
Proof. intros [] Hz Hs. unfold total, cur_list. by rewrite Hz, Hs, qt_run, qt_cur, app_nil_r. Qed.
Lemma quiet_acct s s' X ar : quiet X ar s s' → acct s → acct s'.
Proof. intros []. unfold acct. lia. Qed.

Lemma fork_rest_spec s own pl t :
  tinv none s own pl → busy s → made pl t s → total s < 67108860 → acct s →
  wlp (fork_rest t) (λ r s', opost none r s s') (λ _ s', opost none (Some 0) s s') s.
Proof.
  intros Hi Hb Hm Htot Hac. unfold fork_rest. wlp_bind. eapply kmalloc_own; [apply Hi|unfold STACK_SIZE; lia| |].
  - intros h1 Ho1. pose proof (untouched_heap s own own pl h1 Hi Ho1) as Hu. pose proof Hu as (own1 & Hi1 & _).
    wlp_bind. apply wlp_upd_thread. intros th Ht.
    destruct (set_stack_spec (set_heap h1 s) own1 pl t th 0 []) as (Hi2 & Hb2 & Hq2); [exact Hi1|done|done|done|done|].
    set (s2 := set_threads _ _) in *. simpl. wlp_bind. wlp_use unmake_spec; [exact Hi2|done|done| |done]. intros [] s3 Hun.
    unfold wlp, fail. apply failed_opost. eapply failed_quiet; [by eapply untouched_quiet|]. eapply failed_quiet; [exact Hq2|].
    pose proof Hun as (own3 & Hi3 & _). split; [by eexists own3, _|by eapply unmade_quiet].
  - intros stack h1 Hs0 Hn Hob. specialize (Hob (B_stack t)). set (own1 := <[stack := B_stack t]> own) in *.
    assert (Hi1 : tinv none (set_heap h1 s) own1 pl) by by eapply tinv_mem.
    set (s1 := set_heap h1 s) in *. wlp_bind. apply wlp_upd_thread. intros th Ht.
    destruct (set_stack_spec s1 own1 pl t th stack []) as (Hi2 & Hb2 & Hq2); [done|done|done|done|intros _; apply lookup_insert_eq|].
    set (s2 := set_threads _ s1) in *. destruct (Z.eqb_spec stack 0) as [|_]; [done|].
    wlp_bind. apply wlp_upd_thread. intros th2 Ht2. simpl in Ht2. rewrite lookup_insert_eq in Ht2. injection Ht2 as <-.
    destruct (set_stack_spec s2 own1 pl t (t_set_stack stack [] th) stack magic) as (Hi3 & Hb3 & Hq3);
      [done|done|done|apply lookup_insert_eq|intros _; apply lookup_insert_eq|].
    set (s3 := set_threads _ s2) in *. wlp_bind. unfold wlp at 1, gets. wlp_bind. apply wlp_the_thread. intros thc Htc.
    destruct (ti_thread _ _ _ _ Hi3 _ _ Htc) as (_ & Hcw & _). rewrite Hcw. wlp_bind. apply wlp_when; [done|]. intros _.
    wlp_bind. apply wlp_upd_thread. intros th4 Ht4.
    assert (Hst4 : t_stack th4 = stack) by (simpl in Ht4; rewrite lookup_insert_eq in Ht4; by injection Ht4 as <-).
    destruct (made_thread s3 own1 pl t th4 Hi3 Hm Ht4) as (Hv4 & Hc4 & _).
    destruct (made_upd s3 own1 own1 pl t th4 (t_set_kont (Some K_start) th4)) as (Hi4 & Hb4 & Hq4);
      [done|done|done|done| |done|done|by right|].
    { eapply owns_upd; [apply Hi3|done|done|done]. }
    set (s4 := set_threads _ s3) in *. wlp_bind. apply wlp_splx. wlp_bind. apply wlp_try.
    pose proof (tinv_spl none s4 own1 pl SPL_HIGH Hi4) as Hi5. set (s5 := set_spl SPL_HIGH s4) in *.
    assert (Hq : quiet none [] s s5).
    { repeat (eapply quiet_none_trans; [|apply (spl_quiet s4 SPL_HIGH)]). eapply quiet_none_trans; [|exact Hq4].
      eapply quiet_none_trans; [|exact Hq3]. eapply quiet_none_trans; [|exact Hq2]. by apply same_sched_quiet. }
    assert (Ht5 : ts_threads s5 !! t = Some (t_set_kont (Some K_start) th4)) by (simpl; by rewrite lookup_insert_eq).
    wlp_use fork_prepare_spec; [exact Hi5|done|done|exact Ht5|done| |by eapply quiet_acct| |].
    + rewrite (quiet_total s s5); done.
    + intros [] s6 [Hg6 Hq6]. wlp_bind. apply wlp_splx. unfold wlp, finish, ret. split.
      * destruct Hg6 as (own6 & pl6 & Hi6). exists own6, pl6. by apply tinv_spl.
      * eapply quiet_post. eapply quiet_none_trans; [exact Hq|].
        by destruct Hq6.
    + intros e s6 (own6 & Ho6 & Ha6). pose proof (tinv_alike s5 s6 own1 own6 pl Hi5 Ho6 Ha6) as Hi6.
      wlp_use (fork_fail_spec s6 own6 pl t _ _ e (λ _ _, False)); [exact Hi6| | | | | |].
      * unfold busy. by rewrite (al_cur _ _ Ha6), (al_threads _ _ Ha6), (al_idle _ _ Ha6).
      * unfold made. by rewrite (al_cur _ _ Ha6).
      * by rewrite (al_threads _ _ Ha6).
      * by rewrite <- Hst4 in Hs0.
      * done.
      * intros e' s7 Hf. apply failed_opost. eapply failed_quiet; [exact Hq|]. eapply failed_quiet; [by apply alike_quiet|done].
Qed.
End fork.
