(* ===== verification/ThreadRun.v ===== *)
(** * Threads: what a thread does once it has the lock, and after a switch *)

From S2P Require Import Prelude Kmem KArray KQueue Vnode Thread ThreadSpec ThreadInv ThreadOps ThreadSync ThreadLife ThreadProc.

Section run.
Context {H : Type} `{!Kmem H, !KmemOk H}.
Notation S := (ts H).
Implicit Types (s : S) (own : gmap Z block) (pl : gmap Z place) (ex : Z → Prop) (X Y W : Z → Prop).

Lemma opost_after X Y W ar r s1 s2 s3 :
  quiet X ar s1 s2 → opost Y r s2 s3 → (∀ p, X p → W p) → (∀ p, Y p → W p) → opost W r s1 s3.
Proof.
  intros Hq [Hg Hp] HX HY. split; [done|]. eapply post_mono; [|by eapply post_quiet]. intros p [?|?]; auto.
Qed.
(** The process lock. *)
Definition pl_only s : Z → Prop := λ q, q = ts_process_lock s.
Lemma qpost_quiet X pl s s' : qpost X pl s s' → ∃ ar, quiet X ar s s'.
Proof. intros (? & ? & ar & ? & ? & ? & _). eauto. Qed.
Lemma opost_qpost pl r s1 s2 s3 :
  qpost (pl_only s1) pl s1 s2 → opost (pl_only s2) r s2 s3 → opost (pl_only s1) r s1 s3.
Proof.
  intros [ar Hq]%qpost_quiet Ho. eapply opost_after; [done|done|done|]. intros p. unfold pl_only.
  by rewrite (qt_plock _ _ _ _ Hq).
Qed.
Lemma opost_none X r s s' : opost none r s s' → opost X r s s'.
Proof. intros [Hg Hp]. split; [done|]. eapply post_mono; [|done]. by intros p []. Qed.

(** ** Exit *)

Lemma untouched_refl s own pl : tinv none s own pl → untouched pl s s.
Proof. intros Hi. by exists own. Qed.
Lemma reap_spec fuel parent i j s own pl :
  tinv none s own pl → wlp (reap fuel parent i j) (λ _ s', untouched pl s s') (λ _ _, False) s.
Proof.
  revert i j s own. induction fuel as [|fuel IH]; intros i j s own Hi; cbn [reap]; [by eapply untouched_refl|].
  wlp_bind. apply wlp_opt. intros p _. destruct (p =? 0); [by eapply IH|].
  wlp_bind. apply wlp_the_proc. intros x Hx. destruct (_ && _); [|by eapply IH].
  wlp_bind. apply wlp_kassert. intros _. wlp_bind. wlp_use cv_destroy_spec; [done| |done].
  intros [] s1 [Hu1 Hp1]. pose proof Hu1 as (own1 & Hi1 & _). wlp_bind.
  wlp_use free_process_spec; [done| | |done]; [rewrite Hp1; eauto|]. intros [] s2 Hu2. pose proof Hu2 as (own2 & Hi2 & _).
  wlp_bind. unfold table_set. wlp_bind. unfold wlp at 1, get. destruct (_ && _); [|done]. unfold wlp at 1, put.
  set (s3 := set_table _ s2). assert (Hu3 : untouched pl s2 s3).
  { exists own2. split; [|done]. eapply tinv_mem; [done| |done|done]. by destruct (ti_owns _ _ _ _ Hi2). }
  pose proof Hu3 as (own3 & Hi3 & _). wlp_use IH; [done| |done]. intros [] s4 Hu4.
  eapply untouched_trans; [done|]. eapply untouched_trans; [done|]. by eapply untouched_trans.
Qed.

(** The end of the current thread: it is off the processor for good. *)
Lemma zombie_post s s1 s' :
  switched S_ZOMB (ts_cur s) s1 s' → s1 = set_numthreads (ts_numthreads s - 1) s → ts_cur s ≠ 0 → post none None s s'.
Proof.
  intros [(_ & Hl & _ & _ & _ & Hpl & Hfi & Hn & _)] -> Hc0. simpl in *. split; try done.
  - exists []. done.
  - unfold count. rewrite Hn, sw_sleep. rewrite (cur_list_1 s) by done. change (zlen [ts_cur s]) with 1.
    apply (f_equal zlen) in sw_run. rewrite !zlen_app in sw_run. unfold to_run, to_sleep in *.
    change (run_list (set_numthreads (ts_numthreads s - 1) s)) with (run_list s) in *.
    change (sleep_list (set_numthreads (ts_numthreads s - 1) s)) with (sleep_list s) in *.
    rewrite app_nil_r in *. change (zlen []) with 0 in *. lia.
  - intros p _. by rewrite Hl.
Qed.
End run.

Section exit.
Context {H : Type} `{!Kmem H, !KmemOk H, !Kenv H}.
Notation S := (ts H).
Implicit Types (s : S) (own : gmap Z block) (pl : gmap Z place) (ex : Z → Prop) (X Y W : Z → Prop).

Lemma thread_exit_spec s own pl :
  tinv none s own pl → ts_cur s ≠ 0 →
  wlp thread_exit (λ r s', r = None ∧ opost (pl_only s) None s s') (λ _ _, False) s.
Proof.
  intros Hi Hc. unfold thread_exit. wlp_bind. unfold wlp at 1, gets. wlp_bind. apply wlp_the_thread. intros th Ht.
  wlp_bind. apply wlp_kassert. intros _. wlp_bind. wlp_use reap_spec; [done| |done]. intros [] s1 Hu1.
  pose proof Hu1 as (own1 & Hi1 & Hs1 & Ht1). pose proof (untouched_quiet _ _ _ Hu1) as Hq1.
  wlp_bind. unfold wlp at 1, gets. wlp_bind. wlp_use lock_release_spec; [done| |done].
  intros [] s2 [Hqp _]. pose proof Hqp as (own2 & pl2 & ar & Hi2 & Hnw & Hq2 & Ht2 & _).
  wlp_bind. apply check_magic_spec. wlp_bind. apply wlp_splx. pose proof (tinv_spl none s2 own2 pl2 SPL_HIGH Hi2) as Hi3.
  set (s3 := set_spl SPL_HIGH s2) in *. wlp_bind. apply wlp_the_thread. intros th3 Ht3.
  destruct (ti_thread _ _ _ _ Hi3 _ _ Ht3) as (-> & -> & _). wlp_bind. apply wlp_when; [done|]. intros _.
  wlp_bind. apply wlp_when; [done|]. intros _. wlp_bind. unfold wlp at 1, get. wlp_bind. apply wlp_kassert. intros _.
  wlp_bind. unfold wlp at 1, modify. wlp_bind. set (s4 := set_numthreads _ s3).
  assert (Hi4 : tinv none s4 own2 pl2).
  { eapply tinv_sync; [exact Hi3| |done|done|done|done|done]. by destruct (ti_owns _ _ _ _ Hi3). }
  assert (Hcur : ts_cur s3 = ts_cur s) by (simpl; by rewrite (qt_cur _ _ _ _ Hq2), (qt_cur _ _ _ _ Hq1)).
  wlp_use (mi_switch_spec none s4 own2 pl2 S_ZOMB (ts_cur s) th3 K_zombie); [done|exact Hcur|done|exact Ht3|done| |done].
  intros b s5 (-> & own5 & pl5 & Hi5 & Hs5). unfold wlp, ret. split; [done|].
  eapply (opost_after none (pl_only s1) _ []); [exact Hq1| |by intros p []|].
  - eapply (opost_after (pl_only s1) none _ ar); [exact Hq2| |done|by intros p []].
    eapply opost_quiet; [apply (spl_quiet s2 SPL_HIGH)|]. split; [by exists own5, pl5|].
    rewrite <- Hcur in Hs5, Hc. by eapply zombie_post.
  - intros p. unfold pl_only. by rewrite (qt_plock _ _ _ _ Hq1).
Qed.

(** ** Waiting *)

Lemma waitpid_end_spec s own pl child v :
  tinv none s own pl → wlp (waitpid_end child v) (λ r s', opost (pl_only s) r s s') (λ _ _, False) s.
Proof.
  intros Hi. unfold waitpid_end. wlp_bind. unfold wlp at 1, gets. wlp_bind. wlp_use lock_release_spec; [done| |done].
  intros [] s1 [Hq _]. wlp_bind. apply wlp_the_proc. intros x _. unfold wlp, finish, ret. by eapply qpost_opost.
Qed.
Lemma waitpid_status_spec s own pl child :
  tinv none s own pl → wlp (waitpid_status child) (λ r s', opost (pl_only s) r s s') (λ _ _, False) s.
Proof.
  intros Hi. unfold waitpid_status. wlp_bind. apply wlp_the_proc. intros x _. wlp_bind. unfold wlp at 1, gets.
  wlp_bind. wlp_use lock_release_spec; [done| |done]. intros [] s1 [Hq _]. pose proof Hq as (own1 & pl1 & ar & Hi1 & _).
  wlp_use waitpid_end_spec; [done| |done]. intros r s2 Ho. by eapply opost_qpost.
Qed.
Lemma waitpid_locked_spec s own pl child :
  tinv none s own pl → ts_cur s ≠ 0 →
  wlp (waitpid_locked child) (λ r s', opost (pl_only s) r s s') (λ _ s', opost (pl_only s) (Some 0) s s') s.
Proof.
  intros Hi Hc. unfold waitpid_locked. wlp_bind. apply wlp_the_proc. intros x _. wlp_bind. unfold wlp at 1, gets.
  wlp_bind. apply wlp_the_thread. intros th _. wlp_bind. unfold wlp at 1, gets. destruct (negb _).
  - wlp_bind. wlp_use lock_release_spec; [done| |done]. intros [] s1 [Hq _]. unfold wlp, fail. by eapply qpost_opost.
  - destruct (_ =? _); [wlp_use waitpid_status_spec; done|].
    wlp_use cv_wait_spec; [done|done|done|done| |done]. by intros r s1 (-> & Ho & _).
Qed.
End exit.

Section acquire.
Context {H : Type} `{!Kmem H, !KmemOk H, !Kenv H}.
Notation S := (ts H).
Implicit Types (s : S) (own : gmap Z block) (pl : gmap Z place) (ex : Z → Prop) (X Y W : Z → Prop).

(** Room for one more thread in the tables: 64M threads, whose stacks alone
    would fill the address space many times. *)
Definition room s : Prop := ts_numthreads s + zlen (zombie_list s) < 67108860.
Lemma room_total s : room s → acct s → total s < 67108860.
Proof. unfold room, acct, count, total. lia. Qed.
Lemma quiet_room X ar s s' : quiet X ar s s' → ts_numthreads s' = ts_numthreads s → room s → room s'.
Proof. intros [] Hn. unfold room. lia. Qed.

(** ** With the lock *)

(** The state in which the current thread goes on with [c]. *)
Record ready (c : cont) s own pl : Prop := {
  rd_inv : tinv none s own pl;
  rd_busy : busy s;
  rd_cur : ts_cur s ≠ 0;
  rd_made : ∀ t, child_of c = Some t → made pl t s;
  rd_room : room s;
  rd_acct : acct s;
}.
Definition after_locks (c : cont) s : Z → Prop := λ q, simple c = false ∧ q = ts_process_lock s.

Lemma ready_spl c s own pl x : ready c s own pl → ready c (set_spl x s) own pl.
Proof. intros []. split; try done. by apply tinv_spl. Qed.
Lemma child_spec s own pl t temp :
  ready (C_child t temp) s own pl →
  wlp (let! ok := child_locked t temp in if (ok : bool) then fork_rest t else fail ENOMEM)
    (λ r s', opost (pl_only s) r s s') (λ _ s', opost (pl_only s) (Some 0) s s') s.
Proof.
  intros []. pose proof (rd_made0 t eq_refl) as Hm. wlp_bind. wlp_use child_locked_spec; [done|done|done|done| |done].
  intros [] s1 H1; [|by apply failed_opost]. destruct H1 as (own1 & pl1 & ar & Hi1 & Hb1 & Hm1 & Hq1 & Hn1).
  assert (Hac : acct s1) by by eapply quiet_acct.
  assert (Htot : total s1 < 67108860) by (apply room_total; [by eapply quiet_room|done]).
  wlp_use fork_rest_spec; [done|done|done|done|done|..].
  - intros r s2 Ho. eapply opost_after; [exact Hq1|exact Ho|done|by intros p []].
  - intros e s2 Ho. eapply opost_after; [exact Hq1|exact Ho|done|by intros p []].
Qed.
Lemma exit_spec s own pl :
  ready C_exit s own pl →
  wlp (after C_exit) (λ r s', opost (pl_only s) r s s') (λ _ s', opost (pl_only s) (Some 0) s s') s.
Proof.
  intros []. simpl. wlp_bind. unfold wlp at 1, gets. wlp_bind. apply wlp_the_thread. intros th _.
  wlp_bind. apply wlp_the_proc. intros x _. wlp_bind. unfold wlp at 1, gets. wlp_bind.
  wlp_use cv_signal_spec; [done| |done]. intros [] s1 [Hq _]. pose proof Hq as (own1 & pl1 & ar & Hi1 & _ & Hq1 & _).
  wlp_use thread_exit_spec; [done| | |done]; [by rewrite (qt_cur _ _ _ _ Hq1)|]. intros r s2 [-> Ho].
  eapply opost_after; [exact Hq1|exact Ho|by intros p []|]. intros p. unfold pl_only. by rewrite (qt_plock _ _ _ _ Hq1).
Qed.

Lemma after_spec c s own pl :
  ready c s own pl →
  wlp (after c)
    (λ r s', opost (after_locks c s) r s s' ∧ (simple c = true → r ≠ None ∧ ts_locks s' = ts_locks s))
    (λ _ s', opost (after_locks c s) (Some 0) s s' ∧ simple c = false) s.
Proof.
  revert s own pl. induction c as [|t temp|child|child| |spl c IH]; intros s own pl Hr.
  - unfold wlp. simpl. split; [|done]. destruct Hr. eapply qpost_opost. exists own, pl, [].
    split; [done|]. split; [by intros ??|]. split; [apply quiet_refl|done].
  - wlp_use child_spec; [done|..].
    + intros r s' [Hg Hp]. split; [|done]. split; [done|]. by eapply post_mono; [|done].
    + intros r s' [Hg Hp]. split; [|done]. split; [done|]. by eapply post_mono; [|done].
  - destruct Hr. wlp_use waitpid_locked_spec; [done|done|..].
    + intros r s' [Hg Hp]. split; [|done]. split; [done|]. by eapply post_mono; [|done].
    + intros r s' [Hg Hp]. split; [|done]. split; [done|]. by eapply post_mono; [|done].
  - destruct Hr. wlp_use waitpid_status_spec; [done| |done].
    intros r s' [Hg Hp]. split; [|done]. split; [done|]. by eapply post_mono; [|done].
  - wlp_use exit_spec; [done|..].
    + intros r s' [Hg Hp]. split; [|done]. split; [done|]. by eapply post_mono; [|done].
    + intros r s' [Hg Hp]. split; [|done]. split; [done|]. by eapply post_mono; [|done].
  - cbn [after]. wlp_bind. apply wlp_splx. assert (Hr' : ready c s own pl) by by destruct Hr.
    wlp_use IH; [by apply ready_spl|..].
    + intros r s' [Ho Hs]. split; [|done]. eapply (opost_after none _ _ []); [apply (spl_quiet s)|exact Ho|by intros p []|done].
    + intros r s' [Ho Hs]. split; [|done]. eapply (opost_after none _ _ []); [apply (spl_quiet s)|exact Ho|by intros p []|done].
Qed.

(** ** Taking the lock *)

Definition acquired (p : Z) (r : option Z) s s' : Prop :=
  match r with
  | None => ts_locks s' = ts_locks s
  | Some _ => ∃ l, ts_locks s !! p = Some l ∧ lk_held l = 0 ∧ ts_locks s' = <[p := mklock (lk_name l) 1 (ts_cur s)]> (ts_locks s)
  end.
Lemma acquire_loop_spec p spl c s own pl :
  ready c s own pl → (simple c = false → p = ts_process_lock s) →
  wlp (acquire_loop p spl c)
    (λ r s', opost (λ q, q = p) r s s' ∧ (simple c = true → acquired p r s s'))
    (λ _ s', opost (λ q, q = p) (Some 0) s s' ∧ simple c = false) s.
Proof.
  intros Hr Hpl. pose proof Hr as []. unfold acquire_loop. wlp_bind. apply wlp_the_lock. intros l Hl.
  destruct (Z.eqb_spec (lk_held l) 0) as [Hh|Hh]; cbn [negb].
  - wlp_bind. unfold wlp at 1, gets. wlp_bind. unfold wlp at 1, put_lock, modify. wlp_bind. apply wlp_splx.
    set (s1 := set_spl spl _).
    assert (Hr1 : ready c s1 own pl).
    { apply ready_spl. split; try done. eapply tinv_lock; [done|done|eauto|]. intros l' Hl' Hh'. exfalso. congruence. }
    assert (Hq1 : quiet (λ q, q = p) [] s s1).
    { split; try done; simpl; [by rewrite app_nil_r|]. intros q Hq. by rewrite lookup_insert_ne. }
    assert (Hsub : ∀ q, after_locks c s1 q → q = p) by (intros q [Hs ->]; symmetry; by apply Hpl).
    wlp_use after_spec; [exact Hr1|..].
    + intros r s2 [Ho Hs]. split; [by eapply opost_after|]. intros Hsm. destruct (Hs Hsm) as [Hr2 Hl2].
      destruct r; [|done]. exists l. by rewrite Hl2.
    + intros e s2 [Ho Hs]. split; [by eapply opost_after|done].
  - wlp_use thread_sleep_spec; [done|done|simpl; eauto|done| | |done].
    + split; [done|]. split; [intros t Ht; by apply rd_made0|]. by intros q c' [= <- <-].
    + intros r s' (-> & Hg & Hp & (_ & Hlk & _)). split; [|done]. by apply opost_none.
Qed.
Lemma lock_acquire_spec p c s own pl :
  ready c s own pl → (simple c = false → p = ts_process_lock s) →
  wlp (lock_acquire p c)
    (λ r s', opost (λ q, q = p) r s s' ∧ (simple c = true → acquired p r s s'))
    (λ _ s', opost (λ q, q = p) (Some 0) s s' ∧ simple c = false) s.
Proof.
  intros Hr Hpl. unfold lock_acquire. wlp_bind. apply wlp_kassert. intros _. wlp_bind. unfold lock_do_i_hold.
  wlp_bind. apply wlp_the_lock. intros l _. wlp_bind. unfold wlp at 1, gets. unfold wlp at 1, ret. wlp_bind.
  apply wlp_kassert. intros _. wlp_bind. apply wlp_splx.
  wlp_use acquire_loop_spec; [by apply ready_spl|done|..].
  - intros r s' [Ho Ha]. split; [|done]. eapply (opost_after none _ _ []); [apply (spl_quiet s)|exact Ho|by intros q []|done].
  - intros r s' [Ho Ha]. split; [|done]. eapply (opost_after none _ _ []); [apply (spl_quiet s)|exact Ho|by intros q []|done].
Qed.

(** ** Calls of the current thread *)

(** Between two calls: the current thread runs and makes no thread. *)
Definition calm s own pl : Prop := tinv none s own pl ∧ busy s ∧ ts_cur s ≠ 0 ∧ room s ∧ acct s.
Lemma calm_ready c s own pl : calm s own pl → child_of c = None → ready c s own pl.
Proof. intros (? & ? & ? & ? & ?) Hc. split; try done. by rewrite Hc. Qed.

Lemma opost_sched X r s s1 s' own pl :
  untouched pl s s1 → tinv none s own pl → opost X r s1 s' → opost X r s s'.
Proof. intros Hu Hi Ho. eapply (opost_quiet _ []); [by eapply untouched_quiet|done]. Qed.
Lemma failed_quiet_opost X s s1 s' : quiet none [] s s1 → failed s1 s' → opost X (Some 0) s s'.
Proof. intros. apply failed_opost. by eapply failed_quiet. Qed.

Lemma thread_fork_spec len s own pl :
  calm s own pl → ts_first s = 0 → 0 ≤ len < 4294963200 →
  wlp (thread_fork len) (λ r s', opost (pl_only s) r s s') (λ _ s', opost (pl_only s) (Some 0) s s') s.
Proof.
  intros (Hi & Hb & Hc & Hrm & Hac) Hf Hlen. unfold thread_fork, thread_create. wlp_bind.
  wlp_use new_thread_spec; [done|done| |done]. intros t s1 [[-> Hu]|(Ht0 & own1 & th & Hi1 & Hpl & Hs1 & Ht1 & _)].
  { simpl. unfold wlp, fail. apply failed_opost. destruct Hu as (own1 & Hi1 & Hs1 & _). split; [by exists own1, pl|].
    by apply same_sched_quiet. }
  destruct (Z.eqb_spec t 0) as [|_]; [done|]. pose proof (same_sched_quiet _ _ Hs1) as Hq1.
  pose proof (qt_cur _ _ _ _ Hq1) as Hcur1.
  wlp_bind. unfold wlp at 1, gets. rewrite (qt_first _ _ _ _ Hq1), Hf. simpl.
  assert (Hm1 : made (<[t := P_new (ts_cur s)]> pl) t s1) by (unfold made; by rewrite lookup_insert_eq, Hcur1).
  assert (Hb1 : busy s1).
  { destruct Hb as (Hid & Hk). unfold busy. rewrite Hcur1, Ht1. split; [by rewrite (sm_idle _ _ Hs1)|].
    rewrite lookup_insert_ne; [done|]. intros ->. destruct (cur_facts _ _ _ _ Hi Hc). congruence. }
  wlp_bind. wlp_use new_process_spec; [done|done|done| |done].
  intros temp s2 [[-> Hfl]|(Htemp & Hu2 & _)]; [by eapply failed_quiet_opost|].
  destruct (Z.eqb_spec temp 0) as [|_]; [done|]. wlp_bind. unfold wlp at 1, gets.
  pose proof (untouched_quiet _ _ _ Hu2) as Hq2. pose proof Hu2 as (own2 & Hi2 & Hs2 & _).
  assert (Hq : quiet none [] s s2) by by eapply quiet_none_trans.
  assert (Hr2 : ready (C_child t temp) s2 own2 (<[t := P_new (ts_cur s)]> pl)).
  { split; [done|by eapply untouched_busy|by rewrite (qt_cur _ _ _ _ Hq)| | |by eapply quiet_acct].
    - intros t' [= <-]. by eapply untouched_made.
    - eapply quiet_room; [exact Hq| |done]. by rewrite (sm_num _ _ Hs2), (sm_num _ _ Hs1). }
  wlp_use lock_acquire_spec; [exact Hr2|done|..]; intros r s3 [Ho _];
    (eapply (opost_after none _ _ []); [exact Hq|exact Ho|by intros q []|]);
    intros q ->; unfold pl_only; by rewrite (qt_plock _ _ _ _ Hq).
Qed.

Lemma sys__exit_spec code s own pl :
  calm s own pl → wlp (sys__exit code) (λ r s', opost (pl_only s) r s s') (λ _ s', opost (pl_only s) (Some 0) s s') s.
Proof.
  intros (Hi & Hb & Hc & Hrm & Hac). unfold sys__exit. wlp_bind. unfold wlp at 1, gets. wlp_bind. apply wlp_the_thread. intros th Ht.
  wlp_bind. apply wlp_the_proc. intros x Hx. wlp_bind. unfold wlp at 1, put_proc, modify. wlp_bind. unfold wlp at 1, gets.
  pose proof (put_proc_untouched s own pl (t_array_ptr th)
    (mkprocess PROCESS_STOP code (p_pid x) (p_ppid x) (p_process_ptr x) (p_array_cv x)) Hi ltac:(eauto)) as Hu.
  set (s1 := set_procs _ s) in *. pose proof Hu as (own1 & Hi1 & _).
  wlp_use (lock_acquire_spec (ts_process_lock s) C_exit s1 own1 pl); [|done|..].
  { apply calm_ready; [|done]. done. }
  all: intros r s3 [Ho _]; (eapply opost_sched; [exact Hu|exact Hi|exact Ho]).
Qed.
Lemma sys_waitpid_spec pid status options s own pl :
  calm s own pl →
  wlp (sys_waitpid pid status options) (λ r s', opost (pl_only s) r s s') (λ _ s', opost (pl_only s) (Some 0) s s') s.
Proof.
  intros Hc. assert (Hstay : opost (pl_only s) (Some 0) s s).
  { destruct Hc as (Hi & _). split; [by exists own, pl|]. eapply (quiet_post _ []), quiet_refl. }
  unfold sys_waitpid. destruct (negb _); [done|]. destruct (status =? 0); [done|]. wlp_bind. unfold get_process.
  assert (Hk : ∀ child, wlp (if child =? 0 then fail EFAULT
      else let! lk := gets ts_process_lock in lock_acquire lk (C_waitpid child))
      (λ r s', opost (pl_only s) r s s') (λ _ s', opost (pl_only s) (Some 0) s s') s).
  { intros child. destruct (child =? 0); [done|]. wlp_bind. unfold wlp at 1, gets.
    wlp_use lock_acquire_spec; [by apply calm_ready|done|..]; by intros r s3 [Ho _]. }
  destruct (_ || _); [apply (Hk 0)|]. unfold table_get. wlp_bind. unfold wlp at 1, get. by apply wlp_opt.
Qed.

(** ** After a switch *)

Lemma activate_cur_spec s own pl (Q : unit → S → Prop) E :
  tinv none s own pl → Q tt s → wlp activate_cur Q E s.
Proof.
  intros Hi HQ. unfold activate_cur. wlp_bind. unfold wlp at 1, gets. wlp_bind. apply wlp_the_thread. intros th Ht.
  destruct (ti_thread _ _ _ _ Hi _ _ Ht) as (-> & _). by apply wlp_when.
Qed.
Lemma switched_back_spec s own pl :
  tinv none s own pl → ts_cur s ≠ 0 → wlp switched_back (λ _ s', back pl s s') (λ _ _, False) s.
Proof.
  intros Hi Hc. unfold switched_back. wlp_bind. wlp_use exorcise_spec; [done|done| |done].
  intros [] s1 Hb. pose proof Hb as (own1 & pl1 & Hi1 & _). by eapply activate_cur_spec.
Qed.

Definition goes_on (c : cont) s s' : Prop := quiet none [] s s' ∧ ∃ own' pl', ready c s' own' pl'.
(** Back on the processor with [wake]. *)
Lemma wake_spec (c : cont) s own pl th :
  tinv none s own pl → ts_cur s ≠ 0 → ts_threads s !! ts_cur s = Some th → t_kont th = None → room s → acct s →
  (∀ t, child_of c = Some t → made pl t s) →
  wlp (switched_back ;;; wake) (λ _ s', goes_on c s s') (λ _ _, False) s.
Proof.
  intros Hi Hc Ht Hk Hrm Hac Hm. wlp_bind. wlp_use switched_back_spec; [done|done| |done].
  intros [] s1 (own1 & pl1 & Hi1 & Hnw & Hq1 & Ht1 & Hn1). pose proof (qt_cur _ _ _ _ Hq1) as Hcur1.
  unfold wake. wlp_bind. unfold wlp at 1, gets. apply wlp_upd_thread. intros th1 Hth1.
  assert (th1 = th) as -> by (rewrite Hcur1 in Hth1; congruence). split.
  - destruct Hq1. split; done.
  - exists own1, pl1. split.
    + apply (cur_upd none s1 own1 pl1 th); auto. congruence.
    + split; [simpl; eapply idle_0; [exact Hi1|congruence]|]. simpl. rewrite lookup_insert_eq. by intros x [= <-].
    + simpl. congruence.
    + intros t Htc. unfold made. simpl. rewrite Hcur1. by apply Hnw, Hm.
    + change (room s1). by eapply quiet_room.
    + change (acct s1). by eapply quiet_acct.
Qed.
Lemma acquired_quiet p r s s1 s' : quiet none [] s s1 → acquired p r s1 s' → acquired p r s s'.
Proof.
  intros []. assert (Hl : ts_locks s1 = ts_locks s) by (apply map_eq; intros q; apply qt_locks; intros []).
  unfold acquired. by rewrite Hl, qt_cur.
Qed.

Definition resume_locks (k : kont) : Z → Prop := λ q, ∃ c, lock_wanted k = Some (q, c).
Definition resumed (k : kont) (r : option Z) s s' : Prop :=
  opost (resume_locks k) r s s' ∧ ∀ p c, lock_wanted k = Some (p, c) → simple c = true → acquired p r s s'.
Definition resumed_err (k : kont) s s' : Prop :=
  opost (resume_locks k) (Some 0) s s' ∧ ∀ p c, lock_wanted k = Some (p, c) → simple c = false.
Lemma resumed_after k r s s1 s' : quiet none [] s s1 → resumed k r s1 s' → resumed k r s s'.
Proof.
  intros Hq [Ho Ha]. split; [by eapply opost_quiet|]. intros p c Hw Hs. eapply acquired_quiet; [done|by eapply Ha].
Qed.
Lemma resumed_err_after k s s1 s' : quiet none [] s s1 → resumed_err k s1 s' → resumed_err k s s'.
Proof. intros Hq [Ho Ha]. split; [by eapply opost_quiet|done]. Qed.
Lemma resumed_lock k p c r s s' :
  lock_wanted k = Some (p, c) → opost (λ q, q = p) r s s' ∧ (simple c = true → acquired p r s s') → resumed k r s s'.
Proof.
  intros Hw [[Hg Hp] Ha]. split; [split; [done|]|].
  - eapply post_mono; [|exact Hp]. intros q ->. by exists c.
  - intros p' c' Hw'. rewrite Hw in Hw'. by injection Hw' as <- <-.
Qed.
Lemma resumed_err_lock k p c s s' :
  lock_wanted k = Some (p, c) → opost (λ q, q = p) (Some 0) s s' ∧ simple c = false → resumed_err k s s'.
Proof.
  intros Hw [[Hg Hp] Ha]. split; [split; [done|]|].
  - eapply post_mono; [|exact Hp]. intros q ->. by exists c.
  - intros p' c' Hw'. rewrite Hw in Hw'. by injection Hw' as <- <-.
Qed.
Lemma resumed_none k r s s' : lock_wanted k = None → opost none r s s' → resumed k r s s'.
Proof. intros Hw Ho. split; [by apply opost_none|]. by rewrite Hw. Qed.

Lemma resume_spec k s own pl th :
  tinv none s own pl → ts_cur s ≠ 0 → ts_threads s !! ts_cur s = Some th → t_kont th = Some k → room s → acct s →
  wlp (resume k) (λ r s', resumed k r s s') (λ _ s', resumed_err k s s') s.
Proof.
  intros Hi Hc Ht Hk Hrm Hac. unfold resume. wlp_bind. unfold wlp at 1, gets. wlp_bind. apply wlp_upd_thread.
  intros th' Ht'. assert (th' = th) as -> by congruence. set (s1 := set_threads _ s).
  assert (Hi1 : tinv none s1 own pl) by (apply (cur_upd none s own pl th); auto).
  assert (Hq1 : quiet none [] s s1) by (split; try done; simpl; by rewrite app_nil_r).
  assert (Ht1 : ts_threads s1 !! ts_cur s1 = Some (t_set_kont None th)) by (simpl; by rewrite lookup_insert_eq).
  assert (Hok : kont_ok (ts_process_lock s) pl (ts_cur s) k).
  { destruct (ti_thread _ _ _ _ Hi _ _ Ht) as (_ & _ & Hp). destruct (cur_facts _ _ _ _ Hi Hc) as [Hpc _].
    rewrite Hpc in Hp. by apply Hp. }
  destruct Hok as (Hnz & Hmk & Hlk).
  assert (Hstay : ∀ s2, good s2 → quiet none [] s1 s2 → lock_wanted k = None → resumed k (Some 0) s s2).
  { intros s2 Hg2 Hq2 Hw. eapply resumed_after; [exact Hq1|]. apply resumed_none; [done|]. split; [done|by eapply quiet_post]. }
  assert (Hwake : ∀ c, child_of c = making k → wlp (switched_back ;;; wake) (λ _ s', goes_on c s1 s') (λ _ _, False) s1).
  { intros c Hch. eapply wake_spec; [done|done|done|done|done|done|]. rewrite Hch. exact Hmk. }
  destruct k as [|spl|sem spl|p spl c|cv p spl c|]; [..|done].
  - wlp_bind. eapply activate_cur_spec; [done|]. wlp_bind. apply wlp_splx. unfold wlp, finish, ret.
    apply Hstay; [exists own, pl; by apply tinv_spl|apply spl_quiet|done].
  - wlp_bind. wlp_use switched_back_spec; [done|done| |done]. intros [] s2 (own2 & pl2 & Hi2 & _ & Hq2 & _).
    wlp_bind. apply wlp_splx. unfold wlp, finish, ret.
    apply Hstay; [exists own2, pl2; by apply tinv_spl| |done]. eapply quiet_none_trans; [exact Hq2|apply spl_quiet].
  - apply wlp_seq_assoc. wlp_bind. wlp_use (Hwake C_done); [done| |done]. intros [] s2 [Hq2 (own2 & pl2 & Hr2)].
    destruct Hr2. wlp_use P_loop_spec; [done|done| |done]. intros r s3 Ho.
    eapply resumed_after; [exact Hq1|]. eapply resumed_after; [exact Hq2|]. by apply resumed_none.
  - apply wlp_seq_assoc. wlp_bind. wlp_use (Hwake c); [done| |done]. intros [] s2 [Hq2 (own2 & pl2 & Hr2)].
    wlp_use acquire_loop_spec; [done| |..].
    + rewrite (qt_plock _ _ _ _ Hq2). by apply (Hlk p c).
    + intros r s3 Ho. eapply resumed_after; [exact Hq1|]. eapply resumed_after; [exact Hq2|]. by apply (resumed_lock _ p c).
    + intros e s3 Ho. eapply resumed_err_after; [exact Hq1|]. eapply resumed_err_after; [exact Hq2|]. by apply (resumed_err_lock _ p c).
  - apply wlp_seq_assoc. wlp_bind. wlp_use (Hwake (C_cv spl c)); [done| |done]. intros [] s2 [Hq2 (own2 & pl2 & Hr2)].
    wlp_use lock_acquire_spec; [done| |..].
    + rewrite (qt_plock _ _ _ _ Hq2). by apply (Hlk p c).
    + intros r s3 Ho. eapply resumed_after; [exact Hq1|]. eapply resumed_after; [exact Hq2|]. by apply (resumed_lock _ p c).
    + intros e s3 Ho. eapply resumed_err_after; [exact Hq1|]. eapply resumed_err_after; [exact Hq2|]. by apply (resumed_err_lock _ p c).
Qed.
End acquire.
