(* ===== verification/ThreadBoot.v ===== *)
(** * Threads: the start, and making semaphores and locks *)

From S2P Require Import Prelude Kmem KArray KQueue Vnode Thread ThreadSpec ThreadInv ThreadOps ThreadSync ThreadLife ThreadProc.

Section create.
Context {H : Type} `{!Kmem H, !KmemOk H}.
Notation S := (ts H).
Implicit Types (s : S) (own : gmap Z block) (pl : gmap Z place).

(** A new object at [p]; [old] is what was known of such objects. *)
Definition added {A} (old : gmap Z A) (p : Z) pl s s' : Prop :=
  p ≠ 0 ∧ old !! p = None ∧ (∃ own', tinv none s' own' pl) ∧ quiet (λ q, q = p) [] s s' ∧
  ts_threads s' = ts_threads s ∧ ts_idle s' = ts_idle s.

Lemma sem_create_spec len n s own pl :
  tinv none s own pl → 0 ≤ len < 4294963200 →
  wlp (sem_create len n)
    (λ p s', p = 0 ∧ untouched pl s s' ∨ added (ts_sems s) p pl s s' ∧ ts_locks s' = ts_locks s) (λ _ _, False) s.
Proof.
  intros Hi Hlen. pose proof (ti_owns _ _ _ _ Hi) as Ho. unfold sem_create. wlp_bind. apply wlp_kassert. intros _.
  eapply (named_spec s own _ _ B_sem B_semname (λ p x, put_sem p (mksem x n))); [done|unfold sizeof_semaphore; lia|done| |].
  - intros h' Ho'. left. split; [done|]. by eapply untouched_heap.
  - intros p x h' Hp0 Hp Hx Hne Ho'. unfold wlp, put_sem, modify. right. split; [|done].
    assert (Hfr : ts_sems s !! p = None).
    { destruct (ts_sems s !! p) as [y|] eqn:Hy; [|done]. destruct (ow_sem _ _ Ho p y Hy). congruence. }
    split; [done|]. split; [done|]. split.
    + exists (<[x := B_semname p]> (<[p := B_sem p]> own)). eapply tinv_sync; [exact Hi| |done|done|done|done|].
      * destruct Ho'. split; try done. simpl. apply map_Forall_insert_2; [|done]. simpl.
        by rewrite lookup_insert_ne, !lookup_insert_eq by done.
      * intros t th k _ _ _ [[]|Hw] _. right. destruct k; try done. simpl in *. destruct Hw as (y & Hy & Hc). exists y.
        split; [|done]. rewrite lookup_insert_ne; [done|]. intros ->. congruence.
    + split; [|done]. split; try done. simpl. by rewrite app_nil_r.
Qed.
Lemma make_lock_spec len s own pl :
  tinv none s own pl → 0 ≤ len < 4294963200 →
  wlp (lock_create len)
    (λ p s', p = 0 ∧ untouched pl s s' ∨ added (ts_locks s) p pl s s') (λ _ _, False) s.
Proof.
  intros Hi Hlen. pose proof (ti_owns _ _ _ _ Hi) as Ho.
  change (lock_create len) with (let! p := on_mem (kmalloc sizeof_lock) in
       if p =? 0 then ret 0
       else let! n := kstrdup len in
            if n =? 0 then on_mem (kfree p) ;;; ret 0
            else (let! h := gets ts_heap in put_lock p (mklock n (kword (p + 4) h) (kword (p + 12) h))) ;;; ret p).
  eapply (named_spec s own _ _ B_lock B_lockname (λ p n, let! h := gets ts_heap in put_lock p (mklock n (kword (p + 4) h) (kword (p + 12) h))));
    [done|unfold sizeof_lock; lia|done| |].
  - intros h' Ho'. left. split; [done|]. by eapply untouched_heap.
  - intros p x h' Hp0 Hp Hx Hne Ho'. wlp_bind. unfold wlp at 1, gets. unfold wlp, put_lock, modify. right.
    assert (Hfr : ts_locks s !! p = None).
    { destruct (ts_locks s !! p) as [y|] eqn:Hy; [|done]. destruct (ow_lock _ _ Ho p y Hy). congruence. }
    split; [done|]. split; [done|]. split.
    + exists (<[x := B_lockname p]> (<[p := B_lock p]> own)). eapply tinv_sync; [exact Hi| |done|done|done|done|].
      * destruct Ho'. split; try done. simpl. apply map_Forall_insert_2; [|done]. simpl.
        by rewrite lookup_insert_ne, !lookup_insert_eq by done.
      * intros t th k _ _ _ [[]|Hw] _. right. destruct k; try done. simpl in *. destruct Hw as (y & Hy & Hc). exists y.
        split; [|done]. rewrite lookup_insert_ne; [done|]. intros ->. congruence.
    + split; [|done]. split; try done; simpl; [by rewrite app_nil_r|]. intros q Hq. by rewrite lookup_insert_ne.
Qed.
End create.

Section boot.
Context {H : Type} `{!Kmem H, !KmemOk H, !Kenv H}.
Notation S := (ts H).
Implicit Types (s : S) (own : gmap Z block) (pl : gmap Z place).

(** The static variables before [boot]; [boot] calls these two in this order. *)
Definition boot0 (h : H) : S :=
  mkts h ∅ 0 0 null_array null_array null_queue 0 SPL_HIGH 0 ∅ ∅ ∅ ∅ [] 0 1.
Definition bootstrap : M S (option Z) := scheduler_bootstrap ;;; thread_bootstrap.

(** ** The arrays and the queue *)

Definition grows (h h' : H) : Prop := kinv h' ∧ klive h ⊆ klive h'.
Lemma heap_grows_trans h1 h2 h3 : grows h1 h2 → grows h2 h3 → grows h1 h3.
Proof. intros [_ H1] [Hk H2]. split; [done|]. by etrans. Qed.
Lemma grows_lookup h h' p u : grows h h' → klive h !! p = Some u → klive h' !! p = Some u.
Proof. intros [_ Hs] Hp. by eapply lookup_weaken. Qed.
Lemma q_ok_grows h h' (q : queue Z) : q_ok (h, q) → grows h h' → q_ok (h', q).
Proof.
  intros (Hk & Hwf & Hs & [u Hl] & Hne & u' & Hd & Hsz) Hg. pose proof Hg as [Hk' _]. split; [done|]. split; [done|].
  split; [done|]. split; [exists u; by eapply grows_lookup|]. split; [done|]. exists u'. split; [by eapply grows_lookup|done].
Qed.
Lemma kmalloc_grows s sz (Q : Z → S → Prop) E :
  kinv (ts_heap s) → 0 ≤ sz ≤ 4294963200 →
  (∀ p h', grows (ts_heap s) h' → (p ≠ 0 → klive (ts_heap s) !! p = None ∧ is_Some (klive h' !! p)) → Q p (set_heap h' s)) →
  wlp (on_mem (kmalloc sz)) Q E s.
Proof.
  intros Hk Hsz HQ. apply wlp_zoom, wlp_wp. wp_use kmalloc_spec; [done|done| |done].
  intros p h' (Hk' & [[-> Hl]|(u & Hnz & Hn & _ & Hl)]); apply HQ; rewrite ?Hl; try done.
  - split; [done|]. by rewrite Hl.
  - split; [done|]. rewrite Hl. by apply insert_subseteq.
  - intros _. split; [done|]. by rewrite lookup_insert_eq.
Qed.
Lemma array_create_grows s (Q : array Z → S → Prop) E :
  kinv (ts_heap s) →
  (∀ p h', p ≠ 0 → grows (ts_heap s) h' → klive (ts_heap s) !! p = None → is_Some (klive h' !! p) →
     Q (mkarray p 0 0 0 []) (set_heap h' s)) →
  wlp (let! a := on_mem array_create in opt a) Q E s.
Proof.
  intros Hk HQ. wlp_bind. apply wlp_zoom. unfold array_create. wlp_bind. apply wlp_wp.
  wp_use kmalloc_spec; [done|done| |done]. intros p h' (Hk' & [[-> Hl]|(u & Hnz & Hn & _ & Hl)]); [done|].
  destruct (Z.eqb_spec p 0) as [|_]; [done|]. apply HQ; try done.
  - split; [done|]. rewrite Hl. by apply insert_subseteq.
  - rewrite Hl. by rewrite lookup_insert_eq.
Qed.
Lemma empty_array_ok h p : kinv h → p ≠ 0 → is_Some (klive h !! p) → array_ok (h, mkarray p 0 0 0 ([] : list (option Z))).
Proof. intros Hk Hp Hl. split; [done|]. split; [by split|]. done. Qed.

(** The state with the three tables, and no thread yet. *)
Definition bare (h : H) tab p1 p2 (q : queue Z) : S :=
  set_zombies (mkarray p2 0 0 0 []) (set_sleepers (mkarray p1 0 0 0 []) (set_table tab (set_runqueue q (set_heap h (boot0 h))))).
Lemma bare_good h tab p1 p2 q :
  kinv h → p1 ≠ 0 → p2 ≠ 0 → is_Some (klive h !! p1) → is_Some (klive h !! p2) → q_ok (h, q) → q_elems q = [] → q_size q = 32 →
  NoDup [q_self q; q_dptr q; p1; p2] → ∃ own, tinv none (bare h tab p1 p2 q) own ∅.
Proof.
  intros Hk Hp1 Hp2 Hl1 Hl2 Hq He Hs Hnd.
  exists (<[q_self q := B_queue]> (<[q_dptr q := B_queuev]> (<[p1 := B_arr false]> (<[p2 := B_arr true]> ∅)))).
  assert (q_self q ≠ q_dptr q ∧ q_self q ≠ p1 ∧ q_self q ≠ p2 ∧ q_dptr q ≠ p1 ∧ q_dptr q ≠ p2 ∧ p1 ≠ p2) as (? & ? & ? & ? & ? & ?).
  { apply NoDup_cons in Hnd as [? Hnd]. apply NoDup_cons in Hnd as [? Hnd]. apply NoDup_cons in Hnd as [? _]. set_solver. }
  assert (Hempty : ∀ p, placed [] ∅ p).
  { intros p. split; [apply NoDup_nil_2|]. intros t. rewrite lookup_empty. split; [by intros ?%elem_of_nil|done]. }
  split; try done.
  - pose proof Hq as (_ & _ & _ & Hlq & _ & u & Hd & _). split; try done.
    + intros p [b Hb]. simpl in *. rewrite !lookup_insert_Some in Hb. rewrite lookup_empty in Hb. naive_solver.
    + split; [by apply empty_array_ok|]. split; [|done]. simpl. by simplify_map_eq.
    + split; [by apply empty_array_ok|]. split; [|done]. simpl. by simplify_map_eq.
    + split; [done|]. split; simpl; [by rewrite lookup_insert_eq|]. by rewrite lookup_insert_ne, lookup_insert_eq.
  - split; try done; unfold run_list; simpl; rewrite ?He; try done. rewrite Hs. lia.
  - unfold run_list. simpl. by rewrite He.
Qed.

Lemma wlp_assoc_opt {A B} (c : M S (option A)) (f : A → M S B) Q E s :
  wlp (let! x := (let! o := c in opt o) in f x) Q E s → wlp (let! o := c in let! x := opt o in f x) Q E s.
Proof. unfold wlp, bind. by destruct (c s). Qed.

(** ** The first thread *)

Lemma wlp_any {A} (c : M S A) (Q : A → S → Prop) (E : errno → S → Prop) s :
  (∀ a s', Q a s') → (∀ e s', E e s') → wlp c Q E s.
Proof. intros HQ HE. unfold wlp. by destruct (c s). Qed.
Definition no_konts s : Prop := ∀ t th, ts_threads s !! t = Some th → t_kont th = None.
Lemma tinv_plock s own pl L : tinv none s own pl → no_konts s → tinv none (set_process_lock L s) own pl.
Proof.
  intros [] Hn. split; try done; [by destruct ti_owns|by destruct ti_lists|].
  intros t th Ht. destruct (ti_thread t th Ht) as (? & ? & Hp). split; [done|]. split; [done|]. pose proof (Hn t th Ht) as Hk.
  destruct (pl !! t) as [[]|]; try done.
  - intros k Hk'. congruence.
  - destruct Hp as (k & ? & _). congruence.
  - destruct Hp as (k & ? & _). congruence.
Qed.

(** The thread [t] is being made while there is no current thread. *)
Record first_thread pl (t : Z) s : Prop := {
  ft_inv : ∃ own, tinv none s own pl;
  ft_busy : busy s;
  ft_made : made pl t s;
  ft_cur : ts_cur s = 0;
}.
Lemma first_untouched pl t s s' : untouched pl s s' → first_thread pl t s → first_thread pl t s'.
Proof.
  intros Hu []. split; [|by eapply untouched_busy|by eapply untouched_made|].
  - destruct Hu as (own & Hi & _). by exists own.
  - destruct Hu as (_ & _ & [(_ & _ & _ & Hc)] & _). congruence.
Qed.
Lemma process_spec s pl t :
  first_thread pl t s →
  wlp (let! temp := new_process t in if temp =? 0 then ret false else enter_process t temp MINPID (MINPID - 1) ;;; ret true)
    (λ ok s', ok = true → first_thread pl t s') (λ _ _, True) s.
Proof.
  intros Hf. pose proof Hf as [[own Hi] Hb Hm Hc]. wlp_bind. wlp_use new_process_spec; [done|done|done| |done].
  intros temp s1 [[-> _]|(Ht0 & Hu & _)]; [done|]. destruct (Z.eqb_spec temp 0) as [|_]; [done|].
  pose proof (first_untouched _ _ _ _ Hu Hf) as [[own1 Hi1] Hb1 Hm1 Hc1].
  wlp_bind. wlp_use enter_process_spec; [done|done|done| |done]. intros [] s2 (own2 & Hi2 & Hb2 & Hq2 & _).
  intros _. pose proof (qt_cur _ _ _ _ Hq2) as Hcur. split; [by exists own2|done| |congruence].
  unfold made. by rewrite Hcur.
Qed.
Lemma init_process_spec s pl t :
  first_thread pl t s → no_konts s →
  wlp (init_process t) (λ ok s', ok = true → first_thread pl t s') (λ _ _, True) s.
Proof.
  intros Hf Hn. pose proof Hf as [[own Hi] Hb Hm Hc]. unfold init_process. wlp_bind. unfold wlp at 1, get. wlp_bind.
  destruct (ts_process_lock s =? 0); [|unfold wlp at 1, ret; by apply process_spec].
  wlp_bind. wlp_use make_lock_spec; [done|lia| |done]. intros l s1 Hl. wlp_bind. unfold wlp at 1, modify.
  destruct (l =? 0) eqn:Hl0.
  { wlp_bind. apply wlp_any; [|done]. intros [] s2. done. }
  destruct Hl as [[-> _]|(_ & _ & [own1 Hi1] & Hq & Ht1 & Hid1)]; [done|]. unfold wlp at 1, ret.
  apply process_spec. pose proof (qt_cur _ _ _ _ Hq) as Hcur.
  assert (Hn1 : no_konts s1) by (intros u x; rewrite Ht1; apply Hn).
  assert (Hid : ts_idle s1 = 0) by (rewrite Hid1; apply Hb).
  split.
  - exists own1. by apply tinv_plock.
  - split; [done|]. simpl. intros x Hx. by eapply Hn1.
  - unfold made. simpl. by rewrite Hcur.
  - simpl. congruence.
Qed.

Definition started s : Prop := good s ∧ acct s ∧ ts_first s = 0.
Lemma only_new pl p m t : pl = <[t := P_new m]> ∅ → (∀ m, p ≠ P_new m) → ∀ l, placed l pl p → l = [].
Proof.
  intros -> Hp l [_ Hl]. destruct l as [|x l]; [done|]. exfalso. assert (Hx : x ∈ x :: l) by left. apply Hl in Hx.
  rewrite lookup_insert_Some, lookup_empty in Hx. naive_solver.
Qed.
(** It takes the processor. *)
Lemma start_spec s t :
  first_thread (<[t := P_new 0]> ∅) t s →
  let s' := set_numthreads 1 (set_cur t (set_first 0 s)) in
  started s' ∧ ts_cur s' = t ∧ t ≠ 0.
Proof.
  intros [[own Hi] Hb Hm Hc] s'. pose proof Hi as []. pose proof ti_lists as [].
  assert (Hr : run_list s = []) by by eapply (only_new _ P_run).
  assert (Hs : sleep_list s = []) by by eapply (only_new _ P_sleep).
  assert (Hz : zombie_list s = []) by by eapply (only_new _ P_zombie).
  assert (Hth : is_Some (ts_threads s !! t)) by (apply elem_of_dom, ti_dom, elem_of_dom; by rewrite lookup_insert_eq).
  pose proof (thread_nonnull s own t ti_owns Hth) as Ht0. destruct Hth as [th Hth].
  assert (Hcl : cur_list s' = [t]) by (by apply (cur_list_1 s')).
  assert (Hr' : run_list s' = []) by done. assert (Hs' : sleep_list s' = []) by done. assert (Hz' : zombie_list s' = []) by done.
  assert (Hnone : ∀ p, p ≠ P_cur → (∀ m, p ≠ P_new m) → placed [] (<[t := P_cur]> (<[t := P_new 0]> (∅ : gmap Z place))) p).
  { intros p Hp Hp'. split; [apply NoDup_nil_2|]. intros u. rewrite lookup_insert_Some, lookup_insert_Some, lookup_empty.
    split; [by intros ?%elem_of_nil|naive_solver]. }
  split; [|done]. split; [|split; [|done]].
  - exists own, (<[t := P_cur]> (<[t := P_new 0]> ∅)). apply (tinv_move none s s' own own _ t th); try done.
    + rewrite lookup_insert_eq. intros u x [= <-] Hx. destruct Hb as [_ Hk]. apply Hk. by rewrite Hc.
    + simpl. by rewrite insert_id.
    + by destruct ti_owns.
    + split; try done; rewrite Hr', Hs', Hz', Hcl. done.
    + rewrite Hr'. by apply Hnone.
    + rewrite Hs'. by apply Hnone.
    + rewrite Hz'. by apply Hnone.
    + rewrite Hcl. apply (placed_add []); [|by rewrite lookup_insert_eq]. by rewrite <- (cur_list_0 s Hc).
    + destruct (ti_thread t th Hth) as (? & ? & Hp). split; [done|]. split; [done|]. rewrite lookup_insert_eq in Hp |- *.
      intros k Hk. destruct Hp as [Hp|Hp]; rewrite Hp in Hk; [done|]. by injection Hk as <-.
    + intros Hne. destruct Hb. done.
  - unfold acct, count. by rewrite Hr', Hs', Hcl.
Qed.

Lemma bare_thread_spec s own :
  tinv none s own ∅ → ts_threads s = ∅ → ts_idle s = 0 → ts_cur s = 0 → ts_first s = 1 →
  wlp (thread_create 11 finish)
    (λ r s', ∃ t, r = Some t ∧ first_thread (<[t := P_new 0]> ∅) t s') (λ _ _, True) s.
Proof.
  intros Hi Ht Hid Hc Hf. unfold thread_create. wlp_bind. wlp_use new_thread_spec; [done|lia| |done].
  intros t s1 [[-> _]|(Ht0 & own1 & th & Hi1 & _ & Hs1 & Ht1 & Hk)]; [done|]. destruct (Z.eqb_spec t 0) as [|_]; [done|].
  rewrite Hc, Ht in *. wlp_bind. unfold wlp at 1, gets. rewrite (sm_first _ _ Hs1), Hf. simpl.
  assert (Hcur : ts_cur s1 = 0) by (destruct (sm_lists _ _ Hs1) as (_ & _ & _ & ->); done).
  wlp_bind. wlp_use (init_process_spec s1 (<[t := P_new 0]> ∅) t); [| | |done].
  - split; [by exists own1| |unfold made; by rewrite Hcur, lookup_insert_eq|done]. split; [by rewrite (sm_idle _ _ Hs1)|].
    rewrite Hcur, Ht1. intros x. by rewrite lookup_insert_ne.
  - intros u x. rewrite Ht1, lookup_insert_Some, lookup_empty. naive_solver.
  - intros [] s2 Hft; [|done]. exists t. split; [done|]. by apply Hft.
Qed.

Lemma blocks_distinct h1 h2 h3 (q : queue Z) p1 p2 :
  q_ok (h1, q) → grows h1 h2 → grows h2 h3 → klive h2 !! p1 = None → is_Some (klive h3 !! p1) → klive h3 !! p2 = None →
  NoDup [q_self q; q_dptr q; p1; p2].
Proof.
  intros (_ & _ & _ & [u1 Hs] & Hne & u2 & Hd & _) Hg2 Hg3 Hn1 [u3 Hl1] Hn2. simpl in *.
  pose proof (grows_lookup _ _ _ _ Hg2 Hs) as Hs2. pose proof (grows_lookup _ _ _ _ Hg2 Hd) as Hd2.
  pose proof (grows_lookup _ _ _ _ Hg3 Hs2) as Hs3. pose proof (grows_lookup _ _ _ _ Hg3 Hd2) as Hd3.
  assert (q_self q ≠ p1 ∧ q_self q ≠ p2 ∧ q_dptr q ≠ p1 ∧ q_dptr q ≠ p2 ∧ p1 ≠ p2) as (? & ? & ? & ? & ?).
  { split_and!; intros Heq; rewrite Heq in *; congruence. }
  repeat (apply NoDup_cons; split; [set_solver|]). apply NoDup_nil_2.
Qed.
Lemma bootstrap_spec h :
  kinv h → wlp bootstrap (λ r s', started s' ∧ r = Some (ts_cur s') ∧ ts_cur s' ≠ 0) (λ _ _, True) (boot0 h).
Proof.
  intros Hk. unfold bootstrap, scheduler_bootstrap. wlp_bind. wlp_bind. apply wlp_zoom, wlp_wp.
  wp_use q_create_spec; [done|lia| |done]. intros o h1 [Hk1 Hq]. simpl. wlp_bind. apply wlp_opt. intros q ->.
  destruct Hq as (Hq & He & Hsz & _). unfold wlp at 1, modify. unfold thread_bootstrap. wlp_bind.
  apply kmalloc_grows; [done|unfold MAXPID; lia|]. intros ptab h2 Hg2 _. cbn [ts_heap set_heap set_runqueue] in Hg2.
  wlp_bind. apply wlp_kassert. intros _. wlp_bind. unfold wlp at 1, gets. wlp_bind. unfold wlp at 1, modify.
  set (tab := replicate _ _ ++ _). clearbody tab. pose proof Hg2 as [Hk2 _].
  apply (wlp_assoc_opt (on_mem array_create)). wlp_bind. apply array_create_grows; [done|]. intros p1 h3 Hp1 Hg3 Hn1 Hl1.
  wlp_bind. unfold wlp at 1, modify. cbn in Hg3, Hn1. pose proof Hg3 as [Hk3 _].
  apply (wlp_assoc_opt (on_mem array_create)). wlp_bind. apply array_create_grows; [done|]. intros p2 h4 Hp2 Hg4 Hn2 Hl2.
  wlp_bind. unfold wlp at 1, modify. cbn in Hg4, Hn2. pose proof Hg4 as [Hk4 _].
  pose proof (q_ok_grows h2 h4 q (q_ok_grows h1 h2 q Hq Hg2) (heap_grows_trans _ _ _ Hg3 Hg4)) as Hq4.
  destruct (bare_good h4 tab p1 p2 q) as [own Hi]; [done|done|done| |done|done|done|done| |].
  { destruct Hl1 as [u Hu]. exists u. by eapply grows_lookup. }
  { by apply (blocks_distinct h1 h2 h3). }
  wlp_bind. apply wlp_try. wlp_use (bare_thread_spec (bare h4 tab p1 p2 q) own); [done..| |done].
  intros r s (t & -> & Hft). destruct (start_spec s t Hft) as (Hst & _ & Ht0). done.
Qed.
End boot.
