(* ===== verification/ThreadStep.v ===== *)
(** * Threads: the machine

    A thread that has the processor calls a routine, or goes on after a
    switch; when nothing is ready the processor waits in [scheduler], and
    interrupts come in.  A call that is off the processor in the middle goes on
    when the thread is dispatched again. *)

From S2P Require Import Prelude Kmem KArray KQueue Vnode Thread ThreadSpec ThreadInv ThreadOps ThreadSync ThreadLife ThreadProc ThreadRun ThreadBoot.

Inductive op :=
  | Op_yield
  | Op_sem_create (namelen count : Z) | Op_P (sem : Z) | Op_V (sem : Z)
  | Op_lock_create (namelen : Z) | Op_acquire (lock : Z) | Op_release (lock : Z)
  | Op_cv_create (namelen : Z) | Op_wait (cv lock : Z) | Op_signal (cv lock : Z) | Op_broadcast (cv lock : Z)
  | Op_fork (namelen : Z) | Op_thread_exit | Op_getpid | Op__exit (code : Z) | Op_waitpid (pid status options : Z).

(** Names are shorter than the address space. *)
Definition op_ok (o : op) : Prop :=
  match o with
  | Op_sem_create len _ | Op_lock_create len | Op_cv_create len | Op_fork len => 0 ≤ len < 4294963200
  | _ => True
  end.

Inductive event :=
  | Called (t : Z) (o : op) (r : option Z)
  | Failed (t : Z) (o : op) (e : errno)
  | Resumed (t : Z) (k : kont) (r : option Z)
  | Resume_failed (t : Z) (k : kont) (e : errno)
  | Dispatched
  | Interrupt (sem : Z).

Section step.
Context {H : Type} `{!Kmem H, !KmemOk H, !Kenv H}.
Notation S := (ts H).
Implicit Types (s : S) (own : gmap Z block) (pl : gmap Z place).

Definition do_op (o : op) : M S (option Z) :=
  match o with
  | Op_yield => thread_yield
  | Op_sem_create len n => let! p := sem_create len n in finish p
  | Op_P sem => P sem
  | Op_V sem => V sem ;;; finish 0
  | Op_lock_create len => let! p := lock_create len in finish p
  | Op_acquire p => lock_acquire p C_done
  | Op_release p => lock_release p ;;; finish 0
  | Op_cv_create len => let! p := cv_create len in finish p
  | Op_wait cv p => cv_wait cv p C_done
  | Op_signal cv p => cv_signal cv p ;;; finish 0
  | Op_broadcast cv p => cv_broadcast cv p ;;; finish 0
  | Op_fork len => thread_fork len
  | Op_thread_exit => thread_exit
  | Op_getpid => sys_getpid
  | Op__exit code => sys__exit code
  | Op_waitpid pid status options => sys_waitpid pid status options
  end.

(** The current thread, and where it is. *)
Definition running s (t : Z) (k : option kont) : Prop :=
  ts_cur s = t ∧ t ≠ 0 ∧ ∃ th, ts_threads s !! t = Some th ∧ t_kont th = k.

(** [dispatch] is entered again after every interrupt while the processor is
    idle; an interrupt handler wakes a thread with [V]. *)
Inductive step : S → event → S → Prop :=
  | step_call s t o r s' : running s t None → room s → op_ok o → do_op o s = Ok r s' → step s (Called t o r) s'
  | step_fail s t o e s' : running s t None → room s → op_ok o → do_op o s = Err e s' → step s (Failed t o e) s'
  | step_resume s t k r s' : running s t (Some k) → room s → resume k s = Ok r s' → step s (Resumed t k r) s'
  | step_resume_fail s t k e s' : running s t (Some k) → room s → resume k s = Err e s' → step s (Resume_failed t k e) s'
  | step_dispatch s s' : ts_cur s = 0 → ts_idle s ≠ 0 → dispatch s = Ok tt s' → step s Dispatched s'
  | step_interrupt s sem s' :
      (ts_cur s = 0 ∧ ts_idle s ≠ 0 ∨ ts_spl s = 0 ∧ running s (ts_cur s) None) → V sem s = Ok tt s' →
      step s (Interrupt sem) s'.

(** States the kernel gets into from its start with heap [h], and the events on
    the way. *)
Inductive reachable (h : H) : list event → S → Prop :=
  | reach_boot r s : bootstrap (boot0 h) = Ok r s → reachable h [] s
  | reach_step tr s e s' : reachable h tr s → step s e s' → reachable h (tr ++ [e]) s'.

(** ** What a call does *)

Definition op_locks (o : op) s (r : option Z) : Z → Prop :=
  match o with
  | Op_acquire p | Op_release p | Op_wait _ p => λ q, q = p
  | Op_lock_create _ => λ q, r = Some q
  | Op_fork _ | Op_thread_exit | Op__exit _ | Op_waitpid _ _ _ => pl_only s
  | _ => none
  end.
Definition op_effect (o : op) (r : option Z) s s' : Prop :=
  match o with
  | Op_acquire p => acquired p r s s'
  | Op_wait _ p => ∃ l, ts_locks s !! p = Some l ∧ lk_pointer l = ts_cur s
  | Op_lock_create _ => ∀ p, r = Some p → ts_locks s !! p = None ∨ ts_locks s' = ts_locks s
  | _ => True
  end.
Lemma untouched_opost X v pl s s' : untouched pl s s' → opost X (Some v) s s'.
Proof.
  intros Hu. split; [destruct Hu as (own & Hi & _); by exists own, pl|]. eapply quiet_post, quiet_mono; [|by eapply untouched_quiet].
  by intros p [].
Qed.
Lemma added_opost {A} (old : gmap Z A) p pl s s' : added old p pl s s' → opost (λ q, q = p) (Some p) s s'.
Proof. intros (_ & _ & [own Hi] & Hq & _). split; [by exists own, pl|]. by eapply quiet_post. Qed.
Lemma qpost_finish X pl s s1 v E : qpost X pl s s1 → wlp (finish v) (λ r s', opost X r s s') E s1.
Proof. intros Hq. unfold wlp, finish, ret. by eapply qpost_opost. Qed.

Lemma create_op_spec len n s own pl :
  calm s own pl → 0 ≤ len < 4294963200 →
  wlp (do_op (Op_sem_create len n)) (λ r s', opost none r s s') (λ _ _, False) s ∧
  wlp (do_op (Op_lock_create len)) (λ r s', opost (λ q, r = Some q) r s s' ∧ op_effect (Op_lock_create len) r s s') (λ _ _, False) s ∧
  wlp (do_op (Op_cv_create len)) (λ r s', opost none r s s') (λ _ _, False) s.
Proof.
  intros (Hi & _) Hlen. split; [|split]; simpl; wlp_bind.
  - wlp_use sem_create_spec; [done|done| |done]. intros p s1 [[_ Hu]|[(_ & _ & [own1 Hi1] & Hq & _) Hl]]; unfold wlp, finish, ret.
    + by eapply untouched_opost.
    + split; [by exists own1, pl|]. destruct Hq. eapply (quiet_post none []). split; try done. intros q _. by rewrite Hl.
  - wlp_use make_lock_spec; [done|done| |done]. intros p s1 [[_ Hu]|Ha]; unfold wlp, finish, ret; (split; [|intros q [= <-]]).
    + by eapply untouched_opost.
    + right. destruct Hu as (_ & _ & Hs & _). apply Hs.
    + apply added_opost in Ha as [Hg Hp]. split; [done|]. eapply post_mono; [|exact Hp]. by intros q ->.
    + left. apply Ha.
  - wlp_use cv_create_spec; [done|done| |done]. intros p s1 [Hu _]. unfold wlp, finish, ret. by eapply untouched_opost.
Qed.
Lemma call_spec o s own pl :
  calm s own pl → ts_first s = 0 → op_ok o →
  wlp (do_op o) (λ r s', opost (op_locks o s r) r s s' ∧ op_effect o r s s')
    (λ _ s', opost (pl_only s) (Some 0) s s') s.
Proof.
  intros Hc Hf Ho. pose proof Hc as (Hi & Hb & Hc0 & Hrm & Hac).
  destruct o as [|len n|sem|sem|len|p|p|len|cv p|cv p|cv p|len| | |code|pid st opts]; simpl in Ho.
  - wlp_use thread_yield_spec; [done| |done]. by intros r s' [? _].
  - wlp_use (proj1 (create_op_spec len n s own pl Hc Ho)); done.
  - wlp_use P_spec; done.
  - simpl. wlp_bind. wlp_use V_spec; [done| |done]. intros [] s1 [Hq _]. split; [by eapply qpost_opost|done].
  - wlp_use (proj1 (proj2 (create_op_spec len 0 s own pl Hc Ho))); done.
  - wlp_use lock_acquire_spec; [by apply calm_ready|done| |]; [|by intros e s' [_ ?]]. intros r s' [Hp Ha]. split; [done|by apply Ha].
  - simpl. wlp_bind. wlp_use lock_release_spec; [done| |done]. intros [] s1 [Hq _]. split; [by eapply qpost_opost|done].
  - wlp_use (proj2 (proj2 (create_op_spec len 0 s own pl Hc Ho))); done.
  - wlp_use cv_wait_spec; [done|done|done|done| |done]. intros r s' (-> & Hp & l & Hl & _ & Hptr). split; [done|]. simpl. eauto.
  - simpl. wlp_bind. wlp_use cv_signal_spec; [done| |done]. intros [] s1 [Hq _]. split; [by eapply qpost_opost|done].
  - simpl. wlp_bind. wlp_use cv_broadcast_spec; [done| |done]. intros [] s1 [Hq _]. split; [by eapply qpost_opost|done].
  - wlp_use thread_fork_spec; done.
  - wlp_use thread_exit_spec; [done|done| |done]. by intros r s' [-> ?].
  - simpl. unfold sys_getpid. wlp_bind. unfold wlp at 1, gets. wlp_bind. apply wlp_the_thread. intros th _.
    unfold wlp, finish, ret. split; [|done]. split; [by exists own, pl|]. eapply (quiet_post none []), quiet_refl.
  - wlp_use sys__exit_spec; done.
  - wlp_use sys_waitpid_spec; done.
Qed.

(** ** What a step does *)

Definition event_result (e : event) : option Z :=
  match e with
  | Called _ _ r | Resumed _ _ r => r
  | Dispatched => None
  | Failed _ _ _ | Resume_failed _ _ _ | Interrupt _ => Some 0
  end.
Definition event_locks (e : event) s : Z → Prop :=
  match e with
  | Called _ o r => op_locks o s r
  | Failed _ _ _ => pl_only s
  | Resumed _ k _ | Resume_failed _ k _ => resume_locks k
  | Dispatched | Interrupt _ => none
  end.
Definition event_effect (e : event) s s' : Prop :=
  match e with
  | Called t o r => t = ts_cur s ∧ op_effect o r s s'
  | Resumed t k r => t = ts_cur s ∧ ∀ p c, lock_wanted k = Some (p, c) →
      if simple c then acquired p r s s' else p = ts_process_lock s
  | Resume_failed _ k _ => ∀ p c, lock_wanted k = Some (p, c) → p = ts_process_lock s
  | _ => True
  end.

Lemma wlp_result {A} (c : M S A) Q E s a s' : wlp c Q E s → c s = Ok a s' → Q a s'.
Proof. unfold wlp. intros Hw He. by rewrite He in Hw. Qed.
Lemma wlp_error {A} (c : M S A) (Q : A → S → Prop) E s e s' : wlp c Q E s → c s = Err e s' → E e s'.
Proof. unfold wlp. intros Hw He. by rewrite He in Hw. Qed.
Lemma running_calm s own pl t : tinv none s own pl → acct s → running s t None → room s → calm s own pl.
Proof.
  intros Hi Hac (Hc & Ht0 & th & Ht & Hk) Hrm. split; [done|]. split; [split|].
  - eapply idle_0; [done|congruence].
  - rewrite Hc. intros x. rewrite Ht. by intros [= <-].
  - split; [congruence|done].
Qed.
Lemma dispatch_post s own pl s' :
  tinv none s own pl → ts_cur s = 0 → dispatch s = Ok tt s' → opost none None s s'.
Proof.
  intros Hi Hc Hd. destruct (wlp_result _ _ _ _ _ _ (dispatch_spec none s own pl Hi Hc) Hd)
    as (own' & pl' & Hi' & (_ & Hl & _ & _ & _ & Hpl & Hf & Hn & _) & Hr & Hs & Hz).
  split; [by exists own', pl'|]. split; try done.
  - exists []. by rewrite app_nil_r.
  - unfold count. rewrite Hn, Hs, Hr, zlen_app, (cur_list_0 s Hc). change (zlen []) with 0. lia.
  - intros p _. by rewrite Hl.
Qed.
Lemma running_kont s own pl t k :
  tinv none s own pl → running s t (Some k) → kont_ok (ts_process_lock s) pl t k.
Proof.
  intros Hi (Hc & Ht0 & th & Ht & Hk). rewrite <- Hc in *. destruct (cur_facts _ _ _ _ Hi Ht0) as [Hp _].
  destruct (ti_thread _ _ _ _ Hi _ _ Ht) as (_ & _ & Hok). rewrite Hp in Hok. by apply Hok.
Qed.
Lemma step_post s e s' :
  started s → step s e s' → opost (event_locks e s) (event_result e) s s' ∧ event_effect e s s'.
Proof.
  intros ((own & pl & Hi) & Hac & Hf) Hst. destruct Hst as [s t o r s' Hr Hrm Ho He|s t o e s' Hr Hrm Ho He|
    s t k r s' Hr Hrm He|s t k e s' Hr Hrm He|s s' Hc Hid Hd|s sem s' _ HV]; simpl.
  - destruct (wlp_result _ _ _ _ _ _ (call_spec o s own pl (running_calm _ _ _ _ Hi Hac Hr Hrm) Hf Ho) He) as [Hp Hef].
    split; [done|]. split; [by destruct Hr|done].
  - split; [|done]. apply (wlp_error _ _ _ _ _ _ (call_spec o s own pl (running_calm _ _ _ _ Hi Hac Hr Hrm) Hf Ho) He).
  - pose proof (running_kont _ _ _ _ _ Hi Hr) as (_ & _ & Hlk). destruct Hr as (Hc & Ht0 & th & Ht & Hk). subst t.
    destruct (wlp_result _ _ _ _ _ _ (resume_spec k s own pl th Hi Ht0 Ht Hk Hrm Hac) He) as [Hp Ha].
    split; [done|]. split; [done|]. intros p c Hw. destruct (simple c) eqn:Hs; [by eapply Ha|by eapply Hlk].
  - pose proof (running_kont _ _ _ _ _ Hi Hr) as (_ & _ & Hlk). destruct Hr as (Hc & Ht0 & th & Ht & Hk). subst t.
    destruct (wlp_error _ _ _ _ _ _ (resume_spec k s own pl th Hi Ht0 Ht Hk Hrm Hac) He) as [Hp Ha].
    split; [done|]. intros p c Hw. eapply Hlk; [done|by eapply Ha].
  - split; [|done]. by eapply dispatch_post.
  - destruct (wlp_result _ _ _ _ _ _ (V_spec s own pl sem Hi) HV) as [Hq _]. split; [by eapply qpost_opost|done].
Qed.
Lemma step_started s e s' : started s → step s e s' → started s'.
Proof.
  intros Hs Hst. destruct (step_post s e s' Hs Hst) as [[Hg []] _]. destruct Hs as (_ & Hac & Hf).
  split; [done|]. unfold acct in *. split; [lia|congruence].
Qed.
Lemma reachable_started h tr s : kinv h → reachable h tr s → started s.
Proof.
  intros Hk. induction 1 as [r s Hb|tr s e s' _ IH Hst].
  - by destruct (wlp_result _ _ _ _ _ _ (bootstrap_spec h Hk) Hb).
  - by eapply step_started.
Qed.
End step.
