(* ===== verification/ThreadThm.v ===== *)
(** * Threads: the theorems *)

From S2P Require Import Prelude Kmem KArray KQueue Vnode Thread ThreadSpec ThreadInv ThreadOps ThreadSync ThreadLife ThreadProc ThreadRun ThreadBoot ThreadStep.

(** ** Running the machine *)

Inductive cmd := Do (o : op) | Go | Wait_over | Interrupted (sem : Z).

Definition op_okb (o : op) : bool :=
  match o with
  | Op_sem_create len _ | Op_lock_create len | Op_cv_create len | Op_fork len => (0 <=? len) && (len <? 4294963200)
  | _ => true
  end.

Section exec.
Context {H : Type} `{!Kmem H, !KmemOk H, !Kenv H}.
Notation S := (ts H).
Implicit Types (s : S).

(** The continuation of the current thread, [None] when there is no current
    thread or no room for another one. *)
Definition cur_kont s : option (option kont) :=
  if (ts_cur s =? 0) || negb (ts_numthreads s + zlen (zombie_list s) <? 67108860) then None
  else t_kont <$> ts_threads s !! ts_cur s.
Definition exec (c : cmd) s : option (event * S) :=
  match c, cur_kont s with
  | Do o, Some None =>
      if op_okb o then
        match do_op o s with
        | Ok r s' => Some (Called (ts_cur s) o r, s')
        | Err e s' => Some (Failed (ts_cur s) o e, s')
        | _ => None
        end
      else None
  | Go, Some (Some k) =>
      match resume k s with
      | Ok r s' => Some (Resumed (ts_cur s) k r, s')
      | Err e s' => Some (Resume_failed (ts_cur s) k e, s')
      | _ => None
      end
  | Wait_over, None =>
      if (ts_cur s =? 0) && negb (ts_idle s =? 0) then
        match dispatch s with Ok _ s' => Some (Dispatched, s') | _ => None end
      else None
  | Interrupted sem, None =>
      if (ts_cur s =? 0) && negb (ts_idle s =? 0) then
        match V sem s with Ok _ s' => Some (Interrupt sem, s') | _ => None end
      else None
  | _, _ => None
  end.
Fixpoint exec_all (cs : list cmd) s : option (list event * S) :=
  match cs with
  | [] => Some ([], s)
  | c :: cs' => match exec c s with
                | Some (e, s1) => match exec_all cs' s1 with Some (tr, s2) => Some (e :: tr, s2) | None => None end
                | None => None
                end
  end.
Definition boot_exec (h : H) (cs : list cmd) : option (list event * S) :=
  match bootstrap (boot0 h) with Ok _ s => exec_all cs s | _ => None end.

Lemma cur_kont_running s k : cur_kont s = Some k → running s (ts_cur s) k ∧ room s.
Proof.
  unfold cur_kont. destruct (Z.eqb_spec (ts_cur s) 0); [done|]. simpl. unfold room.
  destruct (Z.ltb_spec (ts_numthreads s + zlen (zombie_list s)) 67108860); [|done]. simpl.
  destruct (ts_threads s !! ts_cur s) as [th|] eqn:Ht; [|done]. intros [= <-]. split; [|done]. split; [done|]. eauto.
Qed.
Lemma op_okb_ok o : op_okb o = true → op_ok o.
Proof. destruct o; simpl; lia. Qed.
Lemma exec_step c s e s' : exec c s = Some (e, s') → step s e s'.
Proof.
  unfold exec. destruct (cur_kont s) as [k|] eqn:Hk; [apply cur_kont_running in Hk as [Hr Hrm]|].
  - destruct c as [o| | |]; [|destruct k as [k|]; [|done]|destruct k; done|destruct k; done].
    + destruct k; [done|]. destruct (op_okb o) eqn:Ho; [|done]. apply op_okb_ok in Ho.
      destruct (do_op o s) eqn:He; intros [= <- <-]; by econstructor.
    + destruct (resume k s) eqn:He; intros [= <- <-]; by econstructor.
  - destruct c; try done; destruct (Z.eqb_spec (ts_cur s) 0); try done; destruct (Z.eqb_spec (ts_idle s) 0); try done; simpl.
    + destruct (dispatch s) as [[] s1| | |] eqn:He; try done. intros [= <- <-]. by constructor.
    + destruct (V sem s) as [[] s1| | |] eqn:He; try done. intros [= <- <-]. constructor; [|done]. by left.
Qed.
Lemma exec_all_reachable h cs s tr0 tr s' :
  reachable h tr0 s → exec_all cs s = Some (tr, s') → reachable h (tr0 ++ tr) s'.
Proof.
  revert s tr0 tr. induction cs as [|c cs IH]; intros s tr0 tr Hr; simpl; [intros [= <- <-]; by rewrite app_nil_r|].
  destruct (exec c s) as [[e s1]|] eqn:He; [|done]. destruct (exec_all cs s1) as [[tr1 s2]|] eqn:Hx; [|done].
  intros [= <- <-]. replace (tr0 ++ e :: tr1) with ((tr0 ++ [e]) ++ tr1) by by rewrite <- app_assoc.
  apply (IH s1); [|done]. econstructor; [done|by eapply exec_step].
Qed.
Lemma boot_exec_reachable h cs tr s : boot_exec h cs = Some (tr, s) → reachable h tr s.
Proof.
  unfold boot_exec. destruct (bootstrap (boot0 h)) as [r s0| | |] eqn:Hb; try done. intros Hx.
  apply (exec_all_reachable h cs s0 [] tr); [|done]. by econstructor.
Qed.
End exec.

(** ** Places *)

Section theorems.
Context {H : Type} `{!Kmem H, !KmemOk H, !Kenv H}.
Notation S := (ts H).
Implicit Types (s : S).

Definition everybody s : list Z := cur_list s ++ run_list s ++ sleep_list s ++ zombie_list s.

Lemma placed_app l r pl p :
  placed l pl p → NoDup r → (∀ t, t ∈ r → pl !! t ≠ Some p) → NoDup (l ++ r).
Proof. intros [Hn Hl] Hr Hd. apply NoDup_app. split; [done|]. split; [|done]. intros t Ht%Hl Ht'%Hd. done. Qed.


(** C16 No wakeup is lost.  In every state the kernel gets into, a thread among
    the sleepers sleeps on the object it waits for, and what it waits for has
    not happened: the count of its semaphore is zero, its lock is held, or it
    waits on a condition variable. *)
Theorem no_lost_wakeup h tr s t :
  kinv h → reachable h tr s → t ∈ sleep_list s →
  ∃ th k, ts_threads s !! t = Some th ∧ t_kont th = Some k ∧ chan k = Some (t_sleepaddr th) ∧
    match k with
    | K_P sem _ => ∃ x, ts_sems s !! sem = Some x ∧ sem_count x = 0
    | K_acquire lock _ _ => ∃ l, ts_locks s !! lock = Some l ∧ lk_held l ≠ 0
    | K_cv _ _ _ _ => True
    | _ => False
    end.
Proof.
  intros Hk Hr Ht. destruct (reachable_started h tr s Hk Hr) as ((own & pl & []) & _).
  apply ti_sleep in Ht. assert (is_Some (ts_threads s !! t)) as [th Hth] by (apply elem_of_dom, ti_dom, elem_of_dom; eauto).
  destruct (ti_thread t th Hth) as (_ & _ & Hp). rewrite Ht in Hp. destruct Hp as (k & Hkt & Hch & [[]|Hw] & _).
  exists th, k. done.
Qed.

(** ** The order in which threads run *)

(** The threads that get the processor in a step. *)
Definition ran (e : event) s' : list Z := if event_result e is None then cur_list s' else [].
Inductive runs : S → list Z → S → Prop :=
  | runs_nil s : runs s [] s
  | runs_step s e s1 ds s' : step s e s1 → runs s1 ds s' → runs s (ran e s1 ++ ds) s'.
Lemma runs_flow s ds s' : started s → runs s ds s' → ∃ ar, run_list s ++ ar = ds ++ run_list s'.
Proof.
  intros Hs Hr. induction Hr as [s|s e s1 ds s' Hst Hr IH]; [exists []; by rewrite app_nil_r|].
  destruct (step_post s e s1 Hs Hst) as [[_ [[ar1 Hf] _ _ _ _ _]] _].
  destruct (IH (step_started _ _ _ Hs Hst)) as [ar2 Har]. exists (ar1 ++ ar2).
  unfold ran. rewrite app_assoc, Hf, <- !app_assoc, Har. done.
Qed.

(** C18 Round robin.  From any state the kernel gets into, the threads in the run
    queue get the processor in the order of the queue and before any thread
    that becomes ready later: the thread at position [i] is the [i]-th to be
    dispatched. *)
Theorem round_robin h tr s ds s' i t :
  kinv h → reachable h tr s → runs s ds s' → run_list s !! i = Some t → (i < length ds)%nat → ds !! i = Some t.
Proof.
  intros Hk Hr Hrs Hi Hlt. destruct (runs_flow s ds s' (reachable_started h tr s Hk Hr) Hrs) as [ar Har].
  rewrite <- (lookup_app_l ds (run_list s') i Hlt), <- Har. by apply lookup_app_l_Some.
Qed.

(** ** Mutual exclusion *)

(** The locks the threads have, by what they called: [lock_acquire] returned,
    and neither [lock_release] nor [cv_wait] has been called since. *)
Definition hold_step (h : gset (Z * Z)) (e : event) : gset (Z * Z) :=
  match e with
  | Called t (Op_acquire p) (Some _) => {[(t, p)]} ∪ h
  | Called t (Op_release p) _ | Called t (Op_wait _ p) _ => h ∖ {[(t, p)]}
  | Resumed t k (Some _) =>
      match lock_wanted k with Some (p, c) => if simple c then {[(t, p)]} ∪ h else h | None => h end
  | _ => h
  end.
Definition holds (tr : list event) : gset (Z * Z) := fold_left hold_step tr ∅.
(** A thread only releases locks it has. *)
Definition disciplined (tr : list event) : Prop :=
  ∀ tr1 t p r tr2, tr = tr1 ++ Called t (Op_release p) r :: tr2 → (t, p) ∈ holds tr1.

Implicit Types (hs : gset (Z * Z)).
Definition owned_by hs s : Prop := ∀ t p, (t, p) ∈ hs → p ≠ ts_process_lock s →
  ∃ l, ts_locks s !! p = Some l ∧ lk_held l = 1 ∧ lk_pointer l = t.
Lemma owned_keep hs hs' X r s s' :
  owned_by hs s → post X r s s' → (∀ t q, (t, q) ∈ hs' → q ≠ ts_process_lock s → (t, q) ∈ hs ∧ ¬ X q) → owned_by hs' s'.
Proof.
  intros Ho [] Hsub t q Hin Hq. rewrite ps_plock in Hq. destruct (Hsub t q Hin Hq) as [Hin' HX]. rewrite ps_locks by done. by apply Ho.
Qed.
Lemma owned_acquired hs p r s s' :
  owned_by hs s → ts_process_lock s' = ts_process_lock s → acquired p r s s' →
  owned_by (if r is Some _ then {[(ts_cur s, p)]} ∪ hs else hs) s'.
Proof.
  intros Ho Hpl Ha. destruct r as [v|]; simpl in Ha.
  - destruct Ha as (l & Hl & Hh & Heq). intros t q Hin Hq. rewrite Heq. rewrite Hpl in Hq. destruct (decide (p = q)) as [->|Hne].
    + rewrite lookup_insert_eq. eexists. split; [done|]. split; [done|]. simpl. apply elem_of_union in Hin as [Hin|Hin].
      * apply elem_of_singleton in Hin. by injection Hin as <-.
      * destruct (Ho t q Hin Hq) as (l' & Hl' & Hh' & _). exfalso. rewrite Hl in Hl'. injection Hl' as <-. lia.
    + rewrite lookup_insert_ne by done. apply Ho; [|done]. set_solver.
  - intros t q Hin Hq. rewrite Ha. apply Ho; [done|congruence].
Qed.
(** The lock [p] is given up by [t], who has it. *)
Lemma owned_release hs t p l r s s' :
  owned_by hs s → post (λ q, q = p) r s s' → (p ≠ ts_process_lock s → ts_locks s !! p = Some l ∧ lk_pointer l = t) →
  owned_by (hs ∖ {[(t, p)]}) s'.
Proof.
  intros Ho Hp Hl. eapply owned_keep; [done|done|]. intros u q [Hin Hn]%elem_of_difference Hq. split; [done|]. simpl. intros ->.
  destruct (Hl Hq) as [Hl1 Ht]. destruct (Ho u p Hin Hq) as (l' & Hl' & _ & Hu). rewrite Hl1 in Hl'. injection Hl' as <-. set_solver.
Qed.
Lemma owned_step hs s e s' :
  started s → owned_by hs s → step s e s' →
  (∀ t p r, e = Called t (Op_release p) r → (t, p) ∈ hs) → owned_by (hold_step hs e) s'.
Proof.
  intros Hs Ho Hst Hd. destruct (step_post s e s' Hs Hst) as [[_ Hp] He].
  assert (Hsame : (∀ q, event_locks e s q → q = ts_process_lock s ∨ ts_locks s !! q = None) → owned_by hs s').
  { intros HX. eapply owned_keep; [done|done|]. intros t q Hin Hq. split; [done|]. intros [?|Hn]%HX; [done|].
    destruct (Ho t q Hin Hq) as (l & Hl & _). congruence. }
  destruct e as [t o r|t o e|t k r|t k e| |sem]; simpl in *; try (apply Hsame; by intros q; auto).
  - destruct He as [-> He]. destruct o as [| | | |len|p|p| |cv p| | | | | | |]; simpl in *; try (apply Hsame; by intros q; auto).
    + destruct r as [p|]; [|apply Hsame; by intros q]. destruct (He p eq_refl) as [Hn|Heq]; [apply Hsame; intros q [= <-]; by right|].
      intros t q Hin Hq. rewrite Heq. apply Ho; [done|]. by rewrite (ps_plock _ _ _ _ Hp) in Hq.
    + pose proof (owned_acquired hs p r s s' Ho (ps_plock _ _ _ _ Hp) He) as Ha. by destruct r.
    + pose proof (Hd _ _ _ eq_refl) as Hin. destruct (decide (p = ts_process_lock s)) as [Hpl|Hpl].
      * eapply (owned_release hs _ p (mklock 0 0 0)); [done|done|]. done.
      * destruct (Ho _ p Hin Hpl) as (l & Hl & _ & Hptr). by eapply (owned_release hs _ p l).
    + destruct He as (l & Hl & Hptr). by eapply (owned_release hs _ p l).
  - destruct He as [-> He]. destruct (lock_wanted k) as [[p c]|] eqn:Hw.
    + specialize (He p c eq_refl). destruct (simple c).
      * pose proof (owned_acquired hs p r s s' Ho (ps_plock _ _ _ _ Hp) He) as Ha. by destruct r.
      * assert (owned_by hs s') by (apply Hsame; intros q [c' Hq]; left; congruence). by destruct r.
    + assert (owned_by hs s') by (apply Hsame; intros q [c' Hq]; congruence). by destruct r.
  - apply Hsame. intros q [c Hq]. left. by eapply He.
Qed.
Lemma disciplined_init tr e : disciplined (tr ++ [e]) → disciplined tr ∧ ∀ t p r, e = Called t (Op_release p) r → (t, p) ∈ holds tr.
Proof.
  intros Hd. split.
  - intros tr1 t p r tr2 ->. apply (Hd tr1 t p r (tr2 ++ [e])). by rewrite <- app_assoc.
  - intros t p r ->. by apply (Hd tr t p r []).
Qed.
Lemma reachable_owned h tr s : kinv h → reachable h tr s → disciplined tr → owned_by (holds tr) s.
Proof.
  intros Hk Hr. induction Hr as [r s Hb|tr s e s' Hr IH Hst]; intros Hd; [intros t p Hin; set_solver|].
  apply disciplined_init in Hd as [Hd He]. unfold holds. rewrite fold_left_app. simpl.
  eapply owned_step; [by eapply reachable_started|by apply IH|done|done].
Qed.

End theorems.

(** ** Waiting for a child *)

Section wait.
Context {H : Type} `{!Kmem H, !KmemOk H, !Kenv H}.
Notation S := (ts H).
Implicit Types (s : S).

Definition nobody_on (addr : Z) s : Prop :=
  ∀ t, t ∈ sleep_list s → ∃ th, ts_threads s !! t = Some th ∧ t_sleepaddr th ≠ addr.
Lemma wakeup_loop_nobody single fuel addr i s :
  array_ok (ts_heap s, ts_sleepers s) → lists s → nobody_on addr s → 0 ≤ i → arr_num (ts_sleepers s) - i ≤ Z.of_nat fuel →
  wakeup_loop single fuel addr i s = Ok tt s.
Proof.
  intros Ho Hl Hn. revert i. induction fuel as [|fuel IH]; intros i Hi Hf; cbn [wakeup_loop]; unfold bind at 1, get at 1;
    unfold array_getnum; destruct (Z.ltb_spec i (arr_num (ts_sleepers s))) as [Hlt|Hge]; cbn [negb]; try done; [lia|].
  pose proof Ho as (_ & Hwf & _). destruct (array_getguy_spec (ts_sleepers s) i Hwf) as [Hg _]; [lia|].
  pose proof (arr_num_contents _ _ Ho) as Hnum. rewrite (li_sleep _ Hl) in Hnum, Hg. rewrite zget_fmap in Hg. unfold zget in Hg.
  rewrite decide_True in Hg by done. destruct (sleep_list s !! Z.to_nat i) as [t|] eqn:Ht.
  2: { apply lookup_ge_None in Ht. unfold zlen in Hnum. rewrite length_fmap in Hnum. lia. }
  destruct (Hn t) as (th & Hth & Hne); [by eapply list_elem_of_lookup_2|].
  unfold guy, the_thread, bind, get, opt. rewrite Hg. simpl. unfold ret. rewrite Hth.
  destruct (Z.eqb_spec (t_sleepaddr th) addr); [done|]. apply IH; lia.
Qed.
Definition with_lock (p : Z) (l : lock) s : S := set_locks (<[p := l]> (ts_locks s)) s.
Ltac lock_fields := repeat
  match goal with
  | |- context [ts_threads (with_lock ?p ?l ?s)] => change (ts_threads (with_lock p l s)) with (ts_threads s)
  | |- context [ts_cur (with_lock ?p ?l ?s)] => change (ts_cur (with_lock p l s)) with (ts_cur s)
  | |- context [ts_procs (with_lock ?p ?l ?s)] => change (ts_procs (with_lock p l s)) with (ts_procs s)
  | |- context [ts_process_lock (with_lock ?p ?l ?s)] => change (ts_process_lock (with_lock p l s)) with (ts_process_lock s)
  end.
(** Taking a lock nobody has. *)
Lemma take_free_lock p c s l :
  p ≠ 0 → ts_locks s !! p = Some l → lk_held l = 0 → lk_pointer l ≠ ts_cur s →
  lock_acquire p c s = after c (with_lock p (mklock (lk_name l) 1 (ts_cur s)) s).
Proof.
  intros Hp Hl Hh Hne. unfold lock_acquire, acquire_loop, lock_do_i_hold, splhigh, splx, the_lock, put_lock, bind, get, gets, put, ret,
    modify, kassert, opt, ret. destruct (Z.eqb_spec p 0); [done|]. simpl. rewrite Hl. destruct (Z.eqb_spec (lk_pointer l) (ts_cur s)); [done|].
  simpl. rewrite Hl, Hh. simpl. by destruct s.
Qed.
Lemma release_locked s own p l n :
  owns s own → lists s → nobody_on p s → p ≠ 0 → lk_name l = n →
  lock_release p (with_lock p l s) = Ok tt (with_lock p (mklock n 0 0) s).
Proof.
  intros Ho Hli Hn Hp <-. unfold lock_release, bind at 1, kassert. destruct (Z.eqb_spec p 0); [done|]. simpl.
  unfold splhigh, splx, the_lock, put_lock, bind, get, put, ret, modify, opt, ret. simpl. rewrite lookup_insert_eq.
  unfold thread_wakeup, wakeup, assert_spl, bind, get, kassert, ret. simpl.
  rewrite (wakeup_loop_nobody false _ p 0).
  - simpl. rewrite lookup_insert_eq. simpl. rewrite !insert_insert_eq. by destruct s.
  - apply Ho.
  - by destruct Hli.
  - done.
  - done.
  - simpl. unfold array_getnum. lia.
Qed.

(** [sys_waitpid] for a process that is no child of the caller, or for a
    child that has stopped: the answer is an error or the exit code of the
    child, the process lock is free again, and nothing else has changed. *)
Theorem waitpid_answers h tr s th pid status child p l :
  kinv h → reachable h tr s → ts_threads s !! ts_cur s = Some th →
  MINPID ≤ pid ≤ MAXPID → status ≠ 0 → zget (ts_table s) pid = Some child → child ≠ 0 → ts_procs s !! child = Some p →
  ts_process_lock s ≠ 0 → ts_locks s !! ts_process_lock s = Some l → lk_held l = 0 → lk_pointer l ≠ ts_cur s →
  nobody_on (ts_process_lock s) s → p_ppid p ≠ t_pid th ∨ p_status p = PROCESS_STOP →
  let s' := with_lock (ts_process_lock s) (mklock (lk_name l) 0 0) s in
  sys_waitpid pid status 0 s = if p_ppid p =? t_pid th then Ok (Some (p_exitcode p)) s' else Err EINVAL s'.
Proof.
  intros Hk Hr Hth Hpid Hst Htab Hc Hp HL Hl Hh Hne Hn Hcase s'.
  destruct (reachable_started h tr s Hk Hr) as ((own & pl & []) & _).
  unfold sys_waitpid. simpl. destruct (Z.eqb_spec status 0); [done|]. unfold get_process, table_get, bind at 1.
  destruct (Z.gtb_spec pid MAXPID); [lia|]. destruct (Z.ltb_spec pid MINPID); [lia|]. simpl. unfold bind at 1, get.
  rewrite Htab. simpl. destruct (Z.eqb_spec child 0); [done|]. unfold bind at 1, gets.
  rewrite (take_free_lock _ _ s l) by done. simpl. unfold waitpid_locked, the_proc, the_thread, bind, get, gets, opt, ret.
  lock_fields. rewrite Hp. simpl. lock_fields. rewrite Hth. simpl. lock_fields. destruct (Z.eqb_spec (p_ppid p) (t_pid th)) as [He|He]; simpl.
  - destruct Hcase as [?|Hstop]; [done|]. rewrite Hstop. simpl. unfold waitpid_status, waitpid_end, the_proc, bind, get, gets, opt, ret.
    lock_fields. rewrite Hp. rewrite (release_locked s own _ _ (lk_name l)) by done. simpl. lock_fields.
    rewrite (release_locked s own _ _ (lk_name l)) by done. simpl. lock_fields. by rewrite Hp.
  - by rewrite (release_locked s own _ _ (lk_name l)).
Qed.
End wait.

(** ** Deciding what the theorems ask for *)

Section decide.
Context {H : Type} `{!Kmem H, !KmemOk H, !Kenv H}.
Fixpoint disciplinedb (hs : gset (Z * Z)) (tr : list event) : bool :=
  match tr with
  | [] => true
  | e :: tr' =>
      match e with Called t (Op_release p) _ => bool_decide ((t, p) ∈ hs) | _ => true end && disciplinedb (hold_step hs e) tr'
  end.
Lemma disciplinedb_ok tr : disciplinedb ∅ tr = true → disciplined tr.
Proof.
  unfold disciplined, holds. generalize (∅ : gset (Z * Z)) as hs. induction tr as [|e tr IH]; intros hs Hd [|e1 tr1] t p r tr2 [=]; subst; simpl in *.
  - apply andb_true_iff in Hd as [Hd _]. by apply bool_decide_eq_true in Hd.
  - apply andb_true_iff in Hd as [_ Hd]. by eapply IH.
Qed.
Fixpoint dispatched (cs : list cmd) (s : ts H) : option (list Z * ts H) :=
  match cs with
  | [] => Some ([], s)
  | c :: cs' => match exec c s with
                | Some (e, s1) => match dispatched cs' s1 with Some (ds, s2) => Some (ran e s1 ++ ds, s2) | None => None end
                | None => None
                end
  end.
Lemma dispatched_runs cs s ds s' : dispatched cs s = Some (ds, s') → runs s ds s'.
Proof.
  revert s ds. induction cs as [|c cs IH]; intros s ds; simpl; [intros [= <- <-]; constructor|].
  destruct (exec c s) as [[e s1]|] eqn:He; [|done]. destruct (dispatched cs s1) as [[ds1 s2]|] eqn:Hd; [|done].
  intros [= <- <-]. econstructor; [by eapply exec_step|by apply IH].
Qed.
End decide.

(** ** A machine with a small heap *)

Module Machine.
#[global] Instance env : Kenv Toy.heap :=
  {| as_activate := λ _, ret tt; as_destroy := λ _, ret tt; vop_incref := λ _, ret tt; vop_decref := λ _, ret tt |}.
Definition heap0 : Toy.heap := Toy.mkheap 16 100000 ∅.
Definition booted (cs : list cmd) : option (list event * ts Toy.heap) := boot_exec heap0 cs.
Definition trace_of (cs : list cmd) : list event := match booted cs with Some (tr, _) => tr | None => [] end.
Definition state_of (cs : list cmd) : ts Toy.heap := match booted cs with Some (_, s) => s | None => boot0 heap0 end.
Definition ok (cs : list cmd) : bool := match booted cs with Some _ => true | None => false end.
Lemma booted_reachable cs : ok cs = true → reachable heap0 (trace_of cs) (state_of cs).
Proof.
  unfold ok, trace_of, state_of, booted. destruct (boot_exec heap0 cs) as [[tr s]|] eqn:Hb; [|discriminate]. intros _.
  apply (boot_exec_reachable heap0 cs). exact Hb.
Qed.

(** Two threads and a semaphore at 2464; the first thread sleeps on it. *)
Definition asleep : list cmd := [Do (Op_sem_create 3 0); Do (Op_fork 3); Do (Op_P 2464)].
Lemma heap0_ok : kinv heap0.
Proof. by split. Qed.

Lemma no_lost_wakeup_witness :
  ∃ th k, ts_threads (state_of asleep) !! 2240 = Some th ∧ t_kont th = Some k ∧ chan k = Some (t_sleepaddr th).
Proof.
  destruct (no_lost_wakeup heap0 (trace_of asleep) (state_of asleep) 2240 heap0_ok) as (th & k & Ht & Hk & Hc & _).
  - apply booted_reachable. vm_compute. reflexivity.
  - change (2240 ∈ [2240]). left.
  - exists th, k. split; [exact Ht|]. split; [exact Hk|exact Hc].
Defined.

(** Three ready threads; the first one yields, and so does the next. *)
Definition three : list cmd := [Do (Op_fork 3); Do (Op_fork 3); Do (Op_fork 3)].
Definition turns : list cmd := [Do Op_yield; Go; Do Op_yield; Go; Do Op_yield].
Lemma round_robin_witness :
  ∃ ds s', runs (state_of three) ds s' ∧ ds !! 1%nat = run_list (state_of three) !! 1%nat ∧ length ds = 3%nat.
Proof.
  destruct (dispatched turns (state_of three)) as [[ds s']|] eqn:Hd; [|exfalso; revert Hd; vm_compute; discriminate].
  assert (Hl : length ds = 3%nat).
  { revert Hd. vm_compute. intros Hd. injection Hd as <- _. reflexivity. }
  exists ds, s'. split; [by apply dispatched_runs in Hd|]. split; [|exact Hl].
  destruct (run_list (state_of three) !! 1%nat) as [t|] eqn:Ht; [|exfalso; revert Ht; vm_compute; discriminate].
  apply (round_robin heap0 (trace_of three) (state_of three) ds s'); [exact heap0_ok| |by apply dispatched_runs in Hd|exact Ht|lia].
  apply booted_reachable. vm_compute. reflexivity.
Defined.

(** A lock at 2464 that goes from the first thread to the second. *)
Definition handover : list cmd :=
  [Do (Op_lock_create 3); Do (Op_acquire 2464); Do (Op_fork 3); Do Op_yield; Go; Do (Op_acquire 2464); Go;
   Do (Op_release 2464); Do Op_yield; Go].

(** The child has stopped with code 7 and is process 102. *)
Definition stopped : list cmd := [Do (Op_fork 3); Do Op_yield; Go; Do (Op__exit 7); Go].
Lemma waitpid_answers_witness : ∃ s', sys_waitpid 102 1 0 (state_of stopped) = Ok (Some 7) s'.
Proof.
  set (s := state_of stopped).
  set (th := default (mkthread 0 0 0 0 [] 0 0 0 0 None) (ts_threads s !! ts_cur s)).
  set (p := default (mkprocess 0 0 0 0 0 0) (ts_procs s !! 2576)).
  set (l := default (mklock 0 0 0) (ts_locks s !! ts_process_lock s)).
  exists (with_lock (ts_process_lock s) (mklock (lk_name l) 0 0) s).
  assert (Hans : (p_ppid p =? t_pid th) = true ∧ p_exitcode p = 7) by (vm_compute; split; reflexivity). destruct Hans as [Hpp <-].
  rewrite (waitpid_answers heap0 (trace_of stopped) s th 102 1 2576 p l); [rewrite Hpp; reflexivity|exact heap0_ok|..].
  - apply booted_reachable. vm_compute. reflexivity.
  - vm_compute. reflexivity.
  - vm_compute. split; discriminate.
  - discriminate.
  - vm_compute. reflexivity.
  - discriminate.
  - vm_compute. reflexivity.
  - vm_compute. discriminate.
  - vm_compute. reflexivity.
  - vm_compute. reflexivity.
  - vm_compute. discriminate.
  - assert (Hs : sleep_list s = []) by (vm_compute; reflexivity). intros t Ht. rewrite Hs in Ht.
    exfalso. exact (not_elem_of_nil t Ht).
  - right. vm_compute. reflexivity.
Defined.

(** ** Where the preparations of [thread_fork] fall short *)

Definition heap_of (n : Z) : Toy.heap := Toy.mkheap 16 n ∅.
Definition reaches (n : Z) (cs : list cmd) (P : ts Toy.heap → bool) : bool :=
  match boot_exec (heap_of n) cs with Some (_, s) => P s | None => false end.
Lemma reaches_ok n cs P : reaches n cs P = true → ∃ tr s, reachable (heap_of n) tr s ∧ P s = true.
Proof.
  unfold reaches. destruct (boot_exec (heap_of n) cs) as [[tr s]|] eqn:Hb; [|discriminate]. intros HP.
  exists tr, s. split; [|exact HP]. apply (boot_exec_reachable (heap_of n) cs). exact Hb.
Qed.
Definition panics {A} (c : M (ts Toy.heap) A) (s : ts Toy.heap) : bool := match c s with Panic => true | _ => false end.


(** The room [thread_fork] reserves among the zombies does not stay.  [exorcise]
    empties the array, which gives its block back when it had more than 16
    slots; a later exit finds no memory and panics. *)
Definition burial : list cmd :=
  replicate 17 (Do (Op_fork 3)) ++ [Do Op_yield; Go; Do Op_thread_exit] ++ concat (replicate 16 [Go; Do Op_yield]) ++
  [Go; Do (Op_sem_create 9893 0)].
Lemma zombies_room_lost :
  ∃ tr s, reachable (heap_of 80000) tr s ∧ ts_numthreads s = 17 ∧ arr_max (ts_zombies s) = 0 ∧ thread_exit s = Panic.
Proof.
  destruct (reaches_ok 80000 burial
    (λ s, (ts_numthreads s =? 17) && (arr_max (ts_zombies s) =? 0) && panics thread_exit s)) as (tr & s & Hr & HP);
    [vm_compute; reflexivity|].
  exists tr, s. unfold panics in HP. split; [exact Hr|]. destruct (thread_exit s); rewrite ?andb_false_r in HP; [done|done| |done].
  split; [lia|]. split; [lia|done].
Qed.

(** When the process numbers run out, [thread_fork] returns an error with the
    process lock held by the caller, who panics on its next fork. *)
Theorem pids_exhausted :
  ∃ tr s s' l, reachable (heap_of 10000000) tr s ∧ thread_fork 3 s = Err ENOMEM s' ∧
    ts_locks s' !! ts_process_lock s' = Some l ∧ lk_held l = 1 ∧ lk_pointer l = ts_cur s' ∧ thread_fork 3 s' = Panic.
Proof.
  destruct (reaches_ok 10000000 (replicate 398 (Do (Op_fork 3)))
    (λ s, match thread_fork 3 s with
          | Err ENOMEM s' => match ts_locks s' !! ts_process_lock s' with
                        | Some l => (lk_held l =? 1) && (lk_pointer l =? ts_cur s') && panics (thread_fork 3) s'
                        | None => false
                        end
          | _ => false
          end)) as (tr & s & Hr & HP); [vm_compute; reflexivity|].
  unfold panics in HP. destruct (thread_fork 3 s) as [|[] s'| |] eqn:Hf; try discriminate.
  destruct (ts_locks s' !! ts_process_lock s') as [l|] eqn:Hl; [|discriminate].
  exists tr, s, s', l. split; [exact Hr|]. split; [exact Hf|]. split; [exact Hl|].
  destruct (thread_fork 3 s'); rewrite ?andb_false_r in HP; [done|done| |done]. split; [lia|]. split; [lia|done].
Qed.
End Machine.
