(* ===== verification/SfsCore.v ===== *)
(** * SFS block I/O, space allocation and block mapping
      (kern/fs/sfs/sfs_io.c, first part of kern/fs/sfs/sfs_vnode.c)

    One mounted volume: the device under it, the in-memory superblock and
    free map, the table of loaded vnodes.  The static buffers of the C
    routines are local values here: each is filled before it is used. *)

From S2P Require Import Prelude Kmem KArray KBitmap CopyInOut Uio BlockDev Vnode SfsDisk.

(** [sv_v], the abstract vnode inside a [struct sfs_vnode], is its first
    member: it has the same address and is kept in [vs_vn]. *)
Record sfs_vnode := mksv {
  sv_i : sfs_inode;
  sv_ino : Z;
  sv_dirty : bool;
}.

Record sfs_fs := mksfs {
  sfs_self : Z;
  sfs_sb : sfs_super;
  sfs_superdirty : bool;
  sfs_vnodes : array Z;
  sfs_freemap : bitmap;
  sfs_freemapdirty : bool;
}.

Record world (D H : Type) := mkworld {
  w_dev : D;
  w_k : vst H;
  w_fs : sfs_fs;
  w_sv : gmap Z sfs_vnode;
}.
Arguments mkworld {D H} _ _ _ _.
Arguments w_dev {D H} _.
Arguments w_k {D H} _.
Arguments w_fs {D H} _.
Arguments w_sv {D H} _.

Section sfs.
Context {D H : Type} `{!BlockDev D, !Kmem H}.
Notation W := (world D H).

(** ** Access to the parts of the state *)

Definition set_dev (d : D) (w : W) : W := mkworld d (w_k w) (w_fs w) (w_sv w).
Definition set_k (k : vst H) (w : W) : W := mkworld (w_dev w) k (w_fs w) (w_sv w).
Definition set_fs (f : sfs_fs) (w : W) : W := mkworld (w_dev w) (w_k w) f (w_sv w).
Definition set_svs (m : gmap Z sfs_vnode) (w : W) : W := mkworld (w_dev w) (w_k w) (w_fs w) m.

Definition set_map (b : bitmap) (f : sfs_fs) : sfs_fs :=
  mksfs (sfs_self f) (sfs_sb f) (sfs_superdirty f) (sfs_vnodes f) b (sfs_freemapdirty f).
Definition set_mapdirty (b : bool) (f : sfs_fs) : sfs_fs :=
  mksfs (sfs_self f) (sfs_sb f) (sfs_superdirty f) (sfs_vnodes f) (sfs_freemap f) b.

Definition in_k {A} (c : M (vst H) A) : M W A := zoom w_k set_k c.
Definition in_map {A} (c : M bitmap A) : M W A :=
  zoom (λ w, sfs_freemap (w_fs w)) (λ b w, set_fs (set_map b (w_fs w)) w) c.
Definition mark_mapdirty : M W unit := modify (λ w, set_fs (set_mapdirty true (w_fs w)) w).

(** A pointer that leads to no vnode is a wild access. *)
Definition get_sv (p : Z) : M W sfs_vnode := λ w,
  match w_sv w !! p with Some sv => Ok sv w | None => Panic end.
Definition put_sv (p : Z) (sv : sfs_vnode) : M W unit :=
  modify (λ w, set_svs (<[p := sv]> (w_sv w)) w).

Definition set_direct (n block : Z) (i : sfs_inode) : sfs_inode :=
  mkinode (sfi_size i) (sfi_type i) (sfi_linkcount i) (zset (sfi_direct i) n block)
          (sfi_indirect i) (sfi_waste i).
Definition set_indirect (block : Z) (i : sfs_inode) : sfs_inode :=
  mkinode (sfi_size i) (sfi_type i) (sfi_linkcount i) (sfi_direct i) block (sfi_waste i).
Definition set_size (n : Z) (i : sfs_inode) : sfs_inode :=
  mkinode n (sfi_type i) (sfi_linkcount i) (sfi_direct i) (sfi_indirect i) (sfi_waste i).
Definition set_linkcount (n : Z) (i : sfs_inode) : sfs_inode :=
  mkinode (sfi_size i) (sfi_type i) n (sfi_direct i) (sfi_indirect i) (sfi_waste i).
Definition set_type (n : Z) (i : sfs_inode) : sfs_inode :=
  mkinode (sfi_size i) n (sfi_linkcount i) (sfi_direct i) (sfi_indirect i) (sfi_waste i).
(** Store to a field of [sv_i] and set [sv_dirty]. *)
Definition upd_inode (f : sfs_inode → sfs_inode) (sv : sfs_vnode) : sfs_vnode :=
  mksv (f (sv_i sv)) (sv_ino sv) true.

(** ** Block I/O (sfs_io.c) *)

(** [tries] never exceeds 10, so ten more rounds are enough. *)
Fixpoint sfs_rwblock_retry (fuel : nat) (tries : Z) : M (D * ustate) unit :=
  let! result := try d_io in
  match result with
  | inr _ => ret tt
  | inl EINVAL => panic
  | inl EIO =>
      if (tries =? 0) || (tries <? 10) then
        match fuel with
        | O => hang
        | S fuel' => sfs_rwblock_retry fuel' (tries + 1)
        end
      else fail EIO
  | inl e => fail e
  end.
Definition sfs_rwblock : M (D * ustate) unit := sfs_rwblock_retry 10 0.

(** Run [c] with a descriptor of its own. *)
Definition with_uio {A} (us : ustate) (c : M (D * ustate) A) : M W (A * ustate) := λ w,
  match c (w_dev w, us) with
  | Ok a (d, us') => Ok (a, us') (set_dev d w)
  | Err e (d, _) => Err e (set_dev d w)
  | Panic => Panic
  | Hang => Hang
  end.

Definition SFSUIO (data : list Z) (block : Z) (rw : enum_uio_rw) : ustate :=
  mkustate (mk_kuio 0 SFS_BLOCKSIZE (i32 (i32 block * SFS_BLOCKSIZE)) rw) data ∅ [] 0.

(** The buffer before the call and the buffer after it. *)
Definition sfs_rblock (data : list Z) (block : Z) : M W (list Z) :=
  let! ' (_, us) := with_uio (SFSUIO data block UIO_READ) sfs_rwblock in
  ret (u_kbuf us).
Definition sfs_wblock (data : list Z) (block : Z) : M W unit :=
  with_uio (SFSUIO data block UIO_WRITE) sfs_rwblock ;;;
  ret tt.

(** ** Simple things and space allocation (sfs_vnode.c) *)

Definition zeroblock : list Z := replicate 512 0.

Definition sfs_clearblock (block : Z) : M W unit := sfs_wblock zeroblock block.

Definition sfs_sync_inode (sv : Z) : M W unit :=
  let! v := get_sv sv in
  when (sv_dirty v)
    (sfs_wblock (enc_inode (sv_i v)) (sv_ino v) ;;;
     put_sv sv (mksv (sv_i v) (sv_ino v) false)).

Definition sfs_balloc : M W Z :=
  let! diskblock := in_map bitmap_alloc in
  mark_mapdirty ;;;
  let! nblocks := gets (λ w, sp_nblocks (sfs_sb (w_fs w))) in
  if nblocks <=? diskblock then panic
  else sfs_clearblock diskblock ;;; ret diskblock.

Definition sfs_bfree (diskblock : Z) : M W unit :=
  in_map (bitmap_unmark diskblock) ;;;
  mark_mapdirty.

Definition sfs_bused (diskblock : Z) : M W bool :=
  let! nblocks := gets (λ w, sp_nblocks (sfs_sb (w_fs w))) in
  if nblocks <=? diskblock then panic
  else
    let! r := in_map (bitmap_isset diskblock) in
    ret (negb (r =? 0)).

(** ** Block mapping *)

(** "Hand back the block": it must be marked in use. *)
Definition hand_back (block : Z) : M W Z :=
  let! used := (if block =? 0 then ret true else sfs_bused block) in
  if used then ret block else panic.

(** The end of [sfs_bmap]: slot [idoff] of the indirect block, in [idbuf]. *)
Definition bmap_slot (doalloc : bool) (idblock : Z) (idbuf : list Z) (idoff : Z) : M W Z :=
  match zget idbuf idoff with
  | None => panic
  | Some block =>
      let! block :=
        (if (block =? 0) && doalloc then
           let! block := sfs_balloc in
           sfs_wblock (enc_words (zset idbuf idoff block)) idblock ;;;
           ret block
         else ret block) in
      hand_back block
  end.

Definition sfs_bmap (sv fileblock : Z) (doalloc : bool) : M W Z :=
  let! v := get_sv sv in
  if fileblock <? SFS_NDIRECT then
    match zget (sfi_direct (sv_i v)) fileblock with
    | None => panic
    | Some block =>
        let! block :=
          (if (block =? 0) && doalloc then
             let! block := sfs_balloc in
             put_sv sv (upd_inode (set_direct fileblock block) v) ;;;
             ret block
           else ret block) in
        hand_back block
    end
  else
    let fileblock := fileblock - SFS_NDIRECT in
    let idnum := fileblock / SFS_DBPERIDB in
    let idoff := fileblock mod SFS_DBPERIDB in
    if idnum >? 0 then fail EINVAL
    else
      let idblock := sfi_indirect (sv_i v) in
      if (idblock =? 0) && negb doalloc then ret 0
      else
        let! ' (idblock, idbuf) :=
          (if idblock =? 0 then
             let! idblock := sfs_balloc in
             put_sv sv (upd_inode (set_indirect idblock) v) ;;;
             ret (idblock, replicate 128 0)
           else
             let! l := sfs_rblock zeroblock idblock in
             ret (idblock, dec_idbuf l)) in
        bmap_slot doalloc idblock idbuf idoff.

End sfs.
