(* ===== verification/SfsSpec.v ===== *)
(** * SFS: the volume and its files, and what the block layer does to them

    A file is the map from offsets to bytes that its inode and the blocks of
    the device define ([fbyte]).  [fs_ok] is the invariant of the mounted
    volume, [file_ok] that of one file; [grows] is what every routine that
    works on one file guarantees about everything else. *)

From S2P Require Import Prelude Kmem KArray KBitmap CopyInOut Uio BlockDev Vnode SfsDisk.
From S2P Require Import SfsCore.

Section spec.
Context {D H : Type} `{!BlockDev D, !BlockDevOk D, !Kmem H}.
Notation W := (world D H).
Implicit Types (w : W) (d : D) (i : sfs_inode).

(** ** Equal up to the internal state of the device *)

Definition dev_equiv (d d' : D) : Prop :=
  (dinv d ↔ dinv d') ∧ d_blocks d' = d_blocks d ∧ ∀ b, sector d' b = sector d b.
#[export] Instance dev_equiv_equivalence : Equivalence dev_equiv.
Proof.
  split.
  - by intros d.
  - intros d1 d2 (? & ? & Hs). split_and!; [tauto|done|]. intros b. by rewrite Hs.
  - intros d1 d2 d3 (? & ? & Hs) (? & ? & Hs'). split_and!; [tauto|congruence|].
    intros b. by rewrite Hs', Hs.
Qed.

Definition same_data (w w' : W) : Prop :=
  dev_equiv (w_dev w) (w_dev w') ∧ w_k w' = w_k w ∧ w_fs w' = w_fs w ∧ w_sv w' = w_sv w.
#[export] Instance same_data_equivalence : Equivalence same_data.
Proof.
  split.
  - intros w. split; [reflexivity|done].
  - intros w1 w2 (? & ? & ? & ?). split; [by symmetry|done].
  - intros w1 w2 w3 (? & ? & ? & ?) (? & ? & ? & ?). split; [by etransitivity|].
    split_and!; congruence.
Qed.

(** ** The volume *)

Definition sec (w : W) (b : Z) : list Z := sector (w_dev w) b.
Definition nblk (w : W) : Z := sp_nblocks (sfs_sb (w_fs w)).
Definition used (w : W) (b : Z) : Prop := 0 ≤ b ∧ bit_set (sfs_freemap (w_fs w)) b = true.

Record fs_ok (w : W) : Prop := {
  fo_dev : dinv (w_dev w);
  fo_blocks : 0 < nblk w ≤ d_blocks (w_dev w);
  fo_offset : nblk w < 4194304;
  fo_map : bitmap_wf (sfs_freemap (w_fs w));
  fo_padded : bitmap_padded (sfs_freemap (w_fs w));
  fo_nbits : nblk w ≤ nbits (sfs_freemap (w_fs w));
  fo_tail : ∀ b, nblk w ≤ b < nbits (sfs_freemap (w_fs w)) → used w b;
  fo_super : used w 0;
}.

(** ** Files *)

(** The block numbers of a file, holes being 0. *)
Definition ptrs (w : W) (i : sfs_inode) : list Z :=
  sfi_direct i ++
  (if sfi_indirect i =? 0 then replicate 128 0 else dec_idbuf (sec w (sfi_indirect i))).
(** The blocks a file owns, its inode's apart. *)
Definition owned (w : W) (i : sfs_inode) : list Z :=
  filter (λ b, b ≠ 0) (sfi_indirect i :: ptrs w i).
Definition fbyte (w : W) (i : sfs_inode) (off : Z) : Z :=
  match zget (ptrs w i) (off / SFS_BLOCKSIZE) with
  | Some b => if b =? 0 then 0 else default 0 (zget (sec w b) (off mod SFS_BLOCKSIZE))
  | None => 0
  end.

Record file_ok (w : W) (i : sfs_inode) : Prop := {
  fi_wf : inode_wf i;
  fi_blocks : ∀ b, b ∈ owned w i → 0 < b < nblk w ∧ used w b;
  fi_nodup : NoDup (owned w i);
}.

#[export] Instance sec_proper : Proper (same_data ==> eq ==> eq) sec.
Proof. intros w w' ((_ & _ & Hs) & _) b _ <-. symmetry. apply Hs. Qed.
#[export] Instance nblk_proper : Proper (same_data ==> eq) nblk.
Proof. intros w w' (_ & _ & Hf & _). unfold nblk. by rewrite Hf. Qed.
#[export] Instance used_proper : Proper (same_data ==> eq ==> iff) used.
Proof. intros w w' (_ & _ & Hf & _) b _ <-. unfold used. by rewrite Hf. Qed.
#[export] Instance ptrs_proper : Proper (same_data ==> eq ==> eq) ptrs.
Proof. intros w w' Hw i _ <-. unfold ptrs. by rewrite Hw. Qed.
#[export] Instance owned_proper : Proper (same_data ==> eq ==> eq) owned.
Proof. intros w w' Hw i _ <-. unfold owned. by rewrite Hw. Qed.
#[export] Instance fbyte_proper : Proper (same_data ==> eq ==> eq ==> eq) fbyte.
Proof.
  intros w w' Hw i _ <- off _ <-. unfold fbyte. rewrite Hw. case_match; [|done].
  by rewrite Hw.
Qed.
#[export] Instance fs_ok_proper : Proper (same_data ==> iff) fs_ok.
Proof.
  assert (Himp : ∀ w w', same_data w w' → fs_ok w → fs_ok w').
  { intros w w' Hw []. pose proof Hw as ((Hd & Hb & _) & _ & Hf & _).
    assert (Hn : nblk w' = nblk w) by by rewrite Hw.
    split; rewrite ?Hf, ?Hn, ?Hb; try tauto.
    - intros b Hb'. rewrite <- Hw. auto.
    - by rewrite <- Hw. }
  intros w w' Hw. split; apply Himp; [done|by symmetry].
Qed.
#[export] Instance file_ok_proper : Proper (same_data ==> eq ==> iff) file_ok.
Proof.
  assert (Himp : ∀ w w' i, same_data w w' → file_ok w i → file_ok w' i).
  { intros w w' i Hw []. split; [done| |by rewrite <- Hw].
    intros b. rewrite <- Hw. auto. }
  intros w w' Hw i _ <-. split; apply Himp; [done|by symmetry].
Qed.

(** ** Block I/O *)

Lemma sfs_rwblock_read d s b :
  dinv d → 0 ≤ b < d_blocks d → block_uio s b → uio_rw (u_uio s) = UIO_READ →
  wp sfs_rwblock (λ _ t, dev_equiv d t.1 ∧ t.2 = kfilled (sector d b) s)
     (λ e t, e = EIO ∧ dev_equiv d t.1 ∧ t.2 = s) (d, s).
Proof.
  unfold sfs_rwblock. intros Hd Hb Hu Hrw.
  assert (Hgen : ∀ fuel tries d', 10 ≤ tries + Z.of_nat fuel → 0 ≤ tries → dev_equiv d d' →
    wp (sfs_rwblock_retry fuel tries) (λ _ t, dev_equiv d t.1 ∧ t.2 = kfilled (sector d b) s)
       (λ e t, e = EIO ∧ dev_equiv d t.1 ∧ t.2 = s) (d', s)).
  2: { apply Hgen; [done|done|reflexivity]. }
  induction fuel as [|fuel IH]; intros tries d' Hf Ht Heq; simpl;
    pose proof Heq as (Hi & Hbl & Hs).
  all: wp_bind; apply wp_try; wp_use d_read_spec; [by apply Hi|by rewrite Hbl|done|done|..].
  1,3: intros [] [d1 s1] (? & Hb1 & Hs1 & Hu1); simpl in *; subst s1; split;
    [etransitivity; [done|split_and!; [tauto|done|done]]|by rewrite Hs].
  all: intros e [d1 s1] (-> & ? & Hb1 & Hs1 & Hu1); simpl in *; subst s1.
  all: assert (dev_equiv d d1) by (etransitivity; [done|split_and!; [tauto|done|done]]).
  - replace ((tries =? 0) || (tries <? 10)) with false by lia. by apply wp_fail.
  - destruct ((tries =? 0) || (tries <? 10)) eqn:E; [apply IH; done || lia|by apply wp_fail].
Qed.

Lemma sfs_rwblock_write d s b :
  dinv d → 0 ≤ b < d_blocks d → block_uio s b → uio_rw (u_uio s) = UIO_WRITE →
  bytes (kdata SECTSIZE s) →
  wp sfs_rwblock
     (λ _ t, dinv t.1 ∧ d_blocks t.1 = d_blocks d ∧
             (∀ b', sector t.1 b' = if decide (b' = b) then kdata SECTSIZE s else sector d b') ∧
             t.2 = kdrained SECTSIZE s)
     (λ _ _, False) (d, s).
Proof.
  intros Hd Hb Hu Hrw Hk. unfold sfs_rwblock. simpl. wp_bind. apply wp_try.
  wp_use d_write_spec; [done..| |done]. intros [] t Ht. by apply wp_ret.
Qed.

(** The disk after [x] is written to block [b]. *)
Definition wrote (b : Z) (x : list Z) (w w' : W) : Prop :=
  dinv (w_dev w') ∧ d_blocks (w_dev w') = d_blocks (w_dev w) ∧
  (∀ b', sec w' b' = if decide (b' = b) then x else sec w b') ∧
  w_k w' = w_k w ∧ w_fs w' = w_fs w ∧ w_sv w' = w_sv w.

Lemma SFSUIO_block data b rw :
  zlen data = SFS_BLOCKSIZE → 0 ≤ b < 4194303 → block_uio (SFSUIO data b rw) b.
Proof.
  unfold SFS_BLOCKSIZE. intros Hl Hb. unfold SFSUIO, block_uio, SFS_BLOCKSIZE, SECTSIZE.
  rewrite (i32_small b), i32_small by lia. simpl. split_and!; [|lia|done].
  split; simpl; try done; lia.
Qed.

Lemma sfs_rblock_dev w data b :
  dinv (w_dev w) → 0 ≤ b < d_blocks (w_dev w) → b < 4194303 → zlen data = SFS_BLOCKSIZE →
  wp (sfs_rblock data b) (λ l w', l = sec w b ∧ same_data w w')
     (λ e w', e = EIO ∧ same_data w w') w.
Proof.
  intros Hd Hb Hb' Hl. unfold sfs_rblock. wp_bind. unfold wp at 1, with_uio.
  pose proof (SFSUIO_block data b UIO_READ Hl ltac:(lia)) as Hu.
  pose proof (sfs_rwblock_read (w_dev w) _ b ltac:(done) ltac:(lia) Hu eq_refl) as Hr.
  unfold wp in Hr. destruct (sfs_rwblock _) as [[] [d1 s1]|e [d1 s1]| |]; try done; simpl in *.
  - destruct Hr as [? ->]. apply wp_ret. simpl. split; [|done].
    destruct (sector_ok (w_dev w) b) as [Hz _]; [done|lia|].
    unfold SFSUIO, kfilled; simpl. rewrite splice_whole; [done|]. by rewrite Hz, Hl.
  - by destruct Hr as (-> & ? & _).
Qed.
Lemma sfs_rblock_spec w data b :
  fs_ok w → 0 ≤ b < nblk w → zlen data = SFS_BLOCKSIZE →
  wp (sfs_rblock data b) (λ l w', l = sec w b ∧ same_data w w')
     (λ e w', e = EIO ∧ same_data w w') w.
Proof. intros [] Hb Hl. apply sfs_rblock_dev; done || lia. Qed.

Lemma sfs_wblock_spec w data b :
  fs_ok w → 0 ≤ b < nblk w → block_ok data →
  wp (sfs_wblock data b) (λ _ w', wrote b data w w') (λ _ _, False) w.
Proof.
  intros [] Hb [Hl Hby]. unfold sfs_wblock. wp_bind. unfold wp at 1, with_uio.
  pose proof (SFSUIO_block data b UIO_WRITE Hl ltac:(lia)) as Hu.
  assert (Hk : kdata SECTSIZE (SFSUIO data b UIO_WRITE) = data).
  { unfold kdata, SFSUIO; simpl. rewrite zdrop_0. apply ztake_all. by rewrite Hl. }
  pose proof (sfs_rwblock_write (w_dev w) _ b ltac:(done) ltac:(lia) Hu eq_refl) as Hr.
  rewrite Hk in Hr. specialize (Hr Hby).
  unfold wp in Hr. destruct (sfs_rwblock _) as [[] [d1 s1]|e [d1 s1]| |]; try done; simpl in *.
  destruct Hr as (? & ? & ? & _). by apply wp_ret.
Qed.

(** ** Allocation *)

(** What of the volume's descriptor does not change in file operations. *)
Definition meta (f : sfs_fs) : Z * sfs_super * bool * array Z :=
  (sfs_self f, sfs_sb f, sfs_superdirty f, sfs_vnodes f).

Record alloced (b : Z) (w w' : W) : Prop := {
  al_range : 0 < b < nblk w;
  al_free : ¬ used w b;
  al_fs : fs_ok w';
  al_k : w_k w' = w_k w;
  al_meta : meta (w_fs w') = meta (w_fs w);
  al_dirty : sfs_freemapdirty (w_fs w') = true;
  al_sv : w_sv w' = w_sv w;
  al_used : ∀ c, used w' c ↔ used w c ∨ c = b;
  al_zero : sec w' b = zeroblock;
  al_sec : ∀ c, c ≠ b → sec w' c = sec w c;
}.

Lemma meta_nblk w w' : meta (w_fs w') = meta (w_fs w) → nblk w' = nblk w.
Proof. unfold meta, nblk. congruence. Qed.

Lemma wrote_fs_ok b x w w' : fs_ok w → wrote b x w w' → fs_ok w'.
Proof.
  intros [] (? & Hb & _ & _ & Hf & _). unfold nblk, used in *.
  split; unfold nblk, used; rewrite ?Hf, ?Hb; done.
Qed.

(** The volume after bit [i] of the free map became [x]. *)
Definition remapped (i : Z) (x : bool) (w w' : W) : Prop :=
  w_dev w' = w_dev w ∧ w_k w' = w_k w ∧ w_sv w' = w_sv w ∧
  meta (w_fs w') = meta (w_fs w) ∧ sfs_freemapdirty (w_fs w') = true ∧
  bitmap_wf (sfs_freemap (w_fs w')) ∧
  bit_update (sfs_freemap (w_fs w)) (sfs_freemap (w_fs w')) i x.

Lemma remapped_used k x w w' c :
  remapped k x w w' → 0 ≤ k →
  used w' c ↔ if decide (c = k) then x = true else used w c.
Proof.
  intros (_ & _ & _ & _ & _ & _ & _ & _ & _ & Hb) Hi. unfold used.
  split.
  - intros [Hc Hs]. rewrite Hb in Hs by done. by case_decide.
  - case_decide as Hci; [intros ->; subst; split; [done|]|intros [Hc Hs]; split; [done|]];
      rewrite Hb by done; [by rewrite decide_True|by rewrite decide_False].
Qed.

Lemma remapped_fs_ok k x w w' :
  fs_ok w → remapped k x w w' → 0 ≤ k → x = true ∨ 0 < k < nblk w → fs_ok w'.
Proof.
  intros [] Hr Hi Hx. pose proof Hr as (Hd & _ & _ & Hm & _ & Hwf & _ & Hn & _ & Hb).
  pose proof (meta_nblk _ _ Hm) as Hnb.
  split; rewrite ?Hd, ?Hnb; try done.
  - intros j. rewrite (bm_len _ Hwf), Hn, <- (bm_len _ fo_map0). intros Hj.
    destruct fo_map0 as [? _ _]. rewrite Hb by lia. case_decide; [|apply fo_padded0; lia].
    destruct Hx; [done|lia].
  - by rewrite Hn.
  - intros c. rewrite Hn. intros Hc. rewrite (remapped_used _ _ _ _ _ Hr Hi).
    case_decide; [destruct Hx; [done|lia]|auto].
  - rewrite (remapped_used _ _ _ _ _ Hr Hi). case_decide; [destruct Hx; [done|lia]|done].
Qed.

Lemma set_map_id w : set_fs (set_map (sfs_freemap (w_fs w)) (w_fs w)) w = w.
Proof. by destruct w as [? ? [] ?]. Qed.

Lemma sfs_balloc_spec w :
  fs_ok w →
  wp sfs_balloc (λ b w', alloced b w w')
     (λ e w', e = ENOSPC ∧ w' = w ∧ ∀ b, 0 ≤ b < nblk w → used w b) w.
Proof.
  intros Hok. pose proof Hok as []. unfold sfs_balloc. wp_bind. apply wp_zoom.
  wp_use bitmap_alloc_spec; [done|done|..].
  2: { intros e b' (-> & -> & Hfull). rewrite set_map_id. split_and!; try done.
       intros b Hb. split; [lia|apply Hfull; lia]. }
  intros b b' (Hwf & Hb & Hfree & _ & Hupd). wp_bind. apply wp_modify.
  set (w1 := set_fs _ _).
  assert (Hr : remapped b true w w1) by (unfold remapped, w1; simpl; done).
  assert (Hok1 : fs_ok w1) by (apply (remapped_fs_ok b true w); [done..|lia|by left]).
  assert (Hnu : ¬ used w b) by (intros [_ Hu]; congruence).
  assert (Hrange : 0 < b < nblk w).
  { destruct (decide (b = 0)) as [->|]; [done|]. split; [lia|].
    destruct (decide (b < nblk w)); [done|]. destruct Hnu. apply fo_tail0. lia. }
  wp_bind. apply wp_gets. change (sp_nblocks _) with (nblk w).
  destruct (Z.leb_spec (nblk w) b); [lia|]. wp_bind.
  wp_use sfs_wblock_spec; [done|change (nblk w1) with (nblk w); lia| | |done].
  { split; [done|apply bytes_zeros]. }
  intros [] w2 Hw. pose proof (wrote_fs_ok _ _ _ _ Hok1 Hw) as Hok2.
  destruct Hw as (? & ? & Hs & Hk & Hf & Hsv). apply wp_ret. split; try done.
  - by rewrite Hf.
  - by rewrite Hf.
  - intros c. assert (used w2 c ↔ used w1 c) as -> by (unfold used; by rewrite Hf).
    rewrite (remapped_used _ _ _ _ _ Hr) by lia. case_decide; naive_solver.
  - by rewrite Hs, decide_True.
  - intros c Hc. by rewrite Hs, decide_False.
Qed.

Lemma sfs_bfree_spec w b :
  fs_ok w → 0 < b < nblk w → used w b →
  wp (sfs_bfree b) (λ _ w', remapped b false w w' ∧ fs_ok w') (λ _ _, False) w.
Proof.
  intros Hok Hb [_ Hu]. pose proof Hok as []. unfold sfs_bfree. wp_bind. apply wp_zoom.
  wp_use bitmap_unmark_spec; [done|lia|done| |done].
  intros [] b' (Hwf & Hupd). apply wp_modify. set (w1 := set_fs _ _).
  assert (Hr : remapped b false w w1) by (unfold remapped, w1; simpl; done).
  split; [done|]. apply (remapped_fs_ok b false w); [done..|lia|by right].
Qed.

Lemma hand_back_spec w b :
  fs_ok w → b = 0 ∨ 0 < b < nblk w ∧ used w b →
  wp (hand_back b) (λ b' w', b' = b ∧ w' = w) (λ _ _, False) w.
Proof.
  intros Hok Hb. pose proof Hok as []. unfold hand_back. wp_bind.
  destruct (Z.eqb_spec b 0) as [->|]; [by apply wp_ret, wp_ret|].
  destruct Hb as [|[Hb [_ Hu]]]; [done|]. unfold sfs_bused. wp_bind. apply wp_gets.
  change (sp_nblocks _) with (nblk w). destruct (Z.leb_spec (nblk w) b); [lia|].
  wp_bind. apply wp_zoom. wp_use bitmap_isset_spec; [done|lia| |done].
  intros r b' (-> & Hr). rewrite set_map_id. apply wp_ret.
  destruct (Z.eqb_spec r 0); [naive_solver|]. by apply wp_ret.
Qed.
End spec.
