(* ===== verification/SfsMap.v ===== *)
(** * SFS: the block map of a file ([sfs_bmap])

    Looking a block up or allocating it never changes the contents of the
    file, of any other file, or of any block in use. *)

From S2P Require Import Prelude Kmem KArray KBitmap CopyInOut Uio BlockDev Vnode SfsDisk.
From S2P Require Import SfsCore SfsSpec.

Section map.
Context {D H : Type} `{!BlockDev D, !BlockDevOk D, !Kmem H}.
Notation W := (world D H).
Implicit Types (w : W) (i : sfs_inode) (sv : sfs_vnode).

(** ** Block pointers *)

Lemma length_rdwords n l : length (rdwords n l).1 = n.
Proof.
  revert l. induction n as [|n IH]; intros l; [done|]. rewrite rdwords_S.
  destruct (rd32 l) as [x r]. specialize (IH r). destruct (rdwords n r). simpl in *. lia.
Qed.
Lemma zlen_ptrs w i : inode_wf i → zlen (ptrs w i) = 143.
Proof.
  intros [_ _ _ [Hd _] _ _]. unfold ptrs, zlen. rewrite length_app, Hd.
  case_match; [by rewrite length_replicate|]. unfold dec_idbuf. by rewrite length_rdwords.
Qed.

Lemma elem_of_owned w i b : b ∈ owned w i ↔ b ≠ 0 ∧ (b = sfi_indirect i ∨ b ∈ ptrs w i).
Proof. unfold owned. by rewrite list_elem_of_filter, elem_of_cons. Qed.
Lemma zget_elem {A} (l : list A) k x : zget l k = Some x → x ∈ l.
Proof. unfold zget. case_decide; [apply list_elem_of_lookup_2|done]. Qed.
Lemma ptr_owned w i k b : zget (ptrs w i) k = Some b → b ≠ 0 → b ∈ owned w i.
Proof. intros Hk Hb. apply elem_of_owned. eauto using zget_elem. Qed.
Lemma ptr_indirect w i k b :
  file_ok w i → zget (ptrs w i) k = Some b → b ≠ 0 → b ≠ sfi_indirect i.
Proof.
  intros [_ _ Hnd] Hk Hb ->. unfold owned in Hnd. rewrite filter_cons_True in Hnd by done.
  apply NoDup_cons in Hnd as [Hni _]. destruct Hni. apply list_elem_of_filter.
  eauto using zget_elem.
Qed.
Lemma ptr_inj w i k k' b :
  file_ok w i → zget (ptrs w i) k = Some b → zget (ptrs w i) k' = Some b → b ≠ 0 → k = k'.
Proof.
  intros [_ _ Hnd] Hk Hk' Hb. unfold owned in Hnd.
  assert (Hf : NoDup (filter (λ b, b ≠ 0) (ptrs w i))).
  { rewrite filter_cons in Hnd. case_decide; [by apply NoDup_cons in Hnd as [_ ?]|done]. }
  clear Hnd. unfold zget in *. do 2 case_decide; try done.
  assert (Z.to_nat k = Z.to_nat k'); [|lia].
  revert Hk Hk' Hf. generalize (Z.to_nat k), (Z.to_nat k'), (ptrs w i). clear -Hb.
  intros n n' l. revert n n'. induction l as [|x l IH]; intros n n' Hn Hn' Hnd; [done|].
  rewrite filter_cons in Hnd.
  destruct n as [|n], n' as [|n']; simplify_eq/=; try done.
  - rewrite decide_True in Hnd by done. apply NoDup_cons in Hnd as [Hni _].
    destruct Hni. apply list_elem_of_filter. split; [done|]. by apply list_elem_of_lookup_2 in Hn'.
  - rewrite decide_True in Hnd by done. apply NoDup_cons in Hnd as [Hni _].
    destruct Hni. apply list_elem_of_filter. split; [done|]. by apply list_elem_of_lookup_2 in Hn.
  - f_equal. apply IH; try done. case_decide; [by apply NoDup_cons in Hnd as [_ ?]|done].
Qed.

(** A hole filled in: one more owned block. *)
Lemma filter_fill (l : list Z) k b :
  zget l k = Some 0 → b ≠ 0 →
  filter (λ b, b ≠ 0) (zset l k b) ≡ₚ b :: filter (λ b, b ≠ 0) l.
Proof.
  unfold zget, zset. case_decide; [|done]. intros Hk Hb.
  rewrite <- (take_drop_middle l (Z.to_nat k) 0 Hk) at 2.
  rewrite insert_take_drop by (by eapply lookup_lt_Some).
  rewrite !filter_app, !filter_cons. rewrite decide_True by done.
  rewrite decide_False by naive_solver. by rewrite Permutation_middle.
Qed.
Lemma owned_fill w w' i i' k b :
  ptrs w' i' = zset (ptrs w i) k b → zget (ptrs w i) k = Some 0 → b ≠ 0 →
  sfi_indirect i' = sfi_indirect i → owned w' i' ≡ₚ b :: owned w i.
Proof.
  intros Hp Hk Hb Hi. unfold owned. rewrite Hp, Hi, !filter_cons.
  case_decide; rewrite filter_fill by done; [|done]. by rewrite Permutation_swap.
Qed.

(** Contents are determined by the pointers and the blocks they lead to. *)
Lemma fbyte_ext w w' i i' :
  (∀ k, zget (ptrs w' i') k = zget (ptrs w i) k ∨
        zget (ptrs w i) k = Some 0 ∧
        ∃ b, zget (ptrs w' i') k = Some b ∧ sec w' b = zeroblock) →
  (∀ k b, zget (ptrs w i) k = Some b → b ≠ 0 → sec w' b = sec w b) →
  ∀ off, fbyte w' i' off = fbyte w i off.
Proof.
  intros Hp Hs off. unfold fbyte. destruct (Hp (off / SFS_BLOCKSIZE)) as [Heq|(Hk & b & Hb & Hz)].
  - rewrite Heq. destruct (zget (ptrs w i) _) as [b|] eqn:Hk; [|done].
    destruct (Z.eqb_spec b 0); [done|]. by rewrite (Hs _ b Hk).
  - rewrite Hk, Hb, Hz. simpl. destruct (b =? 0); [done|].
    unfold zget, zeroblock. case_decide; [|done].
    destruct (replicate 512 0 !! _) as [x|] eqn:E; [|done].
    by apply lookup_replicate in E as [-> _].
Qed.

(** ** The frame of file operations *)

Record grows (p : Z) (sv sv' : sfs_vnode) (w w' : W) : Prop := {
  gr_k : w_k w' = w_k w;
  gr_meta : meta (w_fs w') = meta (w_fs w);
  gr_map : w_fs w' = w_fs w ∨ sfs_freemapdirty (w_fs w') = true;
  gr_fs : fs_ok w';
  gr_at : w_sv w !! p = Some sv;
  gr_svs : w_sv w' = <[p := sv']> (w_sv w);
  gr_ino : sv_ino sv' = sv_ino sv;
  gr_type : sfi_type (sv_i sv') = sfi_type (sv_i sv);
  gr_link : sfi_linkcount (sv_i sv') = sfi_linkcount (sv_i sv);
  gr_dirty : sv' = sv ∨ sv_dirty sv' = true;
  gr_file : file_ok w' (sv_i sv');
  gr_used : ∀ b, used w b → used w' b;
  gr_sec : ∀ b, used w b → b ∉ owned w (sv_i sv) → sec w' b = sec w b;
  gr_owned : ∀ b, b ∈ owned w' (sv_i sv') → b ∈ owned w (sv_i sv) ∨ ¬ used w b;
}.

Lemma grows_here p sv sv' w w' : grows p sv sv' w w' → w_sv w' !! p = Some sv'.
Proof. intros []. rewrite gr_svs0. apply lookup_insert_eq. Qed.

Lemma grows_trans p sv sv1 sv2 w w1 w2 :
  grows p sv sv1 w w1 → grows p sv1 sv2 w1 w2 → grows p sv sv2 w w2.
Proof.
  intros [] []. split; try congruence; try done.
  - destruct gr_map1 as [->|]; [done|by right].
  - rewrite gr_svs1, gr_svs0. by rewrite insert_insert_eq.
  - destruct gr_dirty1 as [->|]; [done|by right].
  - auto.
  - intros b Hb Hn. rewrite gr_sec1; [auto|auto|]. intros Hin. destruct (gr_owned0 b Hin); tauto.
  - intros b Hb. destruct (gr_owned1 b Hb) as [|Hn]; [auto|]. right. auto.
Qed.

Lemma grows_same p sv w w' :
  fs_ok w → w_sv w !! p = Some sv → file_ok w (sv_i sv) → same_data w w' → grows p sv sv w w'.
Proof.
  intros Hok Hp Hf Hs. pose proof Hs as (_ & Hk & Hfs & Hsv).
  split; try done; try (by left).
  - by rewrite Hfs.
  - by rewrite <- Hs.
  - by rewrite Hsv, insert_id.
  - by rewrite <- Hs.
  - intros b. by rewrite Hs.
  - intros b _ _. by rewrite Hs.
  - intros b. rewrite <- Hs. by left.
Qed.

(** Nothing but the block map changes: the size and the bytes of the file stay,
    and without [doalloc] nothing changes at all. *)
Definition keeps (doalloc : bool) (p : Z) (sv sv' : sfs_vnode) (w w' : W) : Prop :=
  grows p sv sv' w w' ∧ sfi_size (sv_i sv') = sfi_size (sv_i sv) ∧
  (∀ off, fbyte w' (sv_i sv') off = fbyte w (sv_i sv) off) ∧
  (doalloc = false → sv' = sv ∧ same_data w w').

Lemma keeps_same doalloc p sv w w' :
  fs_ok w → w_sv w !! p = Some sv → file_ok w (sv_i sv) → same_data w w' →
  keeps doalloc p sv sv w w'.
Proof.
  intros ? ? ? Hs. unfold keeps. split_and!; [by apply grows_same|done| |done].
  intros off. by rewrite Hs.
Qed.
Lemma grows_same_l p sv sv' w w1 w2 :
  same_data w w1 → grows p sv sv' w1 w2 → grows p sv sv' w w2.
Proof.
  intros Hs []. pose proof Hs as (_ & Hk & Hfs & Hsv). split; try done; try congruence.
  all: intros c; rewrite Hs; auto.
Qed.
Lemma keeps_same_l doalloc p sv sv' w w1 w2 :
  same_data w w1 → keeps doalloc p sv sv' w1 w2 → keeps doalloc p sv sv' w w2.
Proof.
  intros Hs (Hg & Hsz & Hb & Hna). unfold keeps. split_and!; [by eapply grows_same_l|done| |].
  - intros off. by rewrite Hs.
  - intros Hn. destruct (Hna Hn) as [? ?]. split; [done|by etransitivity].
Qed.
Lemma keeps_trans p sv sv1 sv2 w w1 w2 :
  keeps true p sv sv1 w w1 → keeps true p sv1 sv2 w1 w2 → keeps true p sv sv2 w w2.
Proof.
  intros (? & ? & Hb & _) (? & ? & Hb' & _).
  unfold keeps. split_and!; [by eapply grows_trans|congruence| |done].
  intros off. by rewrite Hb', Hb.
Qed.

(** Filling a hole of the map with a freshly allocated block. *)
Lemma fill_keeps p sv sv' k b w w1 w' :
  fs_ok w → w_sv w !! p = Some sv → file_ok w (sv_i sv) → alloced b w w1 →
  fs_ok w' → w_k w' = w_k w1 → w_fs w' = w_fs w1 → w_sv w' = <[p := sv']> (w_sv w) →
  sv_ino sv' = sv_ino sv → sfi_type (sv_i sv') = sfi_type (sv_i sv) →
  sfi_linkcount (sv_i sv') = sfi_linkcount (sv_i sv) → (sv' = sv ∨ sv_dirty sv' = true) →
  sfi_size (sv_i sv') = sfi_size (sv_i sv) → inode_wf (sv_i sv') →
  sfi_indirect (sv_i sv') = sfi_indirect (sv_i sv) →
  zget (ptrs w (sv_i sv)) k = Some 0 →
  ptrs w' (sv_i sv') = zset (ptrs w (sv_i sv)) k b →
  (∀ c, sfi_indirect (sv_i sv) = 0 ∨ c ≠ sfi_indirect (sv_i sv) → sec w' c = sec w1 c) →
  keeps true p sv sv' w w'.
Proof.
  intros Hok Hp Hf [] Hok' Hk Hfs Hsv ? ? ? ? ? Hwf Hind Hz Hptrs Hsec.
  assert (Hown : owned w' (sv_i sv') ≡ₚ b :: owned w (sv_i sv))
    by (eapply owned_fill; done || lia).
  assert (Hnew : b ∉ owned w (sv_i sv)) by (intros Hin; by apply Hf in Hin as [_ ?]).
  assert (Hu : ∀ c, used w' c ↔ used w c ∨ c = b)
    by (intros c; rewrite <- al_used; unfold used; by rewrite Hfs).
  assert (Hnb : nblk w' = nblk w) by (apply meta_nblk; by rewrite Hfs).
  assert (Hkeep : ∀ c, c ≠ b → sfi_indirect (sv_i sv) = 0 ∨ c ≠ sfi_indirect (sv_i sv) →
                       sec w' c = sec w c) by (intros; by rewrite Hsec, al_sec).
  unfold keeps. split_and!; [split|done| |done]; try done; try congruence.
  - by right; rewrite Hfs.
  - split; [done| |by rewrite Hown, NoDup_cons; destruct Hf].
    intros c. rewrite Hown, elem_of_cons, Hu, Hnb. intros [->|Hc]; [split; [lia|by right]|].
    apply Hf in Hc. tauto.
  - intros c Hc. apply Hu. by left.
  - intros c Hc Hno. apply Hkeep; [naive_solver|].
    destruct (decide (sfi_indirect (sv_i sv) = 0)); [by left|right].
    intros ->. destruct Hno. apply elem_of_owned. auto.
  - intros c. rewrite Hown, elem_of_cons. intros [->|Hc]; auto.
  - apply fbyte_ext.
    + intros j. rewrite Hptrs. destruct (decide (k = j)) as [<-|Hne].
      * right. split; [done|]. exists b. split.
        -- apply zget_zset_eq. by eapply zget_Some_range.
        -- rewrite Hsec, al_zero; [done|].
           destruct (decide (sfi_indirect (sv_i sv) = 0)); [by left|right].
           intros ->. destruct Hnew. apply elem_of_owned. auto.
      * left. by apply zget_zset_ne.
    + intros j c Hc Hnz. apply Hkeep.
      * intros ->. destruct Hnew. by eapply ptr_owned.
      * right. by eapply ptr_indirect.
Qed.

Lemma set_svs_fs_ok w m : fs_ok w → fs_ok (set_svs m w).
Proof. by intros []. Qed.

(** Giving a file its indirect block. *)
Lemma indirect_keeps p sv ib w w1 :
  fs_ok w → w_sv w !! p = Some sv → file_ok w (sv_i sv) → sfi_indirect (sv_i sv) = 0 →
  alloced ib w w1 →
  let sv' := upd_inode (set_indirect ib) sv in
  let w' := set_svs (<[p := sv']> (w_sv w1)) w1 in
  keeps true p sv sv' w w' ∧ ptrs w' (sv_i sv') = ptrs w (sv_i sv).
Proof.
  intros Hok Hp Hf Hind [] sv' w'. pose proof Hok as [].
  assert (Hptrs : ptrs w' (sv_i sv') = ptrs w (sv_i sv)).
  { unfold ptrs; simpl. rewrite Hind. destruct (Z.eqb_spec ib 0); [lia|].
    change (sec w' ib) with (sec w1 ib). by rewrite al_zero. }
  split; [|done].
  assert (Hown : owned w' (sv_i sv') = ib :: owned w (sv_i sv)).
  { unfold owned. rewrite Hptrs, Hind. simpl. rewrite !filter_cons.
    by rewrite decide_True, decide_False by (simpl; lia). }
  assert (Hnew : ib ∉ owned w (sv_i sv)) by (intros Hin; by apply Hf in Hin as [_ ?]).
  assert (Hu : ∀ c, used w' c ↔ used w c ∨ c = ib) by apply al_used.
  assert (Hnb : nblk w' = nblk w) by by apply meta_nblk.
  unfold keeps. split_and!; [split|done| |done]; try done; try (by right).
  - by apply set_svs_fs_ok.
  - simpl. by rewrite al_sv.
  - split; [|intros c|by rewrite Hown, NoDup_cons; destruct Hf].
    + destruct Hf as [[] _ _]. split; simpl; try done. unfold word32. lia.
    + rewrite Hown, elem_of_cons, Hu, Hnb. intros [->|Hc]; [split; [lia|by right]|].
      apply Hf in Hc. tauto.
  - intros c Hc. apply Hu. by left.
  - intros c Hc _. apply al_sec. naive_solver.
  - intros c. rewrite Hown, elem_of_cons. intros [->|Hc]; auto.
  - apply fbyte_ext; [intros j; left; by rewrite Hptrs|].
    intros j c Hc Hnz. apply al_sec. intros ->. destruct Hnew. by eapply ptr_owned.
Qed.

Lemma Forall_zset {A} (P : A → Prop) (l : list A) k x : Forall P l → P x → Forall P (zset l k x).
Proof. unfold zset. case_decide; [apply Forall_insert|done]. Qed.
Lemma length_zset {A} (l : list A) k x : length (zset l k x) = length l.
Proof. unfold zset. case_decide; [apply length_insert|done]. Qed.
Lemma zset_app_l {A} (l l' : list A) k x : k < zlen l → zset (l ++ l') k x = zset l k x ++ l'.
Proof.
  unfold zset, zlen. intros. case_decide; [|done]. apply insert_app_l. lia.
Qed.
Lemma zset_app_r {A} (l l' : list A) k x :
  zlen l ≤ k → zset (l ++ l') k x = l ++ zset l' (k - zlen l) x.
Proof.
  unfold zset, zlen. intros. rewrite !decide_True by lia.
  replace (Z.to_nat k) with (length l + Z.to_nat (k - Z.of_nat (length l)))%nat by lia.
  apply insert_app_r.
Qed.

(** Filling a hole among the direct blocks. *)
Lemma direct_keeps p sv k b w w1 :
  fs_ok w → w_sv w !! p = Some sv → file_ok w (sv_i sv) → 0 ≤ k < SFS_NDIRECT →
  zget (sfi_direct (sv_i sv)) k = Some 0 → alloced b w w1 →
  let sv' := upd_inode (set_direct k b) sv in
  let w' := set_svs (<[p := sv']> (w_sv w1)) w1 in
  keeps true p sv sv' w w' ∧ ptrs w' (sv_i sv') = zset (ptrs w (sv_i sv)) k b.
Proof.
  intros Hok Hp Hf Hk Hz Hal sv' w'. unfold SFS_NDIRECT in *. pose proof Hal as [].
  pose proof Hok as []. destruct (fi_wf _ _ Hf) as [? ? ? [Hd ?] ? ?].
  assert (Hzl : zlen (sfi_direct (sv_i sv)) = 15) by (unfold zlen; lia).
  assert (Hptrs : ptrs w' (sv_i sv') = zset (ptrs w (sv_i sv)) k b).
  { unfold ptrs. rewrite zset_app_l by lia. simpl. f_equal.
    destruct (Z.eqb_spec (sfi_indirect (sv_i sv)) 0) as [|Hnz]; [done|].
    f_equal. apply al_sec. intros Hc. destruct al_free. rewrite <- Hc.
    apply Hf, elem_of_owned. auto. }
  split; [|done].
  apply (fill_keeps p sv sv' k b w w1 w'); try done; try (by right).
  - by apply set_svs_fs_ok.
  - simpl. by rewrite al_sv.
  - split; simpl; try done. rewrite length_zset. split; [done|].
    apply Forall_zset; [done|]. unfold word32. lia.
  - unfold ptrs. by rewrite zget_app_l by lia.
Qed.

(** Filling a hole of the indirect block [idblock] and writing it back. *)
Lemma wrote_keeps p sv k b w w1 w' :
  fs_ok w → w_sv w !! p = Some sv → file_ok w (sv_i sv) → 0 ≤ k < SFS_DBPERIDB →
  let ib := sfi_indirect (sv_i sv) in
  ib ≠ 0 → zget (dec_idbuf (sec w ib)) k = Some 0 → alloced b w w1 →
  wrote ib (enc_words (zset (dec_idbuf (sec w ib)) k b)) w1 w' →
  keeps true p sv sv w w' ∧ ptrs w' (sv_i sv) = zset (ptrs w (sv_i sv)) (k + SFS_NDIRECT) b.
Proof.
  intros Hok Hp Hf Hk ib Hib Hz Hal Hw. unfold SFS_NDIRECT, SFS_DBPERIDB in *.
  pose proof Hal as [].
  pose proof Hok as []. pose proof (wrote_fs_ok _ _ _ _ al_fs Hw) as Hok'.
  destruct Hw as (_ & _ & Hs & Hwk & Hwf & Hwsv).
  destruct (fi_wf _ _ Hf) as [? ? ? [Hd ?] ? ?].
  assert (Hzl : zlen (sfi_direct (sv_i sv)) = 15) by (unfold zlen; lia).
  assert (Hibr : 0 < ib < nblk w ∧ used w ib) by (apply Hf, elem_of_owned; auto).
  destruct (dec_idbuf_wf (sec w ib)) as (Hlen & Hwords & _).
  { apply sector_ok; [done|lia]. }
  assert (Hptrs : ptrs w' (sv_i sv) = zset (ptrs w (sv_i sv)) (k + 15) b).
  { unfold ptrs. rewrite zset_app_r by lia. rewrite Hzl, Z.add_simpl_r.
    fold ib. destruct (Z.eqb_spec ib 0); [done|]. f_equal.
    rewrite Hs, decide_True by done. apply dec_enc_idbuf; [by rewrite length_zset|].
    apply Forall_zset; [done|]. unfold word32. lia. }
  split; [|done].
  apply (fill_keeps p sv sv (k + 15) b w w1 w'); try done; try (by left); try congruence.
  - rewrite Hwsv, al_sv. by rewrite insert_id.
  - unfold ptrs. rewrite zget_app_r by lia. rewrite Hzl, Z.add_simpl_r.
    fold ib. destruct (Z.eqb_spec ib 0); done.
  - intros c [?|Hc]; [done|]. by rewrite Hs, decide_False.
Qed.

(** ** [sfs_bmap] *)

Definition bmap_ok (doalloc : bool) (p : Z) sv (fb : Z) w (b : Z) w' : Prop :=
  ∃ sv', keeps doalloc p sv sv' w w' ∧ zget (ptrs w' (sv_i sv')) fb = Some b ∧
         (doalloc = true → b ≠ 0).
Definition bmap_err (doalloc : bool) (p : Z) sv (fb : Z) w (e : errno) w' : Prop :=
  ∃ sv', keeps doalloc p sv sv' w w' ∧
         (e = EINVAL ∧ 143 ≤ fb ∨ e = ENOSPC ∧ doalloc = true ∨ e = EIO).

Lemma hand_back_ptr doalloc p sv sv' fb w w' b E :
  keeps doalloc p sv sv' w w' → zget (ptrs w' (sv_i sv')) fb = Some b →
  (doalloc = true → b ≠ 0) → wp (hand_back b) (bmap_ok doalloc p sv fb w) E w'.
Proof.
  intros Hk Hz Hb. pose proof Hk as ([] & _).
  wp_use hand_back_spec; [done| |intros b' w2 [-> ->]; by exists sv'|done].
  destruct (decide (b = 0)); [by left|right]. apply gr_file0. by eapply ptr_owned.
Qed.

Lemma bmap_slot_spec doalloc p sv w k :
  fs_ok w → w_sv w !! p = Some sv → file_ok w (sv_i sv) → 0 ≤ k < SFS_DBPERIDB →
  let ib := sfi_indirect (sv_i sv) in
  ib ≠ 0 →
  wp (bmap_slot doalloc ib (dec_idbuf (sec w ib)) k)
     (bmap_ok doalloc p sv (k + SFS_NDIRECT) w) (bmap_err doalloc p sv (k + SFS_NDIRECT) w) w.
Proof.
  intros Hok Hp Hf Hk ib Hib. unfold bmap_slot.
  assert (Hsame : keeps doalloc p sv sv w w) by (apply keeps_same; [done..|reflexivity]).
  assert (Hzl : zlen (sfi_direct (sv_i sv)) = 15).
  { destruct (fi_wf _ _ Hf) as [? ? ? [Hd ?] ? ?]. unfold zlen. lia. }
  assert (Hptr : zget (ptrs w (sv_i sv)) (k + SFS_NDIRECT) = zget (dec_idbuf (sec w ib)) k).
  { unfold ptrs, SFS_NDIRECT. rewrite zget_app_r by lia. rewrite Hzl, Z.add_simpl_r.
    fold ib. by destruct (Z.eqb_spec ib 0). }
  assert (Hibr : 0 < ib < nblk w) by (apply Hf, elem_of_owned; auto).
  destruct (zget_is_Some (dec_idbuf (sec w ib)) k) as [b Hb].
  { unfold zlen, dec_idbuf. rewrite length_rdwords. unfold SFS_DBPERIDB in Hk. lia. }
  rewrite Hb. wp_bind. destruct ((b =? 0) && doalloc) eqn:Hal.
  2: { apply wp_ret. eapply hand_back_ptr; [done|congruence|by intros -> ->]. }
  apply andb_true_iff in Hal as [->%Z.eqb_eq ->].
  wp_bind. wp_use sfs_balloc_spec; [done|..].
  2: { intros e w' (-> & -> & _). exists sv. auto. }
  intros b w1 Hall. pose proof Hall as []. wp_bind.
  wp_use sfs_wblock_spec; [done|rewrite (meta_nblk w) by done; lia| | |done].
  { apply enc_idbuf_block. rewrite length_zset. apply length_rdwords. }
  intros [] w2 Hw. apply wp_ret.
  destruct (wrote_keeps p sv k b w w1 w2) as [Hkeep Hptrs]; try done.
  eapply hand_back_ptr; [done| |intros; lia].
  rewrite Hptrs. apply zget_zset_eq. rewrite zlen_ptrs by apply Hf.
  unfold SFS_DBPERIDB, SFS_NDIRECT in *. lia.
Qed.

Lemma sfs_bmap_spec doalloc p sv w fb :
  fs_ok w → w_sv w !! p = Some sv → file_ok w (sv_i sv) → 0 ≤ fb →
  wp (sfs_bmap p fb doalloc) (bmap_ok doalloc p sv fb w) (bmap_err doalloc p sv fb w) w.
Proof.
  intros Hok Hp Hf Hfb. unfold sfs_bmap. wp_bind. unfold wp at 1, get_sv. rewrite Hp.
  assert (Hsame : keeps doalloc p sv sv w w) by (apply keeps_same; [done..|reflexivity]).
  assert (Hzl : zlen (sfi_direct (sv_i sv)) = 15).
  { destruct (fi_wf _ _ Hf) as [? ? ? [Hd ?] ? ?]. unfold zlen. lia. }
  destruct (Z.ltb_spec fb SFS_NDIRECT) as [Hd|Hi]; unfold SFS_NDIRECT in *.
  - destruct (zget_is_Some (sfi_direct (sv_i sv)) fb) as [b Hb]; [lia|]. rewrite Hb.
    assert (Hptr : zget (ptrs w (sv_i sv)) fb = Some b) by (unfold ptrs; by rewrite zget_app_l by lia).
    wp_bind. destruct ((b =? 0) && doalloc) eqn:Hal.
    2: { apply wp_ret. eapply hand_back_ptr; [done|done|by intros -> ->]. }
    apply andb_true_iff in Hal as [->%Z.eqb_eq ->]. wp_bind. wp_use sfs_balloc_spec; [done|..].
    2: { intros e w' (-> & -> & _). exists sv. auto. }
    intros b w1 Hall. pose proof Hall as []. wp_bind. apply wp_modify. apply wp_ret.
    destruct (direct_keeps p sv fb b w w1) as [Hkeep Hptrs]; try done.
    eapply hand_back_ptr; [done| |intros; lia].
    rewrite Hptrs. apply zget_zset_eq. rewrite zlen_ptrs by apply Hf. lia.
  - destruct (Z.gtb_spec ((fb - 15) / SFS_DBPERIDB) 0) as [Hbig|Hsmall]; unfold SFS_DBPERIDB in *.
    { apply wp_fail. exists sv. split; [done|]. left. split; [done|].
      Z.div_mod_to_equations. lia. }
    assert (Hfb2 : fb < 143) by (Z.div_mod_to_equations; lia).
    rewrite Z.mod_small by lia.
    destruct (Z.eqb_spec (sfi_indirect (sv_i sv)) 0) as [Hz|Hnz]; [destruct doalloc|]; cbn [andb negb].
    + wp_bind. wp_bind. wp_use sfs_balloc_spec; [done|..].
      2: { intros e w' (-> & -> & _). exists sv. auto. }
      intros ib w1 Hall. pose proof Hall as []. wp_bind. apply wp_modify. apply wp_ret.
      destruct (indirect_keeps p sv ib w w1) as [Hkeep Hptrs]; try done.
      set (sv' := upd_inode _ sv) in *. set (w' := set_svs _ w1) in *. pose proof Hkeep as ([] & _).
      replace (replicate 128 0) with (dec_idbuf (sec w' ib)).
      2: { change (sec w' ib) with (sec w1 ib). by rewrite al_zero. }
      wp_use (bmap_slot_spec true p sv' w' (fb - 15)); try done.
      * by eapply grows_here; split.
      * unfold SFS_DBPERIDB. lia.
      * simpl. lia.
      * rewrite Z.sub_add. intros b w2 (sv2 & Hk2 & ? & ?). exists sv2. eauto using keeps_trans.
      * rewrite Z.sub_add. intros e w2 (sv2 & Hk2 & ?). exists sv2. eauto using keeps_trans.
    + apply wp_ret. exists sv. split_and!; [done| |done]. unfold ptrs.
      rewrite zget_app_r by lia. rewrite Hz, Hzl. change (0 =? 0) with true. unfold zget. rewrite decide_True by lia.
      apply lookup_replicate_2. lia.
    + assert (Hibr : 0 < sfi_indirect (sv_i sv) < nblk w) by (apply Hf, elem_of_owned; auto).
      wp_bind. wp_bind. wp_use sfs_rblock_spec; [done|lia|done|..].
      2: { intros e w1 [-> Hs]. exists sv. split; [by apply keeps_same|auto]. }
      intros l w1 [-> Hs]. apply wp_ret. rewrite (sec_proper _ _ Hs _ _ eq_refl).
      wp_use (bmap_slot_spec doalloc p sv w1 (fb - 15)).
      * by rewrite <- Hs.
      * by destruct Hs as (_ & _ & _ & ->).
      * by rewrite <- Hs.
      * unfold SFS_DBPERIDB. lia.
      * done.
      * rewrite Z.sub_add. intros b w2 (sv2 & Hk2 & ? & ?). exists sv2. eauto using keeps_same_l.
      * rewrite Z.sub_add. intros e w2 (sv2 & Hk2 & ?). exists sv2. eauto using keeps_same_l.
Qed.

(** ** Files whose blocks are not touched *)

(** Two files share no block. *)
Definition apart w i i' : Prop := ∀ b, b ∈ owned w i → b ∉ owned w i'.

Lemma ptrs_unchanged w w' i :
  (∀ b, b ∈ owned w i → sec w' b = sec w b) → ptrs w' i = ptrs w i.
Proof.
  intros Hsec. unfold ptrs. f_equal. destruct (Z.eqb_spec (sfi_indirect i) 0); [done|].
  f_equal. apply Hsec, elem_of_owned. auto.
Qed.
Lemma owned_unchanged w w' i :
  (∀ b, b ∈ owned w i → sec w' b = sec w b) → owned w' i = owned w i.
Proof. intros Hsec. unfold owned. by rewrite (ptrs_unchanged w w' i). Qed.
Lemma file_unchanged w w' i :
  file_ok w i → nblk w' = nblk w → (∀ b, b ∈ owned w i → used w' b) →
  (∀ b, b ∈ owned w i → sec w' b = sec w b) →
  file_ok w' i ∧ ∀ o, fbyte w' i o = fbyte w i o.
Proof.
  intros Hi Hn Hu Hsec. split.
  - split; [apply Hi| |rewrite (owned_unchanged w w' i Hsec); apply Hi].
    intros b. rewrite (owned_unchanged w w' i Hsec), Hn. intros Hb. split; [by apply Hi|auto].
  - intros o. unfold fbyte. rewrite (ptrs_unchanged w w' i Hsec).
    destruct (zget (ptrs w i) _) as [b|] eqn:Hb; [|done].
    destruct (Z.eqb_spec b 0); [done|]. rewrite Hsec; [done|]. by eapply ptr_owned.
Qed.
End map.
