(* ===== verification/SfsFile.v ===== *)
(** * SFS file I/O (kern/fs/sfs/sfs_vnode.c, "File-level I/O")

    [sfs_io] and the two routines it is made of.  The descriptor is the
    caller's; the volume and the descriptor with its memory are the two
    halves of the state. *)

From S2P Require Import Prelude Kmem KArray KBitmap CopyInOut Uio BlockDev Vnode SfsDisk.
From S2P Require Import SfsCore SfsSpec SfsMap.

Section file.
Context {D H : Type} `{!BlockDev D, !Kmem H}.
Notation W := (world D H).

Definition onw {A} (c : M W A) : M (W * ustate) A := zoom fst (λ w s, (w, s.2)) c.
Definition onu {A} (c : M ustate A) : M (W * ustate) A := zoom snd (λ u s, (s.1, u)) c.
Definition ond {A} (c : M (D * ustate) A) : M (W * ustate) A :=
  zoom (λ s, (w_dev s.1, s.2)) (λ t s, (set_dev t.1 s.1, t.2)) c.
Definition the_uio : M (W * ustate) uio := gets (λ s, u_uio s.2).
Definition upd_uio (f : uio → uio) : M (W * ustate) unit := onu (set_uio f).

Definition set_offset (n : Z) (u : uio) : uio :=
  mkuio (iov_base u) (iov_len u) n (uio_resid u) (uio_segflg u) (uio_rw u) (uio_space u).
Definition set_resid (n : Z) (u : uio) : uio :=
  mkuio (iov_base u) (iov_len u) (uio_offset u) n (uio_segflg u) (uio_rw u) (uio_space u).
Definition is_write (u : uio) : bool := bool_decide (uio_rw u = UIO_WRITE).
Definition is_read (u : uio) : bool := bool_decide (uio_rw u = UIO_READ).

(** [uio_offset] is signed: C division truncates. *)
Definition uio_fileblock (u : uio) : Z := u32 (Z.quot (uio_offset u) SFS_BLOCKSIZE).

Definition sfs_partialio (sv skipstart len : Z) : M (W * ustate) unit :=
  let! u := the_uio in
  let doalloc := is_write u in
  kassert (u32 (skipstart + len) <=? SFS_BLOCKSIZE) ;;;
  let! diskblock := onw (sfs_bmap sv (uio_fileblock u) doalloc) in
  let! iobuf :=
    (if diskblock =? 0 then kassert (is_read u) ;;; ret zeroblock
     else onw (sfs_rblock zeroblock diskblock)) in
  let! iobuf := onu (uiomove_buf iobuf skipstart len) in
  when (is_write u) (onw (sfs_wblock iobuf diskblock)).

Definition sfs_blockio (sv : Z) : M (W * ustate) unit :=
  let! u := the_uio in
  let doalloc := is_write u in
  let! diskblock := onw (sfs_bmap sv (uio_fileblock u) doalloc) in
  if diskblock =? 0 then
    kassert (is_read u) ;;;
    onu (keep_ptr (uiomovezeros SFS_BLOCKSIZE))
  else
    let saveoff := uio_offset u in
    let diskoff := i32 (u32 (diskblock * SFS_BLOCKSIZE)) in
    upd_uio (set_offset diskoff) ;;;
    kassert (SFS_BLOCKSIZE <=? uio_resid u) ;;;
    let saveres := i32 (uio_resid u) in
    let diskres := SFS_BLOCKSIZE in
    upd_uio (set_resid diskres) ;;;
    let! result := try (ond sfs_rwblock) in
    upd_uio (λ u, set_offset (i32 (i32 (uio_offset u - diskoff) + saveoff)) u) ;;;
    upd_uio (λ u, set_resid (u32 (u32 (uio_resid u - diskres) + saveres)) u) ;;;
    match result with inl e => fail e | inr _ => ret tt end.

(** The part of [sfs_io] that can [goto out]. *)
Definition sfs_io_blocks (sv : Z) : M (W * ustate) unit :=
  let! u := the_uio in
  let blkoff := u32 (Z.rem (uio_offset u) SFS_BLOCKSIZE) in
  when (negb (blkoff =? 0))
    (let skip := blkoff in
     let len := SFS_BLOCKSIZE - blkoff in
     let len := if len >? uio_resid u then uio_resid u else len in
     sfs_partialio sv skip len) ;;;
  let! u := the_uio in
  if uio_resid u =? 0 then ret tt
  else
    kassert (Z.rem (uio_offset u) SFS_BLOCKSIZE =? 0) ;;;
    let nblocks := uio_resid u / SFS_BLOCKSIZE in
    for_range (Z.to_nat nblocks) 0 (λ _, sfs_blockio sv) ;;;
    let! u := the_uio in
    kassert (uio_resid u <? SFS_BLOCKSIZE) ;;;
    when (uio_resid u >? 0) (sfs_partialio sv 0 (uio_resid u)).

(** "out:" with what is left over at the end of the file. *)
Definition sfs_io_out (sv extraresid : Z) (result : errno + unit) : M (W * ustate) unit :=
  let! u := the_uio in
  let! v := onw (get_sv sv) in
  when (is_write u && (uio_offset u >? i32 (sfi_size (sv_i v))))
    (onw (put_sv sv (upd_inode (set_size (u32 (uio_offset u))) v))) ;;;
  upd_uio (λ u, set_resid (u32 (uio_resid u + extraresid)) u) ;;;
  match result with inl e => fail e | inr _ => ret tt end.

Definition sfs_io (sv : Z) : M (W * ustate) unit :=
  let! u := the_uio in
  let! v := onw (get_sv sv) in
  let size := i32 (sfi_size (sv_i v)) in
  let endpos := i32 (u32 (uio_offset u + uio_resid u)) in
  if is_read u && (uio_offset u >=? size) then ret tt
  else
    let! extraresid :=
      (if is_read u && (endpos >? size) then
         let extraresid := u32 (endpos - size) in
         kassert (uio_resid u >? extraresid) ;;;
         upd_uio (set_resid (u32 (uio_resid u - extraresid))) ;;;
         ret extraresid
       else ret 0) in
    let! result := try (sfs_io_blocks sv) in
    sfs_io_out sv extraresid result.

End file.
