(* ===== verification/SfsFileSpec.v ===== *)
(** * SFS file I/O is reading and writing bytes of the file

    [sfs_io] on a kernel descriptor: a read delivers exactly the bytes of the
    file ([fbyte]) up to its end, a write replaces exactly the bytes of its
    range, and both leave every other block in use alone. *)

From S2P Require Import Prelude Kmem KArray KBitmap CopyInOut Uio BlockDev Vnode SfsDisk.
From S2P Require Import SfsCore SfsSpec SfsMap SfsFile.

(** ** The control structure of [sfs_io_blocks] *)

Section control.
Context {D H : Type} `{!BlockDev D}.
Notation W := (world D H).

(** [I k] describes the state when [k] of the [n] bytes from [off] on are
    done; [E e k] the error [e] after [k] bytes. *)
Context (p off n : Z) (I : Z → W * ustate → Prop) (E : errno → Z → Prop).
Context (Hoff : 0 ≤ off) (Hn : 0 ≤ n) (Hend : off + n < 2147483648).
Context (Huio : ∀ k t, I k t → uio_offset (u_uio t.2) = off + k ∧ uio_resid (u_uio t.2) = n - k).
Context (Hpartial : ∀ k len t, I k t → 0 ≤ k → 0 ≤ len → k + len ≤ n →
  (off + k) mod SFS_BLOCKSIZE + len ≤ SFS_BLOCKSIZE →
  wp (sfs_partialio p ((off + k) mod SFS_BLOCKSIZE) len) (λ _, I (k + len))
     (λ e t', E e k ∧ I k t') t).
Context (Hblock : ∀ k t, I k t → 0 ≤ k → (off + k) mod SFS_BLOCKSIZE = 0 →
  k + SFS_BLOCKSIZE ≤ n →
  wp (sfs_blockio p) (λ _, I (k + SFS_BLOCKSIZE)) (λ e t', E e k ∧ I k t') t).

(** A transfer stops at its start or between two blocks. *)
Definition io_stop (k : Z) : Prop := k = 0 ∨ k < n ∧ (off + k) mod SFS_BLOCKSIZE = 0.
Definition io_fails (e : errno) (t : W * ustate) : Prop :=
  ∃ k, 0 ≤ k ≤ n ∧ io_stop k ∧ E e k ∧ I k t.

(** From an aligned position: the whole blocks, then the rest. *)
Lemma io_aligned k t :
  I k t → 0 ≤ k ≤ n → (off + k) mod SFS_BLOCKSIZE = 0 ∨ k = n →
  wp (let! u := the_uio in
      if uio_resid u =? 0 then ret tt
      else
        kassert (Z.rem (uio_offset u) SFS_BLOCKSIZE =? 0) ;;;
        for_range (Z.to_nat (uio_resid u / SFS_BLOCKSIZE)) 0 (λ _, sfs_blockio p) ;;;
        let! u := the_uio in
        kassert (uio_resid u <? SFS_BLOCKSIZE) ;;;
        when (uio_resid u >? 0) (sfs_partialio p 0 (uio_resid u)))
     (λ _, I n) io_fails t.
Proof using All.
  intros HI Hk Hal. destruct (Huio _ _ HI) as [Ho Hr]. wp_bind. apply wp_gets.
  rewrite Hr. destruct (Z.eqb_spec (n - k) 0).
  { apply wp_ret. by replace n with k by lia. }
  destruct Hal as [Hal|]; [|lia]. wp_bind. apply wp_kassert.
  { rewrite Ho, Z.rem_mod_nonneg by (unfold SFS_BLOCKSIZE; lia). by rewrite Hal. }
  wp_bind. set (m := (n - k) / SFS_BLOCKSIZE).
  assert (Hm : 0 ≤ m ∧ n - k - 512 < 512 * m ≤ n - k)
    by (unfold m, SFS_BLOCKSIZE; Z.div_mod_to_equations; lia).
  assert (stop_at : ∀ j, (off + (k + 512 * j)) mod SFS_BLOCKSIZE = 0).
  { intros j. unfold SFS_BLOCKSIZE in *. by rewrite Z.add_assoc, (Z.mul_comm 512), Z.mod_add. }
  eapply wp_mono.
  - apply (wp_for_range (λ j, I (k + 512 * j)) io_fails); [by rewrite Z.mul_0_r, Z.add_0_r|].
    intros j t1 Hj HI1. pose proof (stop_at j) as Hz.
    wp_use Hblock; [done|lia|done|unfold SFS_BLOCKSIZE; lia|..].
    + intros [] t2. unfold SFS_BLOCKSIZE.
      by replace (k + 512 * j + 512) with (k + 512 * (j + 1)) by lia.
    + intros e t2 [HE HI2]. exists (k + 512 * j). split_and!; try (done || lia). right. split; [lia|done].
  - intros [] t1 HI1. rewrite Z.add_0_l, Z2Nat.id in HI1 by lia.
    destruct (Huio _ _ HI1) as [Ho1 Hr1]. wp_bind. apply wp_gets. rewrite Hr1.
    wp_bind. apply wp_kassert; [unfold SFS_BLOCKSIZE; lia|]. apply wp_when; [intros Hpos|intros Hz].
    + pose proof (stop_at m) as Hz.
      rewrite <- Hz. wp_use Hpartial; [done|lia|lia|lia|unfold SFS_BLOCKSIZE in *; lia|..].
      * intros [] t2. by replace (k + 512 * m + _) with n by lia.
      * intros e t2 [HE HI2]. exists (k + 512 * m). split_and!; try (done || lia). right. split; [lia|done].
    + by replace n with (k + 512 * m) by lia.
  - done.
Qed.

Lemma io_blocks_spec t : I 0 t → wp (sfs_io_blocks p) (λ _, I n) io_fails t.
Proof using All.
  intros HI. destruct (Huio _ _ HI) as [Ho Hr]. rewrite Z.add_0_r in Ho. rewrite Z.sub_0_r in Hr.
  unfold sfs_io_blocks. wp_bind. apply wp_gets. rewrite Ho, Hr.
  rewrite Z.rem_mod_nonneg by (unfold SFS_BLOCKSIZE; lia).
  assert (Hb : 0 ≤ off mod SFS_BLOCKSIZE < 512) by (apply Z.mod_pos_bound; done).
  rewrite u32_small by lia. wp_bind. apply wp_when.
  - intros Hnz. set (len := if _ >? n then n else _).
    assert (Hlen : 0 ≤ len ≤ n ∧ off mod SFS_BLOCKSIZE + len ≤ 512 ∧
                   (off mod SFS_BLOCKSIZE + len = 512 ∨ len = n)).
    { unfold len. destruct (Z.gtb_spec (SFS_BLOCKSIZE - off mod SFS_BLOCKSIZE) n);
        unfold SFS_BLOCKSIZE in *; lia. }
    rewrite <- (Z.add_0_r off) at 1. wp_use Hpartial; [done|lia|lia|lia| |..].
    + rewrite Z.add_0_r. unfold SFS_BLOCKSIZE in *. lia.
    + rewrite Z.add_0_l. intros [] t1 HI1. apply (io_aligned len); [done|lia|].
      destruct Hlen as (_ & _ & [Hl|Hl]); [left|by right].
      unfold SFS_BLOCKSIZE in *. Z.div_mod_to_equations. lia.
    + intros e t1 [HE HI1]. exists 0. split_and!; try (done || lia). by left.
  - intros Hz. apply (io_aligned 0); [done|lia|left]. rewrite Z.add_0_r. lia.
Qed.
End control.

Section steps.
Context {D H : Type} `{!BlockDev D, !BlockDevOk D, !Kmem H}.
Notation W := (world D H).
Implicit Types (w : W) (i : sfs_inode) (sv : sfs_vnode) (s : ustate).

(** ** Bytes and blocks *)

Definition fbytes (w : W) (i : sfs_inode) (off n : Z) : list Z :=
  map (fbyte w i) (seqZ off n).
#[export] Instance fbytes_proper : Proper (same_data ==> eq ==> eq ==> eq ==> eq) fbytes.
Proof.
  intros w w' Hw i _ <- off _ <- n _ <-. unfold fbytes. apply map_ext. intros o. by rewrite Hw.
Qed.
Definition blockdata (w : W) (b : Z) : list Z := if b =? 0 then zeroblock else sec w b.

Lemma zlen_fbytes w i off n : 0 ≤ n → zlen (fbytes w i off n) = n.
Proof. intros. unfold fbytes, zlen. rewrite length_map, length_seqZ. lia. Qed.
Lemma zget_fbytes w i off n j :
  0 ≤ j < n → zget (fbytes w i off n) j = Some (fbyte w i (off + j)).
Proof.
  intros Hj. unfold zget, fbytes. rewrite decide_True by lia.
  rewrite list_lookup_fmap, lookup_seqZ_lt by lia. simpl. by rewrite Z2Nat.id by lia.
Qed.
Lemma zget_None {A} (l : list A) j : zlen l ≤ j → zget l j = None.
Proof. unfold zget, zlen. intros. case_decide; [|done]. apply lookup_ge_None. lia. Qed.
Lemma zlen_blockdata w i k b :
  fs_ok w → file_ok w i → zget (ptrs w i) k = Some b → zlen (blockdata w b) = 512.
Proof.
  intros [] Hf Hk. unfold blockdata. destruct (Z.eqb_spec b 0); [done|].
  destruct (fi_blocks _ _ Hf b) as [? _]; [by eapply ptr_owned|].
  apply sector_ok; [done|lia].
Qed.
Lemma fbyte_block w i k b o :
  fs_ok w → file_ok w i → zget (ptrs w i) k = Some b → o / SFS_BLOCKSIZE = k →
  zget (blockdata w b) (o mod SFS_BLOCKSIZE) = Some (fbyte w i o).
Proof.
  intros Hok Hf Hk Ho. unfold fbyte. rewrite Ho, Hk.
  pose proof (zlen_blockdata w i k b Hok Hf Hk) as Hl.
  destruct (zget_is_Some (blockdata w b) (o mod SFS_BLOCKSIZE)) as [x Hx].
  { rewrite Hl. by apply Z.mod_pos_bound. }
  rewrite Hx. f_equal. unfold blockdata in Hx. destruct (Z.eqb_spec b 0); [|by rewrite Hx].
  apply zget_elem, elem_of_replicate_inv in Hx. done.
Qed.
Lemma fbytes_block w i off len b :
  fs_ok w → file_ok w i → zget (ptrs w i) (off / SFS_BLOCKSIZE) = Some b → 0 ≤ len →
  off mod SFS_BLOCKSIZE + len ≤ SFS_BLOCKSIZE →
  fbytes w i off len = ztake len (zdrop (off mod SFS_BLOCKSIZE) (blockdata w b)).
Proof.
  intros Hok Hf Hk Hlen Hin. pose proof (zlen_blockdata w i _ b Hok Hf Hk) as Hl.
  assert (Hm : 0 ≤ off mod SFS_BLOCKSIZE < SFS_BLOCKSIZE) by (by apply Z.mod_pos_bound).
  unfold SFS_BLOCKSIZE in *.
  apply zlist_eq. intros j Hj. destruct (decide (j < len)).
  - rewrite zget_fbytes by lia. rewrite zget_ztake, zget_zdrop by lia.
    replace (off mod 512 + j) with ((off + j) mod 512) by (Z.div_mod_to_equations; lia).
    symmetry. eapply fbyte_block; [done..|]. unfold SFS_BLOCKSIZE. Z.div_mod_to_equations. lia.
  - rewrite !zget_None; [done| |].
    + rewrite zlen_ztake; [lia|]. rewrite zlen_zdrop; lia.
    + rewrite zlen_fbytes; lia.
Qed.

(** [d] written over the bytes [f] from [off] on. *)
Definition wbytes (f : Z → Z) (off : Z) (d : list Z) (o : Z) : Z :=
  if decide (off ≤ o < off + zlen d) then default 0 (zget d (o - off)) else f o.

Lemma wbytes_app f off d1 d2 o :
  wbytes (wbytes f off d1) (off + zlen d1) d2 o = wbytes f off (d1 ++ d2) o.
Proof.
  unfold wbytes. rewrite zlen_app. pose proof (zlen_nonneg d1). pose proof (zlen_nonneg d2).
  destruct (decide (off + zlen d1 ≤ o < off + zlen d1 + zlen d2)).
  - rewrite decide_True by lia. rewrite zget_app_r by lia. do 2 f_equal. lia.
  - destruct (decide (off ≤ o < off + zlen d1)).
    + rewrite decide_True by lia. by rewrite zget_app_l by lia.
    + by rewrite decide_False by lia.
Qed.

(** ** Descriptors *)

Lemma fileblock_eq s : kuio_ok s → uio_fileblock (u_uio s) = uio_offset (u_uio s) / SFS_BLOCKSIZE.
Proof.
  intros []. unfold uio_fileblock, SFS_BLOCKSIZE.
  rewrite Z.quot_div_nonneg, u32_small by (Z.div_mod_to_equations; lia). done.
Qed.

(** [sfs_blockio] turns the caller's descriptor into one for the disk block
    and back. *)
Definition disk_uio (diskoff : Z) (s : ustate) : ustate :=
  mkustate (set_resid SFS_BLOCKSIZE (set_offset diskoff (u_uio s))) (u_kbuf s) (u_user s)
           (u_ptr s) (u_curspace s).
Definition restore_uio (diskoff saveoff saveres : Z) (u : uio) : uio :=
  set_resid (u32 (u32 (uio_resid u - SFS_BLOCKSIZE) + i32 saveres))
    (set_offset (i32 (i32 (uio_offset u - diskoff) + saveoff)) u).

Lemma disk_uio_block s b :
  kuio_ok s → 0 ≤ b < 4194303 → SFS_BLOCKSIZE ≤ uio_resid (u_uio s) →
  block_uio (disk_uio (SFS_BLOCKSIZE * b) s) b.
Proof.
  intros [] Hb Hr. unfold block_uio, SECTSIZE, SFS_BLOCKSIZE in *.
  split_and!; try done. split; simpl; try done; unfold SFS_BLOCKSIZE; lia.
Qed.
Lemma restore_adv s diskoff n :
  kuio_ok s → SFS_BLOCKSIZE ≤ uio_resid (u_uio s) → n = 0 ∨ n = SFS_BLOCKSIZE →
  restore_uio diskoff (uio_offset (u_uio s)) (uio_resid (u_uio s))
    (uio_adv n (u_uio (disk_uio diskoff s))) = uio_adv n (u_uio s).
Proof.
  intros [] Hr Hn. unfold restore_uio, uio_adv, disk_uio, set_resid, set_offset; simpl.
  unfold SFS_BLOCKSIZE in *. replace (diskoff + n - diskoff) with n by lia.
  rewrite (i32_small n), (i32_small (n + _)), (i32_small (uio_resid _)) by lia. f_equal; [lia|].
  unfold u32. rewrite Zplus_mod_idemp_l. rewrite Z.mod_small; lia.
Qed.
Lemma restore_id s diskoff :
  kuio_ok s → SFS_BLOCKSIZE ≤ uio_resid (u_uio s) →
  restore_uio diskoff (uio_offset (u_uio s)) (uio_resid (u_uio s)) (u_uio (disk_uio diskoff s)) =
  u_uio s.
Proof.
  intros Hu Hr. assert (Hadv : ∀ u, uio_adv 0 u = u).
  { intros []. unfold uio_adv; simpl. by rewrite !Z.add_0_r, !Z.sub_0_r. }
  rewrite <- (Hadv (u_uio (disk_uio _ _))), restore_adv by (done || by left). apply Hadv.
Qed.

(** ** Reading *)

Definition read_err (off : Z) (e : errno) : Prop :=
  e = EIO ∨ e = EINVAL ∧ 143 ≤ off / SFS_BLOCKSIZE.

Lemma bmap_read p sv w s :
  fs_ok w → w_sv w !! p = Some sv → file_ok w (sv_i sv) → kuio_ok s →
  uio_rw (u_uio s) = UIO_READ →
  let off := uio_offset (u_uio s) in
  wp (onw (sfs_bmap p (uio_fileblock (u_uio s)) (is_write (u_uio s))))
     (λ b t, same_data w t.1 ∧ t.2 = s ∧
             zget (ptrs w (sv_i sv)) (off / SFS_BLOCKSIZE) = Some b)
     (λ e t, read_err off e ∧ same_data w t.1 ∧ t.2 = s) (w, s).
Proof.
  intros Hok Hp Hf Hu Hrw off. unfold is_write. rewrite Hrw, bool_decide_false by done.
  rewrite fileblock_eq by done. apply wp_zoom. simpl.
  wp_use (sfs_bmap_spec false p sv); [done..| | |].
  - destruct Hu as [_ _ _ _ _ ?]. apply Z.div_pos; [lia|done].
  - intros b w1 (sv' & (_ & _ & _ & Hna) & Hb & _). destruct (Hna eq_refl) as [-> Hs]. simpl.
    split_and!; [done..|]. by rewrite Hs.
  - intros e w1 (sv' & (_ & _ & _ & Hna) & He). destruct (Hna eq_refl) as [-> Hs]. simpl.
    split; [|done]. unfold read_err. naive_solver.
Qed.

Lemma partial_read p sv w s len :
  fs_ok w → w_sv w !! p = Some sv → file_ok w (sv_i sv) → kuio_ok s →
  uio_rw (u_uio s) = UIO_READ → 0 ≤ len ≤ uio_resid (u_uio s) →
  let off := uio_offset (u_uio s) in
  off mod SFS_BLOCKSIZE + len ≤ SFS_BLOCKSIZE →
  wp (sfs_partialio p (off mod SFS_BLOCKSIZE) len)
     (λ _ t, same_data w t.1 ∧ t.2 = kfilled (fbytes w (sv_i sv) off len) s)
     (λ e t, read_err off e ∧ same_data w t.1 ∧ t.2 = s) (w, s).
Proof.
  intros Hok Hp Hf Hu Hrw Hlen off Hin. unfold sfs_partialio. wp_bind. apply wp_gets. cbn [snd].
  assert (Hm : 0 ≤ off mod SFS_BLOCKSIZE < SFS_BLOCKSIZE) by (by apply Z.mod_pos_bound).
  wp_bind. apply wp_kassert; [rewrite u32_small; unfold SFS_BLOCKSIZE in *; lia|].
  wp_bind. wp_use bmap_read; [done..| |done]. intros b [w1 s1] (Hs & ? & Hb); simpl in *. subst s1.
  assert (Hok1 : fs_ok w1) by by rewrite <- Hs.
  assert (Hr : ∀ iobuf w2, same_data w w2 → iobuf = blockdata w b →
    wp (let! iobuf := onu (uiomove_buf iobuf (off mod SFS_BLOCKSIZE) len) in
        when (is_write (u_uio s)) (onw (sfs_wblock iobuf b)))
      (λ _ t, same_data w t.1 ∧ t.2 = kfilled (fbytes w (sv_i sv) off len) s)
      (λ e t, read_err off e ∧ same_data w t.1 ∧ t.2 = s) (w2, s)).
  { intros iobuf w2 Hs2 ->. wp_bind. apply wp_zoom. simpl. unfold wp at 1.
    rewrite uiomove_buf_read; [|done|done|lia|lia|].
    2: { rewrite (zlen_blockdata w (sv_i sv) _ b) by done. unfold SFS_BLOCKSIZE in *. lia. }
    unfold is_write. rewrite Hrw, bool_decide_false by done. apply wp_ret. simpl. split; [done|].
    by rewrite (fbytes_block _ _ _ _ b) by done || lia. }
  wp_bind. unfold blockdata in Hr. destruct (Z.eqb_spec b 0) as [->|Hnz].
  - wp_bind. apply wp_kassert; [unfold is_read; by rewrite Hrw|]. apply wp_ret. by apply Hr.
  - apply wp_zoom. simpl.
    assert (0 < b < nblk w1) by (rewrite <- Hs; apply Hf; by eapply ptr_owned).
    wp_use sfs_rblock_spec; [done|lia|done|..].
    + intros l w2 [-> Hs2]. apply Hr; [by etransitivity|by rewrite Hs].
    + intros e w2 [-> Hs2]. split_and!; [by left|by etransitivity|done].
Qed.

Lemma block_read p sv w s :
  fs_ok w → w_sv w !! p = Some sv → file_ok w (sv_i sv) → kuio_ok s →
  uio_rw (u_uio s) = UIO_READ → SFS_BLOCKSIZE ≤ uio_resid (u_uio s) →
  let off := uio_offset (u_uio s) in
  off mod SFS_BLOCKSIZE = 0 →
  wp (sfs_blockio p)
     (λ _ t, same_data w t.1 ∧ t.2 = kfilled (fbytes w (sv_i sv) off SFS_BLOCKSIZE) s)
     (λ e t, read_err off e ∧ same_data w t.1 ∧ t.2 = s) (w, s).
Proof.
  intros Hok Hp Hf Hu Hrw Hlen off Hin. unfold sfs_blockio. wp_bind. apply wp_gets. cbn [snd].
  wp_bind. wp_use bmap_read; [done..| |done]. intros b [w1 s1] (Hs & ? & Hb); simpl in *. subst s1.
  assert (Hdata : fbytes w (sv_i sv) off SFS_BLOCKSIZE = blockdata w b).
  { rewrite (fbytes_block _ _ _ _ b) by (done || rewrite ?Hin; done).
    rewrite Hin, zdrop_0, ztake_all; [done|].
    by rewrite (zlen_blockdata w (sv_i sv) (off / SFS_BLOCKSIZE) b). }
  rewrite Hdata. unfold blockdata. destruct (Z.eqb_spec b 0) as [->|Hnz].
  - wp_bind. apply wp_kassert; [unfold is_read; by rewrite Hrw|]. apply wp_zoom. simpl.
    unfold wp. rewrite zeros_kernel by (done || lia). done.
  - assert (Hok1 : fs_ok w1) by by rewrite <- Hs.
    assert (Hbr : 0 < b < nblk w1) by (rewrite <- Hs; apply Hf; by eapply ptr_owned).
    pose proof Hok1 as []. pose proof Hu as [].
    replace (i32 (u32 (b * SFS_BLOCKSIZE))) with (SFS_BLOCKSIZE * b).
    2: { unfold SFS_BLOCKSIZE. rewrite u32_small, i32_small; lia. }
    wp_bind. apply wp_zoom, wp_modify. wp_bind. apply wp_kassert; [lia|].
    wp_bind. apply wp_zoom, wp_modify. simpl. wp_bind. apply wp_try, wp_zoom. simpl.
    set (s1 := mkustate _ _ _ _ _). change s1 with (disk_uio (SFS_BLOCKSIZE * b) s).
    wp_use sfs_rwblock_read; [done| |apply disk_uio_block; done || lia|done|..]; [lia|..].
    + intros [] [d2 s2] [Hd2 Hs2]; simpl in *. subst s2.
      do 2 (wp_bind; apply wp_zoom, wp_modify). apply wp_ret. simpl.
      split; [etransitivity; [done|by split]|].
      rewrite Hs. unfold sec. destruct (sector_ok (w_dev w1) b) as [Hz _]; [done|lia|].
      pose proof (restore_adv s (SFS_BLOCKSIZE * b) SFS_BLOCKSIZE Hu Hlen (or_intror eq_refl)) as Hr.
      unfold kfilled; simpl. rewrite Hz. f_equal. exact Hr.
    + intros e [d2 s2] (-> & Hd2 & Hs2); simpl in *. subst s2.
      do 2 (wp_bind; apply wp_zoom, wp_modify). apply wp_fail. simpl.
      split_and!; [by left|etransitivity; [done|by split]|].
      pose proof (restore_id s (SFS_BLOCKSIZE * b) Hu Hlen) as Hr.
      destruct s; simpl in *. f_equal. exact Hr.
Qed.

Lemma fbytes_app w i off k len :
  0 ≤ k → 0 ≤ len → fbytes w i off k ++ fbytes w i (off + k) len = fbytes w i off (k + len).
Proof. intros. unfold fbytes. by rewrite <- map_app, <- seqZ_app. Qed.

Lemma kfilled_nil s : kfilled [] s = s.
Proof.
  unfold kfilled, uio_adv. rewrite splice_nil, zlen_nil, !Z.add_0_r, !Z.sub_0_r.
  by destruct s as [[] ? ? ? ?].
Qed.

(** [s] limited to [n] bytes. *)
Definition clip (n : Z) (s : ustate) : ustate :=
  mkustate (set_resid n (u_uio s)) (u_kbuf s) (u_user s) (u_ptr s) (u_curspace s).

Lemma clip_ok n s : kuio_ok s → 0 ≤ n ≤ uio_resid (u_uio s) → kuio_ok (clip n s).
Proof. intros [] Hn. split; simpl; try done; lia. Qed.

Lemma read_blocks p sv w s n :
  fs_ok w → w_sv w !! p = Some sv → file_ok w (sv_i sv) → kuio_ok s →
  uio_rw (u_uio s) = UIO_READ → uio_resid (u_uio s) = n →
  let off := uio_offset (u_uio s) in
  wp (sfs_io_blocks p)
     (λ _ t, same_data w t.1 ∧ t.2 = kfilled (fbytes w (sv_i sv) off n) s)
     (λ e t, ∃ k, 0 ≤ k ≤ n ∧ io_stop off n k ∧ read_err (off + k) e ∧
             same_data w t.1 ∧ t.2 = kfilled (fbytes w (sv_i sv) off k) s) (w, s).
Proof.
  intros Hok Hp Hf Hu Hrw Hn off. pose proof Hu as [].
  set (I := λ k (t : W * ustate), 0 ≤ k ≤ n ∧
              same_data w t.1 ∧ t.2 = kfilled (fbytes w (sv_i sv) off k) s).
  assert (Hstep : ∀ k len (w1 w2 : W) s1 s2, I k (w1, s1) → 0 ≤ len → k + len ≤ n →
    same_data w1 w2 → s2 = kfilled (fbytes w1 (sv_i sv) (off + k) len) s1 → I (k + len) (w2, s2)).
  { intros k len w1 w2 s1 s2 (Hk & Hs1 & Hs) Hlen Hkn Hs2 ->. simpl in Hs. subst s1.
    split_and!; [lia|lia|by etransitivity|]. simpl. rewrite <- Hs1.
    rewrite kfilled_app, fbytes_app by (done || rewrite ?zlen_fbytes; lia). done. }
  assert (Hpre : ∀ k w1 s1, I k (w1, s1) →
    fs_ok w1 ∧ w_sv w1 !! p = Some sv ∧ file_ok w1 (sv_i sv) ∧ kuio_ok s1 ∧
    uio_rw (u_uio s1) = UIO_READ ∧ uio_offset (u_uio s1) = off + k ∧ uio_resid (u_uio s1) = n - k).
  { intros k w1 s1 (Hk & Hs & Hs1). simpl in *. subst s1.
    pose proof Hs as (_ & _ & _ & ->). split_and!; try done; try by rewrite <- Hs.
    - apply kfilled_ok; [done|]. rewrite zlen_fbytes; lia.
    - simpl. by rewrite zlen_fbytes by lia.
    - simpl. rewrite zlen_fbytes by lia. lia. }
  wp_use (io_blocks_spec p off n I (λ e k, read_err (off + k) e)).
  - lia.
  - lia.
  - lia.
  - intros k [w1 s1] HI. apply Hpre in HI. tauto.
  - intros k len [w1 s1] HI Hk Hlen Hkn Hin. pose proof (Hpre _ _ _ HI) as (? & ? & ? & ? & ? & Ho & Hr).
    rewrite <- Ho in *. wp_use (partial_read p sv); [done..|lia|done| |].
    + intros [] [w2 s2] [Hs2 Hs3]; simpl in *. rewrite Ho in Hs3. by eapply Hstep.
    + intros e [w2 s2] (He & Hs2 & Hs3); simpl in *. subst s2. split; [done|].
      destruct HI as (? & ? & ?). split_and!; try done; try lia. by etransitivity.
  - intros k [w1 s1] HI Hk Hin Hkn. pose proof (Hpre _ _ _ HI) as (? & ? & ? & ? & ? & Ho & Hr).
    rewrite <- Ho in *. wp_use (block_read p sv); [done..|lia|done| |].
    + intros [] [w2 s2] [Hs2 Hs3]; simpl in *. rewrite Ho in Hs3.
      by eapply Hstep.
    + intros e [w2 s2] (He & Hs2 & Hs3); simpl in *. subst s2. split; [done|].
      destruct HI as (? & ? & ?). split_and!; try done; try lia. by etransitivity.
  - split_and!; [lia|lia|reflexivity|]. simpl. unfold fbytes. simpl. by rewrite kfilled_nil.
  - by intros [] t (_ & ? & ?).
  - intros e t (k & Hk & Hs & He & _ & ? & ?). by exists k.
Qed.

(** The end of the transfer gives the residue back what lay past the end of
    the file. *)
Lemma unclip n d s extra :
  kuio_ok s → 0 ≤ n → extra = uio_resid (u_uio s) - n → zlen d ≤ n → 0 ≤ extra →
  set_resid (u32 (uio_resid (u_uio (kfilled d (clip n s))) + extra)) (u_uio (kfilled d (clip n s)))
  = u_uio (kfilled d s).
Proof.
  intros [] Hn -> Hd He. pose proof (zlen_nonneg d). unfold set_resid, kfilled, uio_adv, clip; simpl.
  rewrite u32_small by lia. f_equal. lia.
Qed.

Lemma io_out_read p sv w w1 s n k extra r :
  w_sv w !! p = Some sv → kuio_ok s → uio_rw (u_uio s) = UIO_READ →
  0 ≤ k ≤ n → n ≤ uio_resid (u_uio s) → extra = uio_resid (u_uio s) - n → same_data w w1 →
  let d := fbytes w (sv_i sv) (uio_offset (u_uio s)) k in
  sfs_io_out p extra r (w1, kfilled d (clip n s)) =
  match r with inl e => Err e (w1, kfilled d s) | inr _ => Ok tt (w1, kfilled d s) end.
Proof.
  intros Hp Hu Hrw Hk Hn He Hs1 d. unfold sfs_io_out, the_uio, gets, bind, onw, get_sv, zoom. simpl.
  destruct Hs1 as (_ & _ & _ & ->). rewrite Hp. unfold is_write; simpl. rewrite Hrw; simpl.
  assert (Huc := unclip n d s extra Hu ltac:(lia) He
                   ltac:(unfold d; rewrite zlen_fbytes; lia) ltac:(lia)).
  unfold kfilled in Huc |- *; simpl in *. rewrite Huc. by destruct r.
Qed.

Definition read_post sv w s (n : Z) (t : W * ustate) : Prop :=
  same_data w t.1 ∧ t.2 = kfilled (fbytes w (sv_i sv) (uio_offset (u_uio s)) n) s.
Definition read_fail sv w s (n : Z) (e : errno) (t : W * ustate) : Prop :=
  ∃ k, 0 ≤ k ≤ n ∧ io_stop (uio_offset (u_uio s)) n k ∧
       read_err (uio_offset (u_uio s) + k) e ∧ read_post sv w s k t.

Lemma read_finish p sv w s n extra :
  fs_ok w → w_sv w !! p = Some sv → file_ok w (sv_i sv) → kuio_ok s →
  uio_rw (u_uio s) = UIO_READ → 0 ≤ n ≤ uio_resid (u_uio s) →
  extra = uio_resid (u_uio s) - n →
  wp (let! result := try (sfs_io_blocks p) in sfs_io_out p extra result)
     (λ _, read_post sv w s n) (read_fail sv w s n) (w, clip n s).
Proof.
  intros Hok Hp Hf Hu Hrw Hn He. wp_bind. apply wp_try.
  wp_use (read_blocks p sv w (clip n s) n); try done; [by apply clip_ok|..].
  - intros [] [w1 s1] [Hs1 Hs2]; simpl in *. subst s1. unfold wp.
    rewrite (io_out_read p sv w) by (done || lia). done.
  - intros e [w1 s1] (k & Hk & Hst & He' & Hs1 & Hs2); simpl in *. subst s1. unfold wp.
    rewrite (io_out_read p sv w) by (done || lia). by exists k.
Qed.

Definition read_len (size : Z) (u : uio) : Z :=
  Z.max 0 (Z.min (uio_resid u) (size - uio_offset u)).

Lemma sfs_io_read p sv w s :
  fs_ok w → w_sv w !! p = Some sv → file_ok w (sv_i sv) → kuio_ok s →
  uio_rw (u_uio s) = UIO_READ → sfi_size (sv_i sv) < 2147483648 →
  let n := read_len (sfi_size (sv_i sv)) (u_uio s) in
  wp (sfs_io p) (λ _, read_post sv w s n) (read_fail sv w s n) (w, s).
Proof.
  intros Hok Hp Hf Hu Hrw Hsz n. pose proof Hu as []. set (off := uio_offset (u_uio s)) in *.
  destruct (fi_wf _ _ Hf) as [Hsz0 _ _ _ _ _]. unfold word32 in Hsz0.
  unfold sfs_io. wp_bind. apply wp_gets. wp_bind. apply wp_zoom. unfold wp at 1, get_sv. simpl.
  rewrite Hp. unfold is_read, is_write. rewrite Hrw. cbn [andb bool_decide decide_rel].
  fold off. rewrite (i32_small (sfi_size _)), (u32_small (_ + _)), i32_small by lia.
  destruct (Z.geb_spec off (sfi_size (sv_i sv))) as [Heof|Hin].
  { apply wp_ret. simpl. replace n with 0 by (unfold n, read_len; fold off; lia).
    split; [reflexivity|]. unfold fbytes; simpl. by rewrite kfilled_nil. }
  assert (Hn : 0 ≤ n ≤ uio_resid (u_uio s)) by (unfold n, read_len; fold off; lia).
  wp_bind. destruct (Z.gtb_spec (off + uio_resid (u_uio s)) (sfi_size (sv_i sv))) as [Hlong|Hshort].
  - rewrite !u32_small by lia. wp_bind. apply wp_kassert; [lia|]. wp_bind.
    apply wp_zoom, wp_modify. apply wp_ret.
    replace (uio_resid (u_uio s) - (off + uio_resid (u_uio s) - sfi_size (sv_i sv))) with n
      by (unfold n, read_len; fold off; lia).
    apply read_finish; try done. unfold n, read_len. fold off. lia.
  - apply wp_ret. assert (Hnr : n = uio_resid (u_uio s)) by (unfold n, read_len; fold off; lia).
    assert (Hc : clip n s = s) by (unfold clip; rewrite Hnr; by destruct s as [[] ? ? ? ?]).
    pose proof (read_finish p sv w s n 0 Hok Hp Hf Hu Hrw Hn ltac:(lia)) as Hx.
    by rewrite Hc in Hx.
Qed.

(** ** Writing *)

Lemma wrote_block p sv w w' fb b x :
  fs_ok w → w_sv w !! p = Some sv → file_ok w (sv_i sv) →
  zget (ptrs w (sv_i sv)) fb = Some b → b ≠ 0 → block_ok x → wrote b x w w' →
  grows p sv sv w w' ∧
  ∀ o, fbyte w' (sv_i sv) o =
       if decide (o / SFS_BLOCKSIZE = fb) then default 0 (zget x (o mod SFS_BLOCKSIZE))
       else fbyte w (sv_i sv) o.
Proof.
  intros Hok Hp Hf Hb Hnz Hx Hw. pose proof (wrote_fs_ok _ _ _ _ Hok Hw) as Hok'.
  destruct Hw as (_ & _ & Hs & Hk & Hfs & Hsv).
  assert (Hptrs : ptrs w' (sv_i sv) = ptrs w (sv_i sv)).
  { unfold ptrs. f_equal. destruct (Z.eqb_spec (sfi_indirect (sv_i sv)) 0); [done|].
    rewrite Hs, decide_False; [done|]. intros <-. by eapply ptr_indirect. }
  assert (Hown : owned w' (sv_i sv) = owned w (sv_i sv)) by (unfold owned; by rewrite Hptrs).
  assert (Hu : ∀ c, used w' c ↔ used w c) by (intros c; unfold used; by rewrite Hfs).
  assert (Hnb : nblk w' = nblk w) by (unfold nblk; by rewrite Hfs).
  split; [split|]; try done; try (by left).
  - by rewrite Hfs.
  - by rewrite Hsv, insert_id.
  - split; [apply Hf| |by rewrite Hown; apply Hf]. intros c. rewrite Hown, Hu, Hnb. apply Hf.
  - intros c. by rewrite Hu.
  - intros c _ Hc. rewrite Hs, decide_False; [done|]. intros ->. destruct Hc. by eapply ptr_owned.
  - intros c. rewrite Hown. by left.
  - intros o. unfold fbyte. rewrite Hptrs. case_decide as Hfb.
    + rewrite Hfb, Hb. destruct (Z.eqb_spec b 0); [done|]. by rewrite Hs, decide_True.
    + destruct (zget (ptrs w (sv_i sv)) (o / SFS_BLOCKSIZE)) as [c|] eqn:Hc; [|done].
      destruct (Z.eqb_spec c 0); [done|]. rewrite Hs, decide_False; [done|].
      intros ->. destruct Hfb. by eapply ptr_inj.
Qed.

Definition written (p : Z) sv sv' w w' (off : Z) (d : list Z) : Prop :=
  grows p sv sv' w w' ∧ sfi_size (sv_i sv') = sfi_size (sv_i sv) ∧
  (∀ o, fbyte w' (sv_i sv') o = wbytes (fbyte w (sv_i sv)) off d o) ∧
  (0 < zlen d → off + zlen d ≤ 143 * SFS_BLOCKSIZE).

Lemma wbytes_ext f g off d o : (∀ o, f o = g o) → wbytes f off d o = wbytes g off d o.
Proof. intros Hfg. unfold wbytes. case_decide; [done|apply Hfg]. Qed.
Lemma keeps_written p sv sv' w w' off : keeps true p sv sv' w w' → written p sv sv' w w' off [].
Proof.
  intros (? & ? & Hb & _). split_and!; try done.
  intros o. rewrite Hb. unfold wbytes. by rewrite zlen_nil, decide_False by lia.
Qed.
Lemma written_trans p sv sv1 sv2 w w1 w2 off d1 d2 :
  written p sv sv1 w w1 off d1 → written p sv1 sv2 w1 w2 (off + zlen d1) d2 →
  written p sv sv2 w w2 off (d1 ++ d2).
Proof.
  intros (? & ? & Hb & He) (? & ? & Hb' & He'). split_and!; [by eapply grows_trans|congruence| |].
  - intros o. rewrite Hb', <- wbytes_app. by apply wbytes_ext.
  - rewrite zlen_app. pose proof (zlen_nonneg d1). pose proof (zlen_nonneg d2). lia.
Qed.
Lemma keeps_then_written p sv sv1 sv2 w w1 w2 off d :
  keeps true p sv sv1 w w1 → written p sv1 sv2 w1 w2 off d → written p sv sv2 w w2 off d.
Proof.
  intros Hk Hw. change d with ([] ++ d).
  eapply written_trans; [by apply keeps_written|]. by rewrite zlen_nil, Z.add_0_r.
Qed.

(** Part of a block replaced. *)
Lemma wrote_part p sv w w' off b d :
  fs_ok w → w_sv w !! p = Some sv → file_ok w (sv_i sv) →
  zget (ptrs w (sv_i sv)) (off / SFS_BLOCKSIZE) = Some b → b ≠ 0 →
  off mod SFS_BLOCKSIZE + zlen d ≤ SFS_BLOCKSIZE → bytes d →
  wrote b (splice (sec w b) (off mod SFS_BLOCKSIZE) d) w w' →
  written p sv sv w w' off d.
Proof.
  intros Hok Hp Hf Hb Hnz Hd Hby Hw. pose proof Hok as [].
  assert (Hm : 0 ≤ off mod SFS_BLOCKSIZE < SFS_BLOCKSIZE) by (by apply Z.mod_pos_bound).
  destruct (fi_blocks _ _ Hf b) as [Hbr _]; [by eapply ptr_owned|].
  destruct (sector_ok (w_dev w) b) as [Hsl Hsb]; [done|lia|]. fold (sec w b) in *.
  pose proof (zlen_nonneg d). unfold SFS_BLOCKSIZE, SECTSIZE in *.
  destruct (wrote_block p sv w w' (off / 512) b (splice (sec w b) (off mod 512) d))
    as [Hg Hbytes]; try done.
  { split; [unfold SECTSIZE; rewrite zlen_splice; lia|]. by apply bytes_splice. }
  split_and!; [done..| |].
  2: { intros _. apply zget_Some_range in Hb. rewrite zlen_ptrs in Hb by apply Hf.
       unfold SFS_BLOCKSIZE. Z.div_mod_to_equations. lia. }
  intros o. rewrite Hbytes. unfold wbytes, SFS_BLOCKSIZE.
  case_decide as Ho; [|by rewrite decide_False by (Z.div_mod_to_equations; lia)].
  case_decide as Hin.
  - rewrite zget_splice_in by (Z.div_mod_to_equations; lia). do 2 f_equal.
    Z.div_mod_to_equations. lia.
  - rewrite zget_splice_out by (Z.div_mod_to_equations; lia).
    pose proof (fbyte_block w (sv_i sv) _ b o Hok Hf Hb Ho) as Hfb. unfold blockdata in Hfb.
    destruct (Z.eqb_spec b 0); [done|]. unfold SFS_BLOCKSIZE in Hfb. by rewrite Hfb.
Qed.

Definition write_err (off : Z) (e : errno) : Prop :=
  e = EIO ∨ e = ENOSPC ∨ e = EINVAL ∧ 143 ≤ off / SFS_BLOCKSIZE.

Lemma bmap_write p sv w s :
  fs_ok w → w_sv w !! p = Some sv → file_ok w (sv_i sv) → kuio_ok s →
  uio_rw (u_uio s) = UIO_WRITE →
  let off := uio_offset (u_uio s) in
  wp (onw (sfs_bmap p (uio_fileblock (u_uio s)) (is_write (u_uio s))))
     (λ b t, t.2 = s ∧ b ≠ 0 ∧ ∃ sv', keeps true p sv sv' w t.1 ∧
             zget (ptrs t.1 (sv_i sv')) (off / SFS_BLOCKSIZE) = Some b)
     (λ e t, write_err off e ∧ t.2 = s ∧ ∃ sv', keeps true p sv sv' w t.1) (w, s).
Proof.
  intros Hok Hp Hf Hu Hrw off. unfold is_write. rewrite Hrw, bool_decide_true by done.
  rewrite fileblock_eq by done. apply wp_zoom. simpl.
  wp_use (sfs_bmap_spec true p sv); [done..| | |].
  - destruct Hu as [_ _ _ _ _ ?]. apply Z.div_pos; [lia|done].
  - intros b w1 (sv' & Hk & Hb & Hnz). simpl. split_and!; [done|by apply Hnz|by exists sv'].
  - intros e w1 (sv' & Hk & He). simpl. split_and!; [|done|by exists sv'].
    unfold write_err. naive_solver.
Qed.

Definition write_step p sv w s (off len : Z) (t : W * ustate) : Prop :=
  t.2 = kdrained len s ∧ ∃ sv', written p sv sv' w t.1 off (kdata len s).
Definition write_stuck p sv w s (off : Z) (e : errno) (t : W * ustate) : Prop :=
  write_err off e ∧ t.2 = s ∧ ∃ sv', keeps true p sv sv' w t.1.

Lemma partial_write p sv w s len :
  fs_ok w → w_sv w !! p = Some sv → file_ok w (sv_i sv) → kuio_ok s →
  uio_rw (u_uio s) = UIO_WRITE → bytes (u_kbuf s) → 0 ≤ len ≤ uio_resid (u_uio s) →
  let off := uio_offset (u_uio s) in
  off mod SFS_BLOCKSIZE + len ≤ SFS_BLOCKSIZE →
  wp (sfs_partialio p (off mod SFS_BLOCKSIZE) len) (λ _, write_step p sv w s off len)
     (write_stuck p sv w s off) (w, s).
Proof.
  intros Hok Hp Hf Hu Hrw Hby Hlen off Hin. unfold sfs_partialio. wp_bind. apply wp_gets. cbn [snd].
  assert (Hm : 0 ≤ off mod SFS_BLOCKSIZE < SFS_BLOCKSIZE) by (by apply Z.mod_pos_bound).
  wp_bind. apply wp_kassert; [rewrite u32_small; unfold SFS_BLOCKSIZE in *; lia|].
  wp_bind. wp_use (bmap_write p sv); [done..| |done].
  intros b [w1 s1] (Hs1 & Hnz & sv1 & Hk1 & Hb1); simpl in *. subst s1.
  pose proof Hk1 as (Hg1 & _). pose proof (gr_fs _ _ _ _ _ Hg1) as Hok1.
  pose proof (gr_file _ _ _ _ _ Hg1) as Hf1. pose proof (grows_here _ _ _ _ _ Hg1) as Hp1.
  destruct (fi_blocks _ _ Hf1 b) as [Hbr _]; [by eapply ptr_owned|]. wp_bind.
  destruct (Z.eqb_spec b 0); [done|]. apply wp_zoom. simpl.
  wp_use sfs_rblock_spec; [done|lia|done|..].
  2: { intros e w2 [-> Hs2]. split_and!; [by left|done|]. exists sv1.
       eapply keeps_trans; [done|]. by apply keeps_same. }
  intros l w2 [-> Hs2]. wp_bind. apply wp_zoom. simpl. unfold wp at 1.
  assert (Hsec : block_ok (sec w1 b)) by (apply sector_ok; [apply Hok1|destruct Hok1; lia]).
  destruct Hsec as [Hsl Hsb]. unfold SECTSIZE in Hsl.
  rewrite uiomove_buf_write; [|done|done|lia|lia|unfold SFS_BLOCKSIZE in *; lia].
  unfold is_write. rewrite Hrw, bool_decide_true by done. cbn [when]. apply wp_zoom. simpl.
  assert (Hok2 : fs_ok w2) by by rewrite <- Hs2.
  assert (Hzd : zlen (kdata len s) = len) by (apply zlen_kdata; done || lia).
  assert (Hbd : bytes (kdata len s)) by (unfold kdata; auto with kern).
  wp_use sfs_wblock_spec; [done|rewrite <- Hs2; lia| | |done].
  { unfold SFS_BLOCKSIZE in *. split; [unfold SECTSIZE; rewrite zlen_splice; lia|].
    by apply bytes_splice. }
  intros [] w3 Hw. split; [done|]. exists sv1. eapply keeps_then_written; [done|].
  rewrite (sec_proper _ _ Hs2 b b eq_refl) in Hw.
  eapply keeps_then_written; [by apply keeps_same|].
  eapply (wrote_part p sv1 w2 w3 off b); try done; try (by rewrite <- Hs2); [|by rewrite Hzd].
  by destruct Hs2 as (_ & _ & _ & ->).
Qed.

Lemma block_write p sv w s :
  fs_ok w → w_sv w !! p = Some sv → file_ok w (sv_i sv) → kuio_ok s →
  uio_rw (u_uio s) = UIO_WRITE → bytes (u_kbuf s) → SFS_BLOCKSIZE ≤ uio_resid (u_uio s) →
  let off := uio_offset (u_uio s) in
  off mod SFS_BLOCKSIZE = 0 →
  wp (sfs_blockio p) (λ _, write_step p sv w s off SFS_BLOCKSIZE)
     (write_stuck p sv w s off) (w, s).
Proof.
  intros Hok Hp Hf Hu Hrw Hby Hlen off Hin. unfold sfs_blockio. wp_bind. apply wp_gets. cbn [snd].
  wp_bind. wp_use (bmap_write p sv); [done..| |done].
  intros b [w1 s1] (Hs1 & Hnz & sv1 & Hk1 & Hb1); simpl in *. subst s1.
  pose proof Hk1 as (Hg1 & _). pose proof (gr_fs _ _ _ _ _ Hg1) as Hok1.
  pose proof (gr_file _ _ _ _ _ Hg1) as Hf1. pose proof (grows_here _ _ _ _ _ Hg1) as Hp1.
  destruct (fi_blocks _ _ Hf1 b) as [Hbr _]; [by eapply ptr_owned|].
  destruct (Z.eqb_spec b 0); [done|]. pose proof Hok1 as []. pose proof Hu as [].
  replace (i32 (u32 (b * SFS_BLOCKSIZE))) with (SFS_BLOCKSIZE * b)
    by (unfold SFS_BLOCKSIZE; rewrite u32_small, i32_small; lia).
  wp_bind. apply wp_zoom, wp_modify. wp_bind. apply wp_kassert; [lia|].
  wp_bind. apply wp_zoom, wp_modify. simpl. wp_bind. apply wp_try, wp_zoom. simpl.
  set (s1 := mkustate _ _ _ _ _). change s1 with (disk_uio (SFS_BLOCKSIZE * b) s).
  assert (Hkd : kdata SECTSIZE (disk_uio (SFS_BLOCKSIZE * b) s) = kdata SFS_BLOCKSIZE s) by done.
  assert (Hbd : bytes (kdata SFS_BLOCKSIZE s)) by (unfold kdata; auto with kern).
  wp_use sfs_rwblock_write; [done| |apply disk_uio_block; done || lia|done| | |done]; [lia|done|].
  intros [] [d2 s2] (Hd2 & Hbl & Hsec & Hs2); simpl in *. subst s2.
  do 2 (wp_bind; apply wp_zoom, wp_modify). apply wp_ret.
  split; simpl.
  - pose proof (restore_adv s (SFS_BLOCKSIZE * b) SFS_BLOCKSIZE Hu Hlen (or_intror eq_refl)) as Hr.
    unfold kdrained; simpl. f_equal. exact Hr.
  - exists sv1. eapply keeps_then_written; [done|].
    assert (Hzd : zlen (kdata SFS_BLOCKSIZE s) = SFS_BLOCKSIZE) by (apply zlen_kdata; done).
    eapply (wrote_part p sv1 w1 _ off b); try done; [by rewrite Hin, Hzd|].
    rewrite Hin. replace (splice (sec w1 b) 0 _) with (kdata SFS_BLOCKSIZE s); [by repeat split|].
    symmetry. apply splice_whole. rewrite Hzd.
    destruct (sector_ok (w_dev w1) b) as [Hsl _]; [done|lia|]. done.
Qed.

Lemma kdata_add k len s :
  kuio_ok s → 0 ≤ k → 0 ≤ len → kdata k s ++ kdata len (kdrained k s) = kdata (k + len) s.
Proof.
  intros [] Hk Hlen. unfold kdata, kdrained, ztake, zdrop; simpl.
  rewrite (Z2Nat.inj_add k len), (Z2Nat.inj_add _ k) by lia.
  rewrite <- drop_drop. apply take_take_drop.
Qed.

Lemma write_blocks p sv w s n :
  fs_ok w → w_sv w !! p = Some sv → file_ok w (sv_i sv) → kuio_ok s →
  uio_rw (u_uio s) = UIO_WRITE → bytes (u_kbuf s) → uio_resid (u_uio s) = n →
  let off := uio_offset (u_uio s) in
  wp (sfs_io_blocks p) (λ _, write_step p sv w s off n)
     (λ e t, ∃ k, 0 ≤ k ≤ n ∧ io_stop off n k ∧ write_err (off + k) e ∧
               write_step p sv w s off k t) (w, s).
Proof.
  intros Hok Hp Hf Hu Hrw Hby Hn off. pose proof Hu as [].
  set (I := λ k (t : W * ustate), 0 ≤ k ≤ n ∧ write_step p sv w s off k t).
  assert (Hpre : ∀ k w1 s1, I k (w1, s1) →
    kuio_ok s1 ∧ uio_rw (u_uio s1) = UIO_WRITE ∧ bytes (u_kbuf s1) ∧
    uio_offset (u_uio s1) = off + k ∧ uio_resid (u_uio s1) = n - k ∧ s1 = kdrained k s ∧
    ∃ sv1, written p sv sv1 w w1 off (kdata k s) ∧ fs_ok w1 ∧ w_sv w1 !! p = Some sv1 ∧
           file_ok w1 (sv_i sv1)).
  { intros k w1 s1 (Hk & Hs & sv1 & Hw1). simpl in *. subst s1. pose proof Hw1 as (Hg & _).
    split_and!; try done; [apply kdrained_ok; done || lia|simpl; lia|].
    exists sv1. split_and!; [done|apply Hg|by eapply grows_here|apply Hg]. }
  assert (Hstep : ∀ k len (w1 : W) s1 sv1 t, s1 = kdrained k s → 0 ≤ k → 0 ≤ len → k + len ≤ n →
    written p sv sv1 w w1 off (kdata k s) → write_step p sv1 w1 s1 (off + k) len t → I (k + len) t).
  { intros k len w1 s1 sv1 [w2 s2] -> Hk Hlen Hkn Hw1 (Hs2 & sv2 & Hw2). simpl in *. subst s2.
    split_and!; [lia|lia|]. split; simpl; [apply kdrained_add|]. exists sv2.
    rewrite <- kdata_add by done. eapply written_trans; [done|].
    by rewrite zlen_kdata by (done || lia). }
  assert (Hstuck : ∀ k (w1 : W) s1 sv1 e t, s1 = kdrained k s → 0 ≤ k ≤ n →
    written p sv sv1 w w1 off (kdata k s) → write_stuck p sv1 w1 s1 (off + k) e t →
    write_err (off + k) e ∧ I k t).
  { intros k w1 s1 sv1 e [w2 s2] -> Hk Hw1 (He & Hs2 & sv2 & Hw2). simpl in *. subst s2.
    split; [done|]. split; [done|]. split; [done|]. exists sv2.
    rewrite <- (app_nil_r (kdata k s)). eapply written_trans; [done|]. by apply keeps_written. }
  wp_use (io_blocks_spec p off n I (λ e k, write_err (off + k) e)).
  - lia.
  - lia.
  - lia.
  - intros k [w1 s1] HI. apply Hpre in HI. tauto.
  - intros k len [w1 s1] HI Hk Hlen Hkn Hin.
    destruct (Hpre _ _ _ HI) as (? & ? & ? & Ho & Hr & Hs1 & sv1 & Hw1 & ? & ? & ?).
    rewrite <- Ho in *. wp_use (partial_write p sv1); [done..|lia|done| |]; rewrite Ho.
    + intros [] t. by eapply Hstep.
    + intros e t. eapply Hstuck; done || lia.
  - intros k [w1 s1] HI Hk Hin Hkn.
    destruct (Hpre _ _ _ HI) as (? & ? & ? & Ho & Hr & Hs1 & sv1 & Hw1 & ? & ? & ?).
    rewrite <- Ho in *. wp_use (block_write p sv1); [done..|lia|done| |]; rewrite Ho.
    + intros [] t. by eapply Hstep.
    + intros e t. eapply Hstuck; try done. unfold SFS_BLOCKSIZE in *. lia.
  - split; [lia|]. split; simpl.
    + unfold kdrained, uio_adv. rewrite !Z.add_0_r, !Z.sub_0_r. by destruct s as [[] ? ? ? ?].
    + exists sv. unfold kdata. rewrite ztake_0. apply keeps_written, keeps_same; done.
  - by intros [] t (_ & ?).
  - intros e t (k & Hk & Hs & He & _ & ?). by exists k.
Qed.

(** Changing the recorded size changes neither the block map nor the bytes. *)
Lemma grows_set_size p sv sv1 w w1 n :
  grows p sv sv1 w w1 → word32 n →
  let sv2 := upd_inode (set_size n) sv1 in
  let w2 := set_svs (<[p := sv2]> (w_sv w1)) w1 in
  grows p sv sv2 w w2 ∧ ∀ o, fbyte w2 (sv_i sv2) o = fbyte w1 (sv_i sv1) o.
Proof.
  intros [] Hn sv2 w2. split; [|done]. split; try done; try (by right).
  - by apply set_svs_fs_ok.
  - simpl. rewrite gr_svs. by rewrite insert_insert_eq.
  - destruct gr_file as [[] ? ?]. split; [by split|done|done].
Qed.

Definition write_post p sv w s (k : Z) (t : W * ustate) : Prop :=
  t.2 = kdrained k s ∧ ∃ sv', grows p sv sv' w t.1 ∧
    sfi_size (sv_i sv') = Z.max (sfi_size (sv_i sv)) (uio_offset (u_uio s) + k) ∧
    (∀ o, fbyte t.1 (sv_i sv') o =
          wbytes (fbyte w (sv_i sv)) (uio_offset (u_uio s)) (kdata k s) o) ∧
    (0 < k → uio_offset (u_uio s) + k ≤ 143 * SFS_BLOCKSIZE).
Definition write_fail p sv w s (n : Z) (e : errno) (t : W * ustate) : Prop :=
  ∃ k, 0 ≤ k ≤ n ∧ io_stop (uio_offset (u_uio s)) n k ∧
       write_err (uio_offset (u_uio s) + k) e ∧ write_post p sv w s k t.

Lemma io_out_write p sv w s k r t :
  kuio_ok s → uio_rw (u_uio s) = UIO_WRITE → 0 ≤ k ≤ uio_resid (u_uio s) →
  0 ≤ sfi_size (sv_i sv) < 2147483648 → write_step p sv w s (uio_offset (u_uio s)) k t →
  ∃ t', sfs_io_out p 0 r t = match r with inl e => Err e t' | inr _ => Ok tt t' end ∧
        write_post p sv w s k t'.
Proof.
  intros Hu Hrw Hk Hsz (Hs & sv1 & Hg & Hsz1 & Hby & Hfit). destruct t as [w1 s1]; simpl in *. subst s1.
  pose proof Hu as []. pose proof (grows_here _ _ _ _ _ Hg) as Hp1.
  rewrite zlen_kdata in Hfit by (done || lia).
  unfold sfs_io_out, the_uio, gets, bind, onw, get_sv, zoom, upd_uio, onu, set_uio, modify.
  simpl. rewrite Hp1. unfold is_write; simpl. rewrite Hrw, Hsz1; simpl.
  rewrite (i32_small (sfi_size _)) by lia.
  assert (Hrs : set_resid (uio_resid (u_uio s) - k) (uio_adv k (u_uio s)) = uio_adv k (u_uio s)) by done.
  destruct (Z.gtb_spec (uio_offset (u_uio s) + k) (sfi_size (sv_i sv))) as [Hgt|Hle]; simpl;
    rewrite (u32_small (_ - k + 0)), Z.add_0_r by lia.
  - eexists. split; [by destruct r|]. rewrite Hrs. split; [done|]. rewrite u32_small by lia.
    destruct (grows_set_size p sv sv1 w w1 (uio_offset (u_uio s) + k)) as [Hg2 Hb2]; [done|unfold word32; lia|].
    exists (upd_inode (set_size (uio_offset (u_uio s) + k)) sv1). simpl. split_and!; [done|lia| |done].
    intros o. by rewrite <- Hby, <- Hb2.
  - eexists. split; [by destruct r|]. rewrite Hrs. split; [done|]. exists sv1. simpl.
    split_and!; [done|lia|done|done].
Qed.

Lemma sfs_io_write p sv w s :
  fs_ok w → w_sv w !! p = Some sv → file_ok w (sv_i sv) → kuio_ok s →
  uio_rw (u_uio s) = UIO_WRITE → bytes (u_kbuf s) → sfi_size (sv_i sv) < 2147483648 →
  let n := uio_resid (u_uio s) in
  wp (sfs_io p) (λ _, write_post p sv w s n) (write_fail p sv w s n) (w, s).
Proof.
  intros Hok Hp Hf Hu Hrw Hby Hsz n. pose proof Hu as [].
  destruct (fi_wf _ _ Hf) as [Hsz0 _ _ _ _ _]. unfold word32 in Hsz0.
  unfold sfs_io. wp_bind. apply wp_gets. wp_bind. apply wp_zoom. unfold wp at 1, get_sv. simpl.
  rewrite Hp. unfold is_read. rewrite Hrw. cbn [andb bool_decide decide_rel].
  wp_bind. apply wp_ret. wp_bind. apply wp_try. wp_use (write_blocks p sv); [done..| |].
  - intros [] t Ht. destruct (io_out_write p sv w s n (inr tt) t) as (t' & Hout & Hpost);
      try done; try lia.
    unfold wp. by rewrite Hout.
  - intros e t (k & Hk & Hst & He & Ht).
    destruct (io_out_write p sv w s k (inl e) t) as (t' & Hout & Hpost); try done; try lia.
    unfold wp. rewrite Hout. by exists k.
Qed.
End steps.
