(* ===== verification/SfsFileThm.v ===== *)
(** * SFS files: the theorems

    Reading and writing are functionally correct, files are isolated from
    each other, and a volume on a simulated disk to check the statements
    against. *)

From S2P Require Import Prelude Kmem KArray KBitmap CopyInOut Uio BlockDev Lhd Vnode SfsDisk.
From S2P Require Import SfsCore SfsSpec SfsMap SfsFile SfsFileSpec.

Section theorems.
Context {D H : Type} `{!BlockDev D, !BlockDevOk D}.
Notation W := (world D H).
Implicit Types (w : W) (sv : sfs_vnode) (s : ustate) (j : sfs_inode).

(** ** Isolation *)

Lemma grows_isolates p sv sv' w w' j :
  grows p sv sv' w w' → file_ok w j → apart w (sv_i sv) j →
  file_ok w' j ∧ apart w' (sv_i sv') j ∧ ∀ o, fbyte w' j o = fbyte w j o.
Proof.
  intros [] Hj Hap.
  assert (Hsec : ∀ b, b ∈ owned w j → sec w' b = sec w b).
  { intros b Hb. apply gr_sec; [by apply Hj|]. intros Hin. by eapply Hap. }
  destruct (file_unchanged w w' j Hj (meta_nblk w w' gr_meta)) as [Hj' Hb'].
  { intros b Hb. apply gr_used. by apply Hj. }
  { done. }
  split_and!; [done| |done].
  intros b Hb. rewrite (owned_unchanged w w' j Hsec). intros Hbj.
  destruct (gr_owned b Hb) as [Hin|Hfree]; [by eapply Hap|]. apply Hfree. by apply Hj.
Qed.

(** ** The properties *)

(** [sfs_bmap] returns the block the file has at that position; with
    [doalloc] there always is one afterwards.  It changes neither the bytes
    nor the size of the file, whatever it returns, and fails only with
    EINVAL past the largest file, ENOSPC when allocating, or EIO. *)
Theorem sfs_bmap_correct doalloc p sv w fb :
  fs_ok w → w_sv w !! p = Some sv → file_ok w (sv_i sv) → 0 ≤ fb →
  wp (sfs_bmap p fb doalloc)
     (λ b w', ∃ sv', grows p sv sv' w w' ∧ sfi_size (sv_i sv') = sfi_size (sv_i sv) ∧
        (∀ o, fbyte w' (sv_i sv') o = fbyte w (sv_i sv) o) ∧
        zget (ptrs w' (sv_i sv')) fb = Some b ∧ (doalloc = true → b ≠ 0))
     (λ e w', (e = EINVAL ∧ 143 ≤ fb ∨ e = ENOSPC ∧ doalloc = true ∨ e = EIO) ∧
        ∃ sv', grows p sv sv' w w' ∧ ∀ o, fbyte w' (sv_i sv') o = fbyte w (sv_i sv) o) w.
Proof.
  intros. wp_use (sfs_bmap_spec doalloc p sv); [done..| |].
  - intros b w' (sv' & (? & ? & ? & _) & ? & ?). by exists sv'.
  - intros e w' (sv' & (? & ? & ? & _) & ?). split; [done|]. by exists sv'.
Qed.

(** C2 Reading: the buffer receives the bytes of the file from the offset on,
    up to the end of the file or of the request, and nothing changes on the
    volume.  When the disk fails, a prefix has been delivered and the
    descriptor says how much. *)
Theorem sfs_read_correct p sv w s :
  fs_ok w → w_sv w !! p = Some sv → file_ok w (sv_i sv) → kuio_ok s →
  uio_rw (u_uio s) = UIO_READ → sfi_size (sv_i sv) < 2147483648 →
  let off := uio_offset (u_uio s) in
  let n := Z.max 0 (Z.min (uio_resid (u_uio s)) (sfi_size (sv_i sv) - off)) in
  wp (sfs_io p)
     (λ _ t, same_data w t.1 ∧ t.2 = kfilled (fbytes w (sv_i sv) off n) s)
     (λ e t, ∃ k, 0 ≤ k ≤ n ∧ (e = EIO ∨ e = EINVAL ∧ 143 ≤ (off + k) / SFS_BLOCKSIZE) ∧
             same_data w t.1 ∧ t.2 = kfilled (fbytes w (sv_i sv) off k) s) (w, s).
Proof.
  intros. wp_use (sfs_io_read p sv w s); [done..|].
  intros e t (k & Hk & _ & He & Hpost). by exists k.
Qed.


Lemma bmap_too_big p sv w fb doalloc :
  w_sv w !! p = Some sv → 143 ≤ fb → sfs_bmap p fb doalloc w = Err EINVAL w.
Proof.
  intros Hp Hfb. unfold sfs_bmap, bind, get_sv. rewrite Hp.
  unfold SFS_NDIRECT, SFS_DBPERIDB. destruct (Z.ltb_spec fb 15); [lia|].
  destruct (Z.gtb_spec ((fb - 15) / 128) 0); [done|]. Z.div_mod_to_equations. lia.
Qed.

Lemma io_too_big p sv w s :
  w_sv w !! p = Some sv → kuio_ok s → 143 * SFS_BLOCKSIZE ≤ uio_offset (u_uio s) →
  uio_offset (u_uio s) mod SFS_BLOCKSIZE = 0 → SFS_BLOCKSIZE ≤ uio_resid (u_uio s) →
  sfs_io_blocks p (w, s) = Err EINVAL (w, s).
Proof.
  intros Hp Hu Hbig Hal Hblk. pose proof Hu as [].
  assert (Hb : sfs_blockio p (w, s) = Err EINVAL (w, s)).
  { unfold sfs_blockio. erewrite bind_step by reflexivity. apply bind_err. unfold onw, zoom.
    cbn [fst snd]. rewrite fileblock_eq by done. rewrite (bmap_too_big p sv); [done|done|].
    unfold SFS_BLOCKSIZE in *. Z.div_mod_to_equations. lia. }
  unfold sfs_io_blocks. erewrite bind_step by reflexivity. cbn [snd].
  rewrite Z.rem_mod_nonneg, Hal by (unfold SFS_BLOCKSIZE; lia).
  erewrite bind_step by reflexivity. erewrite bind_step by reflexivity. cbn [snd].
  destruct (Z.eqb_spec (uio_resid (u_uio s)) 0); [unfold SFS_BLOCKSIZE in *; lia|].
  rewrite Z.rem_mod_nonneg, Hal by (unfold SFS_BLOCKSIZE; lia).
  erewrite bind_step by reflexivity. apply bind_err.
  replace (Z.to_nat (uio_resid (u_uio s) / SFS_BLOCKSIZE))
    with (S (Z.to_nat (uio_resid (u_uio s) / SFS_BLOCKSIZE - 1)))
    by (unfold SFS_BLOCKSIZE in *; Z.div_mod_to_equations; lia).
  by apply bind_err.
Qed.

(** A write that starts past the largest possible file fails with EINVAL and
    writes nothing, yet leaves the size of the file at the offset of the
    failed write. *)
Theorem failed_write_extends p sv w s :
  w_sv w !! p = Some sv → kuio_ok s → uio_rw (u_uio s) = UIO_WRITE →
  0 ≤ sfi_size (sv_i sv) < uio_offset (u_uio s) →
  143 * SFS_BLOCKSIZE ≤ uio_offset (u_uio s) →
  uio_offset (u_uio s) mod SFS_BLOCKSIZE = 0 → SFS_BLOCKSIZE ≤ uio_resid (u_uio s) →
  sfs_io p (w, s) =
  Err EINVAL (set_svs (<[p := upd_inode (set_size (uio_offset (u_uio s))) sv]> (w_sv w)) w, s).
Proof.
  intros Hp Hu Hrw Hsz Hbig Hal Hblk. pose proof Hu as [].
  pose proof (io_too_big p sv w s Hp Hu Hbig Hal Hblk) as Hio.
  unfold sfs_io, the_uio, bind, gets, onw, zoom, get_sv. simpl. rewrite Hp.
  unfold is_read. rewrite Hrw. simpl. unfold try. rewrite Hio. unfold sfs_io_out, the_uio, bind, gets, onw, zoom, get_sv.
  simpl. rewrite Hp. unfold is_write. rewrite Hrw. simpl.
  rewrite i32_small by lia. destruct (Z.gtb_spec (uio_offset (u_uio s)) (sfi_size (sv_i sv))); [|lia].
  simpl. rewrite !u32_small by lia. rewrite Z.add_0_r. by destruct s as [[] ? ? ? ?].
Qed.
End theorems.

(** ** A small volume

    Eight blocks: superblock, root directory, free map, one file's inode in
    block 3, and four more blocks; [m] is the first byte of the free map. *)
Module ToyVol.

Definition super : sfs_super := mksuper SFS_MAGIC 8 (replicate 32 0) (replicate 118 0).
Definition freemap (m : Z) : bitmap := mkbitmap 32 4096 48 (m :: replicate 511 255).
Definition inode (ty : Z) : sfs_inode := mkinode 0 ty 1 (replicate 15 0) 0 (replicate 110 0).
Definition file : sfs_vnode := mksv (inode SFS_TYPE_FILE) 3 false.
Definition fs (m : Z) : sfs_fs :=
  mksfs 16 super false (mkarray 96 1 4 112 [Some 100; None; None; None]) (freemap m) false.
Definition vol (data : list (list Z)) (m : Z) (svs : gmap Z sfs_vnode) :
    world (lhd_softc SimDisk.disk) Toy.heap :=
  mkworld (SimDisk.dev (SimDisk.mkdisk data [] [])) (mkvst (Toy.fresh 1000) ∅ ∅ 5) (fs m) svs.
Definition vols : world (lhd_softc SimDisk.disk) Toy.heap :=
  vol (replicate 8 zeroblock) 15 {[100 := file]}.

Lemma dinv_dev data :
  length data = 8%nat → Forall block_ok data → dinv (SimDisk.dev (SimDisk.mkdisk data [] [])).
Proof.
  intros Hl Hf. split; [|by apply Forall_nil_2]. apply SimDisk.dev_idle. split; [|done].
  unfold SimDisk.dk_data, zlen. by rewrite Hl.
Qed.

Lemma bit_tail m b : 8 ≤ b < 4096 → bit_set (freemap m) b = true.
Proof.
  intros Hb. unfold bit_set, freemap. cbn [b_v].
  change (m :: replicate 511 255) with ([m] ++ replicate 511 255).
  rewrite zget_app_r by (unfold zlen; simpl; Z.div_mod_to_equations; lia).
  unfold zget. rewrite decide_True by (unfold zlen; simpl; Z.div_mod_to_equations; lia).
  rewrite lookup_replicate_2 by (unfold zlen; cbn [length]; Z.div_mod_to_equations; lia). cbn [default].
  change 255 with (Z.ones 8). apply Z.ones_spec_low. pose proof (Z.mod_pos_bound b 8). lia.
Qed.

Lemma vol_ok data m svs :
  length data = 8%nat → Forall block_ok data → 0 ≤ m < 256 → Z.testbit m 0 = true →
  fs_ok (vol data m svs).
Proof.
  intros Hl Hd Hm H0.
  assert (Hz : zlen (b_v (freemap m)) = 512) by reflexivity.
  split; try done.
  - by apply dinv_dev.
  - cbn. unfold zlen. by rewrite Hl.
  - split; [done|reflexivity|]. cbn [b_v]. apply Forall_cons. split; [done|]. by apply Forall_replicate.
  - intros b. change (zlen (b_v (sfs_freemap (w_fs (vol data m svs))))) with 512.
    change (nbits (sfs_freemap (w_fs (vol data m svs)))) with 4096. lia.
  - intros b Hb. split; [cbn in Hb; lia|]. apply bit_tail. exact Hb.
Qed.
Lemma vols_ok : fs_ok vols.
Proof.
  apply vol_ok; try done. apply Forall_replicate. split; [done|apply bytes_zeros].
Qed.

Lemma owned_empty (w : world (lhd_softc SimDisk.disk) Toy.heap) ty : owned w (inode ty) = [].
Proof. reflexivity. Qed.
Lemma inode_ok (w : world (lhd_softc SimDisk.disk) Toy.heap) ty :
  word16 ty → file_ok w (inode ty).
Proof.
  intros Hty. split; rewrite ?owned_empty; [|by intros b ?%elem_of_nil|constructor].
  split; try done; unfold inode; cbn [sfi_direct sfi_waste]; (split; [done|]);
    by apply Forall_replicate.
Qed.

(** A descriptor over [data] at offset [off]. *)
Definition kuio (off : Z) (rw : enum_uio_rw) (data : list Z) : ustate :=
  mkustate (mk_kuio 0 (zlen data) off rw) data ∅ [] 0.
Lemma kuio_is_ok off rw data :
  0 ≤ off → off + zlen data < 2147483648 → kuio_ok (kuio off rw data).
Proof. intros. pose proof (zlen_nonneg data). split; simpl; try done; lia. Qed.

End ToyVol.

Lemma sfs_bmap_correct_witness :
  wp (sfs_bmap 100 2 true) (λ b w', b ≠ 0) (λ e w', e ≠ EINVAL) ToyVol.vols.
Proof.
  eapply wp_mono; [apply (sfs_bmap_correct true 100 ToyVol.file ToyVol.vols 2)|..].
  - exact ToyVol.vols_ok.
  - reflexivity.
  - apply ToyVol.inode_ok. split; reflexivity || discriminate.
  - lia.
  - intros b w' (sv' & _ & _ & _ & _ & Hb). apply Hb. reflexivity.
  - intros e w' [He _] ->. destruct He as [[_ He]|[[He _]|He]]; [lia|discriminate He|discriminate He].
Defined.

Lemma sfs_read_correct_witness :
  wp (sfs_io 100) (λ _ t, u_kbuf t.2 = [7; 8]) (λ e t, True)
     (ToyVol.vols, ToyVol.kuio 0 UIO_READ [7; 8]).
Proof.
  eapply wp_mono;
    [apply (sfs_read_correct 100 ToyVol.file ToyVol.vols (ToyVol.kuio 0 UIO_READ [7; 8]))|..].
  - exact ToyVol.vols_ok.
  - reflexivity.
  - apply ToyVol.inode_ok. split; reflexivity || discriminate.
  - apply ToyVol.kuio_is_ok; vm_compute; congruence.
  - reflexivity.
  - reflexivity.
  - intros _ t [_ Ht]. rewrite Ht. reflexivity.
  - intros. exact I.
Defined.


Lemma failed_write_extends_witness :
  ∃ t, sfs_io 100 (ToyVol.vols, ToyVol.kuio 1048576 UIO_WRITE zeroblock) = Err EINVAL t ∧
       option_map (λ sv, sfi_size (sv_i sv)) (w_sv t.1 !! 100) = Some 1048576.
Proof.
  eexists. split.
  - apply (failed_write_extends 100 ToyVol.file ToyVol.vols).
    + reflexivity.
    + apply ToyVol.kuio_is_ok; vm_compute; congruence.
    + reflexivity.
    + split; reflexivity || discriminate.
    + vm_compute. discriminate.
    + reflexivity.
    + vm_compute. discriminate.
  - reflexivity.
Defined.
