(* ===== verification/SfsLhd.v ===== *)
(** * SFS block I/O on the real disk driver

    What [sfs_rwblock]'s retries do when the disk reports an error, with the
    driver of Lhd underneath. *)

From S2P Require Import Prelude CopyInOut Uio BlockDev Lhd Vnode SfsDisk SfsCore SfsSpec.

Section retry.
Context {W H : Type} `{!LhdHw W, !LhdHwOk W}.
Notation lhd := (lhd_softc W).
Implicit Types (l : lhd) (s : ustate).

(** A request for no bytes succeeds without touching the disk. *)
Lemma lhd_io_nothing l s b :
  0 ≤ b ≤ lh_blocks l → lh_blocks l < 4194304 → uio_offset (u_uio s) = LHD_SECTSIZE * b →
  uio_resid (u_uio s) = 0 → lhd_io (l, s) = Ok tt (l, s).
Proof.
  intros Hb Hbl Hoff Hres. unfold lhd_io, bind, gets. simpl. rewrite Hoff, Hres.
  rewrite (Z.mul_comm _ b), Z.quot_mul, Z.rem_mul by done. rewrite (u32_small b) by lia. simpl.
  rewrite Z.add_0_r, u32_small by lia. destruct (Z.gtb_spec b (lh_blocks l)); [lia|done].
Qed.

(** The first attempt fails after the descriptor has been used up; the retry
    has nothing left to write. *)
Lemma rwblock_lost_write l s b code buf' w' :
  lhd_idle l → 0 ≤ b < lh_blocks l → block_uio s b → uio_rw (u_uio s) = UIO_WRITE →
  bytes (kdata LHD_SECTSIZE s) →
  hw_op true b (kdata LHD_SECTSIZE s) (lh_hw l) = (code, buf', w') → code = LHD_MEDIA →
  sfs_rwblock (l, s) =
  Ok tt (set_clear 1 (finished l true b (kdata LHD_SECTSIZE s)), kdrained LHD_SECTSIZE s).
Proof.
  intros Hl Hb Hu Hrw Hby Hop ->. pose proof Hu as (Hok & Hoff & Hres).
  unfold SECTSIZE, LHD_SECTSIZE in *.
  pose proof (hw_size _ (li_hw _ Hl)). pose proof (li_blocks _ Hl).
  assert (Hlen : zlen (kdata 512 s) = 512) by (apply zlen_kdata; done || lia).
  destruct (finished_idle l true b (kdata 512 s)) as (_ & Hbl & _); [done..|].
  set (l' := set_clear 1 (finished l true b (kdata 512 s))).
  assert (Hfirst : lhd_io (l, s) = Err EIO (l', kdrained 512 s)).
  { rewrite (lhd_io_block l s b) by done. rewrite Hrw, bool_decide_true by done.
    rewrite (lhd_sector_write l s b); try done.
    - fold l'. assert (lh_result (finished l true b (kdata LHD_SECTSIZE s)) = Some EIO) as ->; [|done].
      unfold finished, LHD_SECTSIZE. by rewrite Hop.
    - rewrite Z.add_0_r. apply u32_small. lia.
    - unfold LHD_SECTSIZE. lia. }
  assert (Hsecond : lhd_io (l', kdrained 512 s) = Ok tt (l', kdrained 512 s)).
  { apply (lhd_io_nothing _ _ (b + 1)); simpl; unfold LHD_SECTSIZE; rewrite ?Hbl; lia. }
  unfold sfs_rwblock, sfs_rwblock_retry, bind, try. cbn [d_io lhd_dev].
  rewrite Hfirst. simpl. by rewrite Hsecond.
Qed.

(** A write error is lost: when the disk reports a media error for the only
    write it is asked to do, [sfs_wblock] still returns success, because the
    descriptor was used up by the failed attempt and the retry transfers no
    bytes. *)
Theorem sfs_wblock_loses_errors (w : world lhd H) data b buf' w' :
  lhd_idle (w_dev w) → 0 ≤ b < lh_blocks (w_dev w) → b < 4194303 → block_ok data →
  hw_op true b data (lh_hw (w_dev w)) = (LHD_MEDIA, buf', w') →
  ∃ l', sfs_wblock data b w = Ok tt (set_dev l' w) ∧ lh_hw l' = w'.
Proof.
  intros Hl Hb Hb2 [Hlen Hby] Hop.
  pose proof (SFSUIO_block data b UIO_WRITE Hlen ltac:(lia)) as Hu.
  assert (Hk : kdata LHD_SECTSIZE (SFSUIO data b UIO_WRITE) = data).
  { unfold kdata, SFSUIO; simpl. rewrite zdrop_0. apply ztake_all. by rewrite Hlen. }
  exists (set_clear 1 (finished (w_dev w) true b data)). split.
  - unfold sfs_wblock, bind, with_uio.
    rewrite (rwblock_lost_write (w_dev w) _ b LHD_MEDIA buf' w'); rewrite ?Hk; done.
  - unfold finished. by rewrite Hop.
Qed.
End retry.

(** A disk whose next write fails. *)
Definition failing_world : world (lhd_softc SimDisk.disk) unit :=
  mkworld (SimDisk.dev (toy_disk [] [true])) (mkvst tt ∅ ∅ 5)
    (mksfs 0 (dec_super zeroblock) false (KArray.mkarray 0 0 0 0 [])
       (KBitmap.mkbitmap 0 0 0 []) false) ∅.

Lemma sfs_wblock_loses_errors_witness :
  ∃ l', sfs_wblock zeroblock 1 failing_world = Ok tt (set_dev l' failing_world) ∧
        SimDisk.sec (lh_hw l') 1 = replicate 512 8.
Proof.
  destruct (sfs_wblock_loses_errors failing_world zeroblock 1 zeroblock (toy_disk [] []))
    as (l' & Hrun & Hhw).
  - apply SimDisk.dev_idle, toy_disk_inv.
  - vm_compute. split; [discriminate|reflexivity].
  - reflexivity.
  - split; [reflexivity|]. apply bytes_zeros.
  - reflexivity.
  - exists l'. split; [exact Hrun|]. rewrite Hhw. reflexivity.
Defined.
