(* ===== verification/SfsTrunc.v ===== *)
(** * SFS: truncation ([sfs_truncate] of kern/fs/sfs/sfs_vnode.c) *)

From S2P Require Import Prelude Kmem KArray KBitmap CopyInOut Uio BlockDev Lhd Vnode SfsDisk.
From S2P Require Import SfsCore SfsSpec SfsMap SfsFile SfsFileSpec SfsFileThm.

Section truncate.
Context {D H : Type} `{!BlockDev D}.
Notation W := (world D H).

(** One round of the loop over the direct blocks. *)
Definition trunc_direct (sv blocklen i : Z) : M W unit :=
  let! v := get_sv sv in
  match zget (sfi_direct (sv_i v)) i with
  | None => panic
  | Some block =>
      when ((blocklen <=? i) && negb (block =? 0))
        (sfs_bfree block ;;; put_sv sv (upd_inode (set_direct i 0) v))
  end.

(** The loop over [idbuf] from slot [j] on: the new contents, [hasnonzero] and
    [iddirty]. *)
Fixpoint trunc_idbuf (blocklen j : Z) (idbuf : list Z) : M W (list Z * bool * bool) :=
  match idbuf with
  | [] => ret ([], false, false)
  | b :: rest =>
      let! ' (b', d) :=
        (if (blocklen <? SFS_NDIRECT + j) && negb (b =? 0)
         then sfs_bfree b ;;; ret (0, true) else ret (b, false)) in
      let! ' (rest', nz, d') := trunc_idbuf blocklen (j + 1) rest in
      ret (b' :: rest', negb (b' =? 0) || nz, d || d')
  end.

(** The indirect block [idblock] of the vnode [v]: cut it, and free it when
    nothing is left in it. *)
Definition trunc_indirect (sv blocklen : Z) (v : sfs_vnode) (idblock : Z) : M W unit :=
  let! l := sfs_rblock zeroblock idblock in
  let! ' (idbuf, hasnonzero, iddirty) := trunc_idbuf blocklen 0 (dec_idbuf l) in
  if negb hasnonzero then
    sfs_bfree idblock ;;; put_sv sv (upd_inode (set_indirect 0) v)
  else when iddirty (sfs_wblock (enc_words idbuf) idblock).

Definition sfs_truncate (sv len : Z) : M W unit :=
  let blocklen := u32 (Z.quot (i32 (len + SFS_BLOCKSIZE - 1)) SFS_BLOCKSIZE) in
  for_range 15 0 (trunc_direct sv blocklen) ;;;
  let! v := get_sv sv in
  let idblock := sfi_indirect (sv_i v) in
  let baseblock := SFS_NDIRECT in
  let highblock := baseblock + SFS_DBPERIDB - 1 in
  when ((blocklen <? highblock) && negb (idblock =? 0))
    (trunc_indirect sv blocklen v idblock) ;;;
  let! v := get_sv sv in
  put_sv sv (upd_inode (set_size (u32 len)) v).

End truncate.

(** ** Correctness *)

Section proofs.
Context {D H : Type} `{!BlockDev D, !BlockDevOk D}.
Notation W := (world D H).
Implicit Types (w : W) (i : sfs_inode) (sv : sfs_vnode).

(** Which pointers go when the file is cut to [bl] blocks. *)
Definition clr (bl k : Z) : bool :=
  if k <? SFS_NDIRECT then bl <=? k else (bl <? 142) && (bl <? k).

Lemma filter_sublist (l l' : list Z) :
  Forall2 (λ b b', b' = b ∨ b' = 0) l l' →
  filter (λ b, b ≠ 0) l' `sublist_of` filter (λ b, b ≠ 0) l.
Proof.
  induction 1 as [|b b' l l' Hb _ IH]; [done|]. rewrite !filter_cons.
  destruct Hb as [->| ->].
  - case_decide; [by constructor|done].
  - rewrite (decide_False (P := 0 ≠ 0)) by naive_solver. case_decide; [by constructor|done].
Qed.
(** Cutting pointers and freeing exactly the blocks they led to keeps the file
    well formed and leaks nothing. *)
Lemma cut_file_ok w w' i i' (F : list Z) (cl : Z → bool) :
  file_ok w i → inode_wf i' → nblk w' = nblk w →
  (∀ c, used w' c ↔ used w c ∧ c ∉ F) →
  (∀ k, zget (ptrs w' i') k = (λ b, if cl k then 0 else b) <$> zget (ptrs w i) k) →
  (sfi_indirect i' = sfi_indirect i ∨ sfi_indirect i' = 0) →
  (∀ c, c ∈ F ↔ c ≠ 0 ∧ ((∃ k, cl k = true ∧ zget (ptrs w i) k = Some c) ∨
                         c = sfi_indirect i ∧ sfi_indirect i' = 0)) →
  file_ok w' i' ∧ (∀ c, c ∈ owned w' i' → c ∈ owned w i) ∧
  ∀ c, used w' c ↔ used w c ∧ (c ∈ owned w i → c ∈ owned w' i').
Proof.
  intros Hf Hwf Hnb Hu Hptr Hind HF.
  assert (Hsub : ∀ c, c ∈ owned w' i' → c ∈ owned w i ∧ c ∉ F).
  { intros c [Hnz Hc]%elem_of_owned.
    assert (Hc' : c = sfi_indirect i ∧ sfi_indirect i' ≠ 0 ∨
                  ∃ k, cl k = false ∧ zget (ptrs w i) k = Some c).
    { destruct Hc as [->|(n & Hn)%list_elem_of_lookup]; [left; by destruct Hind as [<-|]|right].
      rewrite <- zget_nat in Hn. exists (Z.of_nat n). rewrite Hptr in Hn.
      destruct (zget (ptrs w i) (Z.of_nat n)); simplify_eq/=. by destruct (cl (Z.of_nat n)); simplify_eq. }
    split.
    - apply elem_of_owned. split; [done|]. destruct Hc' as [[-> _]|(k & _ & Hk)]; [by left|].
      right. by eapply zget_elem.
    - rewrite HF. intros [_ [(k & Hk & Hkc)|[-> Hi0]]].
      + destruct Hc' as [[-> _]|(k' & Hk' & Hkc')]; [by eapply ptr_indirect|].
        assert (k = k') by (by eapply ptr_inj). congruence.
      + destruct Hc' as [[_ ?]|(k' & _ & Hkc')]; [done|by eapply ptr_indirect]. }
  split_and!.
  - split; [done| |].
    + intros c Hc. destruct (Hsub c Hc) as [Ho HnF]. apply Hf in Ho. rewrite Hnb, Hu. tauto.
    + apply (sublist_NoDup _ (owned w i)); [apply Hf|]. unfold owned. apply filter_sublist.
      constructor; [naive_solver|]. apply Forall2_same_length_lookup. split.
      { pose proof (zlen_ptrs w i (fi_wf _ _ Hf)). pose proof (zlen_ptrs w' i' Hwf). unfold zlen in *. lia. }
      intros n x y Hx Hy. rewrite <- zget_nat in *. rewrite Hptr, Hx in Hy. simplify_eq/=.
      case_match; auto.
  - intros c Hc. by apply Hsub.
  - intros c. rewrite Hu. split; intros [Huc Hc]; split; try done.
    + intros Ho. pose proof Ho as [Hnz Hoc]%elem_of_owned. rewrite HF in Hc.
      apply elem_of_owned. split; [done|]. destruct Hoc as [->|(n & Hn)%list_elem_of_lookup].
      * left. destruct Hind as [->|Hi0]; [done|]. destruct Hc. auto.
      * right. rewrite <- zget_nat in Hn. destruct (cl (Z.of_nat n)) eqn:Hcl; [destruct Hc; eauto|].
        eapply (zget_elem _ (Z.of_nat n)). rewrite Hptr, Hn. simpl. by rewrite Hcl.
    + intros HcF. pose proof HcF as HcF2. rewrite HF in HcF2.
      destruct (Hsub c) as [_ ?]; [|done]. apply Hc, elem_of_owned. destruct HcF2 as [? [(k & _ & Hk)|[-> _]]];
        [eauto using zget_elem|auto].
Qed.

(** ** Freeing blocks *)

Record freed (F : list Z) (w w' : W) : Prop := {
  fr_dev : w_dev w' = w_dev w;
  fr_k : w_k w' = w_k w;
  fr_meta : meta (w_fs w') = meta (w_fs w);
  fr_map : w_fs w' = w_fs w ∨ sfs_freemapdirty (w_fs w') = true;
  fr_fs : fs_ok w';
  fr_used : ∀ c, used w' c ↔ used w c ∧ c ∉ F;
}.
Lemma freed_nil w : fs_ok w → freed [] w w.
Proof. split; try done; [by left|]. intros c. pose proof (not_elem_of_nil c). tauto. Qed.
Lemma freed_trans F G w w1 w2 : freed F w w1 → freed G w1 w2 → freed (F ++ G) w w2.
Proof.
  intros [] []. split; try congruence; try done.
  - destruct fr_map1 as [->|]; [done|by right].
  - intros c. rewrite fr_used1, fr_used0, elem_of_app. tauto.
Qed.
Lemma freed_set_svs F w w' m : freed F w w' → freed F w (set_svs m w').
Proof. intros []. split; try done. by apply set_svs_fs_ok. Qed.

Lemma sfs_bfree_freed w b :
  fs_ok w → 0 < b < nblk w → used w b →
  wp (sfs_bfree b) (λ _ w', freed [b] w w' ∧ w_sv w' = w_sv w) (λ _ _, False) w.
Proof.
  intros Hok Hb Hu. wp_use sfs_bfree_spec; [done..| |done]. intros [] w' [Hr Hok'].
  pose proof Hr as (? & ? & ? & ? & ? & _). split; [|done]. split; try done; [by right|].
  intros c. rewrite (remapped_used _ _ _ _ _ Hr) by lia. rewrite list_elem_of_singleton.
  case_decide; naive_solver.
Qed.

(** ** The loop over the direct blocks *)

Definition with_direct (d : list Z) (i : sfs_inode) : sfs_inode :=
  mkinode (sfi_size i) (sfi_type i) (sfi_linkcount i) d (sfi_indirect i) (sfi_waste i).

(** After the first [n] rounds. *)
Definition direct_cut (bl p : Z) sv w (n : Z) w' : Prop :=
  ∃ d F, let sv' := mksv (with_direct d (sv_i sv)) (sv_ino sv) (sv_dirty sv || bool_decide (F ≠ [])) in
    freed F w w' ∧ w_sv w' = <[p := sv']> (w_sv w) ∧ (F = [] → d = sfi_direct (sv_i sv)) ∧
    (∀ k, zget d k = (λ b, if (bl <=? k) && (k <? n) then 0 else b) <$> zget (sfi_direct (sv_i sv)) k) ∧
    (∀ c, c ∈ F ↔ c ≠ 0 ∧ ∃ k, bl ≤ k < n ∧ zget (sfi_direct (sv_i sv)) k = Some c).

Lemma zlen_direct w i : file_ok w i → zlen (sfi_direct i) = 15.
Proof. intros [[] _ _]. unfold zlen. lia. Qed.
Lemma direct_ptr w i k : file_ok w i → k < 15 → zget (sfi_direct i) k = zget (ptrs w i) k.
Proof. intros Hf Hk. unfold ptrs. by rewrite zget_app_l by (rewrite (zlen_direct w) by done; lia). Qed.

Lemma trunc_direct_step bl p sv w n w1 :
  w_sv w !! p = Some sv → file_ok w (sv_i sv) → 0 ≤ n < 15 → 0 ≤ bl →
  direct_cut bl p sv w n w1 →
  wp (trunc_direct p bl n) (λ _, direct_cut bl p sv w (n + 1)) (λ _ _, False) w1.
Proof.
  intros Hp Hf Hn Hbl (d & F & Hfr & Hsv & Hsame & Hd & HF). pose proof Hfr as [].
  pose proof (zlen_direct _ _ Hf) as Hzl.
  destruct (zget_is_Some (sfi_direct (sv_i sv)) n) as [b Hb]; [lia|].
  assert (Hdn : zget d n = Some b).
  { rewrite Hd, Hb. simpl. by replace ((bl <=? n) && (n <? n)) with false by lia. }
  unfold trunc_direct. wp_bind. unfold wp at 1, get_sv. rewrite Hsv, lookup_insert_eq. simpl.
  rewrite Hdn. apply wp_when.
  - intros [Hln Hnz]%andb_true_iff. apply negb_true_iff, Z.eqb_neq in Hnz. apply Z.leb_le in Hln.
    assert (Hptr : zget (ptrs w (sv_i sv)) n = Some b) by (rewrite <- direct_ptr by (done || lia); done).
    destruct (fi_blocks _ _ Hf b) as [Hbr Hbu]; [by eapply ptr_owned|].
    assert (Hnew : b ∉ F).
    { rewrite HF. intros (_ & k & Hk & Hkb). rewrite (direct_ptr w) in Hkb by (done || lia).
      assert (k = n) by (by eapply ptr_inj). lia. }
    wp_bind. wp_use sfs_bfree_freed; [done|by rewrite (meta_nblk w)|by rewrite fr_used0| |done].
    intros [] w2 [Hfr2 Hsv2]. apply wp_modify.
    exists (zset d n 0), (F ++ [b]). simpl. split_and!.
    + apply freed_set_svs. by eapply freed_trans.
    + rewrite Hsv2, Hsv, insert_insert_eq. unfold upd_inode; simpl. f_equal.
      rewrite (bool_decide_true (F ++ [b] ≠ [])) by by destruct F. by rewrite orb_true_r.
    + by destruct F.
    + intros k. destruct (decide (k = n)) as [->|Hne].
      * rewrite zget_zset_eq by (by eapply zget_Some_range). rewrite Hb. simpl.
        by replace ((bl <=? n) && (n <? n + 1)) with true by lia.
      * rewrite zget_zset_ne, Hd by done.
        by replace ((bl <=? k) && (k <? n + 1)) with ((bl <=? k) && (k <? n)) by lia.
    + intros c. rewrite elem_of_app, list_elem_of_singleton, HF. split.
      * intros [(? & k & ? & ?)| ->]; (split; [done|]); [exists k|exists n]; (split; [lia|done]).
      * intros (? & k & Hk & Hkc). destruct (decide (k = n)) as [->|]; [right; congruence|].
        left. split; [done|]. exists k. split; [lia|done].
  - intros Hno. exists d, F. split_and!; try done.
    + intros k. rewrite Hd. destruct (decide (k = n)) as [->|Hne].
      * rewrite Hb. simpl. replace ((bl <=? n) && (n <? n)) with false by lia.
        case_match; [|done]. destruct (Z.eqb_spec b 0) as [->|]; [done|]. simpl in Hno. lia.
      * by replace ((bl <=? k) && (k <? n + 1)) with ((bl <=? k) && (k <? n)) by lia.
    + intros c. rewrite HF. split; intros (? & k & Hk & Hkc); (split; [done|]); exists k; (split; [|done]).
      * lia.
      * destruct (decide (k = n)) as [->|]; [|lia]. rewrite Hb in Hkc. simplify_eq.
        destruct (Z.eqb_spec c 0); [done|]. simpl in Hno. lia.
Qed.

Lemma trunc_direct_loop bl p sv w :
  fs_ok w → w_sv w !! p = Some sv → file_ok w (sv_i sv) → 0 ≤ bl →
  wp (for_range 15 0 (trunc_direct p bl)) (λ _, direct_cut bl p sv w 15) (λ _ _, False) w.
Proof.
  intros Hok Hp Hf Hbl. change 15 with (0 + Z.of_nat 15).
  apply (wp_for_range (direct_cut bl p sv w)).
  - exists (sfi_direct (sv_i sv)), []. simpl. split_and!; try done.
    + by apply freed_nil.
    + rewrite orb_false_r, insert_id; [done|]. rewrite Hp. f_equal. by destruct sv as [[] ? ?].
    + intros k. replace ((bl <=? k) && (k <? 0)) with false by lia. by destruct (zget _ k).
    + intros c. split; [by intros ?%elem_of_nil|]. intros (_ & k & ? & _). lia.
  - intros n w1 Hn. apply trunc_direct_step; done || lia.
Qed.

(** ** The loop over the indirect block *)

Fixpoint cut_idbuf (bl j : Z) (l : list Z) : list Z :=
  match l with
  | [] => []
  | b :: r => (if bl <? SFS_NDIRECT + j then 0 else b) :: cut_idbuf bl (j + 1) r
  end.
Fixpoint freed_idbuf (bl j : Z) (l : list Z) : list Z :=
  match l with
  | [] => []
  | b :: r => (if (bl <? SFS_NDIRECT + j) && negb (b =? 0) then [b] else []) ++ freed_idbuf bl (j + 1) r
  end.

Lemma trunc_idbuf_spec bl j l w :
  fs_ok w → (∀ b, b ∈ l → b ≠ 0 → 0 < b < nblk w ∧ used w b) →
  NoDup (filter (λ b, b ≠ 0) l) →
  wp (trunc_idbuf bl j l)
     (λ r w', r = (cut_idbuf bl j l, existsb (λ b, negb (b =? 0)) (cut_idbuf bl j l),
                   negb (bool_decide (freed_idbuf bl j l = []))) ∧
              freed (freed_idbuf bl j l) w w' ∧ w_sv w' = w_sv w)
     (λ _ _, False) w.
Proof.
  revert j w. induction l as [|b l IH]; intros j w Hok Hl Hnd; cbn [trunc_idbuf cut_idbuf freed_idbuf].
  { apply wp_ret. split_and!; [done|by apply freed_nil|done]. }
  rewrite filter_cons in Hnd. wp_bind.
  destruct ((bl <? SFS_NDIRECT + j) && negb (b =? 0)) eqn:Hc.
  - apply andb_true_iff in Hc as [Hlt Hnz]. rewrite Hlt. apply negb_true_iff, Z.eqb_neq in Hnz.
    rewrite decide_True in Hnd by done. apply NoDup_cons in Hnd as [Hni Hnd].
    destruct (Hl b) as [Hbr Hbu]; [by left|done|].
    wp_bind. wp_use sfs_bfree_freed; [done..| |done]. intros [] w1 [Hfr1 Hsv1].
    apply wp_ret. pose proof Hfr1 as []. wp_bind. wp_use IH; [done| |done| |done].
    + intros c Hc Hcz. destruct (Hl c) as [? ?]; [by right|done|].
      rewrite (meta_nblk w), fr_used0, list_elem_of_singleton by done. split_and!; try lia; [done|].
      intros ->. destruct Hni. by apply list_elem_of_filter.
    + intros [[l' nz] d] w2 (Hr & Hfr2 & Hsv2). simplify_eq. apply wp_ret. simpl.
      split_and!; [|by eapply (freed_trans [b])|congruence]. done.
  - apply wp_ret. wp_bind. wp_use IH; [done| | | |done].
    + intros c Hcl. apply Hl. by right.
    + case_decide; [by apply NoDup_cons in Hnd as [_ ?]|done].
    + intros [[l' nz] d] w2 (Hr & Hfr2 & Hsv2). simplify_eq. apply wp_ret. simpl.
      assert (Hb : (if bl <? SFS_NDIRECT + j then 0 else b) = b).
      { destruct (bl <? SFS_NDIRECT + j); [|done]. simpl in Hc.
        apply negb_false_iff, Z.eqb_eq in Hc. done. }
      rewrite Hb. done.
Qed.

Lemma zget_cut_idbuf bl j l k :
  0 ≤ k → zget (cut_idbuf bl j l) k = (λ b, if bl <? SFS_NDIRECT + j + k then 0 else b) <$> zget l k.
Proof.
  revert j k. induction l as [|b l IH]; intros j k Hk; cbn [cut_idbuf].
  { unfold zget. by rewrite decide_True by lia. }
  destruct (decide (k = 0)) as [->|]; [by rewrite Z.add_0_r|].
  change (?x :: ?r) with ([x] ++ r). rewrite !zget_app_r by (unfold zlen; simpl; lia).
  unfold zlen; cbn [length]. rewrite IH by lia.
  replace (SFS_NDIRECT + (j + 1) + (k - Z.of_nat 1)) with (SFS_NDIRECT + j + k) by lia. done.
Qed.
Lemma elem_of_freed_idbuf bl j l c :
  c ∈ freed_idbuf bl j l ↔
  c ≠ 0 ∧ ∃ k, 0 ≤ k ∧ bl < SFS_NDIRECT + j + k ∧ zget l k = Some c.
Proof.
  revert j. induction l as [|b l IH]; intros j; cbn [freed_idbuf].
  { split; [by intros ?%elem_of_nil|]. intros (_ & k & ? & _ & Hk).
    unfold zget in Hk. by rewrite decide_True in Hk. }
  rewrite elem_of_app, IH.
  assert (Hsh : ∀ k, 0 < k → zget (b :: l) k = zget l (k - 1)).
  { intros k Hk. change (b :: l) with ([b] ++ l). by rewrite zget_app_r by (unfold zlen; simpl; lia). }
  split.
  - intros [Hc|(? & k & ? & ? & Hk)].
    + destruct ((bl <? SFS_NDIRECT + j) && negb (b =? 0)) eqn:E; [|by apply elem_of_nil in Hc].
      apply list_elem_of_singleton in Hc as ->. split; [lia|]. exists 0. split_and!; [lia|lia|done].
    + split; [done|]. exists (k + 1). rewrite Hsh, Z.add_simpl_r by lia. split_and!; [lia|lia|done].
  - intros (Hnz & k & ? & ? & Hk). destruct (decide (k = 0)) as [->|].
    + left. assert (b = c) as -> by (unfold zget in Hk; simpl in Hk; congruence).
      replace ((bl <? SFS_NDIRECT + j) && negb (c =? 0)) with true by lia. by left.
    + right. split; [done|]. exists (k - 1). rewrite <- Hsh by lia. split_and!; [lia|lia|done].
Qed.

(** ** The whole routine *)

(** The part of the block numbers that the indirect block holds. *)
Definition idpart w i : list Z :=
  if sfi_indirect i =? 0 then replicate 128 0 else dec_idbuf (sec w (sfi_indirect i)).

(** The file was cut to [bl] blocks and its size set to [len]: a pointer is
    kept or cleared, exactly the blocks no longer owned are free, and an
    indirect block that was looked at is kept only if it is of use. *)
Definition truncated (p : Z) sv (bl len : Z) w w' : Prop :=
  ∃ sv', w_sv w' = <[p := sv']> (w_sv w) ∧ sv_ino sv' = sv_ino sv ∧
    sfi_type (sv_i sv') = sfi_type (sv_i sv) ∧
    sfi_linkcount (sv_i sv') = sfi_linkcount (sv_i sv) ∧
    sfi_size (sv_i sv') = len ∧ sv_dirty sv' = true ∧
    w_k w' = w_k w ∧ meta (w_fs w') = meta (w_fs w) ∧
    (w_fs w' = w_fs w ∨ sfs_freemapdirty (w_fs w') = true) ∧
    fs_ok w' ∧ file_ok w' (sv_i sv') ∧ (∀ c, c ∈ owned w' (sv_i sv') → c ∈ owned w (sv_i sv)) ∧
    (∀ k, zget (ptrs w' (sv_i sv')) k =
          (λ b, if clr bl k then 0 else b) <$> zget (ptrs w (sv_i sv)) k) ∧
    (∀ c, used w' c ↔ used w c ∧ (c ∈ owned w (sv_i sv) → c ∈ owned w' (sv_i sv'))) ∧
    (∀ c, sfi_indirect (sv_i sv) = 0 ∨ c ≠ sfi_indirect (sv_i sv) → sec w' c = sec w c) ∧
    (bl < 142 → sfi_indirect (sv_i sv') ≠ 0 → ∃ b, b ∈ idpart w' (sv_i sv') ∧ b ≠ 0).

Lemma ptrs_cut bl w w' i i' :
  length (sfi_direct i') = length (sfi_direct i) → zlen (sfi_direct i) = 15 →
  (∀ k, zget (sfi_direct i') k =
        (λ b, if (bl <=? k) && (k <? 15) then 0 else b) <$> zget (sfi_direct i) k) →
  (∀ k, 0 ≤ k → zget (idpart w' i') k =
        (λ b, if clr bl (k + 15) then 0 else b) <$> zget (idpart w i) k) →
  ∀ k, zget (ptrs w' i') k = (λ b, if clr bl k then 0 else b) <$> zget (ptrs w i) k.
Proof.
  intros Hlen Hzl Hd Hi k. assert (Hzl' : zlen (sfi_direct i') = 15) by (unfold zlen in *; lia).
  unfold ptrs. fold (idpart w i) (idpart w' i').
  destruct (Z.lt_ge_cases k 15).
  - rewrite !zget_app_l by lia. rewrite Hd. unfold clr, SFS_NDIRECT.
    destruct (Z.ltb_spec k 15); [|lia]. by rewrite andb_true_r.
  - rewrite !zget_app_r by lia. rewrite Hzl, Hzl', Hi by lia. by rewrite Z.sub_add.
Qed.

(** Setting the size is the last step. *)
Lemma trunc_finish p sv sv2 bl len w w2 (F : list Z) :
  file_ok w (sv_i sv) → fs_ok w2 → w_sv w2 = <[p := sv2]> (w_sv w) → sv_ino sv2 = sv_ino sv →
  sfi_type (sv_i sv2) = sfi_type (sv_i sv) →
  sfi_linkcount (sv_i sv2) = sfi_linkcount (sv_i sv) →
  w_k w2 = w_k w → meta (w_fs w2) = meta (w_fs w) →
  (w_fs w2 = w_fs w ∨ sfs_freemapdirty (w_fs w2) = true) →
  inode_wf (sv_i sv2) → 0 ≤ len < 2147483648 →
  (∀ c, used w2 c ↔ used w c ∧ c ∉ F) →
  (∀ k, zget (ptrs w2 (sv_i sv2)) k =
        (λ b, if clr bl k then 0 else b) <$> zget (ptrs w (sv_i sv)) k) →
  (sfi_indirect (sv_i sv2) = sfi_indirect (sv_i sv) ∨ sfi_indirect (sv_i sv2) = 0) →
  (∀ c, c ∈ F ↔ c ≠ 0 ∧ ((∃ k, clr bl k = true ∧ zget (ptrs w (sv_i sv)) k = Some c) ∨
                         c = sfi_indirect (sv_i sv) ∧ sfi_indirect (sv_i sv2) = 0)) →
  (∀ c, sfi_indirect (sv_i sv) = 0 ∨ c ≠ sfi_indirect (sv_i sv) → sec w2 c = sec w c) →
  (bl < 142 → sfi_indirect (sv_i sv2) ≠ 0 → ∃ b, b ∈ idpart w2 (sv_i sv2) ∧ b ≠ 0) →
  wp (let! v := get_sv p in put_sv p (upd_inode (set_size (u32 len)) v))
     (λ _, truncated p sv bl len w) (λ _ _, False) w2.
Proof.
  intros Hf Hok Hsv ? ? ? ? Hm ? Hwf Hlen Hu Hptr Hind HF Hsec Hne.
  wp_bind. unfold wp at 1, get_sv. rewrite Hsv, lookup_insert_eq. apply wp_modify.
  rewrite (u32_small len) by lia. set (sv3 := upd_inode _ sv2). set (w3 := set_svs _ w2).
  assert (Hwf3 : inode_wf (sv_i sv3)).
  { destruct Hwf. split; simpl; try done. unfold word32. lia. }
  destruct (cut_file_ok w w3 (sv_i sv) (sv_i sv3) F (clr bl)) as (Hf3 & Ho3 & Hu3); try done.
  { by apply meta_nblk. }
  exists sv3. split_and!; try done.
  - simpl. by rewrite Hsv, insert_insert_eq.
  - by apply set_svs_fs_ok.
Qed.

(** The freed blocks are the ones the cut pointers led to. *)
Lemma cut_elems bl w i (F1 F2 : list Z) :
  file_ok w i →
  (∀ c, c ∈ F1 ↔ c ≠ 0 ∧ ∃ k, bl ≤ k < 15 ∧ zget (sfi_direct i) k = Some c) →
  (∀ c, c ∈ F2 ↔ c ≠ 0 ∧ ∃ k, 0 ≤ k ∧ clr bl (k + 15) = true ∧ zget (idpart w i) k = Some c) →
  ∀ c, c ∈ F1 ++ F2 ↔ c ≠ 0 ∧ ∃ k, clr bl k = true ∧ zget (ptrs w i) k = Some c.
Proof.
  intros Hf H1 H2 c. pose proof (zlen_direct _ _ Hf) as Hzl. rewrite elem_of_app, H1, H2.
  unfold ptrs. fold (idpart w i). split.
  - intros [(? & k & ? & ?)|(? & k & ? & ? & ?)]; (split; [done|]).
    + exists k. rewrite zget_app_l by lia. split; [|done]. unfold clr, SFS_NDIRECT.
      destruct (Z.ltb_spec k 15); lia.
    + exists (k + 15). rewrite zget_app_r by lia. by rewrite Hzl, Z.add_simpl_r.
  - intros (? & k & Hk & Hc). destruct (Z.lt_ge_cases k 15).
    + left. split; [done|]. rewrite zget_app_l in Hc by lia. exists k. split; [|done].
      unfold clr, SFS_NDIRECT in Hk. destruct (Z.ltb_spec k 15); lia.
    + right. split; [done|]. rewrite zget_app_r, Hzl in Hc by lia. exists (k - 15).
      rewrite Z.sub_add. split_and!; [lia|done|done].
Qed.

(** A list cut pointwise has the same length and its elements are old ones or
    0. *)
Lemma cut_length (d l : list Z) (cl : Z → bool) :
  (∀ k, zget d k = (λ b, if cl k then 0 else b) <$> zget l k) → length d = length l.
Proof.
  intros Hd. assert (Hs : ∀ n : nat, is_Some (d !! n) ↔ is_Some (l !! n)).
  { intros n. rewrite <- !zget_nat, Hd. by rewrite fmap_is_Some. }
  assert (∀ n, n < length d ↔ n < length l)%nat as Hn.
  { intros n. rewrite <- !lookup_lt_is_Some. apply Hs. }
  pose proof (Hn (length d)). pose proof (Hn (length l)). lia.
Qed.
Lemma cut_word32 (d l : list Z) (cl : Z → bool) :
  (∀ k, zget d k = (λ b, if cl k then 0 else b) <$> zget l k) → Forall word32 l → Forall word32 d.
Proof.
  intros Hd Hl. apply Forall_lookup. intros n x Hx. rewrite <- zget_nat, Hd in Hx.
  destruct (zget l (Z.of_nat n)) as [y|] eqn:Hy; [|done]. simplify_eq/=.
  case_match; [unfold word32; lia|]. rewrite zget_nat in Hy. by eapply Forall_lookup_1.
Qed.
Lemma with_direct_wf i d (cl : Z → bool) :
  inode_wf i → (∀ k, zget d k = (λ b, if cl k then 0 else b) <$> zget (sfi_direct i) k) →
  inode_wf (with_direct d i).
Proof.
  intros [? ? ? [Hl ?] ? ?] Hd. split; try done. simpl.
  rewrite (cut_length d (sfi_direct i) cl) by done. split; [done|by eapply cut_word32].
Qed.

Lemma cut_idbuf_same bl j l : freed_idbuf bl j l = [] → cut_idbuf bl j l = l.
Proof.
  revert j. induction l as [|b l IH]; intros j; cbn [freed_idbuf cut_idbuf]; [done|].
  intros [Hb Hr]%app_eq_nil. rewrite IH by done. f_equal.
  destruct (bl <? SFS_NDIRECT + j); [|done]. simpl in Hb. by destruct (Z.eqb_spec b 0).
Qed.
Lemma all_zero (l : list Z) :
  existsb (λ b, negb (b =? 0)) l = false → l = replicate (length l) 0.
Proof.
  induction l as [|x l IH]; [done|]. simpl. intros [Hx Hl]%orb_false_iff.
  rewrite <- IH by done. f_equal. lia.
Qed.
Lemma NoDup_idpart w i :
  file_ok w i → sfi_indirect i ≠ 0 →
  NoDup (filter (λ b, b ≠ 0) (dec_idbuf (sec w (sfi_indirect i)))).
Proof.
  intros [_ _ Hnd] Hib. unfold owned, ptrs in Hnd. rewrite filter_cons_True in Hnd by done.
  apply NoDup_cons in Hnd as [_ Hnd]. rewrite filter_app in Hnd.
  apply NoDup_app in Hnd as (_ & _ & Hnd). by destruct (Z.eqb_spec (sfi_indirect i) 0).
Qed.

Section indirect.
Context (bl len p : Z) (sv : sfs_vnode) (w w1 : W) (d F1 : list Z).
Context (Hok : fs_ok w) (Hp : w_sv w !! p = Some sv) (Hf : file_ok w (sv_i sv)).
Context (Hbl : 0 ≤ bl) (Hlen : 0 ≤ len < 2147483648) (Hfr : freed F1 w w1).
Let sv1 := mksv (with_direct d (sv_i sv)) (sv_ino sv) (sv_dirty sv || bool_decide (F1 ≠ [])).
Context (Hsv : w_sv w1 = <[p := sv1]> (w_sv w)).
Context (Hd : ∀ k, zget d k =
  (λ b, if (bl <=? k) && (k <? 15) then 0 else b) <$> zget (sfi_direct (sv_i sv)) k).
Context (HF1 : ∀ c, c ∈ F1 ↔ c ≠ 0 ∧ ∃ k, bl ≤ k < 15 ∧ zget (sfi_direct (sv_i sv)) k = Some c).
Let ib := sfi_indirect (sv_i sv).
Let finish := (let! v := get_sv p in put_sv p (upd_inode (set_size (u32 len)) v)) : M W unit.

Lemma d_wf : inode_wf (with_direct d (sv_i sv)).
Proof using Hf Hd.
  apply (with_direct_wf _ _ (λ k, (bl <=? k) && (k <? 15))); [apply Hf|done].
Qed.
Lemma d_length : length d = length (sfi_direct (sv_i sv)).
Proof using Hd. by eapply (cut_length _ _ (λ k, (bl <=? k) && (k <? 15))). Qed.

(** Nothing of the indirect block is cut. *)
Lemma trunc_skip :
  142 ≤ bl ∨ ib = 0 → wp finish (λ _, truncated p sv bl len w) (λ _ _, False) w1.
Proof using All.
  intros Hskip. pose proof Hfr as []. pose proof (zlen_direct _ _ Hf) as Hzl.
  assert (Hid : ∀ k b, 0 ≤ k → zget (idpart w (sv_i sv)) k = Some b → b ≠ 0 → clr bl (k + 15) = false).
  { intros k b Hk Hb Hnz. unfold clr, SFS_NDIRECT. destruct (Z.ltb_spec (k + 15) 15); [lia|].
    destruct Hskip as [?|Hz]; [lia|]. unfold idpart in Hb. fold ib in Hb. rewrite Hz in Hb.
    change (0 =? 0) with true in Hb. apply zget_elem, elem_of_replicate_inv in Hb. done. }
  eapply (trunc_finish p sv sv1 bl len w w1 (F1 ++ [])); try done; try (by left).
  - apply d_wf.
  - intros c. by rewrite fr_used0, app_nil_r.
  - apply ptrs_cut; [apply d_length|done|apply Hd|]. intros k Hk.
    change (idpart w1 (sv_i sv1)) with (if ib =? 0 then replicate 128 0 else dec_idbuf (sec w1 ib)).
    unfold sec. rewrite fr_dev0. fold (sec w ib). fold (idpart w (sv_i sv)).
    destruct (zget (idpart w (sv_i sv)) k) as [b|] eqn:Hb; [|done]. simpl.
    destruct (decide (b = 0)) as [->|]; [by destruct (clr bl (k + 15))|]. by rewrite (Hid k b).
  - intros c. rewrite (cut_elems bl w (sv_i sv)); [|done|done|].
    + split; [intros (? & ?); auto|]. intros (? & [?|[-> ?]]); [done|]. simpl in *. done.
    + intros c'. split; [by intros ?%elem_of_nil|]. intros (? & k & ? & Hc & ?).
      by erewrite Hid in Hc.
  - intros c _. unfold sec. by rewrite fr_dev0.
  - intros ? Hib. change (ib ≠ 0) in Hib. lia.
Qed.

Section cut.
Context (Hlt : bl < 142) (Hib : ib ≠ 0).
Let l := dec_idbuf (sec w ib).

Lemma idpart_l : idpart w (sv_i sv) = l.
Proof using All. unfold idpart. fold ib. by destruct (Z.eqb_spec ib 0). Qed.
Lemma clr_id k : 0 ≤ k → clr bl (k + 15) = (bl <? SFS_NDIRECT + 0 + k).
Proof using All.
  intros Hk. unfold clr, SFS_NDIRECT. destruct (Z.ltb_spec (k + 15) 15); [lia|].
  destruct (Z.ltb_spec bl 142); [|lia]. simpl. f_equal. lia.
Qed.
Lemma freed_elems c :
  c ∈ F1 ++ freed_idbuf bl 0 l ↔
  c ≠ 0 ∧ ∃ k, clr bl k = true ∧ zget (ptrs w (sv_i sv)) k = Some c.
Proof using All.
  apply cut_elems; [done|done|]. intros c'. rewrite elem_of_freed_idbuf, idpart_l.
  split; intros (? & k & Hk & Hc & ?); (split; [done|]); exists k;
    rewrite clr_id in * by done; (split_and!; [done|lia|done]).
Qed.
Lemma l_blocks b : b ∈ l → b ≠ 0 → b ∈ owned w (sv_i sv) ∧ b ∉ F1 ∧ b ≠ ib.
Proof using All.
  intros (n & Hn)%list_elem_of_lookup Hnz. rewrite <- zget_nat in Hn.
  pose proof (zlen_direct _ _ Hf) as Hzl.
  assert (Hptr : zget (ptrs w (sv_i sv)) (Z.of_nat n + 15) = Some b).
  { unfold ptrs. fold (idpart w (sv_i sv)). rewrite zget_app_r by lia.
    by rewrite Hzl, Z.add_simpl_r, idpart_l. }
  split_and!; [by eapply ptr_owned| |by eapply ptr_indirect].
  rewrite HF1. intros (_ & k & Hk & Hkb). rewrite (direct_ptr w) in Hkb by (done || lia).
  assert (k = Z.of_nat n + 15) by (by eapply ptr_inj). lia.
Qed.
Lemma ib_free : 0 < ib < nblk w ∧ used w ib ∧ ib ∉ F1 ++ freed_idbuf bl 0 l.
Proof using All.
  destruct (fi_blocks _ _ Hf ib) as [? ?]; [apply elem_of_owned; auto|]. split_and!; try done; try lia.
  rewrite freed_elems. intros (_ & k & _ & Hk). by eapply ptr_indirect.
Qed.

(** The rest of the routine once the indirect block is dealt with. *)
Lemma cut_finish w3 sv3 F3 :
  fs_ok w3 → w_sv w3 = <[p := sv3]> (w_sv w) → w_k w3 = w_k w →
  meta (w_fs w3) = meta (w_fs w) → (w_fs w3 = w_fs w ∨ sfs_freemapdirty (w_fs w3) = true) →
  sv_ino sv3 = sv_ino sv →
  (sv_i sv3 = with_direct d (sv_i sv) ∧ F3 = [] ∨
   sv_i sv3 = set_indirect 0 (with_direct d (sv_i sv)) ∧ F3 = [ib]) →
  (∀ c, used w3 c ↔ used w c ∧ c ∉ F1 ++ freed_idbuf bl 0 l ++ F3) →
  (∀ k, 0 ≤ k → zget (idpart w3 (sv_i sv3)) k = zget (cut_idbuf bl 0 l) k) →
  (∀ c, c ≠ ib → sec w3 c = sec w c) →
  (F3 = [] → existsb (λ b, negb (b =? 0)) (cut_idbuf bl 0 l) = true) →
  wp finish (λ _, truncated p sv bl len w) (λ _ _, False) w3.
Proof using All.
  intros Hok3 Hsv3 Hk3 Hm3 Hmap3 Hino Hi3 Hu3 Hid Hsec3 Hne.
  pose proof (zlen_direct _ _ Hf) as Hzl. pose proof d_wf as Hwf.
  eapply (trunc_finish p sv sv3 bl len w w3 (F1 ++ freed_idbuf bl 0 l ++ F3)); try done.
  - by destruct Hi3 as [[-> _]|[-> _]].
  - by destruct Hi3 as [[-> _]|[-> _]].
  - destruct Hi3 as [[-> _]|[-> _]]; [done|]. destruct Hwf. by split.
  - assert (Hdir : sfi_direct (sv_i sv3) = d) by (by destruct Hi3 as [[-> _]|[-> _]]).
    apply ptrs_cut; [rewrite Hdir; apply d_length|done|by rewrite Hdir|].
    intros k Hk. rewrite Hid, zget_cut_idbuf, idpart_l by done. by rewrite <- clr_id by done.
  - destruct Hi3 as [[-> _]|[-> _]]; auto.
  - intros c. rewrite app_assoc, elem_of_app, freed_elems.
    destruct Hi3 as [[-> ->]|[-> ->]]; simpl.
    + pose proof (not_elem_of_nil c). fold ib. naive_solver.
    + rewrite list_elem_of_singleton. fold ib. naive_solver.
  - intros c [?|Hc]; [done|by apply Hsec3].
  - intros _ Hi0. destruct Hi3 as [[_ Hnil]|[Hi3 _]]; [|by rewrite Hi3 in Hi0].
    destruct (proj1 (existsb_exists _ _) (Hne Hnil)) as (b & Hb & Hnz).
    apply list_elem_of_In, list_elem_of_lookup in Hb as [n Hn]. exists b. split; [|by destruct (Z.eqb_spec b 0)].
    eapply (zget_elem _ (Z.of_nat n)). by rewrite Hid, zget_nat by lia.
Qed.

(** The state after the loop over the indirect block. *)
Record mid (w3 : W) : Prop := {
  md_fs : fs_ok w3;
  md_sv : w_sv w3 = <[p := sv1]> (w_sv w);
  md_k : w_k w3 = w_k w;
  md_meta : meta (w_fs w3) = meta (w_fs w);
  md_map : w_fs w3 = w_fs w ∨ sfs_freemapdirty (w_fs w3) = true;
  md_used : ∀ c, used w3 c ↔ used w c ∧ c ∉ F1 ++ freed_idbuf bl 0 l;
  md_sec : ∀ c, sec w3 c = sec w c;
}.

Lemma zget_cut k :
  zget (cut_idbuf bl 0 l) k = (λ b, if bl <? SFS_NDIRECT + 0 + k then 0 else b) <$> zget l k.
Proof using All.
  destruct (decide (0 ≤ k)); [by apply zget_cut_idbuf|]. unfold zget. by rewrite !decide_False.
Qed.
Lemma length_cut : length (cut_idbuf bl 0 l) = 128%nat.
Proof using All.
  rewrite (cut_length _ _ (λ k, bl <? SFS_NDIRECT + 0 + k) zget_cut). apply length_rdwords.
Qed.

Lemma cut_write w3 :
  mid w3 → existsb (λ b, negb (b =? 0)) (cut_idbuf bl 0 l) = true →
  wp (sfs_wblock (enc_words (cut_idbuf bl 0 l)) ib)
    (λ _ w', wp finish (λ _, truncated p sv bl len w) (λ _ _, False) w') (λ _ _, False) w3.
Proof using All.
  intros [] Hnz. destruct ib_free as (Hibr & _ & _).
  destruct (dec_idbuf_wf (sec w ib)) as (_ & Hlw & _).
  { destruct Hok. apply sector_ok; [done|lia]. }
  wp_use sfs_wblock_spec;
    [done|rewrite (meta_nblk w) by done; lia|apply enc_idbuf_block, length_cut| |done].
  intros [] w4 Hw4. pose proof (wrote_fs_ok _ _ _ _ md_fs0 Hw4).
  destruct Hw4 as (_ & _ & Hs4 & Hk4 & Hfs4 & Hsv4).
  apply (cut_finish w4 sv1 []); try congruence; try done.
  - by left.
  - intros c. rewrite app_nil_r, <- md_used0. unfold used. by rewrite Hfs4.
  - intros k Hk. unfold idpart. change (sfi_indirect (sv_i sv1)) with ib.
    destruct (Z.eqb_spec ib 0); [done|]. rewrite Hs4, decide_True by done.
    rewrite dec_enc_idbuf; [done|apply length_cut|].
    eapply (cut_word32 _ l _ zget_cut), Hlw.
  - intros c Hc. by rewrite Hs4, decide_False.
Qed.

Lemma cut_keep w3 :
  mid w3 → existsb (λ b, negb (b =? 0)) (cut_idbuf bl 0 l) = true → freed_idbuf bl 0 l = [] →
  wp finish (λ _, truncated p sv bl len w) (λ _ _, False) w3.
Proof using All.
  intros [] Hnz Hnil. apply (cut_finish w3 sv1 []); try done.
  - by left.
  - intros c. by rewrite app_nil_r.
  - intros k Hk. rewrite cut_idbuf_same by done. unfold idpart.
    change (sfi_indirect (sv_i sv1)) with ib. destruct (Z.eqb_spec ib 0); [done|].
    by rewrite md_sec0.
Qed.

Lemma cut_free w3 :
  mid w3 → existsb (λ b, negb (b =? 0)) (cut_idbuf bl 0 l) = false →
  wp (sfs_bfree ib ;;; put_sv p (upd_inode (set_indirect 0) sv1))
    (λ _ w', wp finish (λ _, truncated p sv bl len w) (λ _ _, False) w') (λ _ _, False) w3.
Proof using All.
  intros [] Hnz. destruct ib_free as (Hibr & Hibu & HibF).
  wp_bind. wp_use sfs_bfree_freed; [done|by rewrite (meta_nblk w)|by rewrite md_used0| |done].
  intros [] w4 [Hfr4 Hsv4]. apply wp_modify. pose proof Hfr4 as [].
  apply (cut_finish _ (upd_inode (set_indirect 0) sv1) [ib]); try done.
  - by apply set_svs_fs_ok.
  - simpl. by rewrite Hsv4, md_sv0, insert_insert_eq.
  - simpl. congruence.
  - simpl. congruence.
  - simpl. destruct fr_map0 as [->|]; [done|by right].
  - by right.
  - intros c. change (used (set_svs _ w4) c) with (used w4 c).
    rewrite app_assoc, elem_of_app, fr_used0, md_used0, list_elem_of_singleton. tauto.
  - intros k Hk. rewrite (all_zero _ Hnz), length_cut. done.
  - intros c Hc. rewrite <- md_sec0. unfold sec; simpl. by rewrite fr_dev0.
Qed.

Lemma trunc_cut :
  wp (trunc_indirect p bl sv1 ib)
     (λ _ w', wp finish (λ _, truncated p sv bl len w) (λ _ _, False) w')
     (λ e w', e = EIO ∧ same_data w1 w') w1.
Proof using All.
  pose proof Hfr as []. destruct ib_free as (Hibr & Hibu & HibF).
  unfold trunc_indirect. wp_bind.
  wp_use sfs_rblock_spec; [done|rewrite (meta_nblk w) by done; lia|done| |by auto].
  intros l0 w2 [-> Hs2]. replace (dec_idbuf (sec w1 ib)) with l by (unfold l, sec; by rewrite fr_dev0).
  pose proof Hs2 as (Hdev2 & Hk2 & Hfs2 & Hsv2).
  assert (Hok2 : fs_ok w2) by by rewrite <- Hs2.
  assert (Hu2 : ∀ c, used w2 c ↔ used w c ∧ c ∉ F1) by (intros c; rewrite <- Hs2; apply fr_used0).
  assert (Hn2 : nblk w2 = nblk w) by (unfold nblk; rewrite Hfs2; by apply meta_nblk).
  assert (Hsec2 : ∀ c, sec w2 c = sec w c) by (intros c; rewrite <- Hs2; unfold sec; by rewrite fr_dev0).
  wp_bind. wp_use trunc_idbuf_spec; [done| |by apply NoDup_idpart| |done].
  { intros b Hb Hnz. destruct (l_blocks b Hb Hnz) as (Ho & HnF & _). apply Hf in Ho.
    rewrite Hn2, Hu2. tauto. }
  intros [[l' nz] dty] w3 (Hr & Hfr3 & Hsv3). injection Hr as -> -> ->. pose proof Hfr3 as [].
  assert (Hmid : mid w3).
  { split; try congruence; try done.
    - destruct fr_map1 as [->|]; [|by right]. by rewrite Hfs2.
    - intros c. rewrite fr_used1, Hu2, elem_of_app. tauto.
    - intros c. rewrite <- Hsec2. unfold sec. by rewrite fr_dev1. }
  destruct (existsb _ _) eqn:Hnz; cbn [negb]; [apply wp_when; intros Hdty|].
  - wp_use cut_write; done.
  - apply negb_false_iff, bool_decide_eq_true in Hdty. by apply cut_keep.
  - wp_use cut_free; done.
Qed.
End cut.
End indirect.

Lemma sfs_truncate_spec p sv w len :
  fs_ok w → w_sv w !! p = Some sv → file_ok w (sv_i sv) → 0 ≤ len ≤ 2147483136 →
  let bl := (len + 511) / 512 in
  wp (sfs_truncate p len) (λ _, truncated p sv bl len w)
     (λ e w', e = EIO ∧ ∃ w1, direct_cut bl p sv w 15 w1 ∧ same_data w1 w') w.
Proof.
  intros Hok Hp Hf Hlen bl.
  assert (Hbl : 0 ≤ bl < 4294967296) by (unfold bl; Z.div_mod_to_equations; lia).
  unfold sfs_truncate. change SFS_BLOCKSIZE with 512.
  replace (len + 512 - 1) with (len + 511) by lia.
  rewrite i32_small, Z.quot_div_nonneg by lia. fold bl. rewrite u32_small by done.
  wp_bind. wp_use trunc_direct_loop; [done..|lia| |done].
  intros [] w1 (d & F & Hfr & Hsv & Hd0 & Hd & HF). wp_bind. unfold wp at 1, get_sv.
  rewrite Hsv, lookup_insert_eq. unfold SFS_NDIRECT, SFS_DBPERIDB. simpl. wp_bind.
  apply wp_when; intros Hc.
  - apply wp_mono with (Q := λ _ w', wp (let! v := get_sv p in put_sv p (upd_inode (set_size (u32 len)) v))
      (λ _, truncated p sv bl len w) (λ _ _, False) w')
      (E := λ e w', e = EIO ∧ same_data w1 w').
    + eapply (trunc_cut bl len p sv w w1 d F); try done; try lia.
    + intros [] w' Hw'. eapply wp_mono; [exact Hw'|done|done].
    + intros e w' [-> Hs]. split; [done|]. exists w1. split; [|done]. by exists d, F.
  - wp_use (trunc_skip bl len p sv w w1 d F); try done; try lia.
Qed.

(** Cutting one file leaves every other one alone. *)
Lemma truncated_isolates p sv bl len w w' j :
  truncated p sv bl len w w' → file_ok w (sv_i sv) → file_ok w j → apart w (sv_i sv) j →
  file_ok w' j ∧ ∀ o, fbyte w' j o = fbyte w j o.
Proof.
  intros (sv' & _ & _ & _ & _ & _ & _ & _ & Hm & _ & _ & _ & _ & _ & Hu & Hsec & _) Hf Hj Hap.
  apply (file_unchanged w w' j); [done|by apply meta_nblk|..].
  - intros b Hb. apply Hu. split; [by apply Hj|]. intros Ho. by destruct (Hap b Ho).
  - intros b Hb. apply Hsec. destruct (decide (sfi_indirect (sv_i sv) = 0)); [by left|right].
    intros ->. apply (Hap (sfi_indirect (sv_i sv))); [|done]. apply elem_of_owned. auto.
Qed.

(** The contents after pointers were cleared. *)
Lemma cut_fbyte w w' i i' (cl : Z → bool) o :
  file_ok w i →
  (∀ k, zget (ptrs w' i') k = (λ b, if cl k then 0 else b) <$> zget (ptrs w i) k) →
  (∀ c, sfi_indirect i = 0 ∨ c ≠ sfi_indirect i → sec w' c = sec w c) →
  fbyte w' i' o = if cl (o / SFS_BLOCKSIZE) then 0 else fbyte w i o.
Proof.
  intros Hf Hptr Hsec. unfold fbyte. rewrite Hptr.
  destruct (zget (ptrs w i) _) as [b|] eqn:Hb; simpl; [|by destruct (cl _)].
  destruct (cl _); [done|]. destruct (Z.eqb_spec b 0); [done|]. rewrite Hsec; [done|].
  destruct (decide (sfi_indirect i = 0)) as [|Hi]; [by left|right].
  intros ->. by eapply ptr_indirect.
Qed.

Lemma direct_cut_ok bl p sv w w1 :
  0 ≤ bl → file_ok w (sv_i sv) → direct_cut bl p sv w 15 w1 →
  fs_ok w1 ∧ ∃ sv', w_sv w1 = <[p := sv']> (w_sv w) ∧ file_ok w1 (sv_i sv') ∧
    sfi_size (sv_i sv') = sfi_size (sv_i sv) ∧
    ∀ o, o < bl * 512 → fbyte w1 (sv_i sv') o = fbyte w (sv_i sv) o.
Proof.
  intros Hbl Hf (d & F & [] & Hsv & _ & Hd & HF). split; [done|].
  set (cl := λ k, (bl <=? k) && (k <? 15)). pose proof (zlen_direct _ _ Hf) as Hzl.
  assert (Hld : length d = length (sfi_direct (sv_i sv))) by by eapply (cut_length _ _ cl).
  assert (Hptr : ∀ k, zget (ptrs w1 (with_direct d (sv_i sv))) k =
                      (λ b, if cl k then 0 else b) <$> zget (ptrs w (sv_i sv)) k).
  { intros k. unfold ptrs, sec; simpl. rewrite fr_dev0. destruct (Z.lt_ge_cases k 15).
    - rewrite !zget_app_l by (unfold zlen in *; lia). apply Hd.
    - rewrite !zget_app_r by (unfold zlen in *; lia). unfold cl, zlen. rewrite Hld.
      destruct (Z.ltb_spec k 15); [lia|]. rewrite andb_false_r. by destruct (zget _ _). }
  eexists. split_and!; [done| |done|].
  - eapply (cut_file_ok w w1 (sv_i sv) (with_direct d (sv_i sv)) F cl); try done.
    + by apply (with_direct_wf _ _ cl); [apply Hf|].
    + by apply meta_nblk.
    + by left.
    + intros c. rewrite HF. unfold cl. split.
      * intros (? & k & ? & Hk). split; [done|left]. exists k. split; [lia|].
        rewrite <- (direct_ptr w) by (done || lia). done.
      * intros (? & [(k & ? & Hk)|[-> Hi]]); [split; [done|]|done]. exists k. split; [lia|].
        rewrite (direct_ptr w) by (done || lia). done.
  - intros o Ho. rewrite (cut_fbyte w w1 (sv_i sv) _ cl) by (done || (intros; unfold sec; by rewrite fr_dev0)).
    unfold cl, SFS_BLOCKSIZE. destruct (Z.leb_spec bl (o / 512)); [|done].
    Z.div_mod_to_equations. lia.
Qed.

(** Cutting to nothing gives back every block. *)
Lemma truncated_zero p sv w w' :
  truncated p sv 0 0 w w' →
  ∃ sv', w_sv w' = <[p := sv']> (w_sv w) ∧ owned w' (sv_i sv') = [] ∧
    ∀ c, used w' c ↔ used w c ∧ c ∉ owned w (sv_i sv).
Proof.
  intros (sv' & Hsv & _ & _ & _ & _ & _ & _ & _ & _ & _ & Hf & _ & Hptr & Hu & _ & Hne).
  assert (Hz : ∀ b, b ∈ ptrs w' (sv_i sv') → b = 0).
  { intros b (n & Hn)%list_elem_of_lookup. rewrite <- zget_nat, Hptr in Hn.
    destruct (zget _ _); [|done]. simplify_eq/=. unfold clr, SFS_NDIRECT.
    destruct (Z.ltb_spec (Z.of_nat n) 15); case_match; try done; lia. }
  assert (Hnone : ∀ c, c ∉ owned w' (sv_i sv')).
  { intros c [Hnz [->|Hc]]%elem_of_owned; [|by apply Hnz, Hz].
    destruct Hne as (b & Hb & Hbz); [done|done|]. apply Hbz, Hz. unfold ptrs. fold (idpart w' (sv_i sv')).
    apply elem_of_app. by right. }
  exists sv'. split_and!; [done| |].
  - destruct (owned w' (sv_i sv')) as [|c l] eqn:E; [done|]. destruct (Hnone c). by left.
  - intros c. rewrite Hu. pose proof (Hnone c). tauto.
Qed.
End proofs.

Section theorems.
Context {D H : Type} `{!BlockDev D, !BlockDevOk D}.
Notation W := (world D H).
Implicit Types (w : W) (sv : sfs_vnode) (j : sfs_inode).

(** C3 Truncation: the size becomes [len] and the bytes below it stay; every
    whole block past the new end is gone, except the one discussed at
    [truncate_keeps_block]; the free map gets back exactly the blocks the
    file lost; no other file changes.  If the indirect block cannot be read,
    the file keeps its size and its first [len] bytes. *)
Theorem sfs_truncate_correct p sv w len j :
  fs_ok w → w_sv w !! p = Some sv → file_ok w (sv_i sv) → 0 ≤ len ≤ 2147483136 →
  file_ok w j → apart w (sv_i sv) j →
  let bl := (len + 511) / 512 in
  wp (sfs_truncate p len)
     (λ _ w', fs_ok w' ∧ ∃ sv', w_sv w' = <[p := sv']> (w_sv w) ∧ file_ok w' (sv_i sv') ∧
        sfi_size (sv_i sv') = len ∧
        (∀ o, o < len → fbyte w' (sv_i sv') o = fbyte w (sv_i sv) o) ∧
        (∀ o, bl * 512 ≤ o → o < 15 * 512 ∨ bl < 142 ∧ (bl + 1) * 512 ≤ o →
              fbyte w' (sv_i sv') o = 0) ∧
        (∀ c, used w' c ↔ used w c ∧ (c ∈ owned w (sv_i sv) → c ∈ owned w' (sv_i sv'))) ∧
        (len = 0 → owned w' (sv_i sv') = []) ∧
        file_ok w' j ∧ ∀ o, fbyte w' j o = fbyte w j o)
     (λ e w', e = EIO ∧ fs_ok w' ∧ ∃ sv', w_sv w' = <[p := sv']> (w_sv w) ∧
        file_ok w' (sv_i sv') ∧ sfi_size (sv_i sv') = sfi_size (sv_i sv) ∧
        ∀ o, o < len → fbyte w' (sv_i sv') o = fbyte w (sv_i sv) o) w.
Proof.
  intros Hok Hp Hf Hlen Hj Hap bl.
  assert (Hbl : 0 ≤ bl ∧ len ≤ bl * 512) by (unfold bl; Z.div_mod_to_equations; lia).
  wp_use (sfs_truncate_spec p sv w len); [done..| |].
  - fold bl. intros [] w' Ht. destruct (truncated_isolates _ _ _ _ _ _ _ Ht Hf Hj Hap).
    assert (Hz : len = 0 → ∃ sv', w_sv w' = <[p := sv']> (w_sv w) ∧ owned w' (sv_i sv') = []).
    { intros Hl0. unfold bl in Ht. rewrite Hl0 in Ht. apply truncated_zero in Ht as (sv' & ? & ? & _). eauto. }
    destruct Ht as (sv' & Hsv & _ & _ & _ & Hsz & _ & _ & _ & _ & ? & ? & _ & Hptr & Hu & Hsec & _).
    split; [done|]. exists sv'. split_and!; try done.
    + intros o Ho. rewrite (cut_fbyte w w' (sv_i sv) _ (clr bl)) by done. unfold clr, SFS_NDIRECT, SFS_BLOCKSIZE.
      assert (o / 512 < bl) by (Z.div_mod_to_equations; lia).
      destruct (Z.ltb_spec (o / 512) 15); case_match; lia.
    + intros o Ho Hr. rewrite (cut_fbyte w w' (sv_i sv) _ (clr bl)) by done.
      assert (clr bl (o / SFS_BLOCKSIZE) = true) as ->; [|done].
      unfold clr, SFS_NDIRECT, SFS_BLOCKSIZE.
      destruct (Z.ltb_spec (o / 512) 15); Z.div_mod_to_equations; lia.
    + intros Hl0. destruct (Hz Hl0) as (sv2 & Hsv2 & Ho). rewrite Hsv in Hsv2.
      assert (sv' = sv2) as ->; [|done].
      assert (Some sv' = Some sv2) as ?; [|congruence].
      by rewrite <- (lookup_insert_eq (w_sv w) p sv'), Hsv2, lookup_insert_eq.
  - intros e w' (-> & w1 & Hd & Hs). fold bl in Hd.
    destruct (direct_cut_ok bl p sv w w1) as (? & sv' & ? & ? & ? & Hb); [lia|done..|].
    split_and!; [done|by rewrite <- Hs|]. exists sv'.
    pose proof Hs as (_ & _ & _ & ->). split_and!; [done|by rewrite <- Hs|done|].
    intros o Ho. rewrite <- Hs. apply Hb. lia.
Qed.

(** Truncation forgets one block: when the new end lies at or past the 15
    direct blocks, the first block after it stays in the file with its
    contents, although no byte below the new size is in it. *)
Theorem truncate_keeps_block p sv w len b :
  fs_ok w → w_sv w !! p = Some sv → file_ok w (sv_i sv) → 0 ≤ len ≤ 2147483136 →
  let bl := (len + 511) / 512 in
  15 ≤ bl → zget (ptrs w (sv_i sv)) bl = Some b →
  wp (sfs_truncate p len)
     (λ _ w', ∃ sv', w_sv w' !! p = Some sv' ∧ sfi_size (sv_i sv') = len ∧
        zget (ptrs w' (sv_i sv')) bl = Some b ∧
        ∀ o, bl * 512 ≤ o < (bl + 1) * 512 → fbyte w' (sv_i sv') o = fbyte w (sv_i sv) o)
     (λ e _, e = EIO) w.
Proof.
  intros Hok Hp Hf Hlen bl Hbl Hb. wp_use (sfs_truncate_spec p sv w len); [done..| |].
  - fold bl. intros [] w' (sv' & Hsv & _ & _ & _ & Hsz & _ & _ & _ & _ & _ & _ & _ & Hptr & _ & Hsec & _).
    assert (Hc : clr bl bl = false) by (unfold clr, SFS_NDIRECT; destruct (Z.ltb_spec bl 15); lia).
    exists sv'. split_and!; [by rewrite Hsv, lookup_insert_eq|done|by rewrite Hptr, Hb; simpl; rewrite Hc|].
    intros o Ho. rewrite (cut_fbyte w w' (sv_i sv) _ (clr bl)) by done. unfold SFS_BLOCKSIZE.
    replace (o / 512) with bl by (Z.div_mod_to_equations; lia). by rewrite Hc.
  - by intros e w' [-> _].
Qed.
End theorems.

(** ** Witnesses *)

(** A file of 16 blocks, all holes but the last one: block 4 is its indirect
    block, block 5 holds data. *)
Module CutVol.
Definition file : sfs_vnode :=
  mksv (mkinode 8192 SFS_TYPE_FILE 1 (replicate 15 0) 4 (replicate 110 0)) 3 false.
Definition vol : world (lhd_softc SimDisk.disk) Toy.heap :=
  ToyVol.vol (replicate 4 zeroblock ++ [enc_words (5 :: replicate 127 0); replicate 512 7] ++
              replicate 2 zeroblock) 63 {[100 := file]}.

Lemma cutvol_ok : fs_ok vol.
Proof.
  apply ToyVol.vol_ok; try done.
  assert (Hz : block_ok zeroblock) by (split; [done|apply bytes_zeros]).
  repeat apply Forall_app_2; try by apply Forall_replicate.
  repeat apply Forall_cons_2; [|split; [done|by apply Forall_replicate]|apply Forall_nil_2].
  apply enc_idbuf_block. done.
Qed.
Lemma owned_file : owned vol (sv_i file) = [4; 5].
Proof. vm_compute. reflexivity. Qed.
Lemma file_is_ok : file_ok vol (sv_i file).
Proof.
  split; rewrite ?owned_file.
  - split; try done; unfold file, sv_i; cbn [sfi_direct sfi_waste]; (split; [done|]);
      by apply Forall_replicate.
  - intros b Hb. repeat (apply elem_of_cons in Hb as [->|Hb]); [..|by apply elem_of_nil in Hb];
      split_and!; done || (split; vm_compute; done).
  - apply (bool_decide_unpack _). vm_compute. exact I.
Qed.
End CutVol.

Lemma sfs_truncate_correct_witness :
  wp (sfs_truncate 100 0) (λ _ w', ∃ sv', w_sv w' !! 100 = Some sv' ∧ owned w' (sv_i sv') = [])
     (λ e _, e = EIO) CutVol.vol.
Proof.
  eapply wp_mono;
    [apply (sfs_truncate_correct 100 CutVol.file CutVol.vol 0 (ToyVol.inode SFS_TYPE_DIR))|..].
  - exact CutVol.cutvol_ok.
  - reflexivity.
  - exact CutVol.file_is_ok.
  - lia.
  - apply ToyVol.inode_ok. split; reflexivity || discriminate.
  - intros b Hb. rewrite ToyVol.owned_empty. apply not_elem_of_nil.
  - intros _ w' (_ & sv' & Hsv & _ & _ & _ & _ & _ & Ho & _). exists sv'. rewrite Hsv.
    split; [apply lookup_insert_eq|]. apply Ho. reflexivity.
  - intros e w' [He _]. exact He.
Defined.

Lemma truncate_keeps_block_witness :
  wp (sfs_truncate 100 7680)
     (λ _ w', ∃ sv', w_sv w' !! 100 = Some sv' ∧ sfi_size (sv_i sv') = 7680 ∧
                     fbyte w' (sv_i sv') 7700 = 7) (λ e _, e = EIO) CutVol.vol.
Proof.
  eapply wp_mono; [apply (truncate_keeps_block 100 CutVol.file CutVol.vol 7680 5)|..].
  - exact CutVol.cutvol_ok.
  - reflexivity.
  - exact CutVol.file_is_ok.
  - lia.
  - discriminate.
  - reflexivity.
  - intros _ w' (sv' & Hsv & Hsz & _ & Hb). exists sv'. split; [exact Hsv|]. split; [exact Hsz|].
    rewrite Hb; [reflexivity|]. vm_compute. split; [discriminate|reflexivity].
  - intros e w' He. exact He.
Defined.
