(* ===== verification/SfsDir.v ===== *)
(** * SFS directories (directory I/O of kern/fs/sfs/sfs_vnode.c)

    A directory is a file of 64-byte slots; abstractly it is the list of its
    slots, each free or holding a name and an inode number ([dslots]).  Looking
    up, linking and unlinking are lookup, insertion and deletion there. *)

From S2P Require Import Prelude KString Kmem KArray KBitmap CopyInOut Uio BlockDev Lhd Vnode.
From S2P Require Import SfsDisk SfsCore SfsSpec SfsMap SfsFile SfsFileSpec SfsFileThm.

Section dir.
Context {D H : Type} `{!BlockDev D}.
Notation W := (world D H).

(** Run a file operation with a descriptor of its own. *)
Definition with_ku {A} (us : ustate) (c : M (W * ustate) A) : M W (A * ustate) := λ w,
  match c (w, us) with
  | Ok a (w', us') => Ok (a, us') w'
  | Err e (w', _) => Err e w'
  | Panic => Panic
  | Hang => Hang
  end.

(** [sd] is overwritten as a whole, so it may start out as zeros. *)
Definition sfs_readdir (sv slot : Z) : M W sfs_dir :=
  let actualpos := i32 (u32 (slot * sizeof_sfs_dir)) in
  let ku := mk_kuio 0 sizeof_sfs_dir actualpos UIO_READ in
  let! ' (_, us) := with_ku (mkustate ku (replicate 64 0) ∅ [] 0) (sfs_io sv) in
  if uio_resid (u_uio us) >? 0 then panic else ret (dec_dir (u_kbuf us)).

Definition sfs_writedir (sv : Z) (sd : sfs_dir) (slot : Z) : M W unit :=
  kassert (slot >=? 0) ;;;
  let actualpos := i32 (u32 (slot * sizeof_sfs_dir)) in
  let ku := mk_kuio 0 sizeof_sfs_dir actualpos UIO_WRITE in
  let! ' (_, us) := with_ku (mkustate ku (enc_dir sd) ∅ [] 0) (sfs_io sv) in
  if uio_resid (u_uio us) >? 0 then panic else ret tt.

Definition sfs_dir_nentries (sv : Z) : M W Z :=
  let! v := get_sv sv in
  kassert (sfi_type (sv_i v) =? SFS_TYPE_DIR) ;;;
  let size := i32 (sfi_size (sv_i v)) in
  if negb (u32 size mod sizeof_sfs_dir =? 0) then panic
  else ret (i32 (u32 size / sizeof_sfs_dir)).

(** What [sfs_dir_findname] hands back: the error code if any, then the slot
    and the inode number through [slot] and [ino] once the name is found, and
    the free slot through [emptyslot]. *)
Definition find_out : Type := option errno * option (Z * Z) * option Z.

Fixpoint findname_loop (n : nat) (i sv : Z) (name : list Z) (found : option (Z * Z))
    (emptyslot : option Z) : M W find_out :=
  match n with
  | O => ret (if found then None else Some ENOENT, found, emptyslot)
  | S n' =>
      let! r := try (sfs_readdir sv i) in
      match r with
      | inl result => ret (Some result, found, emptyslot)
      | inr tsd =>
          if sfd_ino tsd =? SFS_NOINO then findname_loop n' (i + 1) sv name found (Some i)
          else
            match strcmp (zset (sfd_name tsd) (SFS_NAMELEN - 1) 0) name with
            | None => panic
            | Some c =>
                if c =? 0 then
                  kassert (bool_decide (found = None)) ;;;
                  findname_loop n' (i + 1) sv name (Some (i, sfd_ino tsd)) emptyslot
                else findname_loop n' (i + 1) sv name found emptyslot
            end
      end
  end.

Definition sfs_dir_findname (sv : Z) (name : list Z) : M W find_out :=
  let! nentries := sfs_dir_nentries sv in
  findname_loop (Z.to_nat nentries) 0 sv name None None.

Definition sfs_dir_link (sv : Z) (name : list Z) (ino : Z) : M W Z :=
  let! ' (result, _, emptyslot) := sfs_dir_findname sv name in
  match result with
  | None => fail EEXIST
  | Some ENOENT =>
      match strlen name with
      | None => panic
      | Some n =>
          if n + 1 >? SFS_NAMELEN then fail ENAMETOOLONG
          else
            let! emptyslot :=
              (match emptyslot with Some s => ret s | None => sfs_dir_nentries sv end) in
            match strcpy (replicate 60 0) name with
            | None => panic
            | Some sfd_name => sfs_writedir sv (mkdir ino sfd_name) emptyslot ;;; ret emptyslot
            end
      end
  | Some e => fail e
  end.

Definition sfs_dir_unlink (sv slot : Z) : M W unit :=
  sfs_writedir sv (mkdir SFS_NOINO (replicate 60 0)) slot.

End dir.

(** ** Directories as lists of slots *)

(** The string at the start of a buffer. *)
Fixpoint cstr_of (l : list Z) : list Z :=
  match l with
  | [] => []
  | c :: l' => if c =? 0 then [] else c :: cstr_of l'
  end.
Definition slot_of (sd : sfs_dir) : option (list Z * Z) :=
  if sfd_ino sd =? SFS_NOINO then None
  else Some (cstr_of (zset (sfd_name sd) (SFS_NAMELEN - 1) 0), sfd_ino sd).

Section spec.
Context {D H : Type} `{!BlockDev D, !BlockDevOk D, !Kmem H}.
Notation W := (world D H).
Implicit Types (w : W) (i : sfs_inode) (sv : sfs_vnode) (sd : sfs_dir).

Definition dirent w i (k : Z) : sfs_dir := dec_dir (fbytes w i (64 * k) 64).
Definition nslots i : Z := sfi_size i / 64.
Definition dslots w i : list (option (list Z * Z)) :=
  (λ k, slot_of (dirent w i k)) <$> seqZ 0 (nslots i).
#[export] Instance dirent_proper : Proper (same_data ==> eq ==> eq ==> eq) dirent.
Proof. intros w w' Hw i _ <- k _ <-. unfold dirent. by rewrite Hw. Qed.
#[export] Instance dslots_proper : Proper (same_data ==> eq ==> eq) dslots.
Proof.
  intros w w' Hw i _ <-. unfold dslots. apply list_fmap_ext. intros ? k _. by rewrite Hw.
Qed.

Record dir_ok w i : Prop := {
  do_file : file_ok w i;
  do_type : sfi_type i = SFS_TYPE_DIR;
  do_size : sfi_size i mod 64 = 0;
  do_max : sfi_size i ≤ 143 * SFS_BLOCKSIZE;
  do_names : ∀ k k' l ino ino', zget (dslots w i) k = Some (Some (l, ino)) →
    zget (dslots w i) k' = Some (Some (l, ino')) → k = k';
}.
#[export] Instance dir_ok_proper : Proper (same_data ==> eq ==> iff) dir_ok.
Proof.
  assert (Himp : ∀ w w' i, same_data w w' → dir_ok w i → dir_ok w' i).
  { intros w w' i Hw []. split; try done; [by rewrite <- Hw|].
    intros k k' l ino ino'. rewrite <- Hw. apply do_names0. }
  intros w w' Hw i _ <-. split; apply Himp; [done|by symmetry].
Qed.

Lemma zlen_dslots w i : 0 ≤ sfi_size i → zlen (dslots w i) = nslots i.
Proof.
  intros. unfold dslots, nslots, zlen. rewrite length_fmap, length_seqZ.
  rewrite Z2Nat.id; [done|]. by apply Z.div_pos.
Qed.
Lemma zget_dslots w i k :
  0 ≤ k < nslots i → zget (dslots w i) k = Some (slot_of (dirent w i k)).
Proof.
  intros Hk. unfold zget, dslots. rewrite decide_True by lia.
  rewrite list_lookup_fmap, lookup_seqZ_lt by lia. simpl. by rewrite Z2Nat.id by lia.
Qed.
Lemma dir_size w i : dir_ok w i → sfi_size i = 64 * nslots i ∧ 0 ≤ nslots i ≤ 1144.
Proof.
  intros [[[[? _] _ _ _ _ _] _ _] _ Hm Hx _]. unfold nslots, SFS_BLOCKSIZE in *.
  Z.div_mod_to_equations. lia.
Qed.

(** *** Reading and writing slots *)

Lemma slot_pos k : 0 ≤ k ≤ 1144 → i32 (u32 (k * sizeof_sfs_dir)) = 64 * k.
Proof. unfold sizeof_sfs_dir. intros. rewrite u32_small, i32_small; lia. Qed.
Lemma slot_uio k rw (data : list Z) :
  0 ≤ k ≤ 1144 → zlen data = 64 → kuio_ok (mkustate (mk_kuio 0 64 (64 * k) rw) data ∅ [] 0).
Proof. intros. split; simpl; try done; lia. Qed.

Lemma sfs_readdir_spec p sv w k :
  fs_ok w → w_sv w !! p = Some sv → dir_ok w (sv_i sv) → 0 ≤ k < nslots (sv_i sv) →
  wp (sfs_readdir p k) (λ sd w', sd = dirent w (sv_i sv) k ∧ same_data w w')
     (λ e w', e = EIO ∧ same_data w w') w.
Proof.
  intros Hok Hp Hd Hk. destruct (dir_size _ _ Hd) as [Hsz Hn]. unfold sfs_readdir.
  rewrite slot_pos by lia. wp_bind. unfold wp at 1, with_ku. set (s := mkustate _ _ _ _ _).
  pose proof (sfs_io_read p sv w s Hok Hp (do_file _ _ Hd)
                (slot_uio k UIO_READ (replicate 64 0) ltac:(lia) eq_refl) eq_refl ltac:(lia)) as Hr.
  unfold read_len in Hr. change (uio_offset (u_uio s)) with (64 * k) in Hr.
  change (uio_resid (u_uio s)) with 64 in Hr. rewrite Z.min_l, Z.max_r in Hr by lia.
  unfold wp in Hr. destruct (sfs_io p (w, s)) as [[] [w1 s1]|e [w1 s1]| |]; try done.
  - destruct Hr as [Hs Hs1]. cbn [fst snd] in *. subst s1. unfold kfilled. cbn [u_uio uio_adv uio_resid].
    change (uio_resid (u_uio s)) with 64. change (uio_offset (u_uio s)) with (64 * k).
    rewrite zlen_fbytes by lia. apply wp_ret.
    split; [|done]. cbn [u_kbuf]. change (iov_base (u_uio s)) with 0.
    rewrite splice_whole; [done|]. by rewrite zlen_fbytes by lia.
  - destruct Hr as (j & Hj & Hst & [->|[_ Hbig]] & Hs & _); [done|].
    change (uio_offset (u_uio s)) with (64 * k) in *. unfold io_stop, SFS_BLOCKSIZE in *.
    Z.div_mod_to_equations. lia.
Qed.

(** A slot was stored: the others are as before. *)
Definition slot_written (p : Z) sv sv' w w' (k : Z) (sd : sfs_dir) : Prop :=
  grows p sv sv' w w' ∧ sfi_size (sv_i sv') = Z.max (sfi_size (sv_i sv)) (64 * k + 64) ∧
  64 * k + 64 ≤ 143 * SFS_BLOCKSIZE ∧
  ∀ j, 0 ≤ j → dirent w' (sv_i sv') j = if decide (j = k) then sd else dirent w (sv_i sv) j.
(** The directory has the same contents as before. *)
Definition slots_kept (p : Z) sv sv' w w' : Prop :=
  grows p sv sv' w w' ∧ sfi_size (sv_i sv') = sfi_size (sv_i sv) ∧
  ∀ o, fbyte w' (sv_i sv') o = fbyte w (sv_i sv) o.

Lemma fbytes_ext w w' i i' off n :
  (∀ o, off ≤ o < off + n → fbyte w' i' o = fbyte w i o) → fbytes w' i' off n = fbytes w i off n.
Proof.
  intros Hb. unfold fbytes. apply list_fmap_ext. intros j o [-> Hj]%lookup_seqZ. apply Hb. lia.
Qed.

Lemma sfs_writedir_spec p sv w sd k :
  fs_ok w → w_sv w !! p = Some sv → dir_ok w (sv_i sv) → 0 ≤ k ≤ nslots (sv_i sv) → dir_wf sd →
  wp (sfs_writedir p sd k) (λ _ w', ∃ sv', slot_written p sv sv' w w' k sd)
     (λ e w', (e = EIO ∨ e = ENOSPC ∨ e = EINVAL ∧ k = 1144) ∧
              ∃ sv', slots_kept p sv sv' w w') w.
Proof.
  intros Hok Hp Hd Hk Hsd. destruct (dir_size _ _ Hd) as [Hsz Hn]. unfold sfs_writedir.
  destruct (enc_dir_bytes sd Hsd) as [Hl Hby]. unfold sizeof_sfs_dir in Hl.
  rewrite slot_pos by lia. wp_bind. apply wp_kassert; [lia|]. wp_bind.
  unfold wp at 1, with_ku. set (s := mkustate _ _ _ _ _).
  pose proof (sfs_io_write p sv w s Hok Hp (do_file _ _ Hd)
                (slot_uio k UIO_WRITE _ ltac:(lia) Hl) eq_refl Hby ltac:(lia)) as Hr.
  unfold wp in Hr. change (uio_resid (u_uio s)) with 64 in Hr.
  destruct (sfs_io p (w, s)) as [[] [w1 s1]|e [w1 s1]| |]; try done.
  - destruct Hr as (Hs1 & sv' & Hg & Hsz' & Hb & Hfit). simpl in *. subst s1. simpl. apply wp_ret.
    exists sv'. split_and!; [done|done|by apply Hfit|]. intros j Hj.
    assert (Hkd : kdata 64 s = enc_dir sd) by (unfold kdata; simpl; rewrite zdrop_0; apply ztake_all; lia).
    unfold dirent. case_decide as Hjk.
    + subst j. transitivity (dec_dir (enc_dir sd)); [|by apply dec_enc_dir]. f_equal.
      apply zlist_eq. intros o Ho. destruct (decide (o < 64)).
      * rewrite zget_fbytes by lia. rewrite Hb, Hkd. unfold wbytes. rewrite decide_True by lia.
        replace (64 * k + o - 64 * k) with o by lia.
        destruct (zget_is_Some (enc_dir sd) o) as [x ->]; [lia|done].
      * rewrite !zget_None; [done|lia|rewrite zlen_fbytes; lia].
    + f_equal. apply fbytes_ext. intros o Ho. rewrite Hb, Hkd. unfold wbytes. rewrite decide_False by lia.
      done.
  - destruct Hr as (j & Hj & Hst & He & _ & sv' & Hg & Hsz' & Hb & _). simpl in *.
    change (uio_offset (u_uio s)) with (64 * k) in *. unfold io_stop, SFS_BLOCKSIZE in *.
    assert (j = 0) as -> by (destruct Hst as [?|[? ?]]; [done|Z.div_mod_to_equations; lia]).
    split.
    + destruct He as [?|[?|[? Hx]]]; [by left|by right; left|right; right]. split; [done|].
      unfold SFS_BLOCKSIZE in Hx. Z.div_mod_to_equations. lia.
    + exists sv'. split_and!; [done|lia|]. intros o. rewrite Hb. unfold wbytes, kdata.
      by rewrite ztake_0, zlen_nil, decide_False by lia.
Qed.

(** *** Searching *)

Lemma cstr_of_spec (b : list Z) k : bytes b → zget b k = Some 0 → cstring b (cstr_of b).
Proof.
  intros Hb. revert k. induction Hb as [|c b Hc Hb IH]; intros k Hk.
  { by unfold zget in Hk; case_decide. }
  simpl. destruct (Z.eqb_spec c 0) as [->|Hnz]; [by exists b|].
  pose proof (zget_Some_range _ _ _ Hk) as Hr. destruct (decide (k = 0)) as [->|].
  { unfold zget in Hk. by simplify_eq/=. }
  destruct (IH (k - 1)) as (r & Hbr & Hf).
  { rewrite <- Hk. change (c :: b) with ([c] ++ b). rewrite zget_app_r; [done|].
    change (zlen [c]) with 1. lia. }
  exists r. split; [simpl; by f_equal|]. constructor; [lia|done].
Qed.

Lemma fbyte_byte w i o : fs_ok w → file_ok w i → 0 ≤ fbyte w i o < 256.
Proof.
  intros Hok Hf. unfold fbyte. destruct (zget (ptrs w i) _) as [b|] eqn:Hb; [|done].
  destruct (Z.eqb_spec b 0); [done|].
  destruct (fi_blocks _ _ Hf b) as [? _]; [by eapply ptr_owned|].
  destruct (sector_ok (w_dev w) b) as [_ Hby]; [by apply Hok|destruct Hok; lia|].
  destruct (zget _ (o mod _)) as [x|] eqn:Hx; [|done]. simpl.
  apply zget_elem in Hx. unfold bytes in Hby. rewrite Forall_forall in Hby. by apply Hby.
Qed.
Lemma dirent_wf w i k : fs_ok w → file_ok w i → dir_wf (dirent w i k).
Proof.
  intros Hok Hf. apply dec_dir_wf; [rewrite zlen_fbytes; [done|lia]|].
  apply Forall_fmap, Forall_true. intros o. by apply fbyte_byte.
Qed.

Definition found_in (slots : list (option (list Z * Z))) (l : list Z) (i : Z)
    (found : option (Z * Z)) : Prop :=
  ∀ k ino, found = Some (k, ino) ↔ k < i ∧ zget slots k = Some (Some (l, ino)).
Definition free_in (slots : list (option (list Z * Z))) (i : Z) (empty : option Z) : Prop :=
  match empty with
  | Some k => k < i ∧ zget slots k = Some None
  | None => ∀ k, k < i → zget slots k ≠ Some None
  end.

Lemma found_skip slots l (i : Z) found :
  found_in slots l i found → (∀ ino, zget slots i ≠ Some (Some (l, ino))) →
  found_in slots l (i + 1) found.
Proof.
  intros Hf Hi k ino. rewrite (Hf k ino). split; [intros [? ?]; split; [lia|done]|].
  intros [Hk Hs]. split; [|done]. destruct (decide (k = i)) as [->|]; [by destruct (Hi ino)|lia].
Qed.
Lemma free_skip slots (i : Z) empty :
  free_in slots i empty → zget slots i ≠ Some None → free_in slots (i + 1) empty.
Proof.
  destruct empty as [k|]; simpl; [intros [? ?]; split; [lia|done]|].
  intros He Hi k Hk. destruct (decide (k = i)) as [->|]; [done|]. apply He. lia.
Qed.

(** What a search reports. *)
Definition find_post w i (l : list Z) (out : find_out) w' : Prop :=
  let '(r, found, empty) := out in
  same_data w w' ∧
  (r = Some EIO ∨
   r = (if found then None else Some ENOENT) ∧
   found_in (dslots w i) l (nslots i) found ∧ free_in (dslots w i) (nslots i) empty).

Lemma findname_loop_spec p sv w w1 name l n (i : Z) found empty :
  fs_ok w → w_sv w !! p = Some sv → dir_ok w (sv_i sv) → cstring name l →
  same_data w w1 → 0 ≤ i → i + Z.of_nat n = nslots (sv_i sv) →
  found_in (dslots w (sv_i sv)) l i found → free_in (dslots w (sv_i sv)) i empty →
  wp (findname_loop n i p name found empty) (find_post w (sv_i sv) l) (λ _ _, False) w1.
Proof.
  intros Hok Hp Hd Hname. revert w1 i found empty.
  induction n as [|n IH]; intros w1 i found empty Hs Hi Hn Hfound Hfree.
  { apply wp_ret. split; [done|right]. replace (nslots (sv_i sv)) with i by lia. done. }
  cbn [findname_loop]. wp_bind. apply wp_try.
  wp_use (sfs_readdir_spec p sv w1 i).
  1: by rewrite <- Hs. 1: by destruct Hs as (_ & _ & _ & ->). 1: by rewrite <- Hs. 1: lia.
  2: { intros e w2 [-> Hs2]. apply wp_ret. split; [by etransitivity|by left]. }
  intros sd w2 [-> Hs2].
  assert (Hs' : same_data w w2) by by etransitivity.
  pose proof (zget_dslots w (sv_i sv) i ltac:(lia)) as Hslot.
  rewrite (dirent_proper _ _ Hs _ _ eq_refl _ _ eq_refl) in Hslot.
  pose proof (dirent_wf w1 (sv_i sv) i ltac:(by rewrite <- Hs) ltac:(rewrite <- Hs; apply Hd)) as Hwf.
  set (sd := dirent w1 (sv_i sv) i) in *. unfold slot_of in Hslot.
  destruct (Z.eqb_spec (sfd_ino sd) SFS_NOINO) as [Hz|Hnz].
  { apply IH; try done; [lia|lia| |].
    - apply found_skip; [done|]. intros ino. by rewrite Hslot.
    - split; [lia|done]. }
  destruct Hwf as (_ & Hlen & Hby). set (b := zset (sfd_name sd) (SFS_NAMELEN - 1) 0) in *.
  assert (Hb : cstring b (cstr_of b)).
  { apply (cstr_of_spec b 59); [by apply Forall_zset|]. apply zget_zset_eq. unfold zlen. lia. }
  destruct (strcmp_spec b name _ l Hb Hname) as (c & -> & Hc).
  assert (Hfree' : free_in (dslots w (sv_i sv)) (i + 1) empty) by (apply free_skip; [done|by rewrite Hslot]).
  destruct (Z.eqb_spec c 0) as [Hc0|Hc0]; [|apply IH; try done; [lia|lia|]].
  - assert (Hl : cstr_of b = l) by tauto. rewrite Hl in Hslot. wp_bind. apply wp_kassert.
    { apply bool_decide_eq_true. destruct found as [[k ino]|]; [|done].
      destruct (proj1 (Hfound k ino) eq_refl) as [? Hk].
      pose proof (do_names _ _ Hd _ _ _ _ _ Hk Hslot). lia. }
    apply IH; try done; [lia|lia|]. intros k ino. split.
    + intros [= <- <-]. split; [lia|done].
    + intros [Hk Hs0]. pose proof (do_names _ _ Hd _ _ _ _ _ Hslot Hs0) as <-. congruence.
  - apply found_skip; [done|]. intros ino. rewrite Hslot. intros [= Hl _]. tauto.
Qed.

Lemma sfs_dir_nentries_spec p sv w :
  w_sv w !! p = Some sv → dir_ok w (sv_i sv) →
  wp (sfs_dir_nentries p) (λ n w', n = nslots (sv_i sv) ∧ w' = w) (λ _ _, False) w.
Proof.
  intros Hp Hd. destruct (dir_size _ _ Hd) as [Hsz Hn]. unfold sfs_dir_nentries.
  wp_bind. unfold wp at 1, get_sv. rewrite Hp. wp_bind. apply wp_kassert; [by rewrite (do_type _ _ Hd)|].
  rewrite i32_small, u32_small by lia. unfold sizeof_sfs_dir. rewrite (do_size _ _ Hd). simpl.
  apply wp_ret. split; [|done]. fold (nslots (sv_i sv)). apply i32_small. lia.
Qed.

Lemma sfs_dir_findname_spec p sv w name l :
  fs_ok w → w_sv w !! p = Some sv → dir_ok w (sv_i sv) → cstring name l →
  wp (sfs_dir_findname p name) (find_post w (sv_i sv) l) (λ _ _, False) w.
Proof.
  intros Hok Hp Hd Hname. destruct (dir_size _ _ Hd) as [Hsz Hn]. unfold sfs_dir_findname.
  wp_bind. wp_use sfs_dir_nentries_spec; [done|done| |done]. intros n w' [-> ->].
  apply findname_loop_spec; try done; [lia| |].
  - intros k ino. split; [done|]. intros [? Hk%zget_Some_range]. lia.
  - intros k Hk Hz%zget_Some_range. lia.
Qed.

(** *** Linking and unlinking *)

Lemma zget_ge (slots : list (option (list Z * Z))) k : ¬ (0 ≤ k < zlen slots) → zget slots k = None.
Proof. intros Hk. destruct (zget slots k) eqn:E; [|done]. by apply zget_Some_range in E. Qed.

Lemma slot_written_slots p sv sv' w w' k sd :
  dir_ok w (sv_i sv) → 0 ≤ k ≤ nslots (sv_i sv) → slot_written p sv sv' w w' k sd →
  ∀ j, zget (dslots w' (sv_i sv')) j =
       if decide (j = k) then Some (slot_of sd) else zget (dslots w (sv_i sv)) j.
Proof.
  intros Hd Hk (Hg & Hsz & Hfit & Hs) j. destruct (dir_size _ _ Hd) as [Hsize Hn].
  assert (Hn' : nslots (sv_i sv') = Z.max (nslots (sv_i sv)) (k + 1)).
  { unfold nslots in *. rewrite Hsz. Z.div_mod_to_equations. lia. }
  destruct (decide (0 ≤ j < nslots (sv_i sv'))).
  - rewrite zget_dslots, Hs by lia. case_decide; [done|]. rewrite zget_dslots by lia. done.
  - rewrite zget_ge by (rewrite zlen_dslots; lia). case_decide; [lia|].
    symmetry. apply zget_ge. rewrite zlen_dslots; lia.
Qed.

Lemma slot_written_dir_ok p sv sv' w w' k sd :
  dir_ok w (sv_i sv) → 0 ≤ k ≤ nslots (sv_i sv) → slot_written p sv sv' w w' k sd →
  (∀ l ino j ino', slot_of sd = Some (l, ino) → j ≠ k →
     zget (dslots w (sv_i sv)) j ≠ Some (Some (l, ino'))) →
  dir_ok w' (sv_i sv').
Proof.
  intros Hd Hk Hw Hnew. pose proof (slot_written_slots _ _ _ _ _ _ _ Hd Hk Hw) as Hslots.
  destruct (dir_size _ _ Hd) as [Hsize Hn]. pose proof Hw as ([] & Hsz & Hfit & _). pose proof Hd as [].
  split; [done|congruence| |unfold SFS_BLOCKSIZE in *; lia|].
  - rewrite Hsz. Z.div_mod_to_equations. lia.
  - intros j j' l ino ino'. rewrite !Hslots. repeat case_decide; subst; try done.
    + intros [= Hs] Hj. by destruct (Hnew l ino j' ino').
    + intros Hj [= Hs]. by destruct (Hnew l ino' j ino).
    + apply do_names0.
Qed.

Lemma kept_slots p sv sv' w w' :
  slots_kept p sv sv' w w' → dslots w' (sv_i sv') = dslots w (sv_i sv).
Proof.
  intros (_ & Hsz & Hb). unfold dslots, nslots. rewrite Hsz. apply list_fmap_ext. intros ? k _.
  unfold dirent. do 2 f_equal. by apply fbytes_ext.
Qed.
Lemma kept_dir_ok p sv sv' w w' :
  slots_kept p sv sv' w w' → dir_ok w (sv_i sv) → dir_ok w' (sv_i sv').
Proof.
  intros Hk []. pose proof Hk as ([] & Hsz & _). split; try congruence; try done.
  rewrite (kept_slots _ _ _ _ _ Hk). apply do_names0.
Qed.
Lemma kept_same p sv w w' :
  fs_ok w → w_sv w !! p = Some sv → file_ok w (sv_i sv) → same_data w w' → slots_kept p sv sv w w'.
Proof.
  intros Hok Hp Hf Hs. split_and!; [by apply grows_same|done|]. intros o. by rewrite Hs.
Qed.

Lemma new_slot ino (name sfd l : list Z) :
  ino ≠ 0 → cstring name l → zlen l < 60 → strcpy (replicate 60 0) name = Some sfd →
  length sfd = 60%nat ∧ bytes sfd ∧ slot_of (mkdir ino sfd) = Some (l, ino).
Proof.
  intros Hino Hl Hlen Hcpy. rewrite (strcpy_spec _ _ l) in Hcpy by done.
  assert (sfd = l ++ 0 :: zdrop (zlen l + 1) (replicate 60 0)) as -> by congruence. clear Hcpy.
  assert (Hlb : Forall (λ c, 0 < c < 256) l) by by destruct Hl as (_ & _ & ?).
  pose proof (zlen_nonneg l).
  assert (Hz : zdrop (zlen l + 1) (replicate 60 0) = replicate (59 - length l) 0).
  { unfold zdrop, zlen. rewrite drop_replicate. f_equal. lia. }
  rewrite Hz. clear Hz. unfold zlen in Hlen.
  assert (Hlz : length (l ++ 0 :: replicate (59 - length l) 0) = 60%nat).
  { rewrite length_app. cbn [length]. rewrite length_replicate. lia. }
  assert (Hby : bytes (l ++ 0 :: replicate (59 - length l) 0)).
  { apply Forall_app. split; [eapply Forall_impl; [done|]; simpl; lia|].
    apply Forall_cons. split; [lia|apply bytes_zeros]. }
  split_and!; [done|done|]. unfold slot_of. cbn [sfd_ino sfd_name].
  destruct (Z.eqb_spec ino SFS_NOINO); [done|]. do 2 f_equal.
  set (b := zset _ _ _). apply (cstring_inj b).
  - apply (cstr_of_spec b 59); [by apply Forall_zset|]. apply zget_zset_eq.
    unfold zlen. rewrite Hlz. lia.
  - unfold b. rewrite zset_app_r by (unfold zlen, SFS_NAMELEN; lia). unfold SFS_NAMELEN.
    destruct (decide (zlen l = 59)) as [->|]; [by eexists|].
    exists (zset (replicate (59 - length l) 0) (60 - 1 - zlen l - 1) 0). split; [|done]. f_equal.
    unfold zset. rewrite !decide_True by (unfold zlen in *; lia).
    replace (Z.to_nat (60 - 1 - zlen l)) with (S (Z.to_nat (60 - 1 - zlen l - 1))) by (unfold zlen in *; lia).
    done.
Qed.

(** Slot [k] was replaced by [x], in a directory that is still well formed. *)
Definition slot_put (p : Z) sv sv' w w' (k : Z) (x : option (list Z * Z)) : Prop :=
  grows p sv sv' w w' ∧ dir_ok w' (sv_i sv') ∧
  ∀ j, zget (dslots w' (sv_i sv')) j =
       if decide (j = k) then Some x else zget (dslots w (sv_i sv)) j.

Lemma slot_put_same_l p sv sv' w w1 w2 k x :
  same_data w w1 → slot_put p sv sv' w1 w2 k x → slot_put p sv sv' w w2 k x.
Proof.
  intros Hs (Hg & Hd & Hj). split_and!; [by eapply grows_same_l|done|].
  intros j. rewrite Hj. case_decide; [done|]. by rewrite <- Hs.
Qed.
Lemma kept_same_l p sv sv' w w1 w2 :
  same_data w w1 → slots_kept p sv sv' w1 w2 → slots_kept p sv sv' w w2.
Proof.
  intros Hs (Hg & Hsz & Hb). split_and!; [by eapply grows_same_l|done|].
  intros o. rewrite Hb. by rewrite <- Hs.
Qed.

Definition link_err w i (l : list Z) (e : errno) : Prop :=
  e = EEXIST ∧ (∃ k ino, zget (dslots w i) k = Some (Some (l, ino))) ∨
  e = ENAMETOOLONG ∧ 60 ≤ zlen l ∨ e = EIO ∨ e = ENOSPC ∨ e = EINVAL ∧ nslots i = 1144.

Lemma sfs_dir_link_spec p sv w name l ino :
  fs_ok w → w_sv w !! p = Some sv → dir_ok w (sv_i sv) → cstring name l →
  word32 ino → ino ≠ 0 →
  wp (sfs_dir_link p name ino)
     (λ k w', (∀ k' ino', zget (dslots w (sv_i sv)) k' ≠ Some (Some (l, ino'))) ∧
        (zget (dslots w (sv_i sv)) k = Some None ∨ k = nslots (sv_i sv)) ∧
        ∃ sv', slot_put p sv sv' w w' k (Some (l, ino)))
     (λ e w', link_err w (sv_i sv) l e ∧ ∃ sv', slots_kept p sv sv' w w') w.
Proof.
  intros Hok Hp Hd Hname Hino Hnz. destruct (dir_size _ _ Hd) as [Hsz Hn]. pose proof (do_file _ _ Hd) as Hf.
  assert (Hkeep : ∀ w', same_data w w' → ∃ sv', slots_kept p sv sv' w w')
    by (intros w' Hs; exists sv; by apply kept_same).
  unfold sfs_dir_link. wp_bind. wp_use sfs_dir_findname_spec; [done..| |done].
  intros [[r found] empty] w1 [Hs [->|(-> & Hfound & Hfree)]].
  { split; [unfold link_err; auto|auto]. }
  destruct found as [[k0 ino0]|].
  { split; [|auto]. left. split; [done|]. exists k0, ino0. by apply (Hfound k0 ino0). }
  assert (Hno : ∀ k' ino', zget (dslots w (sv_i sv)) k' ≠ Some (Some (l, ino'))).
  { intros k' ino' Hk. pose proof (zget_Some_range _ _ _ Hk) as Hr. rewrite zlen_dslots in Hr by lia.
    by pose proof (proj2 (Hfound k' ino') (conj (proj2 Hr) Hk)). }
  rewrite (strlen_spec _ l) by done. unfold SFS_NAMELEN. destruct (Z.gtb_spec (zlen l + 1) 60).
  { split; [|auto]. right. left. split; [done|lia]. }
  assert (Hp1 : w_sv w1 !! p = Some sv) by (by destruct Hs as (_ & _ & _ & ->)).
  assert (Hd1 : dir_ok w1 (sv_i sv)) by by rewrite <- Hs.
  wp_bind.
  apply (wp_mono _ (λ k w', w' = w1 ∧ 0 ≤ k ≤ nslots (sv_i sv) ∧
    (zget (dslots w (sv_i sv)) k = Some None ∨ k = nslots (sv_i sv))) _ (λ _ _, False)); [|..|done].
  { destruct empty as [k|]; simpl in Hfree.
    - destruct Hfree as [Hk Hz]. pose proof (zget_Some_range _ _ _ Hz). apply wp_ret. split_and!; [done|lia|lia|by left].
    - wp_use sfs_dir_nentries_spec; [done|done| |done]. intros k w' [-> ->]. split_and!; [done|lia|lia|by right]. }
  intros k w' (-> & Hk & Hfr).
  destruct (strcpy _ name) as [sfd|] eqn:Hcpy; [|by rewrite (strcpy_spec _ _ l) in Hcpy by (done || (rewrite zlen_replicate; lia))].
  destruct (new_slot ino name sfd l) as (Hlen & Hby & Hslot); [done|done|lia|done|].
  wp_bind. wp_use (sfs_writedir_spec p sv w1); [by rewrite <- Hs|done|done|done|done| |].
  - intros [] w2 (sv' & Hw). apply wp_ret. split_and!; [done|done|]. exists sv'.
    eapply slot_put_same_l; [done|]. split_and!; [apply Hw| |].
    + eapply slot_written_dir_ok; [done..|]. intros l' ino1 j ino' Hso _. rewrite Hslot in Hso.
      simplify_eq. rewrite <- Hs. apply Hno.
    + intros j. erewrite slot_written_slots by done. by rewrite Hslot.
  - intros e w2 (He & sv' & Hk'). split; [unfold link_err; naive_solver lia|]. exists sv'.
    by eapply kept_same_l.
Qed.

Lemma sfs_dir_unlink_spec p sv w k :
  fs_ok w → w_sv w !! p = Some sv → dir_ok w (sv_i sv) → 0 ≤ k < nslots (sv_i sv) →
  wp (sfs_dir_unlink p k) (λ _ w', ∃ sv', slot_put p sv sv' w w' k None)
     (λ e w', (e = EIO ∨ e = ENOSPC) ∧ ∃ sv', slots_kept p sv sv' w w') w.
Proof.
  intros Hok Hp Hd Hk. destruct (dir_size _ _ Hd) as [_ Hn]. unfold sfs_dir_unlink.
  assert (Hwf : dir_wf (mkdir SFS_NOINO (replicate 60 0))) by (split_and!; [done|done|apply bytes_zeros]).
  assert (Hk' : 0 ≤ k ≤ nslots (sv_i sv)) by lia. wp_use sfs_writedir_spec; [done..| |].
  - intros [] w' (sv' & Hw). exists sv'. split_and!; [apply Hw| |].
    + apply (slot_written_dir_ok _ _ _ _ _ _ _ Hd Hk' Hw). by intros l ino j ino' [=].
    + apply (slot_written_slots _ _ _ _ _ _ _ Hd Hk' Hw).
  - intros e w' (He & Hkept). split; [|done]. destruct He as [?|[?|[_ ?]]]; [auto|auto|lia].
Qed.
End spec.

(** ** The properties: a directory is a finite map from names to inodes *)

Section theorems.
Context {D H : Type} `{!BlockDev D, !BlockDevOk D, !Kmem H}.
Notation W := (world D H).
Implicit Types (w : W) (i j : sfs_inode) (sv : sfs_vnode) (m : gmap (list Z) Z).

Definition dir_maps w i m : Prop :=
  ∀ l ino, m !! l = Some ino ↔ ∃ k, zget (dslots w i) k = Some (Some (l, ino)).

Lemma kept_maps p sv sv' w w' m :
  slots_kept p sv sv' w w' → dir_maps w (sv_i sv) m → dir_maps w' (sv_i sv') m.
Proof. intros Hk Hm l ino. rewrite (Hm l ino). by rewrite (kept_slots _ _ _ _ _ Hk). Qed.

Lemma put_maps_insert p sv sv' w w' k l ino m :
  dir_maps w (sv_i sv) m → m !! l = None →
  zget (dslots w (sv_i sv)) k = Some None ∨ zget (dslots w (sv_i sv)) k = None →
  slot_put p sv sv' w w' k (Some (l, ino)) → dir_maps w' (sv_i sv') (<[l := ino]> m).
Proof.
  intros Hm Hl Hk (_ & _ & Hs) l' ino'. rewrite lookup_insert_Some, (Hm l' ino').
  setoid_rewrite Hs. split.
  - intros [[<- <-]|[Hne (j & Hj)]]; [exists k; by rewrite decide_True|]. exists j.
    rewrite decide_False; [done|]. intros ->. naive_solver.
  - intros (j & Hj). case_decide; [simplify_eq; by left|]. right. split; [|by exists j].
    intros <-. assert (m !! l = Some ino') by (apply Hm; by exists j). congruence.
Qed.

Lemma put_maps_delete p sv sv' w w' k l ino m :
  dir_ok w (sv_i sv) → dir_maps w (sv_i sv) m → zget (dslots w (sv_i sv)) k = Some (Some (l, ino)) →
  slot_put p sv sv' w w' k None → dir_maps w' (sv_i sv') (delete l m).
Proof.
  intros Hd Hm Hk (_ & _ & Hs) l' ino'. rewrite lookup_delete_Some, (Hm l' ino').
  setoid_rewrite Hs. split.
  - intros [Hne (j & Hj)]. exists j. rewrite decide_False; [done|]. intros ->. congruence.
  - intros (j & Hj). case_decide; [done|]. split; [|by exists j]. intros <-.
    by pose proof (do_names _ _ Hd _ _ _ _ _ Hj Hk).
Qed.

(** Searching a directory for a name reports the inode the directory maps it
    to and the slot it is in, or ENOENT exactly when there is none; a slot
    reported as free is free; nothing on the volume changes. *)
Theorem sfs_dir_findname_correct p sv w name l m :
  fs_ok w → w_sv w !! p = Some sv → dir_ok w (sv_i sv) → cstring name l →
  dir_maps w (sv_i sv) m →
  wp (sfs_dir_findname p name)
     (λ out w', same_data w w' ∧
        (out.1.1 = Some EIO ∨
         match m !! l with
         | Some ino => out.1.1 = None ∧ ∃ k, out.1.2 = Some (k, ino) ∧
                       zget (dslots w (sv_i sv)) k = Some (Some (l, ino))
         | None => out.1.1 = Some ENOENT
         end ∧ ∀ k, out.2 = Some k → zget (dslots w (sv_i sv)) k = Some None))
     (λ _ _, False) w.
Proof.
  intros Hok Hp Hd Hname Hm. wp_use sfs_dir_findname_spec; [done..| |done].
  intros [[r found] empty] w' [Hs [->|(-> & Hfound & Hfree)]]; (split; [done|]); [by left|right].
  split; [|by intros k [= ->]; apply Hfree]. destruct (m !! l) as [ino|] eqn:E.
  - apply Hm in E as (k & Hk). pose proof (zget_Some_range _ _ _ Hk) as Hr.
    destruct (dir_size _ _ Hd). rewrite zlen_dslots in Hr by lia.
    rewrite (proj2 (Hfound k ino) (conj (proj2 Hr) Hk)). split; [done|by exists k].
  - destruct found as [[k ino]|]; [|done]. destruct (proj1 (Hfound k ino) eq_refl) as [_ Hk].
    assert (m !! l = Some ino) by (apply Hm; by exists k). congruence.
Qed.

(** C36 Linking adds the name to the map, and only when it is not there yet; no
    other file changes.  An error says why (the name exists, is longer than 59
    characters, the disk is full or failing, or the directory has its maximum
    of 1144 slots) and leaves the map as it was. *)
Theorem sfs_dir_link_correct p sv w name l ino m j :
  fs_ok w → w_sv w !! p = Some sv → dir_ok w (sv_i sv) → cstring name l →
  dir_maps w (sv_i sv) m → word32 ino → ino ≠ 0 → file_ok w j → apart w (sv_i sv) j →
  let dir_is m' w' := fs_ok w' ∧ ∃ sv', w_sv w' = <[p := sv']> (w_sv w) ∧
    dir_ok w' (sv_i sv') ∧ dir_maps w' (sv_i sv') m' ∧
    file_ok w' j ∧ ∀ o, fbyte w' j o = fbyte w j o in
  wp (sfs_dir_link p name ino)
     (λ _ w', m !! l = None ∧ dir_is (<[l := ino]> m) w')
     (λ e w', (e = EEXIST ∧ is_Some (m !! l) ∨ e = ENAMETOOLONG ∧ 60 ≤ zlen l ∨ e = EIO ∨
               e = ENOSPC ∨ e = EINVAL ∧ nslots (sv_i sv) = 1144) ∧ dir_is m w') w.
Proof.
  intros Hok Hp Hd Hname Hm Hino Hnz Hj Hap dir_is.
  wp_use (sfs_dir_link_spec p sv); [done..| |].
  - intros k w' (Hno & Hfr & sv' & Hput). pose proof Hput as (Hg & Hd' & _).
    assert (Hl : m !! l = None).
    { destruct (m !! l) as [ino'|] eqn:E; [|done]. apply Hm in E as (k' & Hk'). by destruct (Hno k' ino'). }
    destruct (grows_isolates _ _ _ _ _ j Hg Hj Hap) as (? & _ & ?). destruct (dir_size _ _ Hd).
    split; [done|]. split; [apply Hg|]. exists sv'. split_and!; [apply Hg|done| |done|done].
    eapply put_maps_insert; [done..| |done]. destruct Hfr as [?| ->]; [by left|right].
    apply zget_ge. rewrite zlen_dslots; lia.
  - intros e w' (He & sv' & Hk). pose proof Hk as (Hg & _).
    destruct (grows_isolates _ _ _ _ _ j Hg Hj Hap) as (? & _ & ?). split.
    + destruct He as [[-> (k & ino' & Hk')]|He]; [left|by right]. split; [done|].
      exists ino'. apply Hm. by exists k.
    + split; [apply Hg|]. exists sv'.
      split_and!; [apply Hg|by eapply kept_dir_ok|by eapply kept_maps|done|done].
Qed.

(** C37 Unlinking the slot of a name removes that name from the map and nothing
    else; if the disk fails the map is as it was. *)
Theorem sfs_dir_unlink_correct p sv w k l ino m :
  fs_ok w → w_sv w !! p = Some sv → dir_ok w (sv_i sv) → dir_maps w (sv_i sv) m →
  zget (dslots w (sv_i sv)) k = Some (Some (l, ino)) →
  let dir_is m' w' := fs_ok w' ∧ ∃ sv', w_sv w' = <[p := sv']> (w_sv w) ∧
    dir_ok w' (sv_i sv') ∧ dir_maps w' (sv_i sv') m' in
  wp (sfs_dir_unlink p k) (λ _, dir_is (delete l m))
     (λ e w', (e = EIO ∨ e = ENOSPC) ∧ dir_is m w') w.
Proof.
  intros Hok Hp Hd Hm Hk dir_is. pose proof (zget_Some_range _ _ _ Hk) as Hr.
  destruct (dir_size _ _ Hd). rewrite zlen_dslots in Hr by lia.
  wp_use (sfs_dir_unlink_spec p sv); [done..| |].
  - intros [] w' (sv' & Hput). pose proof Hput as (Hg & ? & _). split; [apply Hg|]. exists sv'.
    split_and!; [apply Hg|done|by apply (put_maps_delete p sv sv' w w' k l ino)].
  - intros e w' (He & sv' & Hkept). pose proof Hkept as (Hg & _). split; [done|].
    split; [apply Hg|]. exists sv'. split_and!; [apply Hg|by eapply kept_dir_ok|by eapply kept_maps].
Qed.
End theorems.

(** ** Witnesses *)

(** A directory of two slots in block 4: the first holds the name "a" for the
    inode in block 3, the second is free. *)
Module DirVol.
Definition entry : sfs_dir := mkdir 3 (97 :: replicate 59 0).
Definition root : sfs_vnode :=
  mksv (mkinode 128 SFS_TYPE_DIR 1 (4 :: replicate 14 0) 0 (replicate 110 0)) 1 false.
Definition vol : world (lhd_softc SimDisk.disk) Toy.heap :=
  ToyVol.vol (replicate 4 zeroblock ++ [enc_dir entry ++ replicate 448 0] ++ replicate 3 zeroblock)
             31 {[100 := root]}.

Lemma dirvol_ok : fs_ok vol.
Proof.
  apply ToyVol.vol_ok; try done.
  assert (Hz : block_ok zeroblock) by (split; [done|apply bytes_zeros]).
  repeat apply Forall_app_2; try by apply Forall_replicate.
  repeat apply Forall_cons_2; [|apply Forall_nil_2].
  split; [done|]. apply bytes_app. split; [|apply bytes_zeros].
  apply enc_dir_bytes. split_and!; [done|done|]. constructor; [done|apply bytes_zeros].
Qed.
Lemma slots_root : dslots vol (sv_i root) = [Some ([97], 3); None].
Proof. vm_compute. reflexivity. Qed.
Lemma root_file : file_ok vol (sv_i root).
Proof.
  assert (Ho : owned vol (sv_i root) = [4]) by (vm_compute; reflexivity).
  split; rewrite ?Ho.
  - split; try done; unfold root, sv_i; cbn [sfi_direct sfi_waste]; (split; [done|]).
    + constructor; [done|]. by apply Forall_replicate.
    + by apply Forall_replicate.
  - intros b ->%list_elem_of_singleton. split_and!; [done|done|]. split; [done|]. vm_compute. done.
  - apply (bool_decide_unpack _). vm_compute. exact I.
Qed.
Lemma root_ok : dir_ok vol (sv_i root).
Proof.
  split; try done; [apply root_file|]. rewrite slots_root. intros k k' l ino ino' Hk Hk'.
  pose proof (zget_Some_range _ _ _ Hk) as Hr. pose proof (zget_Some_range _ _ _ Hk') as Hr'.
  unfold zlen in *; simpl in *.
  assert (k = 0 ∨ k = 1) as [->| ->] by lia; assert (k' = 0 ∨ k' = 1) as [->| ->] by lia; done.
Qed.
Lemma root_maps : dir_maps vol (sv_i root) {[[97] := 3]}.
Proof.
  intros l ino. rewrite slots_root, lookup_singleton_Some. split.
  - intros [<- <-]. by exists 0.
  - intros (k & Hk). pose proof (zget_Some_range _ _ _ Hk) as Hr. unfold zlen in *; simpl in *.
    assert (k = 0 ∨ k = 1) as [->| ->] by lia; [|done]. by injection Hk.
Qed.
Lemma name_ok (l : list Z) : Forall (λ c, 0 < c < 256) l → cstring (l ++ [0]) l.
Proof. intros. by exists []. Qed.
End DirVol.

Lemma sfs_dir_findname_correct_witness :
  wp (sfs_dir_findname 100 [97; 0])
     (λ out _, out.1.1 = Some EIO ∨ out.1.1 = None ∧ ∃ k, out.1.2 = Some (k, 3))
     (λ _ _, False) DirVol.vol.
Proof.
  eapply wp_mono;
    [apply (sfs_dir_findname_correct 100 DirVol.root DirVol.vol [97; 0] [97] {[[97] := 3]})|..].
  - exact DirVol.dirvol_ok.
  - reflexivity.
  - exact DirVol.root_ok.
  - apply (DirVol.name_ok [97]). repeat constructor.
  - exact DirVol.root_maps.
  - intros out w' [_ [He|[Hr _]]]; [left; exact He|right].
    change (_ !! [97]) with (Some 3) in Hr. destruct Hr as (Hr & k & Hk & _).
    split; [exact Hr|]. exists k. exact Hk.
  - intros e w' [].
Defined.

Lemma sfs_dir_link_correct_witness :
  wp (sfs_dir_link 100 [98; 0] 3)
     (λ _ w', ∃ sv', w_sv w' !! 100 = Some sv' ∧
                     dir_maps w' (sv_i sv') (<[[98] := 3]> {[[97] := 3]})) (λ e _, e ≠ EEXIST) DirVol.vol.
Proof.
  eapply wp_mono;
    [apply (sfs_dir_link_correct 100 DirVol.root DirVol.vol [98; 0] [98] 3 {[[97] := 3]}
              (ToyVol.inode SFS_TYPE_FILE))|..].
  - exact DirVol.dirvol_ok.
  - reflexivity.
  - exact DirVol.root_ok.
  - apply (DirVol.name_ok [98]). repeat constructor.
  - exact DirVol.root_maps.
  - split; [discriminate|reflexivity].
  - discriminate.
  - apply ToyVol.inode_ok. split; [discriminate|reflexivity].
  - intros b _. rewrite ToyVol.owned_empty. apply not_elem_of_nil.
  - intros k w' (_ & _ & sv' & Hsv & _ & Hm & _). exists sv'. rewrite Hsv.
    split; [apply lookup_insert_eq|exact Hm].
  - intros e w' [He _] ->. destruct He as [[_ [x Hx]]|[[He _]|[He|[He|[He _]]]]];
      [discriminate Hx|discriminate He|discriminate He|discriminate He|discriminate He].
Defined.

Lemma sfs_dir_unlink_correct_witness :
  wp (sfs_dir_unlink 100 0)
     (λ _ w', ∃ sv', w_sv w' !! 100 = Some sv' ∧ dir_maps w' (sv_i sv') ∅) (λ e _, e ≠ EINVAL) DirVol.vol.
Proof.
  eapply wp_mono;
    [apply (sfs_dir_unlink_correct 100 DirVol.root DirVol.vol 0 [97] 3 {[[97] := 3]})|..].
  - exact DirVol.dirvol_ok.
  - reflexivity.
  - exact DirVol.root_ok.
  - exact DirVol.root_maps.
  - rewrite DirVol.slots_root. reflexivity.
  - intros _ w' (_ & sv' & Hsv & _ & Hm). exists sv'. rewrite Hsv.
    split; [apply lookup_insert_eq|]. change ∅ with (delete [97] {[[97] := 3]} : gmap (list Z) Z). exact Hm.
  - intros e w' [[He|He] _] ->; discriminate He.
Defined.
