(* ===== verification/SfsVnode.v ===== *)
(** * SFS vnode operations (kern/fs/sfs/sfs_vnode.c)

    The table of loaded vnodes, looking names up, creating and destroying
    objects, and the two operation tables with the calls that go through them.
    A [struct vnode *] is its address; the [struct sfs_vnode] around it has the
    same one and is reached through [vn_data]. *)

From S2P Require Import Prelude KString Kmem KArray KBitmap CopyInOut Uio BlockDev Vnode.
From S2P Require Import SfsDisk SfsCore SfsFile SfsTrunc SfsDir.

Definition sizeof_sfs_vnode : Z := 544.
Definition S_IFREG : Z := 4096.
Definition S_IFDIR : Z := 8192.
Definition O_RDONLY : Z := 0.
Definition O_APPEND : Z := 32.
Definition O_ACCMODE : Z := 3.

Record stat := mkstat { st_mode : Z; st_nlink : Z; st_size : Z; st_blocks : Z }.

Section vnode_ops.
Context {D H : Type} `{!BlockDev D, !Kmem H}.
Notation W := (world D H).

(** ** The table of loaded vnodes *)

Definition set_vnodes (a : array Z) (f : sfs_fs) : sfs_fs :=
  mksfs (sfs_self f) (sfs_sb f) (sfs_superdirty f) a (sfs_freemap f) (sfs_freemapdirty f).
Definition set_heap (h : H) (k : vst H) : vst H := mkvst h (vs_locks k) (vs_vn k) (vs_cur k).
(** An operation on the array, which lives on the kernel heap. *)
Definition in_tbl {A} (c : M (H * array Z) A) : M W A :=
  zoom (λ w, (vs_heap (w_k w), sfs_vnodes (w_fs w)))
       (λ s w, set_fs (set_vnodes s.2 (w_fs w)) (set_k (set_heap s.1 (w_k w)) w)) c.
(** [array_getguy] of a slot that holds a pointer. *)
Definition tbl_get (i : Z) : M W Z :=
  let! a := gets (λ w, sfs_vnodes (w_fs w)) in
  match array_getguy a i with Some (Some p) => ret p | _ => panic end.
Definition tbl_num : M W Z := gets (λ w, array_getnum (sfs_vnodes (w_fs w))).

(** [kfree(sv)]: the structure is gone with the block. *)
Definition free_sv (p : Z) : M W unit :=
  in_k (vheap (kfree p)) ;;;
  modify (λ w, set_svs (delete p (w_sv w))
    (set_k (mkvst (vs_heap (w_k w)) (vs_locks (w_k w)) (delete p (vs_vn (w_k w))) (vs_cur (w_k w))) w)).

(** The search through the table. *)
Fixpoint find_vnode (n : nat) (i ino forcetype : Z) : M W (option Z) :=
  match n with
  | O => ret None
  | S n' =>
      let! sv := tbl_get i in
      let! v := get_sv sv in
      let! used := sfs_bused (sv_ino v) in
      if negb used then panic
      else if sv_ino v =? ino then
        kassert (forcetype =? SFS_TYPE_INVAL) ;;;
        in_k (vnode_incref sv) ;;;
        ret (Some sv)
      else find_vnode n' (i + 1) ino forcetype
  end.

(** The rest of [sfs_loadvnode] once the inode is in memory. *)
Definition install_vnode (sv ino : Z) (i : sfs_inode) (dirty : bool) (ops : vnode_ops) : M W Z :=
  let! self := gets (λ w, sfs_self (w_fs w)) in
  let! r := try (in_k (vnode_init sv (Some ops) self sv)) in
  match r with
  | inl e => free_sv sv ;;; fail e
  | inr _ =>
      put_sv sv (mksv i ino dirty) ;;;
      let! r := try (in_tbl (array_add sv)) in
      match r with
      | inl e => in_k (vnode_kill sv) ;;; free_sv sv ;;; fail e
      | inr _ => ret sv
      end
  end.

Definition sfs_loadvnode (ino forcetype : Z) : M W Z :=
  let! num := tbl_num in
  let! f := find_vnode (Z.to_nat num) 0 ino forcetype in
  match f with
  | Some sv => ret sv
  | None =>
      let! sv := in_k (vheap (kmalloc sizeof_sfs_vnode)) in
      if sv =? 0 then fail ENOMEM
      else
        let! used := sfs_bused ino in
        if negb used then panic
        else
          let! r := try (sfs_rblock zeroblock ino) in
          match r with
          | inl e => free_sv sv ;;; fail e
          | inr l =>
              let! ' (i, dirty) :=
                (if negb (forcetype =? SFS_TYPE_INVAL) then
                   kassert (sfi_type (dec_inode l) =? SFS_TYPE_INVAL) ;;;
                   ret (set_type forcetype (dec_inode l), true)
                 else ret (dec_inode l, false)) in
              if sfi_type i =? SFS_TYPE_FILE then install_vnode sv ino i dirty sfs_fileops
              else if sfi_type i =? SFS_TYPE_DIR then install_vnode sv ino i dirty sfs_dirops
              else panic
          end
  end.

Definition sfs_getroot : M W Z :=
  let! r := try (sfs_loadvnode SFS_ROOT_LOCATION SFS_TYPE_INVAL) in
  match r with inl _ => panic | inr sv => ret sv end.

(** ** Lookup and object creation *)

(** The vnode and the slot. *)
Definition sfs_lookonce (sv : Z) (name : list Z) : M W (Z * Z) :=
  let! ' (result, found, _) := sfs_dir_findname sv name in
  match result, found with
  | Some e, _ => fail e
  | None, Some (slot, ino) =>
      let! r := sfs_loadvnode ino SFS_TYPE_INVAL in
      let! v := get_sv r in
      if sfi_linkcount (sv_i v) =? 0 then panic else ret (r, slot)
  | None, None => panic
  end.

Definition sfs_makeobj (type : Z) : M W Z :=
  let! ino := sfs_balloc in
  sfs_loadvnode ino type.

(** ** Operations on any object *)

Definition sfs_notdir {S A} : M S A := fail ENOTDIR.
Definition sfs_isdir {S A} : M S A := fail EISDIR.
Definition sfs_unimp {S A} : M S A := fail EUNIMP.

(** [__VOP(vn, sym)]: the check, then the entry of the table. *)
Definition VOP {A} (vn : Z) (reclaim : bool) (entry : vnode_ops → M W A) : M W A :=
  in_k (vnode_check vn reclaim) ;;;
  let! v := in_k (get_vn vn) in
  match vn_ops v with None => panic | Some o => entry o end.
(** [v->vn_data]. *)
Definition data_of (v : Z) : M W Z := let! vn := in_k (get_vn v) in ret (vn_data vn).

Definition sfs_open (v openflags : Z) : M W unit :=
  if negb (Z.land openflags O_APPEND =? 0) then fail EUNIMP else ret tt.
Definition sfs_opendir (v openflags : Z) : M W unit :=
  if Z.land openflags O_ACCMODE =? O_RDONLY then
    if negb (Z.land openflags O_APPEND =? 0) then fail EISDIR else ret tt
  else fail EISDIR.

Definition sfs_fsync (v : Z) : M W unit :=
  let! sv := data_of v in sfs_sync_inode sv.
Definition VOP_FSYNC (vn : Z) : M W unit := VOP vn false (λ _, sfs_fsync vn).
Definition sfs_close (v : Z) : M W unit := VOP_FSYNC v.

Definition vop_truncate (o : vnode_ops) (v len : Z) : M W unit :=
  match o with
  | sfs_fileops => let! sv := data_of v in sfs_truncate sv len
  | sfs_dirops => sfs_isdir
  end.
Definition VOP_TRUNCATE (vn len : Z) : M W unit := VOP vn false (λ o, vop_truncate o vn len).

(** The index of [sv] in the table. *)
Fixpoint tbl_index (n : nat) (i sv : Z) : M W (option Z) :=
  match n with
  | O => ret None
  | S n' =>
      let! sv2 := tbl_get i in
      if sv2 =? sv then ret (Some i) else tbl_index n' (i + 1) sv
  end.

(** Reclaiming once nobody else can hold the vnode: erase the file if no name
    leads to it, else write its inode back; *)
Definition erase_or_sync (sv : Z) : M W unit :=
  let! v := get_sv sv in
  when (sfi_linkcount (sv_i v) =? 0) (VOP_TRUNCATE sv 0) ;;;
  sfs_sync_inode sv ;;;
  let! v := get_sv sv in
  when (sfi_linkcount (sv_i v) =? 0) (sfs_bfree (sv_ino v)).
(** then remove the vnode from the table and from memory. *)
Definition drop_vnode (sv : Z) : M W unit :=
  let! num := tbl_num in
  let! ix := tbl_index (Z.to_nat num) 0 sv in
  match ix with
  | None => panic
  | Some ix =>
      in_tbl (array_remove ix) ;;;
      in_k (vnode_kill sv) ;;;
      free_sv sv
  end.

Definition sfs_reclaim (v : Z) : M W unit :=
  let! vn := in_k (get_vn v) in
  in_k (lock_acquire (vn_countlock vn)) ;;;
  if negb (vn_refcount vn =? 1) then
    kassert (vn_refcount vn >? 1) ;;;
    in_k (set_vn v (set_refcount (vn_refcount vn - 1) vn)) ;;;
    in_k (lock_release (vn_countlock vn)) ;;;
    fail EBUSY
  else
    in_k (lock_release (vn_countlock vn)) ;;;
    erase_or_sync (vn_data vn) ;;;
    drop_vnode (vn_data vn).

(** [VOP_DECREF]: both tables have [sfs_reclaim]. *)
Definition VOP_DECREF (vn : Z) : M W unit := vnode_decref (λ A, in_k) sfs_reclaim vn.

Definition sfs_read (v : Z) : M (W * ustate) unit :=
  let! sv := onw (data_of v) in
  let! u := the_uio in
  kassert (is_read u) ;;;
  sfs_io sv.
Definition sfs_write (v : Z) : M (W * ustate) unit :=
  let! sv := onw (data_of v) in
  let! u := the_uio in
  kassert (is_write u) ;;;
  sfs_io sv.
Definition sfs_ioctl (v op data : Z) : M W unit := fail EINVAL.

Definition sfs_gettype (v : Z) : M W Z :=
  let! sv := data_of v in
  let! s := get_sv sv in
  if sfi_type (sv_i s) =? SFS_TYPE_FILE then ret S_IFREG
  else if sfi_type (sv_i s) =? SFS_TYPE_DIR then ret S_IFDIR
  else panic.
Definition sfs_stat (v : Z) : M W stat :=
  let! sv := data_of v in
  let! mode := VOP v false (λ _, sfs_gettype v) in
  let! s := get_sv sv in
  ret (mkstat mode 0 (i32 (sfi_size (sv_i s))) 0).
Definition sfs_tryseek (v pos : Z) : M W unit := if pos <? 0 then fail EINVAL else ret tt.
Definition sfs_mmap (v : Z) : M W unit := fail EUNIMP.
Definition sfs_namefile (vv : Z) : M (W * ustate) unit :=
  let! sv := onw (data_of vv) in
  let! s := onw (get_sv sv) in
  kassert (sv_ino s =? SFS_ROOT_LOCATION).

(** ** Operations on directories *)

(** [sfi_linkcount] is 16 bits wide. *)
Definition add_links (sv d : Z) : M W unit :=
  let! v := get_sv sv in
  put_sv sv (upd_inode (set_linkcount (u16 (sfi_linkcount (sv_i v) + d))) v).

Definition sfs_creat (v : Z) (name : list Z) (excl : bool) : M W Z :=
  let! sv := data_of v in
  let! ' (result, found, _) := sfs_dir_findname sv name in
  match result, found with
  | None, Some (_, ino) =>
      if excl then fail EEXIST else sfs_loadvnode ino SFS_TYPE_INVAL
  | None, None => panic
  | Some ENOENT, _ =>
      let! newguy := sfs_makeobj SFS_TYPE_FILE in
      let! n := get_sv newguy in
      let! r := try (sfs_dir_link sv name (sv_ino n)) in
      match r with
      | inl e => VOP_DECREF newguy ;;; fail e
      | inr _ => add_links newguy 1 ;;; ret newguy
      end
  | Some e, _ => fail e
  end.

Definition sfs_link (dir : Z) (name : list Z) (file : Z) : M W unit :=
  let! d := in_k (get_vn dir) in
  let! f := in_k (get_vn file) in
  kassert (vn_fs f =? vn_fs d) ;;;
  let! s := get_sv (vn_data f) in
  sfs_dir_link (vn_data d) name (sv_ino s) ;;;
  add_links (vn_data f) 1.

Definition sfs_remove (dir : Z) (name : list Z) : M W unit :=
  let! sv := data_of dir in
  let! ' (victim, slot) := sfs_lookonce sv name in
  let! result := try (sfs_dir_unlink sv slot) in
  (match result with
   | inl _ => ret tt
   | inr _ =>
       let! v := get_sv victim in
       kassert (sfi_linkcount (sv_i v) >? 0) ;;;
       add_links victim (-1)
   end) ;;;
  VOP_DECREF victim ;;;
  match result with inl e => fail e | inr _ => ret tt end.

(** The part of [sfs_rename] between the lookup and the final [VOP_DECREF]. *)
Definition rename_links (sv g1 slot1 : Z) (n2 : list Z) : M W unit :=
  let! g := get_sv g1 in
  let! slot2 := sfs_dir_link sv n2 (sv_ino g) in
  add_links g1 1 ;;;
  let! result := try (sfs_dir_unlink sv slot1) in
  match result with
  | inr _ =>
      let! g := get_sv g1 in
      kassert (sfi_linkcount (sv_i g) >? 0) ;;;
      add_links g1 (-1)
  | inl e =>
      let! result2 := try (sfs_dir_unlink sv slot2) in
      match result2 with
      | inl _ => panic
      | inr _ =>
          let! g := get_sv g1 in
          put_sv g1 (mksv (set_linkcount (u16 (sfi_linkcount (sv_i g) - 1)) (sv_i g))
                          (sv_ino g) (sv_dirty g)) ;;;
          fail e
      end
  end.

Definition sfs_rename (d1 : Z) (n1 : list Z) (d2 : Z) (n2 : list Z) : M W unit :=
  let! sv := data_of d1 in
  kassert (d1 =? d2) ;;;
  let! s := get_sv sv in
  kassert (sv_ino s =? SFS_ROOT_LOCATION) ;;;
  let! ' (g1, slot1) := sfs_lookonce sv n1 in
  let! g := get_sv g1 in
  kassert (sfi_type (sv_i g) =? SFS_TYPE_FILE) ;;;
  let! result := try (rename_links sv g1 slot1 n2) in
  VOP_DECREF g1 ;;;
  match result with inl e => fail e | inr _ => ret tt end.

(** The vnode of the directory, and [buf] with the last component. *)
Definition sfs_lookparent (v : Z) (path buf : list Z) : M W (Z * list Z) :=
  let! sv := data_of v in
  let! s := get_sv sv in
  if negb (sfi_type (sv_i s) =? SFS_TYPE_DIR) then fail ENOTDIR
  else
    match strlen path with
    | None => panic
    | Some n =>
        if n + 1 >? zlen buf then fail ENAMETOOLONG
        else
          match strcpy buf path with
          | None => panic
          | Some buf' => in_k (vnode_incref sv) ;;; ret (sv, buf')
          end
    end.

Definition sfs_lookup (v : Z) (path : list Z) : M W Z :=
  let! sv := data_of v in
  let! s := get_sv sv in
  if negb (sfi_type (sv_i s) =? SFS_TYPE_DIR) then fail ENOTDIR
  else
    let! ' (final, _) := sfs_lookonce sv path in
    ret final.

(** ** The operation tables *)

Record ops_table := {
  vop_open : Z → Z → M W unit;
  vop_close : Z → M W unit;
  vop_reclaim : Z → M W unit;
  vop_read : Z → M (W * ustate) unit;
  vop_readlink : Z → M (W * ustate) unit;
  vop_getdirentry : Z → M (W * ustate) unit;
  vop_write : Z → M (W * ustate) unit;
  vop_ioctl : Z → Z → Z → M W unit;
  vop_stat : Z → M W stat;
  vop_gettype : Z → M W Z;
  vop_tryseek : Z → Z → M W unit;
  vop_fsync : Z → M W unit;
  vop_mmap : Z → M W unit;
  vop_trunc : Z → Z → M W unit;
  vop_namefile : Z → M (W * ustate) unit;
  vop_creat : Z → list Z → bool → M W Z;
  vop_symlink : Z → list Z → list Z → M W unit;
  vop_mkdir : Z → list Z → M W unit;
  vop_link : Z → list Z → Z → M W unit;
  vop_remove : Z → list Z → M W unit;
  vop_rmdir : Z → list Z → M W unit;
  vop_rename : Z → list Z → Z → list Z → M W unit;
  vop_lookup : Z → list Z → M W Z;
  vop_lookparent : Z → list Z → list Z → M W (Z * list Z);
}.

Definition fileops_table : ops_table := {|
  vop_open := sfs_open; vop_close := sfs_close; vop_reclaim := sfs_reclaim;
  vop_read := sfs_read; vop_readlink _ := sfs_notdir; vop_getdirentry _ := sfs_notdir;
  vop_write := sfs_write; vop_ioctl := sfs_ioctl; vop_stat := sfs_stat;
  vop_gettype := sfs_gettype; vop_tryseek := sfs_tryseek; vop_fsync := sfs_fsync;
  vop_mmap := sfs_mmap; vop_trunc := vop_truncate sfs_fileops; vop_namefile _ := sfs_notdir;
  vop_creat _ _ _ := sfs_notdir; vop_symlink _ _ _ := sfs_notdir; vop_mkdir _ _ := sfs_notdir;
  vop_link _ _ _ := sfs_notdir; vop_remove _ _ := sfs_notdir; vop_rmdir _ _ := sfs_notdir;
  vop_rename _ _ _ _ := sfs_notdir; vop_lookup _ _ := sfs_notdir;
  vop_lookparent _ _ _ := sfs_notdir |}.

Definition dirops_table : ops_table := {|
  vop_open := sfs_opendir; vop_close := sfs_close; vop_reclaim := sfs_reclaim;
  vop_read _ := sfs_isdir; vop_readlink _ := sfs_isdir; vop_getdirentry _ := sfs_unimp;
  vop_write _ := sfs_isdir; vop_ioctl := sfs_ioctl; vop_stat := sfs_stat;
  vop_gettype := sfs_gettype; vop_tryseek _ _ := sfs_unimp; vop_fsync := sfs_fsync;
  vop_mmap _ := sfs_isdir; vop_trunc := vop_truncate sfs_dirops; vop_namefile := sfs_namefile;
  vop_creat := sfs_creat; vop_symlink _ _ _ := sfs_unimp; vop_mkdir _ _ := sfs_unimp;
  vop_link := sfs_link; vop_remove := sfs_remove; vop_rmdir _ _ := sfs_unimp;
  vop_rename := sfs_rename; vop_lookup := sfs_lookup; vop_lookparent := sfs_lookparent |}.

Definition table_of (o : vnode_ops) : ops_table :=
  match o with sfs_fileops => fileops_table | sfs_dirops => dirops_table end.

End vnode_ops.
