(* ===== verification/SfsVnodeSpec.v ===== *)
(** * SFS vnodes: the table of loaded vnodes, loading and reclaiming *)

From S2P Require Import Prelude KString Kmem KArray KBitmap CopyInOut Uio BlockDev Lhd Vnode.
From S2P Require Import SfsDisk SfsCore SfsSpec SfsMap SfsFile SfsFileSpec SfsFileThm SfsTrunc.
From S2P Require Import SfsDir SfsVnode.

Section table.
Context {D H : Type} `{!BlockDev D, !BlockDevOk D, !Kmem H, !KmemOk H}.
Notation W := (world D H).
Implicit Types (w : W) (sv : sfs_vnode) (v : vnode) (p : Z) (tbl : list Z).

(** ** The table *)

Definition ops_for (type : Z) : option vnode_ops :=
  if type =? SFS_TYPE_FILE then Some sfs_fileops
  else if type =? SFS_TYPE_DIR then Some sfs_dirops else None.

(** [p] is a loaded vnode: its inode block is in use, its abstract part is
    consistent, and its count lock is free. *)
Record loaded w p sv v : Prop := {
  ld_sv : w_sv w !! p = Some sv;
  ld_ino : 0 < sv_ino sv < nblk w;
  ld_used : used w (sv_ino sv);
  ld_vn : vn_quiet (w_k w) p v;
  ld_data : vn_data v = p;
  ld_ops : vn_ops v = ops_for (sfi_type (sv_i sv));
  ld_some : is_Some (vn_ops v);
  ld_fs : vn_fs v ≠ DEADBEEF;
  ld_ref : 0 < vn_refcount v < 2147483647;
  ld_open : 0 ≤ vn_opencount v;
}.

(** The table lists the loaded vnodes, one per inode. *)
Record table_ok w tbl : Prop := {
  tb_wf : array_wf (sfs_vnodes (w_fs w));
  tb_contents : arr_contents (sfs_vnodes (w_fs w)) = Some <$> tbl;
  tb_loaded : ∀ p, p ∈ tbl → ∃ sv v, loaded w p sv v;
  tb_inos : ∀ p p' sv sv', p ∈ tbl → p' ∈ tbl → w_sv w !! p = Some sv → w_sv w !! p' = Some sv' →
    sv_ino sv = sv_ino sv' → p = p';
}.

Lemma tbl_len w tbl : table_ok w tbl → array_getnum (sfs_vnodes (w_fs w)) = zlen tbl.
Proof.
  intros [[Hn Hs _ _] Hc _ _]. apply (f_equal zlen) in Hc. unfold arr_contents in Hc.
  rewrite zlen_ztake in Hc by lia. unfold array_getnum, zlen in *. rewrite length_fmap in Hc. lia.
Qed.
Lemma tbl_get_spec w tbl i p : table_ok w tbl → zget tbl i = Some p → tbl_get i w = Ok p w.
Proof.
  intros Ht Hi. pose proof (tbl_len _ _ Ht) as Hl. pose proof (zget_Some_range _ _ _ Hi) as Hr.
  destruct Ht as [Hwf Hc _ _]. unfold tbl_get, bind, gets.
  destruct (array_getguy_spec (sfs_vnodes (w_fs w)) i Hwf) as [-> _]; [unfold array_getnum in *; lia|].
  by rewrite Hc, zget_fmap, Hi.
Qed.

Lemma sfs_bused_spec w b : fs_ok w → 0 < b < nblk w → used w b → sfs_bused b w = Ok true w.
Proof.
  intros Hok Hb [_ Hu]. pose proof Hok as []. unfold sfs_bused, bind at 1, gets.
  change (sp_nblocks _) with (nblk w). destruct (Z.leb_spec (nblk w) b); [lia|].
  unfold bind, in_map, zoom.
  pose proof (bitmap_isset_spec (sfs_freemap (w_fs w)) b ltac:(done) ltac:(lia)) as Hs.
  unfold wp in Hs. destruct (bitmap_isset b _) as [r f| | |]; try done.
  destruct Hs as [-> Hr]. rewrite set_map_id. unfold ret. f_equal. apply negb_true_iff.
  destruct (Z.eqb_spec r 0); [naive_solver|done].
Qed.

(** One more reference. *)
Definition referenced p v w : W := set_k (put_vn p (set_refcount (vn_refcount v + 1) v) (w_k w)) w.

Lemma find_vnode_hit w tbl n i ino k p sv v :
  fs_ok w → table_ok w tbl → 0 ≤ i ≤ k → i + Z.of_nat n = zlen tbl →
  zget tbl k = Some p → loaded w p sv v → sv_ino sv = ino →
  find_vnode n i ino SFS_TYPE_INVAL w = Ok (Some p) (referenced p v w).
Proof.
  intros Hok Ht. revert i. induction n as [|n IH]; intros i Hi Hn Hk Hp Hino.
  { apply zget_Some_range in Hk. lia. }
  pose proof (zget_Some_range _ _ _ Hk) as Hr. destruct (zget_is_Some tbl i) as [q Hq]; [lia|].
  destruct (tb_loaded _ _ Ht q) as (svq & vq & Hlq); [by eapply zget_elem|].
  cbn [find_vnode]. erewrite bind_step by by eapply tbl_get_spec.
  erewrite bind_step by (unfold get_sv; by rewrite (ld_sv _ _ _ _ Hlq)).
  erewrite bind_step by (apply sfs_bused_spec; [done|by eapply ld_ino|by eapply ld_used]). cbn [negb].
  destruct (Z.eqb_spec (sv_ino svq) ino) as [Heq|Hne].
  - assert (q = p) as ->.
    { eapply tb_inos; [done|by eapply zget_elem|by eapply zget_elem|apply Hlq|apply Hp|congruence]. }
    erewrite bind_step by done. pose proof (ld_vn _ _ _ _ Hp) as Hv. destruct (ld_ref _ _ _ _ Hp).
    erewrite bind_step; [done|]. unfold in_k, zoom. rewrite (vnode_incref_spec _ _ _ Hv).
    by rewrite i32_small by lia.
  - apply IH; try done; [|lia]. destruct (decide (i = k)) as [->|]; [|lia].
    rewrite Hk in Hq. simplify_eq. pose proof (ld_sv _ _ _ _ Hp). pose proof (ld_sv _ _ _ _ Hlq).
    by simplify_eq.
Qed.

Lemma find_vnode_miss w tbl n i ino ft :
  fs_ok w → table_ok w tbl → 0 ≤ i → i + Z.of_nat n = zlen tbl →
  (∀ p sv, p ∈ tbl → w_sv w !! p = Some sv → sv_ino sv ≠ ino) →
  find_vnode n i ino ft w = Ok None w.
Proof.
  intros Hok Ht. revert i. induction n as [|n IH]; intros i Hi Hn Hno; [done|].
  destruct (zget_is_Some tbl i) as [q Hq]; [lia|]. assert (q ∈ tbl) by by eapply zget_elem.
  destruct (tb_loaded _ _ Ht q) as (sv & v & Hl); [done|].
  cbn [find_vnode]. erewrite bind_step by by eapply tbl_get_spec.
  erewrite bind_step by (unfold get_sv; by rewrite (ld_sv _ _ _ _ Hl)).
  erewrite bind_step by (apply sfs_bused_spec; [done|by eapply ld_ino|by eapply ld_used]). cbn [negb].
  destruct (Z.eqb_spec (sv_ino sv) ino) as [Heq|_]; [|apply IH; done || lia].
  by destruct (Hno q sv); [|apply Hl|].
Qed.

Lemma loadvnode_hit w tbl p sv v :
  fs_ok w → table_ok w tbl → p ∈ tbl → loaded w p sv v →
  sfs_loadvnode (sv_ino sv) SFS_TYPE_INVAL w = Ok p (referenced p v w).
Proof.
  intros Hok Ht Hp Hl. apply list_elem_of_lookup in Hp as [k Hk]. rewrite <- zget_nat in Hk.
  unfold sfs_loadvnode. erewrite bind_step by done. rewrite (tbl_len _ _ Ht).
  pose proof (zlen_nonneg tbl).
  erewrite bind_step; [|eapply (find_vnode_hit w tbl _ 0 _ (Z.of_nat k)); [..|exact Hk|exact Hl|]; done || lia].
  done.
Qed.

(** ** Loading an inode that is not in memory *)

Definition heap w : H := vs_heap (w_k w).
(** The table's array is sound, and the vnodes and locks live in heap blocks
    that are not the array's. *)
Record heap_ok w : Prop := {
  ho_arr : array_ok (heap w, sfs_vnodes (w_fs w));
  ho_room : arr_num (sfs_vnodes (w_fs w)) < 268435455;
  ho_live : ∀ q, is_Some (w_sv w !! q) ∨ is_Some (vs_vn (w_k w) !! q) ∨ is_Some (vs_locks (w_k w) !! q) →
    is_Some (arr_frame (heap w, sfs_vnodes (w_fs w)) !! q);
}.
Lemma frame_elem (s : H * array Z) q :
  is_Some (arr_frame s !! q) ↔ q ≠ arr_self s.2 ∧ q ≠ arr_v s.2 ∧ is_Some (klive s.1 !! q).
Proof.
  unfold arr_frame. split.
  - intros [x [? [? Hx]%lookup_delete_Some]%lookup_delete_Some]. split_and!; [done|done|by eexists].
  - intros (? & ? & x & Hx). exists x. by rewrite !lookup_delete_ne.
Qed.
Lemma heap_fresh w p :
  heap_ok w → klive (heap w) !! p = None →
  w_sv w !! p = None ∧ vs_vn (w_k w) !! p = None ∧ vs_locks (w_k w) !! p = None.
Proof.
  intros [_ _ Hl] Hp. assert (Hn : ¬ is_Some (arr_frame (heap w, sfs_vnodes (w_fs w)) !! p)).
  { intros (_ & _ & Hx)%frame_elem. simpl in Hx. rewrite Hp in Hx. by destruct Hx. }
  split_and!; apply eq_None_not_Some; intros ?; apply Hn, Hl; auto.
Qed.

(** Everything is as before, up to the internals of device and allocator. *)
Definition unchanged w w' : Prop :=
  dev_equiv (w_dev w) (w_dev w') ∧ w_fs w' = w_fs w ∧ w_sv w' = w_sv w ∧ same_mem (w_k w) (w_k w').

(** As before, but for a new heap block at [p] and what may be stored there. *)
Record holding p w w' : Prop := {
  hd_dev : dev_equiv (w_dev w) (w_dev w');
  hd_fs : w_fs w' = w_fs w;
  hd_sv : delete p (w_sv w') = w_sv w;
  hd_vn : delete p (vs_vn (w_k w')) = vs_vn (w_k w);
  hd_locks : vs_locks (w_k w') = vs_locks (w_k w);
  hd_cur : vs_cur (w_k w') = vs_cur (w_k w);
  hd_inv : kinv (heap w');
  hd_live : ∃ u, klive (heap w') = <[p := u]> (klive (heap w));
  hd_fresh : klive (heap w) !! p = None;
}.

Lemma free_sv_spec p w w1 :
  holding p w w1 → wp (free_sv p) (λ _, unchanged w) (λ _ _, False) w1.
Proof.
  intros []. destruct hd_live0 as [u Hu]. unfold free_sv. wp_bind. apply wp_zoom, wp_zoom.
  wp_use kfree_spec; [done|fold (heap w1); rewrite Hu, lookup_insert_eq; by eexists| |done].
  intros [] h [Hk Hl]. apply wp_modify. split_and!; try done. split_and!; try done. simpl.
  rewrite Hl. fold (heap w1). by rewrite Hu, delete_insert_id.
Qed.

(** The new vnode [p] for inode [ino]. *)
Record installed p (ino : Z) (i : sfs_inode) (dirty : bool) (o : vnode_ops) tbl w w' : Prop := {
  in_fresh : klive (heap w) !! p = None ∧ p ≠ 0;
  in_dev : dev_equiv (w_dev w) (w_dev w');
  in_fs : w_fs w' = set_vnodes (sfs_vnodes (w_fs w')) (w_fs w);
  in_arr : array_ok (heap w', sfs_vnodes (w_fs w'));
  in_tbl' : arr_contents (sfs_vnodes (w_fs w')) = Some <$> tbl ++ [p];
  in_sv : w_sv w' = <[p := mksv i ino dirty]> (w_sv w);
  in_vn : ∃ lk, vs_vn (w_k w') = <[p := mkvnode 1 0 lk (sfs_self (w_fs w)) p (Some o)]> (vs_vn (w_k w)) ∧
    ∃ l, vs_locks (w_k w') = <[lk := l]> (vs_locks (w_k w)) ∧ vs_locks (w_k w) !! lk = None;
  in_cur : vs_cur (w_k w') = vs_cur (w_k w);
}.

Lemma array_ok_live' (h h' : H) (a : array Z) :
  array_ok (h, a) → kinv h' →
  (∀ q, is_Some (klive h !! q) → q = arr_self a ∨ q = arr_v a → klive h' !! q = klive h !! q) →
  array_ok (h', a).
Proof.
  intros (_ & Hwf & Hself & Hlive & Hv) Hk Hl; simpl in *. split_and!; try done. simpl. split_and!; try done.
  - rewrite Hl; auto.
  - intros Hnz. destruct (Hv Hnz) as (? & u & Hu & ?). split; [done|]. exists u.
    rewrite Hl; [done|by eexists|auto].
Qed.

Lemma install_vnode_spec p ino i dirty o tbl w w1 :
  heap_ok w → arr_contents (sfs_vnodes (w_fs w)) = Some <$> tbl → holding p w w1 → p ≠ 0 →
  w_sv w1 = w_sv w → vs_vn (w_k w1) = vs_vn (w_k w) →
  wp (install_vnode p ino i dirty o) (λ q w', q = p ∧ installed p ino i dirty o tbl w w')
     (λ e w', e = ENOMEM ∧ unchanged w w') w1.
Proof.
  intros Hh Htbl Hhd Hp Hsv1 Hvn1. pose proof Hhd as []. destruct hd_live0 as [u Hu].
  destruct (heap_fresh w p Hh) as (Hfs & Hfv & Hfl); [done|]. destruct Hh as [Harr Hroom Hlive].
  unfold install_vnode. wp_bind. apply wp_gets. wp_bind. apply wp_try, wp_zoom.
  wp_use vnode_init_spec; [done|done|..].
  2: { intros e k (-> & s1 & v & (Hl & Hv & Hc & Hk & Hlv) & ->). wp_bind.
       wp_use (free_sv_spec p w); [|by intros [] w' ?; apply wp_fail|done]. split; try done; simpl.
       - rewrite Hv, delete_insert_eq. by rewrite hd_vn0.
       - congruence.
       - congruence.
       - exists u. unfold heap in *; simpl. congruence. }
  intros [] k (lk & nm & s1 & Hnl & ->). pose proof Hnl as [[Hlk0 Hnm0] (Hflk & Hfnm & Hlknm) Hk1 (u1 & u2 & Hl1) (lh & lp & Hlks) Hvn Hcur].
  fold (heap w1) in *. rewrite Hu in Hflk, Hfnm.
  apply lookup_insert_None in Hflk as [Hflk Hplk]. apply lookup_insert_None in Hfnm as [Hfnm Hpnm].
  destruct (heap_fresh w lk) as (_ & _ & Hlklk); [by split|done|].
  wp_bind. apply wp_modify. wp_bind. apply wp_try, wp_zoom. simpl.
  wp_use array_add_spec.
  - eapply (array_ok_live' (heap w)); simpl; [by rewrite hd_fs0|done|]. intros q [x Hq] _. rewrite Hl1, Hu.
    rewrite !lookup_insert_ne; [done|congruence..].
  - simpl. by rewrite hd_fs0.
  - intros [] [h2 a2] (Hok2 & Hc2 & Hf2). apply wp_ret. split; [done|]. simpl in *.
    split; simpl; try done.
    + by rewrite hd_fs0.
    + rewrite Hc2, hd_fs0, Htbl, fmap_app. done.
    + by rewrite Hsv1.
    + exists lk. rewrite Hvn, Hvn1, hd_fs0. split; [done|]. exists (mklock nm lh lp). rewrite Hlks, hd_locks0. done.
    + congruence.
  - intros e [h2 a2] (-> & _ & Hok2 & Ha2 & Hl2). simpl in *. subst a2. wp_bind. apply wp_zoom. simpl.
    destruct Hok2 as [Hk2 _]. simpl in Hk2.
    wp_use (vnode_kill_spec _ p (mkvnode 1 0 lk (sfs_self (w_fs w1)) p (Some o)) nm lh lp); simpl; try done.
    + apply lookup_insert_eq.
    + rewrite Hlks. apply lookup_insert_eq.
    + rewrite Hl2, Hl1, lookup_insert_eq. by eexists.
    + rewrite Hl2, Hl1, lookup_insert_ne, lookup_insert_eq by done. by eexists.
    + intros [] k2 (Hlk2 & Hvn2 & Hcur2 & Hk3 & Hl3). wp_bind.
      wp_use (free_sv_spec p w); [|by intros [] w' ?; apply wp_fail|done]. split; simpl; try done.
      * unfold set_vnodes. rewrite <- hd_fs0. by destruct (w_fs w1).
      * by rewrite Hsv1, delete_insert_id.
      * rewrite Hvn2. simpl. rewrite delete_insert_eq, Hvn, Hvn1, delete_insert_eq. by rewrite delete_id.
      * rewrite Hlk2, Hlks, hd_locks0. by rewrite delete_insert_id.
      * congruence.
      * exists u. unfold heap; simpl. rewrite Hl3, Hl2, Hl1, Hu.
        rewrite delete_insert_id by (rewrite !lookup_insert_ne; done).
        by rewrite delete_insert_id by (rewrite lookup_insert_ne; done).
Qed.

Lemma set_k_fs_ok k w : fs_ok w → fs_ok (set_k k w).
Proof. intros []. by split. Qed.
Lemma holding_same p w w1 w2 : holding p w w1 → same_data w1 w2 → holding p w w2.
Proof.
  intros [] (Hd & Hk & Hf & Hs). unfold heap in *. split; unfold heap; rewrite ?Hk, ?Hf, ?Hs; try done.
  by etransitivity.
Qed.

(** The inode in memory: [forcetype] is for a new object. *)
Definition load_inode (forcetype : Z) (i : sfs_inode) : sfs_inode * bool :=
  if forcetype =? SFS_TYPE_INVAL then (i, false) else (set_type forcetype i, true).

Lemma loadvnode_miss w tbl ino ft o :
  fs_ok w → table_ok w tbl → heap_ok w → 0 < ino < nblk w → used w ino →
  (∀ p sv, p ∈ tbl → w_sv w !! p = Some sv → sv_ino sv ≠ ino) →
  let i := dec_inode (sec w ino) in
  ft = SFS_TYPE_INVAL ∨ sfi_type i = SFS_TYPE_INVAL →
  ops_for (sfi_type (load_inode ft i).1) = Some o →
  wp (sfs_loadvnode ino ft)
     (λ p w', installed p ino (load_inode ft i).1 (load_inode ft i).2 o tbl w w')
     (λ e w', (e = ENOMEM ∨ e = EIO) ∧ unchanged w w') w.
Proof.
  intros Hok Ht Hh Hino Hu Hno i Hft Ho. pose proof (zlen_nonneg tbl).
  unfold sfs_loadvnode. wp_bind. apply wp_gets. rewrite (tbl_len _ _ Ht). wp_bind.
  unfold wp at 1. rewrite (find_vnode_miss w tbl) by (done || lia).
  wp_bind. apply wp_zoom, wp_zoom.
  wp_use kmalloc_spec; [apply (ho_arr _ Hh)|unfold sizeof_sfs_vnode; lia| |done].
  intros p h1 (Hk1 & [[-> Hl1]|(u & Hp & Hfp & _ & Hl1)]).
  { apply wp_fail. split; [by left|]. split_and!; done || reflexivity. }
  destruct (Z.eqb_spec p 0); [done|]. fold (heap w) in *.
  destruct (heap_fresh w p Hh Hfp) as (Hfs & Hfv & _). set (w1 := set_k _ w).
  assert (Hok1 : fs_ok w1) by by apply set_k_fs_ok.
  assert (Hhd : holding p w w1).
  { split; try done; simpl; [by apply delete_id|by apply delete_id|by exists u]. }
  wp_bind. unfold wp at 1. rewrite sfs_bused_spec by done. cbn [negb]. wp_bind. apply wp_try.
  wp_use sfs_rblock_spec; [done|change (nblk w1) with (nblk w); lia|done|..].
  2: { intros e w2 [-> Hs]. wp_bind. wp_use (free_sv_spec p w); [by eapply holding_same| |done].
       intros [] w3 ?. apply wp_fail. auto. }
  intros l w2 [-> Hs]. change (sec w1 ino) with (sec w ino). fold i. wp_bind.
  apply (wp_mono _ (λ r w', r = load_inode ft i ∧ w' = w2) _ (λ _ _, False)); [| |done].
  { unfold load_inode. destruct (Z.eqb_spec ft SFS_TYPE_INVAL); cbn [negb]; [done|].
    wp_bind. apply wp_kassert; [|done]. destruct Hft as [?| ->]; done. }
  intros [i' d'] w' [Heq ->]. rewrite <- Heq in *. cbn [fst snd] in *.
  assert (Hinst : wp (install_vnode p ino i' d' o) (λ q w', installed q ino i' d' o tbl w w')
    (λ e w', (e = ENOMEM ∨ e = EIO) ∧ unchanged w w') w2).
  { wp_use (install_vnode_spec p ino i' d' o tbl w); try done.
    - by apply Ht.
    - by eapply holding_same.
    - by destruct Hs as (_ & _ & _ & ->).
    - by destruct Hs as (_ & -> & _).
    - by intros q w' [-> ?].
    - intros e w' [-> ?]. auto. }
  unfold ops_for in Ho. destruct (sfi_type i' =? SFS_TYPE_FILE); [by simplify_eq|].
  destruct (sfi_type i' =? SFS_TYPE_DIR); [by simplify_eq|done].
Qed.

(** ** Writing an inode back *)

Definition clean sv : sfs_vnode := mksv (sv_i sv) (sv_ino sv) false.

(** The inode [sv] of vnode [p] is on disk. *)
Record synced p sv w w' : Prop := {
  sy_fs : fs_ok w';
  sy_k : w_k w' = w_k w;
  sy_wfs : w_fs w' = w_fs w;
  sy_svs : w_sv w' = <[p := clean sv]> (w_sv w);
  sy_inode : sv_dirty sv = true → sec w' (sv_ino sv) = enc_inode (sv_i sv);
  sy_sec : ∀ b, b ≠ sv_ino sv ∨ sv_dirty sv = false → sec w' b = sec w b;
}.
Lemma sfs_sync_inode_spec p sv w :
  fs_ok w → w_sv w !! p = Some sv → inode_wf (sv_i sv) → 0 < sv_ino sv < nblk w →
  wp (sfs_sync_inode p) (λ _, synced p sv w) (λ _ _, False) w.
Proof.
  intros Hok Hp Hwf Hino. unfold sfs_sync_inode. wp_bind. unfold wp at 1, get_sv. rewrite Hp.
  apply wp_when; intros Hd.
  - wp_bind. wp_use sfs_wblock_spec; [done|lia|by apply enc_inode_block| |done].
    intros [] w1 Hw. pose proof (wrote_fs_ok _ _ _ _ Hok Hw). destruct Hw as (_ & _ & Hs & Hk & Hf & Hsv).
    apply wp_modify. split; simpl; try done.
    + by apply set_svs_fs_ok.
    + by rewrite Hsv.
    + intros _. change (sec (set_svs _ w1) (sv_ino sv)) with (sec w1 (sv_ino sv)). by rewrite Hs, decide_True.
    + intros b [Hb|?]; [|congruence]. change (sec (set_svs _ w1) b) with (sec w1 b). by rewrite Hs, decide_False.
  - split; try done; [|congruence]. rewrite insert_id; [done|]. rewrite Hp. f_equal. unfold clean.
    rewrite <- Hd. by destruct sv.
Qed.

(** ** Reclaiming *)

Lemma tbl_index_spec w tbl n i k p :
  array_wf (sfs_vnodes (w_fs w)) → arr_contents (sfs_vnodes (w_fs w)) = Some <$> tbl → NoDup tbl →
  0 ≤ i ≤ k → i + Z.of_nat n = zlen tbl → zget tbl k = Some p →
  tbl_index n i p w = Ok (Some k) w.
Proof.
  intros Hwf Hc Hnd. revert i. induction n as [|n IH]; intros i Hi Hn Hk.
  { apply zget_Some_range in Hk. lia. }
  pose proof (zget_Some_range _ _ _ Hk) as Hr. destruct (zget_is_Some tbl i) as [q Hq]; [lia|].
  cbn [tbl_index]. erewrite bind_step.
  2: { unfold tbl_get, bind, gets. destruct (array_getguy_spec (sfs_vnodes (w_fs w)) i Hwf) as [-> _].
       - apply (f_equal zlen) in Hc. unfold arr_contents in Hc. destruct Hwf. rewrite zlen_ztake in Hc by lia.
         unfold zlen in *. rewrite length_fmap in Hc. lia.
       - rewrite Hc, zget_fmap, Hq. reflexivity. }
  destruct (Z.eqb_spec q p) as [->|Hne].
  - unfold ret. do 2 f_equal. unfold zget in Hq, Hk. rewrite decide_True in Hq by lia.
    rewrite decide_True in Hk by lia. pose proof (NoDup_lookup _ _ _ _ Hnd Hq Hk). lia.
  - apply IH; try done; [|lia]. destruct (decide (i = k)) as [->|]; [congruence|lia].
Qed.

(** A vnode with its lock and the lock's name, in three heap blocks. *)
Record vn_mem w p v (nm : Z) : Prop := {
  vm_lock : vs_locks (w_k w) !! vn_countlock v = Some (mklock nm 0 0);
  vm_apart : nm ≠ vn_countlock v ∧ p ≠ nm ∧ p ≠ vn_countlock v;
  vm_name : is_Some (arr_frame (heap w, sfs_vnodes (w_fs w)) !! nm);
}.

Lemma in_k_id {A} (c : M (vst H) A) w a : c (w_k w) = Ok a (w_k w) → in_k c w = Ok a w.
Proof. intros Hc. unfold in_k, zoom. rewrite Hc. by destruct w. Qed.
Lemma in_k_bind {A B} (c : M (vst H) A) (f : A → M (vst H) B) w :
  in_k (bind c f) w = bind (in_k c) (λ a, in_k (f a)) w.
Proof.
  unfold in_k, zoom, bind. by destruct (c (w_k w)).
Qed.
Lemma VOP_spec {A} w p v r o (e : vnode_ops → M W A) :
  vn_quiet (w_k w) p v → vn_ops v = Some o → vn_fs v ≠ DEADBEEF → 0 < vn_refcount v →
  0 ≤ vn_opencount v → VOP p r e w = e o w.
Proof.
  intros Hq Ho Hfs Hr Hop. unfold VOP.
  erewrite bind_step by (apply in_k_id; apply (vnode_check_spec _ _ v); done || by eexists).
  erewrite bind_step by (apply in_k_id; unfold get_vn; by rewrite (vq_vn _ _ _ Hq)).
  by rewrite Ho.
Qed.
Lemma data_of_spec w p v : vs_vn (w_k w) !! p = Some v → data_of p w = Ok (vn_data v) w.
Proof.
  intros Hv. unfold data_of.
  by erewrite bind_step by (apply in_k_id; unfold get_vn; by rewrite Hv).
Qed.

(** The vnode is gone from memory, and the table no longer lists it. *)
Record dropped p v (nm k : Z) tbl w w' : Prop := {
  dr_dev : w_dev w' = w_dev w;
  dr_fs : w_fs w' = set_vnodes (sfs_vnodes (w_fs w')) (w_fs w);
  dr_tbl : arr_contents (sfs_vnodes (w_fs w')) = Some <$> delete (Z.to_nat k) tbl;
  dr_arr : array_ok (heap w', sfs_vnodes (w_fs w'));
  dr_sv : w_sv w' = delete p (w_sv w);
  dr_vn : vs_vn (w_k w') = delete p (vs_vn (w_k w));
  dr_locks : vs_locks (w_k w') = delete (vn_countlock v) (vs_locks (w_k w));
  dr_live : arr_frame (heap w', sfs_vnodes (w_fs w')) =
            delete p (delete (vn_countlock v) (delete nm (arr_frame (heap w, sfs_vnodes (w_fs w)))));
}.

Lemma drop_vnode_spec w tbl p v nm k :
  heap_ok w → arr_contents (sfs_vnodes (w_fs w)) = Some <$> tbl → NoDup tbl →
  zget tbl k = Some p → vn_quiet (w_k w) p v → vn_mem w p v nm → vn_refcount v = 1 →
  vn_opencount v = 0 → is_Some (w_sv w !! p) →
  wp (drop_vnode p) (λ _, dropped p v nm k tbl w) (λ _ _, False) w.
Proof.
  intros [Harr _ Hlive] Hc Hnd Hk Hq Hm Hr Ho Hsv. pose proof Harr as (_ & Hwf & _). simpl in Hwf.
  assert (Hnum : array_getnum (sfs_vnodes (w_fs w)) = zlen tbl).
  { pose proof Hc as Hc'. apply (f_equal zlen) in Hc'. unfold arr_contents in Hc'. destruct Hwf.
    rewrite zlen_ztake in Hc' by lia. unfold zlen in *. rewrite length_fmap in Hc'. done. }
  pose proof (zget_Some_range _ _ _ Hk) as Hr'. unfold drop_vnode. wp_bind. apply wp_gets. rewrite Hnum. wp_bind.
  unfold wp at 1. rewrite (tbl_index_spec w tbl _ 0 k p) by (done || lia). wp_bind. apply wp_zoom.
  wp_use array_remove_spec; [done|simpl; unfold array_getnum in Hnum; lia| |done].
  intros [] [h1 a1] (Hok1 & Hh1 & Hf1 & Hc1). simpl in *. subst h1.
  fold (heap w) in *.
  destruct Hm as [Hlk (Hnl & Hpn & Hpl) Hnm]. pose proof Hq as [_ Hv Hl0 _ _].
  assert (Hlive1 : ∀ q, is_Some (arr_frame (heap w, a1) !! q) →
    q ≠ arr_self a1 ∧ q ≠ arr_v a1 ∧ is_Some (klive (heap w) !! q)) by (intros q; apply frame_elem).
  assert (Hf : ∀ q, is_Some (w_sv w !! q) ∨ is_Some (vs_vn (w_k w) !! q) ∨ is_Some (vs_locks (w_k w) !! q) →
    is_Some (arr_frame (heap w, a1) !! q)) by (intros q Hq'; rewrite Hf1; auto).
  rewrite <- Hf1 in Hnm. destruct (Hlive1 nm) as (? & ? & ?); [done|].
  destruct (Hlive1 (vn_countlock v)) as (? & ? & ?); [apply Hf; right; right; rewrite Hlk; by eexists|].
  destruct (Hlive1 p) as (? & ? & ?); [apply Hf; by left|].
  wp_bind. apply wp_zoom. simpl.
  wp_use (vnode_kill_spec _ p v nm 0 0); simpl; try done; [apply Hok1|].
  intros [] k2 (Hlk2 & Hvn2 & _ & Hk2 & Hl2). unfold free_sv. wp_bind. apply wp_zoom, wp_zoom. simpl.
  wp_use kfree_spec; [done|rewrite Hl2, !lookup_delete_ne by congruence; done| |done].
  intros [] h3 [Hk3 Hl3]. apply wp_modify. rewrite Hl2 in Hl3. split; simpl; try done.
  - by rewrite Hc1, Hc, list_fmap_delete.
  - eapply (array_ok_live' (heap w)); [done|done|]. intros q _ Hq'.
    change (klive h3 !! q = klive (heap w) !! q). rewrite Hl3, !lookup_delete_ne; [done|..];
      intros Heq; destruct Hq'; congruence.
  - rewrite Hvn2. simpl. by rewrite delete_insert_eq.
  - rewrite <- Hf1. unfold arr_frame; simpl. unfold heap at 1; simpl. rewrite Hl3. apply map_eq. intros q.
    rewrite !lookup_delete. by repeat case_decide.
Qed.

Lemma heap_ok_ext w w' :
  heap_ok w → w_k w' = w_k w → meta (w_fs w') = meta (w_fs w) →
  (∀ q, is_Some (w_sv w' !! q) → is_Some (w_sv w !! q)) → heap_ok w'.
Proof.
  intros [] Hk Hm Hsv. assert (Hv : sfs_vnodes (w_fs w') = sfs_vnodes (w_fs w)) by (unfold meta in Hm; congruence).
  split; unfold heap in *; rewrite ?Hk, ?Hv; try done. intros q Hq. apply ho_live0.
  destruct Hq as [?|?]; auto.
Qed.
Lemma vn_mem_ext w w' p v nm :
  vn_mem w p v nm → w_k w' = w_k w → meta (w_fs w') = meta (w_fs w) → vn_mem w' p v nm.
Proof.
  intros [] Hk Hm. assert (Hv : sfs_vnodes (w_fs w') = sfs_vnodes (w_fs w)) by (unfold meta in Hm; congruence).
  split; unfold heap in *; rewrite ?Hk, ?Hv; done.
Qed.

(** Freeing a file's blocks, then its inode. *)
Record erased p sv w w' : Prop := {
  er_fs : fs_ok w';
  er_k : w_k w' = w_k w;
  er_meta : meta (w_fs w') = meta (w_fs w);
  er_sv : ∃ sv', w_sv w' = <[p := sv']> (w_sv w);
  er_used : ∀ c, used w' c ↔ used w c ∧ c ∉ owned w (sv_i sv) ∧ c ≠ sv_ino sv;
  er_sec : ∀ c, c ∉ owned w (sv_i sv) → c ≠ sv_ino sv → sec w' c = sec w c;
}.
(** The disk failed before anything that matters was freed. *)
Definition kept_file p sv w w' : Prop :=
  fs_ok w' ∧ w_k w' = w_k w ∧ meta (w_fs w') = meta (w_fs w) ∧
  ∃ sv', w_sv w' = <[p := sv']> (w_sv w) ∧ file_ok w' (sv_i sv').

Lemma erase_spec p sv v w :
  fs_ok w → loaded w p sv v → vn_ops v = Some sfs_fileops → file_ok w (sv_i sv) →
  sv_ino sv ∉ owned w (sv_i sv) → sfi_linkcount (sv_i sv) = 0 →
  wp (erase_or_sync p)
     (λ _, erased p sv w) (λ e w', e = EIO ∧ kept_file p sv w w') w.
Proof.
  intros Hok Hl Ho Hf Hino Hlink. pose proof Hl as []. pose proof ld_vn0 as [_ Hv _ _ _].
  unfold erase_or_sync. wp_bind. unfold wp at 1, get_sv. rewrite ld_sv0. rewrite Hlink. cbn [when Z.eqb]. wp_bind.
  unfold wp at 1, VOP_TRUNCATE. rewrite (VOP_spec w p v false sfs_fileops) by (done || lia).
  unfold vop_truncate. erewrite bind_step by (by apply data_of_spec). rewrite ld_data0.
  fold (wp (sfs_truncate p 0) (λ (_ : unit) w', wp (sfs_sync_inode p ;;; let! s := get_sv p in
      when (sfi_linkcount (sv_i s) =? 0) (sfs_bfree (sv_ino s))) (λ _, erased p sv w)
      (λ e w', e = EIO ∧ kept_file p sv w w') w') (λ e w', e = EIO ∧ kept_file p sv w w') w).
  wp_use (sfs_truncate_spec p sv w 0); [done..|lia| |].
  2: { intros e w' (-> & w1 & Hd & Hs). split; [done|]. change ((0 + 511) / 512) with 0 in Hd.
       destruct (direct_cut_ok 0 p sv w w1) as (? & sv' & ? & ? & _); [done..|].
       destruct Hd as (_ & _ & [_ Hk1 Hm1 _ _ _] & _). pose proof Hs as (_ & Hk & Hfs & Hsv).
       split_and!; [by rewrite <- Hs|congruence|congruence|]. exists sv'. rewrite Hsv. split; [done|by rewrite <- Hs]. }
  change ((0 + 511) / 512) with 0. intros [] w1 Ht. pose proof (truncated_zero _ _ _ _ Ht) as (_ & _ & _ & Hu1).
  destruct Ht as (sv' & Hsv1 & Hino1 & _ & Hlc1 & _ & Hd1 & Hk1 & Hm1 & _ & Hok1 & Hf1 & _ & _ & _ & Hs1 & _).
  pose proof (meta_nblk _ _ Hm1) as Hn1. wp_bind.
  wp_use (sfs_sync_inode_spec p sv'); [done|by rewrite Hsv1, lookup_insert_eq|apply Hf1|by rewrite Hino1, Hn1| |done].
  intros [] w2 []. wp_bind. unfold wp at 1, get_sv. rewrite sy_svs0, lookup_insert_eq.
  unfold clean. cbn [sv_i sv_ino]. rewrite Hlc1, Hlink, Hino1. cbn [when Z.eqb].
  assert (Hu2 : ∀ c, used w2 c ↔ used w c ∧ c ∉ owned w (sv_i sv)).
  { intros c. rewrite <- Hu1. unfold used. by rewrite sy_wfs0. }
  wp_use (sfs_bfree_freed w2); [done| | | |done].
  - unfold nblk. rewrite sy_wfs0. fold (nblk w1). by rewrite Hn1.
  - by apply Hu2.
  - intros [] w3 [[] Hsv3]. split; try done; try congruence.
    + exists (clean sv'). by rewrite Hsv3, sy_svs0, Hsv1, insert_insert_eq.
    + intros c. rewrite fr_used, Hu2, list_elem_of_singleton. tauto.
    + intros c Hc Hci. transitivity (sec w2 c); [unfold sec; by rewrite fr_dev|].
      rewrite sy_sec0 by (left; congruence). apply Hs1.
      destruct (decide (sfi_indirect (sv_i sv) = 0)); [by left|right]. intros ->. apply Hc, elem_of_owned. auto.
Qed.

Lemma sfs_reclaim_unlinked w tbl p sv v nm k :
  fs_ok w → heap_ok w → arr_contents (sfs_vnodes (w_fs w)) = Some <$> tbl → NoDup tbl →
  zget tbl k = Some p → loaded w p sv v → vn_mem w p v nm → vn_refcount v = 1 →
  vn_opencount v = 0 → vn_ops v = Some sfs_fileops → file_ok w (sv_i sv) →
  sv_ino sv ∉ owned w (sv_i sv) → sfi_linkcount (sv_i sv) = 0 →
  wp (sfs_reclaim p) (λ _ w', ∃ w1, erased p sv w w1 ∧ dropped p v nm k tbl w1 w')
     (λ e w', e = EIO ∧ kept_file p sv w w') w.
Proof.
  intros Hok Hh Hc Hnd Hk Hl Hm Hr Hop Ho Hf Hino Hlink. pose proof Hl as [].
  unfold sfs_reclaim. wp_bind. unfold wp at 1, in_k at 1, zoom at 1, get_vn at 1.
  rewrite (vq_vn _ _ _ ld_vn0). replace (set_k (w_k w) w) with w by by destruct w.
  pose proof (acquire_release _ _ _ ld_vn0) as Har. unfold bind in Har. wp_bind.
  unfold wp at 1, in_k at 1, zoom at 1.
  destruct (lock_acquire _ (w_k w)) as [[] k1| | |]; try done. rewrite Hr. cbn [negb Z.eqb Pos.eqb].
  wp_bind. unfold wp at 1, in_k at 1, zoom at 1. cbn [w_k set_k]. rewrite Har.
  replace (set_k (w_k w) (set_k k1 w)) with w by by destruct w.
  rewrite ld_data0. wp_bind. wp_use erase_spec; [done..| |done].
  intros [] w1 He. pose proof He as []. destruct er_sv0 as [sv' Hsv].
  wp_use (drop_vnode_spec w1 tbl p v nm k); try done.
  - eapply heap_ok_ext; [done..|]. intros q. rewrite Hsv. destruct (decide (q = p)) as [->|].
    + intros _. rewrite ld_sv0. by eexists.
    + by rewrite lookup_insert_ne.
  - rewrite <- Hc. unfold meta in *. congruence.
  - by rewrite er_k0.
  - by eapply vn_mem_ext.
  - rewrite Hsv, lookup_insert_eq. by eexists.
  - intros [] w' Hd. by exists w1.
Qed.
End table.
