(* ===== verification/SfsVnodeThm.v ===== *)
(** * SFS vnodes: the theorems

    Loading gives one vnode per inode, reclaiming the last reference to a file
    without a name frees all of it, and a failed creation loses a block. *)

From S2P Require Import Prelude KString Kmem KArray KBitmap CopyInOut Uio BlockDev Lhd Vnode.
From S2P Require Import SfsDisk SfsCore SfsSpec SfsMap SfsFile SfsFileSpec SfsFileThm SfsTrunc.
From S2P Require Import SfsDir SfsVnode SfsVnodeSpec.

Section theorems.
Context {D H : Type} `{!BlockDev D, !BlockDevOk D, !Kmem H, !KmemOk H}.
Notation W := (world D H).
Implicit Types (w : W) (sv : sfs_vnode) (v : vnode) (p : Z) (tbl : list Z) (j : sfs_inode).

Definition not_loaded w tbl (ino : Z) : Prop :=
  ∀ p sv, p ∈ tbl → w_sv w !! p = Some sv → sv_ino sv ≠ ino.


(** C39 Reclaiming the last reference to a file that no directory names any more:
    all its blocks and the block of its inode become free, and nothing else
    does; the vnode leaves the table and its memory is released; other files
    keep their contents.  If the disk fails the vnode stays in the table. *)
Theorem sfs_reclaim_correct w tbl p sv v nm k :
  fs_ok w → heap_ok w → arr_contents (sfs_vnodes (w_fs w)) = Some <$> tbl → NoDup tbl →
  zget tbl k = Some p → loaded w p sv v → vn_mem w p v nm → vn_refcount v = 1 →
  vn_opencount v = 0 → vn_ops v = Some sfs_fileops → file_ok w (sv_i sv) →
  sv_ino sv ∉ owned w (sv_i sv) → sfi_linkcount (sv_i sv) = 0 →
  wp (sfs_reclaim p)
     (λ _ w',
        (∀ c, used w' c ↔ used w c ∧ c ∉ owned w (sv_i sv) ∧ c ≠ sv_ino sv) ∧
        arr_contents (sfs_vnodes (w_fs w')) = Some <$> delete (Z.to_nat k) tbl ∧
        w_sv w' = delete p (w_sv w) ∧ vs_vn (w_k w') = delete p (vs_vn (w_k w)) ∧
        arr_frame (heap w', sfs_vnodes (w_fs w')) =
          delete p (delete (vn_countlock v) (delete nm (arr_frame (heap w, sfs_vnodes (w_fs w))))) ∧
        ∀ j, file_ok w j → apart w (sv_i sv) j → sv_ino sv ∉ owned w j →
             file_ok w' j ∧ ∀ o, fbyte w' j o = fbyte w j o)
     (λ e w', e = EIO ∧ kept_file p sv w w') w.
Proof.
  intros. wp_use (sfs_reclaim_unlinked w tbl p sv v nm k); try done.
  intros [] w' (w1 & [] & []). destruct er_sv as [sv' Hsv].
  assert (Hu : ∀ c, used w' c ↔ used w1 c) by (intros c; unfold used; by rewrite dr_fs).
  assert (Hs : ∀ c, sec w' c = sec w1 c) by (intros c; unfold sec; by rewrite dr_dev).
  assert (Hm : sfs_vnodes (w_fs w1) = sfs_vnodes (w_fs w)) by (unfold meta in *; congruence).
  unfold heap in *. split_and!; try done.
  - intros c. by rewrite Hu.
  - by rewrite dr_sv, Hsv, delete_insert_eq.
  - by rewrite dr_vn, er_k.
  - by rewrite dr_live, Hm, er_k.
  - intros j Hj Hap Hji. apply file_unchanged; [done| |..].
    + unfold nblk. rewrite dr_fs. by apply meta_nblk.
    + intros b Hb. apply Hu, er_used. split_and!; [by apply Hj|intros Hbo; by eapply Hap|congruence].
    + intros b Hb. rewrite Hs. apply er_sec; [intros Hbo; by eapply Hap|congruence].
Qed.

(** A creation that runs out of memory loses a disk block: [sfs_makeobj]
    returns ENOMEM with a block marked in use that belongs to no file. *)
Theorem sfs_makeobj_leaks w tbl h' :
  fs_ok w → table_ok w tbl → kmalloc sizeof_sfs_vnode (heap w) = Ok 0 h' →
  wp (sfs_makeobj SFS_TYPE_FILE) (λ _ _, False)
     (λ e w', e = ENOSPC ∧ w' = w ∨
        e = ENOMEM ∧ w_sv w' = w_sv w ∧ sfs_vnodes (w_fs w') = sfs_vnodes (w_fs w) ∧
        ∃ b, ¬ used w b ∧ used w' b ∧ not_loaded w' tbl b) w.
Proof.
  intros Hok Ht Hm. unfold sfs_makeobj. wp_bind. wp_use sfs_balloc_spec; [done|..].
  2: { intros e w' (-> & -> & _). by left. }
  intros b w1 []. assert (Hn : nblk w1 = nblk w) by by apply meta_nblk.
  assert (Hv : sfs_vnodes (w_fs w1) = sfs_vnodes (w_fs w)) by (unfold meta in *; congruence).
  assert (Hld : ∀ p sv v, loaded w p sv v → loaded w1 p sv v).
  { intros p sv v []. split; rewrite ?al_sv, ?al_k, ?Hn; try done. apply al_used. by left. }
  assert (Ht1 : table_ok w1 tbl).
  { destruct Ht as [? ? Hl Hi]. split; rewrite ?Hv, ?al_sv; try done. intros p Hp.
    destruct (Hl p Hp) as (sv & v & ?). exists sv, v. auto. }
  assert (Hno : not_loaded w1 tbl b).
  { intros p sv Hp Hsv <-. destruct (tb_loaded _ _ Ht p Hp) as (sv' & v & []).
    rewrite al_sv in Hsv. by simplify_eq. }
  pose proof (zlen_nonneg tbl). unfold sfs_loadvnode. wp_bind. apply wp_gets.
  rewrite (tbl_len _ _ Ht1). wp_bind. unfold wp at 1. rewrite (find_vnode_miss w1 tbl) by (done || lia).
  wp_bind. apply wp_zoom, wp_zoom. unfold wp. rewrite al_k. fold (heap w). rewrite Hm. right.
  split_and!; try done. exists b. split_and!; try done. unfold used; simpl. apply al_used. by right.
Qed.
End theorems.

(** ** Witnesses *)

(** The volume with one file loaded: the table in blocks 96 and 112 of the heap,
    the vnode at 200, its lock at 900, the name of the lock at 950. *)
Module TblVol.
Definition kheap (bytes : Z) : Toy.heap :=
  Toy.mkheap 2000 bytes {[96 := 12; 112 := 16; 200 := 544; 900 := 16; 950 := 16]}.
Definition vnd : vnode := mkvnode 1 0 900 16 200 (Some sfs_fileops).
Definition file (links : Z) : sfs_vnode :=
  mksv (mkinode 0 SFS_TYPE_FILE links (replicate 15 0) 0 (replicate 110 0)) 3 false.
Definition disk : list (list Z) :=
  replicate 3 zeroblock ++ [enc_inode (sv_i (file 1))] ++ replicate 4 zeroblock.
Definition vol (bytes links : Z) : world (lhd_softc SimDisk.disk) Toy.heap :=
  set_k (mkvst (kheap bytes) {[900 := mklock 950 0 0]} {[200 := vnd]} 5)
    (set_fs (set_vnodes (mkarray 96 1 4 112 [Some 200; None; None; None]) (ToyVol.fs 15))
       (ToyVol.vol disk 15 {[200 := file links]})).

Lemma links_wf links : word16 links → inode_wf (sv_i (file links)).
Proof.
  intros. split; try done; unfold file, sv_i; cbn [sfi_direct sfi_waste]; (split; [done|]);
    by apply Forall_replicate.
Qed.
Lemma tblvol_ok bytes links : fs_ok (vol bytes links).
Proof.
  assert (Hok : fs_ok (ToyVol.vol disk 15 {[200 := file links]})).
  { apply ToyVol.vol_ok; try done.
    assert (Hz : block_ok zeroblock) by (split; [done|apply bytes_zeros]).
    repeat apply Forall_app_2; try by apply Forall_replicate.
    repeat apply Forall_cons_2; [|apply Forall_nil_2]. by apply enc_inode_block, links_wf. }
  destruct Hok. by split.
Qed.
Lemma arr_is_ok bytes : array_ok (kheap bytes, sfs_vnodes (w_fs (vol bytes 0))).
Proof.
  split_and!; simpl.
  - split; [done|]. intros p sz. simpl. intros Hp.
    repeat (apply lookup_insert_Some in Hp as [[<- _]|[_ Hp]]; [done|]).
    by apply lookup_singleton_Some in Hp as [<- _].
  - by split.
  - split_and!; [done|by eexists|]. intros _. split; [done|]. by exists 16.
Qed.
Lemma quiet bytes links : vn_quiet (w_k (vol bytes links)) 200 vnd.
Proof. split; try done. by exists 950. Qed.
Lemma loaded_file bytes links : loaded (vol bytes links) 200 (file links) vnd.
Proof. split; try done. apply quiet. Qed.
Lemma heap_is_ok bytes links : heap_ok (vol bytes links).
Proof.
  split; [apply arr_is_ok|done|]. intros q Hq.
  assert (q = 200 ∨ q = 900) as [->| ->]; [|by eexists..]. simpl in Hq.
  destruct Hq as [[x Hx]|[[x Hx]|[x Hx]]]; apply lookup_singleton_Some in Hx as [<- _]; auto.
Qed.
Lemma tbl_is_ok bytes links : table_ok (vol bytes links) [200].
Proof.
  split; try done.
  - intros p ->%list_elem_of_singleton. exists (file links), vnd. apply loaded_file.
  - by intros p p' sv sv' ->%list_elem_of_singleton ->%list_elem_of_singleton.
Qed.
Lemma owned_tblfile bytes links : owned (vol bytes links) (sv_i (file links)) = [].
Proof. reflexivity. Qed.
Lemma tblfile_ok bytes links : word16 links → file_ok (vol bytes links) (sv_i (file links)).
Proof.
  intros Hl. split; rewrite ?owned_tblfile; [by apply links_wf|by intros b ?%elem_of_nil|constructor].
Qed.
End TblVol.


Lemma sfs_reclaim_correct_witness :
  wp (sfs_reclaim 200) (λ _ w', w_sv w' = ∅ ∧ ¬ used w' 3) (λ e _, e = EIO) (TblVol.vol 1000 0).
Proof.
  eapply wp_mono;
    [apply (sfs_reclaim_correct (TblVol.vol 1000 0) [200] 200 (TblVol.file 0) TblVol.vnd 950 0)|..].
  - apply TblVol.tblvol_ok.
  - apply TblVol.heap_is_ok.
  - reflexivity.
  - apply NoDup_singleton.
  - reflexivity.
  - apply TblVol.loaded_file.
  - split; [reflexivity| |].
    + split; [discriminate|]. split; discriminate.
    + exists 16. reflexivity.
  - reflexivity.
  - reflexivity.
  - reflexivity.
  - apply TblVol.tblfile_ok. split; [discriminate|reflexivity].
  - rewrite TblVol.owned_tblfile. apply not_elem_of_nil.
  - reflexivity.
  - intros _ w' (Hu & _ & Hsv & _). split; [rewrite Hsv; reflexivity|].
    rewrite Hu. intros (_ & _ & Hne). apply Hne. reflexivity.
  - intros e w' [He _]. exact He.
Defined.

Lemma sfs_makeobj_leaks_witness :
  wp (sfs_makeobj SFS_TYPE_FILE) (λ _ _, False)
     (λ e w', e = ENOSPC ∨ ∃ b, ¬ used (TblVol.vol 100 1) b ∧ used w' b) (TblVol.vol 100 1).
Proof.
  eapply wp_mono; [eapply (sfs_makeobj_leaks (TblVol.vol 100 1) [200])|..].
  - apply TblVol.tblvol_ok.
  - apply TblVol.tbl_is_ok.
  - reflexivity.
  - intros p w' [].
  - intros e w' [[He _]|(_ & _ & _ & b & Hb & Hb' & _)]; [left; exact He|right].
    exists b. split; [exact Hb|exact Hb'].
Defined.
