(* ===== verification/SfsFs.v ===== *)
(** * SFS volumes (kern/fs/sfs/sfs_fs.c)

    Mounting, writing a volume back, unmounting.  Before [sfs_domount] the
    descriptor [w_fs] holds nothing meaningful: the routine fills it in as it
    goes, and [w_dev] is the device it is given. *)

From S2P Require Import Prelude KString Kmem KArray KBitmap CopyInOut Uio BlockDev Vnode.
From S2P Require Import SfsDisk SfsCore SfsFile SfsTrunc SfsDir SfsVnode.

Definition sizeof_sfs_fs : Z := 552.

Section volume.
Context {D H : Type} `{!BlockDev D, !Kmem H}.
Notation W := (world D H).

Definition in_heap {A} (c : M H A) : M W A := in_k (vheap c).
Definition set_superdirty (b : bool) (f : sfs_fs) : sfs_fs :=
  mksfs (sfs_self f) (sfs_sb f) b (sfs_vnodes f) (sfs_freemap f) (sfs_freemapdirty f).

Definition SFS_FS_BITMAPSIZE (f : sfs_fs) : Z := SFS_BITMAPSIZE (sp_nblocks (sfs_sb f)).
Definition SFS_FS_BITBLOCKS (f : sfs_fs) : Z := SFS_BITBLOCKS (sp_nblocks (sfs_sb f)).

(** ** The free block map *)

(** The block at [bitdata + j*SFS_BLOCKSIZE]; one that is not inside the map is
    a wild access. *)
Definition map_block (j : Z) : M W (list Z) :=
  let! f := gets w_fs in
  let bitdata := bitmap_getdata (sfs_freemap f) in
  if zlen bitdata <? (j + 1) * SFS_BLOCKSIZE then panic
  else ret (ztake SFS_BLOCKSIZE (zdrop (j * SFS_BLOCKSIZE) bitdata)).
Definition fill_map (j : Z) (l : list Z) (f : sfs_fs) : sfs_fs :=
  set_map (set_v (splice (b_v (sfs_freemap f)) (j * SFS_BLOCKSIZE) l) (sfs_freemap f)) f.

Definition sfs_mapio (rw : enum_uio_rw) : M W unit :=
  let! mapsize := gets (λ w, SFS_FS_BITBLOCKS (w_fs w)) in
  for_range (Z.to_nat mapsize) 0 (λ j,
    let! ptr := map_block j in
    match rw with
    | UIO_READ =>
        let! l := sfs_rblock ptr (SFS_MAP_LOCATION + j) in
        modify (λ w, set_fs (fill_map j l (w_fs w)) w)
    | UIO_WRITE => sfs_wblock ptr (SFS_MAP_LOCATION + j)
    end).

(** ** Operations on the mounted volume *)

(** The result of [VOP_FSYNC] is not looked at. *)
Definition sfs_sync : M W unit :=
  let! num := tbl_num in
  for_range (Z.to_nat num) 0 (λ i,
    let! sv := tbl_get i in
    let! _ := try (VOP_FSYNC sv) in
    ret tt) ;;;
  let! freemapdirty := gets (λ w, sfs_freemapdirty (w_fs w)) in
  when freemapdirty
    (sfs_mapio UIO_WRITE ;;;
     modify (λ w, set_fs (set_mapdirty false (w_fs w)) w)) ;;;
  let! superdirty := gets (λ w, sfs_superdirty (w_fs w)) in
  when superdirty
    (let! f := gets w_fs in
     sfs_wblock (enc_super (sfs_sb f)) SFS_SB_LOCATION ;;;
     modify (λ w, set_fs (set_superdirty false (w_fs w)) w)).

Definition sfs_getvolname : M W (list Z) := gets (λ w, sp_volname (sfs_sb (w_fs w))).

Definition sfs_unmount : M W unit :=
  let! num := tbl_num in
  if num >? 0 then fail EBUSY
  else
    let! f := gets w_fs in
    kassert (negb (sfs_superdirty f)) ;;;
    kassert (negb (sfs_freemapdirty f)) ;;;
    in_heap (array_destroy (sfs_vnodes f)) ;;;
    in_heap (bitmap_destroy (sfs_freemap f)) ;;;
    in_heap (kfree (sfs_self f)).

(** ** Mounting *)

(** [sfs_super.sp_volname[sizeof(sp_volname)-1] = 0]. *)
Definition terminate_volname (sp : sfs_super) : sfs_super :=
  mksuper (sp_magic sp) (sp_nblocks sp) (zset (sp_volname sp) (SFS_VOLNAME_SIZE - 1) 0)
          (sp_reserved sp).

(** The way out of every failure after the table of vnodes exists. *)
Definition undo_mount {A} (sfs : Z) (vnodes : array Z) (e : errno) : M W A :=
  in_heap (array_destroy vnodes) ;;;
  in_heap (kfree sfs) ;;;
  fail e.

(** The rest of [sfs_domount] once the superblock [sp] is in memory. *)
Definition load_freemap (sfs : Z) (vnodes : array Z) (sp : sfs_super) : M W Z :=
  let sp := terminate_volname sp in
  let! freemap := in_heap (bitmap_create (SFS_BITMAPSIZE (sp_nblocks sp))) in
  match freemap with
  | None => undo_mount sfs vnodes ENOMEM
  | Some b =>
      modify (set_fs (mksfs sfs sp false vnodes b false)) ;;;
      let! result := try (sfs_mapio UIO_READ) in
      match result with
      | inl e => in_heap (bitmap_destroy b) ;;; undo_mount sfs vnodes e
      | inr _ => ret sfs
      end
  end.

(** The assertions on the sizes of the on-disk structures hold of the layout
    in SfsDisk.  The dirty flags are cleared last in the source; nothing reads
    them before. *)
Definition sfs_domount : M W Z :=
  let! blocksize := gets (λ w, d_blocksize (w_dev w)) in
  if negb (blocksize =? SFS_BLOCKSIZE) then fail ENXIO
  else
    let! sfs := in_heap (kmalloc sizeof_sfs_fs) in
    if sfs =? 0 then fail ENOMEM
    else
      let! vnodes := in_heap array_create in
      match vnodes with
      | None => in_heap (kfree sfs) ;;; fail ENOMEM
      | Some a =>
          let! result := try (sfs_rblock zeroblock SFS_SB_LOCATION) in
          match result with
          | inl e => undo_mount sfs a e
          | inr l =>
              let sp := dec_super l in
              if negb (sp_magic sp =? SFS_MAGIC) then undo_mount sfs a EINVAL
              else load_freemap sfs a sp
          end
      end.

End volume.
