(* ===== verification/SfsFsSpec.v ===== *)
(** * SFS volumes: what the parts of sync and mount do

    [map_image] says that bytes in memory are the free block map on the disk,
    [volume_ok] is the invariant of a mounted volume with its table of vnodes,
    [fs_mem] says which blocks of the heap the volume owns. *)

From S2P Require Import Prelude KString Kmem KArray KBitmap CopyInOut Uio BlockDev Vnode.
From S2P Require Import SfsDisk SfsCore SfsSpec SfsMap SfsFile SfsTrunc SfsDir SfsVnode SfsVnodeSpec.
From S2P Require Import SfsFs.

Section spec.
Context {D H : Type} `{!BlockDev D, !BlockDevOk D, !Kmem H, !KmemOk H}.
Notation W := (world D H).
Implicit Types (w : W) (sv : sfs_vnode) (v : vnode) (p : Z) (tbl : list Z).

(** ** The map on disk *)

Definition mapblocks w : Z := SFS_BITBLOCKS (nblk w).
(** Byte [i] of the map on disk. *)
Definition map_byte w (i : Z) : option Z := zget (sec w (SFS_MAP_LOCATION + i / 512)) (i mod 512).
Definition map_image w (l : list Z) : Prop :=
  zlen l = 512 * mapblocks w ∧ ∀ i, 0 ≤ i < zlen l → zget l i = map_byte w i.

Lemma map_image_inj w l l' : map_image w l → map_image w l' → l = l'.
Proof.
  intros [Hl Hi] [Hl' Hi']. apply zlist_eq. intros i Hp. destruct (decide (i < zlen l)).
  - by rewrite Hi, Hi' by lia.
  - unfold zget, zlen in *. rewrite !decide_True by done. rewrite !lookup_ge_None_2; [done|lia..].
Qed.

Lemma bitmapsize_small n :
  0 ≤ n < 4194304 → SFS_BITMAPSIZE n = 4096 * SFS_BITBLOCKS n ∧ n ≤ SFS_BITMAPSIZE n ∧
    0 ≤ SFS_BITBLOCKS n ≤ 1024.
Proof.
  intros Hn. unfold SFS_BITBLOCKS, SFS_BITMAPSIZE, SFS_ROUNDUP.
  change SFS_BLOCKBITS with 4096. rewrite (u32_small (n + 4096)), (u32_small (n + 4096 - 1)) by lia.
  rewrite u32_small by (Z.div_mod_to_equations; lia). rewrite Z.div_mul by lia.
  Z.div_mod_to_equations. lia.
Qed.

(** The buffer of one block of the map. *)
Lemma map_block_spec w j Q E :
  0 ≤ j → 512 * (j + 1) ≤ zlen (b_v (sfs_freemap (w_fs w))) →
  (∀ l, zlen l = 512 → (∀ i, 0 ≤ i < 512 → zget l i = zget (b_v (sfs_freemap (w_fs w))) (512 * j + i)) →
        Q l w) →
  wp (map_block j) Q E w.
Proof.
  intros Hj Hl HQ. unfold map_block. wp_bind. apply wp_gets. unfold bitmap_getdata, SFS_BLOCKSIZE.
  destruct (Z.ltb_spec (zlen (b_v (sfs_freemap (w_fs w)))) ((j + 1) * 512)); [lia|]. apply wp_ret, HQ.
  - rewrite zlen_ztake; rewrite ?zlen_zdrop by lia; lia.
  - intros i Hi. rewrite zget_ztake, zget_zdrop by lia. f_equal. lia.
Qed.

Definition read_so_far w (j : Z) w' : Prop :=
  dev_equiv (w_dev w) (w_dev w') ∧ w_k w' = w_k w ∧ w_sv w' = w_sv w ∧
  ∃ l, w_fs w' = set_map (set_v l (sfs_freemap (w_fs w))) (w_fs w) ∧
       zlen l = 512 * mapblocks w ∧ ∀ i, 0 ≤ i < 512 * j → zget l i = map_byte w i.

Lemma mapio_read w :
  dinv (w_dev w) → SFS_MAP_LOCATION + mapblocks w ≤ d_blocks (w_dev w) → mapblocks w ≤ 1024 →
  zlen (b_v (sfs_freemap (w_fs w))) = 512 * mapblocks w → 0 ≤ mapblocks w →
  wp (sfs_mapio UIO_READ) (λ _ w', read_so_far w (mapblocks w) w')
     (λ e w', e = EIO ∧ dev_equiv (w_dev w) (w_dev w') ∧ w_k w' = w_k w ∧ w_sv w' = w_sv w) w.
Proof.
  unfold SFS_MAP_LOCATION. intros Hd Hb Hm Hl Hnn. unfold sfs_mapio. wp_bind. apply wp_gets.
  change (SFS_FS_BITBLOCKS (w_fs w)) with (mapblocks w).
  eapply wp_mono; [apply (wp_for_range (read_so_far w)
    (λ e w', e = EIO ∧ dev_equiv (w_dev w) (w_dev w') ∧ w_k w' = w_k w ∧ w_sv w' = w_sv w))|..].
  - split_and!; [reflexivity|done|done|]. exists (b_v (sfs_freemap (w_fs w))).
    split_and!; [by destruct w as [? ? [? ? ? ? [] ?] ?]|done|lia].
  - intros j w' Hj (Hde & Hk & Hsv & l & Hfs & Hll & Hi). rewrite Z.add_0_l, Z2Nat.id in Hj by lia.
    pose proof Hde as (Hdi & Hdb & Hds). wp_bind. apply map_block_spec; [lia|rewrite Hfs; cbn [set_map set_v sfs_freemap b_v]; lia|].
    intros buf Hbuf _. wp_bind. unfold SFS_MAP_LOCATION.
    wp_use sfs_rblock_dev; [by apply Hdi|lia|lia|done| |].
    + intros s w1 (-> & Hde1 & Hk1 & Hf1 & Hsv1). apply wp_modify.
      destruct (sector_ok (w_dev w) (2 + j)) as [Hzs _]; [done|lia|]. unfold SECTSIZE in Hzs.
      assert (Hs : sec w' (2 + j) = sector (w_dev w) (2 + j)) by apply Hds. rewrite Hs.
      split_and!; simpl; [by etransitivity|congruence|congruence|].
      exists (splice l (j * 512) (sector (w_dev w) (2 + j))). rewrite Hf1, Hfs. split_and!; [done|..].
      { rewrite zlen_splice; lia. }
      intros i Hij. destruct (decide (i < 512 * j)).
      * rewrite zget_splice_out by lia. apply Hi. lia.
      * rewrite zget_splice_in by lia. unfold map_byte, sec, SFS_MAP_LOCATION.
        replace (i / 512) with j by (Z.div_mod_to_equations; lia). f_equal. Z.div_mod_to_equations; lia.
    + intros e w1 (-> & Hde1 & Hk1 & Hf1 & Hsv1). split; [done|]. split; [by etransitivity|]. split; congruence.
  - intros [] w' Hw. by rewrite Z.add_0_l, Z2Nat.id in Hw by lia.
  - done.
Qed.

Record map_written w (j : Z) w' : Prop := {
  mw_fs : fs_ok w';
  mw_k : w_k w' = w_k w;
  mw_wfs : w_fs w' = w_fs w;
  mw_sv : w_sv w' = w_sv w;
  mw_map : ∀ i, 0 ≤ i < 512 * j → map_byte w' i = zget (b_v (sfs_freemap (w_fs w))) i;
  mw_sec : ∀ b, ¬ (SFS_MAP_LOCATION ≤ b < SFS_MAP_LOCATION + j) → sec w' b = sec w b;
}.

Lemma mapio_write w :
  fs_ok w → SFS_MAP_LOCATION + mapblocks w ≤ nblk w → 0 ≤ mapblocks w →
  zlen (b_v (sfs_freemap (w_fs w))) = 512 * mapblocks w →
  wp (sfs_mapio UIO_WRITE) (λ _ w', map_written w (mapblocks w) w') (λ _ _, False) w.
Proof.
  unfold SFS_MAP_LOCATION. intros Hok Hb Hnn Hl. unfold sfs_mapio. wp_bind. apply wp_gets.
  change (SFS_FS_BITBLOCKS (w_fs w)) with (mapblocks w).
  eapply wp_mono; [apply (wp_for_range (map_written w) (λ _ _, False))|..].
  - split; try done. lia.
  - intros j w' Hj []. rewrite Z.add_0_l, Z2Nat.id in Hj by lia.
    wp_bind. apply map_block_spec; [lia|rewrite mw_wfs0; lia|]. rewrite mw_wfs0.
    intros buf Hbuf Hget. unfold SFS_MAP_LOCATION.
    wp_use sfs_wblock_spec; [done| | |..].
    + unfold nblk. rewrite mw_wfs0. fold (nblk w). lia.
    + split; [done|]. apply Forall_lookup. intros k x Hx.
      assert (Hk : zget buf (Z.of_nat k) = Some x) by by rewrite zget_nat.
      pose proof (zget_Some_range _ _ _ Hk). rewrite Hget in Hk by lia.
      by apply (zget_byte _ _ _ (fo_map _ Hok) Hk).
    + intros [] w1 Hw. pose proof (wrote_fs_ok _ _ _ _ mw_fs0 Hw).
      destruct Hw as (_ & _ & Hs & Hk & Hf & Hsv). split; try congruence.
      * intros i Hi. unfold map_byte, SFS_MAP_LOCATION in *. rewrite Hs. case_decide as Hd.
        -- rewrite Hget by (Z.div_mod_to_equations; lia). f_equal. Z.div_mod_to_equations; lia.
        -- apply mw_map0. Z.div_mod_to_equations; lia.
      * intros b Hb'. unfold SFS_MAP_LOCATION in *. rewrite Hs, decide_False by lia. apply mw_sec0. lia.
    + done.
  - intros [] w' Hw. by rewrite Z.add_0_l, Z2Nat.id in Hw by lia.
  - done.
Qed.

(** ** The invariant of a mounted volume *)

(** The layout of the volume, and that whatever is not marked dirty is on the
    disk. *)
Record volume_ok w tbl : Prop := {
  vo_fs : fs_ok w;
  vo_tbl : table_ok w tbl;
  vo_magic : sp_magic (sfs_sb (w_fs w)) = SFS_MAGIC;
  vo_super : super_wf (sfs_sb (w_fs w));
  vo_volname : terminate_volname (sfs_sb (w_fs w)) = sfs_sb (w_fs w);
  vo_nbits : nbits (sfs_freemap (w_fs w)) = SFS_BITMAPSIZE (nblk w);
  vo_room : SFS_MAP_LOCATION + mapblocks w ≤ nblk w;
  vo_inodes : ∀ p sv, p ∈ tbl → w_sv w !! p = Some sv →
    inode_wf (sv_i sv) ∧
    (sv_ino sv = SFS_ROOT_LOCATION ∨ SFS_MAP_LOCATION + mapblocks w ≤ sv_ino sv) ∧
    (sv_dirty sv = false → dec_inode (sec w (sv_ino sv)) = sv_i sv);
  vo_superclean : sfs_superdirty (w_fs w) = false →
    terminate_volname (dec_super (sec w SFS_SB_LOCATION)) = sfs_sb (w_fs w);
  vo_mapclean : sfs_freemapdirty (w_fs w) = false → map_image w (b_v (sfs_freemap (w_fs w)));
}.
(** Nothing is waiting to be written. *)
Definition all_clean w tbl : Prop :=
  sfs_superdirty (w_fs w) = false ∧ sfs_freemapdirty (w_fs w) = false ∧
  ∀ p sv, p ∈ tbl → w_sv w !! p = Some sv → sv_dirty sv = false.

Lemma vo_maplen w tbl : volume_ok w tbl →
  zlen (b_v (sfs_freemap (w_fs w))) = 512 * mapblocks w ∧ 0 ≤ mapblocks w ≤ 1024.
Proof.
  intros []. destruct vo_fs0 as [_ [Hn _] Ho [_ Hl _] _ _ _ _].
  destruct (bitmapsize_small (nblk w)) as (He & _ & Hb); [lia|].
  unfold mapblocks. split; [|lia]. rewrite Hl, vo_nbits0, He. unfold DIVROUNDUP. Z.div_mod_to_equations. lia.
Qed.

(** ** Writing the inodes back *)

Definition syncs w tbl (done : list Z) w' : Prop :=
  fs_ok w' ∧ w_k w' = w_k w ∧ w_fs w' = w_fs w ∧
  (∀ p, w_sv w' !! p = if decide (p ∈ done) then clean <$> w_sv w !! p else w_sv w !! p) ∧
  (∀ p sv, p ∈ done → w_sv w !! p = Some sv → dec_inode (sec w' (sv_ino sv)) = sv_i sv) ∧
  (∀ b, (∀ p sv, p ∈ done → w_sv w !! p = Some sv → sv_ino sv ≠ b) → sec w' b = sec w b).

Lemma clean_clean sv : clean (clean sv) = clean sv.
Proof. done. Qed.

Lemma fsync_spec w p sv v :
  fs_ok w → loaded w p sv v → inode_wf (sv_i sv) →
  wp (VOP_FSYNC p) (λ _, synced p sv w) (λ _ _, False) w.
Proof.
  intros Hok [] Hwf. destruct ld_some as [o Ho]. unfold wp, VOP_FSYNC.
  rewrite (VOP_spec w p v false o) by (done || lia). unfold sfs_fsync.
  erewrite bind_step by (by apply data_of_spec, (vq_vn _ _ _ ld_vn)). rewrite ld_data.
  by apply sfs_sync_inode_spec.
Qed.

Lemma sync_step w tbl dn p w' :
  volume_ok w tbl → p ∈ tbl → (∀ q, q ∈ dn → q ∈ tbl) → syncs w tbl dn w' →
  wp (VOP_FSYNC p) (λ _, syncs w tbl (dn ++ [p])) (λ _ _, False) w'.
Proof.
  intros Hvo Hp Hsub (Hok & Hk & Hf & Hsv & Hin & Hsec).
  destruct (tb_loaded _ _ (vo_tbl _ _ Hvo) p Hp) as (sv & v & Hl). pose proof Hl as [].
  destruct (vo_inodes _ _ Hvo p sv Hp ld_sv) as (Hwf & _ & Hcl).
  set (sv' := if decide (p ∈ dn) then clean sv else sv).
  assert (Hi : sv_i sv' = sv_i sv ∧ sv_ino sv' = sv_ino sv ∧ clean sv' = clean sv).
  { unfold sv'. by case_decide. }
  destruct Hi as (Hi & Hino & Hc).
  assert (Hl' : loaded w' p sv' v).
  { split; rewrite ?Hk, ?Hi, ?Hino; unfold nblk, used; rewrite ?Hf; try done.
    rewrite Hsv, ld_sv. unfold sv'. by case_decide. }
  assert (Hdisk : sv_dirty sv' = false → dec_inode (sec w' (sv_ino sv)) = sv_i sv).
  { unfold sv'. case_decide as Hd; [intros _; by apply (Hin p)|]. intros Hcd. rewrite Hsec; [auto|].
    intros q sq Hq Hsq He. apply Hd.
    by rewrite (tb_inos _ _ (vo_tbl _ _ Hvo) p q sv sq) by eauto. }
  wp_use fsync_spec; [done|done|by rewrite Hi| |done]. intros [] w1 [].
  rewrite Hi, Hino in *. split_and!; try congruence; try done.
  - intros q. rewrite sy_svs, lookup_insert. case_decide as Hq.
    + subst q. rewrite decide_True by set_solver. rewrite ld_sv. by rewrite Hc.
    + rewrite Hsv. do 2 case_decide; set_solver.
  - intros q sq Hq Hsq. destruct (decide (q = p)) as [->|Hne].
    + simplify_eq. destruct (sv_dirty sv') eqn:Hd.
      * rewrite sy_inode by done. by apply dec_enc_inode.
      * rewrite sy_sec by auto. auto.
    + rewrite sy_sec; [apply (Hin q); set_solver|]. left. intros He. apply Hne.
      apply (tb_inos _ _ (vo_tbl _ _ Hvo) q p sq sv); set_solver.
  - intros b Hb. rewrite sy_sec; [apply Hsec; set_solver|]. left. intros ->. eapply Hb; [|done|done]. set_solver.
Qed.

Lemma tbl_get_fs w w' i p : w_fs w' = w_fs w → tbl_get i w = Ok p w → tbl_get i w' = Ok p w'.
Proof.
  unfold tbl_get, bind, gets. intros ->. repeat case_match; try done. unfold ret. congruence.
Qed.

Lemma sync_inodes w tbl :
  volume_ok w tbl →
  wp (for_range (Z.to_nat (zlen tbl)) 0 (λ i,
        let! sv := tbl_get i in let! _ := try (VOP_FSYNC sv) in ret tt))
     (λ _, syncs w tbl tbl) (λ _ _, False) w.
Proof.
  intros Hvo. pose proof (zlen_nonneg tbl).
  eapply wp_mono; [apply (wp_for_range (λ i, syncs w tbl (ztake i tbl)) (λ _ _, False))|..].
  - rewrite ztake_0. destruct Hvo. split_and!; try done.
    + by intros p sv Hp%elem_of_nil.
  - intros i w' Hi Hs. rewrite Z.add_0_l, Z2Nat.id in Hi by lia.
    destruct (zget_is_Some tbl i Hi) as [p Hp]. wp_bind. unfold wp at 1.
    rewrite (tbl_get_fs w w' i p); [|by destruct Hs as (_ & _ & ? & _)|by eapply tbl_get_spec; [apply Hvo|]].
    wp_bind. apply wp_try. unfold zget in Hp. rewrite decide_True in Hp by lia.
    wp_use (sync_step w tbl (ztake i tbl) p); [done|by eapply list_elem_of_lookup_2| |done| |done].
    + intros q Hq. by eapply elem_of_take in Hq as (? & ? & _); eapply list_elem_of_lookup_2.
    + intros [] w1. unfold ztake. replace (Z.to_nat (i + 1)) with (S (Z.to_nat i)) by lia.
      by rewrite (take_S_r _ _ p).
  - intros [] w'. rewrite Z.add_0_l, Z2Nat.id by lia. by rewrite ztake_all.
  - done.
Qed.

(** The blocks of the superblock and of the map hold no inode. *)
Lemma inode_apart w tbl p sv b :
  volume_ok w tbl → p ∈ tbl → w_sv w !! p = Some sv →
  b = SFS_SB_LOCATION ∨ SFS_MAP_LOCATION ≤ b < SFS_MAP_LOCATION + mapblocks w → sv_ino sv ≠ b.
Proof.
  intros Hvo Hp Hsv. destruct (vo_inodes _ _ Hvo p sv Hp Hsv) as (_ & Hino & _).
  pose proof (vo_maplen _ _ Hvo). unfold SFS_SB_LOCATION, SFS_MAP_LOCATION, SFS_ROOT_LOCATION in *. lia.
Qed.

(** What is on disk after the inodes, and after the map. *)
Definition map_synced w1 w2 : Prop :=
  fs_ok w2 ∧ w_k w2 = w_k w1 ∧ w_sv w2 = w_sv w1 ∧ w_fs w2 = set_mapdirty false (w_fs w1) ∧
  map_image w2 (b_v (sfs_freemap (w_fs w1))) ∧
  ∀ b, ¬ (SFS_MAP_LOCATION ≤ b < SFS_MAP_LOCATION + mapblocks w1) → sec w2 b = sec w1 b.

Lemma set_mapdirty_ok b w : fs_ok w → fs_ok (set_fs (set_mapdirty b (w_fs w)) w).
Proof. by intros []. Qed.
Lemma set_superdirty_ok b w : fs_ok w → fs_ok (set_fs (set_superdirty b (w_fs w)) w).
Proof. by intros []. Qed.

Lemma sync_map w tbl w1 :
  volume_ok w tbl → syncs w tbl tbl w1 →
  wp (when (sfs_freemapdirty (w_fs w1))
        (sfs_mapio UIO_WRITE ;;; modify (λ w, set_fs (set_mapdirty false (w_fs w)) w)))
     (λ _, map_synced w1) (λ _ _, False) w1.
Proof.
  intros Hvo (Hok & Hk & Hf & _ & _ & Hsec). destruct (vo_maplen _ _ Hvo) as [Hl Hm].
  assert (Hmb : mapblocks w1 = mapblocks w) by (unfold mapblocks, nblk; by rewrite Hf).
  assert (Hnb : nblk w1 = nblk w) by (unfold nblk; by rewrite Hf).
  apply wp_when; intros Hd.
  - wp_bind. wp_use mapio_write; [done|rewrite Hmb, Hnb; apply Hvo|lia|by rewrite Hf, Hmb| |done].
    intros [] w2 []. apply wp_modify. unfold map_synced; simpl. rewrite mw_wfs0. split_and!; try done.
    + rewrite <- mw_wfs0. by apply set_mapdirty_ok.
    + rewrite Hf. split; [exact Hl|]. intros i Hi. rewrite Hl in Hi. rewrite <- Hf, <- mw_map0 by lia. done.
  - assert (He : set_mapdirty false (w_fs w1) = w_fs w1) by (rewrite <- Hd; by destruct (w_fs w1)).
    unfold map_synced. rewrite He. split_and!; try done; rewrite Hf in *; destruct (vo_mapclean _ _ Hvo Hd) as [Hz Hi].
    split; [by rewrite Hmb|]. intros i Hir. rewrite Hi by done. unfold map_byte. f_equal. symmetry. apply Hsec.
    intros p sv Hp Hsv. eapply inode_apart; [done..|]. right. Z.div_mod_to_equations. lia.
Qed.

Lemma sync_super w tbl w1 w2 :
  volume_ok w tbl → syncs w tbl tbl w1 → map_synced w1 w2 →
  wp (when (sfs_superdirty (w_fs w2))
        (let! f := gets w_fs in
         sfs_wblock (enc_super (sfs_sb f)) SFS_SB_LOCATION ;;;
         modify (λ w, set_fs (set_superdirty false (w_fs w)) w)))
     (λ _ w3, fs_ok w3 ∧ w_k w3 = w_k w2 ∧ w_sv w3 = w_sv w2 ∧
        w_fs w3 = set_superdirty false (w_fs w2) ∧
        terminate_volname (dec_super (sec w3 SFS_SB_LOCATION)) = sfs_sb (w_fs w) ∧
        ∀ b, b ≠ SFS_SB_LOCATION → sec w3 b = sec w2 b) (λ _ _, False) w2.
Proof.
  intros Hvo (Hok & Hk & Hf & _ & _ & Hsec) (Hok2 & Hk2 & Hsv2 & Hf2 & _ & Hsec2).
  assert (Hsb : sfs_sb (w_fs w2) = sfs_sb (w_fs w)) by by rewrite Hf2, Hf.
  assert (Hsd : sfs_superdirty (w_fs w2) = sfs_superdirty (w_fs w)) by by rewrite Hf2, Hf.
  apply wp_when; intros Hd.
  - wp_bind. apply wp_gets. wp_bind. rewrite Hsb.
    wp_use sfs_wblock_spec; [done| |apply enc_super_block, Hvo| |done].
    { destruct Hok2. unfold SFS_SB_LOCATION. lia. }
    intros [] w3 Hw. pose proof (wrote_fs_ok _ _ _ _ Hok2 Hw).
    destruct Hw as (_ & _ & Hs & Hk3 & Hf3 & Hsv3). apply wp_modify. split_and!; simpl; try congruence.
    + by apply set_superdirty_ok.
    + change (sec (set_fs _ w3) SFS_SB_LOCATION) with (sec w3 SFS_SB_LOCATION).
      rewrite Hs, decide_True, dec_enc_super by (done || apply Hvo). apply Hvo.
    + intros b Hb. change (sec (set_fs _ w3) b) with (sec w3 b). by rewrite Hs, decide_False.
  - split_and!; try done.
    + rewrite <- Hd. by destruct (w_fs w2).
    + rewrite Hsec2, Hsec; [apply (vo_superclean _ _ Hvo); congruence| |].
      * intros p sv Hp Hsv. eapply inode_apart; [done..|]. by left.
      * unfold SFS_SB_LOCATION, SFS_MAP_LOCATION. lia.
Qed.

(** ** The memory of a volume *)

Definition upd_heap (h : H) w : W := set_k (set_heap h (w_k w)) w.
Lemma wp_in_heap {A} (c : M H A) Q E w :
  wp c (λ a h, Q a (upd_heap h w)) (λ e h, E e (upd_heap h w)) (heap w) → wp (in_heap c) Q E w.
Proof. intros Hc. by apply wp_zoom, wp_zoom. Qed.

Record fs_mem w : Prop := {
  fm_arr : array_ok (heap w, sfs_vnodes (w_fs w));
  fm_map : bitmap_owns (heap w) (sfs_freemap (w_fs w));
  fm_self : is_Some (klive (heap w) !! sfs_self (w_fs w));
  fm_apart : ∀ q, q = sfs_self (w_fs w) ∨ q = b_self (sfs_freemap (w_fs w)) ∨
    q = b_vptr (sfs_freemap (w_fs w)) → q ≠ arr_self (sfs_vnodes (w_fs w)) ∧ q ≠ arr_v (sfs_vnodes (w_fs w));
  fm_apart' : sfs_self (w_fs w) ≠ b_self (sfs_freemap (w_fs w)) ∧
    sfs_self (w_fs w) ≠ b_vptr (sfs_freemap (w_fs w));
}.
(** What else is on the heap. *)
Definition fs_frame w : gmap Z Z :=
  delete (sfs_self (w_fs w)) (delete (b_self (sfs_freemap (w_fs w)))
    (delete (b_vptr (sfs_freemap (w_fs w))) (arr_frame (heap w, sfs_vnodes (w_fs w))))).

(** Only the heap of the kernel memory and the state of the device differ. *)
Definition same_but_heap w w' : Prop :=
  dev_equiv (w_dev w) (w_dev w') ∧ w_sv w' = w_sv w ∧ w_k w' = set_heap (heap w') (w_k w).
Lemma same_but_heap_refl w : same_but_heap w w.
Proof. split; [reflexivity|]. by destruct w as [? [] ? ?]. Qed.
Lemma same_but_heap_trans w1 w2 w3 :
  same_but_heap w1 w2 → same_but_heap w2 w3 → same_but_heap w1 w3.
Proof.
  intros (? & ? & Hk) (? & ? & Hk'). split; [by etransitivity|]. split; [congruence|]. by rewrite Hk', Hk.
Qed.
Lemma same_but_heap_upd h w : same_but_heap w (upd_heap h w).
Proof. by split; [reflexivity|]. Qed.
Lemma same_but_heap_fs f w : same_but_heap w (set_fs f w).
Proof. split; [reflexivity|]. by destruct w as [? [] ? ?]. Qed.

#[local] Hint Resolve same_but_heap_refl same_but_heap_upd same_but_heap_fs : kern.
#[local] Hint Extern 3 (same_but_heap _ (upd_heap _ (upd_heap _ _))) =>
  eapply same_but_heap_trans; [|apply same_but_heap_upd] : kern.

(** A failed mount has released what it took. *)
Definition undone (m : gmap Z Z) w w' : Prop :=
  same_but_heap w w' ∧ kinv (heap w') ∧ klive (heap w') = m.

Lemma undo_mount_spec {A} sfs (a : array Z) e w (Q : A → W → Prop) :
  array_ok (heap w, a) → is_Some (klive (heap w) !! sfs) → sfs ≠ arr_self a → sfs ≠ arr_v a →
  wp (undo_mount sfs a e) Q (λ e' w', e' = e ∧ undone (delete sfs (arr_frame (heap w, a))) w w') w.
Proof.
  intros Ha Hs H1 H2. unfold undo_mount. wp_bind. apply wp_in_heap.
  wp_use array_destroy_spec; [done| |done]. intros [] h1 [Hk1 Hl1]. wp_bind. apply wp_in_heap.
  wp_use kfree_spec; [done| | |done].
  - change (heap (upd_heap h1 w)) with h1. rewrite Hl1. unfold arr_frame; simpl. by rewrite !lookup_delete_ne.
  - intros [] h2 [Hk2 Hl2]. apply wp_fail. split; [done|]. split; [by auto with kern|]. split; [done|].
    change (heap (upd_heap h2 (upd_heap h1 w))) with h2. rewrite Hl2.
    change (heap (upd_heap h1 w)) with h1. by rewrite Hl1.
Qed.

Lemma sfs_unmount_spec w :
  fs_mem w → sfs_superdirty (w_fs w) = false → sfs_freemapdirty (w_fs w) = false →
  wp sfs_unmount
     (λ _ w', arr_num (sfs_vnodes (w_fs w)) = 0 ∧ undone (fs_frame w) w w')
     (λ e w', e = EBUSY ∧ w' = w ∧ 0 < arr_num (sfs_vnodes (w_fs w))) w.
Proof.
  intros [] Hsd Hmd. pose proof fm_arr0 as (Hk & Hwf & _). destruct Hwf as [Hn _ _ _]. simpl in Hn.
  destruct (fm_apart0 (sfs_self (w_fs w))) as [Hs1 Hs2]; [auto|].
  destruct (fm_apart0 (b_self (sfs_freemap (w_fs w)))) as [Hb1 Hb2]; [auto|].
  destruct (fm_apart0 (b_vptr (sfs_freemap (w_fs w)))) as [Hv1 Hv2]; [auto|].
  unfold sfs_unmount. wp_bind. apply wp_gets. unfold array_getnum.
  destruct (Z.gtb_spec (arr_num (sfs_vnodes (w_fs w))) 0) as [Hg|Hg]; [by apply wp_fail|].
  wp_bind. apply wp_gets. wp_bind. apply wp_kassert; [by rewrite Hsd|]. wp_bind.
  apply wp_kassert; [by rewrite Hmd|]. wp_bind. apply wp_in_heap.
  wp_use array_destroy_spec; [done| |done]. intros [] h1 [Hk1 Hl1]. wp_bind. apply wp_in_heap.
  change (heap (upd_heap h1 w)) with h1. destruct fm_map0 as (Hbs & Hne & u & Hu & Hz).
  wp_use bitmap_destroy_spec; [done| | |done].
  { unfold bitmap_owns. rewrite Hl1. unfold arr_frame; simpl. rewrite !lookup_delete_ne by done. eauto. }
  intros [] h2 [Hk2 Hl2]. apply wp_in_heap. change (heap (upd_heap h2 _)) with h2.
  wp_use kfree_spec; [done| | |done].
  { rewrite Hl2. unfold bitmap_frame. rewrite Hl1. unfold arr_frame; simpl.
    rewrite !lookup_delete_ne by (done || by apply not_eq_sym, fm_apart'0). done. }
  intros [] h3 [Hk3 Hl3]. split; [lia|]. split; [by auto with kern|]. split; [done|].
  change (heap (upd_heap h3 _)) with h3. rewrite Hl3, Hl2. unfold bitmap_frame. by rewrite Hl1.
Qed.

(** ** Mounting *)

Record mounted (m : gmap Z Z) (sp : sfs_super) w w' : Prop := {
  mt_same : same_but_heap w w';
  mt_mem : fs_mem w';
  mt_frame : fs_frame w' = m;
  mt_sb : sfs_sb (w_fs w') = terminate_volname sp;
  mt_clean : sfs_superdirty (w_fs w') = false ∧ sfs_freemapdirty (w_fs w') = false;
  mt_tbl : arr_contents (sfs_vnodes (w_fs w')) = [];
  mt_nbits : nbits (sfs_freemap (w_fs w')) = SFS_BITMAPSIZE (sp_nblocks sp);
  mt_wf : bitmap_wf (sfs_freemap (w_fs w'));
  mt_map : map_image w' (b_v (sfs_freemap (w_fs w')));
}.

Lemma image_bytes w l :
  dinv (w_dev w) → SFS_MAP_LOCATION + mapblocks w ≤ d_blocks (w_dev w) → map_image w l → bytes l.
Proof.
  unfold SFS_MAP_LOCATION. intros Hd Hb [Hl Hi]. apply Forall_lookup. intros k x Hx.
  assert (Hk : zget l (Z.of_nat k) = Some x) by by rewrite zget_nat.
  pose proof (zget_Some_range _ _ _ Hk). rewrite Hi in Hk by lia. unfold map_byte, SFS_MAP_LOCATION in Hk.
  destruct (sector_ok (w_dev w) (2 + Z.of_nat k / 512)) as [_ Hby]; [done|Z.div_mod_to_equations; lia|].
  unfold zget in Hk. case_decide; [|done]. exact (Forall_lookup_1 _ _ _ _ Hby Hk).
Qed.

(** The blocks of a new map are none of the blocks there were. *)
Lemma new_map_apart (h h1 : H) b q :
  bitmap_frame h1 b = klive h → is_Some (klive h !! q) →
  q ≠ b_self b ∧ q ≠ b_vptr b ∧ klive h1 !! q = klive h !! q.
Proof.
  intros <- [x Hx]. unfold bitmap_frame in *.
  pose proof Hx as [? [? ?]%lookup_delete_Some]%lookup_delete_Some. split_and!; [done|done|].
  by rewrite Hx.
Qed.
Lemma undo_after sfs (a : array Z) e w (Q : Z → W → Prop) :
  array_ok (heap w, a) → is_Some (klive (heap w) !! sfs) → sfs ≠ arr_self a → sfs ≠ arr_v a →
  (e = ENOMEM ∨ e = EIO) → ∀ w1, same_but_heap w w1 → kinv (heap w1) → klive (heap w1) = klive (heap w) →
  wp (undo_mount sfs a e) Q (λ e w', (e = ENOMEM ∨ e = EIO) ∧ undone (delete sfs (arr_frame (heap w, a))) w w') w1.
Proof.
  intros Ha Hs H1 H2 He w1 Hw1 Hk1 Hl1. wp_use undo_mount_spec; try done.
  - apply (array_ok_live' (heap w)); [done|done|]. by intros ? _ _; rewrite Hl1.
  - by rewrite Hl1.
  - intros e' w' [-> (Hsm & Hk & Hl)]. split; [done|]. split; [by eapply same_but_heap_trans|].
    split; [done|]. rewrite Hl. unfold arr_frame; simpl. by rewrite Hl1.
Qed.

Lemma load_freemap_spec sfs (a : array Z) sp w :
  dinv (w_dev w) → array_ok (heap w, a) → arr_contents a = [] → is_Some (klive (heap w) !! sfs) →
  sfs ≠ arr_self a → sfs ≠ arr_v a → 0 ≤ sp_nblocks sp < 4194304 →
  SFS_MAP_LOCATION + SFS_BITBLOCKS (sp_nblocks sp) ≤ d_blocks (w_dev w) →
  let m := delete sfs (arr_frame (heap w, a)) in
  wp (load_freemap sfs a sp) (λ p w', p = sfs_self (w_fs w') ∧ mounted m sp w w')
     (λ e w', (e = ENOMEM ∨ e = EIO) ∧ undone m w w') w.
Proof.
  intros Hd Ha Hc Hs Hs1 Hs2 Hn Hroom m. pose proof Ha as (Hkw & _ & _ & Hsome & Hav). simpl in *.
  destruct (bitmapsize_small (sp_nblocks sp) Hn) as (Hbs & Hge & Hbb).
  unfold load_freemap. cbn zeta. change (sp_nblocks (terminate_volname sp)) with (sp_nblocks sp).
  wp_bind. apply wp_in_heap. wp_use bitmap_create_spec; [done|lia| |done].
  intros [b|] h1 [Hk1 Hb1]; [|by eapply undo_after; eauto with kern].
  destruct Hb1 as (Hnb & Hwf & _ & _ & Hown & Hfr). wp_bind. apply wp_modify. wp_bind. apply wp_try.
  set (w1 := set_fs _ _). assert (Hw1 : same_but_heap w w1).
  { eapply same_but_heap_trans; [apply same_but_heap_upd|apply same_but_heap_fs]. }
  assert (Hmb : mapblocks w1 = SFS_BITBLOCKS (sp_nblocks sp)) by done.
  assert (Hlen : zlen (b_v b) = 512 * mapblocks w1).
  { rewrite (bm_len _ Hwf), Hnb, Hbs, Hmb. unfold DIVROUNDUP. Z.div_mod_to_equations. lia. }
  wp_use mapio_read; [done|by rewrite Hmb|by rewrite Hmb; lia|done|by rewrite Hmb; lia|..].
  2: { intros e w2 (-> & Hde & Hk & Hsv). wp_bind. apply wp_in_heap.
       assert (Hh2 : heap w2 = h1) by (unfold heap; by rewrite Hk).
       wp_use bitmap_destroy_spec; [by rewrite Hh2|by rewrite Hh2| |done].
       intros [] h3 [Hk3 Hl3]. eapply undo_after; try done; [by right| |change (klive h3 = klive (heap w)); by rewrite Hl3, Hh2].
       eapply same_but_heap_trans; [done|]. eapply same_but_heap_trans; [|apply same_but_heap_upd].
       split; [done|]. split; [done|]. rewrite Hk. unfold heap. by rewrite Hk. }
  intros [] w2 (Hde & Hk & Hsv & l & Hf & Hl & Hi). apply wp_ret. rewrite Hf. split; [done|].
  assert (Hh2 : heap w2 = h1) by (unfold heap; by rewrite Hk).
  assert (Him : map_image w2 l).
  { split; [unfold mapblocks, nblk in *; by rewrite Hf|]. intros i Hil. rewrite Hi by lia.
    unfold map_byte, sec. destruct Hde as (_ & _ & Hds). by rewrite Hds. }
  destruct Hde as (Hdi & Hdb & Hds). simpl in Hdi, Hdb.
  assert (Hby : bytes l).
  { apply (image_bytes w2); [by apply Hdi| |done]. unfold mapblocks, nblk. rewrite Hf, Hdb. done. }
  assert (Hap : ∀ q, is_Some (klive (heap w) !! q) → q ≠ b_self b ∧ q ≠ b_vptr b ∧ klive h1 !! q = klive (heap w) !! q).
  { intros q. by apply new_map_apart. }
  assert (Hv0 : arr_v a ≠ b_self b ∧ arr_v a ≠ b_vptr b).
  { destruct (decide (arr_v a = 0)) as [->|Hnz].
    - destruct Hown as ([? Ho1] & _ & ? & Ho2 & _). pose proof (klive_null h1 Hk1). split; intros He; rewrite He in *; congruence.
    - destruct (Hav Hnz) as (_ & u & Hu & _). destruct (Hap (arr_v a)) as (? & ? & _); [by eexists|done]. }
  destruct (Hap sfs Hs) as (? & ? & Hls). destruct (Hap (arr_self a) Hsome) as (? & ? & Hla).
  assert (Ha1 : array_ok (h1, a)).
  { apply (array_ok_live' (heap w)); [done|done|]. intros q Hq _. by apply Hap. }
  split.
  - eapply same_but_heap_trans; [done|]. split; [done|]. split; [done|]. rewrite Hk. unfold heap. by rewrite Hk.
  - split; rewrite ?Hf, ?Hh2; simpl; try done.
    + destruct Hown as (? & ? & u & ? & ?). split_and!; [done|done|]. exists u. split; [done|]. simpl. lia.
    + by rewrite Hls.
    + intros q [->|[->| ->]]; split; naive_solver.
  - unfold fs_frame. rewrite Hf, Hh2. simpl. unfold m. f_equal. unfold arr_frame; simpl. rewrite <- Hfr. unfold bitmap_frame.
    apply map_eq. intros q. rewrite !lookup_delete. repeat case_decide; congruence.
  - by rewrite Hf.
  - by rewrite Hf.
  - by rewrite Hf.
  - by rewrite Hf.
  - rewrite Hf. destruct Hwf. split; simpl; [done|lia|done].
  - by rewrite Hf.
Qed.
End spec.
