(* ===== verification/SfsFsThm.v ===== *)
(** * SFS volumes: the theorems

    What mounting reads is what writing back wrote; mounting and unmounting
    account for their memory. *)

From S2P Require Import Prelude KString Kmem KArray KBitmap CopyInOut Uio BlockDev Lhd Vnode.
From S2P Require Import SfsDisk SfsCore SfsSpec SfsMap SfsFile SfsFileSpec SfsFileThm SfsTrunc SfsDir.
From S2P Require Import SfsVnode SfsVnodeSpec SfsFs SfsFsSpec SfsVnodeThm.

Section theorems.
Context {D H : Type} `{!BlockDev D, !BlockDevOk D, !Kmem H, !KmemOk H}.
Notation W := (world D H).
Implicit Types (w : W) (sv : sfs_vnode) (tbl : list Z) (sp : sfs_super).

(** The superblock is readable, and if it is one, the map it describes is on
    the device. *)
Definition mountable w : Prop :=
  dinv (w_dev w) ∧ 0 < d_blocks (w_dev w) ∧ kinv (heap w) ∧
  let sp := dec_super (sec w SFS_SB_LOCATION) in
  sp_magic sp = SFS_MAGIC →
  0 ≤ sp_nblocks sp < 4194304 ∧ SFS_MAP_LOCATION + SFS_BITBLOCKS (sp_nblocks sp) ≤ d_blocks (w_dev w).

Lemma sfs_domount_spec w :
  mountable w →
  let sp := dec_super (sec w SFS_SB_LOCATION) in
  wp sfs_domount
     (λ p w', p = sfs_self (w_fs w') ∧ sp_magic sp = SFS_MAGIC ∧ mounted (klive (heap w)) sp w w')
     (λ e w', undone (klive (heap w)) w w' ∧
              (e = ENOMEM ∨ e = EIO ∨ e = EINVAL ∧ sp_magic sp ≠ SFS_MAGIC)) w.
Proof.
  intros (Hd & Hb & Hk & Hsp) sp. unfold sfs_domount. wp_bind. apply wp_gets.
  destruct (d_geometry _ Hd) as [-> _]. cbn [negb Z.eqb]. change (negb (SECTSIZE =? SFS_BLOCKSIZE)) with false. cbv iota.
  wp_bind. apply wp_in_heap. wp_use kmalloc_spec; [done|done| |done].
  intros p h1 (Hk1 & [[-> Hl1]|(u & Hnz & Hfresh & Hu & Hl1)]).
  { apply wp_fail. split; [|auto]. split; [apply same_but_heap_upd|]. done. }
  destruct (Z.eqb_spec p 0); [done|]. wp_bind. apply wp_in_heap. wp_use array_create_spec; [done| |done].
  change (heap (upd_heap h1 w)) with h1. intros [a|] h2 [Hk2 Ha2].
  2: { wp_bind. apply wp_in_heap. wp_use kfree_spec; [done| | |done].
       - change (heap (upd_heap h2 _)) with h2. rewrite Ha2, Hl1, lookup_insert_eq. eauto.
       - intros [] h3 [Hk3 Hl3]. apply wp_fail. split; [|auto]. split.
         + do 2 (eapply same_but_heap_trans; [apply same_but_heap_upd|]). apply same_but_heap_upd.
         + split; [done|]. change (klive h3 = klive (heap w)). rewrite Hl3.
           change (heap (upd_heap h2 _)) with h2. rewrite Ha2, Hl1, delete_insert_eq. by apply delete_id. }
  destruct Ha2 as (Ha & Hc & Hfr). set (w2 := upd_heap h2 _).
  assert (Hw2 : same_but_heap w w2) by (eapply same_but_heap_trans; apply same_but_heap_upd).
  assert (Hpl : is_Some (arr_frame (h2, a) !! p)) by (rewrite Hfr, Hl1, lookup_insert_eq; eauto).
  apply frame_elem in Hpl as (Hp1 & Hp2 & Hp3).
  assert (Hfr' : delete p (arr_frame (h2, a)) = klive (heap w)).
  { rewrite Hfr, Hl1, delete_insert_eq. by apply delete_id. }
  wp_bind. apply wp_try. wp_use sfs_rblock_dev; [done|done|done|done|..].
  - intros l w3 (-> & Hs3). pose proof Hs3 as ((Hdi & Hdb & Hds) & Hk3 & Hf3 & Hsv3).
    change (sec w2 SFS_SB_LOCATION) with (sec w SFS_SB_LOCATION). fold sp.
    assert (Hh3 : heap w3 = h2) by (unfold heap; by rewrite Hk3).
    assert (Hw3 : same_but_heap w w3).
    { eapply same_but_heap_trans; [done|]. split; [apply Hs3|]. split; [done|]. rewrite Hk3, Hh3. done. }
    assert (Hun : ∀ w', undone (delete p (arr_frame (heap w3, a))) w3 w' → undone (klive (heap w)) w w').
    { rewrite Hh3, Hfr'. intros w' [? ?]. split; [by eapply same_but_heap_trans|done]. }
    destruct (Z.eqb_spec (sp_magic sp) SFS_MAGIC) as [Hm|Hm]; cbn [negb].
    + destruct (Hsp Hm) as [Hn Hroom].
      wp_use load_freemap_spec; rewrite ?Hh3; try done; [by apply Hdi|by rewrite Hdb|..].
      * intros q w' [-> Hmt]. split; [done|]. split; [done|]. rewrite Hfr' in Hmt. destruct Hmt.
        split; try done. by eapply same_but_heap_trans.
      * intros e w' [He Hu']. rewrite <- Hh3 in Hu'. apply Hun in Hu'. split; [done|]. tauto.
    + wp_use (undo_mount_spec p a EINVAL w3 (λ _ _, False)); rewrite ?Hh3; try done. intros e w' [-> Hu']. rewrite <- Hh3 in Hu'. apply Hun in Hu'. auto.
  - intros e w3 (-> & Hs3). pose proof Hs3 as (_ & Hk3 & _ & Hsv3).
    assert (Hh3 : heap w3 = h2) by (unfold heap; by rewrite Hk3).
    wp_use (undo_mount_spec p a EIO w3 (λ _ _, False)); rewrite ?Hh3; try done. intros e w' [-> (? & ? & Hl)]. split; [|auto].
    split; [|by rewrite Hl, Hfr']. eapply same_but_heap_trans; [done|]. eapply same_but_heap_trans; [|done].
    split; [apply Hs3|]. split; [done|]. rewrite Hk3, Hh3. done.
Qed.

(** ** Writing back *)

(** [w'] is [w] with everything that was dirty on the disk. *)
Record written_back tbl w w' : Prop := {
  wb_ok : volume_ok w' tbl;
  wb_clean : all_clean w' tbl;
  wb_k : w_k w' = w_k w;
  wb_fs : w_fs w' = set_superdirty false (set_mapdirty false (w_fs w));
  wb_sv : ∀ p, w_sv w' !! p = if decide (p ∈ tbl) then clean <$> w_sv w !! p else w_sv w !! p;
  wb_sec : ∀ b, b ≠ SFS_SB_LOCATION → ¬ (SFS_MAP_LOCATION ≤ b < SFS_MAP_LOCATION + mapblocks w) →
    (∀ p sv, p ∈ tbl → w_sv w !! p = Some sv → sv_ino sv ≠ b) → sec w' b = sec w b;
}.

Lemma clean_lookup w w' tbl p sv' :
  (∀ p, w_sv w' !! p = if decide (p ∈ tbl) then clean <$> w_sv w !! p else w_sv w !! p) →
  p ∈ tbl → w_sv w' !! p = Some sv' → ∃ sv, w_sv w !! p = Some sv ∧ sv' = clean sv.
Proof.
  intros Hsv Hp. rewrite Hsv, decide_True by done. destruct (w_sv w !! p) as [sv|]; [|done].
  intros [= <-]. by exists sv.
Qed.

Lemma clean_table w w' tbl :
  w_k w' = w_k w → w_fs w' = set_superdirty false (set_mapdirty false (w_fs w)) →
  (∀ p, w_sv w' !! p = if decide (p ∈ tbl) then clean <$> w_sv w !! p else w_sv w !! p) →
  table_ok w tbl → table_ok w' tbl.
Proof.
  intros Hk Hf Hsv [? ? Hl Hi]. split; rewrite ?Hf; try done.
  - intros p Hp. destruct (Hl p Hp) as (sv & v & []). exists (clean sv), v.
    split; rewrite ?Hk; unfold nblk, used in *; rewrite ?Hf; try done.
    rewrite Hsv, decide_True by done. by rewrite ld_sv.
  - intros p p' sv sv' Hp Hp' Hs Hs'.
    destruct (clean_lookup w w' tbl p sv) as (s & ? & ->); [done..|].
    destruct (clean_lookup w w' tbl p' sv') as (s' & ? & ->); [done..|]. intros He. by apply (Hi p p' s s').
Qed.

Lemma sfs_sync_spec w tbl :
  volume_ok w tbl → wp sfs_sync (λ _, written_back tbl w) (λ _ _, False) w.
Proof.
  intros Hvo. unfold sfs_sync. wp_bind. apply wp_gets. rewrite (tbl_len _ _ (vo_tbl _ _ Hvo)).
  wp_bind. wp_use sync_inodes; [done| |done]. intros [] w1 Hs1. wp_bind. apply wp_gets.
  wp_bind. wp_use sync_map; [done..| |done]. intros [] w2 Hs2. wp_bind. apply wp_gets.
  wp_use sync_super; [done..| |done].
  destruct Hs1 as (Hok1 & Hk1 & Hf1 & Hsv1 & Hin1 & Hsec1). destruct Hs2 as (Hok2 & Hk2 & Hsv2 & Hf2 & Him2 & Hsec2).
  intros [] w3 (Hok3 & Hk3 & Hsv3 & Hf3 & Hsup3 & Hsec3).
  assert (Hf : w_fs w3 = set_superdirty false (set_mapdirty false (w_fs w))) by by rewrite Hf3, Hf2, Hf1.
  assert (Hk : w_k w3 = w_k w) by congruence.
  assert (Hsv : ∀ p, w_sv w3 !! p = if decide (p ∈ tbl) then clean <$> w_sv w !! p else w_sv w !! p).
  { intros p. by rewrite Hsv3, Hsv2. }
  assert (Hmb : mapblocks w1 = mapblocks w) by (unfold mapblocks, nblk; by rewrite Hf1).
  assert (Hmb3 : mapblocks w3 = mapblocks w) by (unfold mapblocks, nblk; by rewrite Hf).
  assert (Hnb3 : nblk w3 = nblk w) by (unfold nblk; by rewrite Hf).
  assert (Hc : ∀ p sv, p ∈ tbl → w_sv w3 !! p = Some sv → ∃ sv', w_sv w !! p = Some sv' ∧ sv = clean sv').
  { intros p sv. by apply clean_lookup. }
  split; [split|..]; rewrite ?Hf, ?Hmb3, ?Hnb3; try done; try apply Hvo.
  - apply (clean_table w); [done..|apply Hvo].
  - intros p sv Hp Hs. destruct (Hc p sv Hp Hs) as (sv' & Hsw & ->).
    destruct (vo_inodes _ _ Hvo p sv' Hp Hsw) as (? & ? & _). split_and!; [done|done|]. intros _.
    pose proof (inode_apart w tbl p sv') as Hap. rewrite Hsec3, Hsec2 by (rewrite ?Hmb; naive_solver). by apply (Hin1 p sv').
  - intros _. rewrite Hf1 in Him2. destruct Him2 as [Hl Hi]. split; [rewrite Hmb3, <- Hmb; unfold mapblocks, nblk in *; by rewrite Hf2 in Hl|].
    intros i Hir. rewrite Hi by done. unfold map_byte. f_equal. symmetry. apply Hsec3.
    unfold SFS_SB_LOCATION, SFS_MAP_LOCATION. Z.div_mod_to_equations. lia.
  - split_and!; [by rewrite Hf..|]. intros p sv Hp Hs. by destruct (Hc p sv Hp Hs) as (sv' & _ & ->).
  - intros b Hb1 Hb2 Hb3. rewrite Hsec3, Hsec2, Hsec1 by (rewrite ?Hmb; done). done.
Qed.

(** ** The properties *)

(** Writing a volume back: afterwards every inode of the table, the free map
    and the superblock are on the disk as they are in memory and nothing is
    marked dirty; memory and all other blocks are as before, and the invariant
    of the volume holds. *)
Theorem sfs_sync_correct w tbl :
  volume_ok w tbl →
  wp sfs_sync
     (λ _ w', volume_ok w' tbl ∧ all_clean w' tbl ∧ w_k w' = w_k w ∧
        sfs_sb (w_fs w') = sfs_sb (w_fs w) ∧ sfs_freemap (w_fs w') = sfs_freemap (w_fs w) ∧
        (∀ p sv, p ∈ tbl → w_sv w !! p = Some sv → dec_inode (sec w' (sv_ino sv)) = sv_i sv) ∧
        map_image w' (b_v (sfs_freemap (w_fs w))) ∧
        (∀ b, b ≠ SFS_SB_LOCATION → ¬ (SFS_MAP_LOCATION ≤ b < SFS_MAP_LOCATION + mapblocks w) →
              (∀ p sv, p ∈ tbl → w_sv w !! p = Some sv → sv_ino sv ≠ b) → sec w' b = sec w b))
     (λ _ _, False) w.
Proof.
  intros Hvo. wp_use sfs_sync_spec; [done| |done]. intros [] w' [].
  split_and!; try done; try by rewrite wb_fs0.
  - intros p sv Hp Hsv. apply (vo_inodes _ _ wb_ok0 p (clean sv)); [done| |done].
    by rewrite wb_sv0, decide_True, Hsv.
  - pose proof (vo_mapclean _ _ wb_ok0) as Hm. rewrite wb_fs0 in Hm. by apply Hm.
Qed.

Lemma mounted_ok sp w w1 w2 tbl :
  volume_ok w tbl → all_clean w tbl → dev_equiv (w_dev w) (w_dev w1) →
  sp = dec_super (sec w1 SFS_SB_LOCATION) → mounted (klive (heap w1)) sp w1 w2 →
  volume_ok w2 [] ∧ sfs_sb (w_fs w2) = sfs_sb (w_fs w) ∧
  b_v (sfs_freemap (w_fs w2)) = b_v (sfs_freemap (w_fs w)).
Proof.
  intros Hvo (Hsd & Hmd & _) Hde -> [Hsm Hmem _ Hsb [Hc1 Hc2] Htb Hnb Hwf Him].
  assert (Hde2 : dev_equiv (w_dev w) (w_dev w2)) by (etransitivity; [done|apply Hsm]).
  assert (Hsec : ∀ b, sec w2 b = sec w b) by apply Hde2.
  assert (Hsb2 : sfs_sb (w_fs w2) = sfs_sb (w_fs w)).
  { rewrite Hsb, <- (vo_superclean _ _ Hvo Hsd). do 2 f_equal. apply Hde. }
  assert (Hn : nblk w2 = nblk w) by (unfold nblk; by rewrite Hsb2).
  assert (Hsp : sp_nblocks (dec_super (sec w1 SFS_SB_LOCATION)) = nblk w).
  { rewrite <- Hn. unfold nblk. by rewrite Hsb. }
  assert (Hbv : b_v (sfs_freemap (w_fs w2)) = b_v (sfs_freemap (w_fs w))).
  { destruct (vo_mapclean _ _ Hvo Hmd) as [Hl Hi]. apply (map_image_inj w2); [done|].
    split; [unfold mapblocks; by rewrite Hn|]. intros i Hir. rewrite Hi by done. unfold map_byte. by rewrite Hsec. }
  assert (Hnb2 : nbits (sfs_freemap (w_fs w2)) = nbits (sfs_freemap (w_fs w))).
  { rewrite Hnb, Hsp. symmetry. apply Hvo. }
  assert (Hbit : ∀ b, bit_set (sfs_freemap (w_fs w2)) b = bit_set (sfs_freemap (w_fs w)) b).
  { intros b. unfold bit_set. by rewrite Hbv. }
  split; [|done]. destruct Hvo. destruct vo_fs. split; rewrite ?Hsb2, ?Hnb2, ?Hn; try done.
  - split; rewrite ?Hn, ?Hnb2; try done.
    + by apply Hde2.
    + destruct Hde2 as (_ & -> & _). done.
    + intros b Hb. rewrite Hbit. apply fo_padded. by rewrite <- Hnb2, <- Hbv.
    + intros b Hb. destruct (fo_tail b Hb). split; [done|by rewrite Hbit].
    + destruct fo_super. split; [done|by rewrite Hbit].
  - destruct Hmem as [(_ & Hawf & _) _ _ _ _]. split; [done|by rewrite Htb| |]; intros ? ?; set_solver.
  - unfold mapblocks. by rewrite Hn.
  - intros p sv Hp. set_solver.
  - intros _. rewrite Hsec. by apply vo_superclean.
Qed.

(** C24 What was written back is what a later mount finds: after [sfs_sync], a
    kernel with a fresh memory that mounts the same disk has the superblock,
    the free map and the inodes of the volume that was written, and a volume
    that satisfies the invariant; otherwise it reports ENOMEM or EIO. *)
Theorem sync_mount_roundtrip w tbl :
  volume_ok w tbl →
  wp sfs_sync
     (λ _ w1, ∀ k f, kinv (vs_heap k) →
        wp sfs_domount
           (λ p w2, volume_ok w2 [] ∧ sfs_sb (w_fs w2) = sfs_sb (w_fs w) ∧
              (∀ b, used w2 b ↔ used w b) ∧
              ∀ p sv, p ∈ tbl → w_sv w !! p = Some sv → dec_inode (sec w2 (sv_ino sv)) = sv_i sv)
           (λ e _, e = ENOMEM ∨ e = EIO) (mkworld (w_dev w1) k f ∅))
     (λ _ _, False) w.
Proof.
  intros Hvo. wp_use sfs_sync_spec; [done| |done]. intros [] w1 []. intros k f Hk.
  pose proof (vo_superclean _ _ wb_ok0 (proj1 wb_clean0)) as Hsup. set (w1' := mkworld _ _ _ _).
  set (sp := dec_super (sec w1' SFS_SB_LOCATION)).
  assert (Hsp : sp_magic sp = sp_magic (sfs_sb (w_fs w1)) ∧ sp_nblocks sp = nblk w1).
  { unfold nblk. by rewrite <- Hsup. }
  destruct Hsp as [Hmag Hnb]. pose proof wb_ok0 as []. pose proof (vo_maplen _ _ wb_ok0) as [_ Hmb].
  wp_use sfs_domount_spec.
  - destruct vo_fs. split_and!; [done|unfold nblk in *; cbn; lia|done|]. fold sp. cbv zeta. intros _.
    rewrite Hnb. fold (mapblocks w1). cbn [w_dev w1']. lia.
  - intros p w2 (_ & _ & Hmt). pose proof Hmt as [(Hde & _) _ _ _ _ _ _ _ _].
    destruct (mounted_ok sp w1 w1' w2 tbl) as (Hvo2 & Hsb2 & Hbv2); [done..|].
    split; [done|]. split; [by rewrite Hsb2, wb_fs0|]. split.
    + intros b. unfold used, bit_set. by rewrite Hbv2, wb_fs0.
    + intros q sv Hq Hsv. destruct Hde as (_ & _ & Hsec). unfold sec. rewrite Hsec.
      apply (vo_inodes q (clean sv)); [done| |done]. by rewrite wb_sv0, decide_True, Hsv.
  - intros e w2 (_ & He). fold sp in He. rewrite Hmag, vo_magic in He. tauto.
Qed.

(** Mounting takes from the heap exactly what unmounting gives back, and a
    mount that fails has given back everything; EINVAL means that the magic
    number is wrong. *)
Theorem mount_unmount_memory w :
  mountable w →
  wp (sfs_domount ;;; sfs_unmount)
     (λ _ w', undone (klive (heap w)) w w')
     (λ e w', undone (klive (heap w)) w w' ∧
        (e = ENOMEM ∨ e = EIO ∨
         e = EINVAL ∧ sp_magic (dec_super (sec w SFS_SB_LOCATION)) ≠ SFS_MAGIC)) w.
Proof.
  intros Hm. wp_bind. wp_use sfs_domount_spec; [done| |done]. intros p w1 (_ & _ & []).
  destruct mt_clean as [Hsd Hmd]. wp_use sfs_unmount_spec; [done..| |].
  - intros [] w2 (_ & Hsm & Hk & Hl). split; [by eapply same_but_heap_trans|]. by rewrite Hl.
  - intros e w2 (_ & _ & Hn). exfalso. apply (f_equal zlen) in mt_tbl. unfold arr_contents in mt_tbl.
    destruct mt_mem as [(_ & [Hr Hs _ _] & _) _ _ _ _]. simpl in *. rewrite zlen_ztake, zlen_nil in mt_tbl by lia. lia.
Qed.
End theorems.

(** ** Witnesses *)

(** The volume with one loaded file, superblock and map not yet on the disk. *)
Module MountVol.
Definition dirty : world (lhd_softc SimDisk.disk) Toy.heap :=
  let w := TblVol.vol 1000 1 in set_fs (set_superdirty true (set_mapdirty true (w_fs w))) w.
Lemma dirty_ok : volume_ok dirty [200].
Proof.
  split.
  - apply (set_superdirty_ok true (set_fs (set_mapdirty true (w_fs (TblVol.vol 1000 1))) (TblVol.vol 1000 1))).
    apply (set_mapdirty_ok true), TblVol.tblvol_ok.
  - destruct (TblVol.tbl_is_ok 1000 1) as [? ? Hl ?]. split; try done. intros p Hp.
    destruct (Hl p Hp) as (sv & v & []). exists sv, v. by split.
  - done.
  - split; try done; (split; [done|]); by apply Forall_replicate.
  - done.
  - done.
  - done.
  - intros p sv ->%list_elem_of_singleton [= <-]. split; [by apply TblVol.links_wf|]. split; [by right|]. done.
  - done.
  - done.
Qed.
(** A disk with just a superblock, for a volume of [n] blocks, and a map. *)
Definition blank (n : Z) : world (lhd_softc SimDisk.disk) Toy.heap :=
  set_k (mkvst (Toy.fresh 9000) ∅ ∅ 5)
    (ToyVol.vol (enc_super (mksuper SFS_MAGIC n (replicate 32 0) (replicate 118 0))
                 :: replicate 7 zeroblock) 15 ∅).
Lemma blank_ok : mountable (blank 8).
Proof.
  split_and!; [|done|apply Toy.fresh_inv|].
  - apply ToyVol.dinv_dev; [done|]. apply Forall_cons. split.
    + apply enc_super_block. split; try done; (split; [done|]); by apply Forall_replicate.
    + apply Forall_replicate. split; [done|apply bytes_zeros].
  - intros sp _. vm_compute. done.
Qed.
End MountVol.

Lemma sfs_sync_correct_witness :
  wp sfs_sync (λ _ w', dec_inode (sec w' 3) = sv_i (TblVol.file 1)) (λ _ _, False) MountVol.dirty.
Proof.
  eapply wp_mono; [apply (sfs_sync_correct MountVol.dirty [200]); apply MountVol.dirty_ok|..].
  - intros [] w' (_ & _ & _ & _ & _ & Hi & _). apply (Hi 200 (TblVol.file 1)); [left|reflexivity].
  - intros e w' [].
Defined.

Lemma sync_mount_roundtrip_witness :
  wp sfs_sync
     (λ _ w1, wp sfs_domount (λ _ w2, sfs_sb (w_fs w2) = ToyVol.super) (λ e _, e = ENOMEM ∨ e = EIO)
        (mkworld (w_dev w1) (mkvst (Toy.fresh 5000) ∅ ∅ 5) (ToyVol.fs 0) ∅))
     (λ _ _, False) MountVol.dirty.
Proof.
  eapply wp_mono; [apply (sync_mount_roundtrip MountVol.dirty [200]); apply MountVol.dirty_ok|..].
  - intros [] w1 Hm. eapply wp_mono; [apply (Hm (mkvst (Toy.fresh 5000) ∅ ∅ 5)); apply Toy.fresh_inv|..].
    + intros p w2 (_ & Hsb & _). exact Hsb.
    + intros e w2 He. exact He.
  - intros e w' [].
Defined.

Lemma mount_unmount_memory_witness :
  wp (sfs_domount ;;; sfs_unmount) (λ _ w', Toy.live (heap w') = ∅)
     (λ _ w', Toy.live (heap w') = ∅) (MountVol.blank 8).
Proof.
  eapply wp_mono; [apply (mount_unmount_memory (MountVol.blank 8)); apply MountVol.blank_ok|..].
  - intros [] w' (_ & _ & Hl). exact Hl.
  - intros e w' [(_ & _ & Hl) _]. exact Hl.
Defined.

(** A superblock that claims more blocks than the device has: mounting only
    warns, reads the map past the end of the device and panics there. *)
Example mount_corrupt_panics : sfs_domount (MountVol.blank 40000) = Panic.
Proof. vm_compute. reflexivity. Qed.
