(* ===== verification/MkSfs.v ===== *)
(** * Making a volume (sbin/mksfs/mksfs.c, sbin/mksfs/disk.c)

    The program that writes an empty volume to a disk or, built for the host,
    to a disk image with a header block.  [HOST] is the build; both lay the
    structures out big-endian. *)

From S2P Require Import Prelude KString BlockDev SfsDisk.

(** What the system does with the next call: it takes up to so many bytes, it
    asks to try again, or it fails.  After the last one every call does all
    that was asked. *)
Inductive answer := A_take (n : Z) | A_again | A_error.

(** [fd] open, [nblocks], the file and the position in it, the answers of the
    system, [bitbuf]. *)
Record mkfs := mkmkfs {
  im_open : bool;
  im_nblocks : Z;
  im_file : list Z;
  im_pos : Z;
  im_answers : list answer;
  im_bits : list Z;
}.
Definition BLOCKSIZE : Z := 512.
Definition MAXBITBLOCKS : Z := 32.
(** "System/161 Disk Image" *)
Definition HOSTSTRING : list Z :=
  [83; 121; 115; 116; 101; 109; 47; 49; 54; 49; 32; 68; 105; 115; 107; 32; 73; 109; 97; 103; 101].

(** ** The system *)

Definition set_file (l : list Z) (p : Z) (s : mkfs) : mkfs :=
  mkmkfs (im_open s) (im_nblocks s) l p (im_answers s) (im_bits s).
Definition set_disk (b : bool) (n : Z) (s : mkfs) : mkfs :=
  mkmkfs b n (im_file s) (im_pos s) (im_answers s) (im_bits s).
Definition set_bits (l : list Z) (s : mkfs) : mkfs :=
  mkmkfs (im_open s) (im_nblocks s) (im_file s) (im_pos s) (im_answers s) l.
Definition next_answer : M mkfs (option answer) := λ s,
  match im_answers s with
  | [] => Ok None s
  | a :: l => Ok (Some a) (mkmkfs (im_open s) (im_nblocks s) (im_file s) (im_pos s) l (im_bits s))
  end.
(** How many of [n] bytes; nothing for an error, with [errno] telling to try
    again or not. *)
Definition taken (n : Z) : M mkfs (bool + Z) :=
  let! a := next_answer in
  match a with
  | None => ret (inr n)
  | Some (A_take k) => ret (inr (Z.min (Z.max 0 k) n))
  | Some A_again => ret (inl true)
  | Some A_error => ret (inl false)
  end.
(** [d] stored at [p]; the file grows when it must. *)
Definition write_at (l : list Z) (p : Z) (d : list Z) : list Z :=
  splice (l ++ replicate (Z.to_nat (p + zlen d - zlen l)) 0) p d.
Definition write (l : list Z) : M mkfs (bool + Z) :=
  let! r := taken (zlen l) in
  match r with
  | inl b => ret (inl b)
  | inr k => modify (λ s, set_file (write_at (im_file s) (im_pos s) (ztake k l)) (im_pos s + k) s) ;;; ret (inr k)
  end.
(** [err] and [errx]: the program ends with status 1. *)
Definition errx {A} : M mkfs A := fail EIO.

Section mksfs.
Context (HOST : bool).

(** ** disk.c *)

(** The buffer of the header, ["buf[len] = 0"] and the end of the name
    included; what lies behind is not looked at. *)
Definition header_buf (l : list Z) : list Z :=
  zset (l ++ replicate (64 - length l) 0) (zlen HOSTSTRING) 0.
(** The [continue] in [do ... while (0)] leaves the loop, and [buf[-1]] is
    stored to. *)
Definition check_header : M mkfs unit :=
  let! f := gets im_file in
  let! r := taken (Z.min 63 (zlen f)) in
  match r with
  | inl _ => panic
  | inr len =>
      match strcmp (header_buf (ztake len f)) (HOSTSTRING ++ [0]) with
      | None => panic
      | Some c => if c =? 0 then ret tt else errx
      end
  end.
Definition opendisk : M mkfs unit :=
  let! s := get in
  kassert (negb (im_open s)) ;;;
  let! opened := taken 0 in
  match opened with inl _ => errx | inr _ => ret tt end ;;;
  let! statbuf := taken 0 in
  match statbuf with inl _ => errx | inr _ => ret tt end ;;;
  let n := u32 (zlen (im_file s) / BLOCKSIZE) in
  modify (set_disk true (if HOST then u32 (n - 1) else n)) ;;;
  if HOST then check_header else ret tt.
Definition diskblocksize : M mkfs Z := let! s := get in kassert (im_open s) ;;; ret BLOCKSIZE.
Definition diskblocks : M mkfs Z := let! s := get in kassert (im_open s) ;;; ret (im_nblocks s).

(** Every round uses up an answer or writes all the rest. *)
Fixpoint diskwrite_loop (fuel : nat) (cdata : list Z) (tot : Z) : M mkfs unit :=
  if tot <? BLOCKSIZE then
    match fuel with
    | O => hang
    | S fuel' =>
        let! len := write (ztake (BLOCKSIZE - tot) (zdrop tot cdata)) in
        match len with
        | inl true => diskwrite_loop fuel' cdata tot
        | inl false => errx
        | inr n => if n =? 0 then errx else diskwrite_loop fuel' cdata (tot + n)
        end
    end
  else ret tt.
Definition diskwrite (data : list Z) (block : Z) : M mkfs unit :=
  let! s := get in
  kassert (im_open s) ;;;
  let block := if HOST then u32 (block + 1) else block in
  modify (set_file (im_file s) (u32 (block * BLOCKSIZE))) ;;;
  diskwrite_loop (S (length (im_answers s))) data 0.
Definition closedisk : M mkfs unit :=
  let! s := get in
  kassert (im_open s) ;;;
  let! r := taken 0 in
  match r with inl _ => errx | inr _ => modify (λ s, set_disk false (im_nblocks s) s) end.

(** ** mksfs.c *)

Definition or_crash {A} (o : option A) : M mkfs A := match o with Some a => ret a | None => panic end.

Definition writesuper (volname : list Z) (nblocks : Z) : M mkfs unit :=
  let! n := or_crash (strlen volname) in
  if SFS_VOLNAME_SIZE <=? n then errx
  else
    let! name := or_crash (strcpy (replicate (Z.to_nat SFS_VOLNAME_SIZE) 0) volname) in
    diskwrite (enc_super (mksuper SFS_MAGIC nblocks name (replicate 118 0))) SFS_SB_LOCATION.

Definition root_inode : sfs_inode := mkinode 0 SFS_TYPE_DIR 1 (replicate 15 0) 0 (replicate 110 0).
Definition writerootdir : M mkfs unit := diskwrite (enc_inode root_inode) SFS_ROOT_LOCATION.

Definition doallocbit (bit : Z) : M mkfs unit :=
  let byte := bit / 8 in
  let mask := u8 (Z.shiftl 1 (bit mod 8)) in
  let! bits := gets im_bits in
  let! b := or_crash (zget bits byte) in
  kassert (Z.land b mask =? 0) ;;;
  modify (set_bits (zset bits byte (Z.lor b mask))).
Definition write_map_block (i : Z) : M mkfs unit :=
  let! bits := gets im_bits in
  diskwrite (ztake SFS_BLOCKSIZE (zdrop (i * SFS_BLOCKSIZE) bits)) (SFS_MAP_LOCATION + i).
Definition writebitmap (fsblocks : Z) : M mkfs unit :=
  let nbits := SFS_BITMAPSIZE fsblocks in
  let nblocks := SFS_BITBLOCKS fsblocks in
  if MAXBITBLOCKS <? nblocks then errx
  else
    doallocbit SFS_SB_LOCATION ;;;
    doallocbit SFS_ROOT_LOCATION ;;;
    for_range (Z.to_nat nblocks) 0 (λ i, doallocbit (SFS_MAP_LOCATION + i)) ;;;
    for_range (Z.to_nat (nbits - fsblocks)) fsblocks doallocbit ;;;
    for_range (Z.to_nat nblocks) 0 write_map_block.

(** The name without the colon at its end. *)
Definition volume_name (volname : list Z) : M mkfs (list Z) :=
  let! s := or_crash (strchr volname 58) in
  let! volname := match s with
                  | None => ret volname
                  | Some i =>
                      let! n := or_crash (strlen (zdrop i volname)) in
                      if negb (n =? 1) then errx else ret (zset volname i 0)
                  end in
  let! s := or_crash (strchr volname 47) in
  match s with None => ret volname | Some _ => errx end.
(** The assertions of [check] on the sizes hold of the layout in SfsDisk. *)
Definition main (argv : list (list Z)) : M mkfs Z :=
  match argv with
  | [_; _; volname] =>
      let! volname := volume_name volname in
      opendisk ;;;
      let! blocksize := diskblocksize in
      if negb (blocksize =? SFS_BLOCKSIZE) then errx
      else
        let! size := diskblocks in
        writesuper volname size ;;;
        writerootdir ;;;
        writebitmap size ;;;
        closedisk ;;;
        ret 0
  | _ => errx
  end.
End mksfs.

(** The program as it starts, with a file and a system. *)
Definition started (file : list Z) (answers : list answer) : mkfs :=
  mkmkfs false 0 file 0 answers (replicate (Z.to_nat (MAXBITBLOCKS * SFS_BLOCKSIZE)) 0).
