(* ===== verification/MkSfsThm.v ===== *)
(** * Making a volume: what the kernel mounts *)

From S2P Require Import Prelude KString Kmem KArray KBitmap CopyInOut Uio BlockDev Lhd Vnode.
From S2P Require Import SfsDisk SfsCore SfsSpec SfsMap SfsVnode SfsVnodeSpec SfsFs SfsFsSpec SfsFileThm SfsFsThm MkSfs.

(** ** The file *)

Lemma write_at_inside l p d : 0 ≤ p → p + zlen d ≤ zlen l → write_at l p d = splice l p d.
Proof. intros Hp Hl. unfold write_at. replace (Z.to_nat (p + zlen d - zlen l)) with O by lia. by rewrite app_nil_r. Qed.

(** The same program state but for the file, the position and the answers. *)
Definition same_prog (s s' : mkfs) : Prop :=
  im_open s' = im_open s ∧ im_nblocks s' = im_nblocks s ∧ im_bits s' = im_bits s ∧
  (im_answers s = [] → im_answers s' = []).
Lemma same_prog_trans s1 s2 s3 : same_prog s1 s2 → same_prog s2 s3 → same_prog s1 s3.
Proof. intros (? & ? & ? & ?) (? & ? & ? & ?). split_and!; [congruence..|auto]. Qed.
(** The program only ends early when the system did not do all it asked. *)
Definition gave_up (s : mkfs) (e : errno) (s' : mkfs) : Prop := e = EIO ∧ im_answers s ≠ [].
Lemma gave_up_back s s1 e s' : (im_answers s = [] → im_answers s1 = []) → gave_up s1 e s' → gave_up s e s'.
Proof. intros Hs [-> Ha]. split; [done|]. auto. Qed.
Lemma same_prog_gave_up s s1 e s' : same_prog s s1 → gave_up s1 e s' → gave_up s e s'.
Proof. intros (_ & _ & _ & ?). by apply gave_up_back. Qed.

Lemma next_answer_spec (Q : option answer → mkfs → Prop) E s :
  (∀ s', same_prog s s' → im_file s' = im_file s → im_pos s' = im_pos s → im_answers s = [] → im_answers s' = [] → Q None s') →
  (∀ a s', same_prog s s' → im_file s' = im_file s → im_pos s' = im_pos s → im_answers s = a :: im_answers s' → Q (Some a) s') →
  wp next_answer Q E s.
Proof. intros H1 H2. unfold wp, next_answer. destruct (im_answers s) eqn:Ha; [apply H1; done|apply H2; done || (split_and!; simpl; done || congruence)]. Qed.
Lemma taken_spec n (Q : bool + Z → mkfs → Prop) E s :
  0 ≤ n →
  (∀ (r : bool + Z) s', same_prog s s' → im_file s' = im_file s → im_pos s' = im_pos s →
     (im_answers s = [] ∧ im_answers s' = [] ∧ r = inr n ∨ length (im_answers s) = S (length (im_answers s'))) →
     im_answers s' = tail (im_answers s) →
     match r with inl b => head (im_answers s) = Some (if b then A_again else A_error) | inr k => 0 ≤ k ≤ n end → Q r s') →
  wp (taken n) Q E s.
Proof.
  intros Hn HQ. unfold taken. wp_bind. apply next_answer_spec.
  - intros s' ? ? ? Hs ?. apply wp_ret, HQ; done || (by left) || (by rewrite Hs) || lia.
  - intros a s' ? ? ? Ha. assert (length (im_answers s) = S (length (im_answers s'))) by by rewrite Ha.
    destruct a as [k| |]; apply wp_ret, HQ; done || (by right) || (by rewrite Ha) || lia.
Qed.

(** What is left to write, at the place it belongs. *)
Lemma diskwrite_loop_spec base data fuel tot s :
  zlen data = 512 → 0 ≤ tot ≤ 512 → 0 ≤ base → base + 512 ≤ zlen (im_file s) → im_pos s = base + tot →
  (length (im_answers s) < fuel)%nat →
  wp (diskwrite_loop fuel data tot)
     (λ _ s', same_prog s s' ∧ im_file s' = splice (im_file s) (base + tot) (zdrop tot data)) (gave_up s) s.
Proof.
  intros Hd. revert tot s. induction fuel as [|fuel IH]; intros tot s Ht Hb Hl Hp Hf; [lia|]. cbn [diskwrite_loop]. unfold BLOCKSIZE.
  destruct (Z.ltb_spec tot 512) as [Hlt|Hge].
  2: { apply wp_ret. split; [done|]. replace (zdrop tot data) with (@nil Z); [by rewrite splice_nil|].
       symmetry. apply zlen_0_nil. rewrite zlen_zdrop; lia. }
  assert (Hr : ztake (512 - tot) (zdrop tot data) = zdrop tot data) by (apply ztake_all; rewrite zlen_zdrop; lia).
  assert (Hrl : zlen (zdrop tot data) = 512 - tot) by (rewrite zlen_zdrop; lia).
  wp_bind. rewrite Hr. unfold write. wp_bind. apply taken_spec; [lia|]. intros r s1 Hsp Hfile Hpos Ha _ Hk.
  destruct r as [[|]|k].
  - destruct Ha as [(_ & _ & ?)|Ha]; [done|]. apply wp_ret. eapply wp_mono; [apply IH; rewrite ?Hfile; lia| |intros e s2; by apply same_prog_gave_up].
    intros [] s2 (Hsp2 & ->). rewrite Hfile. split; [by eapply same_prog_trans|done].
  - destruct Ha as [(_ & _ & ?)|Ha]; [done|]. apply wp_ret, wp_fail. split; [done|]. by intros Hn; rewrite Hn in Ha.
  - wp_bind. apply wp_modify, wp_ret. destruct (Z.eqb_spec k 0) as [->|].
    { apply wp_fail. split; [done|]. intros Hn. destruct Ha as [(_ & _ & [= ?])|Ha]; [lia|]. by rewrite Hn in Ha. }
    assert (Hkl : zlen (ztake k (zdrop tot data)) = k) by (rewrite zlen_ztake; lia).
    assert (Hw : write_at (im_file s1) (im_pos s1) (ztake k (zdrop tot data)) = splice (im_file s) (base + tot) (ztake k (zdrop tot data))).
    { rewrite Hfile, Hpos, Hp. apply write_at_inside; lia. }
    assert (Hwl : zlen (splice (im_file s) (base + tot) (ztake k (zdrop tot data))) = zlen (im_file s)) by (apply zlen_splice; lia).
    rewrite Hw. destruct (decide (tot + k = 512)) as [Hall|Hmore].
    + destruct fuel as [|fuel]; cbn [diskwrite_loop]; unfold BLOCKSIZE; destruct (Z.ltb_spec (tot + k) 512); try lia.
      all: apply wp_ret; split; [done|]; simpl; by rewrite ztake_all by lia.
    + destruct Ha as [(_ & _ & [= ->])|Ha]; [lia|]. eapply wp_mono; [apply IH; simpl; rewrite ?Hwl; lia| |intros e s2; by apply (same_prog_gave_up s s1)].
      intros [] s2 (Hsp2 & ->). split; [by eapply (same_prog_trans s s1)|].
      simpl. replace (base + (tot + k)) with (base + tot + zlen (ztake k (zdrop tot data))) by lia.
      rewrite splice_splice by (rewrite ?Hkl, ?zlen_zdrop; lia). f_equal.
      rewrite <- (ztake_zdrop k (zdrop tot data)) at 2. f_equal. by rewrite zdrop_zdrop by lia.
Qed.

(** ** The map *)

Definition bit_of (l : list Z) (i : Z) : bool := Z.testbit (default 0 (zget l (i / 8))) (i mod 8).
(** [bitbuf] with the bits that [P] gives. *)
Record bits_are (P : Z → bool) (s : mkfs) : Prop := {
  ba_len : zlen (im_bits s) = 16384;
  ba_bytes : bytes (im_bits s);
  ba_bits : ∀ i, 0 ≤ i < 131072 → bit_of (im_bits s) i = P i;
}.
Definition only_bits (s s' : mkfs) : Prop :=
  im_open s' = im_open s ∧ im_nblocks s' = im_nblocks s ∧ im_file s' = im_file s ∧ im_answers s' = im_answers s.
Lemma bits_ext P P' s : bits_are P s → (∀ i, 0 ≤ i < 131072 → P i = P' i) → bits_are P' s.
Proof. intros [] HP. split; [done|done|]. intros i Hi. rewrite <- HP by done. auto. Qed.

Lemma doallocbit_spec P b s :
  bits_are P s → 0 ≤ b < 131072 → P b = false →
  wp (doallocbit b) (λ _ s', bits_are (λ i, (i =? b) || P i) s' ∧ only_bits s s') (λ _ _, False) s.
Proof.
  intros [Hl Hb HP] Hr Hfree. unfold doallocbit. wp_bind. apply wp_gets.
  assert (Hix : 0 ≤ b / 8 < zlen (im_bits s)) by (Z.div_mod_to_equations; lia). destruct (zget_is_Some _ _ Hix) as [w Hw].
  assert (Hm : 0 ≤ b mod 8 < 8) by (apply Z.mod_pos_bound; lia).
  assert (Hwb : 0 ≤ w < 256) by (unfold zget in Hw; case_decide; [|done]; exact (proj1 (Forall_lookup _ _) Hb _ _ Hw)).
  wp_bind. rewrite Hw. apply wp_ret. wp_bind. pose proof (HP b Hr) as Hbit. unfold bit_of in Hbit. rewrite Hw, Hfree in Hbit. simpl in Hbit.
  apply wp_kassert; [by rewrite land_mask_zero, Hbit by done|]. apply wp_modify. split; [|done]. rewrite mask_pow2 by done.
  destruct (set_byte_bits (mkbitmap 0 131072 0 (im_bits s)) b (Z.lor w (2 ^ (b mod 8))) true) as (_ & _ & _ & Hset); [simpl; lia| |].
  { intros j. simpl. rewrite Hw. simpl. apply testbit_set. lia. }
  split; simpl; [by rewrite zlen_zset| |].
  - unfold zset. case_decide; [|done]. apply Forall_insert; [done|]. by apply lor_byte.
  - intros i Hi. specialize (Hset i ltac:(lia)). unfold bit_set in Hset. simpl in Hset. unfold bit_of. rewrite Hset.
    destruct (Z.eqb_spec i b); case_decide; try done. simpl. by apply HP.
Qed.
(** A run of bits. *)
Lemma allocbits_spec P n lo s f :
  bits_are P s → (∀ i, 0 ≤ i < Z.of_nat n → 0 ≤ f + (lo + i) < 131072 ∧ P (f + (lo + i)) = false) →
  wp (for_range n lo (λ i, doallocbit (f + i)))
     (λ _ s', bits_are (λ i, bool_decide (f + lo ≤ i < f + lo + Z.of_nat n) || P i) s' ∧ only_bits s s') (λ _ _, False) s.
Proof.
  intros Hs Hf. eapply wp_mono; [apply (wp_for_range (λ j s', bits_are (λ i, bool_decide (f + lo ≤ i < f + j) || P i) s' ∧ only_bits s s') (λ _ _, False))| |done].
  - split; [|done]. eapply bits_ext; [done|]. intros i Hi. by rewrite bool_decide_false by lia.
  - intros j s1 Hj [H1 Ho]. destruct (Hf (j - lo)) as [Hr Hp]; [lia|]. replace (f + (lo + (j - lo))) with (f + j) in * by lia.
    eapply wp_mono; [by apply (doallocbit_spec _ _ _ H1); [|rewrite bool_decide_false by lia]| |done].
    intros [] s2 [H2 Ho2]. split; [|destruct Ho as (? & ? & ? & ?), Ho2 as (? & ? & ? & ?); split_and!; congruence].
    eapply bits_ext; [done|]. intros i Hi. simpl. rewrite orb_assoc. f_equal. destruct (Z.eqb_spec i (f + j)); simpl.
    + by rewrite bool_decide_true by lia.
    + apply bool_decide_ext. lia.
  - intros [] s' [Hb Ho]. split; [|done]. eapply bits_ext; [done|]. intros i Hi. simpl. f_equal. apply bool_decide_ext. lia.
Qed.

Section image.
Context (HOST : bool).
Definition hdr : Z := if HOST then 1 else 0.

(** Block [b] of the disk in a file. *)
Definition block_of (l : list Z) (b : Z) : list Z := ztake 512 (zdrop (512 * (b + hdr)) l).
Lemma diskwrite_spec data b s :
  im_open s = true → zlen data = 512 → 0 ≤ b < 1000 → 512 * (b + hdr + 1) ≤ zlen (im_file s) →
  wp (diskwrite HOST data b)
     (λ _ s', same_prog s s' ∧ im_file s' = splice (im_file s) (512 * (b + hdr)) data) (gave_up s) s.
Proof.
  intros Ho Hd Hb Hl. unfold diskwrite, BLOCKSIZE. wp_bind. apply wp_get. wp_bind. apply wp_kassert; [done|]. wp_bind. apply wp_modify.
  assert (Hpos : u32 ((if HOST then u32 (b + 1) else b) * 512) = 512 * (b + hdr)).
  { unfold hdr. destruct HOST; rewrite ?(u32_small (b + 1)), u32_small by lia; lia. }
  rewrite Hpos. assert (0 ≤ hdr ≤ 1) by (unfold hdr; destruct HOST; lia).
  eapply wp_mono; [apply (diskwrite_loop_spec (512 * (b + hdr))); simpl; lia|..]; simpl; [|done].
  intros [] s' (Hsp & ->). split; [done|]. by rewrite zdrop_0, Z.add_0_r.
Qed.
Lemma block_of_splice l b b' d :
  0 ≤ b → 0 ≤ b' → zlen d = 512 → 512 * (b + hdr + 1) ≤ zlen l →
  block_of (splice l (512 * (b + hdr)) d) b' = if decide (b' = b) then d else block_of l b'.
Proof.
  intros Hb Hb' Hd Hl. assert (0 ≤ hdr ≤ 1) by (unfold hdr; destruct HOST; lia). unfold block_of. apply zlist_eq. intros i Hi. destruct (decide (i < 512)).
  - rewrite zget_ztake, zget_zdrop by lia. case_decide as Hc.
    + subst b'. rewrite zget_splice_in by lia. f_equal. lia.
    + rewrite zget_splice_out by lia. by rewrite zget_ztake, zget_zdrop by lia.
  - assert (Hn : ∀ x : list Z, zlen x ≤ 512 → zget x i = None).
    { intros x Hx. destruct (zget x i) eqn:He; [|done]. apply zget_Some_range in He. lia. }
    rewrite !Hn; [done|..]; try case_decide; rewrite ?zlen_ztake_min by lia; lia.
Qed.

(** The map of an empty volume of [n] blocks. *)
Definition empty_map (n i : Z) : bool :=
  bool_decide (0 ≤ i < SFS_MAP_LOCATION + SFS_BITBLOCKS n) || bool_decide (n ≤ i < SFS_BITMAPSIZE n).
Definition fits (n : Z) : Prop := SFS_MAP_LOCATION + SFS_BITBLOCKS n ≤ n ≤ 131072.
Lemma fits_sizes n : fits n → SFS_BITMAPSIZE n = 4096 * SFS_BITBLOCKS n ∧ n ≤ SFS_BITMAPSIZE n ∧ 0 < SFS_BITBLOCKS n ≤ 32 ∧ 3 ≤ n.
Proof.
  unfold fits, SFS_MAP_LOCATION. intros Hn. assert (Hb : 0 ≤ SFS_BITBLOCKS n).
  { unfold SFS_BITBLOCKS, SFS_BITMAPSIZE, SFS_ROUNDUP, u32. apply Z.div_pos; [|done]. by apply Z.mod_pos_bound. }
  destruct (bitmapsize_small n) as (H1 & H2 & H3); [lia|]. split; [done|]. split; [done|].
  enough (SFS_BITBLOCKS n < 33) by lia. unfold SFS_BITBLOCKS, SFS_BITMAPSIZE, SFS_ROUNDUP. change SFS_BLOCKBITS with 4096.
  rewrite (u32_small (n + 4096)), (u32_small (n + 4096 - 1)), u32_small by (Z.div_mod_to_equations; lia). rewrite Z.div_mul by lia. Z.div_mod_to_equations. lia.
Qed.

(** The blocks of the map, the first [j] of them written. *)
Definition map_done (s s' : mkfs) (j : Z) : Prop :=
  same_prog s s' ∧ zlen (im_file s') = zlen (im_file s) ∧
  ∀ b, 0 ≤ b → block_of (im_file s') b =
    if decide (2 ≤ b < 2 + j) then ztake 512 (zdrop ((b - 2) * 512) (im_bits s)) else block_of (im_file s) b.
Lemma write_map_spec n s :
  im_open s = true → zlen (im_bits s) = 16384 → 0 ≤ n ≤ 32 → 512 * (2 + n + hdr) ≤ zlen (im_file s) →
  wp (for_range (Z.to_nat n) 0 (write_map_block HOST)) (λ _ s', map_done s s' n) (gave_up s) s.
Proof.
  intros Ho Hl Hn Hf. assert (0 ≤ hdr ≤ 1) by (unfold hdr; destruct HOST; lia).
  eapply wp_mono; [apply (wp_for_range (λ j s', map_done s s' j) (gave_up s))| |done].
  - split; [done|]. split; [done|]. intros b Hb. by rewrite decide_False by lia.
  - intros j s1 Hj (Hsp & Hlen & Hbl). pose proof Hsp as (Hop & _ & Hbits & _). unfold write_map_block, SFS_BLOCKSIZE, SFS_MAP_LOCATION. wp_bind. apply wp_gets.
    assert (Hd : zlen (ztake 512 (zdrop (j * 512) (im_bits s1))) = 512) by (rewrite zlen_ztake; rewrite ?zlen_zdrop; rewrite ?Hbits; lia).
    eapply wp_mono; [apply diskwrite_spec; [congruence|done|lia|lia]| |intros e s2; by apply same_prog_gave_up]. intros [] s2 [Hsp2 Hf2]. split; [by eapply same_prog_trans|].
    rewrite Hf2. split; [rewrite zlen_splice; lia|]. intros b Hb. rewrite block_of_splice by lia. rewrite Hbl, Hbits by done.
    destruct (decide (b = 2 + j)) as [->|]; [|repeat case_decide; done || lia]. rewrite decide_True by lia. do 2 f_equal. lia.
  - intros [] s' Hd. by rewrite Z.add_0_l, Z2Nat.id in Hd by lia.
Qed.

Lemma writebitmap_spec n s :
  im_open s = true → bits_are (λ _, false) s → fits n → 512 * (n + hdr) ≤ zlen (im_file s) →
  wp (writebitmap HOST n)
     (λ _ s', ∃ s1, only_bits s s1 ∧ bits_are (empty_map n) s1 ∧ map_done s1 s' (SFS_BITBLOCKS n)) (gave_up s) s.
Proof.
  intros Ho Hb Hn Hf. destruct (fits_sizes n Hn) as (Hsz & Hle & Hbb & H3). pose proof Hn as [Hlo Hhi]. unfold SFS_MAP_LOCATION in *.
  unfold writebitmap, MAXBITBLOCKS. destruct (Z.ltb_spec 32 (SFS_BITBLOCKS n)); [lia|].
  wp_bind. eapply wp_mono; [by apply (doallocbit_spec _ 0 _ Hb)| |done]. intros [] s1 [Hb1 (Ho1 & Hn1 & Hf1 & Ha1)].
  wp_bind. eapply wp_mono; [by apply (doallocbit_spec _ 1 _ Hb1)| |done]. intros [] s2 [Hb2 (Ho2 & Hn2 & Hf2 & Ha2)].
  wp_bind. eapply wp_mono; [apply (allocbits_spec _ _ _ _ _ Hb2)| |done].
  { intros i Hi. unfold SFS_MAP_LOCATION. split; [lia|]. destruct (Z.eqb_spec (2 + (0 + i)) 1); [lia|]. destruct (Z.eqb_spec (2 + (0 + i)) 0); [lia|]. done. }
  intros [] s3 [Hb3 (Ho3 & Hn3 & Hf3 & Ha3)]. wp_bind. eapply wp_mono; [apply (allocbits_spec _ _ _ _ 0 Hb3)| |done].
  { intros i Hi. unfold SFS_MAP_LOCATION. split; [lia|]. rewrite bool_decide_false by lia.
    destruct (Z.eqb_spec (0 + (n + i)) 1); [lia|]. destruct (Z.eqb_spec (0 + (n + i)) 0); [lia|]. done. }
  intros [] s4 [Hb4 (Ho4 & Hn4 & Hf4 & Ha4)]. assert (Hsame : only_bits s s4) by (split_and!; congruence). destruct Hsame as (Hs1 & Hs2 & Hs3 & Hs4).
  eapply wp_mono; [apply write_map_spec; [congruence|apply Hb4|lia|rewrite Hs3; lia]| |intros e s5; apply gave_up_back; congruence].
  intros [] s5 Hd. exists s4. split; [done|]. split; [|done]. eapply bits_ext; [done|]. intros i Hi. simpl. unfold empty_map, SFS_MAP_LOCATION.
  rewrite orb_comm, orb_false_r. f_equal; [|apply bool_decide_ext; lia].
  destruct (Z.eqb_spec i 1), (Z.eqb_spec i 0); subst; rewrite ?orb_true_r, ?orb_false_r; try (symmetry; apply bool_decide_true; lia).
  apply bool_decide_ext. lia.
Qed.

(** ** The program *)


(** [vol] is the argument for the volume [name]: the name, or the name and a
    colon. *)
Definition name_char (c : Z) : Prop := 0 < c < 256 ∧ c ≠ 58 ∧ c ≠ 47.
Definition names (vol name : list Z) : Prop :=
  Forall name_char name ∧ ∃ r, vol = name ++ 0 :: r ∨ vol = name ++ 58 :: 0 :: r.
Lemma volume_name_spec vol name s : names vol name → ∃ v, volume_name vol s = Ok v s ∧ cstring v name.
Proof.
  intros (Hc & r & Hv).
  assert (H58 : Forall (λ c, 0 < c < 256 ∧ c ≠ 58) name) by (eapply Forall_impl; [exact Hc|]; intros c (? & ? & ?); done).
  assert (H47 : Forall (λ c, 0 < c < 256 ∧ c ≠ 47) name) by (eapply Forall_impl; [exact Hc|]; intros c (? & ? & ?); done).
  assert (Hch : Forall (λ c, 0 < c < 256) name) by (eapply Forall_impl; [exact Hc|]; intros c (? & ? & ?); done).
  assert (Hlast : ∀ r', volume_name (name ++ 0 :: r') s = Ok (name ++ 0 :: r') s).
  { intros r'. unfold volume_name, bind, or_crash. rewrite strchr_absent by done. unfold ret. cbn beta iota. by rewrite strchr_absent by done. }
  destruct Hv as [-> | ->]; [exists (name ++ 0 :: r); split; [apply Hlast|by exists r]|].
  exists (name ++ 0 :: 0 :: r). split; [|by exists (0 :: r)]. unfold volume_name, bind, or_crash.
  rewrite strchr_first by done. unfold ret. cbn beta iota.
  assert (Hd : zdrop (zlen name) (name ++ 58 :: 0 :: r) = [58; 0] ++ r) by (unfold zdrop, zlen; by rewrite Nat2Z.id, drop_app_length).
  assert (Hz : zset (name ++ 58 :: 0 :: r) (zlen name) 0 = name ++ 0 :: 0 :: r).
  { unfold zset, zlen. rewrite decide_True by lia. rewrite Nat2Z.id. by rewrite insert_app_r_alt, Nat.sub_diag by lia. }
  rewrite Hd, (strlen_spec _ [58]) by (exists r; repeat constructor).
  cbn beta iota. change (zlen [58] =? 1) with true. cbn [negb]. rewrite Hz. by rewrite strchr_absent by done.
Qed.

Definition volname_field (name : list Z) : list Z := name ++ replicate (32 - length name) 0.
Definition new_super (name : list Z) (n : Z) : sfs_super := mksuper SFS_MAGIC n (volname_field name) (replicate 118 0).
Lemma new_super_wf name n : Forall name_char name → zlen name < 32 → fits n → super_wf (new_super name n).
Proof.
  intros Hc Hl Hf. pose proof (fits_sizes n Hf) as (_ & _ & _ & H3). destruct Hf as [_ Hn]. unfold zlen in Hl. split; cbn [new_super sp_magic sp_nblocks sp_volname sp_reserved]; [done|unfold word32; lia| |split; [done|by apply Forall_replicate]].
  unfold volname_field. split; [rewrite length_app, length_replicate; lia|]. apply bytes_app. split; [|by apply Forall_replicate].
  eapply Forall_impl; [done|]. intros c (? & ? & ?). lia.
Qed.
Lemma writesuper_spec vol name n s :
  cstring vol name → Forall name_char name → zlen name < 32 → fits n → im_open s = true → 512 * (n + hdr) ≤ zlen (im_file s) →
  wp (writesuper HOST vol n)
     (λ _ s', same_prog s s' ∧ im_file s' = splice (im_file s) (512 * hdr) (enc_super (new_super name n))) (gave_up s) s.
Proof.
  intros Hv Hc Hl Hn Ho Hf. pose proof (fits_sizes n Hn) as (_ & _ & _ & H3). unfold writesuper. wp_bind. rewrite (strlen_spec vol name Hv). apply wp_ret.
  destruct (Z.leb_spec SFS_VOLNAME_SIZE (zlen name)) as [Hle|_]; [unfold SFS_VOLNAME_SIZE in Hle; lia|]. wp_bind.
  rewrite (strcpy_spec _ vol name Hv) by done. apply wp_ret.
  replace (name ++ 0 :: zdrop (zlen name + 1) (replicate (Z.to_nat SFS_VOLNAME_SIZE) 0)) with (volname_field name).
  2: { unfold volname_field, zdrop, SFS_VOLNAME_SIZE, zlen in *. f_equal. rewrite drop_replicate.
       replace (32 - length name)%nat with (S (Z.to_nat 32 - Z.to_nat (Z.of_nat (length name) + 1))) by lia. done. }
  destruct (enc_super_block _ (new_super_wf name n Hc Hl Hn)) as [Hlen _].
  eapply wp_mono; [apply diskwrite_spec; [done|exact Hlen|done|unfold SFS_SB_LOCATION; lia]| |done]. intros [] s' [Hsp Hfile]. by split.
Qed.

(** The header is there, and reading it is not interrupted. *)
Definition header_ok (file : list Z) (answers : list answer) : Prop :=
  ztake (zlen HOSTSTRING) file = HOSTSTRING ∧ match answers with _ :: _ :: (A_again | A_error) :: _ => False | _ => True end.
Lemma started_bits file answers : bits_are (λ _, false) (started file answers).
Proof.
  split; cbn [started im_bits]; [by rewrite zlen_replicate|by apply Forall_replicate|]. intros i Hi. unfold bit_of. cbn [started im_bits].
  destruct (zget_zeros (Z.to_nat (MAXBITBLOCKS * SFS_BLOCKSIZE)) (i / 8)) as [-> | ->]; apply Z.bits_0.
Qed.

Lemma strcmp_total a b : 0 ∈ b → (length b ≤ length a)%nat → is_Some (strcmp a b).
Proof.
  revert a. induction b as [|y b IH]; intros a H0 Hl; [by apply elem_of_nil in H0|]. destruct a as [|x a]; simpl in Hl; [lia|]. cbn [strcmp].
  destruct (negb (schar x =? 0) && (schar x =? schar y)) eqn:Hc; [|repeat case_match; eauto].
  apply IH; [|lia]. apply elem_of_cons in H0 as [<-|]; [|done]. change (schar 0) with 0 in Hc. lia.
Qed.
Lemma header_buf_len l : 64 ≤ zlen (header_buf l).
Proof. unfold header_buf. rewrite zlen_zset, zlen_app, zlen_replicate. unfold zlen. lia. Qed.
Lemma header_match l : ztake 21 l = HOSTSTRING → cstring (header_buf l) HOSTSTRING.
Proof.
  intros Hl. assert (Hc : Forall (λ c, 0 < c < 256) HOSTSTRING) by (unfold HOSTSTRING; repeat constructor).
  rewrite <- (ztake_zdrop 21 l), Hl. unfold header_buf.
  exists (tail (zdrop 21 l ++ replicate (64 - length (HOSTSTRING ++ zdrop 21 l)) 0)). split; [|done].
  rewrite <- app_assoc. set (r := zdrop 21 l ++ _). unfold zset. rewrite decide_True by done. 
  change (Z.to_nat (zlen HOSTSTRING)) with (length HOSTSTRING). rewrite insert_app_r_alt, Nat.sub_diag by lia. f_equal.
  destruct r as [|x r'] eqn:Hr; [|done]. apply (f_equal length) in Hr. unfold r in Hr. rewrite !length_app, length_replicate in Hr. simpl in Hr. lia.
Qed.
Lemma check_header_spec s :
  ztake 21 (im_file s) = HOSTSTRING → head (im_answers s) ≠ Some A_again → head (im_answers s) ≠ Some A_error →
  wp check_header (λ _ s', same_prog s s' ∧ im_file s' = im_file s) (gave_up s) s.
Proof.
  intros Hh H1 H2. pose proof (zlen_nonneg (im_file s)). unfold check_header. wp_bind. apply wp_gets. wp_bind. apply taken_spec; [lia|].
  intros [b|len] s1 Hsp Hf Hp Ha Htl Hr; [by destruct b|].
  destruct (strcmp_total (header_buf (ztake len (im_file s))) (HOSTSTRING ++ [0])) as [c Hc].
  { apply elem_of_app. right. left. }
  { change (length (HOSTSTRING ++ [0])) with 22%nat. pose proof (header_buf_len (ztake len (im_file s))). unfold zlen in *. lia. }
  rewrite Hc. destruct (Z.eqb_spec c 0) as [|Hne]; [by apply wp_ret|]. apply wp_fail. split; [done|]. intros Hn.
  destruct Ha as [(_ & _ & [= ->])|Ha]; [|by rewrite Hn in Ha].
  destruct (strcmp_spec (header_buf (ztake (Z.min 63 (zlen (im_file s))) (im_file s))) (HOSTSTRING ++ [0]) HOSTSTRING HOSTSTRING) as (c' & Hc' & Heq).
  - apply header_match. rewrite <- Hh. unfold ztake. rewrite take_take. f_equal. apply (f_equal zlen) in Hh. change (zlen HOSTSTRING) with 21 in Hh.
    rewrite zlen_ztake_min in Hh by lia. lia.
  - exists []. split; [done|]. unfold HOSTSTRING. repeat constructor.
  - rewrite Hc in Hc'. injection Hc' as <-. by destruct Hne; apply Heq.
Qed.

Lemma opendisk_spec file answers n :
  fits n → zlen file / 512 = n + hdr → (HOST = true → header_ok file answers) →
  wp (opendisk HOST)
     (λ _ s', im_open s' = true ∧ im_nblocks s' = n ∧ im_file s' = file ∧ bits_are (λ _, false) s' ∧ (answers = [] → im_answers s' = []))
     (gave_up (started file answers)) (started file answers).
Proof.
  intros Hn Hl Hh. pose proof (fits_sizes n Hn) as (_ & _ & _ & H3). destruct Hn as [_ Hn]. set (s := started file answers). unfold opendisk. wp_bind. apply wp_get. wp_bind. apply wp_kassert; [done|].
  assert (Hfail : ∀ (a : answer) l s', head l = Some a → (answers = [] → l = []) → gave_up s EIO s').
  { intros a l s' Hd Hm. split; [done|]. intros Ha. by rewrite (Hm Ha) in Hd. }
  wp_bind. apply taken_spec; [done|]. intros r1 s1 (Ho1 & Hn1 & Hb1 & Hm1) Hf1 Hp1 _ Ht1 Hr1. wp_bind. destruct r1 as [b|]; [apply wp_fail; eapply Hfail; [exact Hr1|done]|]. apply wp_ret.
  wp_bind. apply taken_spec; [done|]. intros r2 s2 (Ho2 & Hn2 & Hb2 & Hm2) Hf2 Hp2 _ Ht2 Hr2. wp_bind. destruct r2 as [b|]; [apply wp_fail; eapply Hfail; [exact Hr2|done]|]. apply wp_ret.
  wp_bind. apply wp_modify. change (im_file s) with file.
  assert (Hnb : (if HOST then u32 (u32 (zlen file / BLOCKSIZE) - 1) else u32 (zlen file / BLOCKSIZE)) = n).
  { unfold BLOCKSIZE. rewrite Hl. unfold hdr. destruct HOST; rewrite (u32_small (n + _)) by lia; rewrite ?u32_small by lia; lia. }
  rewrite Hnb. set (s3 := set_disk true n s2).
  assert (Hbits : bits_are (λ _, false) s3).
  { destruct (started_bits file answers) as [? ? ?]. assert (im_bits s3 = im_bits (started file answers)) as He.
    { change (im_bits s3) with (im_bits s2). rewrite Hb2. exact Hb1. }
    split; rewrite He; assumption. }
  assert (Hfile : im_file s3 = file) by (simpl; by rewrite Hf2, Hf1).
  destruct HOST; [|by apply wp_ret; split_and!; auto].
  destruct (Hh eq_refl) as [Hhd Ha]. assert (Htl : im_answers s3 = tail (tail answers)) by (simpl; by rewrite Ht2, Ht1).
  eapply wp_mono; [apply check_header_spec; rewrite ?Hfile, ?Htl; [exact Hhd|by destruct answers as [|? [|? [|[] ?]]]..]| |].
  - intros [] s4 [(Ho4 & Hn4 & Hb4 & Hm4) Hf4]. split_and!; [by rewrite Ho4|by rewrite Hn4|by rewrite Hf4| |auto].
    destruct Hbits. by split; rewrite Hb4.
  - intros e s4 [-> Hne]. split; [done|]. intros Hz. apply Hne. rewrite Htl. simpl in Hz. by rewrite Hz.
Qed.

(** What the program leaves in the file. *)
Record volume_image (n : Z) (name file l : list Z) : Prop := {
  vi_super : block_of l SFS_SB_LOCATION = enc_super (new_super name n);
  vi_root : block_of l SFS_ROOT_LOCATION = enc_inode root_inode;
  vi_map : ∃ bits, zlen bits = 16384 ∧ (∀ i, 0 ≤ i < 131072 → bit_of bits i = empty_map n i) ∧
    ∀ b, 0 ≤ b < SFS_BITBLOCKS n → block_of l (SFS_MAP_LOCATION + b) = ztake 512 (zdrop (b * 512) bits);
  vi_rest : ∀ b, SFS_MAP_LOCATION + SFS_BITBLOCKS n ≤ b → block_of l b = block_of file b;
}.
Lemma root_inode_wf : inode_wf root_inode.
Proof. split; try done; (split; [done|]); by apply Forall_replicate. Qed.

Lemma main_spec prog path vol name file answers n :
  names vol name → zlen name < 32 → fits n → zlen file / 512 = n + hdr → (HOST = true → header_ok file answers) →
  wp (main HOST [prog; path; vol]) (λ r s, r = 0 ∧ volume_image n name file (im_file s))
     (gave_up (started file answers)) (started file answers).
Proof.
  intros Hv Hnl Hn Hl Hh. pose proof Hv as [Hc _]. destruct (volume_name_spec vol name (started file answers) Hv) as (v & Hvn & Hcs).
  pose proof (fits_sizes n Hn) as (_ & _ & Hbb & H3). assert (Hhdr : 0 ≤ hdr ≤ 1) by (unfold hdr; destruct HOST; lia).
  assert (Hroom : 512 * (n + hdr) ≤ zlen file) by (rewrite <- Hl; Z.div_mod_to_equations; lia). pose proof Hn as [Hlo Hhi]. unfold SFS_MAP_LOCATION in Hlo.
  unfold main. wp_bind. unfold wp. rewrite Hvn. wp_bind. eapply wp_mono; [by apply opendisk_spec| |done]. intros [] s1 (Ho1 & Hn1 & Hf1 & Hb1 & Ha1).
  wp_bind. unfold diskblocksize. wp_bind. apply wp_get. wp_bind. apply wp_kassert; [done|]. apply wp_ret. change (negb (BLOCKSIZE =? SFS_BLOCKSIZE)) with false. cbv iota.
  wp_bind. unfold diskblocks. wp_bind. apply wp_get. wp_bind. apply wp_kassert; [done|]. apply wp_ret. rewrite Hn1.
  set (s := started file answers). assert (Hback : ∀ s2 e s', (im_answers s1 = [] → im_answers s2 = []) → gave_up s2 e s' → gave_up s e s').
  { intros s2 e s' H2. apply gave_up_back. auto. }
  wp_bind. eapply wp_mono; [apply (writesuper_spec v name n s1); [done..|by rewrite Hf1]| |intros e s'; by apply Hback]. intros [] s2 [(Ho2 & Hn2 & Hb2 & Ha2) Hf2].
  destruct (enc_super_block _ (new_super_wf name n Hc Hnl Hn)) as [Hsl _]. destruct (enc_inode_block _ root_inode_wf) as [Hrl _]. unfold SECTSIZE in Hsl, Hrl.
  assert (Hl2 : zlen (im_file s2) = zlen file) by (rewrite Hf2, zlen_splice; rewrite ?Hf1; lia).
  wp_bind. unfold writerootdir, SFS_ROOT_LOCATION. eapply wp_mono; [apply (diskwrite_spec _ 1 s2); [congruence|exact Hrl|lia|lia]| |intros e s'; apply Hback; done].
  intros [] s3 [(Ho3 & Hn3 & Hb3 & Ha3) Hf3]. assert (Hl3 : zlen (im_file s3) = zlen file) by (rewrite Hf3, zlen_splice; lia).
  wp_bind. eapply wp_mono; [apply (writebitmap_spec n s3); [congruence| |done|lia]| |intros e s'; apply Hback; auto].
  { destruct Hb1. by split; rewrite Hb3, Hb2. }
  intros [] s5 (s4 & (Ho4 & Hn4 & Hf4 & Ha4) & Hb4 & ((Ho5 & _ & _ & Ha5) & Hl5 & Hbl)).
  wp_bind. unfold closedisk. wp_bind. apply wp_get. wp_bind. apply wp_kassert; [congruence|]. wp_bind. apply taken_spec; [done|].
  intros r s6 (_ & _ & _ & _) Hf6 _ _ _ Hr. destruct r as [b|].
  { apply wp_fail. apply (Hback s5 EIO s6); [intros H1; apply Ha5; rewrite Ha4; auto|]. split; [done|]. intros Hz. by rewrite Hz in Hr. }
  apply wp_modify, wp_ret. split; [done|]. simpl. rewrite Hf6. clear Hback.
  assert (Hblk : ∀ b, 0 ≤ b → block_of (im_file s4) b = if decide (b = 1) then enc_inode root_inode else if decide (b = 0) then enc_super (new_super name n) else block_of file b).
  { intros b Hb. rewrite Hf4, Hf3, block_of_splice by lia. case_decide; [done|]. rewrite Hf2, Hf1.
    replace (512 * hdr) with (512 * (0 + hdr)) by lia. by rewrite block_of_splice by lia. }
  split; unfold SFS_SB_LOCATION, SFS_ROOT_LOCATION, SFS_MAP_LOCATION in *.
  - rewrite Hbl, decide_False, Hblk by lia. done.
  - rewrite Hbl, decide_False, Hblk by lia. done.
  - destruct Hb4. exists (im_bits s4). split; [done|]. split; [done|]. intros b Hb. rewrite Hbl, decide_True by lia. do 2 f_equal. lia.
  - intros b Hb. rewrite Hbl, decide_False, Hblk by lia. by rewrite !decide_False by lia.
Qed.
End image.

(** ** Mounting it *)

Section mount.
Context {D H : Type} `{!BlockDev D, !BlockDevOk D, !Kmem H, !KmemOk H}.
Notation W := (world D H).
Implicit Types (w : W).

(** The disk of [w] has the blocks of the file [l]. *)
Definition disk_has (HOST : bool) (l : list Z) (n : Z) w : Prop :=
  dinv (w_dev w) ∧ d_blocks (w_dev w) = n ∧ ∀ b, 0 ≤ b < n → sec w b = block_of HOST l b.

Lemma image_mountable HOST n name file l w :
  fits n → Forall name_char name → zlen name < 32 → volume_image HOST n name file l → disk_has HOST l n w → kinv (heap w) →
  mountable w ∧ dec_super (sec w SFS_SB_LOCATION) = new_super name n.
Proof.
  intros Hn Hc Hl [Hs _ _ _] (Hd & Hb & Hsec) Hk. pose proof (fits_sizes n Hn) as (_ & _ & _ & H3). pose proof Hn as [Hlo Hhi].
  assert (He : dec_super (sec w SFS_SB_LOCATION) = new_super name n).
  { rewrite Hsec by (unfold SFS_SB_LOCATION; lia). rewrite Hs. by apply dec_enc_super, new_super_wf. }
  split; [|done]. split_and!; [done|lia|done|]. rewrite He. cbn [new_super sp_nblocks]. rewrite Hb. intros _. lia.
Qed.

(** The map in memory after the mount. *)
Lemma image_map HOST n name file l w w' :
  fits n → volume_image HOST n name file l → disk_has HOST l n w →
  mounted (klive (heap w)) (new_super name n) w w' →
  ∀ i, 0 ≤ i < SFS_BITMAPSIZE n → bit_set (sfs_freemap (w_fs w')) i = empty_map n i.
Proof.
  intros Hn [_ _ (bits & Hbl & Hbits & Hmap) _] (_ & _ & Hsec) [((_ & _ & Hse) & _) _ _ Hsb _ _ _ _ [Hil Him]] i Hi.
  pose proof (fits_sizes n Hn) as (Hsz & Hle & Hbb & H3). pose proof Hn as [Hlo Hhi]. unfold SFS_MAP_LOCATION in *.
  assert (Hnb : nblk w' = n) by (unfold nblk; by rewrite Hsb). unfold mapblocks in Hil. rewrite Hnb in Hil.
  rewrite <- Hbits by lia. unfold bit_set, bit_of. f_equal. f_equal.
  assert (0 ≤ i / 8 < 512 * SFS_BITBLOCKS n) by (Z.div_mod_to_equations; lia). rewrite Him by lia. unfold map_byte, SFS_MAP_LOCATION.
  assert (0 ≤ i / 8 / 512 < SFS_BITBLOCKS n) by (Z.div_mod_to_equations; lia). assert (0 ≤ (i / 8) mod 512 < 512) by (apply Z.mod_pos_bound; lia).
  unfold sec. rewrite Hse. fold (sec w (2 + i / 8 / 512)). rewrite Hsec, Hmap by lia. rewrite zget_ztake, zget_zdrop by lia. f_equal. Z.div_mod_to_equations. lia.
Qed.

Lemma image_volume HOST n name file l w w' :
  fits n → Forall name_char name → zlen name < 32 → volume_image HOST n name file l → disk_has HOST l n w →
  mounted (klive (heap w)) (new_super name n) w w' →
  volume_ok w' [] ∧ sfs_sb (w_fs w') = new_super name n.
Proof.
  intros Hn Hc Hl Hi Hd Hm. pose proof (image_map _ _ _ _ _ _ _ Hn Hi Hd Hm) as Hbit. pose proof (new_super_wf name n Hc Hl Hn) as Hwf.
  pose proof Hi as [Hs _ _ _]. pose proof Hd as (Hdi & Hdb & Hsec).
  pose proof Hm as [((Hd2 & Hb2 & Hse) & _) [(_ & Harr & _) _ _ _ _] _ Hsb [Hc1 Hc2] Htb Hnb Hbwf Him].
  pose proof (fits_sizes n Hn) as (Hsz & Hle & Hbb & H3). pose proof Hn as [Hlo Hhi].
  assert (Hterm : terminate_volname (new_super name n) = new_super name n).
  { unfold terminate_volname, new_super. cbn [sp_magic sp_nblocks sp_volname sp_reserved]. f_equal. unfold volname_field, SFS_VOLNAME_SIZE, zlen in *.
    apply zset_id. rewrite zget_app_r by (unfold zlen; lia). unfold zget, zlen. rewrite decide_True by lia. apply lookup_replicate. lia. }
  rewrite Hterm in Hsb. split; [|done]. assert (Hnn : nblk w' = n) by (unfold nblk; by rewrite Hsb). change (sp_nblocks (new_super name n)) with n in Hnb.
  assert (Hblen : zlen (b_v (sfs_freemap (w_fs w'))) * 8 = SFS_BITMAPSIZE n) by (destruct Hbwf as [_ -> _]; rewrite Hnb; unfold DIVROUNDUP; Z.div_mod_to_equations; lia).
  assert (Hused : ∀ b, n ≤ b < SFS_BITMAPSIZE n → used w' b).
  { intros b Hb. split; [lia|]. rewrite Hbit by lia. unfold empty_map. rewrite (bool_decide_true (n ≤ _ < _)) by lia. apply orb_true_r. }
  split; rewrite ?Hsb, ?Hnn; try done.
  - split; rewrite ?Hnn, ?Hnb; try done; [by apply Hd2|lia|lia| |].
    + intros b Hb. rewrite Hnb in Hb. lia.
    + split; [done|]. rewrite Hbit by lia. unfold empty_map. rewrite bool_decide_true; [done|unfold SFS_MAP_LOCATION; lia].
  - split; [done|by rewrite Htb| |]; intros ? ?; set_solver.
  - unfold mapblocks. by rewrite Hnn.
  - intros p sv Hp. set_solver.
  - intros _. unfold sec. rewrite Hse. fold (sec w SFS_SB_LOCATION). rewrite Hsec by (unfold SFS_SB_LOCATION; lia). by rewrite Hs, dec_enc_super.
Qed.

Lemma root_empty w : fs_ok w → file_ok w root_inode.
Proof.
  intros Hw. assert (Ho : owned w root_inode = []) by reflexivity.
  split; [apply root_inode_wf|rewrite Ho; intros b Hb; by apply elem_of_nil in Hb|rewrite Ho; constructor].
Qed.

(** C25 The program that makes volumes writes what the kernel mounts: on a
    disk of three blocks or more it ends with status 0, unless a call of the
    system failed or did not do all it was asked, and a kernel that mounts the disk then has a consistent volume of that
    size and name, in which exactly the superblock, the map and the root
    directory are in use, and the root directory is empty; the mount can
    only fail for lack of memory or an I/O error. *)
Theorem mksfs_mounts HOST prog path vol name file answers n :
  names vol name → zlen name < 32 → fits n → zlen file / 512 = n + hdr HOST → (HOST = true → header_ok file answers) →
  wp (main HOST [prog; path; vol])
     (λ r s, r = 0 ∧ ∀ w, disk_has HOST (im_file s) n w → kinv (heap w) →
        wp sfs_domount
          (λ _ w', volume_ok w' [] ∧ sp_volname (sfs_sb (w_fs w')) = volname_field name ∧ nblk w' = n ∧
             (∀ b, 0 ≤ b < n → used w' b ↔ b < SFS_MAP_LOCATION + SFS_BITBLOCKS n) ∧
             dec_inode (sec w' SFS_ROOT_LOCATION) = root_inode ∧ file_ok w' root_inode)
          (λ e _, e = ENOMEM ∨ e = EIO) w)
     (gave_up (started file answers)) (started file answers).
Proof.
  intros Hv Hl Hn Hf Hh. pose proof Hv as [Hc _]. eapply wp_mono; [by apply main_spec| |done]. intros r s [-> Hi]. split; [done|]. intros w Hd Hk.
  destruct (image_mountable _ _ _ _ _ _ Hn Hc Hl Hi Hd Hk) as [Hm Hsp]. pose proof (fits_sizes n Hn) as (Hsz & Hle & Hbb & H3). pose proof Hn as [Hlo Hhi].
  wp_use sfs_domount_spec; [done| |]; rewrite Hsp.
  - intros p w' (_ & _ & Hmt). destruct (image_volume _ _ _ _ _ _ _ Hn Hc Hl Hi Hd Hmt) as [Hvo Hsb].
    pose proof (image_map _ _ _ _ _ _ _ Hn Hi Hd Hmt) as Hbit. pose proof Hd as (_ & _ & Hsec). destruct (mt_same _ _ _ _ Hmt) as ((_ & _ & Hse) & _).
    split; [done|]. split; [by rewrite Hsb|]. split; [unfold nblk; by rewrite Hsb|]. split; [|split; [|apply root_empty, Hvo]].
    + intros b Hb. unfold used. rewrite Hbit by lia. unfold empty_map. rewrite (bool_decide_false (n ≤ _ < _)), orb_false_r, bool_decide_eq_true by lia. lia.
    + unfold sec. rewrite Hse. fold (sec w SFS_ROOT_LOCATION). rewrite Hsec by (unfold SFS_ROOT_LOCATION; lia).
      rewrite (vi_root _ _ _ _ _ Hi). apply dec_enc_inode, root_inode_wf.
  - intros e w' [_ He]. tauto.
Qed.
End mount.


(** A volume ["V"] on eight blocks of zeros, with a write that takes 100 bytes
    only and one that is interrupted. *)
Module NewVol.
Definition file : list Z := replicate 4096 0.
Definition answers : list answer := [A_take 0; A_take 0; A_take 100; A_again].
Definition made : mkfs := match main false [[]; []; [86; 58; 0]] (started file answers) with Ok _ s => s | _ => started [] [] end.
Definition data : list (list Z) := block_of false (im_file made) <$> [0; 1; 2; 3; 4; 5; 6; 7].
Definition disk : world (lhd_softc SimDisk.disk) Toy.heap := set_k (mkvst (Toy.fresh 9000) ∅ ∅ 5) (ToyVol.vol data 15 ∅).

Definition block_okb (l : list Z) : bool := (zlen l =? 512) && forallb (λ x, (0 <=? x) && (x <? 256)) l.
Lemma block_okb_ok l : block_okb l = true → block_ok l.
Proof.
  intros [H1 H2]%andb_true_iff. split; [unfold SECTSIZE; lia|]. apply Forall_forall. intros x Hx. rewrite forallb_forall in H2.
  specialize (H2 x (proj1 (list_elem_of_In _ _) Hx)). lia.
Qed.
Lemma disk_ok : disk_has false (im_file made) 8 disk.
Proof.
  split; [|split; [vm_compute; reflexivity|]].
  - apply ToyVol.dinv_dev; [reflexivity|]. assert (Hb : forallb block_okb data = true) by (vm_compute; reflexivity).
    rewrite forallb_forall in Hb. apply Forall_forall. intros l Hl. apply block_okb_ok, Hb. by apply list_elem_of_In.
  - intros b Hb. assert (b = 0 ∨ b = 1 ∨ b = 2 ∨ b = 3 ∨ b = 4 ∨ b = 5 ∨ b = 6 ∨ b = 7) as Hc by lia.
    repeat (destruct Hc as [->|Hc]; [vm_compute; reflexivity|]). subst b. vm_compute. reflexivity.
Qed.
End NewVol.
Lemma mksfs_mounts_witness :
  wp sfs_domount (λ _ w', volume_ok w' [] ∧ nblk w' = 8) (λ e _, e = ENOMEM ∨ e = EIO) NewVol.disk.
Proof.
  assert (Hw : wp (main false [[]; []; [86; 58; 0]]) (λ r s, r = 0 ∧ ∀ w : world (lhd_softc SimDisk.disk) Toy.heap, disk_has false (im_file s) 8 w → kinv (heap w) →
      wp sfs_domount (λ _ w', volume_ok w' [] ∧ nblk w' = 8) (λ e _, e = ENOMEM ∨ e = EIO) w) (gave_up (started NewVol.file NewVol.answers)) (started NewVol.file NewVol.answers)).
  { eapply wp_mono; [apply (mksfs_mounts false [] [] [86; 58; 0] [86] NewVol.file NewVol.answers 8)|..].
    - split; [repeat constructor; done|]. exists []. right. reflexivity.
    - done.
    - split; vm_compute; done.
    - vm_compute. reflexivity.
    - done.
    - intros r s [Hr Hm]. split; [exact Hr|]. intros w Hd Hk. eapply wp_mono; [exact (Hm w Hd Hk)|..]; [|done].
      intros p w' (Hvo & _ & Hnb & _). split; [exact Hvo|exact Hnb].
    - intros e s He. exact He. }
  assert (Hrun : main false [[]; []; [86; 58; 0]] (started NewVol.file NewVol.answers) = Ok 0 NewVol.made) by (vm_compute; reflexivity).
  destruct (wp_run _ _ _ _ _ _ Hrun Hw) as [_ Hm]. apply Hm; [apply NewVol.disk_ok|apply Toy.fresh_inv].
Defined.

(** The read of the header is meant to be tried again when it was
    interrupted; the program stores before its buffer instead. *)
Example header_interrupted : main true [[]; []; [86; 0]] (started NewVol.file [A_take 0; A_take 0; A_again]) = Panic.
Proof. vm_compute. reflexivity. Qed.
