(* ===== verification/LoadElf.v ===== *)
(** * Loading programs (kern/userprog/loadelf.c, kern/include/elf.h)

    The loader reads an executable through its vnode and stores it in the
    current address space, where every byte may take a page fault.  The file
    system is behind the class [ExecFile]: a read is a sequence of pieces that
    it hands to [uiomove], and its result. *)

From S2P Require Import Prelude Kmem KPages Coremap KHeap CopyInOut Uio SfsDisk Vm UProc.

(** ** Headers *)

Record Elf_Ehdr := mkehdr {
  e_ident : list Z;
  e_type : Z;
  e_machine : Z;
  e_version : Z;
  e_entry : Z;
  e_phoff : Z;
  e_phentsize : Z;
  e_phnum : Z;
}.
Record Elf_Phdr := mkphdr {
  p_type : Z;
  p_offset : Z;
  p_vaddr : Z;
  p_filesz : Z;
  p_memsz : Z;
  p_flags : Z;
}.
Definition sizeof_Ehdr : Z := 52.
Definition sizeof_Phdr : Z := 32.
Definition PT_NULL : Z := 0.
Definition PT_LOAD : Z := 1.
Definition PT_PHDR : Z := 6.
Definition PT_MIPS_REGINFO : Z := 1879048192.
Definition PF_R : Z := 4.
Definition PF_W : Z := 2.
Definition PF_X : Z := 1.
Definition ET_EXEC : Z := 2.
Definition EM_MIPS : Z := 8.
Definition EV_CURRENT : Z := 1.
(** ELFMAG0 to ELFMAG3, ELFCLASS32, ELFDATA2MSB, EV_CURRENT *)
Definition elf_ident : list Z := [127; 69; 76; 70; 1; 2; 1].

(** The structures as they lie in a buffer. *)
Definition dec_ehdr (l : list Z) : Elf_Ehdr :=
  let ident := take 16 l in
  let '(type, l) := rd16 (drop 16 l) in
  let '(machine, l) := rd16 l in
  let '(version, l) := rd32 l in
  let '(entry, l) := rd32 l in
  let '(phoff, l) := rd32 l in
  let '(shoff, l) := rd32 l in
  let '(flags, l) := rd32 l in
  let '(ehsize, l) := rd16 l in
  let '(phentsize, l) := rd16 l in
  let '(phnum, l) := rd16 l in
  mkehdr ident type machine version entry phoff phentsize phnum.
Definition dec_phdr (l : list Z) : Elf_Phdr :=
  let '(type, l) := rd32 l in
  let '(offset, l) := rd32 l in
  let '(vaddr, l) := rd32 l in
  let '(paddr, l) := rd32 l in
  let '(filesz, l) := rd32 l in
  let '(memsz, l) := rd32 l in
  let '(flags, l) := rd32 l in
  mkphdr type offset vaddr filesz memsz flags.

(** [VOP_READ]: vnode, offset and amount. *)
Class ExecFile (V : Type) := {
  vop_read : Z → Z → Z → M V (list (list Z) * option errno);
}.

Section load.
Context {V : Type} `{!Vref V, !ExecFile V}.
Notation K := (machine V).

(** ** Memory of the program *)

(** One [copyout], byte by byte; the bytes of a word are on one page. *)
Definition store_byte (va b : Z) : M K unit := let! rnd := draw in kernel (Vm.user_store va b rnd).
Fixpoint store_bytes (va : Z) (data : list Z) : M K unit :=
  match data with
  | [] => ret tt
  | b :: data' => store_byte va b ;;; store_bytes (va + 1) data'
  end.
Definition copyout (data : list Z) (userdest : Z) : M K unit :=
  match copycheck userdest (zlen data) with
  | None => fail EFAULT
  | Some stoplen => if negb (stoplen =? zlen data) then fail EFAULT else store_bytes userdest data
  end.

(** [uiomove] to user memory, as in Uio.v; the descriptor afterwards. *)
Fixpoint uiomove_loop (fuel : nat) (data : list Z) (u : uio) : M K uio :=
  if (0 <? zlen data) && (0 <? uio_resid u) then
    match fuel with
    | O => hang
    | S fuel' =>
        let size := if iov_len u >? zlen data then zlen data else iov_len u in
        if size =? 0 then panic
        else
          copyout (ztake size data) (iov_base u) ;;;
          uiomove_loop fuel' (zdrop size data) (uio_advance size u)
    end
  else ret u.
Definition uiomove (data : list Z) (u : uio) : M K uio :=
  let! cur := gets (λ k, vm_cur (mc_vm k)) in
  kassert (uio_space u =? cur) ;;;
  uiomove_loop 3 data u.
Fixpoint uiomovezeros_loop (fuel : nat) (n : Z) (u : uio) : M K uio :=
  if n >? 0 then
    match fuel with
    | O => hang
    | S fuel' =>
        let amt := if 16 >? n then n else 16 in
        let! u := uiomove (ztake amt zeros16) u in
        uiomovezeros_loop fuel' (n - amt) u
    end
  else ret u.
Definition uiomovezeros (n : Z) (u : uio) : M K uio :=
  kassert (bool_decide (uio_rw u = UIO_READ)) ;;;
  uiomovezeros_loop (Z.to_nat n) n u.

(** ** Reading the file *)

Fixpoint uiomove_all (cs : list (list Z)) (u : uio) : M K uio :=
  match cs with
  | [] => ret u
  | c :: cs' => let! u := uiomove c u in uiomove_all cs' u
  end.
Definition the_pieces (v offset resid : Z) : M K (list (list Z) * option errno) :=
  kernel (on_vnodes (vop_read v offset resid)).
Definition read_user (v : Z) (u : uio) : M K uio :=
  let! r := the_pieces v (uio_offset u) (uio_resid u) in
  let! u := uiomove_all r.1 u in
  match r.2 with Some e => fail e | None => ret u end.
(** Into a kernel object of [len] bytes, which must be filled. *)
Definition read_kernel (v offset len : Z) : M K (list Z) :=
  let! r := the_pieces v offset len in
  match r.2 with
  | Some e => fail e
  | None =>
      let d := ztake len (concat r.1) in
      if negb (len - zlen d =? 0) then fail ENOEXEC else ret d
  end.

(** ** The loader *)

Definition set_resid (n : Z) (u : uio) : uio :=
  mkuio (iov_base u) (iov_len u) (uio_offset u) n (uio_segflg u) (uio_rw u) (uio_space u).
Definition load_segment (v offset vaddr memsize filesize is_executable : Z) : M K unit :=
  let filesize := if filesize >? memsize then memsize else filesize in
  let! space := gets (λ k, vm_cur (mc_vm k)) in
  let u := mkuio vaddr memsize offset filesize
             (if is_executable =? 0 then UIO_USERSPACE else UIO_USERISPACE) UIO_READ space in
  let! u := read_user v u in
  if negb (uio_resid u =? 0) then fail ENOEXEC
  else
    let fillamt := u32 (memsize - filesize) in
    if fillamt >? 0 then uiomovezeros fillamt (set_resid (u32 (uio_resid u + fillamt)) u) ;;; ret tt
    else ret tt.

Definition check_ehdr (eh : Elf_Ehdr) : bool :=
  bool_decide (take 7 (e_ident eh) = elf_ident) && (e_version eh =? EV_CURRENT) &&
  (e_type eh =? ET_EXEC) && (e_machine eh =? EM_MIPS).
Definition phdr_offset (eh : Elf_Ehdr) (i : Z) : Z := i32 (u32 (e_phoff eh + i * e_phentsize eh)).
(** The segment header [i]; nothing for one that is skipped. *)
Definition read_phdr (v : Z) (eh : Elf_Ehdr) (i : Z) : M K (option Elf_Phdr) :=
  let! l := read_kernel v (phdr_offset eh i) sizeof_Phdr in
  let ph := dec_phdr l in
  if (p_type ph =? PT_NULL) || (p_type ph =? PT_PHDR) || (p_type ph =? PT_MIPS_REGINFO) then ret None
  else if p_type ph =? PT_LOAD then ret (Some ph)
  else fail ENOEXEC.
(** The two loops over the headers, from [i] on. *)
Fixpoint define_segments (n : nat) (v : Z) (eh : Elf_Ehdr) (i iteration : Z) : M K unit :=
  match n with
  | O => ret tt
  | S n' =>
      let! o := read_phdr v eh i in
      match o with
      | None => define_segments n' v eh (i + 1) iteration
      | Some ph =>
          let! cur := gets (λ k, vm_cur (mc_vm k)) in
          kernel (as_define_region cur (p_vaddr ph) (p_memsz ph) (Z.land (p_flags ph) PF_R)
                    (Z.land (p_flags ph) PF_W) (Z.land (p_flags ph) PF_X) iteration) ;;;
          define_segments n' v eh (i + 1) (iteration + 1)
      end
  end.
Fixpoint load_segments (n : nat) (v : Z) (eh : Elf_Ehdr) (i : Z) : M K unit :=
  match n with
  | O => ret tt
  | S n' =>
      let! o := read_phdr v eh i in
      match o with
      | None => load_segments n' v eh (i + 1)
      | Some ph =>
          load_segment v (i32 (p_offset ph)) (p_vaddr ph) (p_memsz ph) (p_filesz ph) (Z.land (p_flags ph) PF_X) ;;;
          load_segments n' v eh (i + 1)
      end
  end.
(** The result is [*entrypoint]. *)
Definition load_elf (v : Z) : M K Z :=
  let! l := read_kernel v 0 sizeof_Ehdr in
  let eh := dec_ehdr l in
  if negb (check_ehdr eh) then fail ENOEXEC
  else
    define_segments (Z.to_nat (e_phnum eh)) v eh 0 0 ;;;
    let! cur := gets (λ k, vm_cur (mc_vm k)) in
    kernel (as_prepare_load cur v) ;;;
    load_segments (Z.to_nat (e_phnum eh)) v eh 0 ;;;
    kernel (as_complete_load cur) ;;;
    ret (e_entry eh).
End load.
