(* ===== verification/LoadElfThm.v ===== *)
(** * Loading programs: what the program finds in memory *)

From S2P Require Import Prelude Kmem KPages Coremap KHeap KHeapSpec KHeapOps KHeapThm CopyInOut Uio SfsDisk.
From S2P Require Import Vm VmPages VmSpec VmFault VmOps VmLife VmThm UProc LoadElf.

(** What the loader relies on in a file system: a read delivers the bytes of
    the file from the offset on, or a part of them and EIO, and changes
    neither files nor reference counts. *)
Class ExecFileOk (V : Type) `{!Vref V, !VrefOk V, !ExecFile V} := {
  fbytes : V → Z → list Z;
  vop_read_spec : ∀ s v off n, 0 ≤ off → 0 ≤ n →
    wp (vop_read v off n)
       (λ r s', (∀ w, fbytes s' w = fbytes s w) ∧ (∀ w, vrefs s' w = vrefs s w) ∧
          zlen (concat r.1) ≤ n ∧
          match r.2 with Some e => e = EIO | None => concat r.1 = ztake n (zdrop off (fbytes s v)) end)
       (λ _ _, False) s;
  incref_bytes : ∀ s v, 0 < vrefs s v →
    wp (VOP_INCREF v) (λ _ s', ∀ w, fbytes s' w = fbytes s w) (λ _ _, False) s;
}.

Section load.
Context {V : Type} `{!Vref V, !VrefOk V, !ExecFile V, !ExecFileOk V}.
Notation K := (machine V).
Implicit Types (k : K) (u : uio).

(** The invariant of the virtual memory, with [o v] references to the vnode
    [v] held by others than address spaces. *)
Definition owes (o : Z → Z) (s : vm V) : Prop :=
  vm_ok s ∧ ∀ v, v ≠ 0 → holders (vm_as s) v + o v ≤ vrefs (vm_vn s) v.
Lemma owes_nothing s : owes (λ _, 0) s ↔ vm_inv s.
Proof. unfold owes, vm_inv, refs_ok. split; intros [H1 H2]; (split; [done|]); intros v Hv; specialize (H2 v Hv); lia. Qed.
Lemma owes_grown o s s' : owes o s → vm_ok s' → grown s s' → owes o s'.
Proof. intros [_ Hr] Hok Hg. split; [done|]. intros v Hv. rewrite (holders_grown s) by done. destruct Hg as (_ & -> & _). by apply Hr. Qed.
Lemma owes_became o s s' a A A' :
  owes o s → vm_ok s' → vm_as s !! a = Some A → became s s' a A' → as_v A' = as_v A → owes o s'.
Proof.
  intros [_ Hr] Hok' HA (Has & _ & _ & _ & Hvn & _) Hv. split; [done|]. intros v Hv0. rewrite Has, Hvn, (holders_update _ a A) by done. rewrite Hv.
  specialize (Hr v Hv0). lia.
Qed.

Context (o : Z → Z) (Howed : ∀ v, 0 ≤ o v).

(** ** Stores *)

(** The memory of the current program, and the files. *)
Definition pmem k (va : Z) : option Z := amem (mc_vm k) (vm_cur (mc_vm k)) va.
Definition file k (v : Z) : list Z := fbytes (vm_vn (mc_vm k)) v.
Definition same_files k k' : Prop := ∀ w, file k' w = file k w ∧ vrefs (vm_vn (mc_vm k')) w = vrefs (vm_vn (mc_vm k)) w.

(** [d] was stored at [base]: nothing that was in memory elsewhere changed, and
    nothing of any other program. *)
Record wrote k (base : Z) (d : list Z) k' : Prop := {
  wr_inv : owes o (mc_vm k');
  wr_cur : vm_cur (mc_vm k') = vm_cur (mc_vm k);
  wr_files : same_files k k';
  wr_in : ∀ i, 0 ≤ i < zlen d → pmem k' (base + i) = zget d i;
  wr_out : ∀ va b, ¬ (base ≤ va < base + zlen d) → pmem k va = Some b → pmem k' va = Some b;
  wr_other : ∀ a va, a ≠ vm_cur (mc_vm k) → amem (mc_vm k') a va = amem (mc_vm k) a va;
}.
Definition no_page (e : errno) k : Prop := e = EFAULT ∧ owes o (mc_vm k).
(** A store that found no page: only memory of the current program changed. *)
Definition stuck k (e : errno) k' : Prop :=
  e = EFAULT ∧ owes o (mc_vm k') ∧ vm_cur (mc_vm k') = vm_cur (mc_vm k) ∧
  ∀ a va, a ≠ vm_cur (mc_vm k) → amem (mc_vm k') a va = amem (mc_vm k) a va.
Lemma stuck_later k k1 k2 base d e : wrote k base d k1 → stuck k1 e k2 → stuck k e k2.
Proof.
  intros Hw (He & Hi & Hc & Hm). rewrite (wr_cur _ _ _ _ Hw) in Hc, Hm. split_and!; try done.
  intros a va Ha. rewrite Hm by done. by apply (wr_other _ _ _ _ Hw).
Qed.

Lemma same_files_trans k1 k2 k3 : same_files k1 k2 → same_files k2 k3 → same_files k1 k3.
Proof. intros H1 H2 w. destruct (H1 w), (H2 w). split; congruence. Qed.
Lemma wrote_nil k base : owes o (mc_vm k) → wrote k base [] k.
Proof. intros Hi. split; try done. intros i Hz. unfold zlen in Hz. simpl in Hz. lia. Qed.
Lemma wrote_app k1 k2 k3 base d1 d2 :
  wrote k1 base d1 k2 → wrote k2 (base + zlen d1) d2 k3 → wrote k1 base (d1 ++ d2) k3.
Proof.
  intros [H1 H2 H3 H4 H5 H6] [J1 J2 J3 J4 J5 J6]. pose proof (zlen_nonneg d1). pose proof (zlen_nonneg d2). split; [done|congruence|by eapply same_files_trans| | |].
  - intros i Hi. rewrite zlen_app in Hi. destruct (decide (i < zlen d1)).
    + rewrite zget_app_l by done. destruct (zget_is_Some d1 i) as [b Hb]; [lia|]. rewrite Hb. apply J5; [lia|]. rewrite <- Hb. apply H4. lia.
    + rewrite zget_app_r by lia. rewrite <- J4 by lia. f_equal. lia.
  - intros va b Hva Hb. rewrite zlen_app in Hva. apply J5; [lia|]. apply H5; [lia|done].
  - intros a va Ha. rewrite J6 by congruence. auto.
Qed.

Lemma store_byte_spec k va b :
  owes o (mc_vm k) → vm_cur (mc_vm k) ≠ 0 → 0 ≤ va < 2147483648 →
  wp (store_byte va b) (λ _ k', wrote k va [b] k') (stuck k) k.
Proof.
  intros Hi Hc Hva. pose proof Hi as [Hok _]. unfold store_byte. wp_bind. apply wp_draw. intros rnd f. unfold kernel. apply wp_zoom. cbn [mc_vm].
  eapply wp_mono; [by apply user_store_spec|..].
  - intros [] s' (Hok' & [Hg Hsp] & Hm). pose proof Hg as (Hcur & Hvn & _). unfold poke, touch in Hm. cbn [mc_vm] in *.
    split; unfold same_files, file, pmem; cbn [mc_vm mc_rnd]; rewrite ?Hcur, ?Hvn; try done.
    + by eapply owes_grown.
    + intros i Hi'. change (zlen [b]) with 1 in Hi'. assert (i = 0) as -> by lia. rewrite Hm, decide_True by (split; [done|lia]). done.
    + intros va' b' Hne Hb. change (zlen [b]) with 1 in Hne. rewrite Hm, decide_False by lia. case_decide; by rewrite Hb.
    + intros a va' Ha. rewrite Hm, !decide_False by (by intros [? _]). done.
  - intros e s' (-> & Hok' & [Hg Hsp] & Hm & _). split; [done|]. split; [by eapply owes_grown|]. split; [apply Hg|]. intros a va' _. apply Hm.
Qed.
Lemma store_bytes_spec k va d :
  owes o (mc_vm k) → vm_cur (mc_vm k) ≠ 0 → 0 ≤ va → va + zlen d ≤ 2147483648 →
  wp (store_bytes va d) (λ _ k', wrote k va d k') (stuck k) k.
Proof.
  revert k va. induction d as [|b d IH]; intros k va Hi Hc Hva Hl; cbn [store_bytes]; [by apply wp_ret, wrote_nil|].
  rewrite zlen_cons in Hl. pose proof (zlen_nonneg d). wp_bind. eapply wp_mono; [apply store_byte_spec; [done|done|lia]| |done]. intros [] k1 Hw1.
  eapply wp_mono; [apply IH; [apply Hw1|by rewrite (wr_cur _ _ _ _ Hw1)|lia|lia]| |intros e k'; by apply (stuck_later _ _ _ _ _ _ Hw1)]. intros [] k2 Hw2. by apply (wrote_app k k1 k2 va [b] d).
Qed.
Lemma copycheck_inside va n : 0 < n → 0 ≤ va → va + n ≤ 2147483648 → copycheck va n = Some n.
Proof.
  intros Hn Hva Hl. unfold copycheck. rewrite (u32_small (va + n)), u32_small by lia. unfold CopyInOut.USERTOP, CopyInOut.MIPS_KSEG0.
  destruct (Z.ltb_spec (va + n - 1) va); [lia|]. destruct (Z.geb_spec va 2147483648); [lia|]. destruct (Z.geb_spec (va + n - 1) 2147483648); [lia|done].
Qed.
Lemma copyout_wrote k d va :
  owes o (mc_vm k) → vm_cur (mc_vm k) ≠ 0 → 0 < zlen d → 0 ≤ va → va + zlen d ≤ 2147483648 →
  wp (copyout d va) (λ _ k', wrote k va d k') (stuck k) k.
Proof.
  intros Hi Hc Hd Hva Hl. unfold copyout. rewrite copycheck_inside by done. rewrite Z.eqb_refl. cbn [negb]. by apply store_bytes_spec.
Qed.

(** ** Descriptors *)

Definition usable u : Prop := 0 ≤ iov_base u ∧ 0 ≤ uio_resid u ≤ iov_len u ∧ iov_base u + iov_len u ≤ 2147483648.
Definition moved (n : Z) u u' : Prop :=
  iov_base u' = iov_base u + n ∧ iov_len u' = iov_len u - n ∧ uio_resid u' = uio_resid u - n ∧ uio_space u' = uio_space u ∧
  uio_rw u' = uio_rw u.
Lemma uiomove_spec k d u :
  owes o (mc_vm k) → vm_cur (mc_vm k) ≠ 0 → usable u → zlen d ≤ uio_resid u → uio_space u = vm_cur (mc_vm k) →
  wp (uiomove d u) (λ u' k', moved (zlen d) u u' ∧ wrote k (iov_base u) d k') no_page k.
Proof.
  intros Hi Hc (Hb & Hr & Hl) Hd Hs. pose proof (zlen_nonneg d). unfold uiomove. wp_bind. apply wp_gets. wp_bind. apply wp_kassert; [by rewrite Hs, Z.eqb_refl|].
  cbn [uiomove_loop]. destruct (decide (zlen d = 0)) as [Hz|Hnz].
  { rewrite Hz. cbn [Z.ltb Z.compare andb]. apply wp_ret. rewrite (zlen_0_nil d Hz). split; [unfold moved; split_and!; lia || done|by apply wrote_nil]. }
  replace ((0 <? zlen d) && (0 <? uio_resid u)) with true by lia.
  replace (if iov_len u >? zlen d then zlen d else iov_len u) with (zlen d) by (destruct (Z.gtb_spec (iov_len u) (zlen d)); lia).
  destruct (Z.eqb_spec (zlen d) 0); [done|]. rewrite ztake_all by lia. wp_bind. eapply wp_mono; [apply copyout_wrote; [done|done|lia|lia|lia]| |by intros e k' (? & ? & _)].
  intros [] k1 Hw. replace (zdrop (zlen d) d) with (@nil Z) by (symmetry; apply zlen_0_nil; rewrite zlen_zdrop; lia).
  cbn [zlen length Z.of_nat Z.ltb Z.compare andb]. change (zlen [] ) with 0. cbn [Z.ltb Z.compare andb]. apply wp_ret. split; [|done].
  unfold moved, uio_advance. cbn [iov_base iov_len uio_resid uio_space]. rewrite !u32_small by lia. done.
Qed.
Lemma moved_usable n u u' : usable u → 0 ≤ n ≤ uio_resid u → moved n u u' → usable u'.
Proof. unfold usable, moved. lia. Qed.
Lemma moved_trans n m u1 u2 u3 : moved n u1 u2 → moved m u2 u3 → moved (n + m) u1 u3.
Proof. unfold moved. intros (H1 & H2 & H3 & H4 & H5) (J1 & J2 & J3 & J4 & J5). split_and!; [lia|lia|lia|congruence|congruence]. Qed.
Lemma uiomove_all_spec cs k u :
  owes o (mc_vm k) → vm_cur (mc_vm k) ≠ 0 → usable u → zlen (concat cs) ≤ uio_resid u → uio_space u = vm_cur (mc_vm k) →
  wp (uiomove_all cs u) (λ u' k', moved (zlen (concat cs)) u u' ∧ wrote k (iov_base u) (concat cs) k') no_page k.
Proof.
  revert k u. induction cs as [|c cs IH]; intros k u Hi Hc Hu Hl Hs; cbn [uiomove_all concat] in *.
  { apply wp_ret. split; [unfold moved; rewrite zlen_nil; split_and!; lia || done|by apply wrote_nil]. }
  rewrite zlen_app in *. pose proof (zlen_nonneg c). pose proof (zlen_nonneg (concat cs)).
  wp_bind. eapply wp_mono; [apply uiomove_spec; [done..|lia|done]| |done]. intros u1 k1 [Hm Hw]. pose proof Hm as (Hb & _ & Hr & Hsp & _).
  eapply wp_mono; [apply IH; [apply Hw|by rewrite (wr_cur _ _ _ _ Hw)|eapply moved_usable; [exact Hu| |exact Hm]; lia|lia|by rewrite Hsp, (wr_cur _ _ _ _ Hw)]| |done].
  intros u2 k2 [Hm2 Hw2]. split; [by eapply moved_trans|]. rewrite Hb in Hw2. by eapply wrote_app.
Qed.
Lemma uiomovezeros_spec fuel n k u :
  owes o (mc_vm k) → vm_cur (mc_vm k) ≠ 0 → usable u → 0 ≤ n ≤ uio_resid u → n ≤ Z.of_nat fuel → uio_space u = vm_cur (mc_vm k) →
  wp (uiomovezeros_loop fuel n u) (λ _ k', wrote k (iov_base u) (replicate (Z.to_nat n) 0) k') no_page k.
Proof.
  revert n k u. induction fuel as [|fuel IH]; intros n k u Hi Hc Hu Hn Hf Hs; cbn [uiomovezeros_loop]; destruct (Z.gtb_spec n 0); try lia.
  1,3: apply wp_ret; replace (Z.to_nat n) with O by lia; by apply wrote_nil.
  set (amt := if 16 >? n then n else 16). assert (Ha : 0 < amt ≤ 16 ∧ amt ≤ n) by (unfold amt; destruct (Z.gtb_spec 16 n); lia).
  assert (Hz : ztake amt zeros16 = replicate (Z.to_nat amt) 0) by (rewrite <- (zeros16_take amt) by lia; by rewrite zdrop_0).
  assert (Hzl : zlen (ztake amt zeros16) = amt) by (rewrite Hz, zlen_replicate; lia).
  wp_bind. eapply wp_mono; [apply uiomove_spec; [done..|lia|done]| |done]. intros u1 k1 [Hm Hw]. pose proof Hm as (Hb & _ & Hr & Hsp & _). rewrite Hzl in *.
  eapply wp_mono; [apply IH; [apply Hw|by rewrite (wr_cur _ _ _ _ Hw)|eapply moved_usable; [exact Hu| |exact Hm]; lia|lia|lia|by rewrite Hsp, (wr_cur _ _ _ _ Hw)]| |done].
  intros u2 k2 Hw2. rewrite Hb in Hw2. replace (Z.to_nat n) with (Z.to_nat amt + Z.to_nat (n - amt))%nat by lia. rewrite replicate_add, <- Hz.
  eapply wrote_app; [done|]. by rewrite Hzl.
Qed.

(** ** Reading *)

(** Only the inside of the file system changed. *)
Definition only_read k k' : Prop :=
  owes o (mc_vm k') ∧ same_files k k' ∧ vm_as (mc_vm k') = vm_as (mc_vm k) ∧ vm_cur (mc_vm k') = vm_cur (mc_vm k) ∧
  ∀ a va, amem (mc_vm k') a va = amem (mc_vm k) a va.
Lemma only_read_wrote k k1 k2 base d : only_read k k1 → wrote k1 base d k2 → wrote k base d k2.
Proof.
  intros (_ & Hf & _ & Hc & Hm) [H1 H2 H3 H4 H5 H6]. split; [done|congruence|by eapply same_files_trans|done| |].
  - intros va b Hva Hb. apply H5; [done|]. unfold pmem. by rewrite Hc, Hm.
  - intros a va Ha. rewrite H6 by congruence. apply Hm.
Qed.
Lemma only_read_trans k1 k2 k3 : only_read k1 k2 → only_read k2 k3 → only_read k1 k3.
Proof.
  intros (_ & H2 & H3 & H4 & H5) (J1 & J2 & J3 & J4 & J5). split_and!; [done|by eapply same_files_trans|congruence|congruence|].
  intros. by rewrite J5.
Qed.
Lemma only_read_refl k : owes o (mc_vm k) → only_read k k.
Proof. intros Hi. by split_and!. Qed.
Definition io_error (e : errno) k : Prop := e = EIO ∧ owes o (mc_vm k).

Lemma pieces_spec k v off n :
  owes o (mc_vm k) → 0 ≤ off → 0 ≤ n →
  wp (the_pieces v off n)
     (λ r k', only_read k k' ∧ zlen (concat r.1) ≤ n ∧
        match r.2 with Some e => e = EIO | None => concat r.1 = ztake n (zdrop off (file k v)) end)
     (λ _ _, False) k.
Proof.
  intros [Hok Hr] Ho Hn. unfold the_pieces, kernel, on_vnodes. apply wp_zoom, wp_zoom.
  eapply wp_mono; [by apply vop_read_spec| |done]. intros r s' (Hf & Hv & Hl & Hd). split; [|done].
  split; [split; [by apply vm_ok_vns|]|]; [|split; [intros w; split; [apply Hf|apply Hv]|by split_and!]].
  intros w Hw. simpl. rewrite Hv. by apply Hr.
Qed.
Lemma read_kernel_spec k v off n :
  owes o (mc_vm k) → 0 ≤ off → 0 ≤ n → off + n ≤ zlen (file k v) →
  wp (read_kernel v off n) (λ d k', only_read k k' ∧ d = ztake n (zdrop off (file k v))) io_error k.
Proof.
  intros Hi Ho Hn Hl. unfold read_kernel. wp_bind. eapply wp_mono; [by apply pieces_spec| |done]. intros [cs r] k1 (Hk & Hle & Hd). cbn [fst snd] in *.
  destruct r as [e|]; [subst e; apply wp_fail; split; [done|apply Hk]|]. rewrite Hd.
  assert (Hzl : zlen (ztake n (zdrop off (file k v))) = n) by (rewrite zlen_ztake; rewrite ?zlen_zdrop by lia; lia).
  rewrite ztake_all by lia. rewrite Hzl, Z.sub_diag. cbn [negb Z.eqb]. by apply wp_ret.
Qed.

(** ** Segments *)

Definition load_error (e : errno) k : Prop := (e = EIO ∨ e = EFAULT) ∧ owes o (mc_vm k).
(** What a segment is to contain. *)
Definition seg_len (ph : Elf_Phdr) : Z := Z.min (p_filesz ph) (p_memsz ph).
Definition seg_data (f : list Z) (ph : Elf_Phdr) : list Z :=
  ztake (seg_len ph) (zdrop (i32 (p_offset ph)) f) ++ replicate (Z.to_nat (p_memsz ph - seg_len ph)) 0.
Definition seg_ok (f : list Z) (ph : Elf_Phdr) : Prop :=
  0 ≤ p_filesz ph ∧ 0 ≤ p_memsz ph ∧ 0 ≤ p_vaddr ph ∧ p_vaddr ph + p_memsz ph ≤ 2147483648 ∧
  0 ≤ i32 (p_offset ph) ∧ i32 (p_offset ph) + seg_len ph ≤ zlen f.
Lemma seg_data_len f ph : seg_ok f ph → zlen (seg_data f ph) = p_memsz ph.
Proof.
  intros (H1 & H2 & H3 & H4 & H5 & H6). unfold seg_data, seg_len in *. rewrite zlen_app, zlen_replicate, zlen_ztake; rewrite ?zlen_zdrop by lia; lia.
Qed.
Lemma load_segment_spec k v ph x :
  owes o (mc_vm k) → vm_cur (mc_vm k) ≠ 0 → seg_ok (file k v) ph →
  wp (load_segment v (i32 (p_offset ph)) (p_vaddr ph) (p_memsz ph) (p_filesz ph) x)
     (λ _ k', wrote k (p_vaddr ph) (seg_data (file k v) ph) k') load_error k.
Proof.
  intros Hi Hc (H1 & H2 & H3 & H4 & H5 & H6). unfold load_segment.
  replace (if p_filesz ph >? p_memsz ph then p_memsz ph else p_filesz ph) with (seg_len ph) by (unfold seg_len; destruct (Z.gtb_spec (p_filesz ph) (p_memsz ph)); lia).
  assert (Hsl : 0 ≤ seg_len ph ≤ p_memsz ph) by (unfold seg_len; lia). wp_bind. apply wp_gets. set (u := mkuio _ _ _ _ _ _ _).
  assert (Hnp : ∀ e k', no_page e k' → load_error e k') by (intros e k' [-> ?]; split; auto).
  wp_bind. unfold read_user. wp_bind. eapply wp_mono; [apply pieces_spec; [done|exact H5|exact (proj1 Hsl)]| |done]. intros [cs r] k1 (Hk & Hle & Hd). cbn [fst snd] in *.
  assert (Hu : usable u) by (unfold usable; simpl; lia). pose proof Hk as (Hi1 & Hf1 & _ & Hc1 & _).
  wp_bind. eapply wp_mono; [apply (uiomove_all_spec cs k1 u); [done|by rewrite Hc1|done|done|by rewrite Hc1]| |done]. intros u1 k2 [Hm Hw].
  destruct r as [e|]; [subst e; apply wp_fail; split; [by left|apply Hw]|]. apply wp_ret.
  assert (Hlen : zlen (concat cs) = seg_len ph) by (rewrite Hd; simpl; rewrite zlen_ztake; rewrite ?zlen_zdrop by lia; lia).
  rewrite Hlen in Hm. pose proof Hm as (Hb & Hl & Hr & Hs & Hrw). simpl in Hb, Hl, Hr, Hs, Hrw. rewrite Hr, Z.sub_diag. cbn [negb Z.eqb].
  rewrite (u32_small (p_memsz ph - seg_len ph)) by lia. apply (only_read_wrote k) in Hw; [|done]. unfold seg_data. simpl in Hd. rewrite Hd in Hw, Hlen.
  destruct (Z.gtb_spec (p_memsz ph - seg_len ph) 0) as [Hgt|Hz].
  - wp_bind. unfold uiomovezeros. wp_bind. apply wp_kassert; [cbn [set_resid uio_rw]; by rewrite Hrw|]. rewrite u32_small by lia. eapply wp_mono; [apply (uiomovezeros_spec _ (p_memsz ph - seg_len ph) k2); [apply Hw|by rewrite (wr_cur _ _ _ _ Hw)| | | |]| |done].
    + unfold usable. simpl. lia.
    + simpl. lia.
    + lia.
    + simpl. rewrite Hs. by rewrite (wr_cur _ _ _ _ Hw).
    + intros u2 k3 Hw2. apply wp_ret. eapply wrote_app; [done|]. simpl in Hw2. by rewrite Hlen, <- Hb.
  - apply wp_ret. replace (Z.to_nat (p_memsz ph - seg_len ph)) with O by lia. by rewrite app_nil_r.
Qed.

(** ** Executables *)

Definition ehdr_of (f : list Z) : Elf_Ehdr := dec_ehdr (ztake sizeof_Ehdr (zdrop 0 f)).
Definition phdr_of (f : list Z) (eh : Elf_Ehdr) (i : Z) : Elf_Phdr := dec_phdr (ztake sizeof_Phdr (zdrop (phdr_offset eh i) f)).
Definition skipped (t : Z) : Prop := t = PT_NULL ∨ t = PT_PHDR ∨ t = PT_MIPS_REGINFO.
Definition phdr_ok (f : list Z) (eh : Elf_Ehdr) (i : Z) : Prop :=
  0 ≤ phdr_offset eh i ∧ phdr_offset eh i + sizeof_Phdr ≤ zlen f ∧
  (skipped (p_type (phdr_of f eh i)) ∨ p_type (phdr_of f eh i) = PT_LOAD ∧ seg_ok f (phdr_of f eh i)).
(** The segments that headers [i] to [i + n - 1] describe. *)
Fixpoint segments (f : list Z) (eh : Elf_Ehdr) (n : nat) (i : Z) : list Elf_Phdr :=
  match n with
  | O => []
  | S n' =>
      if decide (p_type (phdr_of f eh i) = PT_LOAD) then phdr_of f eh i :: segments f eh n' (i + 1)
      else segments f eh n' (i + 1)
  end.
Definition inside (ph : Elf_Phdr) (va : Z) : Prop := p_vaddr ph ≤ va < p_vaddr ph + p_memsz ph.
Definition apart (p1 p2 : Elf_Phdr) : Prop := ∀ va, inside p1 va → inside p2 va → False.
Fixpoint all_apart (l : list Elf_Phdr) : Prop :=
  match l with [] => True | ph :: l' => Forall (apart ph) l' ∧ all_apart l' end.
Definition program (f : list Z) : list Elf_Phdr := segments f (ehdr_of f) (Z.to_nat (e_phnum (ehdr_of f))) 0.
Record executable (f : list Z) : Prop := {
  ex_size : sizeof_Ehdr ≤ zlen f;
  ex_ehdr : check_ehdr (ehdr_of f) = true;
  ex_phdrs : ∀ i, 0 ≤ i < e_phnum (ehdr_of f) → phdr_ok f (ehdr_of f) i;
  ex_two : (length (program f) ≤ 2)%nat;
  ex_apart : all_apart (program f);
}.

Lemma read_phdr_spec k v eh i :
  owes o (mc_vm k) → phdr_ok (file k v) eh i →
  wp (read_phdr v eh i)
     (λ o k', only_read k k' ∧ o = if decide (p_type (phdr_of (file k v) eh i) = PT_LOAD) then Some (phdr_of (file k v) eh i) else None)
     io_error k.
Proof.
  intros Hi (H1 & H2 & H3). unfold read_phdr. wp_bind. eapply wp_mono; [by apply read_kernel_spec| |done]. intros d k1 [Hk ->].
  fold (phdr_of (file k v) eh i). set (ph := phdr_of (file k v) eh i) in *. destruct H3 as [Hs|[Hl _]].
  - destruct (_ || _) eqn:Ho.
    + apply wp_ret. split; [done|]. rewrite decide_False; [done|]. intros He. unfold skipped in Hs. rewrite He in Hs. by destruct Hs as [?|[?|?]].
    + exfalso. destruct Hs as [Hs|[Hs|Hs]]; rewrite Hs in Ho; done.
  - rewrite Hl. change ((PT_LOAD =? PT_NULL) || (PT_LOAD =? PT_PHDR) || (PT_LOAD =? PT_MIPS_REGINFO)) with false. change (PT_LOAD =? PT_LOAD) with true.
    cbv iota. apply wp_ret. split; [done|]. by rewrite decide_True.
Qed.

(** The address space before and between the definitions of its regions. *)
Definition regions_left k (it : Z) : Prop :=
  ∃ A, vm_as (mc_vm k) !! vm_cur (mc_vm k) = Some A ∧ as_v A = 0 ∧ (it ≤ 0 → as_vbase1 A = 0) ∧ (it ≤ 1 → as_vbase2 A = 0).
Lemma define_region_spec k it ph r w x :
  owes o (mc_vm k) → regions_left k it → it = 0 ∨ it = 1 → 0 ≤ p_vaddr ph → 0 ≤ p_memsz ph → p_vaddr ph + p_memsz ph ≤ 2147483648 →
  wp (kernel (as_define_region (vm_cur (mc_vm k)) (p_vaddr ph) (p_memsz ph) r w x it))
     (λ _ k', owes o (mc_vm k') ∧ regions_left k' (it + 1) ∧ vm_cur (mc_vm k') = vm_cur (mc_vm k) ∧ vm_vn (mc_vm k') = vm_vn (mc_vm k) ∧
        ∀ a va, amem (mc_vm k') a va = amem (mc_vm k) a va)
     (λ _ _, False) k.
Proof.
  intros Hi (A & HA & Hv & Hb1 & Hb2) Hit H1 H2 H3. unfold kernel. apply wp_zoom. pose proof Hi as [Hok Hr].
  assert (Hrv : ∀ top B, as_v (raise_heap top B) = as_v B ∧ as_vbase2 (raise_heap top B) = as_vbase2 B) by (intros; unfold raise_heap; by case_match).
  eapply wp_mono; [apply (as_define_region_spec _ _ A); [done|done|lia|lia|lia]|..]; cbv zeta.
  - intros [] s' (Hok' & Hcase). cbn [mc_vm].
    assert (∃ A', became (mc_vm k) s' (vm_cur (mc_vm k)) A' ∧ as_v A' = 0 ∧ (it = 0 → as_vbase2 A' = 0)) as (A' & Hb & HvA & H0).
    { destruct Hcase as [(-> & _ & Hb)|(-> & _ & Hb)]; eexists; (split; [exact Hb|]); (split; [by rewrite (proj1 (Hrv _ _))|]).
      - intros _. rewrite (proj2 (Hrv _ _)). simpl. apply Hb2. lia.
      - lia. }
    pose proof Hb as (Has & Hc & _ & _ & Hvn & Hm). split; [apply (owes_became o (mc_vm k) s' (vm_cur (mc_vm k)) A A'); try done; congruence|]. split; [|done].
    exists A'. cbn [mc_vm]. rewrite Has, Hc, lookup_insert_eq. split_and!; [done|done|lia|]. intros. apply H0. lia.
  - intros e s' (_ & _ & Hn1 & Hn2). destruct Hit as [-> | ->]; [apply Hn1; split; [done|by apply Hb1]|apply Hn2; split; [done|by apply Hb2]].
Qed.

(** The memory and the files stay. *)
Definition undisturbed k k' : Prop :=
  owes o (mc_vm k') ∧ same_files k k' ∧ vm_cur (mc_vm k') = vm_cur (mc_vm k) ∧ ∀ a va, amem (mc_vm k') a va = amem (mc_vm k) a va.
Lemma undisturbed_trans k1 k2 k3 : undisturbed k1 k2 → undisturbed k2 k3 → undisturbed k1 k3.
Proof. intros (_ & H2 & H3 & H4) (J1 & J2 & J3 & J4). split_and!; [done|by eapply same_files_trans|congruence|]. intros. by rewrite J4. Qed.
Lemma only_read_undisturbed k k' : only_read k k' → undisturbed k k'.
Proof. intros (? & ? & _ & ? & ?). by split_and!. Qed.
Lemma undisturbed_wrote k k1 k2 base d : undisturbed k k1 → wrote k1 base d k2 → wrote k base d k2.
Proof.
  intros (_ & Hf & Hc & Hm) [H1 H2 H3 H4 H5 H6]. split; [done|congruence|by eapply same_files_trans|done| |].
  - intros va b Hva Hb. apply H5; [done|]. unfold pmem. by rewrite Hc, Hm.
  - intros a va Ha. rewrite H6 by congruence. apply Hm.
Qed.
Lemma define_segments_spec v eh n k i it :
  owes o (mc_vm k) → regions_left k it → 0 ≤ it → it + Z.of_nat (length (segments (file k v) eh n i)) ≤ 2 →
  (∀ j, i ≤ j < i + Z.of_nat n → phdr_ok (file k v) eh j) →
  wp (define_segments n v eh i it) (λ _ k', undisturbed k k' ∧ regions_left k' 2) io_error k.
Proof.
  revert k i it. induction n as [|n IH]; intros k i it Hi Hr Hit Hlen Hok; cbn [define_segments].
  { apply wp_ret. split; [by split_and!|]. destruct Hr as (A & ? & ? & _ & _). exists A. split_and!; [done|done|lia|lia]. }
  wp_bind. eapply wp_mono; [apply read_phdr_spec; [done|apply Hok; lia]| |done]. intros ? k1 [Hk ->].
  pose proof Hk as (Hi1 & Hf1 & Has1 & Hc1 & _). pose proof (proj1 (Hf1 v)) as Hfile.
  assert (Hr1 : regions_left k1 it) by (unfold regions_left; by rewrite Has1, Hc1). cbn [segments] in Hlen.
  destruct (decide (p_type (phdr_of (file k v) eh i) = PT_LOAD)) as [Hl|Hl].
  - cbn [length] in Hlen. destruct (Hok i) as (_ & _ & [Hs|[_ (H1 & H2 & H3 & H4 & _)]]); [lia|rewrite Hl in Hs; by destruct Hs as [?|[?|?]]|].
    wp_bind. apply wp_gets. wp_bind. eapply wp_mono; [apply (define_region_spec k1 it (phdr_of (file k v) eh i)); [done|done|lia|done|done|done]| |done].
    intros [] k2 (Hi2 & Hr2 & Hc2 & Hv2 & Hm2).
    assert (Hu : undisturbed k k2).
    { eapply undisturbed_trans; [by apply only_read_undisturbed|]. split_and!; [done| |done|done]. intros w. unfold file. by rewrite Hv2. }
    assert (Hfile2 : file k2 v = file k v) by apply Hu.
    eapply wp_mono; [apply IH; [done|done|lia|rewrite Hfile2; lia|intros j Hj; rewrite Hfile2; apply Hok; lia]| |done].
    intros [] k3 [Hu3 Hr3]. split; [by eapply undisturbed_trans|done].
  - eapply wp_mono; [apply (IH k1 _ it); [done|done|done|by rewrite Hfile|intros j Hj; rewrite Hfile; apply Hok; lia]| |done].
    intros [] k3 [Hu3 Hr3]. split; [by eapply undisturbed_trans; [apply only_read_undisturbed|]|done].
Qed.

(** Segment [ph] of the file [f] is in memory. *)
Definition seg_there (f : list Z) (ph : Elf_Phdr) k : Prop :=
  ∀ i, 0 ≤ i < p_memsz ph → pmem k (p_vaddr ph + i) = zget (seg_data f ph) i.
Record loaded (f : list Z) (l : list Elf_Phdr) k k' : Prop := {
  ld_inv : owes o (mc_vm k');
  ld_cur : vm_cur (mc_vm k') = vm_cur (mc_vm k);
  ld_files : same_files k k';
  ld_there : Forall (λ ph, seg_there f ph k') l;
  ld_out : ∀ va b, Forall (λ ph, ¬ inside ph va) l → pmem k va = Some b → pmem k' va = Some b;
  ld_other : ∀ a va, a ≠ vm_cur (mc_vm k) → amem (mc_vm k') a va = amem (mc_vm k) a va;
}.
Lemma loaded_undisturbed f l k k1 k2 : undisturbed k k1 → loaded f l k1 k2 → loaded f l k k2.
Proof.
  intros (_ & Hf & Hc & Hm) [H1 H2 H3 H4 H5 H6]. split; [done|congruence|by eapply same_files_trans|done| |].
  - intros va b Hva Hb. apply H5; [done|]. unfold pmem. by rewrite Hc, Hm.
  - intros a va Ha. rewrite H6 by congruence. apply Hm.
Qed.
Lemma loaded_cons f ph l k k1 k2 :
  seg_ok f ph → Forall (apart ph) l → wrote k (p_vaddr ph) (seg_data f ph) k1 → loaded f l k1 k2 → loaded f (ph :: l) k k2.
Proof.
  intros Hok Hap Hw [H1 H2 H3 H4 H5 H6]. destruct Hw as [W1 W2 W3 W4 W5 W6]. rewrite (seg_data_len f ph Hok) in *. split; [done|congruence|by eapply same_files_trans| | |].
  - apply Forall_cons. split; [|done]. intros i Hi. destruct (zget_is_Some (seg_data f ph) i) as [b Hb]; [by rewrite seg_data_len|].
    rewrite Hb. apply H5; [|by rewrite W4]. eapply Forall_impl; [exact Hap|]. intros q Hq Hin. apply (Hq (p_vaddr ph + i)); [unfold inside; lia|done].
  - intros va b [Hn Hl]%Forall_cons Hb. apply H5; [done|]. by apply W5.
  - intros a va Ha. rewrite H6 by congruence. auto.
Qed.
Lemma load_segments_spec v eh n k i :
  owes o (mc_vm k) → vm_cur (mc_vm k) ≠ 0 → all_apart (segments (file k v) eh n i) →
  (∀ j, i ≤ j < i + Z.of_nat n → phdr_ok (file k v) eh j) →
  wp (load_segments n v eh i) (λ _ k', loaded (file k v) (segments (file k v) eh n i) k k') load_error k.
Proof.
  revert k i. induction n as [|n IH]; intros k i Hi Hc Hap Hok; cbn [load_segments].
  { apply wp_ret. by split. }
  assert (Hio : ∀ e k', io_error e k' → load_error e k') by (intros e k' [-> ?]; split; auto).
  wp_bind. eapply wp_mono; [apply read_phdr_spec; [done|apply Hok; lia]| |done]. intros ? k1 [Hk ->].
  pose proof Hk as (Hi1 & Hf1 & _ & Hc1 & _). pose proof (proj1 (Hf1 v)) as Hfile. cbn [segments] in Hap |- *.
  destruct (decide (p_type (phdr_of (file k v) eh i) = PT_LOAD)) as [Hl|Hl].
  - destruct (Hok i) as (_ & _ & [Hs|[_ Hseg]]); [lia|unfold skipped in Hs; rewrite Hl in Hs; by destruct Hs as [?|[?|?]]|]. destruct Hap as [Hap1 Hap2].
    wp_bind. eapply wp_mono; [apply load_segment_spec; [done|by rewrite Hc1|by rewrite Hfile]| |done]. intros [] k2 Hw. rewrite Hfile in Hw.
    apply (only_read_wrote k) in Hw; [|done]. assert (Hfile2 : file k2 v = file k v) by apply (wr_files _ _ _ _ Hw).
    eapply wp_mono; [apply IH; [apply Hw|by rewrite (wr_cur _ _ _ _ Hw)|by rewrite Hfile2|intros j Hj; rewrite Hfile2; apply Hok; lia]| |done].
    rewrite Hfile2. intros [] k3 Hl3. by eapply loaded_cons.
  - eapply wp_mono; [apply IH; [done|by rewrite Hc1|by rewrite Hfile|intros j Hj; rewrite Hfile; apply Hok; lia]| |done].
    rewrite Hfile. intros [] k3 Hl3. eapply loaded_undisturbed; [by apply only_read_undisturbed|done].
Qed.

Lemma prepare_spec (s : vm V) v A :
  owes o s → vm_as s !! vm_cur s = Some A → as_v A = 0 → v ≠ 0 → 0 < vrefs (vm_vn s) v →
  wp (as_prepare_load (vm_cur s) v)
     (λ _ s', owes o s' ∧ vm_cur s' = vm_cur s ∧ (∀ w, fbytes (vm_vn s') w = fbytes (vm_vn s) w) ∧ ∀ a va, amem s' a va = amem s a va)
     (λ _ _, False) s.
Proof using All.
  intros [Hok Hr] HA Hv Hv0 Hp. assert (Hr0 : refs_ok s) by (intros w Hw; specialize (Hr w Hw); specialize (Howed w); lia).
  assert (Hb : wp (as_prepare_load (vm_cur s) v) (λ _ s', ∀ w, fbytes (vm_vn s') w = fbytes (vm_vn s) w) (λ _ _, False) s).
  { unfold as_prepare_load. wp_bind. eapply wp_get_as; [done|]. wp_bind. apply wp_kassert; [by rewrite Hv|]. wp_bind. apply wp_modify.
    unfold on_vnodes. apply wp_zoom. by eapply wp_mono; [apply incref_bytes|..]. }
  eapply wp_mono; [apply (wp_and _ _ _ _ _ _ (as_prepare_load_spec s (vm_cur s) A v Hok Hr0 HA Hv Hv0 Hp) Hb)| |by intros e s' []].
  intros [] s' [(Hok' & _ & Has & Hc & _ & Hvr & Hm) Hf]. split_and!; try done. split; [done|]. intros w Hw.
  rewrite Has, Hvr, (holders_update _ _ A) by done. specialize (Hr w Hw). rewrite Hv. simpl. repeat case_decide; try lia; congruence.
Qed.

Lemma load_elf_spec k v :
  owes o (mc_vm k) → vm_cur (mc_vm k) ≠ 0 → regions_left k 0 → v ≠ 0 → 0 < vrefs (vm_vn (mc_vm k)) v →
  executable (file k v) →
  wp (load_elf v)
     (λ entry k', entry = e_entry (ehdr_of (file k v)) ∧ owes o (mc_vm k') ∧ vm_cur (mc_vm k') = vm_cur (mc_vm k) ∧
        Forall (λ ph, seg_there (file k v) ph k') (program (file k v)) ∧
        ∀ a va, a ≠ vm_cur (mc_vm k) → amem (mc_vm k') a va = amem (mc_vm k) a va)
     load_error k.
Proof using All.
  intros Hi Hc Hr Hv Hp [H1 H2 H3 H4 H5]. assert (Hio : ∀ e k', io_error e k' → load_error e k') by (intros e k' [-> ?]; split; auto).
  unfold load_elf. wp_bind. eapply wp_mono; [apply read_kernel_spec; [done|done|done|exact H1]| |done]. intros d k1 [Hk ->].
  pose proof Hk as (Hi1 & Hf1 & Has1 & Hc1 & Hm1). pose proof (proj1 (Hf1 v)) as Hfile. fold (ehdr_of (file k v)). rewrite H2. cbn [negb].
  assert (Hphs : ∀ j, 0 ≤ j < 0 + Z.of_nat (Z.to_nat (e_phnum (ehdr_of (file k v)))) → phdr_ok (file k v) (ehdr_of (file k v)) j) by (intros j Hj; apply H3; lia).
  wp_bind. eapply wp_mono; [apply (define_segments_spec v (ehdr_of (file k v)) _ k1 0 0); rewrite ?Hfile; [done|unfold regions_left; by rewrite Has1, Hc1|done|unfold program in H4; lia|done]| |done].
  intros [] k2 [Hu2 (A & HA & HvA & _)]. eapply undisturbed_trans in Hu2; [|by apply only_read_undisturbed]. pose proof Hu2 as (Hi2 & Hf2 & Hc2 & Hm2).
  wp_bind. apply wp_gets. wp_bind. unfold kernel at 1. apply wp_zoom.
  eapply wp_mono; [apply (prepare_spec (mc_vm k2) v A); [done|done|done|done|by rewrite (proj2 (Hf2 v))]| |done].
  intros [] s3 (Hi3 & Hc3 & Hf3 & Hm3). set (k3 := mkmc s3 (mc_rnd k2)).
  assert (Hfile3 : file k3 v = file k v) by (unfold file at 1; cbn [mc_vm k3]; rewrite Hf3; apply (Hf2 v)).
  wp_bind. eapply wp_mono; [apply (load_segments_spec v (ehdr_of (file k v)) _ k3 0); rewrite ?Hfile3; [done|cbn; congruence|exact H5|done]| |done].
  rewrite Hfile3. intros [] k4 [L1 L2 _ L4 _ L6]. wp_bind. unfold kernel, as_complete_load. apply wp_zoom, wp_ret, wp_ret. cbn [k3 mc_vm] in L2, L6.
  replace (mkmc (mc_vm k4) (mc_rnd k4)) with k4 by by destruct k4.
  split_and!; [done|done|congruence|done|]. intros a va Ha. rewrite L6 by congruence. by rewrite Hm3, Hm2.
Qed.
End load.


(** A program of three bytes and two zeros, in vnode 5. *)
Module SmallProgram.
Definition image : list Z :=
  elf_ident ++ replicate 9 0 ++ [0; 2; 0; 8; 0; 0; 0; 1; 0; 64; 0; 0; 0; 0; 0; 52] ++ replicate 8 0 ++
  [0; 52; 0; 32; 0; 1] ++ replicate 6 0 ++
  [0; 0; 0; 1; 0; 0; 0; 84; 0; 64; 0; 0; 0; 64; 0; 0; 0; 0; 0; 3; 0; 0; 0; 5; 0; 0; 0; 5; 0; 0; 16; 0] ++
  [11; 12; 13].
Definition bytes_of (v : Z) : list Z := if v =? 5 then image else [].
#[global] Instance files : ExecFile Counts.t := {| vop_read v off n := ret ([ztake n (zdrop off (bytes_of v))], None) |}.
#[global] Program Instance files_ok : ExecFileOk Counts.t := {| fbytes _ v := bytes_of v |}.
Next Obligation.
  intros s v off n Ho Hn. apply wp_ret. cbn [fst snd concat]. rewrite app_nil_r. split_and!; try done.
  rewrite zlen_ztake_min by done. lia.
Qed.
Next Obligation. intros s v Hv. by apply wp_modify. Qed.
Definition text : Elf_Phdr := mkphdr PT_LOAD 84 4194304 3 5 5.
Definition world : machine Counts.t := mkmc SmallVm.running (λ _, 0).
Lemma world_inv : vm_inv (mc_vm world).
Proof.
  change (vm_inv SmallVm.running).
  apply (SmallVm.part_inv [(Ev_run SmallVm.junk, Some (SmallVm.value (do_event (Ev_run SmallVm.junk) SmallVm.boot)))]).
  apply (vt_ok _ _ _ SmallVm.running); [split; [reflexivity|exact SmallVm.junk_blank]|exact SmallVm.run_ok|constructor].
Qed.
Lemma image_ok : executable image.
Proof.
  split; [vm_compute; discriminate|reflexivity| | |].
  - change (e_phnum (ehdr_of image)) with 1. intros i Hi. assert (i = 0) as -> by lia. unfold phdr_ok. change (phdr_of image (ehdr_of image) 0) with text.
    split; [discriminate|]. split; [vm_compute; discriminate|]. right. split; [reflexivity|]. vm_compute. intuition discriminate.
  - vm_compute. lia.
  - change (program image) with [text]. split; [constructor|exact I].
Qed.
End SmallProgram.

