(* ===== verification/RunProgram.v ===== *)
(** * Starting a program (kern/userprog/runprogram.c)

    The way from the name of a program to its first instruction: open the
    file, make an address space, load the program, put its arguments on its
    stack and enter user mode. *)

From S2P Require Import Prelude KString Kmem KPages Coremap KHeap CopyInOut Vm UProc Trap LoadElf.

(** [vfs_open] with a path and flags, and [vfs_close]. *)
Class OpenFile (V : Type) := {
  vfs_open : list Z → Z → M V Z;
  vfs_close : Z → M V unit;
}.
Definition O_RDONLY : Z := 0.

Section run.
Context {V : Type} `{!Vref V, !ExecFile V, !OpenFile V}.
Notation K := (machine V).
Notation T := (cpu K).

(** ** Strings to the memory of the program *)

(** [copyoutstr], as in CopyInOut.v, from the kernel string [src]. *)
Fixpoint copystr_loop (src : list Z) (dest i maxlen stoplen : Z) : M K Z :=
  if (i <? maxlen) && (i <? stoplen) then
    match src with
    | [] => panic
    | c :: src' =>
        store_byte (dest + i) c ;;;
        if c =? 0 then ret (i + 1) else copystr_loop src' dest (i + 1) maxlen stoplen
    end
  else if stoplen <? maxlen then fail EFAULT
  else fail ENAMETOOLONG.
Definition copyoutstr (src : list Z) (userdest len : Z) : M K Z :=
  match copycheck userdest len with
  | None => fail EFAULT
  | Some stoplen => copystr_loop src userdest 0 len stoplen
  end.

(** ** The arguments *)

(** [length[j] = strlen(argv[j])+1] *)
Fixpoint arg_lengths (argv : list (list Z)) : option (list Z) :=
  match argv with
  | [] => Some []
  | a :: argv' => n ← strlen a; l ← arg_lengths argv'; Some (n + 1 :: l)
  end.
(** Whether a copy was done; the code does not look at it. *)
Definition attempt {A} (c : M K A) : M K bool :=
  let! r := try c in ret (match r with inl _ => false | inr _ => true end).
(** The strings, from the last argument down; [arg_pointer] is what is known of
    the array so far.  The results: whether all copies were done, the stack
    pointer and the array. *)
Fixpoint copy_strings (l : list (list Z * Z)) (stackptr : Z) (arg_pointer : list Z) : M K (bool * Z * list Z) :=
  match l with
  | [] => ret (true, stackptr, arg_pointer)
  | (a, length) :: l' =>
      let offset := length + (4 - length mod 4) in
      let stackptr := u32 (stackptr - offset) in
      let! b := attempt (copyoutstr a stackptr length) in
      let! r := copy_strings l' stackptr (stackptr :: arg_pointer) in
      ret (b && r.1.1, r.1.2, r.2)
  end.
(** The array, from its last element down: [l] is the array reversed. *)
Fixpoint copy_pointers (l : list Z) (stackptr : Z) : M K (bool * Z) :=
  match l with
  | [] => ret (true, stackptr)
  | w :: l' =>
      let stackptr := u32 (stackptr - 4) in
      let! b := attempt (copyout (byte_of w <$> [0; 1; 2; 3]) stackptr) in
      let! r := copy_pointers l' stackptr in
      ret (b && r.1, r.2)
  end.
(** The element [arg_pointer[argc]] lies behind the array; it is taken to be
    no one else's. *)
Definition copy_args (argv : list (list Z)) (length : list Z) (stackptr : Z) : M K (bool * Z) :=
  let! r := copy_strings (reverse (zip argv length)) stackptr [] in
  let! q := copy_pointers (reverse (r.2 ++ [0])) r.1.2 in
  ret (r.1.1 && q.1, q.2).
Definition put_args (as_ : Z) (argv : list (list Z)) (length : list Z) : M K (bool * Z) :=
  let! stackptr := kernel (as_define_stack as_) in
  copy_args argv length stackptr.

(** ** The program *)

Definition files {A} (c : M V A) : M K A := kernel (on_vnodes c).
(** Up to [md_usermode]; [junk] is what the block of the address space held
    before.  The results: whether the arguments were copied, the stack pointer
    and the entry point. *)
Definition load_program (junk : addrspace) (progname : list Z) (argv : list (list Z)) : M K (bool * Z * Z) :=
  match arg_lengths argv with
  | None => panic
  | Some length =>
      let! v := files (vfs_open progname O_RDONLY) in
      let! cur := gets (λ k, vm_cur (mc_vm k)) in
      kassert (cur =? 0) ;;;
      let! as_ := kernel (as_create junk) in
      kernel (modify (set_cur as_)) ;;;
      if as_ =? 0 then files (vfs_close v) ;;; fail ENOMEM
      else
        kernel (as_activate as_) ;;;
        let! r := try (load_elf v) in
        match r with
        | inl e => files (vfs_close v) ;;; fail e
        | inr entrypoint =>
            files (vfs_close v) ;;;
            let! r := put_args as_ argv length in
            ret (r, entrypoint)
        end
  end.
Definition in_machine {A} (c : M K A) : M T A :=
  zoom c_kern (λ k s, mkcpu (curspl s) (c_ie s) (in_interrupt s) (c_stack s) (badfaultfunc s) (curkstack s) k) c.
(** The registers the program starts with; [tfa] is where [md_usermode] builds
    them. *)
Definition runprogram (junk : addrspace) (progname : list Z) (argv : list (list Z)) (tfa : Z) : M T (bool * trapframe) :=
  let! r := in_machine (load_program junk progname argv) in
  let argc := zlen argv in
  let! tf := md_usermode tfa argc r.1.2 r.1.2 r.2 in
  ret (r.1.1, tf).
End run.
