(* ===== verification/RunProgramThm.v ===== *)
(** * Starting a program: what it finds *)

From S2P Require Import Prelude KString Kmem KPages Coremap KHeap KHeapSpec KHeapOps KHeapThm CopyInOut Uio SfsDisk.
From S2P Require Import Vm VmPages VmSpec VmFault VmOps VmLife VmThm UProc Trap LoadElf LoadElfThm RunProgram.

(** What is relied on in the VFS layer: opening a file to read gives a vnode
    with its contents and a reference to it, closing gives the reference
    back. *)
Class OpenFileOk (V : Type) `{!Vref V, !VrefOk V, !ExecFile V, !ExecFileOk V, !OpenFile V} := {
  contents : V → list Z → option (list Z);
  vfs_open_spec : ∀ s path,
    wp (vfs_open path O_RDONLY)
       (λ v s', v ≠ 0 ∧ contents s path = Some (fbytes s' v) ∧ ∀ w, vrefs s' w = vrefs s w + if decide (w = v) then 1 else 0)
       (λ _ s', ∀ w, vrefs s' w = vrefs s w) s;
  vfs_close_spec : ∀ s v, v ≠ 0 → 0 < vrefs s v →
    wp (vfs_close v) (λ _ s', ∀ w, vrefs s' w = vrefs s w - if decide (w = v) then 1 else 0) (λ _ _, False) s;
}.

#[local] Set Default Proof Using "All".
Section run.
Context {V : Type} `{!Vref V, !VrefOk V, !ExecFile V, !ExecFileOk V, !OpenFile V, !OpenFileOk V}.
Notation K := (machine V).
Notation T := (cpu K).
Notation free := (λ _ : Z, 0).
Implicit Types (k : K).

(** ** Copies *)

(** Only memory of the current program changed, and of that nothing outside
    [lo] to [hi] when [b] says so. *)
Definition settled k k' : Prop :=
  owes free (mc_vm k') ∧ vm_cur (mc_vm k') = vm_cur (mc_vm k) ∧
  ∀ a va, a ≠ vm_cur (mc_vm k) → amem (mc_vm k') a va = amem (mc_vm k) a va.
Definition kept k (lo hi : Z) k' : Prop := ∀ va b, ¬ (lo ≤ va < hi) → pmem k va = Some b → pmem k' va = Some b.
Definition bytes_at k (p : Z) (d : list Z) : Prop := ∀ i, 0 ≤ i < zlen d → pmem k (p + i) = zget d i.
Definition word_bytes (w : Z) : list Z := byte_of w <$> [0; 1; 2; 3].

Lemma settled_later k1 k2 k3 : settled k1 k2 → settled k2 k3 → settled k1 k3.
Proof. intros (_ & H2 & H3) (J1 & J2 & J3). split_and!; [done|congruence|]. intros a va Ha. rewrite J3 by congruence. by apply H3. Qed.
Lemma wrote_settled k base d k' : wrote free k base d k' → settled k k'.
Proof. intros [H1 H2 _ _ _ H6]. by split_and!. Qed.
Lemma wrote_bytes k base d k' : wrote free k base d k' → bytes_at k' base d ∧ kept k base (base + zlen d) k'.
Proof. intros [_ _ _ H4 H5 _]. done. Qed.
Lemma kept_below k1 k2 k3 lo mid hi : lo ≤ mid ≤ hi → kept k1 mid hi k2 → kept k2 lo mid k3 → kept k1 lo hi k3.
Proof. intros Hm H1 H2 va b Hva Hb. apply H2; [lia|]. apply H1; [lia|done]. Qed.
Lemma kept_wider k lo hi lo' hi' k' : lo' ≤ lo → hi ≤ hi' → kept k lo hi k' → kept k lo' hi' k'.
Proof. intros H1 H2 Hk va b Hva. apply Hk. lia. Qed.
Lemma kept_bytes k lo hi k' p d : kept k lo hi k' → p + zlen d ≤ lo ∨ hi ≤ p → bytes_at k p d → bytes_at k' p d.
Proof.
  intros Hk Hp Hd i Hi. destruct (zget_is_Some d i) as [b Hb]; [lia|]. rewrite Hb. apply Hk; [lia|]. rewrite <- Hb. by apply Hd.
Qed.
Lemma bytes_at_app k p d1 d2 : bytes_at k p d1 → bytes_at k (p + zlen d1) d2 → bytes_at k p (d1 ++ d2).
Proof.
  intros H1 H2 i Hi. rewrite zlen_app in Hi. destruct (decide (i < zlen d1)); [rewrite zget_app_l by done; apply H1; lia|].
  rewrite zget_app_r by lia. rewrite <- H2 by lia. f_equal. lia.
Qed.

Lemma attempt_spec {A} (c : M K A) k base d :
  wp c (λ _ k', wrote free k base d k') (stuck free k) k →
  wp (attempt c) (λ b k', settled k k' ∧ (b = true → bytes_at k' base d ∧ kept k base (base + zlen d) k')) (λ _ _, False) k.
Proof.
  intros Hc. unfold attempt. wp_bind. apply wp_try. eapply wp_mono; [exact Hc|..].
  - intros a k' Hw. apply wp_ret. split; [exact (wrote_settled _ _ _ _ Hw)|]. intros _. exact (wrote_bytes _ _ _ _ Hw).
  - intros e k' (_ & ? & ? & ?). apply wp_ret. split; [by split_and!|done].
Qed.

Lemma copystr_loop_wrote str r k dest i maxlen stoplen :
  owes free (mc_vm k) → vm_cur (mc_vm k) ≠ 0 → 0 ≤ dest + i → dest + i + zlen str < 2147483648 →
  i + zlen str < maxlen → i + zlen str < stoplen → Forall (λ c, 0 < c < 256) str →
  wp (copystr_loop (str ++ 0 :: r) dest i maxlen stoplen) (λ _ k', wrote free k (dest + i) (str ++ [0]) k') (stuck free k) k.
Proof.
  revert k i. induction str as [|c str IH]; intros k i Hi Hc Hd Hl Hm Hs Hstr; cbn [copystr_loop app].
  - rewrite zlen_nil in *. replace ((i <? maxlen) && (i <? stoplen)) with true by lia. wp_bind.
    eapply wp_mono; [apply store_byte_spec; [done|done|lia]| |done]. intros [] k1 Hw. by apply wp_ret.
  - rewrite zlen_cons in *. pose proof (zlen_nonneg str). replace ((i <? maxlen) && (i <? stoplen)) with true by lia. inversion_clear Hstr as [|? ? Hc0 Hstr'].
    wp_bind. eapply wp_mono; [apply store_byte_spec; [done|done|lia]| |done]. intros [] k1 Hw. destruct (Z.eqb_spec c 0); [lia|].
    eapply wp_mono; [apply (IH k1 (i + 1)); [apply Hw|by rewrite (wr_cur _ _ _ _ _ Hw)|lia|lia|lia|lia|done]| |intros e k'; by apply (stuck_later _ _ _ _ _ _ _ Hw)].
    intros ? k2 Hw2. apply (wrote_app _ k k1 k2 (dest + i) [c]); [done|]. change (zlen [c]) with 1. by rewrite <- Z.add_assoc.
Qed.
Lemma copyoutstr_wrote k a str p :
  owes free (mc_vm k) → vm_cur (mc_vm k) ≠ 0 → cstring a str → 0 ≤ p → p + zlen str < 2147483648 →
  wp (copyoutstr a p (zlen str + 1)) (λ _ k', wrote free k p (str ++ [0]) k') (stuck free k) k.
Proof.
  intros Hi Hc (r & -> & Hstr) Hp Hl. pose proof (zlen_nonneg str). unfold copyoutstr. rewrite copycheck_inside by lia.
  eapply wp_mono; [apply (copystr_loop_wrote str r k p 0); try done; lia| |done]. intros n k'. by rewrite Z.add_0_r.
Qed.

(** ** The arguments *)

(** What a string takes on the stack, and all arguments with their array. *)
Definition padded (str : list Z) : Z := zlen str + 1 + (4 - (zlen str + 1) mod 4).
Definition room (strs : list (list Z)) : Z := foldr (λ s n, padded s + n) 0 strs.
Definition args_size (args : list (list Z)) : Z := room args + 4 * (zlen args + 1).
Definition string_at k (p : Z) (str : list Z) : Prop := bytes_at k p (str ++ [0]).
(** The array at [sp] and the strings it points to. *)
Definition args_there k (sp : Z) (args : list (list Z)) : Prop :=
  ∃ ps, Forall2 (string_at k) ps args ∧ bytes_at k sp (concat (word_bytes <$> (ps ++ [0]))).

Lemma padded_bound str : zlen str + 1 < padded str ≤ zlen str + 5.
Proof. unfold padded. pose proof (Z.mod_pos_bound (zlen str + 1) 4). lia. Qed.
Lemma room_nonneg strs : 0 ≤ room strs.
Proof. induction strs as [|s strs IH]; cbn [room foldr]; [lia|]. fold (room strs). pose proof (padded_bound s). pose proof (zlen_nonneg s). lia. Qed.
Lemma room_app l1 l2 : room (l1 ++ l2) = room l1 + room l2.
Proof. induction l1 as [|s l1 IH]; cbn [room foldr app]; [done|]. fold (room (l1 ++ l2)) (room l1). lia. Qed.
Lemma room_reverse strs : room (reverse strs) = room strs.
Proof. induction strs as [|s strs IH]; [done|]. rewrite reverse_cons, room_app, IH. cbn [room foldr]. fold (room strs). lia. Qed.

Lemma copy_strings_spec l strs k sp acc :
  owes free (mc_vm k) → vm_cur (mc_vm k) ≠ 0 → Forall2 (λ x s, cstring x.1 s ∧ x.2 = zlen s + 1) l strs →
  room strs ≤ sp ≤ 2147483648 →
  wp (copy_strings l sp acc)
     (λ r k', settled k k' ∧ r.1.2 = sp - room strs ∧ ∃ ps, r.2 = ps ++ acc ∧ length ps = length strs ∧
        (r.1.1 = true → Forall2 (λ p s, string_at k' p s ∧ sp - room strs ≤ p) ps (reverse strs) ∧ kept k (sp - room strs) sp k'))
     (λ _ _, False) k.
Proof.
  intros Hi Hc Hl. revert k sp acc Hi Hc. induction Hl as [|[a n] str l strs [Ha Hn] Hl IH]; intros k sp acc Hi Hc Hsp; cbn [copy_strings].
  { apply wp_ret. cbn [fst snd room foldr]. split; [by split_and!|]. split; [lia|]. exists []. split_and!; [done|done|]. intros _. split; [constructor|by intros va b _]. }
  cbn [fst snd] in Ha, Hn. subst n. cbn [room foldr] in *. fold (room strs) in *. pose proof (padded_bound str). pose proof (room_nonneg strs). pose proof (zlen_nonneg str).
  fold (padded str). rewrite u32_small by lia. set (sp1 := sp - padded str). wp_bind.
  eapply wp_mono; [apply attempt_spec, (copyoutstr_wrote k a str sp1); [done|done|done|lia|lia]| |done]. intros b k1 [Hs1 Hb1].
  wp_bind. eapply wp_mono; [apply (IH k1 sp1 (sp1 :: acc)); [apply Hs1|by rewrite (proj1 (proj2 Hs1))|lia]| |done].
  intros [[b2 sp2] arr] k2 (Hs2 & Hsp2 & ps & Harr & Hlen & Hb2). cbn [fst snd] in *. apply wp_ret. cbn [fst snd].
  split; [by eapply settled_later|]. split; [lia|]. exists (ps ++ [sp1]). rewrite Harr, <- app_assoc, length_app, Hlen. split_and!; [done|cbn; lia|].
  intros [-> ->]%andb_prop. destruct (Hb1 eq_refl) as [Hst Hk1], (Hb2 eq_refl) as [Hps Hk2]. rewrite zlen_app in Hk1. change (zlen [0]) with 1 in Hk1.
  replace (sp - (padded str + room strs)) with (sp1 - room strs) by lia. split.
  - rewrite reverse_cons. apply Forall2_app; [done|]. constructor; [|constructor]. split; [|lia]. by eapply kept_bytes; [exact Hk2|right; lia|].
  - eapply (kept_below _ k1 _ _ sp1); [lia| |done].
    eapply kept_wider; [| |exact Hk1]; lia.
Qed.
Lemma word_bytes_len w : zlen (word_bytes w) = 4.
Proof. done. Qed.
Lemma pointers_len ps : zlen (concat (word_bytes <$> ps)) = 4 * zlen ps.
Proof. induction ps as [|p ps IH]; [done|]. rewrite fmap_cons. cbn [concat]. rewrite zlen_app, zlen_cons, IH, word_bytes_len. lia. Qed.
Lemma copy_pointers_spec l k sp :
  owes free (mc_vm k) → vm_cur (mc_vm k) ≠ 0 → 4 * zlen l ≤ sp ≤ 2147483648 →
  wp (copy_pointers l sp)
     (λ r k', settled k k' ∧ r.2 = sp - 4 * zlen l ∧
        (r.1 = true → bytes_at k' (sp - 4 * zlen l) (concat (word_bytes <$> reverse l)) ∧ kept k (sp - 4 * zlen l) sp k'))
     (λ _ _, False) k.
Proof.
  revert k sp. induction l as [|w l IH]; intros k sp Hi Hc Hsp; cbn [copy_pointers].
  { apply wp_ret. cbn [fst snd]. change (@zlen Z []) with 0. split; [by split_and!|]. split; [lia|]. intros _. split; [|by intros va b _].
    intros i Hz. change (zlen (concat (word_bytes <$> reverse []))) with 0 in Hz. lia. }
  rewrite zlen_cons in *. pose proof (zlen_nonneg l). rewrite u32_small by lia. wp_bind.
  eapply wp_mono; [apply attempt_spec, (copyout_wrote free k (word_bytes w) (sp - 4)); rewrite ?word_bytes_len; [done|done|lia|lia|lia]| |done]. intros b k1 [Hs1 Hb1].
  rewrite word_bytes_len in Hb1. wp_bind. eapply wp_mono; [apply (IH k1 (sp - 4)); [apply Hs1|by rewrite (proj1 (proj2 Hs1))|lia]| |done].
  intros [b2 sp2] k2 (Hs2 & Hsp2 & Hb2). cbn [fst snd] in *. apply wp_ret. cbn [fst snd]. split; [by eapply settled_later|]. split; [lia|].
  intros [-> ->]%andb_prop. destruct (Hb1 eq_refl) as [Hst Hk1], (Hb2 eq_refl) as [Hps Hk2].
  assert (Hcl : zlen (concat (word_bytes <$> reverse l)) = 4 * zlen l).
  { rewrite pointers_len. unfold zlen. by rewrite length_reverse. }
  replace (sp - 4 * (1 + zlen l)) with (sp - 4 - 4 * zlen l) by lia. split.
  - rewrite reverse_cons, fmap_app, concat_app. cbn [fmap list_fmap concat]. rewrite app_nil_r. apply bytes_at_app; [done|]. rewrite Hcl.
    replace (sp - 4 - 4 * zlen l + 4 * zlen l) with (sp - 4) by lia. eapply kept_bytes; [exact Hk2|right; lia|done].
  - eapply (kept_below _ k1 _ _ (sp - 4)); [lia| |done]. eapply kept_wider; [| |exact Hk1]; lia.
Qed.

Lemma arg_lengths_spec argv args : Forall2 cstring argv args → arg_lengths argv = Some ((λ a, zlen a + 1) <$> args).
Proof. induction 1 as [|s a argv args Ha _ IH]; [done|]. cbn [arg_lengths]. rewrite (strlen_spec s a Ha). simpl. by rewrite IH. Qed.
Lemma zip_args argv args :
  Forall2 cstring argv args → Forall2 (λ x s, cstring x.1 s ∧ x.2 = zlen s + 1) (zip argv ((λ a, zlen a + 1) <$> args)) args.
Proof. induction 1; [constructor|]. cbn. by constructor. Qed.
Lemma Forall2_reversed {A B} (P : A → B → Prop) l l' : Forall2 P l l' → Forall2 P (reverse l) (reverse l').
Proof. induction 1; [constructor|]. rewrite !reverse_cons. apply Forall2_app; [done|]. by repeat constructor. Qed.

Lemma copy_args_spec argv args k sp :
  owes free (mc_vm k) → vm_cur (mc_vm k) ≠ 0 → Forall2 cstring argv args → args_size args ≤ sp ≤ 2147483648 →
  wp (copy_args argv ((λ a, zlen a + 1) <$> args) sp)
     (λ r k', settled k k' ∧ r.2 = sp - args_size args ∧
        (r.1 = true → args_there k' (sp - args_size args) args ∧ kept k (sp - args_size args) sp k'))
     (λ _ _, False) k.
Proof.
  intros Hi Hc Ha Hsp. unfold copy_args, args_size in *. pose proof (room_nonneg args). pose proof (zlen_nonneg args).
  wp_bind. eapply wp_mono; [apply (copy_strings_spec _ (reverse args) k sp []); [done|done|by apply Forall2_reversed, zip_args|rewrite room_reverse; lia]| |done].
  rewrite room_reverse, reverse_involutive, length_reverse. intros [[b1 sp1] arr] k1 (Hs1 & -> & ps & -> & Hlen & Hb1). cbn [fst snd]. rewrite app_nil_r.
  assert (Hz : zlen (reverse (ps ++ [0])) = zlen args + 1) by (unfold zlen; rewrite length_reverse, length_app, Hlen; simpl; lia).
  wp_bind. eapply wp_mono; [apply (copy_pointers_spec _ k1); [apply Hs1|by rewrite (proj1 (proj2 Hs1))|rewrite Hz; lia]| |done].
  rewrite Hz, reverse_involutive. intros [b2 sp2] k2 (Hs2 & -> & Hb2). cbn [fst snd]. apply wp_ret. cbn [fst snd].
  replace (sp - (room args + 4 * (zlen args + 1))) with (sp - room args - 4 * (zlen args + 1)) by lia.
  split; [by eapply settled_later|]. split; [done|]. intros [-> ->]%andb_prop. destruct (Hb1 eq_refl) as [Hst Hk1], (Hb2 eq_refl) as [Hps Hk2].
  split; [|by eapply kept_below; [|exact Hk1|exact Hk2]; lia].
  exists ps. split; [|done]. eapply Forall2_impl; [exact Hst|]. intros p s [Hp Hlo]. eapply kept_bytes; [exact Hk2|right; lia|done].
Qed.

(** ** The program *)

(** Everything but the vnodes. *)
Lemma files_spec {A} (c : M V A) k Q E :
  wp c (λ a s, Q a (mkmc (set_vns s (mc_vm k)) (mc_rnd k))) (λ e s, E e (mkmc (set_vns s (mc_vm k)) (mc_rnd k))) (vm_vn (mc_vm k)) →
  wp (files c) Q E k.
Proof. intros Hc. unfold files, kernel, on_vnodes. by apply wp_zoom, wp_zoom. Qed.
Definition only (v w : Z) : Z := if decide (w = v) then 1 else 0.
Lemma open_owes k v s : owes free (mc_vm k) → (∀ w, vrefs s w = vrefs (vm_vn (mc_vm k)) w + only v w) → owes (only v) (set_vns s (mc_vm k)).
Proof. intros [Hok Hr] Hs. split; [by apply vm_ok_vns|]. intros w Hw. cbn. rewrite Hs. specialize (Hr w Hw). lia. Qed.
Lemma owes_ref v s : v ≠ 0 → owes (only v) s → 0 < vrefs (vm_vn s) v.
Proof. intros Hv [_ Hr]. specialize (Hr v Hv). unfold only in Hr. rewrite decide_True in Hr by done. pose proof (holders_nonneg (vm_as s) v). lia. Qed.
(** Closing the file gives the reference of the kernel back. *)
Lemma close_spec k v :
  v ≠ 0 → owes (only v) (mc_vm k) →
  wp (files (vfs_close v)) (λ _ k', ∃ s, k' = mkmc (set_vns s (mc_vm k)) (mc_rnd k) ∧ owes free (mc_vm k')) (λ _ _, False) k.
Proof.
  intros Hv Hi. apply files_spec. eapply wp_mono; [apply vfs_close_spec; [done|by apply owes_ref]| |done]. intros [] s Hs.
  exists s. split; [done|]. destruct Hi as [Hok Hr]. split; [by apply vm_ok_vns|]. intros w Hw. cbn. rewrite Hs. specialize (Hr w Hw). unfold only in Hr. lia.
Qed.

(** A new address space, made current. *)
Lemma create_spec o s junk :
  owes o s → blank junk →
  wp (as_create junk)
     (λ a s', owes o s' ∧ vm_vn s' = vm_vn s ∧ (∀ a' va, amem s' a' va = amem s a' va) ∧
        (a ≠ 0 → vm_as s !! a = None ∧ vm_as s' = <[a := fresh_as junk]> (vm_as s)))
     (λ _ _, False) s.
Proof.
  intros [Hok Hr] Hb. eapply wp_mono; [by apply as_create_spec| |done]. intros a s' (Hok' & (_ & _ & _ & Hvn & Hm) & Hcase).
  split; [|split; [done|]; split; [done|]; intros Ha; destruct Hcase as [[? _]|(_ & ? & ? & _)]; done].
  split; [done|]. intros v Hv. rewrite Hvn. destruct Hcase as [[_ ->]|(_ & Hn & -> & _)]; [by apply Hr|].
  rewrite holders_insert, decide_False by done. specialize (Hr v Hv). lia.
Qed.
Lemma activate_spec o s a :
  owes o s → is_Some (vm_as s !! a) →
  wp (as_activate a)
     (λ _ s', owes o s' ∧ vm_cur s' = a ∧ vm_vn s' = vm_vn s ∧ vm_as s' = vm_as s ∧ ∀ a' va, amem s' a' va = amem s a' va)
     (λ _ _, False) (set_cur a s).
Proof.
  intros [Hok Hr] Ha. eapply wp_mono; [apply (as_activate_spec (set_cur a s)); exact (vo_len _ Hok)| |done]. intros [] s' (l & -> & Hl & Hall).
  split; [split; [by apply vm_ok_flushed|exact Hr]|]. by split_and!.
Qed.

(** The program runs in a new address space, and nothing else changed. *)
Definition new_program k k' : Prop :=
  vm_cur (mc_vm k') ≠ 0 ∧ vm_as (mc_vm k) !! vm_cur (mc_vm k') = None ∧
  ∀ a va, a ≠ vm_cur (mc_vm k') → amem (mc_vm k') a va = amem (mc_vm k) a va.
(** Segments below the arguments. *)
Definition program_there (f : list Z) k (sp : Z) : Prop :=
  Forall (λ ph, p_vaddr ph + p_memsz ph ≤ sp → seg_there f ph k) (program f).
(** From the program loaded to its arguments copied. *)
Lemma put_args_spec argv args k f :
  vm_inv (mc_vm k) → vm_cur (mc_vm k) ≠ 0 → Forall2 cstring argv args → args_size args ≤ USERSTACK →
  Forall (λ ph, seg_ok f ph) (program f) → Forall (λ ph, seg_there f ph k) (program f) →
  wp (put_args (vm_cur (mc_vm k)) argv ((λ a, zlen a + 1) <$> args))
     (λ r k', settled k k' ∧ r.2 = USERSTACK - args_size args ∧
        (r.1 = true → args_there k' (USERSTACK - args_size args) args ∧ program_there f k' (USERSTACK - args_size args)))
     (λ _ _, False) k.
Proof.
  intros Hi Hc Ha Hsz Hok Hp. pose proof Hi as [Hvm _]. destruct (vo_cur _ Hvm Hc) as [A HA]. unfold put_args. wp_bind. unfold kernel at 1. apply wp_zoom.
  eapply wp_mono; [by apply as_define_stack_spec| |done]. intros sp s1 (Hok1 & -> & Hb). pose proof Hb as (_ & Hc1 & _ & _ & _ & Hm1).
  set (k1 := mkmc s1 (mc_rnd k)). assert (Hi1 : vm_inv (mc_vm k1)) by (eapply became_inv; [exact Hi|done|exact HA|exact Hb|done]).
  eapply wp_mono; [apply (copy_args_spec _ _ k1); [by apply owes_nothing|cbn; congruence|done|change USERSTACK with 2147483648 in *; lia]| |done].
  intros r k2 (Hs & Hr & Hb2). split; [eapply settled_later; [|exact Hs]; split_and!; [by apply owes_nothing|done|intros; apply Hm1]|]. split; [done|].
  intros Hrt. destruct (Hb2 Hrt) as [Hargs Hk]. split; [done|]. unfold program_there. apply Forall_forall. intros ph Hph Hlow i Hi'.
  pose proof (proj1 (Forall_forall _ _) Hok ph Hph) as Hseg. destruct (zget_is_Some (seg_data f ph) i) as [b Hbi]; [by rewrite seg_data_len|]. rewrite Hbi.
  apply Hk; [lia|]. unfold pmem. cbn [mc_vm k1]. rewrite Hc1, Hm1, <- Hbi. exact (proj1 (Forall_forall _ _) Hp ph Hph i Hi').
Qed.

Lemma segments_ok f eh n i :
  (∀ j, i ≤ j < i + Z.of_nat n → phdr_ok f eh j) → Forall (λ ph, seg_ok f ph) (segments f eh n i).
Proof.
  revert i. induction n as [|n IH]; intros i Hj; cbn [segments]; [constructor|].
  assert (Hrec : Forall (λ ph, seg_ok f ph) (segments f eh n (i + 1))) by (apply IH; intros j Hr; apply Hj; lia).
  case_decide as Hl; [|done]. constructor; [|done]. destruct (Hj i) as (_ & _ & [Hs|[_ Hs]]); [lia| |done].
  rewrite Hl in Hs. by destruct Hs as [?|[?|?]].
Qed.
Lemma program_ok f : executable f → Forall (λ ph, seg_ok f ph) (program f).
Proof. intros [_ _ H _ _]. apply segments_ok. intros j Hj. apply H. lia. Qed.

Lemma load_program_spec junk progname argv args k :
  vm_inv (mc_vm k) → vm_cur (mc_vm k) = 0 → blank junk → Forall2 cstring argv args → args_size args ≤ USERSTACK →
  (∀ f, contents (vm_vn (mc_vm k)) progname = Some f → executable f) →
  wp (load_program junk progname argv)
     (λ r k', ∃ f, contents (vm_vn (mc_vm k)) progname = Some f ∧ r.2 = e_entry (ehdr_of f) ∧ r.1.2 = USERSTACK - args_size args ∧
        vm_inv (mc_vm k') ∧ new_program k k' ∧ (r.1.1 = true → args_there k' r.1.2 args ∧ program_there f k' r.1.2))
     (λ _ k', vm_inv (mc_vm k')) k.
Proof.
  intros Hi Hc Hb Ha Hsz Hex. unfold load_program. rewrite (arg_lengths_spec argv args Ha). apply owes_nothing in Hi as Ho.
  wp_bind. apply files_spec. eapply wp_mono; [apply vfs_open_spec|..]; cycle 1.
  { intros e s Hs. apply owes_nothing. destruct Ho as [Hok Hr]. split; [by apply vm_ok_vns|]. intros w Hw. cbn. rewrite Hs. by apply Hr. }
  intros v s1 (Hv & Hf & Hs1). set (f := fbytes s1 v) in *. specialize (Hex f Hf). pose proof (open_owes k v s1 Ho Hs1) as Ho1.
  wp_bind. apply wp_gets. cbn [mc_vm set_vns vm_cur]. wp_bind. apply wp_kassert; [by rewrite Hc|].
  wp_bind. unfold kernel at 1. apply wp_zoom. eapply wp_mono; [by apply (create_spec (only v))| |done]. intros a s2 (Ho2 & Hvn2 & Hm2 & Hnew).
  wp_bind. unfold kernel at 1. apply wp_zoom, wp_modify. cbn [mc_vm mc_rnd] in *. destruct (Z.eqb_spec a 0) as [->|Ha0].
  { wp_bind. eapply wp_mono; [apply close_spec; [done|]| |done]; [|intros [] k' (s & _ & Hk'); by apply wp_fail, owes_nothing].
    destruct Ho2 as [Hok2 Hr2]. split; [by apply vm_ok_idle|exact Hr2]. }
  destruct (Hnew Ha0) as [Hnone Has2]. wp_bind. unfold kernel at 1. apply wp_zoom. cbn [mc_vm mc_rnd].
  eapply wp_mono; [apply (activate_spec (only v)); [done|rewrite Has2, lookup_insert_eq; eauto]| |done]. intros [] s3 (Ho3 & Hc3 & Hvn3 & Has3 & Hm3).
  set (k3 := mkmc s3 (mc_rnd k)). assert (Hf3 : file k3 v = f) by (unfold file; cbn; by rewrite Hvn3, Hvn2).
  wp_bind. apply wp_try. eapply wp_mono; [apply (load_elf_spec (only v)); [intros w; unfold only; case_decide; lia|done|cbn; congruence| |done|by apply owes_ref|by rewrite Hf3]|..].
  { exists (fresh_as junk). cbn. by rewrite Has3, Has2, Hc3, lookup_insert_eq. }
  2: { intros e k4 [_ Ho4]. wp_bind. eapply wp_mono; [by apply close_spec| |done]. intros [] k' (s & _ & Hk'). by apply wp_fail, owes_nothing. }
  rewrite Hf3. intros entry k4 (-> & Ho4 & Hc4 & Hp4 & Hm4). wp_bind. eapply wp_mono; [by apply close_spec| |done]. intros [] k5 (s5 & -> & Hi5%owes_nothing).
  cbn [k3 mc_vm] in Hc4, Hm4. rewrite Hc3 in Hc4, Hm4. set (k5 := mkmc (set_vns s5 (mc_vm k4)) (mc_rnd k4)) in *.
  assert (Hc5 : vm_cur (mc_vm k5) = a) by done. rewrite <- Hc5 at 1.
  wp_bind. eapply wp_mono; [apply (put_args_spec argv args k5 f); try done; [congruence|by apply program_ok]| |done].
  intros [b sp] k6 (Hs & Hsp & Hargs). cbn [fst snd] in *. subst sp. apply wp_ret. exists f. pose proof Hs as (Hi6%owes_nothing & Hc6 & Hm6).
  split_and!; try done. split_and!; [congruence|by rewrite Hc6, Hc5|]. intros a' va Ha'. rewrite Hc6, Hc5 in Ha'.
  rewrite Hm6 by congruence. change (amem (mc_vm k4) a' va = amem (mc_vm k) a' va). rewrite Hm4, Hm3, Hm2 by done. done.
Qed.

Lemma usermode_spec tfa argc argv stack entry (s : T) :
  SAME_STACK (curkstack s - 1) tfa = true →
  wp (md_usermode tfa argc argv stack entry)
     (λ tf s', tf = mktf 0 (Z.lor (Z.lor CST_IRQMASK CST_IEp) CST_KUp) 0 0 argc argv 0 0 stack entry (replicate 27 0) ∧
        curspl s' = 0 ∧ c_kern s' = c_kern s) (λ _ _, False) s.
Proof.
  intros Hst. unfold wp, md_usermode, mips_usermode, splhigh, splx, bind, get, put, modify, kassert, ret. cbn [set_curspl curkstack]. rewrite Hst. done.
Qed.
Lemma Forall2_zlen {A B} (P : A → B → Prop) l l' : Forall2 P l l' → zlen l = zlen l'.
Proof. intros H. unfold zlen. f_equal. by eapply Forall2_length. Qed.

End run.

(** The program of vnode 5 under the name ["p"], run with two arguments. *)
Module SmallRun.
Definition path : list Z := [112; 0].
#[global] Instance opens : OpenFile Counts.t := {|
  vfs_open p _ := if bool_decide (p = path) then Counts.add 1 5 ;;; ret 5 else fail ENOENT;
  vfs_close v := Counts.add (-1) v;
|}.
#[global] Program Instance opens_ok : OpenFileOk Counts.t := {|
  contents _ p := if bool_decide (p = path) then Some SmallProgram.image else None |}.
Next Obligation.
  intros s p. unfold vfs_open, opens. case_bool_decide; [|by apply wp_fail]. wp_bind. apply wp_modify, wp_ret. split; [done|]. split; [done|].
  intros w. unfold vrefs. simpl. by rewrite Counts.add_count.
Qed.
Next Obligation. intros s v _ _. apply wp_modify. intros w. unfold vrefs. simpl. rewrite Counts.add_count. case_decide; lia. Qed.
(** Twenty pages of memory. *)
Definition pages : vmem := mkvmem 2147487744 20 8192 (replicate 20 SmallMem.free) 4096 90112.
Lemma run_pages_small : small_memory pages.
Proof.
  split; [|discriminate]. split; try done. intros i e He. apply (zget_replicate 20) in He as ->. simpl. split; [done|]. intros j Hj. lia.
Qed.
Definition boot : vm Counts.t := vm_boot pages (λ _, 7) (replicate (Z.to_nat NUM_TLB) (0, 0)) ∅.
Lemma run_boot_inv : vm_inv boot.
Proof.
  apply (reachable_inv pages (λ _, 7) (replicate (Z.to_nat NUM_TLB) (0, 0)) ∅ []); [exact run_pages_small|reflexivity| |constructor].
  intros v. unfold vrefs. simpl. unfold Counts.count. by rewrite lookup_empty.
Qed.
Definition world : cpu (machine Counts.t) := mkcpu 0 true 0 4096 0 8192 (mkmc boot (λ _, 0)).
Definition argv : list (list Z) := [[112; 0]; [45; 120; 0; 7]].
Definition args : list (list Z) := [[112]; [45; 120]].
Definition copied (o : outcome (cpu (machine Counts.t)) (bool * trapframe)) : bool := match o with Ok r _ => r.1 | _ => false end.
Lemma argv_ok : Forall2 cstring argv args.
Proof. repeat constructor; [exists []|exists [7]]; (split; [reflexivity|]); repeat constructor. Qed.
(** There is memory enough for the arguments. *)
Lemma all_copied : copied (runprogram SmallVm.junk path argv 8000 world) = true.
Proof. vm_compute. reflexivity. Qed.
End SmallRun.

