(* ===== verification/UserSort.v ===== *)
(** * The sorting test (testbin/sort/sort.c)

    The program that stresses the virtual memory by sorting an array larger
    than memory: it sorts the halves of the array and merges them through a
    static buffer that all calls share. *)

From stdpp Require Import sorting.
From S2P Require Import Prelude.

Definition SIZE : Z := 144 * 1024.

(** The arrays [A] and [tmp]. *)
Record memory := mkmemory { arr : list Z; tmp : list Z }.

(** [arr[i]], [tmp[k] = x]; outside of the arrays the program is stopped. *)
Definition ld (i : Z) : M memory Z :=
  let! s := get in match zget (arr s) i with Some x => ret x | None => panic end.
Definition st_tmp (k x : Z) : M memory unit :=
  let! s := get in
  if (0 <=? k) && (k <? zlen (tmp s)) then put (mkmemory (arr s) (zset (tmp s) k x)) else panic.

(** [tmp[k++] = arr[i++]] while [i<stop]; [b] is where the array of the call
    starts. *)
Fixpoint copy_rest (fuel : nat) (b i stop k : Z) : M memory Z :=
  if i <? stop then
    match fuel with
    | O => hang
    | S fuel' => let! x := ld (b + i) in st_tmp k x ;;; copy_rest fuel' b (i + 1) stop (k + 1)
    end
  else ret k.
(** The first loop; the results are [i], [j] and [k]. *)
Fixpoint merge_loop (fuel : nat) (b pivot size i j k : Z) : M memory (Z * Z * Z) :=
  if (i <? pivot) && (j <? size) then
    match fuel with
    | O => hang
    | S fuel' =>
        let! x := ld (b + i) in
        let! y := ld (b + j) in
        if x <? y then st_tmp k x ;;; merge_loop fuel' b pivot size (i + 1) j (k + 1)
        else st_tmp k y ;;; merge_loop fuel' b pivot size i (j + 1) (k + 1)
    end
  else ret (i, j, k).
Definition memcpy_tmp (b size : Z) : M memory unit :=
  let! s := get in
  if (b + size <=? zlen (arr s)) && (size <=? zlen (tmp s))
  then put (mkmemory (splice (arr s) b (ztake size (tmp s))) (tmp s)) else panic.
Definition merge_halves (b pivot size : Z) : M memory unit :=
  let! r := merge_loop (Z.to_nat size) b pivot size 0 pivot 0 in
  let '(i, j, k) := r in
  let! k := copy_rest (Z.to_nat size) b i pivot k in
  let! k := copy_rest (Z.to_nat size) b j size k in
  memcpy_tmp b size.

(** [sort(&A[b], size)] *)
Fixpoint sort (fuel : nat) (b size : Z) : M memory unit :=
  if size <? 2 then ret tt
  else
    match fuel with
    | O => hang
    | S fuel' =>
        let pivot := size / 2 in
        sort fuel' b pivot ;;;
        sort fuel' (b + pivot) (size - pivot) ;;;
        merge_halves b pivot size
    end.

(** [initarray] with what [random] gives, [check] and [main]: whether the
    program passes. *)
Definition initarray (random : nat → Z) : M memory unit :=
  modify (λ s, mkmemory (random <$> seq 0 (Z.to_nat SIZE)) (tmp s)).
Fixpoint check (fuel : nat) (i : Z) : M memory bool :=
  if i <? SIZE - 1 then
    match fuel with
    | O => hang
    | S fuel' =>
        let! x := ld i in
        let! y := ld (i + 1) in
        if x >? y then ret false else check fuel' (i + 1)
    end
  else ret true.
Definition main (random : nat → Z) : M memory bool :=
  initarray random ;;;
  sort (Z.to_nat SIZE) 0 SIZE ;;;
  check (Z.to_nat SIZE) 0.

(** ** The loops *)

Lemma ld_spec i x s : zget (arr s) i = Some x → ld i s = Ok x s.
Proof. intros Hx. unfold ld, bind, get. by rewrite Hx. Qed.
Lemma st_tmp_spec a t1 y t2 x : st_tmp (zlen t1) x (mkmemory a (t1 ++ y :: t2)) = Ok tt (mkmemory a ((t1 ++ [x]) ++ t2)).
Proof.
  unfold st_tmp, bind, get, put. cbn [arr tmp]. rewrite zlen_app, zlen_cons. pose proof (zlen_nonneg t1). pose proof (zlen_nonneg t2).
  replace ((0 <=? zlen t1) && (zlen t1 <? zlen t1 + (1 + zlen t2))) with true by lia. f_equal. f_equal. rewrite <- app_assoc.
  unfold zset, zlen. rewrite decide_True by lia. rewrite Nat2Z.id. by rewrite insert_app_r_alt, Nat.sub_diag by lia.
Qed.

(** The elements [xs] of the array lie at [p]. *)
Definition lies (a : list Z) (p : Z) (xs : list Z) : Prop := ∀ n, 0 ≤ n < zlen xs → zget a (p + n) = zget xs n.
Lemma lies_cons a p x xs : lies a p (x :: xs) → zget a p = Some x ∧ lies a (p + 1) xs.
Proof.
  intros H. rewrite <- (Z.add_0_r p) at 1. split; [apply (H 0); rewrite zlen_cons; pose proof (zlen_nonneg xs); lia|].
  intros n Hn. rewrite <- Z.add_assoc, H by (rewrite zlen_cons; lia). change (x :: xs) with ([x] ++ xs). rewrite zget_app_r by (change (zlen [x]) with 1; lia).
  f_equal. change (zlen [x]) with 1. lia.
Qed.

Lemma copy_rest_spec fuel a b i xs t1 t2 t3 :
  lies a (b + i) xs → zlen t2 = zlen xs → (length xs ≤ fuel)%nat →
  copy_rest fuel b i (i + zlen xs) (zlen t1) (mkmemory a (t1 ++ t2 ++ t3)) = Ok (zlen (t1 ++ xs)) (mkmemory a ((t1 ++ xs) ++ t3)).
Proof.
  revert i xs t1 t2. induction fuel as [|fuel IH]; intros i xs t1 t2 Hl Ht Hf.
  - destruct xs; [|simpl in Hf; lia]. rewrite (zlen_0_nil t2 Ht), app_nil_r. cbn [copy_rest]. rewrite zlen_nil, Z.add_0_r, Z.ltb_irrefl. done.
  - cbn [copy_rest]. destruct xs as [|x xs]; [rewrite (zlen_0_nil t2 Ht), app_nil_r, zlen_nil, Z.add_0_r, Z.ltb_irrefl; done|].
    destruct t2 as [|y t2]; [rewrite zlen_cons, zlen_nil in Ht; pose proof (zlen_nonneg xs); lia|]. rewrite !zlen_cons in *. pose proof (zlen_nonneg xs).
    replace (i <? i + (1 + zlen xs)) with true by lia. apply lies_cons in Hl as [Hx Hl]. unfold bind at 1. rewrite (ld_spec _ x) by done.
    unfold bind at 1. rewrite <- app_comm_cons, st_tmp_spec. replace (zlen t1 + 1) with (zlen (t1 ++ [x])) by (rewrite zlen_app; done).
    replace (i + (1 + zlen xs)) with (i + 1 + zlen xs) by lia.
    rewrite IH; [by rewrite <- app_assoc|by rewrite <- Z.add_assoc in Hl|lia|simpl in Hf; lia].
Qed.

(** What the first loop leaves to the other two. *)
Record merged (a : list Z) (b pivot size i j : Z) (rest xs ys : list Z) : Prop := {
  mg_i : lies a (b + i) xs ∧ i + zlen xs = pivot;
  mg_j : lies a (b + j) ys ∧ j + zlen ys = size;
  mg_rest : zlen rest = zlen xs + zlen ys;
}.
Lemma merge_loop_spec fuel a b pivot size i j t1 t2 t3 xs ys :
  merged a b pivot size i j t2 xs ys → (length xs + length ys ≤ fuel)%nat →
  ∃ i' j' out t2' xs' ys', merge_loop fuel b pivot size i j (zlen t1) (mkmemory a (t1 ++ t2 ++ t3)) =
      Ok (i', j', zlen (t1 ++ out)) (mkmemory a ((t1 ++ out) ++ t2' ++ t3)) ∧
    merged a b pivot size i' j' t2' xs' ys' ∧ list_merge (≤) ys xs = out ++ xs' ++ ys'.
Proof.
  revert i j t1 t2 xs ys. induction fuel as [|fuel IH]; intros i j t1 t2 xs ys Hm Hf; pose proof Hm as [[Hx Hi] [Hy Hj] Hr]; cbn [merge_loop].
  all: destruct xs as [|x xs]; [rewrite zlen_nil in *; replace (i <? pivot) with false by lia; cbn [andb];
         exists i, j, [], t2, [], ys; rewrite app_nil_r, list_merge_nil_r; done|].
  all: destruct ys as [|y ys]; [rewrite zlen_nil in *; replace (j <? size) with false by lia; rewrite andb_false_r;
         exists i, j, [], t2, (x :: xs), []; rewrite !app_nil_r, list_merge_nil_l; done|].
  { simpl in Hf. lia. }
  destruct t2 as [|z t2]; [rewrite !zlen_cons, zlen_nil in Hr; pose proof (zlen_nonneg xs); pose proof (zlen_nonneg ys); lia|].
  rewrite !zlen_cons in *. pose proof (zlen_nonneg xs). pose proof (zlen_nonneg ys). replace ((i <? pivot) && (j <? size)) with true by lia.
  pose proof (lies_cons _ _ _ _ Hx) as [Hx0 Hx']. pose proof (lies_cons _ _ _ _ Hy) as [Hy0 Hy'].
  unfold bind at 1. rewrite (ld_spec _ x) by done. unfold bind at 1. rewrite (ld_spec _ y) by done. rewrite list_merge_cons. simpl in Hf.
  destruct (Z.ltb_spec x y) as [Hlt|Hge]; unfold bind at 1; rewrite <- app_comm_cons, st_tmp_spec.
  all: replace (zlen t1 + 1) with (zlen (t1 ++ [x])) by (rewrite zlen_app; done).
  - destruct (IH (i + 1) j (t1 ++ [x]) t2 xs (y :: ys)) as (i' & j' & out & t2' & xs' & ys' & -> & Hm' & Hl); [|simpl; lia|].
    { split; [by rewrite Z.add_assoc; split; [|lia]|by rewrite zlen_cons; split; [|lia]|rewrite zlen_cons; lia]. }
    exists i', j', (x :: out), t2', xs', ys'. rewrite <- !app_assoc in *. rewrite decide_False by lia. split_and!; [done|done|]. simpl. by rewrite Hl.
  - change (zlen (t1 ++ [x])) with (zlen (t1 ++ [y])) || (replace (zlen (t1 ++ [x])) with (zlen (t1 ++ [y])) by (rewrite !zlen_app; done)).
    destruct (IH i (j + 1) (t1 ++ [y]) t2 (x :: xs) ys) as (i' & j' & out & t2' & xs' & ys' & -> & Hm' & Hl); [|simpl; lia|].
    { split; [by rewrite zlen_cons; split; [|lia]|by rewrite Z.add_assoc; split; [|lia]|rewrite zlen_cons; lia]. }
    exists i', j', (y :: out), t2', xs', ys'. rewrite <- !app_assoc in *. rewrite decide_True by lia. split_and!; [done|done|]. simpl. by rewrite Hl.
Qed.
Lemma lies_app l1 xs l2 : lies (l1 ++ xs ++ l2) (zlen l1) xs.
Proof. intros n Hn. rewrite zget_app_r by lia. rewrite zget_app_l by lia. f_equal. lia. Qed.
Lemma splice_mid (l1 l m l2 : list Z) : zlen m = zlen l → splice (l1 ++ l ++ l2) (zlen l1) m = l1 ++ m ++ l2.
Proof.
  intros Hm. unfold splice, ztake, zdrop, zlen in *. rewrite Nat2Z.id, take_app_length.
  replace (Z.to_nat (Z.of_nat (length l1) + Z.of_nat (length m))) with (length l1 + length l)%nat by lia. by rewrite <- drop_drop, !drop_app_length.
Qed.
Lemma merge_halves_spec l1 xs ys l2 t b pivot size :
  b = zlen l1 → pivot = zlen xs → size = zlen xs + zlen ys → size ≤ zlen t →
  ∃ t', merge_halves b pivot size (mkmemory (l1 ++ xs ++ ys ++ l2) t) = Ok tt (mkmemory (l1 ++ list_merge (≤) ys xs ++ l2) t') ∧ zlen t' = zlen t.
Proof.
  intros -> -> -> Ht. pose proof (zlen_nonneg xs). pose proof (zlen_nonneg ys). remember (zlen xs + zlen ys) as size eqn:Hsize. set (a := l1 ++ xs ++ ys ++ l2).
  assert (Hz : (length xs + length ys = Z.to_nat size)%nat) by (unfold zlen in *; lia).
  assert (Hm : merged a (zlen l1) (zlen xs) size 0 (zlen xs) (ztake size t) xs ys).
  { split; [split; [rewrite Z.add_0_r; apply lies_app|lia]| |rewrite zlen_ztake; lia]. split; [|done].
    unfold a. rewrite <- zlen_app, app_assoc. apply (lies_app (l1 ++ xs) ys l2). }
  destruct (merge_loop_spec (Z.to_nat size) a _ _ _ _ _ [] _ (zdrop size t) _ _ Hm) as (i & j & out & t2 & xs' & ys' & Hrun & [[Hx Hi] [Hy Hj] Hr] & Hl); [lia|].
  rewrite !app_nil_l, ztake_zdrop in Hrun. change (@zlen Z []) with 0 in Hrun. pose proof (zlen_nonneg xs'). pose proof (zlen_nonneg ys').
  assert (Hlen : zlen (list_merge (≤) ys xs) = size) by (rewrite Hsize; unfold zlen; rewrite (merge_Permutation (≤) ys xs), length_app; lia).
  assert (Hlo : zlen out + zlen xs' + zlen ys' = size) by (rewrite <- Hlen, Hl, !zlen_app; lia).
  assert (Hfx : (length xs' ≤ Z.to_nat size)%nat) by (unfold zlen in *; lia). assert (Hfy : (length ys' ≤ Z.to_nat size)%nat) by (unfold zlen in *; lia).
  exists (list_merge (≤) ys xs ++ zdrop size t). split; [|rewrite zlen_app, Hlen, zlen_zdrop; lia].
  unfold merge_halves, bind at 1. rewrite Hrun. rewrite <- (take_drop (length xs') t2), <- app_assoc.
  unfold bind at 1. rewrite <- Hi at 1. rewrite (copy_rest_spec _ a _ i xs') by (done || (unfold zlen in *; rewrite length_take; lia)).
  unfold bind at 1. replace (copy_rest (Z.to_nat size) (zlen l1) j size) with (copy_rest (Z.to_nat size) (zlen l1) j (j + zlen ys')) by by rewrite Hj.
  rewrite (copy_rest_spec _ a _ j ys') by (done || (unfold zlen in *; rewrite length_drop; lia)).
  rewrite <- app_assoc, <- app_assoc. rewrite (app_assoc xs'), (app_assoc out), <- Hl.
  unfold memcpy_tmp, bind, get, put. cbn [arr tmp]. rewrite zlen_app, Hlen. pose proof (zlen_nonneg (zdrop size t)).
  assert (Ha : zlen l1 + size ≤ zlen a) by (unfold a; rewrite !zlen_app; pose proof (zlen_nonneg l2); lia).
  replace ((zlen l1 + size <=? zlen a) && (size <=? size + zlen (zdrop size t))) with true by lia.
  f_equal. f_equal.
  assert (ztake size (list_merge (≤) ys xs ++ zdrop size t) = list_merge (≤) ys xs) as ->.
  { rewrite <- Hlen. unfold ztake, zlen. by rewrite Nat2Z.id, take_app_length. }
  unfold a. replace (l1 ++ xs ++ ys ++ l2) with (l1 ++ (xs ++ ys) ++ l2) by by rewrite <- app_assoc.
  apply splice_mid. rewrite Hlen, zlen_app. done.
Qed.

Lemma sort_spec fuel b size l1 l l2 t :
  b = zlen l1 → size = zlen l → size ≤ zlen t → (length l ≤ fuel)%nat →
  ∃ l' t', sort fuel b size (mkmemory (l1 ++ l ++ l2) t) = Ok tt (mkmemory (l1 ++ l' ++ l2) t') ∧
    Sorted (≤) l' ∧ l' ≡ₚ l ∧ zlen t' = zlen t.
Proof.
  revert b size l1 l l2 t. induction fuel as [|fuel IH]; intros b size l1 l l2 t -> -> Ht Hf; cbn [sort].
  all: destruct (Z.ltb_spec (zlen l) 2) as [Hs|Hs];
    [exists l, t; split_and!; try done; destruct l as [|x [|y l]]; [constructor|repeat constructor|rewrite !zlen_cons in Hs; pose proof (zlen_nonneg l); lia]|].
  { unfold zlen in Hs. lia. }
  set (p := zlen l / 2). assert (Hp : 1 ≤ p < zlen l) by (unfold p; Z.div_mod_to_equations; lia).
  set (xs := ztake p l). set (ys := zdrop p l). assert (Hl : l = xs ++ ys) by (symmetry; apply ztake_zdrop).
  replace (l1 ++ l ++ l2) with (l1 ++ xs ++ ys ++ l2) by (rewrite Hl, <- app_assoc; done).
  assert (Hx : zlen xs = p) by (apply zlen_ztake; lia). assert (Hy : zlen ys = zlen l - p) by (unfold ys; rewrite zlen_zdrop; lia).
  destruct (IH (zlen l1) p l1 xs (ys ++ l2) t) as (xs' & t1 & Hr1 & Hs1 & Hp1 & Ht1); [done|done|lia|unfold zlen in *; lia|].
  assert (Hx' : zlen xs' = p) by (rewrite <- Hx; unfold zlen; by rewrite Hp1).
  destruct (IH (zlen l1 + p) (zlen l - p) (l1 ++ xs') ys l2 t1) as (ys' & t2 & Hr2 & Hs2 & Hp2 & Ht2); [rewrite zlen_app; lia|done|lia|unfold zlen in *; lia|].
  assert (Hy' : zlen ys' = zlen l - p) by (rewrite <- Hy; unfold zlen; by rewrite Hp2).
  destruct (merge_halves_spec l1 xs' ys' l2 t2 (zlen l1) p (zlen l)) as (t3 & Hr3 & Ht3); [done|done|lia|lia|].
  exists (list_merge (≤) ys' xs'), t3. unfold bind at 1. rewrite Hr1. unfold bind at 1. rewrite <- !app_assoc in Hr2. rewrite Hr2, Hr3.
  split_and!; [done|apply (Sorted_list_merge (≤)); done| |lia]. rewrite (merge_Permutation (≤) ys' xs'), Hp1, Hp2, Hl. apply Permutation_app_comm.
Qed.

(** ** The program *)

Lemma check_spec fuel l1 x l t :
  zlen (l1 ++ x :: l) = SIZE → Sorted (≤) (x :: l) → (length l ≤ fuel)%nat →
  check fuel (zlen l1) (mkmemory (l1 ++ x :: l) t) = Ok true (mkmemory (l1 ++ x :: l) t).
Proof.
  revert l1 x l. induction fuel as [|fuel IH]; intros l1 x l Hz Hs Hf; cbn [check]; rewrite <- Hz, zlen_app, zlen_cons.
  all: destruct l as [|y l]; [rewrite zlen_nil; replace (zlen l1 <? zlen l1 + (1 + 0) - 1) with false by lia; done|].
  { simpl in Hf. lia. }
  rewrite zlen_cons. pose proof (zlen_nonneg l). replace (zlen l1 <? zlen l1 + (1 + (1 + zlen l)) - 1) with true by lia.
  unfold bind at 1. rewrite (ld_spec _ x) by (cbn [arr]; rewrite zget_app_r, Z.sub_diag by lia; done).
  unfold bind at 1. rewrite (ld_spec _ y) by (cbn [arr]; rewrite zget_app_r by lia; replace (zlen l1 + 1 - zlen l1) with 1 by lia; done).
  apply Sorted_inv in Hs as [Hs Hxy]. inversion_clear Hxy as [|? ? Hle]. destruct (Z.gtb_spec x y); [lia|].
  change (l1 ++ x :: y :: l) with (l1 ++ [x] ++ y :: l). rewrite app_assoc. replace (zlen l1 + 1) with (zlen (l1 ++ [x])) by (rewrite zlen_app; done).
  apply IH; [by rewrite <- app_assoc|done|simpl in Hf; lia].
Qed.
(** The test passes whatever [random] gives. *)
Lemma sort_test_passes random s : zlen (tmp s) = SIZE → ∃ s', main random s = Ok true s'.
Proof.
  intros Ht. assert (H0 : 0 < SIZE) by (unfold SIZE; lia). unfold main, initarray, bind at 1, modify at 1. set (l := random <$> seq 0 (Z.to_nat SIZE)).
  assert (Hl : zlen l = SIZE) by (unfold l, zlen; rewrite length_fmap, length_seq; apply Z2Nat.id; lia).
  clearbody l.
  destruct (sort_spec (Z.to_nat SIZE) 0 SIZE [] l [] (tmp s)) as (l' & t' & Hr & Hs & Hp & _); [reflexivity|symmetry; exact Hl|lia|unfold zlen in Hl; lia|].
  rewrite !app_nil_l, !app_nil_r in Hr. exists (mkmemory l' t'). unfold bind. rewrite Hr.
  assert (Hl' : zlen l' = SIZE) by (rewrite <- Hl; unfold zlen; by rewrite Hp). destruct l' as [|x l']; [rewrite zlen_nil in Hl'; lia|].
  apply (check_spec _ [] x l' t'); [exact Hl'|exact Hs|]. rewrite zlen_cons in Hl'. unfold zlen in Hl'. lia.
Qed.

(** C30 The sorting routine ends, with the part of the array it was given in
    order: the result is a permutation of what was there, nothing outside of
    that part changes, and no access is outside of the arrays; the buffer that
    the recursive calls share does no harm. *)
Theorem sort_correct l1 l l2 t :
  zlen l ≤ zlen t →
  ∃ l' t', sort (length l) (zlen l1) (zlen l) (mkmemory (l1 ++ l ++ l2) t) = Ok tt (mkmemory (l1 ++ l' ++ l2) t') ∧
    Sorted (≤) l' ∧ l' ≡ₚ l ∧ zlen t' = zlen t.
Proof. intros Ht. by apply sort_spec. Qed.
Lemma sort_correct_witness :
  ∃ l' t', sort 3 1 3 (mkmemory [9; 3; -1; 2; 0] [7; 7; 7]) = Ok tt (mkmemory ([9] ++ l' ++ [0]) t') ∧
    Sorted (≤) l' ∧ l' ≡ₚ [3; -1; 2] ∧ zlen t' = 3.
Proof. exact (sort_correct [9] [3; -1; 2] [0] [7; 7; 7] ltac:(vm_compute; discriminate)). Defined.
