(* ===== verification/Stoplight.v ===== *)
(** * The intersection (kern/asst1/stoplight.c)

    Cars cross an intersection of four quadrants, each guarded by a semaphore;
    at most three are let in at a time.  A thread runs up to its next [P], [V]
    or message; between these the threads interleave in any order. *)

From S2P Require Import Prelude.

(** ** The routes *)

Inductive quadrant := NW | NE | SW | SE.
#[global] Instance quadrant_eq_dec : EqDecision quadrant.
Proof. solve_decision. Defined.
Definition quadrants : list quadrant := [NW; NE; SW; SE].

(** The calls a car makes on its way; [dest] is the last argument of
    [message]. *)
Inductive action := A_P (q : quadrant) | A_V (q : quadrant) | A_message (msg_nr dest : Z).
#[global] Instance action_eq_dec : EqDecision action.
Proof. solve_decision. Defined.

Definition gostraight (cardirection : Z) : list action :=
  match cardirection with
  | 0 => [A_message 0 2; A_P NW; A_message 1 2; A_P SW; A_message 2 2; A_V NW; A_message 4 2; A_V SW]
  | 1 => [A_message 0 3; A_P NE; A_message 1 3; A_P NW; A_message 2 3; A_V NE; A_message 4 3; A_V NW]
  | 2 => [A_message 0 0; A_P SE; A_message 1 0; A_P NE; A_message 2 0; A_V SE; A_message 4 0; A_V NE]
  | 3 => [A_message 0 1; A_P SW; A_message 1 1; A_P SE; A_message 2 1; A_V SW; A_message 4 1; A_V SE]
  | _ => []
  end.
Definition turnleft (cardirection : Z) : list action :=
  match cardirection with
  | 0 => [A_message 0 1; A_P NW; A_message 1 1; A_P SW; A_message 2 1; A_V NW; A_P SE; A_message 3 1; A_V SW; A_message 4 1; A_V SE]
  | 1 => [A_message 0 2; A_P NE; A_message 1 2; A_P NW; A_message 2 2; A_V NE; A_P SW; A_message 3 2; A_V NW; A_message 4 2; A_V SW]
  | 2 => [A_message 0 3; A_P SE; A_message 1 3; A_P NE; A_message 2 3; A_V SE; A_P NW; A_message 3 3; A_V NE; A_message 4 3; A_V NW]
  | 3 => [A_message 0 0; A_P SW; A_message 1 0; A_P SE; A_message 2 0; A_V SW; A_P NE; A_message 3 0; A_V SE; A_message 4 0; A_V NE]
  | _ => []
  end.
Definition turnright (cardirection : Z) : list action :=
  match cardirection with
  | 0 => [A_message 0 3; A_P NW; A_message 1 3; A_message 4 3; A_V NW]
  | 1 => [A_message 0 0; A_P NE; A_message 1 0; A_message 4 0; A_V NE]
  | 2 => [A_message 0 1; A_P SE; A_message 1 1; A_message 4 1; A_V SE]
  | 3 => [A_message 0 2; A_P SW; A_message 1 2; A_message 4 2; A_V SW]
  | _ => []
  end.
(** The nested [switch] of [approachintersection]. *)
Definition route (cardirection cardestination : Z) : list action :=
  match cardirection, cardestination with
  | 0, 1 => turnleft cardirection | 0, 2 => gostraight cardirection | 0, 3 => turnright cardirection
  | 1, 0 => turnright cardirection | 1, 2 => turnleft cardirection | 1, 3 => gostraight cardirection
  | 2, 0 => gostraight cardirection | 2, 1 => turnright cardirection | 2, 3 => turnleft cardirection
  | 3, 0 => turnleft cardirection | 3, 1 => gostraight cardirection | 3, 2 => turnright cardirection
  | _, _ => []
  end.

(** ** The threads *)

(** Where a thread is in [approachintersection]: before [P(sem_carcount)], at
    the test of [carcount], before the [V] of either branch; on its route;
    then before the second [P(sem_carcount)], before [carcount--] and before
    the last [V]. *)
Inductive place :=
| Enter | Testing | LetIn | Refused
| Driving (rest : list action)
| Leave | Leaving | Left | Gone.
#[global] Instance place_eq_dec : EqDecision place.
Proof. solve_decision. Defined.
Record car := mkcar { cardirection : Z; cardestination : Z; at_ : place }.

(** The counts of the semaphores, [carcount], and what was printed: the
    message, the car, where it comes from and where it goes. *)
Record world := mkworld {
  cars : list car;
  sem_carcount : Z;
  sem_of : quadrant → Z;
  carcount : Z;
  printed : list (Z * nat * Z * Z);
}.

Definition put_car (i : nat) (c : car) (w : world) : world :=
  mkworld (<[i := c]> (cars w)) (sem_carcount w) (sem_of w) (carcount w) (printed w).
Definition go (c : car) (p : place) : car := mkcar (cardirection c) (cardestination c) p.
Definition set_sc (n : Z) (w : world) : world := mkworld (cars w) n (sem_of w) (carcount w) (printed w).
Definition set_count (n : Z) (w : world) : world := mkworld (cars w) (sem_carcount w) (sem_of w) n (printed w).
Definition set_sem (q : quadrant) (n : Z) (w : world) : world :=
  mkworld (cars w) (sem_carcount w) (λ x, if decide (x = q) then n else sem_of w x) (carcount w) (printed w).
Definition say (m : Z * nat * Z * Z) (w : world) : world :=
  mkworld (cars w) (sem_carcount w) (sem_of w) (carcount w) (printed w ++ [m]).

(** One step of car [i]; nothing when it must wait or is gone. *)
Definition car_step (i : nat) (w : world) : option world :=
  c ← cars w !! i;
  match at_ c with
  | Enter => if sem_carcount w >? 0 then Some (put_car i (go c Testing) (set_sc (sem_carcount w - 1) w)) else None
  | Testing =>
      if carcount w <? 3 then Some (put_car i (go c LetIn) (set_count (carcount w + 1) w))
      else Some (put_car i (go c Refused) w)
  | LetIn =>
      Some (put_car i (go c (Driving (route (cardirection c) (cardestination c)))) (set_sc (sem_carcount w + 1) w))
  | Refused => Some (put_car i (go c Enter) (set_sc (sem_carcount w + 1) w))
  | Driving [] => Some (put_car i (go c Leave) w)
  | Driving (A_P q :: l) =>
      if sem_of w q >? 0 then Some (put_car i (go c (Driving l)) (set_sem q (sem_of w q - 1) w)) else None
  | Driving (A_V q :: l) => Some (put_car i (go c (Driving l)) (set_sem q (sem_of w q + 1) w))
  | Driving (A_message k d :: l) => Some (put_car i (go c (Driving l)) (say (k, i, cardirection c, d) w))
  | Leave => if sem_carcount w >? 0 then Some (put_car i (go c Leaving) (set_sc (sem_carcount w - 1) w)) else None
  | Leaving => Some (put_car i (go c Left) (set_count (carcount w - 1) w))
  | Left => Some (put_car i (go c Gone) (set_sc (sem_carcount w + 1) w))
  | Gone => None
  end.

(** Any car, any number of steps. *)
Inductive steps (w : world) : world → Prop :=
| steps_refl : steps w w
| steps_more i w' w'' : car_step i w = Some w' → steps w' w'' → steps w w''.

(** [createcars], for any number of cars, each with a direction and another
    destination. *)
Definition createcars (l : list (Z * Z)) : world :=
  mkworld ((λ p, mkcar p.1 p.2 Enter) <$> l) 1 (λ _, 1) 0 [].
Definition choices (l : list (Z * Z)) : Prop :=
  Forall (λ p, 0 ≤ p.1 < 4 ∧ 0 ≤ p.2 < 4 ∧ p.1 ≠ p.2) l.

(** ** What a car holds *)

(** The quadrants it will still give back and has not still to take. *)
Fixpoint imbalance (q : quadrant) (l : list action) : Z :=
  match l with
  | [] => 0
  | A_P x :: l' => (if decide (x = q) then -1 else 0) + imbalance q l'
  | A_V x :: l' => (if decide (x = q) then 1 else 0) + imbalance q l'
  | A_message _ _ :: l' => imbalance q l'
  end.
Definition holds (q : quadrant) (c : car) : Z := match at_ c with Driving l => imbalance q l | _ => 0 end.
Definition in_quadrant (q : quadrant) (c : car) : Prop := 0 < holds q c.
(** Counted by [carcount]; in the critical section of [sem_carcount]; on its
    way to the end. *)
Definition inside (c : car) : Z := match at_ c with LetIn | Driving _ | Leave | Leaving => 1 | _ => 0 end.
Definition critical (c : car) : Z := match at_ c with Testing | LetIn | Refused | Leaving | Left => 1 | _ => 0 end.
