(* ===== verification/StoplightThm.v ===== *)
(** * The intersection: no collision, no deadlock *)

From S2P Require Import Prelude Stoplight.

(** ** Sums over the cars *)

Definition total (f : car → Z) (l : list car) : Z := foldr (λ c n, f c + n) 0 l.
Definition nonneg (f : car → Z) (l : list car) : Prop := Forall (λ c, 0 ≤ f c) l.

Lemma total_insert f l i c c' : l !! i = Some c → total f (<[i := c']> l) = total f l - f c + f c'.
Proof. revert i. induction l as [|x l IH]; intros [|i] Hi; simplify_eq/=; [lia|]. rewrite IH by done. lia. Qed.
Lemma total_nonneg f l : nonneg f l → 0 ≤ total f l.
Proof. induction 1; simpl; lia. Qed.
Lemma total_one f l i c : nonneg f l → l !! i = Some c → f c ≤ total f l.
Proof.
  intros Hf. revert i. induction Hf as [|x l Hx Hf IH]; intros [|i] Hi; simplify_eq/=; [pose proof (total_nonneg f l Hf); lia|].
  specialize (IH i Hi). lia.
Qed.
Lemma total_two f l i j c d : nonneg f l → l !! i = Some c → l !! j = Some d → i ≠ j → f c + f d ≤ total f l.
Proof.
  intros Hf. revert i j. induction Hf as [|x l Hx Hf IH]; intros [|i] [|j] Hi Hj Hij; simplify_eq/=.
  - pose proof (total_one f l j d Hf Hj). lia.
  - pose proof (total_one f l i c Hf Hi). lia.
  - specialize (IH i j Hi Hj ltac:(lia)). lia.
Qed.
Lemma total_le f g l : Forall (λ c, f c ≤ g c) l → total f l ≤ total g l.
Proof. induction 1; simpl; lia. Qed.
Lemma total_add f g l : total (λ c, f c + g c) l = total f l + total g l.
Proof. induction l; simpl; lia. Qed.
Lemma total_pos f l : nonneg f l → 0 < total f l → ∃ i c, l !! i = Some c ∧ 0 < f c.
Proof.
  induction 1 as [|x l Hx Hf IH]; simpl; intros Ht; [lia|]. destruct (decide (0 < f x)); [by exists O, x|].
  destruct IH as (i & c & Hi & Hc); [lia|by exists (S i), c].
Qed.
Lemma total_zero f l i c : nonneg f l → total f l = 0 → l !! i = Some c → f c = 0.
Proof.
  intros Hf Ht Hi. pose proof (total_one f l i c Hf Hi). unfold nonneg in Hf. rewrite Forall_lookup in Hf. specialize (Hf i c Hi). lia.
Qed.

(** ** Routes *)

(** The quadrant behind, in the direction of travel. *)
Definition next (q : quadrant) : quadrant := match q with NW => SW | SW => SE | SE => NE | NE => NW end.
Fixpoint tails (l : list action) : list (list action) := l :: match l with [] => [] | _ :: l' => tails l' end.
Definition routes : list (list action) := d ← [0; 1; 2; 3]; e ← [0; 1; 2; 3]; [route d e].

Lemma tails_tail a l p : a :: l ∈ tails p → l ∈ tails p.
Proof.
  induction p as [|x p IH]; simpl; [intros [?|?]%elem_of_cons; [done|by apply elem_of_nil in H]|].
  intros [[= -> ->]|H]%elem_of_cons; apply elem_of_cons; right; [|by apply IH]. destruct p; apply elem_of_cons; by left.
Qed.
Lemma tails_self p : p ∈ tails p.
Proof. destruct p; apply elem_of_cons; by left. Qed.

(** What is checked of every route and every place on it: a quadrant is held
    or not; a car that takes a quadrant holds at most the one before it. *)
Definition held (l : list action) : Z := imbalance NW l + imbalance NE l + imbalance SW l + imbalance SE l.
Definition rest_ok (l : list action) : bool :=
  forallb (λ q, (0 <=? imbalance q l) && (imbalance q l <=? 1)) quadrants &&
  match l with
  | A_P q :: _ => (held l <=? 1) && forallb (λ x, (imbalance x l =? 0) || bool_decide (next x = q)) quadrants
  | _ => true
  end.
Lemma routes_ok : forallb (λ p, (held p =? 0) && forallb (λ q, imbalance q p =? 0) quadrants && forallb rest_ok (tails p)) routes = true.
Proof. vm_compute. reflexivity. Qed.

Local Ltac each_route d e :=
  assert (d = 0 ∨ d = 1 ∨ d = 2 ∨ d = 3) as [->|[->|[->| ->]]] by lia; assert (e = 0 ∨ e = 1 ∨ e = 2 ∨ e = 3) as [->|[->|[->| ->]]] by lia.
Lemma in_quadrants q : q ∈ quadrants.
Proof. destruct q; unfold quadrants; set_solver. Qed.
Lemma in_routes d e : 0 ≤ d < 4 → 0 ≤ e < 4 → route d e ∈ routes.
Proof.
  intros Hd He. each_route d e; unfold routes; simpl; set_solver.
Qed.
Lemma route_checked d e : 0 ≤ d < 4 → 0 ≤ e < 4 →
  (∀ q, imbalance q (route d e) = 0) ∧ ∀ l, l ∈ tails (route d e) → rest_ok l = true.
Proof.
  intros Hd He. pose proof routes_ok as Hr. rewrite forallb_forall in Hr. specialize (Hr _ (proj1 (list_elem_of_In _ _) (in_routes d e Hd He))).
  apply andb_true_iff in Hr as [[_ Hq]%andb_true_iff Hl]. rewrite forallb_forall in Hq, Hl. split.
  - intros q. apply Z.eqb_eq, Hq, list_elem_of_In, in_quadrants.
  - intros l Hin. apply Hl. by apply list_elem_of_In.
Qed.
Lemma rest_ok_held l q : rest_ok l = true → 0 ≤ imbalance q l ≤ 1.
Proof.
  intros [Hq _]%andb_true_iff. rewrite forallb_forall in Hq. specialize (Hq q (proj1 (list_elem_of_In _ _) (in_quadrants q))). lia.
Qed.
Lemma rest_ok_next l q x : rest_ok (A_P q :: l) = true → 0 < imbalance x (A_P q :: l) → next x = q.
Proof.
  intros [_ [_ Hq]%andb_true_iff]%andb_true_iff Hx. rewrite forallb_forall in Hq.
  specialize (Hq x (proj1 (list_elem_of_In _ _) (in_quadrants x))). apply orb_true_iff in Hq as [Hq|Hq]; [lia|]. by apply bool_decide_eq_true in Hq.
Qed.
Lemma rest_ok_one l q : rest_ok (A_P q :: l) = true → held (A_P q :: l) ≤ 1.
Proof. intros [_ [Hq _]%andb_true_iff]%andb_true_iff. lia. Qed.

(** ** The invariant *)

Definition car_ok (c : car) : Prop :=
  (0 ≤ cardirection c < 4 ∧ 0 ≤ cardestination c < 4) ∧
  match at_ c with Driving l => l ∈ tails (route (cardirection c) (cardestination c)) | _ => True end.
Record inv (w : world) : Prop := {
  i_cars : Forall car_ok (cars w);
  i_sc : 0 ≤ sem_carcount w ∧ sem_carcount w + total critical (cars w) = 1;
  i_sem : ∀ q, 0 ≤ sem_of w q ∧ sem_of w q + total (holds q) (cars w) = 1;
  i_count : carcount w = total inside (cars w);
  i_max : carcount w ≤ 3;
}.

Lemma car_rest c l : car_ok c → at_ c = Driving l → rest_ok l = true.
Proof. intros [[Hd He] Hp] Hat. rewrite Hat in Hp. by apply (route_checked _ _ Hd He). Qed.
Lemma holds_nonneg q c : car_ok c → 0 ≤ holds q c.
Proof. intros Hc. unfold holds. destruct (at_ c) eqn:Hat; try done. by apply rest_ok_held, (car_rest c). Qed.
Lemma cars_holds q l : Forall car_ok l → nonneg (holds q) l.
Proof. intros Hl. eapply Forall_impl; [exact Hl|]. intros c. apply holds_nonneg. Qed.
Lemma critical_nonneg l : nonneg critical l.
Proof. apply Forall_true. intros c. unfold critical. by destruct (at_ c). Qed.
Lemma inside_nonneg l : nonneg inside l.
Proof. apply Forall_true. intros c. unfold inside. by destruct (at_ c). Qed.

(** A step of one car, by its effect on the sums. *)
Lemma inv_step w i c c' sc sq n pr :
  inv w → cars w !! i = Some c → car_ok c' →
  0 ≤ sc → sc + critical c' = sem_carcount w + critical c →
  (∀ q, 0 ≤ sq q ∧ sq q + holds q c' = sem_of w q + holds q c) →
  n + inside c = carcount w + inside c' → n ≤ 3 →
  inv (mkworld (<[i := c']> (cars w)) sc sq n pr).
Proof.
  intros [Hc [H0 H1] Hq Hn Hm] Hi Hc' Hsc0 Hsc Hsq Hnn Hmm. split; simpl.
  - by apply Forall_insert.
  - split; [done|]. rewrite (total_insert _ _ _ _ _ Hi). lia.
  - intros q. destruct (Hsq q), (Hq q). split; [done|]. rewrite (total_insert _ _ _ _ _ Hi). lia.
  - rewrite (total_insert _ _ _ _ _ Hi). lia.
  - done.
Qed.

Lemma go_ok c p : car_ok c → (∀ l, p = Driving l → l ∈ tails (route (cardirection c) (cardestination c))) → car_ok (go c p).
Proof. intros [Hd _] Hp. split; [exact Hd|]. simpl. destruct p; try done. by apply Hp. Qed.

(** A step that takes and gives back no quadrant. *)
Lemma inv_quiet w i c p sc n pr :
  inv w → cars w !! i = Some c → car_ok (go c p) → (∀ q, holds q (go c p) = holds q c) →
  0 ≤ sc → sc + critical (go c p) = sem_carcount w + critical c → n + inside c = carcount w + inside (go c p) → n ≤ 3 →
  inv (mkworld (<[i := go c p]> (cars w)) sc (sem_of w) n pr).
Proof.
  intros Hw Hi Hc Hh H0 H1 H2 H3. apply (inv_step w i c); try done. intros q. destruct (i_sem _ Hw q). by rewrite Hh.
Qed.
(** A step on the route. *)
Lemma inv_drive w i c a l sq pr :
  inv w → cars w !! i = Some c → at_ c = Driving (a :: l) →
  (∀ q, 0 ≤ sq q ∧ sq q + imbalance q l = sem_of w q + imbalance q (a :: l)) →
  inv (mkworld (<[i := go c (Driving l)]> (cars w)) (sem_carcount w) sq (carcount w) pr).
Proof.
  intros Hw Hi Hat Hq. pose proof (proj1 (Forall_lookup _ _) (i_cars _ Hw) _ _ Hi) as Hc.
  apply (inv_step w i c); unfold critical, inside, holds; simpl; rewrite ?Hat; try done; [|apply Hw|apply Hw].
  apply go_ok; [done|]. intros l' [= <-]. destruct Hc as [_ Hc]. rewrite Hat in Hc. by eapply tails_tail.
Qed.

Local Ltac sums Hat := unfold holds, critical, inside; simpl; rewrite Hat; done || lia.
Lemma car_step_inv i w w' : inv w → car_step i w = Some w' → inv w'.
Proof.
  intros Hw Hs. pose proof Hw as [Hc [H0 H1] Hq Hn Hm]. unfold car_step in Hs. destruct (cars w !! i) as [c|] eqn:Hi; [|done]. cbn [mbind option_bind] in Hs.
  assert (Hci : car_ok c) by (rewrite Forall_lookup in Hc; by eapply Hc). pose proof Hci as [[Hd He] Hp].
  assert (Hgo : ∀ p, (∀ l, p ≠ Driving l) → car_ok (go c p)) by (intros p Hx; apply go_ok; [done|intros l ->; by destruct (Hx l)]).
  assert (Hquiet : ∀ p sc n, car_ok (go c p) → (∀ q, holds q (go c p) = holds q c) → 0 ≤ sc → sc + critical (go c p) = sem_carcount w + critical c →
    n + inside c = carcount w + inside (go c p) → n ≤ 3 → inv (put_car i (go c p) (set_count n (set_sc sc w)))) by (intros; by apply (inv_quiet w i c)).
  destruct (at_ c) as [| | | |[|[q|q|k d] l]| | | |] eqn:Hat.
  - destruct (Z.gtb_spec (sem_carcount w) 0); [|done]. injection Hs as <-. apply (Hquiet Testing (sem_carcount w - 1) (carcount w)); [by apply Hgo|sums Hat|lia|sums Hat|sums Hat|done].
  - destruct (Z.ltb_spec (carcount w) 3); injection Hs as <-;
      [apply (Hquiet LetIn (sem_carcount w) (carcount w + 1)); [by apply Hgo|sums Hat|done|sums Hat|sums Hat|lia]|apply (Hquiet Refused (sem_carcount w) (carcount w)); [by apply Hgo|sums Hat|done|sums Hat|sums Hat|lia]].
  - injection Hs as <-. destruct (route_checked _ _ Hd He) as [Hz _]. apply (Hquiet (Driving _) (sem_carcount w + 1) (carcount w)); [|intros q; unfold holds; simpl; rewrite Hat; apply Hz|lia|sums Hat|sums Hat|done].
    apply go_ok; [done|]. intros l [= <-]. apply tails_self.
  - injection Hs as <-. apply (Hquiet Enter (sem_carcount w + 1) (carcount w)); [by apply Hgo|sums Hat|lia|sums Hat|sums Hat|done].
  - injection Hs as <-. apply (Hquiet Leave (sem_carcount w) (carcount w)); [by apply Hgo|sums Hat|done|sums Hat|sums Hat|done].
  - destruct (Z.gtb_spec (sem_of w q) 0); [|done]. injection Hs as <-. apply (inv_drive w i c (A_P q) l); try done.
    intros x. destruct (Hq x). simpl. repeat case_decide; subst; try done; lia.
  - injection Hs as <-. apply (inv_drive w i c (A_V q) l); try done. intros x. destruct (Hq x). simpl. repeat case_decide; subst; try done; lia.
  - injection Hs as <-. apply (inv_drive w i c (A_message k d) l); try done. intros x. destruct (Hq x). done.
  - destruct (Z.gtb_spec (sem_carcount w) 0); [|done]. injection Hs as <-. apply (Hquiet Leaving (sem_carcount w - 1) (carcount w)); [by apply Hgo|sums Hat|lia|sums Hat|sums Hat|done].
  - injection Hs as <-. apply (Hquiet Left (sem_carcount w) (carcount w - 1)); [by apply Hgo|sums Hat|done|sums Hat|sums Hat|lia].
  - injection Hs as <-. apply (Hquiet Gone (sem_carcount w + 1) (carcount w)); [by apply Hgo|sums Hat|lia|sums Hat|sums Hat|done].
  - done.
Qed.
Lemma steps_inv w w' : inv w → steps w w' → inv w'.
Proof. intros Hw Hs. induction Hs as [|w i w1 w2 H1 _ IH]; [done|]. apply IH. by eapply car_step_inv. Qed.
Lemma createcars_inv l : choices l → inv (createcars l).
Proof.
  intros Hl. assert (Hz : ∀ f, (∀ d e, f (mkcar d e Enter) = 0) → total f (cars (createcars l)) = 0).
  { intros f Hf. simpl. clear Hl. induction l as [|p l IH]; [done|]. rewrite fmap_cons. unfold total in *. cbn [foldr]. rewrite Hf, IH. done. }
  split; simpl; [|by rewrite Hz|by intros q; rewrite Hz|by rewrite Hz|done].
  apply Forall_fmap. eapply Forall_impl; [exact Hl|]. intros [d e] (? & ? & ?). done.
Qed.

(** ** Progress *)

(** An inside car that need not wait, [sem_carcount] being free. *)
Definition moves (w : world) (c : car) : bool :=
  match at_ c with
  | Driving (A_P q :: _) => sem_of w q >? 0
  | Driving _ | LetIn | Leave | Leaving => true
  | _ => false
  end.
Lemma stuck_car w c : inv w → c ∈ cars w → 0 < inside c → moves w c = false → ∃ q l, at_ c = Driving (A_P q :: l) ∧ sem_of w q = 0.
Proof.
  intros Hw Hc Hi Hm. unfold inside, moves in *. destruct (at_ c) as [| | | |[|[q|q|k d] l]| | | |]; try done.
  exists q, l. split; [done|]. destruct (i_sem _ Hw q). lia.
Qed.

Section stuck.
Context w (Hw : inv w) (Hstuck : Forall (λ c, moves w c = false) (cars w)).
#[local] Set Default Proof Using "All".

(** The holder of a taken quadrant waits for the next one. *)
Lemma taken_next q : sem_of w q = 0 → sem_of w (next q) = 0.
Proof.
  intros Hq. destruct (i_sem _ Hw q) as [_ Ht]. pose proof (i_cars _ Hw) as Hc.
  destruct (total_pos (holds q) (cars w)) as (i & c & Hi & Hh); [by apply cars_holds|lia|].
  pose proof (list_elem_of_lookup_2 _ _ _ Hi) as Hin. rewrite Forall_forall in Hc, Hstuck.
  destruct (stuck_car w c Hw Hin) as (q' & l & Hat & Hz); [|by apply Hstuck|].
  - unfold holds, inside in *. destruct (at_ c); lia.
  - unfold holds in Hh. rewrite Hat in Hh. by rewrite (rest_ok_next l q' q (car_rest c _ (Hc c Hin) Hat) Hh).
Qed.
Lemma taken_all q x : sem_of w q = 0 → sem_of w x = 0.
Proof.
  intros H1. pose proof (taken_next _ H1) as H2. pose proof (taken_next _ H2) as H3. pose proof (taken_next _ H3) as H4.
  by destruct q, x.
Qed.
(** Four taken quadrants need four cars inside. *)
Lemma nobody_inside : total inside (cars w) = 0.
Proof.
  destruct (decide (total inside (cars w) = 0)) as [|Hne]; [done|exfalso]. pose proof (total_nonneg _ _ (inside_nonneg (cars w))).
  destruct (total_pos inside (cars w)) as (i & c & Hi & Hin); [apply inside_nonneg|lia|]. pose proof (list_elem_of_lookup_2 _ _ _ Hi) as Hc.
  pose proof (proj1 (Forall_forall _ _) Hstuck) as Hst. pose proof (proj1 (Forall_forall _ _) (i_cars _ Hw)) as Hok.
  destruct (stuck_car w c Hw Hc Hin (Hst c Hc)) as (q & l & _ & Hq).
  assert (Hall : ∀ x, total (holds x) (cars w) = 1) by (intros x; destruct (i_sem _ Hw x); rewrite (taken_all q x Hq) in *; lia).
  assert (Hle : total (λ c, holds NW c + holds NE c + holds SW c + holds SE c) (cars w) ≤ total inside (cars w)).
  { apply total_le, Forall_forall. intros d Hd. unfold holds, inside. destruct (at_ d) as [| | | |r| | | |] eqn:Hat; try lia.
    destruct (stuck_car w d Hw Hd) as (x & l' & Hx & _); [unfold inside; by rewrite Hat|by apply Hst|]. rewrite Hat in Hx. injection Hx as ->.
    pose proof (rest_ok_one _ _ (car_rest d _ (Hok d Hd) Hat)). unfold held in *. lia. }
  rewrite !total_add, !Hall, <- (i_count _ Hw) in Hle. pose proof (i_max _ Hw). lia.
Qed.
End stuck.

(** ** Everyone gets across *)

Definition weight (c : car) : Z :=
  match at_ c with
  | Enter | Testing | Refused => 20
  | LetIn => 19
  | Driving l => 4 + zlen l
  | Leave => 3 | Leaving => 2 | Left => 1 | Gone => 0
  end.
Definition load (w : world) : Z := total weight (cars w).
Lemma weight_nonneg l : nonneg weight l.
Proof. apply Forall_true. intros c. unfold weight. destruct (at_ c) as [| | | |l'| | | |]; try done. pose proof (zlen_nonneg l'). lia. Qed.
Lemma route_short d e : 0 ≤ d < 4 → 0 ≤ e < 4 → zlen (route d e) < 15.
Proof.
  intros Hd He. each_route d e; done.
Qed.
Lemma load_step w i c c' w' : cars w !! i = Some c → cars w' = <[i := c']> (cars w) → load w' = load w - weight c + weight c'.
Proof. intros Hi He. unfold load. rewrite He. by apply total_insert. Qed.

Lemma step_down w i c :
  inv w → cars w !! i = Some c → moves w c = true ∨ at_ c = Left → (at_ c = Leave → 0 < sem_carcount w) →
  ∃ w', car_step i w = Some w' ∧ load w' < load w.
Proof.
  intros Hw Hi Hm Hl. pose proof (proj1 (Forall_lookup _ _) (i_cars _ Hw) _ _ Hi) as [[Hd He] _]. pose proof (route_short _ _ Hd He) as Hr.
  assert (Hgo : ∀ p w', car_step i w = Some w' → cars w' = <[i := go c p]> (cars w) → weight (go c p) < weight c → ∃ w', car_step i w = Some w' ∧ load w' < load w).
  { intros p w' Hs Hc Hlt. exists w'. split; [done|]. rewrite (load_step w i c (go c p)) by done. lia. }
  unfold car_step in *. rewrite Hi in *. cbn [mbind option_bind] in *. unfold moves in Hm.
  destruct (at_ c) as [| | | |[|[q|q|k d] l]| | | |] eqn:Hat; try (destruct Hm; done).
  - eapply (Hgo (Driving _)); [done|done|]. unfold weight. simpl. rewrite Hat. lia.
  - eapply (Hgo Leave); [done|done|]. unfold weight. simpl. rewrite Hat. done.
  - destruct Hm as [Hm|]; [|done]. rewrite Hm in *. eapply (Hgo (Driving _)); [done|done|]. unfold weight. simpl. rewrite Hat, zlen_cons. lia.
  - eapply (Hgo (Driving _)); [done|done|]. unfold weight. simpl. rewrite Hat, zlen_cons. lia.
  - eapply (Hgo (Driving _)); [done|done|]. unfold weight. simpl. rewrite Hat, zlen_cons. lia.
  - specialize (Hl eq_refl). rewrite (proj2 (Z.gtb_gt _ _)) in * by lia. eapply (Hgo Leaving); [done|done|]. unfold weight. simpl. by rewrite Hat.
  - eapply (Hgo Left); [done|done|]. unfold weight. simpl. by rewrite Hat.
  - eapply (Hgo Gone); [done|done|]. unfold weight. simpl. by rewrite Hat.
Qed.

(** [sem_carcount] is given back by whoever has it. *)
Lemma free_carcount w : inv w → ∃ w', steps w w' ∧ (load w' < load w ∨ load w' = load w ∧ sem_carcount w' = 1 ∧ inv w').
Proof.
  intros Hw. pose proof (i_sc _ Hw) as [H0 H1]. pose proof (critical_nonneg (cars w)) as Hn. pose proof (total_nonneg _ _ Hn).
  destruct (decide (sem_carcount w = 1)); [exists w; split; [constructor|auto]|].
  destruct (total_pos critical (cars w) Hn) as (i & c & Hi & Hc); [lia|]. unfold critical in Hc.
  assert (Hback : ∀ w1, inv w1 → load w1 = load w → cars w1 !! i = Some (go c Refused) → sem_carcount w1 = 0 →
    ∃ w', steps w1 w' ∧ (load w' < load w ∨ load w' = load w ∧ sem_carcount w' = 1 ∧ inv w')).
  { intros w1 Hw1 Hl1 Hi1 Hs1. destruct (car_step i w1) as [w2|] eqn:Hs; [|by unfold car_step in Hs; rewrite Hi1 in Hs].
    pose proof (car_step_inv _ _ _ Hw1 Hs) as Hw2. exists w2. split; [by econstructor; [|constructor]|]. right.
    unfold car_step in Hs. rewrite Hi1 in Hs. simplify_eq/=. split; [|split; [lia|done]]. rewrite (load_step w1 i (go c Refused) (go (go c Refused) Enter)) by done.
    unfold weight. simpl. lia. }
  destruct (decide (at_ c = Testing)) as [Hat|Hnt].
  - destruct (car_step i w) as [w1|] eqn:Hs; [|unfold car_step in Hs; rewrite Hi in Hs; simpl in Hs; rewrite Hat in Hs; by destruct (carcount w <? 3)].
    pose proof (car_step_inv _ _ _ Hw Hs) as Hw1. pose proof Hs as Hs'. unfold car_step in Hs'. rewrite Hi in Hs'. simpl in Hs'. rewrite Hat in Hs'.
    destruct (carcount w <? 3); injection Hs' as <-.
    + eexists. split; [by econstructor; [exact Hs|constructor]|]. left. rewrite (load_step w i c (go c LetIn)) by done. unfold weight. simpl. rewrite Hat. lia.
    + destruct (Hback (put_car i (go c Refused) w)) as (w' & Hw' & Hl); [done| | |simpl; lia|].
      * rewrite (load_step w i c (go c Refused)) by done. unfold weight. simpl. rewrite Hat. lia.
      * simpl. apply list_lookup_insert_eq. by eapply lookup_lt_Some.
      * exists w'. split; [by econstructor|done].
  - destruct (decide (at_ c = Refused)) as [Hat|Hnr].
    + apply Hback; [done|done|rewrite Hi; f_equal; destruct c; simpl in *; by subst|lia].
    + destruct (step_down w i c) as (w' & Hs & Hl); [done|done| |intros Hx; rewrite Hx in Hc; lia|].
      * unfold moves. destruct (at_ c); (lia || done || by auto).
      * exists w'. split; [by econstructor; [|constructor]|by left].
Qed.

Lemma steps_trans w1 w2 w3 : steps w1 w2 → steps w2 w3 → steps w1 w3.
Proof. induction 1; [done|]. intros. econstructor; eauto. Qed.
(** A car that enters an empty intersection is let in. *)
Lemma enter_down w w1 i c :
  steps w w1 → load w1 = load w → cars w1 !! i = Some c → at_ c = Enter → sem_carcount w1 = 1 → carcount w1 = 0 →
  ∃ w', steps w w' ∧ load w' < load w.
Proof.
  intros Hs Hl Hi Hat Hsc Hcc. set (w2 := put_car i (go c Testing) (set_sc (sem_carcount w1 - 1) w1)).
  assert (Hi2 : cars w2 !! i = Some (go c Testing)) by (apply list_lookup_insert_eq; by eapply lookup_lt_Some).
  assert (H1 : car_step i w1 = Some w2) by (unfold car_step; rewrite Hi; cbn [mbind option_bind]; rewrite Hat, (proj2 (Z.gtb_gt _ _)) by lia; done).
  assert (H2 : car_step i w2 = Some (put_car i (go (go c Testing) LetIn) (set_count (carcount w2 + 1) w2))).
  { unfold car_step. rewrite Hi2. cbn [mbind option_bind]. change (at_ (go c Testing)) with Testing. change (carcount w2) with (carcount w1). by rewrite Hcc. }
  eexists. split; [eapply steps_trans; [exact Hs|]; econstructor; [exact H1|]; econstructor; [exact H2|constructor]|].
  rewrite (load_step w2 i (go c Testing) (go (go c Testing) LetIn)) by done.
  rewrite (load_step w1 i c (go c Testing)) by done. unfold weight. simpl. rewrite Hat. lia.
Qed.

Lemma load_down w : inv w → 0 < load w → ∃ w', steps w w' ∧ load w' < load w.
Proof.
  intros Hw Hl. destruct (free_carcount w Hw) as (w1 & Hs1 & [Hlt|(Hl1 & Hsc & Hw1)]); [by exists w1|].
  assert (Hnc : ∀ i c, cars w1 !! i = Some c → critical c = 0).
  { intros i c Hi. destruct (i_sc _ Hw1). apply (total_zero critical (cars w1) i); [apply critical_nonneg|lia|done]. }
  assert (Htrans : ∀ i w2, car_step i w1 = Some w2 → load w2 < load w1 → ∃ w', steps w w' ∧ load w' < load w).
  { intros i w2 Hi Hlt. exists w2. split; [|lia]. eapply steps_trans; [done|]. by econstructor; [|constructor]. }
  destruct (decide (Exists (λ c, moves w1 c = true) (cars w1))) as [Hm|Hm].
  - apply Exists_exists in Hm as (c & [i Hi]%list_elem_of_lookup & Hm). destruct (step_down w1 i c) as (w2 & H1 & H2); [done|done|by left|lia|]. by eapply Htrans.
  - assert (Hst : Forall (λ c, moves w1 c = false) (cars w1)).
    { apply Forall_forall. intros c Hc. destruct (moves w1 c) eqn:Hmc; [|done]. destruct Hm. apply Exists_exists. by exists c. }
    pose proof (nobody_inside w1 Hw1 Hst) as Hin. pose proof (i_count _ Hw1) as Hcc.
    destruct (total_pos weight (cars w1)) as (i & c & Hi & Hwt); [apply weight_nonneg|unfold load in *; lia|].
    assert (Hat : at_ c = Enter).
    { pose proof (Hnc i c Hi) as Hc. pose proof (total_zero inside (cars w1) i c (inside_nonneg _) Hin Hi) as Hii.
      unfold weight, critical, inside in *. destruct (at_ c); done. }
    apply (enter_down w w1 i c); try done. lia.
Qed.


Lemma load_done w : load w = 0 → Forall (λ c, at_ c = Gone) (cars w).
Proof.
  intros Hl. apply Forall_lookup. intros i c Hi. pose proof (total_zero weight _ i c (weight_nonneg _) Hl Hi) as Hz.
  unfold weight in Hz. destruct (at_ c) as [| | | |l| | | |]; try done. pose proof (zlen_nonneg l). lia.
Qed.
Lemma all_across w : inv w → ∃ w', steps w w' ∧ Forall (λ c, at_ c = Gone) (cars w').
Proof.
  intros Hw. pose proof (total_nonneg _ _ (weight_nonneg (cars w))) as H0. fold (load w) in H0.
  remember (Z.to_nat (load w)) as n eqn:Hn. revert w Hw H0 Hn. induction (lt_wf n) as [n _ IH]. intros w Hw H0 ->.
  destruct (decide (load w = 0)) as [Hz|Hnz]; [exists w; split; [constructor|by apply load_done]|].
  destruct (load_down w Hw) as (w1 & Hs1 & Hl1); [lia|]. pose proof (total_nonneg _ _ (weight_nonneg (cars w1))) as H1. fold (load w1) in H1.
  destruct (IH (Z.to_nat (load w1)) ltac:(lia) w1 (steps_inv _ _ Hw Hs1) H1 eq_refl) as (w2 & Hs2 & Hg).
  exists w2. split; [by eapply steps_trans|done].
Qed.

(** ** Messages *)

(** The quadrant a message speaks of: the first, second or third taken; the
    last one for the message of a car that leaves. *)
Definition taken (p : list action) : list quadrant := omap (λ a, match a with A_P q => Some q | _ => None end) p.
Definition region (p : list action) (msg_nr : Z) : option quadrant :=
  if msg_nr =? 0 then None else if msg_nr =? 4 then last (taken p) else taken p !! Z.to_nat (msg_nr - 1).
Definition speaks_ok (p l : list action) : bool :=
  match l with
  | A_message k _ :: _ => match region p k with Some q => imbalance q l =? 1 | None => k =? 0 end
  | _ => true
  end.
Lemma routes_speak : forallb (λ p, forallb (speaks_ok p) (tails p)) routes = true.
Proof. vm_compute. reflexivity. Qed.
Lemma car_speaks c k d l :
  car_ok c → at_ c = Driving (A_message k d :: l) → k ≠ 0 →
  ∃ q, region (route (cardirection c) (cardestination c)) k = Some q ∧ in_quadrant q c.
Proof.
  intros [[Hd He] Hp] Hat Hk. rewrite Hat in Hp. pose proof routes_speak as Hr. rewrite forallb_forall in Hr.
  specialize (Hr _ (proj1 (list_elem_of_In _ _) (in_routes _ _ Hd He))). cbv beta in Hr. rewrite forallb_forall in Hr.
  specialize (Hr _ (proj1 (list_elem_of_In _ _) Hp)). unfold speaks_ok in Hr.
  destruct (region _ k) as [q|]; [|lia]. exists q. split; [done|]. unfold in_quadrant, holds. rewrite Hat. lia.
Qed.

(** What a car has still to print. *)
Definition messages (l : list action) : list (Z * Z) := omap (λ a, match a with A_message k d => Some (k, d) | _ => None end) l.
Definition to_print (c : car) : list (Z * Z) :=
  match at_ c with
  | Enter | Testing | LetIn | Refused => messages (route (cardirection c) (cardestination c))
  | Driving l => messages l
  | _ => []
  end.
Lemma messages_dest d e : 0 ≤ d < 4 → 0 ≤ e < 4 → Forall (λ p, p.2 = e) (messages (route d e)).
Proof.
  intros Hd He. each_route d e; unfold messages; simpl; repeat constructor.
Qed.
Definition lines (i : nat) (c : car) (l : list (Z * Z)) : list (Z * nat * Z * Z) := (λ p, (p.1, i, cardirection c, p.2)) <$> l.
Definition of_car (i : nat) (w : world) : list (Z * nat * Z * Z) := filter (λ m, m.1.1.2 = i) (printed w).
Definition told (i : nat) (w : world) : Prop :=
  ∀ c, cars w !! i = Some c →
    of_car i w ++ lines i c (to_print c) = lines i c (messages (route (cardirection c) (cardestination c))).

Lemma told_step i j w w' : told i w → car_step j w = Some w' → told i w'.
Proof.
  intros Ht Hs. unfold car_step in Hs. destruct (cars w !! j) as [d|] eqn:Hj; [|done]. cbn [mbind option_bind] in Hs.
  assert (Hgo : ∀ p w1, cars w1 = cars w → printed w1 = printed w → to_print (go d p) = to_print d → told i (put_car j (go d p) w1)).
  { intros p w1 Hc Hpr Hl c Hi. simpl in Hi. rewrite Hc in Hi. unfold of_car, put_car. cbn [printed]. rewrite Hpr.
    destruct (decide (i = j)) as [->|Hne]; [|rewrite list_lookup_insert_ne in Hi by done; by apply Ht].
    rewrite list_lookup_insert_eq in Hi by (by eapply lookup_lt_Some). injection Hi as <-. rewrite Hl. exact (Ht d Hj). }
  destruct (at_ d) as [| | | |[|[q|q|k e] l]| | | |] eqn:Hat;
    try (first [destruct (_ >? _); [|done]|destruct (_ <? _)|idtac]; (done || injection Hs as <-; apply Hgo; try done; unfold to_print; simpl; by rewrite Hat)).
  injection Hs as <-. intros c Hi. simpl in Hi. unfold of_car, put_car, say. cbn [printed]. rewrite filter_app.
  destruct (decide (i = j)) as [->|Hne].
  - rewrite list_lookup_insert_eq in Hi by (by eapply lookup_lt_Some). injection Hi as <-. rewrite filter_cons_True by done.
    specialize (Ht d Hj). unfold to_print in Ht. rewrite Hat in Ht. rewrite <- app_assoc. exact Ht.
  - rewrite list_lookup_insert_ne in Hi by done. rewrite filter_cons_False by (simpl; congruence). rewrite filter_nil, app_nil_r. by apply Ht.
Qed.
Lemma steps_told i w w' : told i w → steps w w' → told i w'.
Proof. intros Hw Hs. induction Hs as [|w j w1 w2 H1 _ IH]; [done|]. apply IH. by eapply told_step. Qed.
Lemma createcars_told i l : told i (createcars l).
Proof. intros c Hi. simpl in Hi. rewrite list_lookup_fmap in Hi. by destruct (l !! i); simplify_eq/=. Qed.

(** ** Claims *)

Definition some_cars : list (Z * Z) := [(0, 2); (1, 2); (3, 0); (2, 1)].
Lemma some_choices : choices some_cars.
Proof. unfold choices, some_cars. repeat constructor; simpl; lia. Qed.
(** Steps of the cars of a schedule, those that must wait left out. *)
Definition run (l : list nat) (w : world) : world := foldl (λ w i, default w (car_step i w)) w l.
Lemma run_steps l w : steps w (run l w).
Proof.
  revert w. induction l as [|i l IH]; intros w; [constructor|]. cbn [run foldl]. fold (run l (default w (car_step i w))).
  destruct (car_step i w) as [w'|] eqn:Hi; [by econstructor|apply IH].
Qed.
(** Three cars on their way, the first in its second quadrant. *)
Definition busy : world := run ([0; 0; 0; 1; 1; 1; 2; 2; 2] ++ replicate 5 0 ++ replicate 2 1)%nat (createcars some_cars).
(** The last car across, the others not yet. *)
Definition one_gone : world := run ([0; 0; 0; 0; 0] ++ replicate 12 3)%nat (createcars some_cars).

(** C19 However the threads of [createcars] interleave, no two cars are ever
    in one quadrant of the intersection, [carcount] is the number of cars let
    in and not yet gone, and it never exceeds three; a car that is about to
    report a region, or that it leaves, is in that quadrant. *)
Theorem no_collision l w :
  choices l → steps (createcars l) w →
  (∀ q i j c d, cars w !! i = Some c → cars w !! j = Some d → i ≠ j → in_quadrant q c → in_quadrant q d → False) ∧
  carcount w = total inside (cars w) ∧ carcount w ≤ 3 ∧
  ∀ i c k e r, cars w !! i = Some c → at_ c = Driving (A_message k e :: r) → k ≠ 0 →
    ∃ q, region (route (cardirection c) (cardestination c)) k = Some q ∧ in_quadrant q c.
Proof.
  intros Hl Hs. pose proof (steps_inv _ _ (createcars_inv l Hl) Hs) as Hw. split; [|split; [apply Hw|split; [apply Hw|]]].
  - intros q i j c d Hi Hj Hij Hc Hd. pose proof (total_two (holds q) _ i j c d (cars_holds q _ (i_cars _ Hw)) Hi Hj Hij).
    destruct (i_sem _ Hw q). unfold in_quadrant in *. lia.
  - intros i c k e r Hi Hat Hk. apply (car_speaks c k e r); [|done|done]. by apply (proj1 (Forall_lookup _ _) (i_cars _ Hw) i).
Qed.

Lemma no_collision_witness :
  carcount busy = 3 ∧ (holds SW <$> (cars busy !! 0%nat)) = Some 1 ∧ carcount busy ≤ 3.
Proof.
  split; [vm_compute; reflexivity|]. split; [vm_compute; reflexivity|].
  exact (proj1 (proj2 (proj2 (no_collision some_cars busy some_choices (run_steps _ _))))).
Defined.

(** C20 From every state the cars can reach, all of them can still get across:
    the quadrants and [carcount] never deadlock, whatever the directions. *)
Theorem cars_can_finish l w :
  choices l → steps (createcars l) w → ∃ w', steps w w' ∧ Forall (λ c, at_ c = Gone) (cars w').
Proof. intros Hl Hs. apply all_across. by apply (steps_inv _ _ (createcars_inv l Hl)). Qed.

Lemma cars_can_finish_witness : ∃ w', steps busy w' ∧ Forall (λ c, at_ c = Gone) (cars w').
Proof. exact (cars_can_finish some_cars busy some_choices (run_steps _ _)). Defined.

(** A car that is gone has printed the messages of its route, in order and
    each once, with its own number, direction and destination. *)
Theorem messages_in_order l w i c :
  choices l → steps (createcars l) w → cars w !! i = Some c → at_ c = Gone →
  of_car i w = lines i c (messages (route (cardirection c) (cardestination c))) ∧
  Forall (λ m, m.2 = cardestination c) (of_car i w).
Proof.
  intros Hl Hs Hi Hat. pose proof (steps_told i _ _ (createcars_told i l) Hs c Hi) as Ht.
  unfold to_print in Ht. rewrite Hat, app_nil_r in Ht. split; [done|]. rewrite Ht. unfold lines. apply Forall_fmap.
  destruct (proj1 (Forall_lookup _ _) (i_cars _ (steps_inv _ _ (createcars_inv l Hl) Hs)) i c Hi) as [[Hd He] _].
  by apply messages_dest.
Qed.
Lemma messages_in_order_witness :
  of_car 3 one_gone = [(0, 3%nat, 2, 1); (1, 3%nat, 2, 1); (4, 3%nat, 2, 1)].
Proof.
  exact (proj1 (messages_in_order some_cars one_gone 3 (mkcar 2 1 Gone) some_choices (run_steps _ _) ltac:(vm_compute; reflexivity) eq_refl)).
Defined.
